(* ===== verification/_CoqProject ===== *)
-Q . S2P
Prelude.v
RustStr.v
F32.v
JobTypes.v
RecordStore.v
JobQueue.v
JobQueueFacts.v
JobQueueSpec.v
JobQueueProps.v
Governor.v
GovernorSpec.v
Paths.v
SkillPolicy.v
SkillExecutor.v
SkillSpec.v
Runner.v
RunnerSpec.v
Ledger.v
LedgerSpec.v
Outbox.v
ControlPlane.v
SyncSpec.v
Bus.v
BusSpec.v
SecureFs.v
Vault.v
VaultSpec.v
Superego.v
GateSpec.v
Protected.v
MemStore.v
MemSpec.v
Archive.v
ArchiveSpec.v
Cognitive.v
Router.v
RouterSpec.v
Json.v
Instructions.v
Chat.v
SkillKit.v
FileTree.v
FilesystemSkill.v
ShellSkill.v
RecordSkills.v
Prompts.v
JobTools.v
ChatLoop.v
Pipeline.v
ChatSpec.v
ChatLoopSpec.v
PipelineSpec.v
JobToolsSpec.v
Council.v
CouncilSpec.v
SoulForge.v
Agentic.v
AgenticSpec.v
UrlSecurity.v
HttpClient.v
Config.v
ConfigSpec.v
Identity.v
IdentitySpec.v
HostSkills.v
FilesystemSpec.v
SkillsSpec.v
Verifier.v
Birth.v
BirthSpec.v
VerifierSpec.v
WebSpec.v
Forge.v
Providers.v
Anthropic.v
ProvidersSpec.v
ProviderChoice.v
Crystallization.v
BirthChat.v
DynamicSkill.v
