(* ===== verification/Prelude.v ===== *)
(** * Abigail: a verification library

    Abigail is a set of cooperating daemons around a language-model assistant:
    an Entity runtime that chats, queues background jobs and executes skills; a
    Hive that holds identities, leases runtimes and collects what they did; and a
    first-run ("birth") procedure that creates a signed identity.  This library
    models the decisions of that program: the code between its inputs (messages,
    records, files, clock readings, random identifiers, provider answers) and
    its outputs.  The sources are under [src/crates/], the bundled
    skills under [src/skills/].

    ** Conventions

    - a method on [&mut self] is a function to the new object, or an action of
      the state-and-error monad [M] of this file when it can fail: the state is
      returned in both cases, since an error does not undo earlier writes;
    - [Result] is [result], [Option] is [option], a panic is [None] (or a
      documented argument); [u32], [u64], [i64] are [Z] with the wrap-around or
      saturation of the source written out; [usize] lengths are [nat]; [f32] and
      [f64] are [SpecFloat]'s binary32 and binary64; a Rust string is the Rocq [string] of its UTF-8
      bytes ([RustStr]), with ASCII case mapping and white space;
    - [Uuid::new_v4], [Utc::now] and other readings of the outside are
      arguments; the outcome of a write to disk is an argument ([disk], [Faults],
      ...), so that the theorems quantify over every failure;
    - third-party code (SHA-256, ed25519, JSON, base64, regular expressions,
      language models, the file system) is a section variable.  Where a theorem
      relies on it, the documented behaviour is a named hypothesis, and the
      witness instantiates it with a concrete function.

    ** Parts

    - [RustStr]: the string functions of the Rust standard library in use.
    - [JobTypes], [JobQueue] ([abigail-queue]: [types.rs], [significance.rs],
      [queue.rs]), over the interface [RecordStore] to the persistence layer
      ([upsert], [select], all records), which [gmap] implements.  [JobQueueFacts]
      describes each method's effect on the table; [JobQueueSpec] gathers the
      methods into a step relation; [JobQueueProps] has the theorems: lifecycle
      and nesting depth over all reachable tables, choice of the next job as a
      refinement of "no eligible job precedes it", sweeps, listings and
      statistics, then recurring jobs and interleaved claims.
    - [Governor] ([abigail-core/structured_failure.rs]; [abigail-router]:
      [governor.rs], [execution_state.rs], [constraint_store.rs], [planner.rs]).  [GovernorSpec]: termination of the
      governed loop under any reports and clock, the six-attempt bound, the
      lessons learned, planning from text.  The fuel of [governed_loop] is the
      goal's [max_iterations]; the theorem shows it is enough.
    - [Paths] ([abigail-core/path_guard.rs], [global_config.rs],
      [abigail-skills/sandbox.rs]) with Unix path components, and
      containment under a root, file names, agreement of the two normalisations.
    - [SkillPolicy] ([abigail-skills]: [policy.rs], [sandbox.rs], [manifest.rs])
      and [SkillExecutor] ([skill.rs], [registry.rs], [executor.rs]).  The policy
      decides, the registry asks it, the executor asks the registry, then the
      sandbox built from the manifest's permissions, and only then calls the
      skill.  [SkillSpec]: who may execute, what is signed, what needs the
      mentor, and that the executor calls only behind all gates.
    - [Runner] ([entity-daemon]: [capability_matcher.rs], [subagent_runner.rs],
      [job_scheduler.rs]).  The scheduler's loop dispatches what
      [next_queued_job] returns to at most [max_concurrency] tasks; a task is
      [run_job]: claim, execution under a timeout (an argument that says how it
      ended), record of the outcome.  The loop is cut at its [await]s ([Phase],
      [advance]), and other calls of the queue come in between.  [RunnerSpec]: with
      anything in between, a run ends its job as its execution went, lost claims and
      late results change nothing; the pieces of the loop are steps of the queue and
      never hold more permits than there are.
    - [Ledger] ([entity-daemon/execution_ledger.rs], the events handler of
      [routes.rs]): hash chain.  [LedgerSpec]: extension and tamper evidence,
      where two events of the chains that collide are the explicit alternative.
    - [Outbox] ([entity-daemon/outbox.rs]) and [ControlPlane] ([hive-daemon]:
      [runtime_registry.rs], [supervisor.rs]; wire types of [hive-core]).  The
      outbox's snapshot is what the runtime sends to [sync_outbox]; the answer's
      identifiers go to [acknowledge].  [SyncSpec]: the bound, the invariant of the
      control plane over all calls, revocation, a full round of syncing, launch
      capabilities and the listen announcement.
    - [UrlSecurity] and [HttpClient] ([abigail-capabilities/sensory]:
      [url_security.rs], [http_client.rs]).  Each call of the client is a
      function to the new client, whose logs say what was requested and what was
      written.  The clients follow redirects ([send_following], shared with
      [DynamicSkill]).  [WebSpec]: the private ranges as CIDR blocks, what validation
      accepts, that a call first requests a validated URL and then only the redirects
      it is given, that downloads stay in their directory, and what the checks let
      through.
    - [Superego] ([abigail-superego/evaluator.rs], [abigail-core/key_detection.rs],
      [entity-daemon/pipeline/stream_gate.rs]).  [GateSpec]: the verdict is the
      policy; the streaming relay leaks no byte of a blockable match, whatever the
      chunking, given matches no longer than the hold-back allows.
    - [Birth] ([abigail-birth/stages.rs], [persistence.rs], the signing of
      [abigail-core/keyring.rs]).  [BirthSpec]: monotone stages, one birth, what a
      completed emergence has done, and the states that cannot complete.
    - [Verifier] ([abigail-core]: [document.rs], [verifier.rs],
      [vault/external.rs]) reads the public key and checks the signed documents
      [Birth] wrote.  [VerifierSpec]: what verification accepts, that a changed
      document needs a forged signature, that a completed emergence verifies, and
      that a legacy birth may not.
    - [SecureFs] ([abigail-core]: [error.rs], [secure_fs.rs]): a disk whose every
      call can fail, and the write by a temporary file that is renamed.  [Vault]
      ([abigail-core]: [vault/], [secrets.rs], [encrypted_storage.rs]) over it:
      envelopes, the root key (credential store, environment, passphrase, first
      boot), its sentinel, and the vaults of secrets.  [VaultSpec]: the key opens
      the sentinel, the sentinel is never replaced, a restart finds the same key or
      stops in recovery mode, a save is all or nothing and is read back.
    - [Protected] ([abigail-memory/protected_topics.rs],
      [abigail-core/key_detection.rs]) finds secrets; [MemStore] ([abigail-memory]:
      [store.rs], [subscriber.rs]; [entity-daemon/memory_consumer.rs]) is the
      memory of an Entity over one [RecordStore] (and [RecordQuery]) per table.
      [MemSpec]: transcripts only grow, a secret leaves the transcript and can be
      decrypted from its topic only, listings and summaries.  [Archive]
      ([archive.rs], [backup_import.rs]) exports, restores and imports;
      [ArchiveSpec]: the full round trip and the accounting of imports.
    - [Cognitive] ([abigail-capabilities/cognitive]: [provider.rs],
      [validation.rs]; the traces of [entity-core]) is the interface of language
      models, and [Router] ([abigail-router/router.rs]) chooses between the local
      (Id) and the cloud (Ego) one.  [RouterSpec]: every route refines one
      specification of who is asked in which order, what the trace attributes,
      what stays local, and the older entry points.
    - [Json] (JSON values), [Instructions]
      ([abigail-skills/instruction_registry.rs]), [Chat] and [ChatLoop]
      ([entity-chat/lib.rs]), [JobTools] ([job_tools.rs]): contexts, prompts, the
      execution of a tool call, the loops of model and tools, and the tools that
      submit jobs.  [ChatSpec], [ChatLoopSpec], [JobToolsSpec]: budgets, the
      protocol of tool calls in every request, agreement of the streaming loop,
      nesting of submitted jobs.
    - [Agentic] ([abigail-router/agentic.rs]): the loop that asks the mentor.
      [AgenticSpec]: only confirmed tools run; a run ends with a status that its log
      announces, or waits for a mentor who does not answer.
    - [Bus] ([abigail-streaming]: [bus.rs], [types.rs], [memory_broker.rs]) over the
      interface of a broadcast channel.  [BusSpec]: the names of the topics, order
      and completeness of what a handler sees, that a poll returns nothing.
    - [Prompts] ([abigail-core]: [constitutional.rs], [system_prompt.rs]; the
      enrichment of [mentor_chat.rs], the Superego's [monitor.rs]): texts made of
      the documents of an Entity.
    - [Pipeline] ([entity-daemon]: [pipeline/], [state.rs], the chat handlers of
      [routes.rs]) puts the bus, the memory, the router, the chat engine and the
      gate together: a turn goes from its handler to the Id stage, the Ego stage,
      the journal and the judge.  [PipelineSpec] is the system they make as a step
      relation over any interleaving: what is delivered was judged and saved, no
      turn is lost or answered twice, streams show nothing blockable, the consult
      and the judge stay local even when they are given up, a turn can always be
      carried to its end by steps of its own.

    - [FileTree] (the calls of [std::fs] over directories, files and symbolic
      links).  The bundled skills ([src/skills/]): [SkillKit] (parameters, outputs,
      processes), [FilesystemSkill], [ShellSkill] (shell and git), [RecordSkills]
      (calendar, knowledge base), [HostSkills] (HTTP, database, clipboard,
      notifications).  [FilesystemSpec]: what is read or changed lies below an
      allowed root, and the two ways around that.  [SkillsSpec]: only checked
      commands are started, the calendar refines a map, requests are validated.
    - [Config] ([abigail-core/config.rs]): every field with its JSON, the
      migrations, loading and saving over [FileTree].  [ConfigSpec]: the round trip
      through JSON and through the disk, what a migration does and what it loses.
    - [Identity] ([abigail-identity]; [abigail-core/global_config.rs]): the
      registry of entities, their keys, signatures, archives and backups over
      [FileTree] and [Config].  [IdentitySpec]: no sequence of operations removes
      the Hive, who is loaded has been vouched for, a signed entity verifies, the
      names of backups, and where the manager goes wrong.

    - [F32] (single precision over [SpecFloat]).  [Council] ([abigail-router]:
      [council.rs], [subagent.rs], [conscience.rs]): several providers draft,
      review and synthesise, at once or as a graph of jobs; delegation to
      sub-agents; what a conscience check signals.  [CouncilSpec]: who is asked
      what, the order of the phases under any run of the queue, who may delegate.
    - [SoulForge] and [Forge] ([soul-forge/lib.rs]): the calibration of a soul, and
      the worker that authors skills below the skills root over [FileTree].
      Which calibrations are accepted, their weights and hash; nothing is written
      without approval, and where it is written.
    - [Providers], [Anthropic] ([abigail-capabilities/cognitive]:
      [openai.rs], [openai_compatible.rs], [local_http.rs], [candle.rs],
      [anthropic.rs]): the clients that implement the interface of [Cognitive],
      over an HTTP client.  [ProvidersSpec]: streams do not depend on their
      chunks, their tokens make the reply, conversations are kept, the local
      client stays on this machine.
    - [ProviderChoice] ([abigail-hive]; detection of [cli_provider.rs]): which of
      these clients an Entity gets and with which key, the strongest provider, the
      registry of models.  Keys stay with their provider.
    - [Crystallization] ([abigail-soul-crystallization]): the profile of a mentor in
      binary64, its ethical weights, the engine of the conversation; what every use
      of the engine keeps and how it ends.  [BirthChat] ([abigail-birth]:
      [engine.rs], [prompts.rs], [genesis.rs]): a turn of the conversation of the
      birth over the providers of [Cognitive], and the paths to a soul, one of
      which is [SoulForge].
    - [DynamicSkill] ([abigail-skills/dynamic.rs]): skills made of a JSON document,
      over [FileTree], [UrlSecurity] and the records of [SkillExecutor]; which
      secrets a request depends on, where it may go first, which documents are skills.  Its
      Module [Factory] ([factory.rs]) authors and deletes them, [Topology]
      ([topology.rs]) gives each skill of the registry its topics.

    ** Bounds and fuel

    Loops of the source that are bounded by a number are structural in it: the
    [MAX_TOOL_ROUNDS] (35) rounds of a chat, the [max_turns] of an agentic run, the
    [max_iterations] of a goal, the length of a list.  The filling in of secrets in a
    template has as fuel the number of its references, which is enough unless a
    value makes another one; then it may never end.  A loop that waits for the
    outside takes the list of what arrives.  Calls of the outside are numbered: a
    disk, a network or a model is a function of the number of calls made so far, so
    that the theorems hold whatever each of them answers (an agentic run may also wait
    for ever for its mentor); clock readings and
    identifiers come from supplies indexed the same way.  A message of the bus is
    handled by a stage at most once, and may never be: that covers the order of
    tasks, slow subscribers and what a broadcast channel drops.

    ** What is not modelled

    The HTTP client and the sockets below it, HTTP routing, conversations with
    command line tools, process management, the SQL engine (a table is
    a [RecordStore]), the user interface and the texts of documents: they hold little logic
    of their own or delegate it to third parties; the files a component reads
    are a [FileTree], a [SecureFs] disk with failures, or an argument.  The Windows builds (DPAPI,
    [MoveFileExW]) are left out.  Tokio tasks appear only as sequences of steps:
    the claim of a job is split into its read and its write, the relay into one
    step per event, a round of syncing into the snapshot, the calls made while
    the request is under way, and the acknowledgement, the scheduler into the pieces
    of its loop between [await]s, the claims and ends of tasks and other calls of the
    queue.  Unicode case mapping
    outside ASCII is not modelled. *)

From Stdlib Require Import ZArith Lia.
From stdpp Require Import base list sorting strings gmap fin_maps pretty.

(** ** Fallible code

    [Result<A, E>] of the source; the [?] operator is [let?]. *)

Declare Scope rust_scope.
Delimit Scope rust_scope with rust.

Inductive result (A E : Type) : Type :=
| Ok (a : A)
| Err (e : E).
Arguments Ok {A E} a.
Arguments Err {A E} e.

Definition result_bind {A B E} (r : result A E) (k : A → result B E) : result B E :=
  match r with
  | Ok a => k a
  | Err e => Err e
  end.

Definition map_err {A E F} (f : E → F) (r : result A E) : result A F :=
  match r with
  | Ok a => Ok a
  | Err e => Err (f e)
  end.

Definition ok_or {A E} (o : option A) (e : E) : result A E :=
  match o with
  | Some a => Ok a
  | None => Err e
  end.

Definition is_ok {A E} (r : result A E) : bool :=
  match r with Ok _ => true | Err _ => false end.

Definition unwrap_or {A} (o : option A) (d : A) : A :=
  match o with Some a => a | None => d end.

Notation "'let?' x := e 'in' k" := (result_bind e (λ x, k))
  (at level 10, x name, e at level 200, k at level 200) : rust_scope.
Notation "'let?' ' p := e 'in' k" := (result_bind e (λ p, k))
  (at level 10, p strict pattern, e at level 200, k at level 200) : rust_scope.

(** ** State and errors

    An operation on a shared object that may fail: it returns the object as it
    leaves it, also when it fails, so that what was written before an early
    return is kept, as in the source.  stdpp's [x ← m; k] sequences two
    operations and returns early on [Err]. *)

Definition M (S E A : Type) : Type := S → S * result A E.

#[export] Instance M_ret {S E} : MRet (M S E) := λ A a s, (s, Ok a).
#[export] Instance M_bind {S E} : MBind (M S E) := λ A B k m s,
  match m s with
  | (s', Ok a) => k a s'
  | (s', Err e) => (s', Err e)
  end.

Definition fail {S E A} (e : E) : M S E A := λ s, (s, Err e).
Definition get_state {S E} : M S E S := λ s, (s, Ok s).
Definition put_state {S E} (s : S) : M S E unit := λ _, (s, Ok tt).
Definition modify {S E} (f : S → S) : M S E unit := λ s, (f s, Ok tt).
Definition lift_result {S E A} (r : result A E) : M S E A := λ s, (s, r).
Definition ensure {S E} (b : bool) (e : E) : M S E unit :=
  if b then mret tt else fail e.

(** [for x in l { body }] with an early return on error. *)
Fixpoint for_each {S E A} (l : list A) (body : A → M S E unit) : M S E unit :=
  match l with
  | [] => mret tt
  | x :: l' => body x ;; for_each l' body
  end.

Section monad.
Context {S E : Type}.
Implicit Types s : S.

Lemma M_bind_eq {A B} (m : M S E A) (k : A → M S E B) s :
  (m ≫= k) s = match m s with (s', Ok a) => k a s' | (s', Err e) => (s', Err e) end.
Proof. done. Qed.

Lemma M_bind_ok {A B} (m : M S E A) (k : A → M S E B) s s1 a :
  m s = (s1, Ok a) → (m ≫= k) s = k a s1.
Proof. unfold mbind, M_bind. by intros ->. Qed.

Lemma M_bind_err {A B} (m : M S E A) (k : A → M S E B) s s1 e :
  m s = (s1, Err e) → (m ≫= k) s = (s1, Err e).
Proof. unfold mbind, M_bind. by intros ->. Qed.

Lemma M_bind_inv {A B} (m : M S E A) (k : A → M S E B) s s' r :
  (m ≫= k) s = (s', r) →
  (∃ s1 a, m s = (s1, Ok a) ∧ k a s1 = (s', r)) ∨
  (∃ e, m s = (s', Err e) ∧ r = Err e).
Proof.
  unfold mbind, M_bind. destruct (m s) as [s1 [a|e]]; intros H.
  - left. eauto.
  - right. simplify_eq. eauto.
Qed.

(** A relation between the states before and after that every step of an
    operation respects, whatever the outcome. *)
Definition respects {A} (R : S → S → Prop) (m : M S E A) : Prop :=
  ∀ s s' r, m s = (s', r) → R s s'.

Context (R : S → S → Prop) `{!PreOrder R}.

Lemma respects_ret {A} (a : A) : respects R (mret a).
Proof. intros s s' r. unfold mret, M_ret. intros; by simplify_eq. Qed.

Lemma respects_fail {A} e : respects R (fail (A:=A) e).
Proof. intros s s' r. unfold fail. intros; by simplify_eq. Qed.

Lemma respects_lift {A} (x : result A E) : respects R (lift_result x).
Proof. intros s s' r. unfold lift_result. intros; by simplify_eq. Qed.

Lemma respects_get : respects R (get_state (S:=S)).
Proof. intros s s' r. unfold get_state. intros; by simplify_eq. Qed.

Lemma respects_bind {A B} (m : M S E A) (k : A → M S E B) :
  respects R m → (∀ a, respects R (k a)) → respects R (m ≫= k).
Proof.
  intros Hm Hk s s' r [(s1 & a & H1 & H2)|(e & H & ->)]%M_bind_inv.
  - transitivity s1; [by eapply Hm|by eapply Hk].
  - by eapply Hm.
Qed.

Lemma respects_for_each {A} (l : list A) body :
  (∀ x, respects R (body x)) → respects R (for_each l body).
Proof.
  intros Hb. induction l as [|x l IH]; simpl; [apply respects_ret|].
  apply respects_bind; auto.
Qed.
End monad.

(** Open the outcome of a sequence of operations. *)
Ltac step_inv H :=
  let s1 := fresh "s" in let a := fresh "a" in let e := fresh "e" in
  let H1 := fresh "Hm" in let H2 := fresh "Hk" in
  apply M_bind_inv in H as [(s1 & a & H1 & H2)|(e & H1 & H2)].

(** ** Machine integers

    [u32], [u64] and [usize] values are [Z]; the operations below write the
    wrap-around or the saturation of the source out. *)

Definition u32_modulus : Z := 2 ^ 32.
Definition u64_modulus : Z := 2 ^ 64.

Definition as_u32 (z : Z) : Z := z `mod` u32_modulus.
Definition as_u64 (z : Z) : Z := z `mod` u64_modulus.

Definition u64_saturating_sub (a b : Z) : Z := Z.max 0 (a - b).

Lemma as_u32_small z : (0 ≤ z < u32_modulus)%Z → as_u32 z = z.
Proof. apply Z.mod_small. Qed.

Lemma as_u32_range z : (0 ≤ as_u32 z < u32_modulus)%Z.
Proof. apply Z.mod_pos_bound. done. Qed.

Lemma as_u32_succ n :
  as_u32 (as_u32 (Z.of_nat n) + 1) = as_u32 (Z.of_nat (S n)).
Proof.
  unfold as_u32, u32_modulus.
  rewrite Zplus_mod_idemp_l. f_equal. lia.
Qed.

(** ** Stable sorting

    [Vec::sort_by] is a stable sort: an element is never moved across an equal
    one.  [leb x y] is [cmp(x, y) != Ordering::Greater]. *)

Section sort_by.
Context {A : Type} (leb : A → A → bool).

Fixpoint insert_by (x : A) (l : list A) : list A :=
  match l with
  | [] => [x]
  | y :: l' => if leb x y then x :: y :: l' else y :: insert_by x l'
  end.

Definition sort_by (l : list A) : list A := foldr insert_by [] l.

Lemma insert_by_perm x l : insert_by x l ≡ₚ x :: l.
Proof.
  induction l as [|y l IH]; simpl; [done|].
  destruct (leb x y); [done|]. rewrite IH. by rewrite Permutation_swap.
Qed.

Lemma sort_by_perm l : sort_by l ≡ₚ l.
Proof.
  induction l as [|x l IH]; simpl; [done|].
  fold (sort_by l). by rewrite insert_by_perm, IH.
Qed.

Lemma elem_of_sort_by x l : x ∈ sort_by l ↔ x ∈ l.
Proof. by rewrite sort_by_perm. Qed.

Lemma length_sort_by l : length (sort_by l) = length l.
Proof. by rewrite sort_by_perm. Qed.

(** Stability: elements that compare equal keep their order. *)
Lemma insert_by_stable (P : A → bool) x l :
  (∀ y z, P y → P z → leb y z) →
  filter P (insert_by x l) = filter P (x :: l).
Proof.
  intros Hle. induction l as [|y l IH]; simpl; [done|].
  destruct (leb x y) eqn:Hxy; [done|].
  rewrite filter_cons, IH, !filter_cons.
  destruct (decide (P x)) as [Hx|], (decide (P y)) as [Hy|]; try done.
  specialize (Hle x y Hx Hy). rewrite Hxy in Hle. done.
Qed.

Lemma sort_by_stable (P : A → bool) l :
  (∀ y z, P y → P z → leb y z) →
  filter P (sort_by l) = filter P l.
Proof.
  intros Hle. induction l as [|x l IH]; simpl; [done|].
  fold (sort_by l). rewrite insert_by_stable by done.
  rewrite !filter_cons. by rewrite IH.
Qed.

Context (leb_trans : ∀ x y z, leb x y → leb y z → leb x z).
Context (leb_total : ∀ x y, leb x y ∨ leb y x).

Lemma insert_by_sorted x l :
  StronglySorted (λ a b, leb a b) l → StronglySorted (λ a b, leb a b) (insert_by x l).
Proof.
  induction 1 as [|y l Hl IH Hy]; simpl; [by repeat constructor|].
  destruct (leb x y) eqn:Hxy.
  - constructor; [by constructor|]. constructor; [by rewrite Hxy|].
    rewrite Forall_forall in *. intros z Hz.
    eapply leb_trans; [|by apply Hy]. by rewrite Hxy.
  - constructor; [done|]. rewrite insert_by_perm. constructor; [|done].
    destruct (leb_total x y) as [H|H]; [by rewrite Hxy in H|done].
Qed.

Lemma sort_by_sorted l : StronglySorted (λ a b, leb a b) (sort_by l).
Proof. induction l; simpl; [constructor|by apply insert_by_sorted]. Qed.

(** The head of a sorted vector is a least element. *)
Lemma sort_by_head_le l x y :
  head (sort_by l) = Some x → y ∈ l → leb x y ∨ x = y.
Proof.
  intros Hx Hy. pose proof (sort_by_sorted l) as Hs.
  rewrite <- elem_of_sort_by in Hy.
  destruct (sort_by l) as [|z l'] eqn:E; simplify_eq/=.
  inversion Hs as [|? ? _ Hall]; subst.
  apply elem_of_cons in Hy as [->|Hy]; [by right|left].
  rewrite Forall_forall in Hall. by apply Hall.
Qed.

Lemma sort_by_head_elem l x : head (sort_by l) = Some x → x ∈ l.
Proof.
  intros Hx. rewrite <- elem_of_sort_by.
  destruct (sort_by l); simplify_eq/=. by left.
Qed.

Lemma sort_by_head_None l : head (sort_by l) = None ↔ l = [].
Proof.
  split; [|by intros ->]. intros H.
  pose proof (length_sort_by l) as Hl.
  destruct (sort_by l); simplify_eq/=. by destruct l.
Qed.
End sort_by.

(** ** Lists *)

(** [Vec::split_off(len - limit)] when the vector is longer than [limit]. *)
Definition keep_last {A} (limit : nat) (l : list A) : list A :=
  if decide (limit < length l) then drop (length l - limit) l else l.

Lemma keep_last_suffix {A} limit (l : list A) : keep_last limit l `suffix_of` l.
Proof.
  unfold keep_last. case_decide; [|done].
  exists (take (length l - limit) l). by rewrite take_drop.
Qed.

Lemma keep_last_drop {A} limit (l : list A) : keep_last limit l = drop (length l - limit) l.
Proof. unfold keep_last. case_decide; [done|]. by replace (length l - limit) with 0 by lia. Qed.

Lemma keep_last_keep_last {A} k (l l' : list A) :
  keep_last k (keep_last k l ++ l') = keep_last k (l ++ l').
Proof.
  rewrite !keep_last_drop, !length_app, length_drop.
  destruct (decide (length l ≤ k)).
  - replace (length l - k) with 0 by lia. by rewrite Nat.sub_0_r, drop_0.
  - rewrite !drop_app, length_drop, drop_drop. f_equal; f_equal; lia.
Qed.

Lemma length_keep_last {A} limit (l : list A) :
  length (keep_last limit l) = Nat.min limit (length l).
Proof. unfold keep_last. case_decide; [rewrite length_drop|]; lia. Qed.

(** [iter().rev().find(p)]: the last element that satisfies [p]. *)
Fixpoint find_last {A} (p : A → bool) (l : list A) : option A :=
  match l with
  | [] => None
  | x :: l' => match find_last p l' with
               | Some y => Some y
               | None => if p x then Some x else None
               end
  end.

Lemma find_last_app {A} (p : A → bool) (l1 l2 : list A) :
  find_last p (l1 ++ l2) =
    match find_last p l2 with Some y => Some y | None => find_last p l1 end.
Proof.
  induction l1 as [|x l1 IH]; simpl; [by destruct (find_last p l2)|].
  rewrite IH. by destruct (find_last p l2).
Qed.

Lemma find_last_snoc {A} (p : A → bool) l (x : A) :
  find_last p (l ++ [x]) = if p x then Some x else find_last p l.
Proof. rewrite find_last_app. simpl. by destruct (p x). Qed.

Lemma find_last_Some {A} (p : A → bool) l (x : A) :
  find_last p l = Some x → x ∈ l ∧ p x = true.
Proof.
  induction l as [|y l IH]; simpl; [done|].
  destruct (find_last p l) as [z|]; intros; simplify_eq.
  - destruct IH as [? ?]; [done|]. split; [by right|done].
  - destruct (p y) eqn:Hy; simplify_eq. split; [by left|done].
Qed.

Lemma find_last_None {A} (p : A → bool) (l : list A) :
  find_last p l = None ↔ Forall (λ x, p x = false) l.
Proof.
  induction l as [|y l IH]; simpl; [by split|].
  rewrite Forall_cons, <- IH.
  destruct (find_last p l), (p y); naive_solver.
Qed.

(** [Vec::push] guarded by [!contains]: the idiom of the source for sets kept
    in insertion order. *)
Definition push_unique (x : string) (l : list string) : list string :=
  if decide (x ∈ l) then l else l ++ [x].

Lemma push_unique_NoDup x l : NoDup l → NoDup (push_unique x l).
Proof.
  intros Hl. unfold push_unique. case_decide as Hx; [done|].
  apply NoDup_app. repeat split; [done|set_solver|apply NoDup_singleton].
Qed.

Lemma elem_of_push_unique x y l : y ∈ push_unique x l ↔ y = x ∨ y ∈ l.
Proof. unfold push_unique. case_decide; set_solver. Qed.

Lemma list_elem_of_map {A B} (f : A → B) (l : list A) y : y ∈ map f l ↔ ∃ x, y = f x ∧ x ∈ l.
Proof. apply list_elem_of_fmap. Qed.

Lemma NoDup_map_filter {A B} (f : A → B) (P : A → Prop) `{!∀ x, Decision (P x)} (l : list A) :
  NoDup (map f l) → NoDup (map f (filter P l)).
Proof.
  induction l as [|x l IH]; simpl; [done|]. intros [Hx Hl]%NoDup_cons.
  rewrite filter_cons. case_decide; [|by apply IH]. simpl. constructor; [|by apply IH].
  rewrite list_elem_of_map. intros (y & Hy & [_ Hy']%list_elem_of_filter).
  apply Hx. rewrite Hy. apply list_elem_of_map. eauto.
Qed.

Lemma filter_everything {A} (l : list A) : filter (λ _, True) l = l.
Proof. induction l as [|x l IH]; [done|]. rewrite filter_cons, decide_True by done. by rewrite IH. Qed.

Lemma filter_bool_all {A} (p : A → bool) (l : list A) :
  (∀ x, p x = true) → filter p l = l.
Proof.
  intros Hp. induction l as [|x l IH]; [done|].
  rewrite filter_cons, decide_True by (by rewrite Hp). by rewrite IH.
Qed.

Lemma existsb_elem {A} (p : A → bool) (l : list A) :
  existsb p l = true ↔ ∃ x, x ∈ l ∧ p x = true.
Proof.
  rewrite existsb_exists. split; intros (x & Hx & ?); exists x; split; auto;
    by apply list_elem_of_In.
Qed.

Lemma forallb_elem {A} (p : A → bool) (l : list A) :
  forallb p l = true ↔ ∀ x, x ∈ l → p x = true.
Proof.
  rewrite forallb_forall. split; intros H x Hx; apply H; by apply list_elem_of_In.
Qed.

(** ** Automation *)

(** Split every boolean connective of the context and reflect equality tests. *)
Ltac reflect_bools :=
  repeat match goal with
  | H : context [bool_decide _] |- _ => first
      [ apply bool_decide_eq_true in H | apply bool_decide_eq_false in H ]
  | H : _ && _ = true |- _ => apply andb_true_iff in H; destruct H
  | H : _ || _ = false |- _ => apply orb_false_iff in H; destruct H
  | H : negb _ = true |- _ => apply negb_true_iff in H
  | H : negb _ = false |- _ => apply negb_false_iff in H
  | H : Is_true _ |- _ => apply Is_true_true in H
  end.

(** Case analysis on the scrutinees of a hypothesis built from guards: closes
    the branches that return the wrong constructor. *)
Ltac guard_inv H :=
  repeat match type of H with
  | result_bind ?e _ = _ => destruct e eqn:?; simpl in H; [|discriminate H]
  | context [match ?e with _ => _ end] =>
      lazymatch e with
      | context [match _ with _ => _ end] => fail
      | _ => destruct e eqn:?; simpl in H; try discriminate H
      end
  end.

Create HintDb abigail.
#[export] Hint Resolve push_unique_NoDup as_u32_range keep_last_suffix : abigail.
Create Rewrite HintDb abigail.
#[export] Hint Rewrite @length_keep_last @length_sort_by @elem_of_sort_by : abigail.

(** Reduce [respects R m] along the structure of [m]; [prim] is tried on the
    primitive steps. *)
Ltac solve_respects prim :=
  lazymatch goal with
  | |- respects _ (mbind _ _) =>
      apply respects_bind; [apply _|solve_respects prim|intros ?; solve_respects prim]
  | |- respects _ (mret _) => apply respects_ret, _
  | |- respects _ (fail _) => apply respects_fail, _
  | |- respects _ (lift_result _) => apply respects_lift, _
  | |- respects _ get_state => apply respects_get, _
  | |- respects _ (for_each _ _) =>
      apply respects_for_each; [apply _|intros ?; solve_respects prim]
  | |- respects _ (match ?x with _ => _ end) => destruct x; solve_respects prim
  | |- _ => prim
  end.

(** Prove a decidable proposition without variables by evaluating it. *)
Ltac decide_closed :=
  eapply bool_decide_eq_true_1; vm_compute; reflexivity.
