(* ===== verification/RustStr.v ===== *)
(** * Strings as the source uses them

    A [&str] or [String] is its sequence of bytes ([string], a list of 8-bit
    [ascii]); [len()] and every slice index of the source count bytes, as here.
    Comparison of strings ([Ord for str]) is the lexicographic comparison of
    bytes, [String.compare].  Case mapping, white space and the character
    classes are those of the ASCII range; a byte of a multi-byte UTF-8
    character is never a white space, a digit or a letter and is left as it is
    by [to_lowercase].  The lemmas relate each operation to concatenation. *)

From S2P Require Import Prelude.
From Stdlib Require Import ZArith Lia Ascii.
From stdpp Require Import base list sets strings.

(** ** Operations *)

Fixpoint starts_with (s p : string) : bool :=
  match p, s with
  | EmptyString, _ => true
  | String a p', String b s' => bool_decide (a = b) && starts_with s' p'
  | String _ _, EmptyString => false
  end.

Fixpoint strip_prefix (s p : string) : option string :=
  match p, s with
  | EmptyString, _ => Some s
  | String a p', String b s' => if decide (a = b) then strip_prefix s' p' else None
  | String _ _, EmptyString => None
  end.

Fixpoint ends_with (s suf : string) : bool :=
  bool_decide (s = suf) ||
  match s with
  | EmptyString => false
  | String _ s' => ends_with s' suf
  end.

Fixpoint contains (s sub : string) : bool :=
  starts_with s sub ||
  match s with
  | EmptyString => false
  | String _ s' => contains s' sub
  end.

Definition is_ascii_digit (c : ascii) : bool :=
  (48 <=? N_of_ascii c)%N && (N_of_ascii c <=? 57)%N.
Definition is_ascii_upper (c : ascii) : bool :=
  (65 <=? N_of_ascii c)%N && (N_of_ascii c <=? 90)%N.
Definition is_ascii_lower (c : ascii) : bool :=
  (97 <=? N_of_ascii c)%N && (N_of_ascii c <=? 122)%N.
Definition is_ascii_alnum (c : ascii) : bool :=
  is_ascii_digit c || is_ascii_upper c || is_ascii_lower c.
Definition is_whitespace (c : ascii) : bool :=
  ((9 <=? N_of_ascii c)%N && (N_of_ascii c <=? 13)%N) || (N_of_ascii c =? 32)%N.

Definition lower_char (c : ascii) : ascii :=
  if is_ascii_upper c then ascii_of_N (N_of_ascii c + 32) else c.

Fixpoint to_lowercase (s : string) : string :=
  match s with
  | EmptyString => EmptyString
  | String c s' => String (lower_char c) (to_lowercase s')
  end.

Fixpoint trim_start (s : string) : string :=
  match s with
  | String c s' => if is_whitespace c then trim_start s' else s
  | EmptyString => EmptyString
  end.

(** Drop the trailing characters that satisfy [p] ([trim_end_matches]). *)
Fixpoint trim_end_matches (p : ascii → bool) (s : string) : string :=
  match s with
  | EmptyString => EmptyString
  | String c s' =>
      match trim_end_matches p s' with
      | EmptyString => if p c then EmptyString else String c EmptyString
      | t => String c t
      end
  end.

(** Drop one trailing character that satisfies [p]. *)
Fixpoint trim_one (p : ascii → bool) (s : string) : string :=
  match s with
  | EmptyString => EmptyString
  | String c EmptyString => if p c then EmptyString else s
  | String c s' => String c (trim_one p s')
  end.

Definition trim (s : string) : string := trim_end_matches is_whitespace (trim_start s).

Definition str_is_empty (s : string) : bool :=
  match s with EmptyString => true | _ => false end.

Fixpoint join (sep : string) (l : list string) : string :=
  match l with
  | [] => ""
  | [s] => s
  | s :: l' => s +:+ sep +:+ join sep l'
  end.

(** Slices [&s[..n]] and [&s[n..]]. *)
Fixpoint str_take (n : nat) (s : string) : string :=
  match n, s with
  | S n', String c s' => String c (str_take n' s')
  | _, _ => EmptyString
  end.

Definition strip_suffix (s suf : string) : option string :=
  if ends_with s suf then Some (str_take (String.length s - String.length suf) s) else None.

Fixpoint str_drop (n : nat) (s : string) : string :=
  match n, s with
  | S n', String _ s' => str_drop n' s'
  | _, _ => s
  end.

Fixpoint str_chars (s : string) : list ascii :=
  match s with
  | EmptyString => []
  | String c s' => c :: str_chars s'
  end.

Fixpoint split_whitespace_from (word : list ascii) (s : string) : list string :=
  match s with
  | EmptyString =>
      match word with [] => [] | _ => [foldr String EmptyString (rev word)] end
  | String c s' =>
      if is_whitespace c then
        match word with
        | [] => split_whitespace_from [] s'
        | _ => foldr String EmptyString (rev word) :: split_whitespace_from [] s'
        end
      else split_whitespace_from (c :: word) s'
  end.

Definition split_whitespace (s : string) : list string := split_whitespace_from [] s.

(** The line feed [\n]. *)
Definition newline : ascii := "010"%char.
Definition nl : string := String newline "".

(** A byte that continues a multi-byte character. *)
Definition is_continuation (c : ascii) : bool :=
  (128 <=? N_of_ascii c)%N && (N_of_ascii c <? 192)%N.

(** [s.chars().take(n).collect()]: whole characters. *)
Fixpoint str_take_chars (n : nat) (s : string) : string :=
  match s with
  | EmptyString => EmptyString
  | String c s' =>
      if is_continuation c then String c (str_take_chars n s')
      else match n with
           | O => EmptyString
           | S n' => String c (str_take_chars n' s')
           end
  end.

(** [s.chars()]: each character as its bytes. *)
Fixpoint take_continuation (s : string) : string * string :=
  match s with
  | String c s' =>
      if is_continuation c then let '(a, b) := take_continuation s' in (String c a, b)
      else ("", s)
  | EmptyString => ("", "")
  end.

Fixpoint chars_fuel (fuel : nat) (s : string) : list string :=
  match fuel, s with
  | S fuel, String c s' =>
      if (N_of_ascii c <? 128)%N then String c "" :: chars_fuel fuel s'
      else let '(a, b) := take_continuation s' in String c a :: chars_fuel fuel b
  | _, _ => []
  end.

Definition chars (s : string) : list string := chars_fuel (String.length s) s.

(** The slice [&s[..n]] of a string longer than [n]; it panics ([None]) when
    [n] lies inside a character: the byte there continues one. *)
Definition slice_to (n : nat) (s : string) : option string :=
  match str_drop n s with
  | String c _ => if is_continuation c then None else Some (str_take n s)
  | EmptyString => if bool_decide (String.length s = n) then Some s else None
  end.

(** [s.split_once(sep)]: around the first occurrence. *)
Fixpoint split_once (s sep : string) : option (string * string) :=
  match strip_prefix s sep with
  | Some rest => Some ("", rest)
  | None =>
      match s with
      | EmptyString => None
      | String c s' =>
          match split_once s' sep with
          | Some (a, b) => Some (String c a, b)
          | None => None
          end
      end
  end.

(** [s.replace(pat, rep)] for a non-empty pattern; [skip] bytes of a match are
    still to be passed over. *)
Fixpoint replace_from (skip : nat) (pat rep s : string) : string :=
  match s with
  | EmptyString => EmptyString
  | String c s' =>
      match skip with
      | S skip => replace_from skip pat rep s'
      | O =>
          if starts_with s pat then rep +:+ replace_from (String.length pat - 1) pat rep s'
          else String c (replace_from 0 pat rep s')
      end
  end.

Definition replace (s pat rep : string) : string := replace_from 0 pat rep s.

(** [s.find(c)] and [s.rfind(c)] of an ASCII character. *)
Fixpoint find_char (c : ascii) (s : string) : option nat :=
  match s with
  | EmptyString => None
  | String d s => if decide (d = c) then Some 0 else S <$> find_char c s
  end.
Fixpoint rfind_char (c : ascii) (s : string) : option nat :=
  match s with
  | EmptyString => None
  | String d s =>
      match rfind_char c s with
      | Some n => Some (S n)
      | None => if decide (d = c) then Some 0 else None
      end
  end.

(** [s.lines()]: the pieces up to each line feed, a carriage return before it
    dropped; an empty last piece is not a line. *)
Fixpoint without_cr (line : string) : string :=
  match line with
  | EmptyString => EmptyString
  | String c rest =>
      if decide (c = "013"%char ∧ rest = EmptyString) then EmptyString
      else String c (without_cr rest)
  end.

Fixpoint lines_from (line s : string) : list string :=
  match s with
  | EmptyString => if str_is_empty line then [] else [line]
  | String c s' =>
      if decide (c = newline) then without_cr line :: lines_from "" s'
      else lines_from (line +:+ String c "") s'
  end.

Definition lines (s : string) : list string := lines_from "" s.

(** [std::str::from_utf8]: the well-formed byte sequences. *)
Definition utf8_second (lead byte : ascii) : bool :=
  let y := N_of_ascii byte in
  match N_of_ascii lead with
  | 224%N => (160 <=? y)%N && (y <=? 191)%N
  | 237%N => (128 <=? y)%N && (y <=? 159)%N
  | 240%N => (144 <=? y)%N && (y <=? 191)%N
  | 244%N => (128 <=? y)%N && (y <=? 143)%N
  | _ => is_continuation byte
  end.

Fixpoint utf8_valid (s : string) : bool :=
  match s with
  | EmptyString => true
  | String a s1 =>
      let x := N_of_ascii a in
      if (x <? 128)%N then utf8_valid s1
      else match s1 with
      | EmptyString => false
      | String b s2 =>
          if (194 <=? x)%N && (x <=? 223)%N then is_continuation b && utf8_valid s2
          else match s2 with
          | EmptyString => false
          | String c s3 =>
              if (224 <=? x)%N && (x <=? 239)%N
              then utf8_second a b && is_continuation c && utf8_valid s3
              else match s3 with
              | EmptyString => false
              | String d s4 =>
                  (240 <=? x)%N && (x <=? 244)%N && utf8_second a b && is_continuation c
                  && is_continuation d && utf8_valid s4
              end
          end
      end
  end.

(** [format!("{}", b)] on a [bool]. *)
Definition bool_to_string (b : bool) : string := if b then "true" else "false".

(** Comparison of [Option<String>]: [None] is least. *)
Definition option_string_leb (a b : option string) : bool :=
  match a, b with
  | None, _ => true
  | Some _, None => false
  | Some a, Some b => String.leb a b
  end.

(** ** Concatenation *)

Lemma str_app_nil_l s : "" +:+ s = s.
Proof. done. Qed.

Lemma str_app_cons c s t : String c s +:+ t = String c (s +:+ t).
Proof. done. Qed.

Lemma str_app_nil_r s : s +:+ "" = s.
Proof. induction s as [|c s IH]; [done|]. by rewrite str_app_cons, IH. Qed.

Lemma str_app_assoc s t u : s +:+ (t +:+ u) = (s +:+ t) +:+ u.
Proof. induction s as [|c s IH]; [done|]. by rewrite !str_app_cons, IH. Qed.

Lemma str_length_app s t : String.length (s +:+ t) = String.length s + String.length t.
Proof. induction s as [|c s IH]; [done|]. rewrite str_app_cons. simpl. by rewrite IH. Qed.

Lemma str_app_inj_l s t u : s +:+ t = s +:+ u → t = u.
Proof.
  induction s as [|c s IH]; [done|]. rewrite !str_app_cons. intros H. apply IH.
  by injection H.
Qed.

Lemma str_app_split a b x y :
  String.length a = String.length b → a +:+ x = b +:+ y → a = b ∧ x = y.
Proof.
  revert b. induction a as [|c a IH]; intros [|d b] Hl; simplify_eq/=; [done|].
  rewrite !str_app_cons. intros H. injection H as -> H.
  destruct (IH b Hl H) as [-> ->]. done.
Qed.

#[export] Hint Rewrite str_app_nil_r str_length_app : abigail.

(** A field that ends at the first newline. *)
Lemma split_at_newline (a a' s s' : string) :
  newline ∉ str_chars a → newline ∉ str_chars a' →
  a +:+ nl +:+ s = a' +:+ nl +:+ s' → a = a' ∧ s = s'.
Proof.
  revert a'. induction a as [|c a IH]; intros [|c' a'] Ha Ha'.
  - intros H. split; [done|]. by injection H.
  - intros H. exfalso. apply Ha'. rewrite str_app_cons in H. injection H as <- _. by left.
  - intros H. exfalso. apply Ha. rewrite str_app_cons in H. injection H as -> _. by left.
  - rewrite !str_app_cons. intros H. injection H as <- H. simpl in Ha, Ha'.
    destruct (IH a') as [-> ->]; [set_solver..| |done]. exact H.
Qed.

(** ** Slices *)

Lemma str_take_drop n s : str_take n s +:+ str_drop n s = s.
Proof.
  revert s. induction n as [|n IH]; intros [|c s]; simpl; try done.
  by rewrite str_app_cons, IH.
Qed.

Lemma str_length_take n s : String.length (str_take n s) = Nat.min n (String.length s).
Proof. revert s. induction n as [|n IH]; intros [|c s]; simpl; auto. Qed.

Lemma str_length_drop n s : String.length (str_drop n s) = String.length s - n.
Proof. revert s. induction n as [|n IH]; intros [|c s]; simpl; auto. Qed.

Lemma slice_to_panics n s :
  n < String.length s →
  slice_to n s = None ↔ ∃ c rest, str_drop n s = String c rest ∧ is_continuation c = true.
Proof.
  intros Hl. assert (str_drop n s ≠ "") as Hne.
  { intros He. pose proof (f_equal String.length He) as Hlen.
    rewrite str_length_drop in Hlen. simpl in Hlen. lia. }
  unfold slice_to. destruct (str_drop n s) as [|c rest]; [done|].
  destruct (is_continuation c) eqn:Hc; [split; [eauto|done]|].
  split; [done|]. intros (? & ? & ? & ?). congruence.
Qed.

Lemma str_take_app s t : str_take (String.length s) (s +:+ t) = s.
Proof. induction s as [|c s IH]; [by destruct t|]. simpl. by rewrite IH. Qed.

Lemma str_drop_app s t : str_drop (String.length s) (s +:+ t) = t.
Proof. induction s as [|c s IH]; [done|]. exact IH. Qed.

Lemma str_take_app_le n s t : n ≤ String.length s → str_take n (s +:+ t) = str_take n s.
Proof.
  revert s. induction n as [|n IH]; intros [|c s] H; try done; [simpl in H; lia|].
  rewrite str_app_cons. simpl in *. rewrite IH by lia. done.
Qed.

Lemma str_take_ge n s : String.length s ≤ n → str_take n s = s.
Proof.
  revert s. induction n as [|n IH]; intros [|c s] H; simpl in *; try done; try lia.
  rewrite IH by lia. done.
Qed.

Lemma str_take_drop_take n m s :
  n ≤ m → str_take n s +:+ str_drop n (str_take m s) = str_take m s.
Proof.
  revert n s. induction m as [|m IH]; intros [|n] [|c s] H; simpl; try done; try lia.
  rewrite str_app_cons. f_equal. apply IH. lia.
Qed.

Lemma str_chars_app s t : str_chars (s +:+ t) = str_chars s ++ str_chars t.
Proof. induction s as [|c s IH]; [done|]. rewrite str_app_cons. simpl. by rewrite IH. Qed.

(** ** Prefixes, suffixes and infixes *)

Lemma str_chars_join_nil l x :
  x ∈ str_chars (RustStr.join "" l) → ∃ s, s ∈ l ∧ x ∈ str_chars s.
Proof.
  induction l as [|s l IH]; simpl; [by intros ?%not_elem_of_nil|].
  destruct l as [|s' l]; [intros; exists s; split; [by left|done]|].
  rewrite !str_chars_app, !elem_of_app. intros [H|[H|H]].
  - exists s. split; [by left|done].
  - by apply not_elem_of_nil in H.
  - apply IH in H as (t & ? & ?). exists t. split; [by right|done].
Qed.

Lemma str_chars_inj s t : str_chars s = str_chars t → s = t.
Proof.
  revert t. induction s as [|c s IH]; intros [|d t]; simpl; try done.
  intros [= -> H]. f_equal. by apply IH.
Qed.

(** A string of ASCII bytes is the sequence of its one-byte characters. *)
Lemma chars_fuel_ascii fuel s :
  String.length s ≤ fuel → Forall (λ c, (N_of_ascii c <? 128)%N = true) (str_chars s) →
  chars_fuel fuel s = map (λ c, String c "") (str_chars s).
Proof.
  revert s. induction fuel as [|fuel IH]; intros [|c s] Hl Hs; simpl in *; try done; [lia|].
  apply Forall_cons in Hs as [-> Hs]. f_equal. apply IH; [lia|done].
Qed.

Lemma chars_ascii s :
  Forall (λ c, (N_of_ascii c <? 128)%N = true) (str_chars s) →
  chars s = map (λ c, String c "") (str_chars s).
Proof. by apply chars_fuel_ascii. Qed.

Lemma join_nil_cons s l : RustStr.join "" (s :: l) = s +:+ RustStr.join "" l.
Proof. destruct l as [|t l]; [by rewrite str_app_nil_r|done]. Qed.

Lemma join_nil_singletons l : str_chars (RustStr.join "" (map (λ c, String c "") l)) = l.
Proof.
  induction l as [|c l IH]; [done|]. rewrite map_cons, join_nil_cons, str_chars_app, IH. done.
Qed.

Lemma starts_with_iff s p : starts_with s p = true ↔ ∃ t, s = p +:+ t.
Proof.
  revert s. induction p as [|a p IH]; intros s.
  { split; [|by destruct s]. intros _. by exists s. }
  destruct s as [|b s]; simpl.
  { split; [done|]. intros [t Ht]. done. }
  rewrite andb_true_iff, bool_decide_eq_true, IH. split.
  - intros [-> [t ->]]. by exists t.
  - intros [t Ht]. rewrite str_app_cons in Ht. simplify_eq. eauto.
Qed.

Lemma strip_prefix_Some s p t : strip_prefix s p = Some t ↔ s = p +:+ t.
Proof.
  revert s. induction p as [|a p IH]; intros s.
  { destruct s; simpl; rewrite ?str_app_nil_l; naive_solver. }
  destruct s as [|b s]; simpl.
  { split; [done|]. intros Ht. done. }
  rewrite str_app_cons. case_decide; subst.
  - rewrite IH. split; [by intros ->|]. intros H. by simplify_eq.
  - split; [done|]. intros H'. by simplify_eq.
Qed.

Lemma split_once_Some s sep a b : split_once s sep = Some (a, b) → s = a +:+ sep +:+ b.
Proof.
  revert a b. induction s as [|c s IH]; intros a b; cbn [split_once].
  - destruct sep; simpl; [|done]. intros [= <- <-]. done.
  - destruct (strip_prefix (String c s) sep) as [rest|] eqn:Hp.
    { intros [= <- <-]. by apply strip_prefix_Some in Hp. }
    destruct (split_once s sep) as [[a' b']|]; [|done]. intros [= <- <-]. by rewrite str_app_cons, <- (IH a' b').
Qed.

Lemma strip_prefix_app s p t r : strip_prefix s p = Some r → strip_prefix (s +:+ t) p = Some (r +:+ t).
Proof. rewrite !strip_prefix_Some. intros ->. by rewrite <- str_app_assoc. Qed.

(** The first end of a block does not depend on what comes after it. *)
Lemma split_once_app s t sep a b :
  split_once s sep = Some (a, b) → split_once (s +:+ t) sep = Some (a, b +:+ t).
Proof.
  revert a b. induction s as [|c s IH]; intros a b.
  - destruct sep; simpl; [|done]. intros [= <- <-]. rewrite str_app_nil_l. by destruct t.
  - rewrite str_app_cons. cbn [split_once].
    destruct (strip_prefix (String c s) sep) as [rest|] eqn:Hp.
    { intros [= <- <-]. rewrite <- str_app_cons. by rewrite (strip_prefix_app _ _ t _ Hp). }
    destruct (split_once s sep) as [[a' b']|] eqn:Hs; [|done]. intros [= <- <-].
    destruct (strip_prefix (String c (s +:+ t)) sep) as [rest|] eqn:Hp'; [|by rewrite (IH _ _ eq_refl)].
    exfalso. apply strip_prefix_Some in Hp'. apply split_once_Some in Hs. subst s.
    assert (strip_prefix (String c (a' +:+ sep +:+ b')) sep = Some (str_drop (String.length sep) (String c (a' +:+ sep +:+ b')))) as Hx;
      [|congruence].
    apply strip_prefix_Some. rewrite <- str_app_cons in Hp'.
    assert (str_take (String.length sep) (String c (a' +:+ sep +:+ b')) = sep) as Ht.
    { rewrite <- (str_take_app_le _ _ t), Hp', str_take_app; [done|]. simpl. rewrite !str_length_app. lia. }
    rewrite <- Ht at 2. symmetry. apply str_take_drop.
Qed.

Lemma ends_with_iff s suf : ends_with s suf = true ↔ ∃ t, s = t +:+ suf.
Proof.
  induction s as [|c s IH]; simpl.
  - rewrite orb_false_r, bool_decide_eq_true. split.
    + intros <-. by exists "".
    + intros [[|d t] Ht]; [done|]. done.
  - rewrite orb_true_iff, bool_decide_eq_true, IH. split.
    + intros [<-|[t ->]]; [by exists ""|]. by exists (String c t).
    + intros [[|d t] Ht]; [by left|]. right.
      rewrite str_app_cons in Ht. simplify_eq. eauto.
Qed.

Lemma strip_suffix_Some s suf t : strip_suffix s suf = Some t ↔ s = t +:+ suf.
Proof.
  assert (∀ u, str_take (String.length (u +:+ suf) - String.length suf) (u +:+ suf) = u) as Htake.
  { intros u. rewrite str_length_app.
    replace (_ + _ - _) with (String.length u) by lia. apply str_take_app. }
  unfold strip_suffix. destruct (ends_with s suf) eqn:He.
  - apply ends_with_iff in He as [u ->]. rewrite Htake. split; [by intros [= ->]|].
    intros Hs. f_equal. by rewrite <- (Htake u), Hs, Htake.
  - split; [done|]. intros ->. exfalso.
    assert (ends_with (t +:+ suf) suf = true) as Ht by (apply ends_with_iff; eauto).
    by rewrite Ht in He.
Qed.

Lemma contains_eq s sub :
  contains s sub = starts_with s sub ||
    match s with EmptyString => false | String _ s' => contains s' sub end.
Proof. by destruct s. Qed.

Lemma contains_iff s sub : contains s sub = true ↔ ∃ a b, s = a +:+ sub +:+ b.
Proof.
  induction s as [|c s IH]; rewrite contains_eq.
  - rewrite orb_false_r, starts_with_iff. split.
    + intros [t Ht]. by exists "", t.
    + intros ([|d a] & b & H); [by exists b|]. done.
  - rewrite orb_true_iff, starts_with_iff, IH. split.
    + intros [[t ->]|(a & b & ->)]; [by exists "", t|]. by exists (String c a), b.
    + intros ([|d a] & b & H); [left; by exists b|right].
      rewrite str_app_cons in H. simplify_eq. eauto.
Qed.

Lemma contains_app_l s t sub : contains s sub = true → contains (s +:+ t) sub = true.
Proof.
  rewrite !contains_iff. intros (a & b & ->). exists a, (b +:+ t).
  by rewrite <- !str_app_assoc.
Qed.

(** ** Case mapping *)

Lemma to_lowercase_app s t : to_lowercase (s +:+ t) = to_lowercase s +:+ to_lowercase t.
Proof. induction s as [|c s IH]; [done|]. rewrite str_app_cons. simpl. by rewrite IH. Qed.

Lemma length_to_lowercase s : String.length (to_lowercase s) = String.length s.
Proof. induction s; simpl; auto. Qed.

Lemma lower_char_idemp c : lower_char (lower_char c) = lower_char c.
Proof. by destruct c as [[] [] [] [] [] [] [] []]. Qed.

Lemma to_lowercase_idemp s : to_lowercase (to_lowercase s) = to_lowercase s.
Proof. induction s as [|c s IH]; simpl; [done|]. by rewrite lower_char_idemp, IH. Qed.

(** ** Order of strings *)

Lemma ascii_compare_lt_trans a b c :
  Ascii.compare a b = Lt → Ascii.compare b c = Lt → Ascii.compare a c = Lt.
Proof. unfold Ascii.compare. rewrite !N.compare_lt_iff. lia. Qed.

Lemma string_compare_refl s : String.compare s s = Eq.
Proof.
  pose proof (String.compare_antisym s s) as H.
  by destruct (String.compare s s).
Qed.

Lemma string_leb_refl s : String.leb s s = true.
Proof. unfold String.leb. by rewrite string_compare_refl. Qed.

Lemma string_compare_lt_trans a b c :
  String.compare a b = Lt → String.compare b c = Lt → String.compare a c = Lt.
Proof.
  revert b c. induction a as [|x a IH]; intros [|y b] [|z c]; simpl; try done.
  destruct (Ascii.compare x y) eqn:Hxy; [| |done].
  - apply Ascii.compare_eq_iff in Hxy as ->. intros H1.
    destruct (Ascii.compare y z) eqn:Hyz; [|done|done]. by apply IH.
  - intros _. destruct (Ascii.compare y z) eqn:Hyz; [| |done].
    + apply Ascii.compare_eq_iff in Hyz as ->. by rewrite Hxy.
    + intros _. by rewrite (ascii_compare_lt_trans x y z).
Qed.

Lemma string_leb_trans a b c :
  String.leb a b = true → String.leb b c = true → String.leb a c = true.
Proof.
  unfold String.leb.
  destruct (String.compare a b) eqn:Hab; [| |done].
  - by apply String.compare_eq_iff in Hab as ->.
  - intros _. destruct (String.compare b c) eqn:Hbc; [| |done].
    + apply String.compare_eq_iff in Hbc as ->. by rewrite Hab.
    + intros _. by rewrite (string_compare_lt_trans a b c).
Qed.

Lemma string_ltb_irrefl s : String.ltb s s = false.
Proof. unfold String.ltb. by rewrite string_compare_refl. Qed.

Lemma string_leb_total a b : String.leb a b = true ∨ String.leb b a = true.
Proof. destruct (String.leb_total a b); auto. Qed.

Lemma string_ltb_spec a b : if String.ltb a b then String.leb a b = true else String.leb b a = true.
Proof.
  unfold String.ltb, String.leb. rewrite (String.compare_antisym b a).
  by destruct (String.compare a b).
Qed.

#[export] Hint Resolve string_leb_refl string_leb_trans : abigail.
