(* ===== verification/F32.v ===== *)
(** * [f32]

    The IEEE-754 binary32 format of [SpecFloat] with the operations, conversions and
    printing of the Rust standard library in use.  Rounding is to nearest, ties to
    even. *)

From S2P Require Import Prelude RustStr.
From Stdlib Require Import ZArith Lia SpecFloat.
From stdpp Require Import base list strings pretty.

Open Scope rust_scope.

Definition f32 : Type := spec_float.
Definition f32_add : f32 → f32 → f32 := SFadd 24 128.
Definition f32_mul : f32 → f32 → f32 := SFmul 24 128.
Definition f32_div : f32 → f32 → f32 := SFdiv 24 128.
Definition f32_ge (a b : f32) : bool := SFleb b a.
Definition f32_lt (a b : f32) : bool := SFltb a b.
Definition f32_gt (a b : f32) : bool := SFltb b a.

(** [f32::min]: the other operand when one is NaN. *)
Definition f32_min (a b : f32) : f32 :=
  match a, b with
  | S754_nan, _ => b
  | _, S754_nan => a
  | _, _ => if SFltb b a then b else a
  end.

(** [f32::clamp]: NaN stays. *)
Definition f32_clamp (lo hi x : f32) : f32 :=
  if SFltb x lo then lo else if SFltb hi x then hi else x.

(** [n as f32]; the literal [n / d], for integers that are exact. *)
Definition f32_of_Z (n : Z) : f32 := binary_normalize 24 128 n 0 false.
Definition f32_lit (n d : Z) : f32 := f32_div (f32_of_Z n) (f32_of_Z d).

(** [Iterator::sum], which starts from negative zero. *)
Definition f32_sum (l : list f32) : f32 := foldl f32_add (S754_zero true) l.

Definition f32_0_0 : f32 := S754_zero false.
Definition f32_0_2 : f32 := S754_finite false 13421773 (-26).
Definition f32_0_3 : f32 := S754_finite false 10066330 (-25).
Definition f32_0_5 : f32 := S754_finite false 8388608 (-24).
Definition f32_0_8 : f32 := S754_finite false 13421773 (-24).
Definition f32_1_0 : f32 := S754_finite false 8388608 (-23).

(** [partial_cmp] with [unwrap_or(Equal)]. *)
Definition f32_cmp (a b : f32) : comparison := match SFcompare a b with Some c => c | None => Eq end.

(** [x as usize]: towards zero, saturating; NaN is 0. *)
Definition f32_to_usize (x : f32) : N :=
  match x with
  | S754_finite false m e => if (0 <=? e)%Z then N.shiftl (Npos m) (Z.to_N e) else N.shiftr (Npos m) (Z.to_N (- e))
  | S754_infinity false => (2 ^ 64 - 1)%N
  | _ => 0%N
  end `min` (2 ^ 64 - 1)%N.

(** [n / 2^k] to the nearest integer, ties to even. *)
Definition round_shift (n k : N) : N :=
  let q := N.shiftr n k in
  let r := N.modulo n (2 ^ k) in
  match (2 * r ?= 2 ^ k)%N with
  | Lt => q
  | Gt => q + 1
  | Eq => if N.even q then q else q + 1
  end%N.

(** The digits of [n], at least [k] of them. *)
Definition padded (k : nat) (n : N) : string :=
  let s := pretty n in
  RustStr.join "" (replicate (k - String.length s) "0") +:+ s.

(** [format!("{:.k}", x)]: the exact value, rounded to [k] decimals. *)
Definition f32_fixed (k : nat) (x : f32) : string :=
  match x with
  | S754_nan => "NaN"
  | S754_infinity s => (if s then "-" else "") +:+ "inf"
  | _ =>
      let '(s, n) := match x with
        | S754_finite s m e =>
            (s, let scaled := (Npos m * 10 ^ N.of_nat k)%N in
                if (0 <=? e)%Z then N.shiftl scaled (Z.to_N e) else round_shift scaled (Z.to_N (- e)))
        | S754_zero s => (s, 0%N)
        | _ => (false, 0%N)
        end in
      let unit_ := (10 ^ N.of_nat k)%N in
      (if s then "-" else "") +:+ pretty (n / unit_)%N +:+
      (match k with O => "" | _ => "." +:+ padded k (n `mod` unit_)%N end)
  end.

(** The literals written as significands are the rounded decimals. *)
Example literals :
  f32_0_2 = f32_lit 2 10 ∧ f32_0_3 = f32_lit 3 10 ∧ f32_0_5 = f32_lit 5 10 ∧ f32_0_8 = f32_lit 8 10 ∧
  f32_1_0 = f32_of_Z 1.
Proof. by vm_compute. Qed.

Example printed :
  f32_fixed 4 f32_0_3 = "0.3000" ∧ f32_fixed 1 (f32_lit 15 2) = "7.5" ∧ f32_fixed 0 (f32_lit 5 2) = "2" ∧
  f32_to_usize (f32_mul f32_0_3 (f32_of_Z 10)) = 3%N.
Proof. by vm_compute. Qed.

(** ** Order *)

(** A number that is not NaN, as a triple that is compared from the left. *)
Definition f32_key (x : f32) : Z * Z * Z :=
  match x with
  | S754_infinity true => (-2, 0, 0)
  | S754_finite true m e => (-1, - e, - Zpos m)
  | S754_zero _ | S754_nan => (0, 0, 0)
  | S754_finite false m e => (1, e, Zpos m)
  | S754_infinity false => (2, 0, 0)
  end%Z.

Definition key_le (a b : Z * Z * Z) : Prop :=
  (a.1.1 < b.1.1 ∨ a.1.1 = b.1.1 ∧ (a.1.2 < b.1.2 ∨ a.1.2 = b.1.2 ∧ a.2 ≤ b.2))%Z.

Lemma f32_cmp_key x y :
  x ≠ S754_nan → y ≠ S754_nan → f32_cmp x y ≠ Gt ↔ key_le (f32_key x) (f32_key y).
Proof.
  intros Hx Hy. unfold f32_cmp, key_le.
  destruct x as [?|[]| |[] m e], y as [?|[]| |[] m' e']; try done; simpl;
    try (split; intros; first [lia|done|congruence]).
  - destruct (Z.compare_spec e e'); simpl; try (split; intros; first [lia|done|congruence]).
    change (Pos.compare_cont Eq m m') with (m ?= m')%positive.
    destruct (Pos.compare_spec m m'); simpl; split; intros; first [lia|done|congruence].
  - destruct (Z.compare_spec e e'); simpl; try (split; intros; first [lia|done|congruence]).
    change (Pos.compare_cont Eq m m') with (m ?= m')%positive.
    destruct (Pos.compare_spec m m'); simpl; split; intros; first [lia|done|congruence].
Qed.

(** ** Numbers that are not negative *)

Definition nonneg (x : f32) : Prop :=
  match x with S754_zero _ | S754_finite false _ _ | S754_infinity false => True | _ => False end.

Lemma shr_nonneg r e n : (0 ≤ shr_m r)%Z → (0 ≤ shr_m (shr r e n).1)%Z.
Proof.
  intros Hr. assert (∀ r, (0 ≤ shr_m r)%Z → (0 ≤ shr_m (shr_1 r))%Z) as H1.
  { intros [m rb sb] Hm. simpl in *. destruct m as [|[]|]; simpl; lia. }
  destruct n as [|p|p]; [done| |done]. simpl. revert r Hr.
  induction p as [p IH|p IH|]; intros r Hr; simpl; auto.
Qed.

Lemma shr_fexp_nonneg m e l : (0 ≤ m)%Z → (0 ≤ shr_m (shr_fexp 24 128 m e l).1)%Z.
Proof. intros Hm. unfold shr_fexp. apply shr_nonneg. by destruct l as [|[]]. Qed.

(** Rounding keeps the sign, and is never NaN. *)
Definition has_sign (s : bool) (x : f32) : Prop :=
  match x with S754_nan => False | S754_zero s' | S754_infinity s' | S754_finite s' _ _ => s' = s end.

Lemma binary_round_aux_sign s m e l : (0 ≤ m)%Z → has_sign s (binary_round_aux 24 128 s m e l).
Proof.
  intros Hm. unfold binary_round_aux. pose proof (shr_fexp_nonneg m e l Hm) as H1.
  destruct (shr_fexp 24 128 m e l) as [r e1]. simpl in H1.
  assert (0 ≤ round_nearest_even (shr_m r) (loc_of_shr_record r))%Z as H2.
  { unfold round_nearest_even. destruct (loc_of_shr_record r) as [|[]]; try lia. destruct (Z.even _); lia. }
  pose proof (shr_fexp_nonneg _ e1 loc_Exact H2) as H3.
  destruct (shr_fexp 24 128 _ e1 loc_Exact) as [r2 e2]. simpl in H3.
  destruct (shr_m r2); [done| |lia]. by destruct (_ <=? _)%Z.
Qed.

Lemma binary_round_aux_nonneg m e l : (0 ≤ m)%Z → nonneg (binary_round_aux 24 128 false m e l).
Proof.
  intros Hm. pose proof (binary_round_aux_sign false m e l Hm) as Hs.
  destruct (binary_round_aux _ _ _ _ _ _); simpl in *; by subst.
Qed.

Lemma f32_of_Z_not_nan n : f32_of_Z n ≠ S754_nan.
Proof.
  unfold f32_of_Z. destruct n as [|p|p]; [done|..]; unfold binary_normalize, binary_round;
    destruct (shl_align _ _ _) as [m e]; [pose proof (binary_round_aux_sign false (Zpos m) e loc_Exact ltac:(lia)) as Hs|
    pose proof (binary_round_aux_sign true (Zpos m) e loc_Exact ltac:(lia)) as Hs]; by destruct (binary_round_aux _ _ _ _ _ _).
Qed.

Lemma binary_normalize_nonneg m e : (0 ≤ m)%Z → nonneg (binary_normalize 24 128 m e false).
Proof.
  intros Hm. destruct m; [done| |lia]. unfold binary_normalize, binary_round.
  destruct (shl_align _ _ _). by apply binary_round_aux_nonneg.
Qed.

Lemma f32_add_nonneg x y : nonneg x → nonneg y → nonneg (f32_add x y).
Proof.
  unfold f32_add. destruct x as [[]|[]| |[] m e], y as [[]|[]| |[] m' e']; try done. intros _ _.
  cbn [SFadd cond_Zopp]. by apply binary_normalize_nonneg.
Qed.

Lemma f32_sum_nonneg l : Forall nonneg l → nonneg (f32_sum l).
Proof.
  unfold f32_sum. assert (nonneg (S754_zero true)) as Hz by done. revert Hz. generalize (S754_zero true).
  induction l as [|x l IH]; intros z Hz; [done|]. intros [Hx Hl]%Forall_cons. simpl. apply IH; [|done].
  by apply f32_add_nonneg.
Qed.

Lemma f32_div_nonneg x m e : nonneg x → nonneg (f32_div x (S754_finite false m e)).
Proof.
  unfold f32_div. destruct x as [[]|[]| |[] mx ex]; try done. intros _. cbn [SFdiv xorb].
  unfold SFdiv_core_binary.
  set (m' := match _ with Z0 => _ | _ => _ end). assert (0 ≤ m')%Z as Hm.
  { unfold m'. destruct (_ - _ - _)%Z; [lia| |lia]. apply Z.shiftl_nonneg. lia. }
  pose proof (Z.div_pos m' (Zpos m) Hm ltac:(lia)) as Hq. unfold Z.div in Hq.
  destruct (Z.div_eucl m' (Zpos m)) as [q r]. by apply binary_round_aux_nonneg.
Qed.

Lemma f32_clamp_nonneg hi x : nonneg hi → x ≠ S754_nan → nonneg (f32_clamp f32_0_0 hi x).
Proof.
  intros Hhi Hx. unfold f32_clamp. destruct (SFltb x f32_0_0) eqn:H0; [done|].
  destruct (SFltb hi x); [done|]. by destruct x as [[]|[]| |[]].
Qed.
