(* ===== verification/JobTypes.v ===== *)
(** * Job queue types ([crates/abigail-queue/src/types.rs], [significance.rs])

    The enumerations of the queue with their wire names, the submission
    ([JobSpec]), the stored record ([JobRecord]) and the published events.
    [serde_json::Value] is a type parameter ([Value]); [f32] is the IEEE-754
    binary32 format of [SpecFloat]; [u32] and [u64] fields are [Z]; timestamps
    are RFC 3339 strings. *)

From S2P Require Import Prelude RustStr F32.
From Stdlib Require Import ZArith Lia SpecFloat.
From stdpp Require Import base list strings.

(** ** Enumerations *)

Inductive RequiredCapability : Type :=
| General
| Code
| Vision
| Reasoning
| Search
| ImageGeneration
| AudioGeneration
| VideoGeneration
| Transcription
| Custom (name : string).

#[export] Instance RequiredCapability_eq_dec : EqDecision RequiredCapability.
Proof. solve_decision. Defined.

Module Capability.

Definition as_str (c : RequiredCapability) : string :=
  match c with
  | General => "general"
  | Code => "code"
  | Vision => "vision"
  | Reasoning => "reasoning"
  | Search => "search"
  | ImageGeneration => "image_generation"
  | AudioGeneration => "audio_generation"
  | VideoGeneration => "video_generation"
  | Transcription => "transcription"
  | Custom s => s
  end.

Definition from_str_lossy (s : string) : RequiredCapability :=
  if decide (s = "general") then General
  else if decide (s = "code") then Code
  else if decide (s = "vision") then Vision
  else if decide (s = "reasoning") then Reasoning
  else if decide (s = "search") then Search
  else if decide (s = "image_generation") then ImageGeneration
  else if decide (s = "audio_generation") then AudioGeneration
  else if decide (s = "video_generation") then VideoGeneration
  else if decide (s = "transcription") then Transcription
  else Custom s.

End Capability.

Inductive ExecutionMode : Type := Mediated | Direct.

#[export] Instance ExecutionMode_eq_dec : EqDecision ExecutionMode.
Proof. solve_decision. Defined.

(** [#[default] Mediated]. *)
Definition ExecutionMode_default : ExecutionMode := Mediated.

Inductive JobPriority : Type := Low | Normal | High | Critical.

#[export] Instance JobPriority_eq_dec : EqDecision JobPriority.
Proof. solve_decision. Defined.

Module Priority.

Definition as_i32 (p : JobPriority) : Z :=
  match p with Low => 0 | Normal => 1 | High => 2 | Critical => 3 end.

Definition from_i32 (v : Z) : JobPriority :=
  match v with
  | 0%Z => Low
  | 2%Z => High
  | 3%Z => Critical
  | _ => Normal
  end.

(** The derived [Ord]: by discriminant. *)
Definition compare (p q : JobPriority) : comparison := Z.compare (as_i32 p) (as_i32 q).

End Priority.

Inductive JobStatus : Type :=
| Queued | Running | Completed | Failed | Cancelled | Expired.

#[export] Instance JobStatus_eq_dec : EqDecision JobStatus.
Proof. solve_decision. Defined.

Module Status.

Definition as_str (s : JobStatus) : string :=
  match s with
  | Queued => "queued"
  | Running => "running"
  | Completed => "completed"
  | Failed => "failed"
  | Cancelled => "cancelled"
  | Expired => "expired"
  end.

Definition from_str_lossy (s : string) : JobStatus :=
  if decide (s = "queued") then Queued
  else if decide (s = "running") then Running
  else if decide (s = "completed") then Completed
  else if decide (s = "failed") then Failed
  else if decide (s = "cancelled") then Cancelled
  else if decide (s = "expired") then Expired
  else Queued.

Definition is_terminal (s : JobStatus) : bool :=
  match s with
  | Completed | Failed | Cancelled | Expired => true
  | _ => false
  end.

End Status.

(** ** Records *)

Notation JobId := string (only parsing).
Notation TopicId := string (only parsing).

Record DirectToolCall (Value : Type) : Type := mkDirectToolCall {
  skill_id : string;
  tool_name : string;
  params : Value;
}.
Arguments mkDirectToolCall {Value}.
Arguments skill_id {Value}.
Arguments tool_name {Value}.
Arguments params {Value}.

(** What the entity submits to create a job. *)
Record JobSpec (Value : Type) : Type := mkJobSpec {
  spec_goal : string;
  spec_topic : TopicId;
  spec_capability : RequiredCapability;
  spec_priority : JobPriority;
  spec_time_budget_ms : Z;
  spec_max_turns : Z;
  spec_system_context : option string;
  spec_allowed_skill_ids : list string;
  spec_ttl_seconds : Z;
  spec_input_data : option Value;
  spec_parent_job_id : option JobId;
  spec_parent_correlation_id : option string;
  spec_depth : Z;
  spec_provider_profile : option string;
  spec_cron_expression : option string;
  spec_is_recurring : bool;
  spec_significance_keywords : list string;
  spec_significance_threshold : f32;
  spec_job_mode : string;
  spec_goal_template : option string;
  spec_depends_on : list JobId;
  spec_execution_mode : ExecutionMode;
  spec_direct_tool_call : option (DirectToolCall Value);
}.
Arguments mkJobSpec {Value}.
Arguments spec_goal {Value}.
Arguments spec_topic {Value}.
Arguments spec_capability {Value}.
Arguments spec_priority {Value}.
Arguments spec_time_budget_ms {Value}.
Arguments spec_max_turns {Value}.
Arguments spec_system_context {Value}.
Arguments spec_allowed_skill_ids {Value}.
Arguments spec_ttl_seconds {Value}.
Arguments spec_input_data {Value}.
Arguments spec_parent_job_id {Value}.
Arguments spec_parent_correlation_id {Value}.
Arguments spec_depth {Value}.
Arguments spec_provider_profile {Value}.
Arguments spec_cron_expression {Value}.
Arguments spec_is_recurring {Value}.
Arguments spec_significance_keywords {Value}.
Arguments spec_significance_threshold {Value}.
Arguments spec_job_mode {Value}.
Arguments spec_goal_template {Value}.
Arguments spec_depends_on {Value}.
Arguments spec_execution_mode {Value}.
Arguments spec_direct_tool_call {Value}.

(** The serde defaults of the optional fields. *)
Definition default_capability : RequiredCapability := General.
Definition default_priority : JobPriority := Normal.
Definition default_time_budget : Z := 120000.
Definition default_max_turns : Z := 10.
Definition default_ttl : Z := 3600.
Definition default_significance_threshold : f32 := f32_0_5.
Definition default_job_mode : string := "agentic_run".

(** The record stored for a job. *)
Record JobRecord (Value : Type) : Type := mkJobRecord {
  job_id : JobId;
  job_topic : TopicId;
  job_goal : string;
  job_capability : RequiredCapability;
  job_priority : JobPriority;
  job_status : JobStatus;
  job_time_budget_ms : Z;
  job_max_turns : Z;
  job_system_context : option string;
  job_allowed_skill_ids : list string;
  job_input_data : option Value;
  job_parent_job_id : option JobId;
  job_parent_correlation_id : option string;
  job_depth : Z;
  job_provider_profile : option string;
  job_agent_id : option string;
  job_model_used : option string;
  job_provider_used : option string;
  job_result_ : option string;
  job_error : option string;
  job_turns_consumed : Z;
  job_ttl_seconds : Z;
  job_created_at : string;
  job_started_at : option string;
  job_completed_at : option string;
  job_expires_at : string;
  job_cron_expression : option string;
  job_is_recurring : bool;
  job_significance_keywords : list string;
  job_significance_threshold : f32;
  job_job_mode : string;
  job_goal_template : option string;
  job_last_scheduled_at : option string;
  job_depends_on : list JobId;
  job_execution_mode : ExecutionMode;
  job_direct_tool_call : option (DirectToolCall Value);
}.
Arguments mkJobRecord {Value}.
Arguments job_id {Value}.
Arguments job_topic {Value}.
Arguments job_goal {Value}.
Arguments job_capability {Value}.
Arguments job_priority {Value}.
Arguments job_status {Value}.
Arguments job_time_budget_ms {Value}.
Arguments job_max_turns {Value}.
Arguments job_system_context {Value}.
Arguments job_allowed_skill_ids {Value}.
Arguments job_input_data {Value}.
Arguments job_parent_job_id {Value}.
Arguments job_parent_correlation_id {Value}.
Arguments job_depth {Value}.
Arguments job_provider_profile {Value}.
Arguments job_agent_id {Value}.
Arguments job_model_used {Value}.
Arguments job_provider_used {Value}.
Arguments job_result_ {Value}.
Arguments job_error {Value}.
Arguments job_turns_consumed {Value}.
Arguments job_ttl_seconds {Value}.
Arguments job_created_at {Value}.
Arguments job_started_at {Value}.
Arguments job_completed_at {Value}.
Arguments job_expires_at {Value}.
Arguments job_cron_expression {Value}.
Arguments job_is_recurring {Value}.
Arguments job_significance_keywords {Value}.
Arguments job_significance_threshold {Value}.
Arguments job_job_mode {Value}.
Arguments job_goal_template {Value}.
Arguments job_last_scheduled_at {Value}.
Arguments job_depends_on {Value}.
Arguments job_execution_mode {Value}.
Arguments job_direct_tool_call {Value}.

(** Assignments [record.field = v] of the operations. *)
Section setters.
Context {Value : Type}.
Implicit Types r : JobRecord Value.

Definition set_status (v : JobStatus) r : JobRecord Value :=
  mkJobRecord (job_id r) (job_topic r) (job_goal r) (job_capability r)
    (job_priority r) v (job_time_budget_ms r) (job_max_turns r)
    (job_system_context r) (job_allowed_skill_ids r) (job_input_data r)
    (job_parent_job_id r) (job_parent_correlation_id r) (job_depth r)
    (job_provider_profile r) (job_agent_id r) (job_model_used r)
    (job_provider_used r) (job_result_ r) (job_error r) (job_turns_consumed r)
    (job_ttl_seconds r) (job_created_at r) (job_started_at r) (job_completed_at r)
    (job_expires_at r) (job_cron_expression r) (job_is_recurring r)
    (job_significance_keywords r) (job_significance_threshold r) (job_job_mode r)
    (job_goal_template r) (job_last_scheduled_at r) (job_depends_on r)
    (job_execution_mode r) (job_direct_tool_call r).

Definition set_agent_id (v : option string) r : JobRecord Value :=
  mkJobRecord (job_id r) (job_topic r) (job_goal r) (job_capability r)
    (job_priority r) (job_status r) (job_time_budget_ms r) (job_max_turns r)
    (job_system_context r) (job_allowed_skill_ids r) (job_input_data r)
    (job_parent_job_id r) (job_parent_correlation_id r) (job_depth r)
    (job_provider_profile r) v (job_model_used r) (job_provider_used r)
    (job_result_ r) (job_error r) (job_turns_consumed r) (job_ttl_seconds r)
    (job_created_at r) (job_started_at r) (job_completed_at r) (job_expires_at r)
    (job_cron_expression r) (job_is_recurring r) (job_significance_keywords r)
    (job_significance_threshold r) (job_job_mode r) (job_goal_template r)
    (job_last_scheduled_at r) (job_depends_on r) (job_execution_mode r)
    (job_direct_tool_call r).

Definition set_model_used (v : option string) r : JobRecord Value :=
  mkJobRecord (job_id r) (job_topic r) (job_goal r) (job_capability r)
    (job_priority r) (job_status r) (job_time_budget_ms r) (job_max_turns r)
    (job_system_context r) (job_allowed_skill_ids r) (job_input_data r)
    (job_parent_job_id r) (job_parent_correlation_id r) (job_depth r)
    (job_provider_profile r) (job_agent_id r) v (job_provider_used r) (job_result_
    r) (job_error r) (job_turns_consumed r) (job_ttl_seconds r) (job_created_at r)
    (job_started_at r) (job_completed_at r) (job_expires_at r)
    (job_cron_expression r) (job_is_recurring r) (job_significance_keywords r)
    (job_significance_threshold r) (job_job_mode r) (job_goal_template r)
    (job_last_scheduled_at r) (job_depends_on r) (job_execution_mode r)
    (job_direct_tool_call r).

Definition set_provider_used (v : option string) r : JobRecord Value :=
  mkJobRecord (job_id r) (job_topic r) (job_goal r) (job_capability r)
    (job_priority r) (job_status r) (job_time_budget_ms r) (job_max_turns r)
    (job_system_context r) (job_allowed_skill_ids r) (job_input_data r)
    (job_parent_job_id r) (job_parent_correlation_id r) (job_depth r)
    (job_provider_profile r) (job_agent_id r) (job_model_used r) v (job_result_ r)
    (job_error r) (job_turns_consumed r) (job_ttl_seconds r) (job_created_at r)
    (job_started_at r) (job_completed_at r) (job_expires_at r)
    (job_cron_expression r) (job_is_recurring r) (job_significance_keywords r)
    (job_significance_threshold r) (job_job_mode r) (job_goal_template r)
    (job_last_scheduled_at r) (job_depends_on r) (job_execution_mode r)
    (job_direct_tool_call r).

Definition set_result_ (v : option string) r : JobRecord Value :=
  mkJobRecord (job_id r) (job_topic r) (job_goal r) (job_capability r)
    (job_priority r) (job_status r) (job_time_budget_ms r) (job_max_turns r)
    (job_system_context r) (job_allowed_skill_ids r) (job_input_data r)
    (job_parent_job_id r) (job_parent_correlation_id r) (job_depth r)
    (job_provider_profile r) (job_agent_id r) (job_model_used r)
    (job_provider_used r) v (job_error r) (job_turns_consumed r) (job_ttl_seconds
    r) (job_created_at r) (job_started_at r) (job_completed_at r) (job_expires_at
    r) (job_cron_expression r) (job_is_recurring r) (job_significance_keywords r)
    (job_significance_threshold r) (job_job_mode r) (job_goal_template r)
    (job_last_scheduled_at r) (job_depends_on r) (job_execution_mode r)
    (job_direct_tool_call r).

Definition set_error (v : option string) r : JobRecord Value :=
  mkJobRecord (job_id r) (job_topic r) (job_goal r) (job_capability r)
    (job_priority r) (job_status r) (job_time_budget_ms r) (job_max_turns r)
    (job_system_context r) (job_allowed_skill_ids r) (job_input_data r)
    (job_parent_job_id r) (job_parent_correlation_id r) (job_depth r)
    (job_provider_profile r) (job_agent_id r) (job_model_used r)
    (job_provider_used r) (job_result_ r) v (job_turns_consumed r)
    (job_ttl_seconds r) (job_created_at r) (job_started_at r) (job_completed_at r)
    (job_expires_at r) (job_cron_expression r) (job_is_recurring r)
    (job_significance_keywords r) (job_significance_threshold r) (job_job_mode r)
    (job_goal_template r) (job_last_scheduled_at r) (job_depends_on r)
    (job_execution_mode r) (job_direct_tool_call r).

Definition set_turns_consumed (v : Z) r : JobRecord Value :=
  mkJobRecord (job_id r) (job_topic r) (job_goal r) (job_capability r)
    (job_priority r) (job_status r) (job_time_budget_ms r) (job_max_turns r)
    (job_system_context r) (job_allowed_skill_ids r) (job_input_data r)
    (job_parent_job_id r) (job_parent_correlation_id r) (job_depth r)
    (job_provider_profile r) (job_agent_id r) (job_model_used r)
    (job_provider_used r) (job_result_ r) (job_error r) v (job_ttl_seconds r)
    (job_created_at r) (job_started_at r) (job_completed_at r) (job_expires_at r)
    (job_cron_expression r) (job_is_recurring r) (job_significance_keywords r)
    (job_significance_threshold r) (job_job_mode r) (job_goal_template r)
    (job_last_scheduled_at r) (job_depends_on r) (job_execution_mode r)
    (job_direct_tool_call r).

Definition set_started_at (v : option string) r : JobRecord Value :=
  mkJobRecord (job_id r) (job_topic r) (job_goal r) (job_capability r)
    (job_priority r) (job_status r) (job_time_budget_ms r) (job_max_turns r)
    (job_system_context r) (job_allowed_skill_ids r) (job_input_data r)
    (job_parent_job_id r) (job_parent_correlation_id r) (job_depth r)
    (job_provider_profile r) (job_agent_id r) (job_model_used r)
    (job_provider_used r) (job_result_ r) (job_error r) (job_turns_consumed r)
    (job_ttl_seconds r) (job_created_at r) v (job_completed_at r) (job_expires_at
    r) (job_cron_expression r) (job_is_recurring r) (job_significance_keywords r)
    (job_significance_threshold r) (job_job_mode r) (job_goal_template r)
    (job_last_scheduled_at r) (job_depends_on r) (job_execution_mode r)
    (job_direct_tool_call r).

Definition set_completed_at (v : option string) r : JobRecord Value :=
  mkJobRecord (job_id r) (job_topic r) (job_goal r) (job_capability r)
    (job_priority r) (job_status r) (job_time_budget_ms r) (job_max_turns r)
    (job_system_context r) (job_allowed_skill_ids r) (job_input_data r)
    (job_parent_job_id r) (job_parent_correlation_id r) (job_depth r)
    (job_provider_profile r) (job_agent_id r) (job_model_used r)
    (job_provider_used r) (job_result_ r) (job_error r) (job_turns_consumed r)
    (job_ttl_seconds r) (job_created_at r) (job_started_at r) v (job_expires_at r)
    (job_cron_expression r) (job_is_recurring r) (job_significance_keywords r)
    (job_significance_threshold r) (job_job_mode r) (job_goal_template r)
    (job_last_scheduled_at r) (job_depends_on r) (job_execution_mode r)
    (job_direct_tool_call r).

Definition set_last_scheduled_at (v : option string) r : JobRecord Value :=
  mkJobRecord (job_id r) (job_topic r) (job_goal r) (job_capability r)
    (job_priority r) (job_status r) (job_time_budget_ms r) (job_max_turns r)
    (job_system_context r) (job_allowed_skill_ids r) (job_input_data r)
    (job_parent_job_id r) (job_parent_correlation_id r) (job_depth r)
    (job_provider_profile r) (job_agent_id r) (job_model_used r)
    (job_provider_used r) (job_result_ r) (job_error r) (job_turns_consumed r)
    (job_ttl_seconds r) (job_created_at r) (job_started_at r) (job_completed_at r)
    (job_expires_at r) (job_cron_expression r) (job_is_recurring r)
    (job_significance_keywords r) (job_significance_threshold r) (job_job_mode r)
    (job_goal_template r) v (job_depends_on r) (job_execution_mode r)
    (job_direct_tool_call r).

End setters.

(** Event published when the state of a job changes. *)
Inductive JobEvent : Type :=
| JobQueued (job_id : JobId) (topic : TopicId)
    (capability : RequiredCapability) (priority : JobPriority)
| JobStarted (job_id : JobId) (topic : TopicId) (agent_id model_used : string)
| JobProgress (job_id : JobId) (topic : TopicId) (turns_consumed : Z) (message : string)
| JobCompleted (job_id : JobId) (topic : TopicId) (result : string) (turns_consumed : Z)
| JobFailed (job_id : JobId) (topic : TopicId) (error : string) (turns_consumed : Z)
| JobCancelled (job_id : JobId) (topic : TopicId)
| JobExpired (job_id : JobId) (topic : TopicId).

Module Event.

Definition job_id (e : JobEvent) : string :=
  match e with
  | JobQueued i _ _ _ | JobStarted i _ _ _ | JobProgress i _ _ _
  | JobCompleted i _ _ _ | JobFailed i _ _ _ | JobCancelled i _ | JobExpired i _ => i
  end.

Definition topic (e : JobEvent) : string :=
  match e with
  | JobQueued _ t _ _ | JobStarted _ t _ _ | JobProgress _ t _ _
  | JobCompleted _ t _ _ | JobFailed _ t _ _ | JobCancelled _ t | JobExpired _ t => t
  end.

Definition event_type_str (e : JobEvent) : string :=
  match e with
  | JobQueued _ _ _ _ => "job_queued"
  | JobStarted _ _ _ _ => "job_started"
  | JobProgress _ _ _ _ => "job_progress"
  | JobCompleted _ _ _ _ => "job_completed"
  | JobFailed _ _ _ _ => "job_failed"
  | JobCancelled _ _ => "job_cancelled"
  | JobExpired _ _ => "job_expired"
  end.

End Event.

(** ** Significance of a result *)

Inductive SignificanceDecision : Type := SilentLog | SpawnAgentic | FlagMentor.

Definition urgent_keywords : list string :=
  ["urgent"; "error"; "failure"; "critical"; "alert"; "warning"].

(** [for kw in kws { if lower.contains(kw) { score += w; } }] *)
Definition add_matches (w : f32) (lower : string) (kws : list string) (score : f32) : f32 :=
  foldl (λ acc kw, if contains lower kw then f32_add acc w else acc) score kws.

Definition score_significance (result : string) (keywords : list string) (threshold : f32)
  : f32 * SignificanceDecision :=
  let lower := to_lowercase result in
  let score := add_matches f32_0_3 lower (map to_lowercase keywords) f32_0_0 in
  let score := add_matches f32_0_2 lower urgent_keywords score in
  let score := f32_min score f32_1_0 in
  let decision :=
    if f32_ge score f32_0_8 then FlagMentor
    else if f32_ge score threshold then SpawnAgentic
    else SilentLog in
  (score, decision).

(** ** Lemmas *)

Lemma status_from_as_str s : Status.from_str_lossy (Status.as_str s) = s.
Proof. by destruct s. Qed.

Lemma status_as_str_inj s t : Status.as_str s = Status.as_str t → s = t.
Proof. intros H. by rewrite <- (status_from_as_str s), H, status_from_as_str. Qed.

Lemma priority_from_as_i32 p : Priority.from_i32 (Priority.as_i32 p) = p.
Proof. by destruct p. Qed.

Lemma terminal_iff s : Status.is_terminal s = true ↔ s ≠ Queued ∧ s ≠ Running.
Proof. destruct s; naive_solver. Qed.

#[export] Hint Rewrite status_from_as_str priority_from_as_i32 : abigail.
