(* ===== verification/RecordStore.v ===== *)
(** * The record store ([crates/abigail-persistence/src/client.rs])

    [PersistenceHandle] is a client of an embedded document database; what the
    rest of the program relies on is stated as an interface: four operations on
    one table ([RecordStore]) and their laws ([RecordStoreLaws]), read off the
    documentation of the database ([CREATE] fails when the record exists,
    [UPSERT ... CONTENT] replaces it, [SELECT] returns what was written).  Any
    operation may fail (the handle may be remote); a failed operation leaves
    the table as it was.  Clients are verified against the interface;
    [gmap_store] is the in-memory implementation that discharges it. *)

From S2P Require Import Prelude RustStr.
From Stdlib Require Import ZArith Lia.
From stdpp Require Import base list sorting strings gmap fin_maps.

Class RecordStore (T R : Type) : Type := {
  store_create : string → R → M T string unit;
  store_upsert : string → R → M T string unit;
  store_select : string → T → result (option R) string;
  store_all : T → result (list R) string;
}.

Class RecordStoreLaws (T R : Type) `{RecordStore T R} : Type := {
  (** The table as a finite map from record ids to records. *)
  contents : T → gmap string R;
  store_create_spec i r s s' o :
    store_create i r s = (s', o) →
    match o with
    | Ok _ => contents s !! i = None ∧ contents s' = <[i:=r]> (contents s)
    | Err _ => s' = s
    end;
  store_upsert_spec i r s s' o :
    store_upsert i r s = (s', o) →
    match o with
    | Ok _ => contents s' = <[i:=r]> (contents s)
    | Err _ => s' = s
    end;
  store_select_spec i s o :
    store_select i s = Ok o → o = contents s !! i;
  store_all_spec s l :
    store_all s = Ok l → l ≡ₚ (map_to_list (contents s)).*2;
}.

(** A store none of whose operations fails, except [CREATE] on a taken id. *)
Class ReliableStore (T R : Type) `{RecordStoreLaws T R} : Prop := {
  reliable_create i r s :
    contents s !! i = None → ∃ s', store_create i r s = (s', Ok tt);
  reliable_upsert i r s : ∃ s', store_upsert i r s = (s', Ok tt);
  reliable_select i s : ∃ o, store_select i s = Ok o;
  reliable_all s : ∃ l, store_all s = Ok l;
}.

Lemma elem_of_store_all `{RecordStoreLaws T R} s l (r : R) :
  store_all s = Ok l → r ∈ l ↔ ∃ i, contents s !! i = Some r.
Proof.
  intros Hl. rewrite (store_all_spec _ _ Hl), list_elem_of_fmap. split.
  - intros ([i r'] & -> & Hr). exists i. by apply elem_of_map_to_list.
  - intros [i Hi]. exists (i, r). split; [done|]. by apply elem_of_map_to_list.
Qed.

(** ** Queries

    The statements [SELECT ... WHERE ... ORDER BY ... LIMIT ...] of the program:
    a test on the record, the order of the sort keys ([le x y]: [x] may come
    before [y]; records with equal keys come in any order) and the limit; and
    the deletion of a record, which succeeds when there is none. *)

Class RecordQuery (T R : Type) : Type := {
  store_query : (R → bool) → (R → R → bool) → option nat → T → result (list R) string;
  store_delete : string → T → T * result unit string;
}.

(** The answer to a query: the first of the matching records in the order. *)
Definition answers {R} (keep : R → bool) (le : R → R → bool) (limit : option nat)
    (records l : list R) : Prop :=
  ∃ rest, l ++ rest ≡ₚ filter keep records ∧
    StronglySorted (λ x y, le x y) l ∧
    (∀ x y, x ∈ l → y ∈ rest → le x y) ∧
    match limit with
    | None => rest = []
    | Some n => length l = Nat.min n (length (filter keep records))
    end.

Class RecordQueryLaws (T R : Type) `{RecordStoreLaws T R} `{!RecordQuery T R} : Prop := {
  store_query_spec (keep : R → bool) (le : R → R → bool) limit s l :
    (∀ x y, le x y ∨ le y x) → (∀ x y z, le x y → le y z → le x z) →
    store_query keep le limit s = Ok l →
    answers keep le limit (map_to_list (contents s)).*2 l;
  store_delete_spec i s s' o :
    store_delete i s = (s', o) →
    match o with
    | Ok _ => contents s' = delete i (contents s)
    | Err _ => s' = s
    end;
}.

(** ** The in-memory store *)

Section gmap_store.
Context {R : Type}.

#[export] Instance gmap_store : RecordStore (gmap string R) R := {|
  store_create i r s :=
    match s !! i with
    | Some _ => (s, Err "record already exists")
    | None => (<[i:=r]> s, Ok tt)
    end;
  store_upsert i r s := (<[i:=r]> s, Ok tt);
  store_select i s := Ok (s !! i);
  store_all s := Ok (map_to_list s).*2;
|}.

#[export] Instance gmap_store_laws : RecordStoreLaws (gmap string R) R.
Proof.
  refine {| contents := id |}; simpl.
  - intros i r s s' o H. destruct (s !! i) eqn:Hi; by simplify_eq.
  - intros i r s s' o H. by simplify_eq.
  - intros i s o H. by simplify_eq.
  - intros s l H. by simplify_eq.
Defined.

#[export] Instance gmap_store_reliable : ReliableStore (gmap string R) R.
Proof.
  split; simpl; eauto. intros i r s Hi. simpl in Hi. unfold id in Hi. rewrite Hi. eauto.
Qed.

#[export] Instance gmap_query : RecordQuery (gmap string R) R := {|
  store_query keep le limit s :=
    let l := sort_by le (filter keep (map_to_list s).*2) in
    Ok (match limit with Some n => take n l | None => l end);
  store_delete i s := (delete i s, Ok tt);
|}.

#[export] Instance gmap_query_laws : RecordQueryLaws (gmap string R) R.
Proof.
  split; simpl; [|by intros i s s' o [= <- <-]].
  intros keep le limit s l Htot Htrans [= <-]. unfold id.
  set (records := (map_to_list s).*2). set (l := sort_by le (filter keep records)).
  assert (StronglySorted (λ x y, le x y) l) as Hs by (by apply sort_by_sorted).
  destruct limit as [n|].
  - exists (drop n l). rewrite take_drop. split_and!.
    + apply sort_by_perm.
    + rewrite <- (take_drop n l) in Hs. by eapply StronglySorted_app_1_l.
    + intros x y Hx Hy. rewrite <- (take_drop n l) in Hs.
      exact (StronglySorted_app_1_elem_of (λ x y, le x y) _ _ x y Hs Hx Hy).
    + by rewrite length_take, <- (sort_by_perm le (filter keep records)).
  - exists []. rewrite app_nil_r. split_and!; [apply sort_by_perm|done| |done].
    intros x y _ []%not_elem_of_nil.
Qed.
End gmap_store.
