(* ===== verification/JobQueue.v ===== *)
(** * The job queue ([crates/abigail-queue/src/queue.rs])

    [JobQueue] is the record store of the jobs together with the sequence of
    [JobEvent]s handed to the local bus and to the broker.  Every public method
    of the source is one operation here; the identifiers drawn with
    [Uuid::new_v4] and the readings of [Utc::now] are arguments.  The error
    values are the messages of the source. *)

From S2P Require Import Prelude RustStr JobTypes RecordStore.
From Stdlib Require Import ZArith Lia.
From stdpp Require Import base list strings gmap fin_maps relations pretty.

Definition MAX_SUBAGENT_DEPTH : Z := 2.

Record JobQueue (T : Type) : Type := mkJobQueue {
  store : T;
  published : list JobEvent;
}.
Arguments mkJobQueue {T}.
Arguments store {T}.
Arguments published {T}.

(** Key-value headers of the broker message built for an event. *)
Definition event_headers (e : JobEvent) : gmap string string :=
  <["source" := "job_queue"]>
    (<["topic" := Event.topic e]>
      (<["event_type" := Event.event_type_str e]> ∅)).

(** ** Orders used by [sort_by] *)

Section orders.
Context {Value : Type}.
Implicit Types l r : JobRecord Value.

(** [right.priority.cmp(&left.priority).then_with(|| left.created_at.cmp(..))] *)
Definition priority_then_created l r : comparison :=
  match Priority.compare (job_priority r) (job_priority l) with
  | Eq => String.compare (job_created_at l) (job_created_at r)
  | c => c
  end.
Definition by_priority l r : bool :=
  match priority_then_created l r with Gt => false | _ => true end.

Definition by_created_desc l r : bool :=
  String.leb (job_created_at r) (job_created_at l).
Definition by_completed_desc l r : bool :=
  option_string_leb (job_completed_at r) (job_completed_at l).
End orders.

Section operations.
Context {Value Time T : Type} `{RecordStore T (JobRecord Value)}.
(** [DateTime::to_rfc3339], and [now + Duration::seconds(n)], which panics
    ([None]) when the result is not representable. *)
Context (to_rfc3339 : Time → string) (add_seconds : Time → Z → option Time).

Notation Job := (JobRecord Value).
Notation Q := (M (JobQueue T) string).

Definition on_store {A} (m : M T string A) : Q A := λ q,
  let '(s, o) := m (store q) in (mkJobQueue s (published q), o).

Definition publish_event (e : JobEvent) : Q unit :=
  modify (λ q, mkJobQueue (store q) (published q ++ [e])).

Definition get_job (job_id : JobId) : Q (option Job) :=
  q ← get_state; lift_result (store_select job_id (store q)).

Definition load_all_jobs : Q (list Job) :=
  q ← get_state; lift_result (store_all (store q)).

Definition require_job (job_id : JobId) : Q Job :=
  found ← get_job job_id;
  lift_result (ok_or found ("Job '" +:+ job_id +:+ "' not found")).

Definition new_record (spec : JobSpec Value) (job_id created_at expires_at : string) : Job := {|
  job_id := job_id;
  job_topic := spec_topic spec;
  job_goal := spec_goal spec;
  job_capability := spec_capability spec;
  job_priority := spec_priority spec;
  job_status := Queued;
  job_time_budget_ms := spec_time_budget_ms spec;
  job_max_turns := spec_max_turns spec;
  job_system_context := spec_system_context spec;
  job_allowed_skill_ids := spec_allowed_skill_ids spec;
  job_input_data := spec_input_data spec;
  job_parent_job_id := spec_parent_job_id spec;
  job_parent_correlation_id := spec_parent_correlation_id spec;
  job_depth := spec_depth spec;
  job_provider_profile := spec_provider_profile spec;
  job_agent_id := None;
  job_model_used := None;
  job_provider_used := None;
  job_result_ := None;
  job_error := None;
  job_turns_consumed := 0;
  job_ttl_seconds := spec_ttl_seconds spec;
  job_created_at := created_at;
  job_started_at := None;
  job_completed_at := None;
  job_expires_at := expires_at;
  job_cron_expression := spec_cron_expression spec;
  job_is_recurring := spec_is_recurring spec;
  job_significance_keywords := spec_significance_keywords spec;
  job_significance_threshold := spec_significance_threshold spec;
  job_job_mode := spec_job_mode spec;
  job_goal_template := spec_goal_template spec;
  job_last_scheduled_at := None;
  job_depends_on := spec_depends_on spec;
  job_execution_mode := spec_execution_mode spec;
  job_direct_tool_call := spec_direct_tool_call spec;
|}.

(** [spec.ttl_seconds as i64]. *)
Definition as_i64 (z : Z) : Z :=
  let z := (z `mod` u64_modulus)%Z in
  if decide (z < 2 ^ 63)%Z then z else (z - u64_modulus)%Z.

Definition submit_job (uuid : string) (now : Time) (spec : JobSpec Value) : Q JobId :=
  ensure (negb (MAX_SUBAGENT_DEPTH <? spec_depth spec)%Z)
    ("Job depth " +:+ pretty (spec_depth spec) +:+
     " exceeds the sub-agent nesting limit (" +:+ pretty MAX_SUBAGENT_DEPTH +:+ ")") ;;
  expires ← lift_result
    (ok_or (add_seconds now (as_i64 (spec_ttl_seconds spec))) "panic: time out of range");
  let record := new_record spec uuid (to_rfc3339 now) (to_rfc3339 expires) in
  on_store (store_create uuid record) ;;
  publish_event (JobQueued uuid (job_topic record) (job_capability record)
                   (job_priority record)) ;;
  mret uuid.

Definition not_in_state (job_id state : string) : string :=
  "Job '" +:+ job_id +:+ "' not found or not in " +:+ state +:+ " state".

(** The claim of a job: the read and the check, then the write. *)
Definition mark_running_check (job_id : JobId) : Q Job :=
  record ← require_job job_id;
  ensure (bool_decide (job_status record = Queued)) (not_in_state job_id "queued") ;;
  mret record.

Definition mark_running_write (record : Job) (agent_id model_used provider_used now : string)
  : Q unit :=
  let record :=
    set_started_at (Some now)
      (set_provider_used (Some provider_used)
        (set_model_used (Some model_used)
          (set_agent_id (Some agent_id)
            (set_status Running record)))) in
  on_store (store_upsert (job_id record) record) ;;
  publish_event (JobStarted (job_id record) (job_topic record) agent_id model_used).

Definition mark_running (job_id agent_id model_used provider_used now : string) : Q unit :=
  record ← mark_running_check job_id;
  mark_running_write record agent_id model_used provider_used now.

Definition mark_completed (job_id result : string) (turns_consumed : Z) (now : string)
  : Q unit :=
  record ← require_job job_id;
  ensure (bool_decide (job_status record = Running)) (not_in_state job_id "running") ;;
  let record :=
    set_completed_at (Some now)
      (set_turns_consumed turns_consumed
        (set_result_ (Some result)
          (set_status Completed record))) in
  on_store (store_upsert (JobTypes.job_id record) record) ;;
  publish_event (JobCompleted (JobTypes.job_id record) (job_topic record) result turns_consumed).

Definition mark_failed (job_id error : string) (turns_consumed : Z) (now : string) : Q unit :=
  record ← require_job job_id;
  ensure (bool_decide (job_status record = Running)) (not_in_state job_id "running") ;;
  let record :=
    set_completed_at (Some now)
      (set_turns_consumed turns_consumed
        (set_error (Some error)
          (set_status Failed record))) in
  on_store (store_upsert (JobTypes.job_id record) record) ;;
  publish_event (JobFailed (JobTypes.job_id record) (job_topic record) error turns_consumed).

Definition cancel_job (job_id now : string) : Q unit :=
  record ← require_job job_id;
  ensure (negb (Status.is_terminal (job_status record)))
    ("Job '" +:+ job_id +:+ "' not found or already in terminal state") ;;
  let record := set_completed_at (Some now) (set_status Cancelled record) in
  on_store (store_upsert (JobTypes.job_id record) record) ;;
  publish_event (JobCancelled (JobTypes.job_id record) (job_topic record)).

(** [job.status == Queued && job.expires_at < now] *)
Definition is_stale (now : string) (job : Job) : bool :=
  bool_decide (job_status job = Queued) && String.ltb (job_expires_at job) now.

Definition expire_stale_jobs (now : string) : Q nat :=
  jobs ← load_all_jobs;
  let expired := filter (is_stale now) jobs in
  for_each expired (λ job,
    on_store (store_upsert (JobTypes.job_id job) (set_status Expired job))) ;;
  for_each expired (λ job, publish_event (JobExpired (JobTypes.job_id job) (job_topic job))) ;;
  mret (length expired).

Definition list_jobs (status : option string) (limit : nat) : Q (list Job) :=
  jobs ← load_all_jobs;
  let jobs :=
    match status with
    | Some status => filter (λ job, Status.as_str (job_status job) = status) jobs
    | None => jobs
    end in
  mret (take limit (sort_by by_priority jobs)).

Definition list_topic_jobs (topic : string) (limit : nat) : Q (list Job) :=
  jobs ← load_all_jobs;
  mret (take limit (sort_by by_created_desc (filter (λ job, job_topic job = topic) jobs))).

Definition topic_results (topic : string) (limit : nat) : Q (list Job) :=
  jobs ← load_all_jobs;
  mret (take limit (sort_by by_completed_desc
    (filter (λ job, job_topic job = topic ∧ job_status job = Completed) jobs))).

(** The ids of the completed jobs ([completed_ids]). *)
Definition completed_ids (jobs : list Job) : list JobId :=
  map JobTypes.job_id (filter (λ job, job_status job = Completed) jobs).

(** The closure that selects the candidates. *)
Definition is_candidate (completed : list JobId) (job : Job) : bool :=
  bool_decide (job_status job = Queued)
  && negb (job_is_recurring job)
  && match job_parent_job_id job with
     | Some parent => bool_decide (parent ∈ completed)
     | None => true
     end
  && forallb (λ dep, bool_decide (dep ∈ completed)) (job_depends_on job).

Definition next_of (jobs : list Job) : option Job :=
  head (sort_by by_priority (filter (is_candidate (completed_ids jobs)) jobs)).

Definition next_queued_job : Q (option Job) :=
  jobs ← load_all_jobs; mret (next_of jobs).

(** [*stats.entry(status).or_insert(0) += 1] over all jobs. *)
Definition count_status (stats : gmap string Z) (job : Job) : gmap string Z :=
  let key := Status.as_str (job_status job) in
  <[key := (unwrap_or (stats !! key) 0 + 1)%Z]> stats.

Definition queue_stats : Q (gmap string Z) :=
  jobs ← load_all_jobs; mret (foldl count_status ∅ jobs).

Definition topic_all_terminal (topic : string) : Q bool :=
  jobs ← load_all_jobs;
  mret (forallb (λ job, Status.is_terminal (job_status job))
          (filter (λ job, job_topic job = topic) jobs)).

Definition is_running (job : Job) : bool := bool_decide (job_status job = Running).

(** [now i] is the reading of the clock when the record of [i] is written. *)
Definition recover_running_jobs (reason : string) (now : JobId → string) : Q nat :=
  jobs ← load_all_jobs;
  let running := filter is_running jobs in
  for_each running (λ job,
    on_store (store_upsert (JobTypes.job_id job)
      (set_completed_at (Some (now (JobTypes.job_id job)))
        (set_error (Some reason) (set_status Failed job))))) ;;
  mret (length running).

Definition is_recurring_template (job : Job) : bool :=
  job_is_recurring job
  && match job_cron_expression job with
     | Some cron => negb (str_is_empty cron)
     | None => false
     end
  && bool_decide (job_status job = Queued).

Definition get_recurring_templates : Q (list Job) :=
  jobs ← load_all_jobs; mret (filter is_recurring_template jobs).

Definition instance_spec (template : Job) (goal_override : option string) : JobSpec Value := {|
  spec_goal := unwrap_or goal_override (job_goal template);
  spec_topic := job_topic template;
  spec_capability := job_capability template;
  spec_priority := job_priority template;
  spec_time_budget_ms := job_time_budget_ms template;
  spec_max_turns := job_max_turns template;
  spec_system_context := job_system_context template;
  spec_allowed_skill_ids := job_allowed_skill_ids template;
  spec_ttl_seconds := job_ttl_seconds template;
  spec_input_data := job_input_data template;
  spec_parent_job_id := Some (JobTypes.job_id template);
  spec_parent_correlation_id := job_parent_correlation_id template;
  spec_depth := job_depth template;
  spec_provider_profile := job_provider_profile template;
  spec_cron_expression := None;
  spec_is_recurring := false;
  spec_significance_keywords := job_significance_keywords template;
  spec_significance_threshold := job_significance_threshold template;
  spec_job_mode := job_job_mode template;
  spec_goal_template := None;
  spec_depends_on := [];
  spec_execution_mode := job_execution_mode template;
  spec_direct_tool_call := job_direct_tool_call template;
|}.

(** The second half of [spawn_recurring_instance]: the caller's copy of the template is
    written back, with the time. *)
Definition reschedule (scheduled_at : string) (template : Job) : Q unit :=
  let updated_template := set_last_scheduled_at (Some scheduled_at) template in
  on_store (store_upsert (JobTypes.job_id updated_template) updated_template).

Definition spawn_recurring_instance (uuid : string) (now : Time) (scheduled_at : string)
    (template : Job) (goal_override : option string) : Q JobId :=
  job_id ← submit_job uuid now (instance_spec template goal_override);
  reschedule scheduled_at template ;;
  mret job_id.
End operations.
