(* ===== verification/JobQueueFacts.v ===== *)
(** * The job queue: effects of the operations and the lifecycle of a job

    The queue is seen through its table of jobs ([jobs]).  Each operation is
    first described by one lemma on that table; the lifecycle relation
    ([evolves]) and the step relation are built on these. *)

From S2P Require Import Prelude RustStr JobTypes RecordStore JobQueue.
From Stdlib Require Import ZArith Lia.
From stdpp Require Import base list strings gmap fin_maps relations.

(** ** Lifecycle *)

(** The edges of the status graph. *)
Inductive lifecycle : JobStatus → JobStatus → Prop :=
| claim : lifecycle Queued Running
| finish : lifecycle Running Completed
| fail_running : lifecycle Running Failed
| cancel_queued : lifecycle Queued Cancelled
| cancel_running : lifecycle Running Cancelled
| expire : lifecycle Queued Expired.

(** A copy of a recurring template, read earlier, may be written back: that puts the
    template into the queue again, whatever became of it. *)
Definition edge (recurring : bool) (s t : JobStatus) : Prop :=
  lifecycle s t ∨ recurring = true ∧ t = Queued.

(** How far a status is along the lifecycle. *)
Definition rank (s : JobStatus) : nat :=
  match s with Queued => 0 | Running => 1 | _ => 2 end.

Lemma lifecycle_rank s t : rtc lifecycle s t → s = t ∨ rank s < rank t.
Proof.
  induction 1 as [|s t u Hst _ IH]; [by left|]. right.
  assert (rank s < rank t) as Hlt by (destruct Hst; simpl; lia).
  destruct IH as [<-|]; lia.
Qed.

Lemma lifecycle_terminal s t : Status.is_terminal s = true → rtc lifecycle s t → t = s.
Proof. intros Hs. destruct 1 as [|? ? ? Hst]; [done|]. by inversion Hst; subst. Qed.

Lemma edges_one_shot s t : rtc (edge false) s t → rtc lifecycle s t.
Proof. apply rtc_subrel. by intros x y [?|[? _]]. Qed.

Section evolution.
Context {Value : Type}.
Notation Job := (JobRecord Value).

(** The fields no operation changes. *)
Definition same_identity (r r' : Job) : Prop :=
  job_id r' = job_id r ∧ job_topic r' = job_topic r ∧ job_goal r' = job_goal r ∧
  job_capability r' = job_capability r ∧ job_priority r' = job_priority r ∧
  job_depth r' = job_depth r ∧ job_parent_job_id r' = job_parent_job_id r ∧
  job_depends_on r' = job_depends_on r ∧ job_is_recurring r' = job_is_recurring r ∧
  job_created_at r' = job_created_at r ∧ job_expires_at r' = job_expires_at r.

#[export] Instance same_identity_po : PreOrder same_identity.
Proof.
  split; [by intros r; repeat split|].
  unfold same_identity. intros x y z; intuition congruence.
Qed.

(** Unless it is a recurring template, a job whose status has not changed has not
    changed at all. *)
Definition job_evolves (r r' : Job) : Prop :=
  same_identity r r' ∧ rtc (edge (job_is_recurring r)) (job_status r) (job_status r') ∧
  (job_is_recurring r = false → job_status r' = job_status r → r' = r).

(** The same for one call: at most one edge. *)
Definition job_moves (r r' : Job) : Prop :=
  same_identity r r' ∧
  (job_status r' = job_status r ∨ edge (job_is_recurring r) (job_status r) (job_status r')) ∧
  (job_is_recurring r = false → job_status r' = job_status r → r' = r).

Lemma same_recurring r r' : same_identity r r' → job_is_recurring r' = job_is_recurring r.
Proof. intros Hi. apply Hi. Qed.

Lemma job_evolves_trans r1 r2 r3 : job_evolves r1 r2 → job_evolves r2 r3 → job_evolves r1 r3.
Proof.
  intros (Hi & Hl & Hs) (Hi' & Hl' & Hs'). rewrite (same_recurring _ _ Hi) in Hl', Hs'.
  split; [by etrans|]. split; [by etrans|]. intros Hr Heq. rewrite Hr in *.
  pose proof (lifecycle_rank _ _ (edges_one_shot _ _ Hl)) as H1.
  pose proof (lifecycle_rank _ _ (edges_one_shot _ _ Hl')) as H2. rewrite Heq in H2.
  assert (job_status r2 = job_status r1) as Hmid by (destruct H1 as [|]; [done|destruct H2 as [|]; [done|lia]]).
  rewrite <- (Hs eq_refl Hmid) in *. by apply Hs'.
Qed.

#[export] Instance job_evolves_po : PreOrder job_evolves.
Proof. split; [by intros r; split; [|split]|exact job_evolves_trans]. Qed.

#[export] Instance job_moves_refl : Reflexive job_moves.
Proof. intros r. by split; [|split; [left|]]. Qed.

Lemma job_moves_evolves r r' : job_moves r r' → job_evolves r r'.
Proof.
  intros (Hi & Hl & Hs). split; [done|]. split; [|done].
  destruct Hl as [->|Hl]; [done|by apply rtc_once].
Qed.

(** A job that is not a recurring template follows the lifecycle, and ends. *)
Lemma evolves_one_shot r r' :
  job_evolves r r' → job_is_recurring r = false →
  rtc lifecycle (job_status r) (job_status r') ∧ (Status.is_terminal (job_status r) = true → r' = r).
Proof.
  intros (_ & Hl & Hs) Hr. rewrite Hr in Hl. apply edges_one_shot in Hl. split; [done|].
  intros Ht. by apply Hs, lifecycle_terminal.
Qed.

(** No record is lost, and each is related to what it becomes. *)
Definition pointwise (R : Job → Job → Prop) (m m' : gmap string Job) : Prop :=
  ∀ i r, m !! i = Some r → ∃ r', m' !! i = Some r' ∧ R r r'.

#[export] Instance pointwise_refl R : Reflexive R → Reflexive (pointwise R).
Proof. intros HR m i r Hr. by exists r. Qed.

#[export] Instance pointwise_trans R : Transitive R → Transitive (pointwise R).
Proof.
  intros HR m1 m2 m3 H12 H23 i r Hr. destruct (H12 i r Hr) as (r2 & H2 & ?).
  destruct (H23 i r2 H2) as (r3 & H3 & ?). exists r3. split; [done|by etrans].
Qed.

Lemma pointwise_insert R `{!Reflexive R} m i r r' :
  m !! i = Some r → R r r' → pointwise R m (<[i:=r']> m).
Proof.
  intros Hr He j s Hs. destruct (decide (i = j)) as [->|].
  - exists r'. rewrite lookup_insert_eq. naive_solver.
  - exists s. by rewrite lookup_insert_ne.
Qed.

Lemma pointwise_insert_fresh R `{!Reflexive R} m i r :
  m !! i = None → pointwise R m (<[i:=r]> m).
Proof.
  intros Hi j s Hs. exists s. rewrite lookup_insert_ne; [done|congruence].
Qed.

(** Records are stored under their own id. *)
Definition keyed (m : gmap string Job) : Prop := ∀ i r, m !! i = Some r → job_id r = i.

Lemma keyed_insert m r : keyed m → keyed (<[job_id r:=r]> m).
Proof. intros Hm j s. rewrite lookup_insert_Some. intros [[<- <-]|[? ?]]; auto. Qed.
End evolution.

Notation evolves := (pointwise job_evolves).
Notation moves := (pointwise job_moves).

#[export] Hint Resolve keyed_insert pointwise_insert_fresh : abigail.

Section facts.
Context {Value Time T : Type} `{RecordStoreLaws T (JobRecord Value)}.
Context (to_rfc3339 : Time → string) (add_seconds : Time → Z → option Time).

Notation Job := (JobRecord Value).
Notation submit_job := (submit_job to_rfc3339 add_seconds).
Notation spawn_recurring_instance := (spawn_recurring_instance to_rfc3339 add_seconds).
Implicit Types q : JobQueue T.

Definition jobs q : gmap string Job := contents (store q).

(** ** Effects *)

Lemma on_store_upsert_inv i (r : Job) q q' o :
  on_store (store_upsert i r) q = (q', o) →
  published q' = published q ∧
  match o with Ok _ => jobs q' = <[i:=r]> (jobs q) | Err _ => q' = q end.
Proof.
  unfold on_store. destruct (store_upsert i r (store q)) as [s o'] eqn:Hu.
  intros ?; simplify_eq. split; [done|].
  pose proof (store_upsert_spec _ _ _ _ _ Hu) as Hs.
  destruct o; [done|]. rewrite Hs. by destruct q.
Qed.

Lemma on_store_create_inv i (r : Job) q q' o :
  on_store (store_create i r) q = (q', o) →
  published q' = published q ∧
  match o with
  | Ok _ => jobs q !! i = None ∧ jobs q' = <[i:=r]> (jobs q)
  | Err _ => q' = q
  end.
Proof.
  unfold on_store. destruct (store_create i r (store q)) as [s o'] eqn:Hu.
  intros ?; simplify_eq. split; [done|].
  pose proof (store_create_spec _ _ _ _ _ Hu) as Hs.
  destruct o; [done|]. rewrite Hs. by destruct q.
Qed.

Lemma require_job_inv i q q' o :
  require_job i q = (q', o) →
  q' = q ∧ match o with Ok r => jobs q !! i = Some r | Err _ => True end.
Proof.
  unfold require_job, get_job, mbind, M_bind, get_state, lift_result. simpl.
  destruct (store_select i (store q)) as [[r|]|e] eqn:Hs; intros; simplify_eq/=; auto.
  split; [done|]. symmetry. by apply store_select_spec in Hs.
Qed.

Lemma load_all_inv q q' o :
  load_all_jobs q = (q', o) →
  q' = q ∧ match o with Ok l => store_all (store q) = Ok l | Err _ => True end.
Proof.
  unfold load_all_jobs, mbind, M_bind, get_state, lift_result.
  destruct (store_all (store q)); intros; by simplify_eq.
Qed.

Lemma elem_of_all_jobs q l r :
  store_all (store q) = Ok l → keyed (jobs q) →
  r ∈ l ↔ jobs q !! job_id r = Some r.
Proof.
  intros Hl Hk. rewrite (elem_of_store_all _ _ _ Hl). split; [|eauto].
  intros [i Hi]. pose proof (Hk i r Hi) as <-. done.
Qed.

Lemma all_jobs_nodup q l :
  store_all (store q) = Ok l → keyed (jobs q) → NoDup (map job_id l).
Proof.
  intros Hl Hk. change (NoDup (job_id <$> l)).
  rewrite (store_all_spec _ _ Hl), <- list_fmap_compose.
  erewrite list_fmap_ext; [apply (NoDup_fst_map_to_list (jobs q))|].
  intros i [j r] Hr. simpl. apply (Hk j).
  apply elem_of_map_to_list. by eapply list_elem_of_lookup_2.
Qed.

Lemma ensure_inv {A} b (e : string) q q' (o : result A string) k :
  (ensure b e ;; k) q = (q', o) →
  (b = true ∧ k q = (q', o)) ∨ (b = false ∧ q' = q ∧ o = Err e).
Proof.
  unfold ensure. destruct b; [left|right]; [split; [done|]|].
  - by unfold mbind, M_bind, mret, M_ret in *.
  - unfold mbind, M_bind, fail in *. by simplify_eq.
Qed.

(** A guarded read, a write of the updated record and an event: the shape
    shared by [mark_*] and [cancel_job]. *)
Definition transition {A} (i : string) (guard : Job → bool)
    (upd : Job → Job) (ev : Job → JobEvent) (q q' : JobQueue T) (o : result A string) : Prop :=
  match o with
  | Ok _ => ∃ r, jobs q !! i = Some r ∧ guard r = true ∧
      jobs q' = <[job_id (upd r) := upd r]> (jobs q) ∧
      published q' = published q ++ [ev r]
  | Err _ => q' = q
  end.

Lemma write_publish_inv (r : Job) (ev : JobEvent) q q' o :
  (on_store (store_upsert (job_id r) r) ;; publish_event ev) q = (q', o) →
  match o with
  | Ok _ => jobs q' = <[job_id r := r]> (jobs q) ∧ published q' = published q ++ [ev]
  | Err _ => q' = q
  end.
Proof.
  intros Hm. step_inv Hm.
  - apply on_store_upsert_inv in Hm0 as [Hp Hj].
    unfold publish_event, modify in Hk. simplify_eq. simpl. by rewrite Hp, <- Hj.
  - subst. by apply on_store_upsert_inv in Hm0 as [_ ?].
Qed.

Lemma transition_intro i guard err upd ev q q' (o : result unit string) :
  (r ← require_job i;
   ensure (guard r) err ;;
   on_store (store_upsert (job_id (upd r)) (upd r)) ;; publish_event (ev r)) q = (q', o) →
  transition i guard upd ev q q' o.
Proof.
  intros Hm. step_inv Hm.
  - apply require_job_inv in Hm0 as [-> Hr].
    apply ensure_inv in Hk as [[Hg Hk]|(Hg & -> & ->)]; [|done].
    apply write_publish_inv in Hk. destruct o; simpl; naive_solver.
  - apply require_job_inv in Hm0 as [-> _]. by subst o.
Qed.

Lemma mark_running_check_inv i q q' o :
  mark_running_check i q = (q', o) →
  q' = q ∧ match o with
           | Ok r => jobs q !! i = Some r ∧ job_status r = Queued
           | Err _ => True
           end.
Proof.
  unfold mark_running_check. intros Hm. step_inv Hm.
  - apply require_job_inv in Hm0 as [-> Hr].
    apply ensure_inv in Hk as [[Hg Hk]|(_ & -> & ->)]; [|done].
    apply bool_decide_eq_true in Hg. unfold mret, M_ret in Hk. by simplify_eq.
  - apply require_job_inv in Hm0 as [-> _]. by subst.
Qed.

Lemma mark_running_effect i agent model provider now q q' o :
  mark_running i agent model provider now q = (q', o) →
  transition i (λ r, bool_decide (job_status r = Queued))
    (λ r, set_started_at (Some now) (set_provider_used (Some provider)
      (set_model_used (Some model) (set_agent_id (Some agent) (set_status Running r)))))
    (λ r, JobStarted (job_id r) (job_topic r) agent model) q q' o.
Proof.
  intros Hm. unfold mark_running in Hm. step_inv Hm.
  - apply mark_running_check_inv in Hm0 as [-> (Hr & Hq)].
    apply write_publish_inv in Hk. destruct o; [|done].
    exists a. by rewrite bool_decide_eq_true.
  - subst o. by apply mark_running_check_inv in Hm0 as [-> _].
Qed.

Lemma mark_completed_effect i res turns now q q' o :
  mark_completed i res turns now q = (q', o) →
  transition i (λ r, bool_decide (job_status r = Running))
    (λ r, set_completed_at (Some now) (set_turns_consumed turns
      (set_result_ (Some res) (set_status Completed r))))
    (λ r, JobCompleted (job_id r) (job_topic r) res turns) q q' o.
Proof. apply transition_intro. Qed.

Lemma mark_failed_effect i err turns now q q' o :
  mark_failed i err turns now q = (q', o) →
  transition i (λ r, bool_decide (job_status r = Running))
    (λ r, set_completed_at (Some now) (set_turns_consumed turns
      (set_error (Some err) (set_status Failed r))))
    (λ r, JobFailed (job_id r) (job_topic r) err turns) q q' o.
Proof. apply transition_intro. Qed.

Lemma cancel_job_effect i now q q' o :
  cancel_job i now q = (q', o) →
  transition i (λ r, negb (Status.is_terminal (job_status r)))
    (λ r, set_completed_at (Some now) (set_status Cancelled r))
    (λ r, JobCancelled (job_id r) (job_topic r)) q q' o.
Proof. apply transition_intro. Qed.

Lemma submit_job_effect u now spec q q' o :
  submit_job u now spec q = (q', o) →
  match o with
  | Ok i => i = u ∧ (spec_depth spec ≤ MAX_SUBAGENT_DEPTH)%Z ∧ jobs q !! u = None ∧
      ∃ expires, let r := new_record spec u (to_rfc3339 now) expires in
        jobs q' = <[u := r]> (jobs q) ∧
        published q' = published q ++
          [JobQueued u (job_topic r) (job_capability r) (job_priority r)]
  | Err _ => q' = q
  end.
Proof.
  unfold JobQueue.submit_job. intros Hm.
  apply ensure_inv in Hm as [[Hd Hm]|(_ & -> & ->)]; [|done].
  apply negb_true_iff, Z.ltb_ge in Hd.
  step_inv Hm; [|unfold lift_result in *; by simplify_eq].
  unfold lift_result in Hm0. simplify_eq.
  step_inv Hk; [|apply on_store_create_inv in Hm as [_ ?]; by subst].
  apply on_store_create_inv in Hm as [Hp [Hi Hj]].
  unfold publish_event, modify, mbind, M_bind, mret, M_ret in Hk0. simplify_eq.
  split; [done|]. split; [done|]. split; [done|].
  eexists. simpl. rewrite Hp. by rewrite <- Hj.
Qed.

(** A loop that upserts an update of each record of a snapshot. *)
Lemma upsert_each_effect (upd : Job → Job) l q q' o :
  (∀ r, job_id (upd r) = job_id r) →
  NoDup (map job_id l) → (∀ r, r ∈ l → jobs q !! job_id r = Some r) →
  for_each l (λ r, on_store (store_upsert (job_id r) (upd r))) q = (q', o) →
  published q' = published q ∧
  ∃ written, written `prefix_of` l ∧ (o = Ok tt → written = l) ∧
    ∀ i, jobs q' !! i =
      if decide (i ∈ map job_id written) then upd <$> jobs q !! i else jobs q !! i.
Proof.
  intros Hid. revert q. induction l as [|r l IH]; intros q Hnd Hin Hm; simpl in Hm.
  { unfold mret, M_ret in Hm. simplify_eq. split; [done|]. exists [].
    split; [done|]. split; [done|]. intros i. by rewrite decide_False by set_solver. }
  change (NoDup (job_id r :: map job_id l)) in Hnd.
  apply NoDup_cons in Hnd as [Hr Hnd]. step_inv Hm.
  - apply on_store_upsert_inv in Hm0 as [Hp Hj].
    destruct (IH s) as (Hp' & w & Hw & Ho & Hlook); [done| |done|].
    { intros r' Hr'. rewrite Hj, lookup_insert_ne; [apply Hin; by right|].
      intros Heq. apply Hr. rewrite Heq. apply list_elem_of_map. eauto. }
    split; [congruence|]. exists (r :: w). split; [by apply prefix_cons|].
    split; [by intros ->%Ho|]. intros i. rewrite Hlook, Hj. simpl.
    destruct (decide (job_id r = i)) as [<-|Hne].
    + rewrite (decide_True (P := _ ∈ job_id r :: _)) by set_solver.
      rewrite decide_False, lookup_insert_eq.
      * by rewrite (Hin r) by set_solver.
      * intros Hin'. apply Hr. destruct Hw as [k ->].
        change (job_id r ∈ map job_id (w ++ k)). rewrite map_app. set_solver.
    + rewrite lookup_insert_ne by done.
      destruct (decide (i ∈ map job_id w)).
      * by rewrite decide_True by set_solver.
      * by rewrite decide_False by set_solver.
  - subst o. apply on_store_upsert_inv in Hm0 as [_ ->]. split; [done|].
    exists []. split; [apply prefix_nil|]. split; [done|].
    intros i. by rewrite decide_False by set_solver.
Qed.

Lemma publish_each (ev : Job → JobEvent) l q :
  for_each l (λ r, publish_event (ev r)) q =
    (mkJobQueue (store q) (published q ++ map ev l), Ok tt).
Proof.
  revert q. induction l as [|r l IH]; intros [s p]; simpl.
  - by rewrite app_nil_r.
  - erewrite M_bind_ok by done. rewrite IH. simpl. by rewrite <- app_assoc.
Qed.

(** The sweep of [expire_stale_jobs] and of [recover_running_jobs]: the jobs
    selected by [sel] are updated. *)
Lemma sweep_effect (sel : Job → bool) (upd : Job → Job) l q q' o :
  (∀ r, job_id (upd r) = job_id r) → keyed (jobs q) → store_all (store q) = Ok l →
  for_each (filter sel l) (λ r, on_store (store_upsert (job_id r) (upd r))) q = (q', o) →
  published q' = published q ∧
  ∃ written, written `prefix_of` filter sel l ∧
    (o = Ok tt → written = filter sel l) ∧
    ∀ i, jobs q' !! i =
      if decide (i ∈ map job_id written) then upd <$> jobs q !! i else jobs q !! i.
Proof.
  intros Hid Hk Hl Hm. eapply upsert_each_effect; [done| | |done].
  - apply NoDup_map_filter. by apply (all_jobs_nodup q).
  - intros r [_ Hr]%list_elem_of_filter. by apply (elem_of_all_jobs q l r Hl Hk).
Qed.

Lemma sweep_all (sel : Job → bool) (upd : Job → Job) l q (m' : gmap string Job) :
  keyed (jobs q) → store_all (store q) = Ok l →
  (∀ i, m' !! i = if decide (i ∈ map job_id (filter sel l))
                  then upd <$> jobs q !! i else jobs q !! i) →
  ∀ i, m' !! i = (λ r, if sel r then upd r else r) <$> jobs q !! i.
Proof.
  intros Hk Hl Hm i. rewrite Hm. destruct (jobs q !! i) as [r|] eqn:Hr; simpl.
  2: by case_decide.
  pose proof (Hk i r Hr) as <-. case_decide as Hin.
  - apply list_elem_of_map in Hin as (r' & Hid & [Hs Hr']%list_elem_of_filter).
    apply (elem_of_all_jobs q l r' Hl Hk) in Hr'. rewrite <- Hid, Hr in Hr'.
    simplify_eq. apply Is_true_true in Hs. by rewrite Hs.
  - destruct (sel r) eqn:Hs; [|done]. destruct Hin.
    apply list_elem_of_map. exists r. split; [done|].
    apply list_elem_of_filter. rewrite Hs. split; [done|].
    by apply (elem_of_all_jobs q l r Hl Hk).
Qed.
End facts.
