(* ===== verification/JobQueueSpec.v ===== *)
(** * The job queue: correctness

    Every method that writes is a step of one relation ([step]); reachable
    tables keep each record under its own id and within the nesting limit, and
    a job only moves along the lifecycle. *)

From S2P Require Import Prelude RustStr JobTypes RecordStore JobQueue JobQueueFacts.
From Stdlib Require Import ZArith Lia.
From stdpp Require Import base list strings gmap fin_maps relations.

(** ** Steps *)

Section steps.
Context {Value Time T : Type} `{RecordStoreLaws T (JobRecord Value)}.
Context (to_rfc3339 : Time → string) (add_seconds : Time → Z → option Time).

Notation Job := (JobRecord Value).
Notation submit_job := (submit_job to_rfc3339 add_seconds).
Notation spawn_recurring_instance := (spawn_recurring_instance to_rfc3339 add_seconds).
Implicit Types q : JobQueue T.

(** A call of a method that writes, with any arguments and any outcome; each is one
    step up to its first [await], which comes after its writes.  Only
    [spawn_recurring_instance] writes twice, with an [await] between: it is the
    submission of the instance and [s_reschedule].  Its template is a copy that was read
    at some time before, of a record that is still stored and may have changed. *)
Inductive step q q' : Prop :=
| s_submit u now spec o : submit_job u now spec q = (q', o) → step q q'
| s_run i agent model provider now o :
    mark_running i agent model provider now q = (q', o) → step q q'
| s_complete i res turns now o : mark_completed i res turns now q = (q', o) → step q q'
| s_fail i err turns now o : mark_failed i err turns now q = (q', o) → step q q'
| s_cancel i now o : cancel_job i now q = (q', o) → step q q'
| s_expire now o : expire_stale_jobs now q = (q', o) → step q q'
| s_recover reason now o : recover_running_jobs reason now q = (q', o) → step q q'
| s_reschedule at_ t r o :
    jobs q !! job_id t = Some r → same_identity r t → is_recurring_template t = true →
    reschedule at_ t q = (q', o) → step q q'.

(** A call that claims no job. *)
Definition other_call q q' : Prop :=
  step q q' ∧ ∀ i r r', jobs q !! i = Some r → jobs q' !! i = Some r' →
    job_status r = Queued → job_status r' ≠ Running.

(** The steps of a daemon, with the jobs that [next_queued_job] has returned so far: a
    job is claimed only by a task that was started for it, at any time after. *)
Inductive daemon_step : list Job * JobQueue T → list Job * JobQueue T → Prop :=
| d_pick p q l j :
    store_all (store q) = Ok l → next_of l = Some j → daemon_step (p, q) (p ++ [j], q)
| d_run p j agent model provider now q q' o :
    j ∈ p → mark_running (job_id j) agent model provider now q = (q', o) →
    daemon_step (p, q) (p, q')
| d_other p q q' : other_call q q' → daemon_step (p, q) (p, q').

Definition within_depth (m : gmap string Job) : Prop :=
  ∀ i r, m !! i = Some r → (job_depth r ≤ MAX_SUBAGENT_DEPTH)%Z.

(** ** One step *)

Lemma transition_moves {A} i guard upd ev q q' (o : result A string) :
  keyed (jobs q) → transition i guard upd ev q q' o →
  (∀ r, guard r = true → job_moves r (upd r)) →
  moves (jobs q) (jobs q') ∧ keyed (jobs q').
Proof.
  intros Hk Ht Hev. destruct o as [x|e]; simpl in Ht; [|by subst].
  destruct Ht as (r & Hr & Hg & -> & _). pose proof (Hev r Hg) as He.
  split; [|by apply keyed_insert].
  destruct He as [[Hid ?] ?]. rewrite Hid, (Hk i r Hr).
  eapply pointwise_insert; [apply _|done|]. by apply Hev.
Qed.

Lemma submit_moves u now spec q q' o :
  keyed (jobs q) → submit_job u now spec q = (q', o) →
  moves (jobs q) (jobs q') ∧ keyed (jobs q').
Proof.
  intros Hk Hs%submit_job_effect. destruct o; [|by subst].
  destruct Hs as (-> & _ & Hu & e & -> & _). split; [apply pointwise_insert_fresh; [apply _|done]|].
  by apply (keyed_insert (jobs q) (new_record spec u (to_rfc3339 now) e)).
Qed.

Lemma recurring_template_is (t : Job) :
  is_recurring_template t = true → job_is_recurring t = true ∧ job_status t = Queued.
Proof. unfold is_recurring_template. by intros [[? _]%andb_prop ?%bool_decide_eq_true_1]%andb_prop. Qed.

Lemma reschedule_inv at_ t q q' o :
  reschedule at_ t q = (q', o) →
  jobs q' = jobs q ∨ jobs q' = <[job_id t := set_last_scheduled_at (Some at_) t]> (jobs q) ∧ o = Ok tt.
Proof. intros [_ Hj]%on_store_upsert_inv. destruct o as [[]|e]; [by right|left; by subst]. Qed.

Lemma reschedule_moves at_ t r q q' o :
  keyed (jobs q) → jobs q !! job_id t = Some r → same_identity r t →
  is_recurring_template t = true → reschedule at_ t q = (q', o) →
  moves (jobs q) (jobs q') ∧ keyed (jobs q').
Proof.
  intros Hk Hr Hi [Hrec Hq]%recurring_template_is [->|[-> _]]%reschedule_inv; [done|].
  assert (job_is_recurring r = true) as Hrr by (rewrite <- Hrec; symmetry; apply Hi).
  split; [|by apply (keyed_insert (jobs q) (set_last_scheduled_at (Some at_) t))].
  eapply pointwise_insert; [apply _|done|]. split; [exact Hi|]. split; [|congruence].
  right. right. by rewrite Hrr.
Qed.

Lemma spawn_inv u now at_ t goal q q' o :
  spawn_recurring_instance u now at_ t goal q = (q', o) →
  ∃ q1 o1, submit_job u now (instance_spec t goal) q = (q1, o1) ∧
    match o1 with
    | Ok i => i = u ∧ ∃ o2, reschedule at_ t q1 = (q', o2) ∧ (∀ j, o = Ok j → j = u ∧ o2 = Ok tt)
    | Err e => q' = q1 ∧ o = Err e
    end.
Proof.
  unfold JobQueue.spawn_recurring_instance. intros Hs. step_inv Hs.
  - exists s, (Ok a). split; [done|]. pose proof (submit_job_effect _ _ _ _ _ _ _ _ Hm) as Hu.
    simpl in Hu. destruct Hu as (-> & _). split; [done|]. step_inv Hk.
    + unfold mret, M_ret in Hk0. simplify_eq. destruct a. exists (Ok tt). split; [done|]. naive_solver.
    + exists (Err e). split; [done|]. by subst.
  - exists q', (Err e). by subst.
Qed.

(** [spawn_recurring_instance] is two steps. *)
Lemma spawn_steps u now at_ t r goal q q' o :
  jobs q !! job_id t = Some r → same_identity r t → is_recurring_template t = true →
  spawn_recurring_instance u now at_ t goal q = (q', o) → rtc step q q'.
Proof.
  intros Hr Hi Hrec (q1 & o1 & Hs & Ho)%spawn_inv.
  pose proof (s_submit _ _ _ _ _ _ Hs) as H1. destruct o1 as [i|e].
  - destruct Ho as (-> & o2 & Hre & _). eapply rtc_l; [exact H1|]. apply rtc_once.
    eapply (s_reschedule _ _ at_ t r); [|done..].
    apply submit_job_effect in Hs as (_ & _ & Hu & e & -> & _). rewrite lookup_insert_ne; [done|congruence].
  - destruct Ho as [-> _]. by apply rtc_once.
Qed.

Lemma sweep_moves (sel : Job → bool) (upd : Job → Job) l q q' o :
  keyed (jobs q) → store_all (store q) = Ok l →
  (∀ r, sel r = true → job_moves r (upd r)) → (∀ r, job_id (upd r) = job_id r) →
  for_each (filter sel l) (λ r, on_store (store_upsert (job_id r) (upd r))) q = (q', o) →
  moves (jobs q) (jobs q') ∧ keyed (jobs q').
Proof.
  intros Hk Hl Hev Hid Hm.
  destruct (sweep_effect sel upd l q q' o Hid Hk Hl Hm) as (_ & w & Hw & _ & Hlook).
  assert (∀ i r, jobs q !! i = Some r → i ∈ map job_id w → sel r = true) as Hsel.
  { intros i r Hr (r' & -> & Hin)%list_elem_of_map.
    eapply elem_of_prefix in Hin; [|done].
    apply list_elem_of_filter in Hin as [Hs Hin].
    apply (elem_of_all_jobs q l r' Hl Hk) in Hin. simplify_eq. by apply Is_true_true. }
  split.
  - intros i r Hr. rewrite Hlook, Hr. case_decide; simpl; [|by exists r].
    exists (upd r). split; [done|]. eauto.
  - intros i r Hr. rewrite Hlook in Hr. case_decide; [|by apply Hk].
    destruct (jobs q !! i) as [r0|] eqn:Hr0; simplify_eq/=. rewrite Hid. by apply Hk.
Qed.

Lemma expire_sweep now q q' o :
  expire_stale_jobs now q = (q', o) →
  q' = q ∨ ∃ l q1 o1, store_all (store q) = Ok l ∧
    for_each (filter (is_stale now) l) (λ r,
      on_store (store_upsert (job_id r) (set_status Expired r))) q = (q1, o1) ∧
    store q' = store q1 ∧
    match o1 with
    | Ok _ => o = Ok (length (filter (is_stale now) l)) ∧
        published q' = published q1 ++
          map (λ r, JobExpired (job_id r) (job_topic r)) (filter (is_stale now) l)
    | Err e => o = Err e
    end.
Proof.
  intros Hm. unfold expire_stale_jobs in Hm. step_inv Hm.
  2: { apply load_all_inv in Hm0 as [-> _]. by left. }
  apply load_all_inv in Hm0 as [-> Hl]. right. exists a. step_inv Hk.
  - exists s, (Ok a0). destruct a0. split; [done|]. split; [done|].
    erewrite M_bind_ok in Hk0 by apply publish_each.
    unfold mret, M_ret in Hk0. by simplify_eq.
  - exists q', (Err e). by subst.
Qed.

Lemma recover_sweep reason now q q' o :
  recover_running_jobs reason now q = (q', o) →
  q' = q ∨ ∃ l q1 o1, store_all (store q) = Ok l ∧
    for_each (filter is_running l) (λ r,
      on_store (store_upsert (job_id r)
        (set_completed_at (Some (now (job_id r)))
          (set_error (Some reason) (set_status Failed r))))) q = (q1, o1) ∧
    q' = q1 ∧
    match o1 with
    | Ok _ => o = Ok (length (filter is_running l))
    | Err e => o = Err e
    end.
Proof.
  intros Hm. unfold recover_running_jobs in Hm. step_inv Hm.
  2: { apply load_all_inv in Hm0 as [-> _]. by left. }
  apply load_all_inv in Hm0 as [-> Hl]. right. exists a. step_inv Hk.
  - exists s, (Ok a0). unfold mret, M_ret in Hk0. by simplify_eq.
  - exists q', (Err e). by subst.
Qed.

Lemma edge_moves (r r' : Job) :
  same_identity r r' → lifecycle (job_status r) (job_status r') → job_moves r r'.
Proof.
  intros Hi Hl. split; [done|]. split; [by right; left|].
  intros _ Ht. rewrite Ht in Hl. inversion Hl; congruence.
Qed.

Lemma step_moves q q' :
  keyed (jobs q) → step q q' → moves (jobs q) (jobs q') ∧ keyed (jobs q').
Proof.
  intros Hk [u now spec o Hs|i agent model provider now o Hs|i res turns now o Hs
    |i err turns now o Hs|i now o Hs|now o Hs|reason now o Hs|at_ t r o Ht Hi Hr Hs].
  - by apply submit_moves in Hs.
  - apply mark_running_effect in Hs. eapply transition_moves; [done..|].
    intros r Hg%bool_decide_eq_true_1. apply edge_moves; [done|]. rewrite Hg. constructor.
  - apply mark_completed_effect in Hs. eapply transition_moves; [done..|].
    intros r Hg%bool_decide_eq_true_1. apply edge_moves; [done|]. rewrite Hg. constructor.
  - apply mark_failed_effect in Hs. eapply transition_moves; [done..|].
    intros r Hg%bool_decide_eq_true_1. apply edge_moves; [done|]. rewrite Hg. constructor.
  - apply cancel_job_effect in Hs. eapply transition_moves; [done..|].
    intros r Hg. apply edge_moves; [done|]. simpl in *. revert Hg.
    by destruct (job_status r); try done; constructor.
  - apply expire_sweep in Hs as [->|(l & q1 & o1 & Hl & Hm & Hst & _)]; [done|].
    unfold jobs. rewrite Hst. fold (jobs q1). eapply sweep_moves; [done..| | |exact Hm].
    + intros r [Hg%bool_decide_eq_true_1 _]%andb_prop. apply edge_moves; [done|].
      rewrite Hg. constructor.
    + done.
  - apply recover_sweep in Hs as [->|(l & q1 & o1 & Hl & Hm & -> & _)]; [done|].
    eapply (sweep_moves is_running (λ r, set_completed_at (Some (now (job_id r)))
          (set_error (Some reason) (set_status Failed r)))); [done..| | |exact Hm].
    + intros r Hg%bool_decide_eq_true_1. apply edge_moves; [done|].
      rewrite Hg. constructor.
    + done.
  - by eapply reschedule_moves.
Qed.

Lemma steps_evolve q q' :
  keyed (jobs q) → rtc step q q' → evolves (jobs q) (jobs q') ∧ keyed (jobs q').
Proof.
  intros Hk Hs. induction Hs as [q|q q1 q2 Hs _ IH]; [done|].
  destruct (step_moves _ _ Hk Hs) as [He Hk1]. destruct (IH Hk1) as [He' ?].
  split; [|done]. etrans; [|exact He']. intros i r Hr.
  destruct (He i r Hr) as (r' & ? & ?%job_moves_evolves). eauto.
Qed.

(** Records a step adds come from [submit_job]. *)
Lemma step_new q q' i r :
  keyed (jobs q) → step q q' → jobs q !! i = None → jobs q' !! i = Some r →
  job_status r = Queued ∧ (job_depth r ≤ MAX_SUBAGENT_DEPTH)%Z.
Proof.
  intros Hk Hstep Hi Hr.
  assert (∀ u now spec q1 o1, submit_job u now spec q = (q1, o1) →
    jobs q1 !! i = Some r → job_status r = Queued ∧ (job_depth r ≤ MAX_SUBAGENT_DEPTH)%Z) as Hsub.
  { intros u now spec q1 o1 Hs Hr1. apply submit_job_effect in Hs. destruct o1; [|congruence].
    destruct Hs as (-> & Hd & _ & e & Hj & _). rewrite Hj in Hr1.
    apply lookup_insert_Some in Hr1 as [[_ <-]|[_ ?]]; [done|congruence]. }
  assert (∀ A i0 guard upd ev (o : result A string),
    transition i0 guard upd ev q q' o → (∀ r0, job_id (upd r0) = job_id r0) → False) as Htr.
  { intros A i0 guard upd ev o Ht Hid. destruct o; simpl in Ht; [|congruence].
    destruct Ht as (r0 & Hr0 & _ & Hj & _). rewrite Hj, Hid, (Hk _ _ Hr0) in Hr.
    apply lookup_insert_Some in Hr as [[-> _]|[_ ?]]; congruence. }
  assert (∀ (sel : Job → bool) upd l q1 o1, store_all (store q) = Ok l →
    (∀ r, job_id (upd r) = job_id r) →
    for_each (filter sel l) (λ r, on_store (store_upsert (job_id r) (upd r))) q = (q1, o1) →
    jobs q1 !! i = Some r → False) as Hsw.
  { intros sel upd l q1 o1 Hl Hid Hm Hr1.
    destruct (sweep_effect sel upd l q q1 o1 Hid Hk Hl Hm) as (_ & w & _ & _ & Hlook).
    rewrite Hlook, Hi in Hr1. by case_decide. }
  destruct Hstep as [u now spec o Hs|i0 agent model provider now o Hs|i0 res turns now o Hs
    |i0 err turns now o Hs|i0 now o Hs|now o Hs|reason now o Hs|at_ t r1 o Ht Hi1 Hrec Hs].
  - by eapply Hsub.
  - apply mark_running_effect in Hs. by eapply Htr in Hs.
  - apply mark_completed_effect in Hs. by eapply Htr in Hs.
  - apply mark_failed_effect in Hs. by eapply Htr in Hs.
  - apply cancel_job_effect in Hs. by eapply Htr in Hs.
  - apply expire_sweep in Hs as [->|(l & q1 & o1 & Hl & Hm & Hst & _)]; [congruence|].
    unfold jobs in Hr. rewrite Hst in Hr. exfalso. by eapply Hsw; [..|exact Hm|exact Hr].
  - apply recover_sweep in Hs as [->|(l & q1 & o1 & Hl & Hm & -> & _)]; [congruence|].
    exfalso.
    eapply (Hsw is_running (λ r, set_completed_at (Some (now (job_id r)))
          (set_error (Some reason) (set_status Failed r)))); done.
  - apply reschedule_inv in Hs as [Hj|[Hj _]]; rewrite Hj in Hr; [congruence|].
    apply lookup_insert_Some in Hr as [[Hid _]|[_ ?]]; congruence.
Qed.

Lemma step_depth q q' :
  keyed (jobs q) → step q q' → within_depth (jobs q) → within_depth (jobs q').
Proof.
  intros Hk Hs Hd i r Hr. destruct (jobs q !! i) as [r0|] eqn:Hi.
  - destruct (step_moves _ _ Hk Hs) as [He _].
    destruct (He i r0 Hi) as (r' & Hr' & (Hid & _)). simplify_eq.
    replace (job_depth r) with (job_depth r0) by (symmetry; apply Hid). eauto.
  - by destruct (step_new q q' i r Hk Hs Hi Hr).
Qed.

Lemma submit_other u now spec q q' o :
  submit_job u now spec q = (q', o) → other_call q q'.
Proof.
  intros Hs. split; [by eapply s_submit|]. intros i r r' Hr Hr' Hq.
  apply submit_job_effect in Hs. destruct o as [j|]; [|subst; congruence].
  destruct Hs as (-> & _ & Hu & e & Hj & _). rewrite Hj, lookup_insert_ne in Hr' by congruence. congruence.
Qed.

Lemma transition_other {A} i guard upd ev q q' (o : result A string) :
  step q q' → transition i guard upd ev q q' o → (∀ r, job_status (upd r) ≠ Running) → other_call q q'.
Proof.
  intros Hs Ht Hu. split; [done|]. intros j r r' Hr Hr' Hq. destruct o; simpl in Ht; [|congruence].
  destruct Ht as (r0 & _ & _ & Hj & _). rewrite Hj in Hr'.
  apply lookup_insert_Some in Hr' as [[_ <-]|[_ ?]]; [apply Hu|congruence].
Qed.

Lemma cancel_other i now q q' o : cancel_job i now q = (q', o) → other_call q q'.
Proof. intros Hs. eapply transition_other; [by eapply s_cancel|by apply cancel_job_effect in Hs|done]. Qed.

Lemma complete_other i res turns now q q' o : mark_completed i res turns now q = (q', o) → other_call q q'.
Proof. intros Hs. eapply transition_other; [by eapply s_complete|by apply mark_completed_effect in Hs|done]. Qed.

Lemma daemon_step_steps x y : daemon_step x y → rtc step x.2 y.2.
Proof.
  intros [p q l j _ _|p j agent model provider now q q' o _ Hs|p q q' [Hs _]]; simpl; [done|..|by apply rtc_once].
  apply rtc_once. by eapply s_run.
Qed.

Lemma daemon_steps_steps x y : rtc daemon_step x y → rtc step x.2 y.2.
Proof. induction 1 as [|x y z Hs _ IH]; [done|]. etrans; [by apply daemon_step_steps|done]. Qed.

Lemma daemon_steps_evolve x y :
  keyed (jobs x.2) → rtc daemon_step x y → evolves (jobs x.2) (jobs y.2) ∧ keyed (jobs y.2).
Proof. intros Hk Hs. by apply steps_evolve, daemon_steps_steps. Qed.
End steps.
