(* ===== verification/JobQueueProps.v ===== *)
(** * The job queue: properties

    What the queue promises its clients: the lifecycle and the nesting limit
    over all reachable tables, the choice of the next job, the sweeps, the
    listings and the statistics; then what the scheduler makes of it for
    recurring jobs and for concurrent claims. *)

From S2P Require Import Prelude RustStr JobTypes RecordStore JobQueue JobQueueFacts JobQueueSpec.
From Stdlib Require Import ZArith Lia.
From stdpp Require Import base list sorting strings gmap fin_maps relations pretty.

(** ** Order of the candidates *)

Section order.
Context {Value : Type}.
Notation Job := (JobRecord Value).

(** [r] is to run no later than [r']: higher priority, or the same and
    created no later. *)
Definition precedes (r r' : Job) : Prop :=
  (Priority.as_i32 (job_priority r') < Priority.as_i32 (job_priority r))%Z ∨
  (Priority.as_i32 (job_priority r') = Priority.as_i32 (job_priority r) ∧
   String.leb (job_created_at r) (job_created_at r') = true).

Lemma by_priority_precedes r r' : by_priority r r' = true ↔ precedes r r'.
Proof.
  unfold by_priority, priority_then_created, precedes, Priority.compare, String.leb.
  destruct (Z.compare_spec (Priority.as_i32 (job_priority r'))
    (Priority.as_i32 (job_priority r))) as [->|Hlt|Hgt].
  - split; [|intros [?|[_ ?]]; [lia|done]].
    destruct (String.compare _ _); try done; intros _; by right.
  - split; [by left|done].
  - split; [done|]. intros [?|[? _]]; lia.
Qed.

Lemma precedes_trans r1 r2 r3 : precedes r1 r2 → precedes r2 r3 → precedes r1 r3.
Proof.
  unfold precedes. intros [?|[E1 L1]] [?|[E2 L2]]; [left; lia..|].
  right. split; [lia|]. by eapply string_leb_trans.
Qed.

Lemma precedes_total r r' : precedes r r' ∨ precedes r' r.
Proof.
  unfold precedes.
  destruct (Z.lt_total (Priority.as_i32 (job_priority r))
    (Priority.as_i32 (job_priority r'))) as [?|[?|?]]; [auto| |auto].
  destruct (string_leb_total (job_created_at r) (job_created_at r')); auto.
Qed.

Lemma by_priority_trans (x y z : Job) :
  by_priority x y → by_priority y z → by_priority x z.
Proof. rewrite !Is_true_true, !by_priority_precedes. apply precedes_trans. Qed.

Lemma by_priority_total (x y : Job) : by_priority x y ∨ by_priority y x.
Proof. rewrite !Is_true_true, !by_priority_precedes. apply precedes_total. Qed.

(** ** Eligibility *)

Definition completed_in (m : gmap string Job) (i : string) : Prop :=
  ∃ r, m !! i = Some r ∧ job_status r = Completed.

(** What the scheduler may start. *)
Definition eligible (m : gmap string Job) (r : Job) : Prop :=
  job_status r = Queued ∧ job_is_recurring r = false ∧
  (∀ p, job_parent_job_id r = Some p → completed_in m p) ∧
  (∀ d, d ∈ job_depends_on r → completed_in m d).
End order.

Section selection.
Context {Value T : Type} `{RecordStoreLaws T (JobRecord Value)}.
Notation Job := (JobRecord Value).
Implicit Types q : JobQueue T.

Lemma elem_of_completed_ids q l i :
  store_all (store q) = Ok l → keyed (jobs q) →
  i ∈ completed_ids l ↔ completed_in (jobs q) i.
Proof.
  intros Hl Hk. unfold completed_ids, completed_in. rewrite list_elem_of_map. split.
  - intros (r & -> & [Hc Hr]%list_elem_of_filter). exists r. split; [|done].
    by apply (elem_of_all_jobs q l).
  - intros (r & Hr & Hc). exists r. rewrite (Hk i r Hr). split; [done|].
    apply list_elem_of_filter. split; [done|]. apply (elem_of_all_jobs q l); [done..|].
    by rewrite (Hk i r Hr).
Qed.

Lemma is_candidate_eligible q l r :
  store_all (store q) = Ok l → keyed (jobs q) →
  is_candidate (completed_ids l) r = true ↔ eligible (jobs q) r.
Proof.
  intros Hl Hk. unfold is_candidate, eligible.
  rewrite !andb_true_iff, bool_decide_eq_true, negb_true_iff, forallb_elem.
  assert ((match job_parent_job_id r with
           | Some parent => bool_decide (parent ∈ completed_ids l)
           | None => true
           end = true) ↔ ∀ p, job_parent_job_id r = Some p → completed_in (jobs q) p) as ->.
  { destruct (job_parent_job_id r) as [p|]; [|naive_solver].
    rewrite bool_decide_eq_true, (elem_of_completed_ids q l p Hl Hk). naive_solver. }
  setoid_rewrite bool_decide_eq_true.
  setoid_rewrite (elem_of_completed_ids q l _ Hl Hk). tauto.
Qed.

Lemma next_of_spec q l o :
  store_all (store q) = Ok l → keyed (jobs q) → next_of l = o →
  match o with
  | Some r => jobs q !! job_id r = Some r ∧ eligible (jobs q) r ∧
      ∀ i r', jobs q !! i = Some r' → eligible (jobs q) r' → precedes r r'
  | None => ∀ i r, jobs q !! i = Some r → ¬ eligible (jobs q) r
  end.
Proof.
  intros Hl Hk. unfold next_of.
  set (cands := filter (is_candidate (completed_ids l)) l).
  assert (∀ i r, jobs q !! i = Some r → eligible (jobs q) r → r ∈ cands) as Hcand.
  { intros i r Hr He. apply list_elem_of_filter. split.
    - by apply Is_true_true, (is_candidate_eligible q l).
    - apply (elem_of_all_jobs q l); [done..|]. by rewrite (Hk i r Hr). }
  destruct o as [r|]; intros Hn.
  - pose proof (sort_by_head_elem _ _ _ Hn) as Hr.
    apply list_elem_of_filter in Hr as [Hc%Is_true_true Hr].
    apply (elem_of_all_jobs q l r Hl Hk) in Hr.
    apply (is_candidate_eligible q l r Hl Hk) in Hc.
    split; [done|]. split; [done|]. intros i r' Hr' He'.
    destruct (sort_by_head_le _ by_priority_trans by_priority_total _ _ r' Hn) as [Hle|<-].
    + by eapply Hcand.
    + by apply Is_true_true, by_priority_precedes in Hle.
    + right. split; [done|apply string_leb_refl].
  - apply sort_by_head_None in Hn. intros i r Hr He.
    pose proof (Hcand i r Hr He) as Hin. rewrite Hn in Hin. by apply elem_of_nil in Hin.
Qed.
End selection.

(** ** A concrete queue for the witnesses *)

Module Demo.

Definition at_ (t : Z) : string := pretty t.
Definition plus (t n : Z) : option Z := Some (t + n)%Z.

Definition spec (topic : string) : JobSpec unit := {|
  spec_goal := "goal";
  spec_topic := topic;
  spec_capability := General;
  spec_priority := Normal;
  spec_time_budget_ms := 60000;
  spec_max_turns := 5;
  spec_system_context := None;
  spec_allowed_skill_ids := [];
  spec_ttl_seconds := 3600;
  spec_input_data := None;
  spec_parent_job_id := None;
  spec_parent_correlation_id := None;
  spec_depth := 0;
  spec_provider_profile := None;
  spec_cron_expression := None;
  spec_is_recurring := false;
  spec_significance_keywords := [];
  spec_significance_threshold := default_significance_threshold;
  spec_job_mode := "agentic_run";
  spec_goal_template := None;
  spec_depends_on := [];
  spec_execution_mode := Mediated;
  spec_direct_tool_call := None;
|}.

Notation Queue := (JobQueue (gmap string (JobRecord unit))).

Definition job (i : string) : JobRecord unit := new_record (spec "topic") i "100" "200".
Definition queue_of (r : JobRecord unit) : Queue := mkJobQueue (<[job_id r := r]> ∅) [].
Definition empty_queue : Queue := mkJobQueue ∅ [].

Definition template : JobRecord unit :=
  new_record {|
    spec_goal := "digest";
    spec_topic := "news";
    spec_capability := General;
    spec_priority := Normal;
    spec_time_budget_ms := 60000;
    spec_max_turns := 5;
    spec_system_context := None;
    spec_allowed_skill_ids := [];
    spec_ttl_seconds := 86400;
    spec_input_data := None;
    spec_parent_job_id := None;
    spec_parent_correlation_id := None;
    spec_depth := 0;
    spec_provider_profile := None;
    spec_cron_expression := Some "0 0 * * * *";
    spec_is_recurring := true;
    spec_significance_keywords := [];
    spec_significance_threshold := default_significance_threshold;
    spec_job_mode := "agentic_run";
    spec_goal_template := None;
    spec_depends_on := [];
    spec_execution_mode := Mediated;
    spec_direct_tool_call := None;
  |} "t" "100" "200".

Lemma keyed_empty : keyed (jobs empty_queue).
Proof. intros i r Hr. change ((∅ : gmap string (JobRecord unit)) !! i = Some r) in Hr.
  by rewrite lookup_empty in Hr. Qed.

Lemma keyed_queue_of r : keyed (jobs (queue_of r)).
Proof. apply (keyed_insert ∅ r). apply keyed_empty. Qed.

End Demo.

(** ** Lifecycle *)

Section lifecycle.
Context {Value Time T : Type} `{RecordStoreLaws T (JobRecord Value)}.
Context (to_rfc3339 : Time → string) (add_seconds : Time → Z → option Time).

Notation Job := (JobRecord Value).
Notation step := (step to_rfc3339 add_seconds).
Notation daemon_step := (daemon_step to_rfc3339 add_seconds).
Notation Picked := (list Job).
Notation spawn_recurring_instance := (spawn_recurring_instance to_rfc3339 add_seconds).
Implicit Types q : JobQueue T.

(** C1: over any sequence of calls of the queue's methods, failing ones included, with
    any arguments except that [spawn_recurring_instance] is given a copy, however old, of a
    recurring template of the queue, a stored job is never lost and keeps its identity
    (topic, goal, priority, depth, parent, dependencies, deadlines).  If it is not a
    recurring template, it moves only along the edges
    Queued-Running-Completed/Failed/Cancelled and Queued-Cancelled/Expired, is frozen once
    its status is terminal, and otherwise changes only with its status.  A recurring
    template moves along the same edges, or back into the queue. *)
Theorem job_lifecycle q q' i r :
  keyed (jobs q) → rtc step q q' → jobs q !! i = Some r →
  ∃ r', jobs q' !! i = Some r' ∧ same_identity r r' ∧
    (if job_is_recurring r then rtc (λ s t, lifecycle s t ∨ t = Queued) (job_status r) (job_status r')
     else rtc lifecycle (job_status r) (job_status r') ∧
          (Status.is_terminal (job_status r) = true → r' = r) ∧
          (job_status r' = job_status r → r' = r)).
Proof.
  intros Hk Hs Hr. destruct (steps_evolve _ _ _ _ Hk Hs) as [He _].
  destruct (He i r Hr) as (r' & Hr' & Hev). exists r'. split; [done|]. split; [apply Hev|].
  destruct (job_is_recurring r) eqn:Hrec.
  - destruct Hev as (_ & Hl & _). eapply rtc_subrel; [|exact Hl]. intros x y [?|[_ ?]]; [by left|by right].
  - destruct (evolves_one_shot _ _ Hev Hrec) as [Hl Ht]. split_and!; [done..|]. by apply Hev.
Qed.

(** From the empty table on, every job is stored under its own id and no
    job is nested deeper than [MAX_SUBAGENT_DEPTH]. *)
Theorem reachable_within_depth q q' :
  jobs q = ∅ → rtc step q q' → keyed (jobs q') ∧ within_depth (jobs q').
Proof.
  intros Hq Hs. assert (keyed (jobs q) ∧ within_depth (jobs q)) as [Hk Hd].
  { rewrite Hq. split; intros i r Hr; by rewrite lookup_empty in Hr. }
  clear Hq. induction Hs as [q|q q1 q2 Hs _ IH]; [done|].
  apply IH; [by eapply step_moves|].
  by eapply step_depth.
Qed.

(** [next_queued_job] only reads; it returns an eligible job (queued, not a
    recurring template, parent and all dependencies completed) that no other
    eligible job precedes in priority, then in age; it returns nothing only
    when no job is eligible. *)
Theorem next_queued_job_spec q q' o :
  keyed (jobs q) → next_queued_job q = (q', Ok o) →
  q' = q ∧
  match o with
  | Some r => jobs q !! job_id r = Some r ∧ eligible (jobs q) r ∧
      ∀ i r', jobs q !! i = Some r' → eligible (jobs q) r' → precedes r r'
  | None => ∀ i r, jobs q !! i = Some r → ¬ eligible (jobs q) r
  end.
Proof.
  intros Hk Hm. unfold next_queued_job in Hm. step_inv Hm; [|done].
  apply load_all_inv in Hm0 as [-> Hl]. unfold mret, M_ret in Hk0.
  simplify_eq. split; [done|]. by eapply next_of_spec.
Qed.

(** ** Recurring jobs *)

(** The statuses of a job that has not been started. *)
Definition never_ran (s : JobStatus) : Prop := s = Queued ∨ s = Cancelled ∨ s = Expired.

Lemma never_ran_edge rec s s' :
  never_ran s → edge rec s s' → (s' = Running ∧ s = Queued) ∨ never_ran s'.
Proof. unfold never_ran. intros Hs [Hl|[_ ->]]; [|right; by left]. destruct Hl; intuition congruence. Qed.

(** The jobs that were picked: one-shot jobs of the table, whose parent and dependencies
    are completed (or are templates). *)
Definition picked_ok (p : Picked) q : Prop :=
  ∀ j, j ∈ p → job_status j = Queued ∧ job_is_recurring j = false ∧
    ∃ r, jobs q !! job_id j = Some r ∧ job_evolves j r ∧ ∀ d, job_parent_job_id j = Some d ∨ d ∈ job_depends_on j →
      ∃ rd, jobs q !! d = Some rd ∧ (job_is_recurring rd = true ∨ job_status rd = Completed).

Lemma picked_steps p q q' : keyed (jobs q) → rtc step q q' → picked_ok p q → picked_ok p q'.
Proof.
  intros Hk Hs Hp j Hj. destruct (Hp j Hj) as (Hq & Hrec & r & Hr & Hi & Hd). split; [done|]. split; [done|].
  destruct (steps_evolve _ _ _ _ Hk Hs) as [He _]. destruct (He _ _ Hr) as (r' & Hr' & Hi').
  exists r'. split; [done|]. split; [by etrans|]. intros d Hin. destruct (Hd d Hin) as (rd & Hrd & Hc).
  destruct (He _ _ Hrd) as (rd' & Hrd' & Hev). exists rd'. split; [done|].
  destruct (job_is_recurring rd) eqn:Hrr; [left; by rewrite (same_recurring _ _ (proj1 Hev))|].
  destruct Hc as [|Hc]; [done|]. right. destruct (evolves_one_shot _ _ Hev Hrr) as [_ Ht].
  rewrite Ht; [done|]. by rewrite Hc.
Qed.

Lemma daemon_step_picked x y :
  keyed (jobs x.2) → daemon_step x y → picked_ok x.1 x.2 → picked_ok y.1 y.2.
Proof.
  intros Hk Hs Hp. pose proof (daemon_step_steps _ _ _ _ Hs) as Hst.
  destruct Hs as [p q l j Hl Hn|p j agent model provider now q q' o Hj Hr|p q q' [Hq _]]; simpl in *;
    [|by apply (picked_steps p q)..].
  intros j' [Hj'|Hj']%elem_of_app; [by apply Hp|]. apply list_elem_of_singleton in Hj' as ->.
  destruct (next_of_spec _ _ _ Hl Hk Hn) as (Hr & (Hq & Hrec & Hpar & Hdep) & _).
  split; [done|]. split; [done|]. exists j. split; [done|]. split; [done|].
  intros d [Hd|Hd]; [destruct (Hpar d Hd) as (rd & ? & ?)|destruct (Hdep d Hd) as (rd & ? & ?)];
    exists rd; (split; [done|by right]).
Qed.

Lemma daemon_steps_picked x y :
  keyed (jobs x.2) → rtc daemon_step x y → picked_ok x.1 x.2 → picked_ok y.1 y.2.
Proof.
  intros Hk Hs. induction Hs as [x|x y z Hs _ IH]; [done|]. intros Hp.
  destruct (daemon_steps_evolve _ _ _ _ Hk (rtc_once _ _ Hs)) as [_ Hky].
  by apply IH, (daemon_step_picked x).
Qed.

(** A job that no task was started for does not run. *)
Lemma not_picked_kept x y i r :
  keyed (jobs x.2) → daemon_step x y → jobs x.2 !! i = Some r → i ∉ map job_id x.1 →
  never_ran (job_status r) →
  ∃ r', jobs y.2 !! i = Some r' ∧ same_identity r r' ∧ never_ran (job_status r').
Proof.
  intros Hk Hd Hr Hnp Hs. destruct Hd as [p q l j _ _|p j agent model provider now q q' o Hj Hm|p q q' [Hq Hno]];
    simpl in *; [by exists r| |].
  - exists r. split; [|done]. apply mark_running_effect in Hm. destruct o; [|by rewrite Hm].
    destruct Hm as (r0 & Hr0 & _ & -> & _). simpl. rewrite (Hk _ _ Hr0), lookup_insert_ne; [done|].
    intros <-. apply Hnp, list_elem_of_map. by exists j.
  - pose proof (step_moves _ _ q q' Hk Hq) as [Hm _]. destruct (Hm i r Hr) as (r' & Hr' & Hi & Hl & _).
    exists r'. split; [done|]. split; [done|]. destruct Hl as [->|Hl]; [done|].
    destruct (never_ran_edge _ _ _ Hs Hl) as [[Hrun Hqu]|?]; [|done]. by destruct (Hno i r r').
Qed.

(** A queued template and one of its instances, while neither has run. *)
Definition pair_inv (ti u : string) (x : Picked * JobQueue T) : Prop :=
  keyed (jobs x.2) ∧ picked_ok x.1 x.2 ∧ u ∉ map job_id x.1 ∧
  (∃ t, jobs x.2 !! ti = Some t ∧ job_is_recurring t = true ∧ never_ran (job_status t)) ∧
  (∃ r, jobs x.2 !! u = Some r ∧ job_parent_job_id r = Some ti ∧ never_ran (job_status r)).

Lemma pair_inv_step ti u x y : daemon_step x y → pair_inv ti u x → pair_inv ti u y.
Proof.
  intros Hd (Hk & Hp & Hu & (t & Ht & Hrec & Hst) & (r & Hr & Hpar & Hsr)).
  destruct (daemon_steps_evolve _ _ _ _ Hk (rtc_once _ _ Hd)) as [_ Hky].
  split; [done|]. split; [exact (daemon_step_picked x y Hk Hd Hp)|].
  assert (ti ∉ map job_id x.1) as Hti.
  { intros (j & Hid & Hj)%list_elem_of_map. destruct (Hp j Hj) as (_ & Hjr & rj & Hrj & Hi & _).
    rewrite <- Hid, Ht in Hrj. simplify_eq. rewrite (same_recurring _ _ (proj1 Hi)) in Hrec. congruence. }
  split.
  - destruct Hd as [p q l j Hl Hn|p j agent model provider now q q' o Hj Hm|p q q' [Hq Hno]]; simpl in *; [|done..].
    rewrite map_app. intros [?|Hin]%elem_of_app; [done|]. simpl in Hin. apply list_elem_of_singleton in Hin as ->.
    destruct (next_of_spec _ _ _ Hl Hk Hn) as (Hj & (_ & _ & He & _) & _). simplify_eq.
    destruct (He ti Hpar) as (t' & Ht' & Hc). simplify_eq. rewrite Hc in Hst.
    unfold never_ran in Hst. intuition congruence.
  - split.
    + destruct (not_picked_kept x y ti t) as (t' & ? & Hid & ?); [done..|].
      exists t'. split; [done|]. split; [|done]. rewrite <- Hrec. apply Hid.
    + destruct (not_picked_kept x y u r) as (r' & ? & Hid & ?); [done..|].
      exists r'. split; [done|]. split; [|done]. rewrite <- Hpar. apply Hid.
Qed.

(** An instance spawned from a recurring template never runs: whatever the
    daemon does afterwards, the instance is never running nor completed,
    because its parent is the template, which stays out of [Completed]. *)
Theorem recurring_instance_never_runs u now at_ t goal q q1 p2 q2 :
  keyed (jobs q) → jobs q !! job_id t = Some t → is_recurring_template t = true →
  spawn_recurring_instance u now at_ t goal q = (q1, Ok u) → rtc daemon_step ([], q1) (p2, q2) →
  ∃ r, jobs q2 !! u = Some r ∧ job_parent_job_id r = Some (job_id t) ∧
    never_ran (job_status r).
Proof.
  intros Hk Ht Hrec Hs Hd. pose proof (recurring_template_is _ Hrec) as [Hr Hq].
  assert (pair_inv (job_id t) u ([], q1)) as Hi.
  { destruct (steps_evolve _ _ _ _ Hk (spawn_steps _ _ _ _ _ _ _ _ _ _ _ Ht (reflexivity _) Hrec Hs)) as [_ Hk1].
    apply spawn_inv in Hs as (q0 & o0 & Hsub & Ho). destruct o0 as [i|]; [|by destruct Ho].
    destruct Ho as (-> & o2 & Hre & Ho). destruct (Ho u eq_refl) as [_ ->].
    apply submit_job_effect in Hsub as (_ & _ & Hu & e & Hj0 & _).
    assert (job_id t ≠ u) as Hne by congruence.
    apply reschedule_inv in Hre as [Hj|[Hj _]]; (split; [done|]); (split; [by intros j ?%elem_of_nil|]);
      (split; [by intros ?%elem_of_nil|]); simpl; rewrite Hj, Hj0; split.
    - exists t. rewrite lookup_insert_ne by done. split; [done|]. split; [done|]. by left.
    - eexists. rewrite lookup_insert_eq. split; [done|]. split; [done|]. by left.
    - eexists. rewrite lookup_insert_eq. split; [done|]. split; [done|]. by left.
    - eexists. rewrite lookup_insert_ne, lookup_insert_eq by done.
      split; [done|]. split; [done|]. by left. }
  assert (pair_inv (job_id t) u (p2, q2)) as (_ & _ & _ & _ & r & ?); [|by exists r].
  clear Hs. induction Hd as [x|x y z Hs _ IH]; [done|]. by eapply IH, pair_inv_step.
Qed.
End lifecycle.

(** ** Outcomes on a store that does not fail *)

Section outcomes.
Context {Value Time T : Type} `{ReliableStore T (JobRecord Value)}.
Context (to_rfc3339 : Time → string) (add_seconds : Time → Z → option Time).

Notation Job := (JobRecord Value).
Notation submit_job := (submit_job to_rfc3339 add_seconds).
Implicit Types q : JobQueue T.

Lemma require_job_reliable i q :
  require_job i q = (q, ok_or (jobs q !! i) ("Job '" +:+ i +:+ "' not found")).
Proof.
  unfold require_job, get_job, mbind, M_bind, get_state, lift_result. simpl.
  destruct (reliable_select i (store q)) as [o Ho]. rewrite Ho.
  by rewrite (store_select_spec _ _ _ Ho).
Qed.

Lemma on_store_upsert_reliable i (r : Job) q :
  ∃ q', on_store (store_upsert i r) q = (q', Ok tt) ∧ published q' = published q ∧
    jobs q' = <[i:=r]> (jobs q).
Proof.
  destruct (reliable_upsert i r (store q)) as [s Hs].
  assert (on_store (store_upsert i r) q = (mkJobQueue s (published q), Ok tt)) as Ho.
  { unfold on_store. by rewrite Hs. }
  exists (mkJobQueue s (published q)). split; [done|]. by apply on_store_upsert_inv in Ho.
Qed.

Lemma load_all_reliable q : ∃ l, store_all (store q) = Ok l ∧ load_all_jobs q = (q, Ok l).
Proof.
  destruct (reliable_all (store q)) as [l Hl]. exists l. split; [done|].
  unfold load_all_jobs, mbind, M_bind, get_state, lift_result. by rewrite Hl.
Qed.

(** Claiming a job has exactly three outcomes: unknown job, job not queued
    (both leave the queue untouched, with their messages), or the job becomes
    running with its agent, model and provider recorded and one [JobStarted]
    is published. *)
Theorem mark_running_outcome i agent model provider now q :
  keyed (jobs q) →
  match jobs q !! i with
  | None => mark_running i agent model provider now q =
      (q, Err ("Job '" +:+ i +:+ "' not found"))
  | Some r =>
      if decide (job_status r = Queued) then
        ∃ q' r', mark_running i agent model provider now q = (q', Ok tt) ∧
          jobs q' = <[i := r']> (jobs q) ∧ same_identity r r' ∧
          job_status r' = Running ∧ job_agent_id r' = Some agent ∧
          job_model_used r' = Some model ∧ job_provider_used r' = Some provider ∧
          job_started_at r' = Some now ∧
          published q' = published q ++ [JobStarted i (job_topic r) agent model]
      else mark_running i agent model provider now q = (q, Err (not_in_state i "queued"))
  end.
Proof.
  intros Hk. unfold mark_running, mark_running_check.
  destruct (jobs q !! i) as [r|] eqn:Hr.
  2: { erewrite M_bind_err; [done|]. erewrite M_bind_err; [done|].
       rewrite require_job_reliable, Hr. done. }
  assert (require_job i q = (q, Ok r)) as Hreq by (rewrite require_job_reliable, Hr; done).
  case_decide as Hq.
  - erewrite M_bind_ok.
    2: { erewrite M_bind_ok by done. unfold ensure. by rewrite bool_decide_eq_true_2. }
    unfold mark_running_write. cbv zeta.
    set (r' := set_started_at (Some now) _).
    destruct (on_store_upsert_reliable (job_id r') r' q) as (q' & Ho & Hp & Hj).
    erewrite M_bind_ok by done. unfold publish_event, modify.
    assert (job_id r' = i) as Hid by exact (Hk i r Hr). rewrite Hid in *.
    eexists _, r'. split; [done|]. split; [done|].
    repeat (split; [done|]). simpl. by rewrite Hp.
  - erewrite M_bind_err; [done|]. erewrite M_bind_ok by done.
    unfold ensure. by rewrite bool_decide_eq_false_2.
Qed.

(** Submitting has exactly four outcomes: too deep, deadline not
    representable, id already taken (all leave the queue untouched), or the
    job is stored as queued, untouched otherwise, with one [JobQueued]. *)
Theorem submit_job_outcome u now spec q :
  if decide (MAX_SUBAGENT_DEPTH < spec_depth spec)%Z then
    ∃ e, submit_job u now spec q = (q, Err e)
  else match add_seconds now (as_i64 (spec_ttl_seconds spec)) with
  | None => ∃ e, submit_job u now spec q = (q, Err e)
  | Some expires =>
      let r := new_record spec u (to_rfc3339 now) (to_rfc3339 expires) in
      match jobs q !! u with
      | Some _ => ∃ e, submit_job u now spec q = (q, Err e)
      | None => ∃ q', submit_job u now spec q = (q', Ok u) ∧ jobs q' = <[u := r]> (jobs q) ∧
          published q' = published q ++
            [JobQueued u (spec_topic spec) (spec_capability spec) (spec_priority spec)]
      end
  end.
Proof.
  unfold JobQueue.submit_job. case_decide as Hd.
  { eexists. erewrite M_bind_err; [done|]. unfold ensure.
    by rewrite (proj2 (Z.ltb_lt _ _) Hd). }
  unfold ensure. rewrite (proj2 (Z.ltb_ge _ _)) by lia.
  erewrite M_bind_ok by done.
  destruct (add_seconds now _) as [expires|]; simpl.
  2: { eexists. by erewrite M_bind_err. }
  erewrite M_bind_ok by done. cbv zeta.
  set (r := new_record spec u _ _).
  destruct (on_store (store_create u r) q) as [q' o] eqn:Ho.
  pose proof (on_store_create_inv _ _ _ _ _ Ho) as [Hp Hc].
  destruct (jobs q !! u) as [r0|] eqn:Hu.
  - destruct o as [[]|e]; [by destruct Hc|]. subst q'. exists e. by erewrite M_bind_err.
  - destruct o as [[]|e].
    + destruct Hc as [_ Hj]. erewrite M_bind_ok by done. eexists. split; [done|].
      split; [done|]. simpl. by rewrite Hp.
    + exfalso. destruct (reliable_create u r (store q) Hu) as [s Hs].
      unfold on_store in Ho. rewrite Hs in Ho. simplify_eq.
Qed.

Lemma for_each_upsert_reliable (upd : Job → Job) l q :
  ∃ q', for_each l (λ r, on_store (store_upsert (job_id r) (upd r))) q = (q', Ok tt).
Proof.
  revert q. induction l as [|r l IH]; intros q; simpl; [by exists q|].
  destruct (on_store_upsert_reliable (job_id r) (upd r) q) as (q1 & Ho & _).
  erewrite M_bind_ok by done. apply IH.
Qed.

(** The sweeps, run to the end. *)
Lemma sweep_reliable (sel : Job → bool) (upd : Job → Job) l q :
  (∀ r, job_id (upd r) = job_id r) → keyed (jobs q) → store_all (store q) = Ok l →
  ∃ q', for_each (filter sel l) (λ r, on_store (store_upsert (job_id r) (upd r))) q = (q', Ok tt) ∧
    published q' = published q ∧
    ∀ i, jobs q' !! i = (λ r, if sel r then upd r else r) <$> jobs q !! i.
Proof.
  intros Hid Hk Hl.
  destruct (for_each_upsert_reliable upd (filter sel l) q) as [q' Hq'].
  exists q'. split; [done|].
  destruct (sweep_effect sel upd l q q' _ Hid Hk Hl Hq') as (Hp & w & _ & Hw & Hlook).
  split; [done|]. rewrite (Hw eq_refl) in Hlook. by apply (sweep_all sel upd l q).
Qed.

Lemma elem_of_stale_ids (sel : Job → bool) l q i :
  store_all (store q) = Ok l → keyed (jobs q) →
  i ∈ map job_id (filter sel l) ↔ ∃ r, jobs q !! i = Some r ∧ sel r = true.
Proof.
  intros Hl Hk. rewrite list_elem_of_map. split.
  - intros (r & -> & [Hs%Is_true_true Hr]%list_elem_of_filter).
    apply (elem_of_all_jobs q l r Hl Hk) in Hr. eauto.
  - intros (r & Hr & Hs). exists r. rewrite (Hk i r Hr). split; [done|].
    apply list_elem_of_filter. split; [by apply Is_true_true|].
    apply (elem_of_all_jobs q l r Hl Hk). by rewrite (Hk i r Hr).
Qed.

(** [expire_stale_jobs] marks as expired exactly the queued jobs whose
    deadline lies before [now], leaves every other job as it was, publishes one
    [JobExpired] per expired job and returns their number. *)
Theorem expire_stale_jobs_spec now q :
  keyed (jobs q) →
  ∃ q' ids, expire_stale_jobs now q = (q', Ok (length ids)) ∧
    (∀ i, jobs q' !! i =
       (λ r, if is_stale now r then set_status Expired r else r) <$> jobs q !! i) ∧
    NoDup ids ∧ (∀ i, i ∈ ids ↔ ∃ r, jobs q !! i = Some r ∧ is_stale now r = true) ∧
    (∃ topics, published q' = published q ++ zip_with JobExpired ids topics ∧
       length topics = length ids).
Proof.
  intros Hk. destruct (load_all_reliable q) as (l & Hl & Hload).
  destruct (sweep_reliable (is_stale now) (set_status Expired) l q)
    as (q1 & Hq1 & Hp & Hlook); [done..|].
  set (stale := filter (is_stale now) l).
  exists (mkJobQueue (store q1) (published q1 ++ map (λ r, JobExpired (job_id r) (job_topic r)) stale)).
  exists (map job_id stale). unfold expire_stale_jobs.
  erewrite M_bind_ok by done. cbv zeta. erewrite M_bind_ok by exact Hq1.
  erewrite M_bind_ok by apply publish_each. unfold mret, M_ret. fold stale.
  split; [by rewrite length_map|]. split; [exact Hlook|].
  split; [by apply NoDup_map_filter, (all_jobs_nodup q)|].
  split; [intros i; by apply elem_of_stale_ids|].
  exists (map job_topic stale). split; [|by rewrite !length_map].
  simpl. rewrite Hp. f_equal. clear. induction stale; simpl; congruence.
Qed.

(** Crash recovery fails exactly the running jobs, with the given reason,
    and returns their number: afterwards no job is running. *)
Theorem recover_running_jobs_spec reason now q :
  keyed (jobs q) →
  ∃ q' n, recover_running_jobs reason now q = (q', Ok n) ∧
    (∀ i, jobs q' !! i =
       (λ r, if is_running r
             then set_completed_at (Some (now (job_id r)))
                    (set_error (Some reason) (set_status Failed r))
             else r) <$> jobs q !! i) ∧
    (∀ i r, jobs q' !! i = Some r → job_status r ≠ Running) ∧
    published q' = published q.
Proof.
  intros Hk. destruct (load_all_reliable q) as (l & Hl & Hload).
  destruct (sweep_reliable is_running (λ r, set_completed_at (Some (now (job_id r)))
                    (set_error (Some reason) (set_status Failed r))) l q)
    as (q1 & Hq1 & Hp & Hlook); [done..|].
  exists q1, (length (filter is_running l)). unfold recover_running_jobs.
  erewrite M_bind_ok by done. cbv zeta. erewrite M_bind_ok by exact Hq1.
  split; [done|]. split; [done|]. split; [|done].
  intros i r. rewrite Hlook. destruct (jobs q !! i) as [r0|]; [|done]. simpl.
  unfold is_running. case_bool_decide; intros; by simplify_eq/=.
Qed.
End outcomes.

(** ** Listings and statistics *)

Section listings.
Context {Value T : Type} `{RecordStoreLaws T (JobRecord Value)}.
Notation Job := (JobRecord Value).
Implicit Types q : JobQueue T.

(** A page of the stored jobs: those that satisfy [P], in the order [le], cut
    at [limit]. *)
Definition page q (P : Job → Prop) (le : Job → Job → Prop) (limit : nat) (page : list Job) : Prop :=
  ∃ all, page = take limit all ∧ StronglySorted le all ∧ NoDup (map job_id all) ∧
    ∀ r, r ∈ all ↔ jobs q !! job_id r = Some r ∧ P r.

Lemma page_intro q l (P : Job → Prop) `{!∀ r, Decision (P r)} (leb : Job → Job → bool) limit :
  (∀ x y z, leb x y → leb y z → leb x z) → (∀ x y, leb x y ∨ leb y x) →
  keyed (jobs q) → store_all (store q) = Ok l →
  page q P (λ a b, leb a b) limit (take limit (sort_by leb (filter P l))).
Proof.
  intros Htr Hto Hk Hl. eexists. split; [done|].
  split; [by apply sort_by_sorted|]. split.
  - change (NoDup (job_id <$> sort_by leb (filter P l))). rewrite sort_by_perm.
    by apply (NoDup_map_filter job_id P), (all_jobs_nodup q).
  - intros r. autorewrite with abigail. rewrite list_elem_of_filter.
    rewrite (elem_of_all_jobs q l r Hl Hk). tauto.
Qed.

(** [list_jobs] only reads and returns the first [limit] of exactly the
    stored jobs with the wanted status name (all of them without one), each
    once, by priority and then age. *)
Theorem list_jobs_spec q q' status limit l :
  keyed (jobs q) → list_jobs status limit q = (q', Ok l) →
  q' = q ∧ page q (λ r, ∀ s, status = Some s → Status.as_str (job_status r) = s)
             precedes limit l.
Proof.
  intros Hk Hm. unfold list_jobs in Hm. step_inv Hm; [|done].
  apply load_all_inv in Hm0 as [-> Hl]. unfold mret, M_ret in Hk0. simplify_eq.
  split; [done|].
  assert (∀ P limit x, page q' P (λ a b, by_priority a b) limit x → page q' P precedes limit x) as Hle.
  { intros P lim x (all & -> & Hs & Hrest). exists all. split; [done|]. split; [|done].
    clear -Hs. induction Hs as [|r l _ IH Hr]; constructor; [done|].
    eapply Forall_impl; [done|]. intros r' Hr'. by apply by_priority_precedes, Is_true_true. }
  apply Hle. destruct status as [s|].
  - destruct (page_intro q' a (λ r, Status.as_str (job_status r) = s) by_priority limit
      by_priority_trans by_priority_total Hk Hl) as (all & Hp & Hs & Hnd & Hin).
    exists all. repeat (split; [done|]). intros r. rewrite Hin. naive_solver.
  - destruct (page_intro q' a (λ _, True) by_priority limit
      by_priority_trans by_priority_total Hk Hl) as (all & Hp & Hs & Hnd & Hin).
    exists all. rewrite filter_everything in Hp. repeat (split; [done|]).
    intros r. rewrite Hin. naive_solver.
Qed.

Lemma as_str_inj : Inj (=) (=) Status.as_str.
Proof. by intros [] []. Qed.

Lemma count_statuses (l : list Job) stats s :
  unwrap_or (foldl count_status stats l !! Status.as_str s) 0%Z =
  (unwrap_or (stats !! Status.as_str s) 0 +
   Z.of_nat (length (filter (λ r, job_status r = s) l)))%Z.
Proof.
  revert stats. induction l as [|r l IH]; intros stats; simpl; [lia|].
  rewrite IH, filter_cons. unfold count_status. case_decide as Hs.
  - subst s. rewrite lookup_insert_eq. simpl. lia.
  - rewrite lookup_insert_ne; [done|]. by intros ?%as_str_inj.
Qed.

Lemma count_keys (l : list Job) stats key n :
  foldl count_status stats l !! key = Some n →
  is_Some (stats !! key) ∨ ∃ r, r ∈ l ∧ key = Status.as_str (job_status r).
Proof.
  revert stats. induction l as [|r l IH]; intros stats; simpl; [eauto|].
  intros [Hk|(r' & ? & ?)]%IH; [|right; set_solver].
  unfold count_status in Hk. destruct Hk as [m [[<- _]|[_ ?]]%lookup_insert_Some].
  - right. exists r. set_solver.
  - left. by exists m.
Qed.

(** The statistics are the exact number of jobs in each status: a status
    without jobs has no entry, and no other key occurs. *)
Theorem queue_stats_spec q q' stats :
  queue_stats q = (q', Ok stats) →
  q' = q ∧
  (∀ s, unwrap_or (stats !! Status.as_str s) 0%Z =
     Z.of_nat (length (filter (λ r, job_status r = s) (map_to_list (jobs q)).*2))) ∧
  (∀ key n, stats !! key = Some n →
     ∃ i r, jobs q !! i = Some r ∧ key = Status.as_str (job_status r)).
Proof.
  intros Hm. unfold queue_stats in Hm. step_inv Hm; [|done].
  apply load_all_inv in Hm0 as [-> Hl]. unfold mret, M_ret in Hk. simplify_eq.
  split; [done|]. split.
  - intros s. rewrite count_statuses, lookup_empty. simpl. f_equal.
    by rewrite (store_all_spec _ _ Hl).
  - intros key n [[? Hs]|(r & Hr & ->)]%count_keys; [by rewrite lookup_empty in Hs|].
    apply (elem_of_store_all _ _ _ Hl) in Hr as [i Hi]. by exists i, r.
Qed.
End listings.

(** ** Interleavings and clocks *)

Section interleavings.
Context {Value Time T : Type} `{ReliableStore T (JobRecord Value)}.
Context (to_rfc3339 : Time → string) (add_seconds : Time → Z → option Time).

Notation Job := (JobRecord Value).
Notation spawn_recurring_instance := (spawn_recurring_instance to_rfc3339 add_seconds).
Implicit Types q : JobQueue T.

(** The claim is a read followed by an unconditional write: when two
    claimants both read a queued job before either writes, both claims succeed
    and the job is announced as started twice; the second claimant's name is
    the one that stays. *)
Theorem claim_is_not_atomic i r agent1 agent2 model provider now1 now2 q :
  keyed (jobs q) → jobs q !! i = Some r → job_status r = Queued →
  mark_running_check i q = (q, Ok r) ∧
  ∃ q1 q2 r2,
    mark_running_write r agent1 model provider now1 q = (q1, Ok tt) ∧
    mark_running_write r agent2 model provider now2 q1 = (q2, Ok tt) ∧
    jobs q2 !! i = Some r2 ∧ job_agent_id r2 = Some agent2 ∧
    published q2 = published q ++
      [JobStarted i (job_topic r) agent1 model; JobStarted i (job_topic r) agent2 model].
Proof.
  intros Hk Hr Hq.
  assert (∀ agent now q0, ∃ q' r', mark_running_write r agent model provider now q0 = (q', Ok tt) ∧
    published q' = published q0 ++ [JobStarted i (job_topic r) agent model] ∧
    jobs q' !! i = Some r' ∧ job_agent_id r' = Some agent) as Hw.
  { intros agent now q0. unfold mark_running_write. cbv zeta. set (r' := set_started_at _ _).
    destruct (on_store_upsert_reliable (job_id r') r' q0) as (q' & Ho & Hp & Hj).
    erewrite M_bind_ok by done. unfold publish_event, modify.
    assert (job_id r' = i) as Hid by exact (Hk i r Hr). rewrite Hid in *.
    eexists _, r'. split; [done|]. split; [by rewrite <- Hp|].
    unfold jobs in *. simpl. rewrite Hj, lookup_insert_eq. done. }
  split.
  - unfold mark_running_check. erewrite M_bind_ok by (rewrite require_job_reliable, Hr; done).
    unfold ensure. rewrite bool_decide_eq_true_2 by done. done.
  - destruct (Hw agent1 now1 q) as (q1 & r1 & Hw1 & Hp1 & _).
    destruct (Hw agent2 now2 q1) as (q2 & r2 & Hw2 & Hp2 & Hr2 & Ha).
    exists q1, q2, r2. repeat (split; [done|]). rewrite Hp2, Hp1. by rewrite <- app_assoc.
Qed.

(** Spawning writes back the caller's copy of the template: a template
    cancelled after [get_recurring_templates] returned it, and before the
    instance is spawned from that copy, is queued again. *)
Theorem spawn_revives_cancelled_template u now at_ t goal later q q1 q2 :
  keyed (jobs q) → jobs q !! job_id t = Some t → is_recurring_template t = true →
  cancel_job (job_id t) later q = (q1, Ok tt) →
  spawn_recurring_instance u now at_ t goal q1 = (q2, Ok u) →
  (∃ r, jobs q1 !! job_id t = Some r ∧ job_status r = Cancelled) ∧
  (∃ r, jobs q2 !! job_id t = Some r ∧ is_recurring_template r = true).
Proof.
  intros Hk Ht Hrec Hc Hs. split.
  - apply cancel_job_effect in Hc as (r & Hr & _ & -> & _). simplify_eq.
    eexists. simpl. by rewrite lookup_insert_eq.
  - apply spawn_inv in Hs as (q0 & o0 & Hsub & Ho). destruct o0 as [i|]; [|by destruct Ho].
    destruct Ho as (-> & o2 & Hre & Ho). destruct (Ho u eq_refl) as [_ ->].
    apply on_store_upsert_inv in Hre as [_ Hj]. rewrite Hj.
    eexists. rewrite lookup_insert_eq. split; [done|]. exact Hrec.
Qed.

(** A recurring template is swept like any queued job: once its own
    deadline has passed, [expire_stale_jobs] expires it and it is no longer
    among the recurring templates. *)
Theorem recurring_template_expires now q t :
  keyed (jobs q) → jobs q !! job_id t = Some t → is_recurring_template t = true →
  String.ltb (job_expires_at t) now = true →
  ∃ q' n l, expire_stale_jobs now q = (q', Ok n) ∧
    jobs q' !! job_id t = Some (set_status Expired t) ∧
    get_recurring_templates q' = (q', Ok l) ∧ ∀ t', t' ∈ l → job_id t' ≠ job_id t.
Proof.
  intros Hk Ht Hrec Hlt. destruct (load_all_reliable q) as (l & Hl & Hload).
  destruct (sweep_reliable (is_stale now) (set_status Expired) l q)
    as (q1 & Hq1 & Hp & Hlook); [done..|].
  assert (is_stale now t = true) as Hst.
  { unfold is_stale, is_recurring_template in *. rewrite Hlt, andb_true_r.
    by apply andb_prop in Hrec as [_ ?]. }
  set (stale := filter (is_stale now) l).
  set (q2 := mkJobQueue (store q1)
    (published q1 ++ map (λ r, JobExpired (job_id r) (job_topic r)) stale)).
  assert (jobs q2 !! job_id t = Some (set_status Expired t)) as Hq2.
  { change (jobs q2) with (jobs q1). rewrite Hlook, Ht. simpl. by rewrite Hst. }
  destruct (load_all_reliable q2) as (l2 & Hl2 & Hload2).
  exists q2, (length stale), (filter is_recurring_template l2). split; [|split; [done|split]].
  - unfold expire_stale_jobs. erewrite M_bind_ok by done. cbv zeta.
    erewrite M_bind_ok by exact Hq1. by erewrite M_bind_ok by apply publish_each.
  - unfold get_recurring_templates. by erewrite M_bind_ok by done.
  - intros t' [Hrec'%Is_true_true Hin]%list_elem_of_filter Hid.
    apply (elem_of_store_all _ _ _ Hl2) in Hin as [i Hi].
    change (jobs q1 !! i = Some t') in Hi. rewrite Hlook in Hi.
    destruct (jobs q !! i) as [r|] eqn:Hr; simplify_eq/=.
    assert (job_id (if is_stale now r then set_status Expired r else r) = job_id r) as Hsame
      by (destruct (is_stale now r); done).
    rewrite Hsame, (Hk i r Hr) in Hid. subst i. simplify_eq. rewrite Hst in Hrec'.
    unfold is_recurring_template in Hrec'. simpl in Hrec'.
    by rewrite andb_false_r in Hrec'.
Qed.
End interleavings.

(** ** Witnesses *)

Section witnesses.
Import Demo.
Notation DStep := (step (T:=gmap string (JobRecord unit)) at_ plus).

Definition running_job : JobRecord unit := set_status Running (job "a").

(** A job that completes, while an old copy of another, recurring one is written back. *)
Definition two_jobs : Queue := mkJobQueue (<["a" := running_job]> (<["t" := set_status Cancelled template]> ∅)) [].

Lemma keyed_two_jobs : keyed (jobs two_jobs).
Proof.
  apply (keyed_insert (<["t" := set_status Cancelled template]> ∅) running_job).
  apply (keyed_insert ∅ (set_status Cancelled template)), keyed_empty.
Qed.

Lemma job_lifecycle_witness :
  ∃ q' r' t', rtc DStep two_jobs q' ∧ jobs q' !! "a" = Some r' ∧ job_status r' = Completed ∧
    same_identity running_job r' ∧ rtc lifecycle Running (job_status r') ∧
    jobs q' !! "t" = Some t' ∧ same_identity template t' ∧ job_status t' = Queued.
Proof.
  set (q1 := (reschedule "160" template two_jobs).1).
  set (q2 := (mark_completed "a" "done" 2 "150" q1).1).
  assert (rtc DStep two_jobs q2) as Hs.
  { eapply rtc_l; [|apply rtc_once].
    - apply (s_reschedule _ _ two_jobs q1 "160" template (set_status Cancelled template) (Ok tt));
        [reflexivity|by repeat split|reflexivity..].
    - apply (s_complete _ _ _ _ "a" "done" 2 "150" (Ok tt)). reflexivity. }
  destruct (job_lifecycle at_ plus _ q2 "a" running_job keyed_two_jobs Hs) as (r' & Hr & ? & ? & _);
    [reflexivity|].
  destruct (job_lifecycle at_ plus _ q2 "t" (set_status Cancelled template) keyed_two_jobs Hs) as (t' & Ht & ? & _);
    [reflexivity|].
  exists q2, r', t'. split; [done|]. split; [done|]. vm_compute in Hr, Ht. simplify_eq. auto 10.
Defined.

Lemma reachable_within_depth_witness :
  ∃ q', rtc DStep empty_queue q' ∧ is_Some (jobs q' !! "a") ∧ within_depth (jobs q').
Proof.
  set (q' := (submit_job at_ plus "a" 100%Z (spec "topic") empty_queue).1).
  assert (rtc DStep empty_queue q') as Hs.
  { apply rtc_once. apply (s_submit _ _ _ _ "a" 100%Z (spec "topic") (Ok "a")). reflexivity. }
  destruct (reachable_within_depth at_ plus empty_queue q') as [_ ?]; [done..|].
  exists q'. split; [done|]. split; [|done]. vm_compute. eauto.
Defined.

Lemma next_queued_job_spec_witness :
  next_queued_job (queue_of (job "a")) = (queue_of (job "a"), Ok (Some (job "a"))) ∧
  eligible (jobs (queue_of (job "a"))) (job "a").
Proof.
  assert (next_queued_job (queue_of (job "a")) = (queue_of (job "a"), Ok (Some (job "a")))) as Hn
    by (vm_compute; reflexivity).
  split; [done|].
  by destruct (next_queued_job_spec _ _ _ (keyed_queue_of _) Hn) as (_ & _ & ? & _).
Defined.

Definition spawned : Queue :=
  (spawn_recurring_instance at_ plus "u" 150%Z "150" template None (queue_of template)).1.

Lemma recurring_instance_never_runs_witness :
  next_queued_job spawned = (spawned, Ok None) ∧
  ∃ r, jobs spawned !! "u" = Some r ∧ job_parent_job_id r = Some "t" ∧
    never_ran (job_status r).
Proof.
  split; [vm_compute; reflexivity|].
  by apply (recurring_instance_never_runs at_ plus "u" 150%Z "150" template None
    (queue_of template) spawned [] spawned (keyed_queue_of _)).
Defined.

Lemma mark_running_outcome_witness :
  ∃ q' r', mark_running "a" "agent" "m" "p" "150" (queue_of (job "a")) = (q', Ok tt) ∧
    jobs q' = <["a" := r']> (jobs (queue_of (job "a"))) ∧ job_status r' = Running.
Proof.
  pose proof (mark_running_outcome "a" "agent" "m" "p" "150" (queue_of (job "a"))
    (keyed_queue_of _)) as Ho. vm_compute in Ho.
  destruct Ho as (q' & r' & ? & ? & _ & ? & _). eauto.
Defined.

Lemma submit_job_outcome_witness :
  ∃ q', submit_job at_ plus "a" 100%Z (spec "topic") empty_queue = (q', Ok "a").
Proof.
  pose proof (submit_job_outcome at_ plus "a" 100%Z (spec "topic") empty_queue) as Ho.
  vm_compute in Ho. destruct Ho as (q' & ? & _). eauto.
Defined.

Lemma expire_stale_jobs_spec_witness :
  ∃ q' ids, expire_stale_jobs "300" (queue_of (job "a")) = (q', Ok (length ids)) ∧ "a" ∈ ids.
Proof.
  destruct (expire_stale_jobs_spec "300" (queue_of (job "a")) (keyed_queue_of _))
    as (q' & ids & ? & _ & _ & Hids & _).
  exists q', ids. split; [done|]. apply Hids. exists (job "a"). split; vm_compute; reflexivity.
Defined.

Lemma recover_running_jobs_spec_witness :
  ∃ q' n, recover_running_jobs "crash" (λ _, "300") (queue_of running_job) = (q', Ok n) ∧
    ∀ i r, jobs q' !! i = Some r → job_status r ≠ Running.
Proof.
  destruct (recover_running_jobs_spec "crash" (λ _, "300") (queue_of running_job)
    (keyed_queue_of _)) as (q' & n & ? & _ & ? & _). eauto.
Defined.

Lemma list_jobs_spec_witness :
  ∃ all, [job "a"] = take 5 all ∧ ∀ r, r ∈ all → jobs (queue_of (job "a")) !! job_id r = Some r.
Proof.
  destruct (list_jobs_spec (queue_of (job "a")) (queue_of (job "a")) (Some "queued") 5 [job "a"])
    as (_ & all & ? & _ & _ & Hin); [apply keyed_queue_of|vm_compute; reflexivity|].
  exists all. split; [done|]. intros r Hr. by apply Hin.
Defined.

Lemma queue_stats_spec_witness :
  ∃ stats, queue_stats (queue_of (job "a")) = (queue_of (job "a"), Ok stats) ∧
    unwrap_or (stats !! "queued") 0%Z = 1%Z.
Proof.
  assert (queue_stats (queue_of (job "a")) =
    (queue_of (job "a"), Ok (<["queued" := 1%Z]> ∅))) as Hq by (vm_compute; reflexivity).
  eexists. split; [exact Hq|].
  destruct (queue_stats_spec _ _ _ Hq) as (_ & Hs & _).
  etrans; [exact (Hs Queued)|]. vm_compute. reflexivity.
Defined.

Lemma claim_is_not_atomic_witness :
  ∃ q2 : Queue, published q2 = [JobStarted "a" "topic" "x" "m"; JobStarted "a" "topic" "y" "m"].
Proof.
  destruct (claim_is_not_atomic "a" (job "a") "x" "y" "m" "p" "150" "151" (queue_of (job "a")))
    as (_ & q1 & q2 & r2 & _ & _ & _ & _ & Hp); [apply keyed_queue_of|reflexivity..|].
  by exists q2.
Defined.

Definition cancelled : Queue := (cancel_job "t" "140" (queue_of template)).1.

Lemma spawn_revives_cancelled_template_witness :
  ∃ r, jobs (spawn_recurring_instance at_ plus "u" 150%Z "150" template None cancelled).1 !! "t"
    = Some r ∧ is_recurring_template r = true.
Proof.
  eapply (spawn_revives_cancelled_template at_ plus "u" 150%Z "150" template None "140"
    (queue_of template) cancelled _ (keyed_queue_of _)); reflexivity.
Defined.

Lemma recurring_template_expires_witness :
  ∃ q' n l, expire_stale_jobs "300" (queue_of template) = (q', Ok n) ∧
    get_recurring_templates q' = (q', Ok l) ∧ ∀ t', t' ∈ l → job_id t' ≠ "t".
Proof.
  destruct (recurring_template_expires "300" (queue_of template) template)
    as (q' & n & l & ? & _ & ? & ?); [apply keyed_queue_of|reflexivity..|]. eauto 6.
Defined.
End witnesses.
