(* ===== verification/Governor.v ===== *)
(** * The execution governor ([crates/abigail-router/src/governor.rs])

    First the failures that steer it, their summaries and the classification of plain
    error messages ([crates/abigail-core/src/structured_failure.rs]).  Then the governor
    with the state of an execution ([execution_state.rs]), the constraints it
    learns ([constraint_store.rs]) and the goal it pursues ([planner.rs]).  A
    method on [&mut self] is a function to the new object; identifiers drawn
    with [Uuid::new_v4] and readings of the clock are arguments. *)

From S2P Require Import Prelude RustStr.
From Stdlib Require Import ZArith Lia Ascii.
From stdpp Require Import base list strings pretty.

(** ** Structured failures *)

Inductive StructuredFailure : Type :=
| PermissionDenied (resource action recovery : string)
| ResourceNotFound (resource_type identifier : string) (suggestions : list string)
| ConnectionFailed (endpoint cause : string) (retry_eligible : bool)
| AuthenticationFailed (provider hint : string)
| InvalidInput (field reason : string)
| Timeout_ (operation : string) (elapsed_ms budget_ms : Z)
| RateLimited (provider : string) (retry_after_ms : option Z)
| Unknown (message : string).

Definition is_retryable (f : StructuredFailure) : bool :=
  match f with
  | ConnectionFailed _ _ true | Timeout_ _ _ _ | RateLimited _ _ => true
  | _ => false
  end.

Definition summary (f : StructuredFailure) : string :=
  match f with
  | PermissionDenied resource action _ =>
      "Permission denied: " +:+ action +:+ " on " +:+ resource
  | ResourceNotFound resource_type identifier _ =>
      resource_type +:+ " not found: " +:+ identifier
  | ConnectionFailed endpoint cause _ =>
      "Connection to " +:+ endpoint +:+ " failed: " +:+ cause
  | AuthenticationFailed provider hint => "Auth failed for " +:+ provider +:+ ": " +:+ hint
  | InvalidInput field reason => "Invalid input for '" +:+ field +:+ "': " +:+ reason
  | Timeout_ operation elapsed_ms budget_ms =>
      "Timeout: " +:+ operation +:+ " took " +:+ pretty elapsed_ms +:+
      "ms (budget: " +:+ pretty budget_ms +:+ "ms)"
  | RateLimited provider _ => "Rate limited by " +:+ provider
  | Unknown message => message
  end.

Definition contains_any (s : string) (subs : list string) : bool :=
  existsb (contains s) subs.

Definition from_error_string (error : string) : StructuredFailure :=
  let lower := to_lowercase error in
  if contains_any lower ["permission denied"; "access denied"] then
    PermissionDenied "unknown" "unknown" "Check permissions or run with elevated privileges"
  else if contains_any lower ["not found"; "404"] then
    ResourceNotFound "resource" "unknown" []
  else if contains_any lower ["timeout"; "timed out"] then
    Timeout_ "unknown" 0 0
  else if contains_any lower ["unauthorized"; "401"; "invalid api key"] then
    AuthenticationFailed "unknown" "Check your API key"
  else if contains_any lower ["rate limit"; "429"; "too many requests"] then
    RateLimited "unknown" None
  else if contains_any lower ["connection refused"; "connection reset"; "dns"] then
    ConnectionFailed "unknown" error true
  else Unknown error.

(** What a classified failure keeps of the message. *)
Lemma contains_any_spec s subs :
  contains_any s subs = true ↔ ∃ sub, sub ∈ subs ∧ contains s sub = true.
Proof. apply existsb_elem. Qed.

(** ** Constraints *)

Module ConstraintStore.

Record Constraint : Type := mkConstraint {
  id : string;
  description : string;
  learned_from : string;
  created_at : string;
}.

Record ConstraintStore : Type := mkConstraintStore {
  constraints : list Constraint;
  file_path : string;
}.

Definition new : ConstraintStore := mkConstraintStore [] "".

Definition add (uuid now description learned_from : string) (s : ConstraintStore)
  : ConstraintStore * string :=
  (mkConstraintStore (constraints s ++ [mkConstraint uuid description learned_from now])
     (file_path s), uuid).

Definition add_hard (uuid now description : string) (learned_from : option string)
    (s : ConstraintStore) : ConstraintStore * string :=
  add uuid now description (unwrap_or learned_from "discovery") s.

Definition has (text : string) (s : ConstraintStore) : bool :=
  existsb (λ c, contains (description c) text) (constraints s).

Definition is_empty (s : ConstraintStore) : bool :=
  match constraints s with [] => true | _ => false end.
Definition len (s : ConstraintStore) : nat := length (constraints s).

Definition remove (i : string) (s : ConstraintStore) : ConstraintStore * bool :=
  let kept := filter (λ c, id c ≠ i) (constraints s) in
  (mkConstraintStore kept (file_path s), (length kept <? length (constraints s))%nat).

Definition clear (s : ConstraintStore) : ConstraintStore := mkConstraintStore [] (file_path s).

Definition as_strings (s : ConstraintStore) : list string := map description (constraints s).

(** The file of the store; [read] is the file system, [parse] and [print] are
    the JSON library. *)
Section persistence.
Context (parse : string → option (list Constraint)) (print : list Constraint → string).

Definition constraints_path (data_dir : string) : string := data_dir +:+ "/constraints.json".

Definition load (read : string → option string) (data_dir : string)
  : option ConstraintStore :=
  content ← read (constraints_path data_dir);
  cs ← parse content;
  Some (mkConstraintStore cs (constraints_path data_dir)).

Definition with_data_dir (read : string → option string) (data_dir : string) : ConstraintStore :=
  unwrap_or (load read data_dir) (mkConstraintStore [] (constraints_path data_dir)).

Definition save (s : ConstraintStore) (read : string → option string)
  : string → option string :=
  λ p, if decide (p = file_path s) then Some (print (constraints s)) else read p.
End persistence.

End ConstraintStore.

(** ** State of an execution *)

Record AttemptRecord : Type := mkAttemptRecord {
  attempt_number : Z;
  success : bool;
  detail : string;
  failure : option StructuredFailure;
  timestamp : string;
}.

Module State.

Record ExecutionState : Type := mkExecutionState {
  attempts : list AttemptRecord;
  satisfied_criteria : list string;
  discovered_constraints : list string;
  complete : bool;
  final_result : option string;
}.

Definition new : ExecutionState := mkExecutionState [] [] [] false None.

Definition record_attempt (now : string) (ok : bool) (what : string)
    (f : option StructuredFailure) (s : ExecutionState) : ExecutionState :=
  let n := as_u32 (Z.of_nat (length (attempts s)) + 1) in
  mkExecutionState (attempts s ++ [mkAttemptRecord n ok what f now])
    (satisfied_criteria s) (discovered_constraints s) (complete s) (final_result s).

Definition satisfy_criterion (criterion : string) (s : ExecutionState) : ExecutionState :=
  mkExecutionState (attempts s) (push_unique criterion (satisfied_criteria s))
    (discovered_constraints s) (complete s) (final_result s).

Definition add_constraint (c : string) (s : ExecutionState) : ExecutionState :=
  mkExecutionState (attempts s) (satisfied_criteria s)
    (push_unique c (discovered_constraints s)) (complete s) (final_result s).

Definition mark_complete (res : string) (s : ExecutionState) : ExecutionState :=
  mkExecutionState (attempts s) (satisfied_criteria s) (discovered_constraints s)
    true (Some res).

Definition failure_count (s : ExecutionState) : Z :=
  as_u32 (Z.of_nat (length (filter (λ a, success a = false) (attempts s)))).
Definition success_count (s : ExecutionState) : Z :=
  as_u32 (Z.of_nat (length (filter (λ a, success a = true) (attempts s)))).
Definition attempt_count (s : ExecutionState) : Z :=
  as_u32 (Z.of_nat (length (attempts s))).

Definition last_failure (s : ExecutionState) : option StructuredFailure :=
  find_last (λ a, negb (success a)) (attempts s) ≫= failure.

Definition all_criteria_met (criteria : list string) (s : ExecutionState) : bool :=
  forallb (λ c, bool_decide (c ∈ satisfied_criteria s)) criteria.

End State.
Import State(ExecutionState).

(** ** Goals *)

Record GoalFrame : Type := mkGoalFrame {
  intent : string;
  done_criteria : list string;
  good_criteria : list string;
  risk_assessment : string;
  suggested_approach : string;
  abort_conditions : list string;
  max_iterations : Z;
  time_budget_ms : Z;
}.

Definition GoalFrame_default : GoalFrame := mkGoalFrame "" [] [] "" "" [] 10 120000.

Definition has_done_criteria (g : GoalFrame) : bool :=
  match done_criteria g with [] => false | _ => true end.

Definition frame_of_intent (intent : string) : GoalFrame := {|
  intent := intent;
  done_criteria := ["Successfully address: " +:+ intent];
  good_criteria := ["Response is clear and well-structured"];
  risk_assessment := "No detailed risk assessment (text-only planning)";
  suggested_approach := "Attempt direct completion of the request";
  abort_conditions := ["Repeated failures with no progress"; "Time budget exceeded"];
  max_iterations := 10;
  time_budget_ms := 120000;
|}.

Definition plan_from_text (user_request : string) : option GoalFrame :=
  let trimmed := trim user_request in
  intent ← (if (200 <? String.length trimmed)%nat
            then prefix ← slice_to 200 trimmed; Some (prefix +:+ "...")
            else Some trimmed);
  Some (frame_of_intent intent).

Definition strip_markdown_fences (raw : string) : string :=
  let trimmed := trim raw in
  match RustStr.strip_prefix trimmed "```json" ≫= λ rest, RustStr.strip_suffix rest "```" with
  | Some inner => trim inner
  | None =>
      match RustStr.strip_prefix trimmed "```" ≫= λ rest, RustStr.strip_suffix rest "```" with
      | Some inner => trim inner
      | None => trimmed
      end
  end.

Record Message : Type := mkMessage { role : string; content : string }.

(** The prompt up to the user's text and the constraints is a fixed text: the
    model keeps the call as an argument ([complete]), which gets the two
    variable parts, and the JSON parser ([parse]). *)
Definition user_context (messages : list Message) : string :=
  RustStr.join (String "010" "") (map content (filter (λ m, role m = "user") messages)).

Definition constraint_block (constraints : list string) : string :=
  match constraints with
  | [] => ""
  | _ => String "010" (String "010" "Active constraints:") +:+ String "010" "" +:+
         RustStr.join (String "010" "") (map (λ c, "- " +:+ c) constraints)
  end.

(** [None] is a panic of the fallback. *)
Definition plan (complete : string → string → result string string)
    (parse : string → option GoalFrame) (messages : list Message) (constraints : list string)
  : option (result GoalFrame string) :=
  let ctx := user_context messages in
  if str_is_empty (trim ctx) then Some (Err "No user messages to plan from")
  else match complete ctx (constraint_block constraints) with
  | Err e => Some (Err e)
  | Ok content =>
      match parse (strip_markdown_fences (trim content)) with
      | Some frame => Some (Ok frame)
      | None => Ok <$> plan_from_text ctx
      end
  end.

(** ** The governor *)

Inductive GovernorStrategy : Type :=
| Initial | Retry (n : Z) | Alternative | Escalate | Abort_.

#[export] Instance GovernorStrategy_eq_dec : EqDecision GovernorStrategy.
Proof. solve_decision. Defined.

Definition strategy_fmt (s : GovernorStrategy) : string :=
  match s with
  | Initial => "Initial"
  | Retry n => "Retry(" +:+ pretty n +:+ ")"
  | Alternative => "Alternative"
  | Escalate => "Escalate"
  | Abort_ => "Abort"
  end.

Inductive GovernedResult : Type :=
| Success (msg : string) | NeedsInput (msg : string)
| Escalated (msg : string) | Aborted (msg : string).

Definition is_success (r : GovernedResult) : bool :=
  match r with Success _ => true | _ => false end.

Definition message (r : GovernedResult) : string :=
  match r with Success m | NeedsInput m | Escalated m | Aborted m => m end.

Definition MAX_RETRIES : Z := 3.

Record ExecutionGovernor : Type := mkGovernor {
  goal : GoalFrame;
  state : ExecutionState;
  constraints : ConstraintStore.ConstraintStore;
  strategy : GovernorStrategy;
  attempts : Z;
  start_time_ms : Z;
}.

Definition new (now_ms : Z) (g : GoalFrame) (c : ConstraintStore.ConstraintStore)
  : ExecutionGovernor := mkGovernor g State.new c Initial 0 now_ms.

Definition time_budget_exceeded (now_ms : Z) (g : ExecutionGovernor) : bool :=
  (time_budget_ms (goal g) <=? u64_saturating_sub now_ms (start_time_ms g))%Z.

Definition should_continue (now_ms : Z) (g : ExecutionGovernor) : bool :=
  if State.complete (state g) then false
  else if decide (strategy g = Abort_) then false
  else if (max_iterations (goal g) <=? attempts g)%Z then false
  else negb (time_budget_exceeded now_ms g).

Definition next_strategy (retryable : bool) (s : GovernorStrategy) : GovernorStrategy :=
  match s with
  | Initial => if retryable then Retry 1 else Alternative
  | Retry n => if retryable && (n <? MAX_RETRIES)%Z then Retry (as_u32 (n + 1)) else Alternative
  | Alternative => Escalate
  | Escalate => Abort_
  | Abort_ => Abort_
  end.

Definition failure_is_retryable (f : option StructuredFailure) : bool :=
  match f with Some f => is_retryable f | None => true end.

Definition advance_strategy (g : ExecutionGovernor) : ExecutionGovernor :=
  mkGovernor (goal g) (state g) (constraints g)
    (next_strategy (failure_is_retryable (State.last_failure (state g))) (strategy g))
    (attempts g) (start_time_ms g).

Definition record_attempt (now : string) (ok : bool) (what : string) (g : ExecutionGovernor)
  : ExecutionGovernor :=
  mkGovernor (goal g) (State.record_attempt now ok what None (state g)) (constraints g)
    (strategy g) (as_u32 (attempts g + 1)) (start_time_ms g).

(** The constraint a failure teaches. *)
Definition learned_constraint (f : StructuredFailure) : option string :=
  match f with
  | PermissionDenied resource action _ => Some ("Cannot " +:+ action +:+ " on " +:+ resource)
  | AuthenticationFailed provider _ => Some ("No valid credentials for " +:+ provider)
  | ResourceNotFound resource_type identifier _ =>
      Some (resource_type +:+ " '" +:+ identifier +:+ "' does not exist")
  | _ => None
  end.

Definition record_failure (uuid now : string) (f : StructuredFailure) (g : ExecutionGovernor)
  : ExecutionGovernor :=
  let n := as_u32 (attempts g + 1) in
  let st := State.record_attempt now false (summary f) (Some f) (state g) in
  match learned_constraint f with
  | Some c =>
      mkGovernor (goal g) (State.add_constraint c st)
        (ConstraintStore.add_hard uuid now c (Some ("attempt #" +:+ pretty n)) (constraints g)).1
        (strategy g) n (start_time_ms g)
  | None => mkGovernor (goal g) st (constraints g) (strategy g) n (start_time_ms g)
  end.

Definition evaluate_done (res : string) (g : ExecutionGovernor) : bool :=
  match done_criteria (goal g) with
  | [] => negb (str_is_empty (trim res))
  | criteria =>
      let result_lower := to_lowercase res in
      forallb (λ criterion,
        contains result_lower (to_lowercase criterion)
        || bool_decide (criterion ∈ State.satisfied_criteria (state g))) criteria
  end.

Definition satisfy_criterion (criterion : string) (g : ExecutionGovernor) : ExecutionGovernor :=
  mkGovernor (goal g) (State.satisfy_criterion criterion (state g)) (constraints g)
    (strategy g) (attempts g) (start_time_ms g).

Definition mark_complete (res : string) (g : ExecutionGovernor) : ExecutionGovernor :=
  mkGovernor (goal g) (State.mark_complete res (state g)) (constraints g)
    (strategy g) (attempts g) (start_time_ms g).

Definition failure_summary (g : ExecutionGovernor) : string :=
  let failure_count := State.failure_count (state g) in
  if (failure_count =? 0)%Z then ""
  else
    let last_failure_detail :=
      match find_last (λ a, negb (success a)) (State.attempts (state g)) with
      | Some a => detail a
      | None => "unknown"
      end in
    let constraint_info :=
      if ConstraintStore.is_empty (constraints g) then ""
      else " Discovered " +:+ pretty (ConstraintStore.len (constraints g)) +:+ " constraint(s)." in
    "Failures: " +:+ pretty failure_count +:+ "/" +:+ pretty (attempts g) +:+
    ". Last failure: " +:+ last_failure_detail +:+ "." +:+ constraint_info.

Definition strategy_result (g : ExecutionGovernor) : GovernedResult :=
  match strategy g with
  | Escalate => Escalated ("Execution escalated after " +:+ pretty (attempts g) +:+
                           " attempts. " +:+ failure_summary g)
  | Abort_ => Aborted ("Execution aborted after " +:+ pretty (attempts g) +:+
                       " attempts. " +:+ failure_summary g)
  | s => NeedsInput ("Execution in progress (strategy: " +:+ strategy_fmt s +:+ ", attempts: "
           +:+ pretty (attempts g) +:+ "/" +:+ pretty (max_iterations (goal g)) +:+ ")")
  end.

Definition last_success (g : ExecutionGovernor) : string :=
  match find_last success (State.attempts (state g)) with
  | Some a => detail a
  | None => ""
  end.

Definition result_ (g : ExecutionGovernor) : GovernedResult :=
  match (if State.complete (state g) then State.final_result (state g) else None) with
  | Some r => Success r
  | None =>
      if (0 <? State.success_count (state g))%Z && evaluate_done (last_success g) g
      then Success (last_success g)
      else strategy_result g
  end.

(** ** The governed loop

    The loop of the type's documentation ([# Lifecycle]).  What an attempt does
    is up to the caller: its report is one of the calls below; the clock is
    read at each [should_continue]. *)

Inductive report : Type :=
| Attempted (ok : bool) (what : string)
| FailedWith (f : StructuredFailure)
| Finished (res : string).

Definition report_failed (r : report) : bool :=
  match r with Attempted ok _ => negb ok | FailedWith _ => true | Finished _ => false end.

Definition apply_report (now : string) (r : report) (g : ExecutionGovernor) : ExecutionGovernor :=
  match r with
  | Attempted ok what => record_attempt now ok what g
  | FailedWith f => record_failure now now f g
  | Finished res => mark_complete res (record_attempt now true res g)
  end.

Definition iterate (now : string) (r : report) (g : ExecutionGovernor) : ExecutionGovernor :=
  let g := apply_report now r g in
  if report_failed r then advance_strategy g else g.

Fixpoint governed_loop (fuel : nat) (clock : nat → Z) (attempt : ExecutionGovernor → report)
    (n : nat) (g : ExecutionGovernor) : ExecutionGovernor :=
  match fuel with
  | O => g
  | S fuel =>
      if should_continue (clock n) g
      then governed_loop fuel clock attempt (S n) (iterate (pretty n) (attempt g) g)
      else g
  end.
