(* ===== verification/GovernorSpec.v ===== *)
(** * The execution governor: correctness

    The strategy only ever moves towards [Abort_]; the governed loop stops
    within the goal's iteration bound whatever the attempts report, and within
    six attempts when they all fail.  The last section is about the goal and the
    constraints. *)

From S2P Require Import Prelude RustStr Governor.
From Stdlib Require Import ZArith Lia Ascii.
From stdpp Require Import base list sets strings pretty.

(** Distance of a strategy from [Abort_]. *)
Definition strategy_rank (s : GovernorStrategy) : nat :=
  match s with
  | Initial => 6
  | Retry n => Z.to_nat (6 - n)
  | Alternative => 2
  | Escalate => 1
  | Abort_ => 0
  end.

Definition strategy_wf (s : GovernorStrategy) : Prop :=
  match s with Retry n => (1 ≤ n ≤ MAX_RETRIES)%Z | _ => True end.

Lemma next_strategy_wf b s : strategy_wf s → strategy_wf (next_strategy b s).
Proof.
  destruct s as [|n| | |], b; simpl; unfold MAX_RETRIES in *; try lia; try done.
  intros Hn. destruct (Z.ltb_spec n 3); simpl; [|done]. unfold MAX_RETRIES.
  rewrite as_u32_small; unfold u32_modulus; lia.
Qed.

Lemma next_strategy_rank b s :
  strategy_wf s → s ≠ Abort_ → strategy_rank (next_strategy b s) < strategy_rank s.
Proof.
  destruct s as [|n| | |], b; simpl; unfold MAX_RETRIES; try lia; try done.
  intros Hn _. destruct (Z.ltb_spec n 3); simpl; [|lia].
  rewrite as_u32_small; unfold u32_modulus; lia.
Qed.

Lemma strategy_rank_0 s : strategy_wf s → strategy_rank s = 0 → s = Abort_.
Proof. destruct s; simpl; unfold MAX_RETRIES; intros; try done; lia. Qed.

(** ** One iteration *)

Section governor.
Implicit Types (g : ExecutionGovernor) (r : report).

Definition recorded g : list AttemptRecord := State.attempts (state g).

(** The counters of a governor agree with its records. *)
Definition governor_wf g : Prop :=
  strategy_wf (strategy g) ∧
  attempts g = Z.of_nat (length (recorded g)) ∧
  (0 ≤ attempts g < u32_modulus)%Z ∧
  NoDup (State.discovered_constraints (state g)).

Definition room g : Prop := (attempts g + 1 < u32_modulus)%Z.

Lemma state_add_constraint_attempts c s : State.attempts (State.add_constraint c s) = State.attempts s.
Proof. done. Qed.

Lemma apply_report_attempts now r g :
  governor_wf g → room g →
  attempts (apply_report now r g) = (attempts g + 1)%Z ∧
  ∃ a, recorded (apply_report now r g) = recorded g ++ [a] ∧
    success a = negb (report_failed r) ∧ attempt_number a = (attempts g + 1)%Z ∧
    failure a = match r with FailedWith f => Some f | _ => None end.
Proof.
  intros (_ & Ha & Hr & _) Hroom. unfold room in Hroom.
  assert (as_u32 (attempts g + 1) = (attempts g + 1)%Z) as Hn
    by (rewrite as_u32_small; lia).
  assert (as_u32 (Z.of_nat (length (State.attempts (state g))) + 1) = (attempts g + 1)%Z) as Hn'
    by (rewrite Ha; fold (recorded g); rewrite as_u32_small; lia).
  destruct r as [ok what|f|res]; cbn -[as_u32 Z.add Z.of_nat]; [| |].
  - split; [done|]. eexists. split; [done|]. cbn -[as_u32 Z.add Z.of_nat].
    by rewrite negb_involutive.
  - unfold record_failure. destruct (learned_constraint f); cbn -[as_u32 Z.add Z.of_nat];
      (split; [done|]; eexists; split; [done|]; done).
  - split; [done|]. eexists. split; [done|]. done.
Qed.

Lemma apply_report_goal now r g : goal (apply_report now r g) = goal g.
Proof.
  destruct r; simpl; [done| |done]. unfold record_failure. by destruct (learned_constraint f).
Qed.

Lemma apply_report_strategy now r g :
  strategy (apply_report now r g) = strategy g.
Proof.
  destruct r; simpl; [done| |done]. unfold record_failure. by destruct (learned_constraint f).
Qed.

Lemma apply_report_start now r g :
  start_time_ms (apply_report now r g) = start_time_ms g.
Proof.
  destruct r; simpl; [done| |done]. unfold record_failure. by destruct (learned_constraint f).
Qed.

Lemma apply_report_complete now r g :
  State.complete (state (apply_report now r g)) =
    match r with Finished _ => true | _ => State.complete (state g) end.
Proof.
  destruct r; simpl; [done| |done]. unfold record_failure. by destruct (learned_constraint f).
Qed.

Lemma apply_report_discovered now r g :
  NoDup (State.discovered_constraints (state g)) →
  NoDup (State.discovered_constraints (state (apply_report now r g))).
Proof.
  destruct r; simpl; [done| |done]. unfold record_failure.
  destruct (learned_constraint f); simpl; auto with abigail.
Qed.

Lemma iterate_fields now r g :
  recorded (iterate now r g) = recorded (apply_report now r g) ∧
  attempts (iterate now r g) = attempts (apply_report now r g) ∧
  goal (iterate now r g) = goal g ∧ start_time_ms (iterate now r g) = start_time_ms g ∧
  state (iterate now r g) = state (apply_report now r g).
Proof.
  unfold iterate, advance_strategy, recorded.
  destruct (report_failed r); simpl; rewrite ?apply_report_goal, ?apply_report_start; done.
Qed.

Lemma iterate_strategy now r g :
  strategy (iterate now r g) =
    if report_failed r
    then next_strategy (failure_is_retryable (State.last_failure (state (apply_report now r g))))
           (strategy g)
    else strategy g.
Proof.
  unfold iterate. destruct (report_failed r); simpl; by rewrite apply_report_strategy.
Qed.

Lemma iterate_wf now r g :
  governor_wf g → room g → governor_wf (iterate now r g).
Proof.
  intros Hwf Hroom. destruct (apply_report_attempts now r g Hwf Hroom) as (Ha & a & Hrec & _).
  destruct (iterate_fields now r g) as (E1 & E2 & _ & _ & E5).
  destruct Hwf as (Hs & Hn & Hr & Hnd). split; [|split; [|split]].
  - rewrite iterate_strategy. destruct (report_failed r); [by apply next_strategy_wf|done].
  - rewrite E1, E2, Ha, Hrec, length_app, Hn. simpl. lia.
  - unfold room in Hroom. rewrite E2, Ha. lia.
  - rewrite E5. by apply apply_report_discovered.
Qed.

Lemma should_continue_inv now g :
  should_continue now g = true →
  State.complete (state g) = false ∧ strategy g ≠ Abort_ ∧
  (attempts g < max_iterations (goal g))%Z ∧ time_budget_exceeded now g = false.
Proof.
  unfold should_continue. destruct (State.complete _); [done|]. case_decide; [done|].
  destruct (Z.leb_spec (max_iterations (goal g)) (attempts g)); [done|].
  by intros ?%negb_true_iff.
Qed.
End governor.

(** ** The loop *)

Section loop.
Context (clock : nat → Z) (attempt : ExecutionGovernor → report).

Lemma should_continue_room now g :
  governor_wf g → (max_iterations (goal g) < u32_modulus)%Z →
  should_continue now g = true → room g.
Proof. intros _ Hm (_ & _ & ? & _)%should_continue_inv. unfold room. lia. Qed.

(** An invariant of the loop body holds at the exit. *)
Lemma governed_loop_preserves (P : ExecutionGovernor → Prop) fuel n g :
  (∀ g n, P g → should_continue (clock n) g = true → P (iterate (pretty n) (attempt g) g)) →
  P g → P (governed_loop fuel clock attempt n g).
Proof.
  intros Hstep. revert n g. induction fuel as [|fuel IH]; intros n g Hg; simpl; [done|].
  destruct (should_continue (clock n) g) eqn:Hc; [|done]. apply IH. by apply Hstep.
Qed.

Lemma governed_loop_stops fuel n g :
  governor_wf g → (max_iterations (goal g) < u32_modulus)%Z →
  attempts g = Z.of_nat n → (max_iterations (goal g) ≤ Z.of_nat (n + fuel))%Z →
  ∃ m, attempts (governed_loop fuel clock attempt n g) = Z.of_nat m ∧
    (m = n ∨ (Z.of_nat m ≤ max_iterations (goal g))%Z) ∧
    should_continue (clock m) (governed_loop fuel clock attempt n g) = false.
Proof.
  revert n g. induction fuel as [|fuel IH]; intros n g Hwf Hm Hn Hf; simpl.
  - exists n. split; [done|]. split; [by left|]. unfold should_continue.
    destruct (State.complete _); [done|]. case_decide; [done|].
    by rewrite (proj2 (Z.leb_le _ _)) by lia.
  - destruct (should_continue (clock n) g) eqn:Hc; [|exists n; auto].
    pose proof (should_continue_room _ _ Hwf Hm Hc) as Hroom.
    destruct (iterate_fields (pretty n) (attempt g) g) as (_ & Ha & Hg & _ & _).
    destruct (apply_report_attempts (pretty n) (attempt g) g Hwf Hroom) as [Ha' _].
    destruct (IH (S n) (iterate (pretty n) (attempt g) g)) as (m & Hm1 & Hm2 & Hm3).
    + by apply iterate_wf.
    + by rewrite Hg.
    + rewrite Ha, Ha', Hn. lia.
    + rewrite Hg. lia.
    + exists m. split; [done|]. split; [|done]. rewrite Hg in Hm2.
      apply should_continue_inv in Hc as (_ & _ & Hlt & _).
      destruct Hm2 as [->|?]; right; lia.
Qed.

Lemma new_wf now goal c : governor_wf (new now goal c).
Proof. repeat split; simpl; try done; lia || apply NoDup_nil_2. Qed.

Lemma loop_wf fuel n g :
  governor_wf g → (max_iterations (goal g) < u32_modulus)%Z →
  let g' := governed_loop fuel clock attempt n g in
  governor_wf g' ∧ goal g' = goal g ∧ start_time_ms g' = start_time_ms g.
Proof.
  intros Hwf Hm.
  apply (governed_loop_preserves (λ g', governor_wf g' ∧ goal g' = goal g ∧
    start_time_ms g' = start_time_ms g)); [|done].
  intros g1 n1 (Hwf1 & Hg1 & Hs1) Hc. rewrite <- Hg1 in Hm.
  destruct (iterate_fields (pretty n1) (attempt g1) g1) as (_ & _ & -> & -> & _).
  split; [|done]. apply iterate_wf; [done|]. by eapply should_continue_room.
Qed.

(** The governed loop terminates whatever the attempts report and the clock
    says: with as much fuel as the goal's [max_iterations] it ends in a state
    where [should_continue] is false; the number of attempts is within the
    bound, equals the number of records, and the strategy, the counters and
    the (duplicate-free) discovered constraints are well formed. *)
Theorem governed_loop_terminates now goal_ c :
  (0 ≤ max_iterations goal_ < u32_modulus)%Z →
  let g := governed_loop (Z.to_nat (max_iterations goal_)) clock attempt 0 (new now goal_ c) in
  governor_wf g ∧ (attempts g ≤ max_iterations goal_)%Z ∧
  ∃ n, attempts g = Z.of_nat n ∧ should_continue (clock n) g = false.
Proof.
  intros Hm g. destruct (loop_wf (Z.to_nat (max_iterations goal_)) 0 (new now goal_ c)) as [Hwf _];
    [apply new_wf|simpl; lia|].
  destruct (governed_loop_stops (Z.to_nat (max_iterations goal_)) 0 (new now goal_ c))
    as (m & Ha & Hle & Hs); [apply new_wf|simpl; lia..|].
  split; [done|]. split; [|by exists m]. unfold g. rewrite Ha. simpl in Hle.
  destruct Hle; subst; lia.
Qed.

(** ** Attempts that all fail *)

Context (always_fails : ∀ g, report_failed (attempt g) = true).

Definition failing (g : ExecutionGovernor) : Prop :=
  governor_wf g ∧ State.complete (state g) = false ∧
  Forall (λ a, success a = false) (recorded g) ∧
  (attempts g + Z.of_nat (strategy_rank (strategy g)) ≤ 6)%Z.

Lemma failing_iterate g n :
  failing g → should_continue (clock n) g = true → failing (iterate (pretty n) (attempt g) g).
Proof.
  intros (Hwf & Hc & Hf & Hr) (_ & Hab & _)%should_continue_inv.
  assert (room g) as Hroom by (unfold room, u32_modulus; lia).
  destruct (apply_report_attempts (pretty n) (attempt g) g Hwf Hroom)
    as (Ha & a & Hrec & Hsucc & _).
  destruct (iterate_fields (pretty n) (attempt g) g) as (E1 & E2 & _ & _ & E5).
  split; [by apply iterate_wf|]. split; [|split].
  - rewrite E5, apply_report_complete. pose proof (always_fails g) as Hfail.
    by destruct (attempt g).
  - rewrite E1, Hrec, Forall_app. split; [done|].
    apply Forall_singleton. by rewrite Hsucc, always_fails.
  - rewrite E2, Ha, iterate_strategy, always_fails.
    pose proof (next_strategy_rank (failure_is_retryable (State.last_failure
      (state (apply_report (pretty n) (attempt g) g)))) (strategy g)) as Hlt.
    destruct Hwf as [Hs _]. specialize (Hlt Hs Hab). lia.
Qed.

Lemma failing_result g : failing g → result_ g = strategy_result g.
Proof.
  intros (_ & Hc & Hf & _). unfold result_. rewrite Hc.
  assert (State.success_count (state g) = 0%Z) as ->; [|done].
  unfold State.success_count. replace (filter _ _) with (@nil AttemptRecord); [done|].
  symmetry. unfold recorded in Hf. induction Hf as [|a l Ha _ IH]; [done|].
  rewrite filter_cons, decide_False; [done|congruence].
Qed.

(** When every attempt fails, the governor makes at most six of them (the
    first, three retries, the alternative, the escalation), never reports
    success, and if neither the iteration bound nor the time budget is what
    stopped it, the result is [Aborted]. *)
Theorem failing_loop_aborts now goal_ c :
  (0 ≤ max_iterations goal_ < u32_modulus)%Z →
  let g := governed_loop (Z.to_nat (max_iterations goal_)) clock attempt 0 (new now goal_ c) in
  (attempts g ≤ 6)%Z ∧ is_success (result_ g) = false ∧
  ((attempts g < max_iterations goal_)%Z →
   time_budget_exceeded (clock (Z.to_nat (attempts g))) g = false →
   ∃ msg, result_ g = Aborted msg).
Proof.
  intros Hm g. assert (failing g) as Hf.
  { apply governed_loop_preserves; [intros; by apply failing_iterate|].
    split; [apply new_wf|]. split; [done|]. split; [constructor|]. simpl. lia. }
  pose proof (failing_result _ Hf) as Hres. destruct Hf as (Hwf & Hc & _ & Hr).
  destruct (loop_wf (Z.to_nat (max_iterations goal_)) 0 (new now goal_ c)) as (_ & Hg & _);
    [apply new_wf|simpl; lia|].
  destruct (governed_loop_stops (Z.to_nat (max_iterations goal_)) 0 (new now goal_ c))
    as (m & Ha & _ & Hs); [apply new_wf|simpl; lia..|].
  fold g in Hg, Ha, Hs. simpl in Hg. split; [lia|]. rewrite Hres.
  split; [unfold strategy_result; by destruct (strategy g)|].
  rewrite Ha, Nat2Z.id. intros Hlt Htime.
  unfold should_continue in Hs. rewrite Hc in Hs. case_decide as Hab.
  - unfold strategy_result. rewrite Hab. eauto.
  - rewrite Hg, Htime in Hs.
    destruct (Z.leb_spec (max_iterations goal_) (attempts g)); [lia|done].
Qed.
End loop.

(** ** Failures and strategies *)

(** After a structured failure the strategy is chosen by that failure, the
    latest one, whatever was recorded before: a failure that is not retryable
    ends the retries at once, a retryable one is retried up to [MAX_RETRIES]
    times; the lesson of a permission, authentication or not-found failure is in
    the constraints afterwards. *)
Theorem advance_after_failure uuid now f g :
  strategy (advance_strategy (record_failure uuid now f g)) = next_strategy (is_retryable f) (strategy g) ∧
  (is_retryable f = false → strategy g = Initial ∨ (∃ n, strategy g = Retry n) →
   strategy (advance_strategy (record_failure uuid now f g)) = Alternative) ∧
  (∀ c, learned_constraint f = Some c →
     c ∈ State.discovered_constraints (state (record_failure uuid now f g)) ∧
     c ∈ ConstraintStore.as_strings (constraints (record_failure uuid now f g)) ∧
     ConstraintStore.len (constraints (record_failure uuid now f g)) =
       S (ConstraintStore.len (constraints g))).
Proof.
  assert (strategy (advance_strategy (record_failure uuid now f g)) =
          next_strategy (is_retryable f) (strategy g)) as He.
  { unfold advance_strategy, record_failure, State.last_failure.
    destruct (learned_constraint f); simpl; by rewrite find_last_snoc. }
  split; [done|]. split.
  - intros Hr Hs. rewrite He, Hr. by destruct Hs as [->|[n ->]].
  - intros c Hc. unfold record_failure. rewrite Hc. simpl. split; [|split].
    + apply elem_of_push_unique. by left.
    + unfold ConstraintStore.as_strings. simpl. rewrite map_app. set_solver.
    + unfold ConstraintStore.len. simpl. rewrite length_app. simpl. lia.
Qed.

(** ** Goals and constraints *)

(** Planning from text fails exactly when the trimmed request is longer than
    200 bytes and byte 200 continues a multi-byte character: the slice panics. *)
Theorem plan_from_text_panics request :
  plan_from_text request = None ↔
  (200 < String.length (trim request)) ∧
  ∃ c s, str_drop 200 (trim request) = String c s ∧ is_continuation c = true.
Proof.
  unfold plan_from_text. generalize 200 as limit; intros limit.
  destruct (Nat.ltb_spec limit (String.length (trim request))) as [Hl|Hl];
    simpl; [|split; [done|intros [? _]; lia]].
  pose proof (slice_to_panics _ _ Hl) as Hp.
  destruct (slice_to limit (trim request)); simpl; [|by rewrite <- Hp].
  split; [done|]. intros [_ H%Hp]. done.
Qed.

(** The constraints survive a restart: a saved store is read back as it was,
    and a missing or unreadable file gives an empty store for the same path. *)
Theorem constraints_survive_restart
    (parse : string → option (list ConstraintStore.Constraint)) print read data_dir s :
  parse (print (ConstraintStore.constraints s)) = Some (ConstraintStore.constraints s) →
  ConstraintStore.file_path s = ConstraintStore.constraints_path data_dir →
  ConstraintStore.with_data_dir parse (ConstraintStore.save print s read) data_dir = s ∧
  ((read (ConstraintStore.constraints_path data_dir) ≫= parse) = None →
   ConstraintStore.with_data_dir parse read data_dir =
     ConstraintStore.mkConstraintStore [] (ConstraintStore.constraints_path data_dir)).
Proof.
  intros Hpp Hp. unfold ConstraintStore.with_data_dir, ConstraintStore.load.
  unfold ConstraintStore.save. rewrite Hp. split.
  - rewrite decide_True by done. simpl. rewrite Hpp. simpl. rewrite <- Hp. by destruct s.
  - destruct (read _) as [content|]; simpl; [|done]. by intros ->.
Qed.

(** ** Witnesses *)

Definition always_timeout (_ : ExecutionGovernor) : report := FailedWith (Timeout_ "op" 1 1).

Lemma governed_loop_terminates_witness :
  (attempts (governed_loop 10 (λ _, 0%Z) always_timeout 0
     (new 0 GoalFrame_default ConstraintStore.new)) ≤ 10)%Z.
Proof.
  apply (governed_loop_terminates (λ _, 0%Z) always_timeout 0 GoalFrame_default ConstraintStore.new).
  unfold u32_modulus. simpl. lia.
Defined.

Lemma failing_loop_aborts_witness :
  ∃ msg, result_ (governed_loop 10 (λ _, 0%Z) always_timeout 0
     (new 0 GoalFrame_default ConstraintStore.new)) = Aborted msg.
Proof.
  apply (failing_loop_aborts (λ _, 0%Z) always_timeout (λ _, eq_refl) 0 GoalFrame_default
    ConstraintStore.new); [unfold u32_modulus; simpl; lia|vm_compute; reflexivity..].
Defined.

Definition one_constraint : ConstraintStore.ConstraintStore :=
  ConstraintStore.mkConstraintStore [ConstraintStore.mkConstraint "id" "no network" "attempt #1" "t"]
    (ConstraintStore.constraints_path "dir").

Lemma constraints_survive_restart_witness :
  ConstraintStore.with_data_dir
    (λ x, if decide (x = "json") then Some (ConstraintStore.constraints one_constraint) else None)
    (ConstraintStore.save (λ _, "json") one_constraint (λ _, None)) "dir" = one_constraint.
Proof.
  apply (constraints_survive_restart
    (λ x, if decide (x = "json") then Some (ConstraintStore.constraints one_constraint) else None)
    (λ _, "json") (λ _, None) "dir" one_constraint); reflexivity.
Defined.

Example plan_panics_on_accents :
  plan_from_text (foldr String EmptyString (replicate 199 "a"%char) +:+
    String "195" (String "169" "")) = None.
Proof. vm_compute. reflexivity. Qed.
