(* ===== verification/Paths.v ===== *)
(** * Paths ([crates/abigail-core/src/path_guard.rs])

    A [Path] on Unix is the list of its [Component]s, as [Path::components]
    returns it: repeated separators and inner [.] are gone, a [RootDir] or a
    [CurDir] only comes first.  [PathBuf::push], [pop] and [starts_with] are
    the operations of the standard library on these lists.

    Then: [resolve_within_root] accepts exactly the paths that only descend, and what
    it returns lies under the root by exactly the given names; a trusted file
    name is exactly one segment; the two normalisations of the code agree; the
    policy's canonical form of a path is the normalised path on a file system
    without symbolic links.  The last theorems show what normalising before
    checking costs. *)

From S2P Require Import Prelude RustStr.
From Stdlib Require Import ZArith Lia Ascii.
From stdpp Require Import base list strings.

Inductive Component : Type :=
| RootDir | CurDir | ParentDir | Normal (name : string).

#[export] Instance Component_eq_dec : EqDecision Component.
Proof. solve_decision. Defined.

Notation path := (list Component).

(** ** The standard library *)

(** The segments between separators, empty ones included. *)
Fixpoint segments_from (seg : string) (s : string) : list string :=
  match s with
  | EmptyString => [seg]
  | String c s' =>
      if decide (c = "/"%char) then seg :: segments_from "" s'
      else segments_from (seg +:+ String c "") s'
  end.
Definition segments (s : string) : list string := segments_from "" s.

Definition component_of (seg : string) : option Component :=
  if decide (seg = "") then None
  else if decide (seg = ".") then None
  else if decide (seg = "..") then Some ParentDir
  else Some (Normal seg).

(** [Path::components]. *)
Definition components (s : string) : path :=
  let segs := segments s in
  match s with
  | String "/"%char _ => RootDir :: omap component_of segs
  | _ => match segs with
         | seg :: rest =>
             if decide (seg = ".") then CurDir :: omap component_of rest
             else omap component_of segs
         | [] => []
         end
  end.

Definition is_absolute (p : path) : bool :=
  match p with RootDir :: _ => true | _ => false end.

Definition push (p : path) (c : Component) : path :=
  match c with RootDir => [RootDir] | _ => p ++ [c] end.

(** [Path::join]. *)
Definition path_join (p q : path) : path :=
  if is_absolute q then q
  else match p with
       | [] => q
       | _ => p ++ filter (λ c, c ≠ CurDir) q
       end.

(** [PathBuf::pop] and [Path::parent]. *)
Definition parent (p : path) : option path :=
  match last p with
  | None | Some RootDir => None
  | Some _ => Some (removelast p)
  end.
Definition pop (p : path) : path := unwrap_or (parent p) p.

Definition file_name (p : path) : option string :=
  match last p with Some (Normal n) => Some n | _ => None end.

Definition path_starts_with (p q : path) : bool := bool_decide (q `prefix_of` p).

(** ** The guard *)

Definition normalize_step (out : path) (c : Component) : path :=
  match c with
  | CurDir => out
  | ParentDir => pop out
  | other => push out other
  end.

Definition normalize_path (p : path) : path := foldl normalize_step [] p.

Inductive PathError : Type :=
| MissingFileName | WrongFileName (found : string)
| MustBeRelative | Traversal | Rooted | EscapesRoot | NotASegment.

Definition ensure_expected_filename (p : path) (expected : string) : result unit PathError :=
  match file_name p with
  | None => Err MissingFileName
  | Some n => if decide (n = expected) then Ok tt else Err (WrongFileName n)
  end.

Fixpoint check_components (p : path) : result unit PathError :=
  match p with
  | [] => Ok tt
  | (CurDir | Normal _) :: p' => check_components p'
  | ParentDir :: _ => Err Traversal
  | RootDir :: _ => Err Rooted
  end.

Definition ensure_relative_no_traversal (p : path) : result unit PathError :=
  if is_absolute p then Err MustBeRelative else check_components p.

Definition ensure_path_within_root (root p : path) : result unit PathError :=
  if path_starts_with (normalize_path p) (normalize_path root) then Ok tt
  else Err EscapesRoot.

Open Scope rust_scope.

Definition resolve_within_root (root relative : path) : result path PathError :=
  let? _ := ensure_relative_no_traversal relative in
  let candidate := path_join root relative in
  let? _ := ensure_path_within_root root candidate in
  Ok candidate.

Definition ensure_simple_filename (expected : string) : result unit PathError :=
  match file_name (components expected) with
  | None => Err MissingFileName
  | Some n =>
      if bool_decide (n ≠ expected) || negb (length (components expected) =? 1)%nat
      then Err NotASegment else Ok tt
  end.

Definition trusted_file_path (root : path) (expected : string) : result path PathError :=
  let? _ := ensure_simple_filename expected in
  resolve_within_root root (components expected).

(** Files: [read] is the file system.  [write_string_atomic] and
    [create_dir_all] may fail ([ok]); then nothing is written. *)
Definition load_string_from_root (read : path → option string) (root : path) (expected : string)
  : result (option string) PathError :=
  let? p := trusted_file_path root expected in Ok (read p).

Definition write_string_to_root (ok : bool) (root : path) (expected content : string)
    (read : path → option string) : result (path → option string) PathError :=
  let? p := trusted_file_path root expected in
  Ok (if ok then λ p', if decide (p' = p) then Some content else read p' else read).

(** [normalize_agent_directory] of [crates/abigail-core/src/global_config.rs]. *)
Definition normalize_agent_directory (directory : path) : result path PathError :=
  let normalized := normalize_path directory in
  let? _ := ensure_relative_no_traversal normalized in
  match normalized with
  | [Normal first; Normal second] =>
      if decide (first = "identities") then Ok [Normal first; Normal second]
      else Err NotASegment
  | _ => Err NotASegment
  end.

(** ** The guard of the skill sandbox ([crates/abigail-skills/src/sandbox.rs]) *)

Module Sandbox.

Definition last_is_normal (p : path) : bool :=
  match last p with Some (Normal _) => true | _ => false end.

Definition normalize_step (out : path) (c : Component) : path :=
  match c with
  | CurDir => out
  | ParentDir => if last_is_normal out then pop out else out
  | other => push out other
  end.

Definition normalize_path (p : path) : path := foldl normalize_step [] p.

(** The file system as the policy uses it. *)
Record FileSystem : Type := mkFileSystem {
  exists_ : path → bool;
  canonicalize : path → option path;
  current_dir : option path;
}.

(** The walk from a missing path up to its nearest existing ancestor
    ([while !cursor.exists()]): each turn drops one component, so the length of
    the path is fuel enough. *)
Fixpoint ancestor (fs : FileSystem) (fuel : nat) (cursor : path) (suffix : list string)
  : option (path * list string) :=
  if exists_ fs cursor then Some (cursor, suffix)
  else match fuel with
  | O => None
  | S fuel =>
      name ← file_name cursor;
      up ← parent cursor;
      ancestor fs fuel up (suffix ++ [name])
  end.

Definition canonicalize_for_policy (fs : FileSystem) (p : path) : option path :=
  absolute ← (if is_absolute p then Some p else
                dir ← current_dir fs; Some (path_join dir p));
  let normalized := normalize_path absolute in
  if exists_ fs normalized then canonicalize fs normalized
  else
    '(cursor, suffix) ← ancestor fs (length normalized) normalized [];
    canonical ← canonicalize fs cursor;
    Some (foldl (λ acc part, push acc (Normal part)) canonical (rev suffix)).

Definition path_is_under (fs : FileSystem) (p allowed_prefix : string) : bool :=
  match canonicalize_for_policy fs (components p),
        canonicalize_for_policy fs (components allowed_prefix) with
  | Some policy_path, Some policy_prefix =>
      bool_decide (policy_path = policy_prefix) || path_starts_with policy_path policy_prefix
  | _, _ => false
  end.

End Sandbox.

(** ** Lemmas *)

(** What [normalize_path] produces: at most one root, then names. *)
Definition plain (p : path) : Prop :=
  ∃ names, p = map Normal names ∨ p = RootDir :: map Normal names.

Lemma pop_snoc p n : pop (p ++ [Normal n]) = p.
Proof. unfold pop, parent. rewrite last_snoc. simpl. apply removelast_last. Qed.

Lemma plain_pop p : plain p → plain (pop p).
Proof.
  intros [names H]. destruct names as [|n names _] using rev_ind.
  - destruct H as [->| ->]; exists []; [by left|by right].
  - rewrite map_app in H. simpl in H. exists names.
    destruct H as [->| ->]; [left; apply pop_snoc|right].
    change (RootDir :: map Normal names ++ [Normal n])
      with ((RootDir :: map Normal names) ++ [Normal n]). apply pop_snoc.
Qed.

Lemma plain_push p c : plain p → c ≠ ParentDir → c ≠ CurDir → plain (push p c).
Proof.
  intros [names H]. destruct c as [| | |n]; try done; intros _ _.
  - exists []. by right.
  - exists (names ++ [n]). rewrite map_app. destruct H as [->| ->]; [by left|by right].
Qed.

Lemma normalize_step_plain p c : plain p → plain (normalize_step p c).
Proof.
  intros Hp. destruct c; simpl; [|done|by apply plain_pop|].
  - exists []. by right.
  - by apply (plain_push p (Normal name)).
Qed.

Lemma foldl_plain q p : plain p → plain (foldl normalize_step p q).
Proof. revert p. induction q as [|c q IH]; intros p Hp; [done|]. by apply IH, normalize_step_plain. Qed.

Lemma normalize_plain p : plain (normalize_path p).
Proof. apply foldl_plain. exists []. by left. Qed.

(** Components that only descend. *)
Definition descending (p : path) : Prop := Forall (λ c, c = CurDir ∨ ∃ n, c = Normal n) p.

Lemma check_components_descending p : check_components p = Ok tt ↔ descending p.
Proof.
  unfold descending. induction p as [|c p IH]; simpl; [by split; [constructor|]|].
  rewrite Forall_cons, <- IH. destruct c; naive_solver.
Qed.

Lemma ensure_relative_iff p : ensure_relative_no_traversal p = Ok tt ↔ descending p.
Proof.
  unfold ensure_relative_no_traversal. rewrite <- check_components_descending.
  destruct p as [|[] p]; simpl; try done.
Qed.

Definition names_of (p : path) : path := filter (λ c, c ≠ CurDir) p.

Lemma foldl_descending q p :
  descending q → foldl normalize_step p q = p ++ names_of q.
Proof.
  unfold names_of. intros Hq. revert p.
  induction Hq as [|c q [->|[n ->]] _ IH]; intros p.
  - simpl. by rewrite app_nil_r.
  - rewrite filter_cons, decide_False by naive_solver. simpl. by rewrite IH.
  - rewrite filter_cons, decide_True by naive_solver.
    change (foldl normalize_step (p ++ [Normal n]) q = p ++ Normal n :: filter (λ c, c ≠ CurDir) q).
    by rewrite IH, <- app_assoc.
Qed.

Lemma names_of_descending q : descending q → names_of (names_of q) = names_of q ∧ descending (names_of q).
Proof.
  unfold names_of, descending. induction 1 as [|c q Hc Hq [IH1 IH2]]; [done|].
  rewrite filter_cons. case_decide; [|done]. rewrite filter_cons, decide_True by done.
  rewrite IH1. split; [done|]. by constructor.
Qed.

Lemma descending_relative q : descending q → is_absolute q = false.
Proof. destruct q as [|[] q]; try done. unfold descending. rewrite Forall_cons. naive_solver. Qed.

Lemma normalize_join root q :
  descending q → normalize_path (path_join root q) = normalize_path root ++ names_of q.
Proof.
  intros Hq. unfold path_join. rewrite descending_relative by done.
  destruct root as [|c root]; [by apply foldl_descending|].
  fold (names_of q). unfold normalize_path. rewrite foldl_app.
  destruct (names_of_descending q Hq) as [Hn Hd].
  by rewrite foldl_descending, Hn.
Qed.

(** ** Names *)

Lemma segments_from_slashless seg s :
  "/"%char ∉ str_chars s → segments_from seg s = [seg +:+ s].
Proof.
  revert seg. induction s as [|c s IH]; intros seg Hs; simpl; [by rewrite str_app_nil_r|].
  simpl in Hs. apply not_elem_of_cons in Hs as [Hc Hs]. rewrite decide_False by done.
  by rewrite IH, <- str_app_assoc by done.
Qed.

(** A name without separators is one component. *)
Lemma components_slashless s :
  "/"%char ∉ str_chars s → s ≠ "" → s ≠ "." → s ≠ ".." → components s = [Normal s].
Proof.
  intros Hs H0 H1 H2. unfold components, segments. rewrite segments_from_slashless by done.
  rewrite str_app_nil_l. assert (omap component_of [s] = [Normal s]) as Ho.
  { simpl. unfold component_of. by rewrite !decide_False by done. }
  destruct s as [|c s']; [done|].
  assert (c ≠ "/"%char) by (intros ->; apply Hs; by left).
  rewrite decide_False, Ho by done. by destruct c as [[] [] [] [] [] [] [] []].
Qed.

(** ** Correctness *)

Lemma resolve_descending root relative :
  descending relative →
  resolve_within_root root relative = Ok (path_join root relative) ∧
  normalize_path (path_join root relative) = normalize_path root ++ names_of relative.
Proof.
  intros Hd. unfold resolve_within_root.
  rewrite (proj2 (ensure_relative_iff relative) Hd). simpl.
  unfold ensure_path_within_root, path_starts_with. rewrite normalize_join by done.
  rewrite bool_decide_eq_true_2; [done|]. by eexists.
Qed.

(** [resolve_within_root] succeeds exactly on relative paths without [..];
    the result is the joined path, which normalises to the normalised root
    followed by the names of the relative path, nothing else: it never leaves
    the root. *)
Theorem resolve_within_root_spec root relative :
  (descending relative →
   resolve_within_root root relative = Ok (path_join root relative) ∧
   normalize_path (path_join root relative) = normalize_path root ++ names_of relative) ∧
  (¬ descending relative → ∃ e, resolve_within_root root relative = Err e).
Proof.
  split; [apply resolve_descending|]. intros Hd. unfold resolve_within_root.
  destruct (ensure_relative_no_traversal relative) as [[]|e] eqn:He; [|by exists e].
  by apply ensure_relative_iff in He.
Qed.

Lemma plain_descending_or p : plain p → is_absolute p = false → descending p.
Proof.
  intros [names [->| ->]]; [|done]. intros _. unfold descending.
  induction names; constructor; eauto.
Qed.

Lemma ensure_simple_iff expected :
  ensure_simple_filename expected = Ok tt ↔ components expected = [Normal expected].
Proof.
  unfold ensure_simple_filename, file_name. split.
  - destruct (components expected) as [|c [|c' l]] eqn:Hc; try done.
    + simpl. destruct c; try done. case_bool_decide; [done|]. simpl. intros _.
      by destruct (decide (name = expected)) as [->|].
    + destruct (last _) as [[]|]; try done. rewrite orb_true_r. done.
  - intros ->. simpl. by rewrite bool_decide_eq_false_2 by naive_solver.
Qed.

(** A trusted file path is given out exactly for names that are one path
    segment, and then it is that name right under the root. *)
Theorem trusted_file_path_spec root expected p :
  trusted_file_path root expected = Ok p ↔
  components expected = [Normal expected] ∧ p = path_join root [Normal expected] ∧
  normalize_path p = normalize_path root ++ [Normal expected].
Proof.
  assert (descending [Normal expected]) as Hd by (repeat constructor; eauto).
  unfold trusted_file_path. split.
  - destruct (ensure_simple_filename expected) as [[]|e] eqn:He; [|done]. simpl.
    apply ensure_simple_iff in He. rewrite He.
    destruct (resolve_descending root [Normal expected] Hd) as [-> Hn]. intros; by simplify_eq.
  - intros (Hc & -> & _). rewrite (proj2 (ensure_simple_iff expected) Hc). simpl. rewrite Hc.
    by destruct (resolve_descending root [Normal expected] Hd).
Qed.

(** ** Normalisation *)

Lemma plain_last_normal p : plain p → Sandbox.last_is_normal p = true ∨ pop p = p.
Proof.
  intros [names H]. destruct names as [|n names _] using rev_ind.
  - right. by destruct H as [->| ->].
  - left. rewrite map_app in H. simpl in H. unfold Sandbox.last_is_normal.
    destruct H as [->| ->]; [by rewrite last_snoc|].
    change (RootDir :: map Normal names ++ [Normal n])
      with ((RootDir :: map Normal names) ++ [Normal n]). by rewrite last_snoc.
Qed.

Lemma sandbox_step p c :
  plain p → Sandbox.normalize_step p c = normalize_step p c.
Proof.
  intros Hp. destruct c; try done. simpl.
  destruct (plain_last_normal p Hp) as [->| ->]; [done|]. by destruct (Sandbox.last_is_normal p).
Qed.

Lemma foldl_names names p :
  foldl normalize_step p (map Normal names) = p ++ map Normal names.
Proof.
  revert p. induction names as [|n names IH]; intros p; simpl; [by rewrite app_nil_r|].
  rewrite IH. by rewrite <- app_assoc.
Qed.

Lemma normalize_plain_id p : plain p → normalize_path p = p.
Proof.
  intros [names [->| ->]]; unfold normalize_path; simpl; by rewrite foldl_names.
Qed.

(** The two normalisations of the code (the path guard's and the skill
    sandbox's) compute the same path, which has no [.] or [..] left and is its
    own normalisation. *)
Theorem normalize_path_agree p :
  Sandbox.normalize_path p = normalize_path p ∧
  plain (normalize_path p) ∧ normalize_path (normalize_path p) = normalize_path p.
Proof.
  pose proof (normalize_plain p) as Hn. split; [|split; [done|by apply normalize_plain_id]].
  unfold Sandbox.normalize_path, normalize_path.
  assert (plain []) as Hp by (exists []; by left).
  clear Hn. revert Hp. generalize (@nil Component) as out. induction p as [|c p IH]; intros out Hp; [done|].
  simpl. rewrite sandbox_step by done. by apply IH, normalize_step_plain.
Qed.

(** ** The policy's canonical path *)

Section policy.
Context (fs : Sandbox.FileSystem).

(** A file system without symbolic links whose root exists. *)
Definition no_links : Prop :=
  Sandbox.exists_ fs [RootDir] = true ∧
  ∀ p, plain p → is_absolute p = true → Sandbox.exists_ fs p = true →
    Sandbox.canonicalize fs p = Some p.

Lemma push_names p names :
  foldl (λ acc part, push acc (Normal part)) p names = p ++ map Normal names.
Proof.
  revert p. induction names as [|n names IH]; intros p; simpl; [by rewrite app_nil_r|].
  rewrite IH. by rewrite <- app_assoc.
Qed.

Lemma ancestor_spec names fuel suffix :
  Sandbox.exists_ fs [RootDir] = true → length names ≤ fuel →
  ∃ pre post, names = pre ++ post ∧ Sandbox.exists_ fs (RootDir :: map Normal pre) = true ∧
    Sandbox.ancestor fs fuel (RootDir :: map Normal names) suffix =
      Some (RootDir :: map Normal pre, suffix ++ rev post).
Proof.
  intros Hroot. revert fuel suffix. induction names as [|n names IH] using rev_ind;
    intros fuel suffix Hf.
  - exists [], []. split; [done|]. split; [done|]. simpl.
    destruct fuel; simpl; rewrite Hroot, app_nil_r; done.
  - destruct (Sandbox.exists_ fs (RootDir :: map Normal (names ++ [n]))) eqn:He.
    { exists (names ++ [n]), []. split; [by rewrite app_nil_r|]. split; [done|].
      destruct fuel; cbn [Sandbox.ancestor]; rewrite He; simpl; by rewrite app_nil_r. }
    rewrite length_app in Hf. simpl in Hf. destruct fuel as [|fuel]; [lia|].
    cbn [Sandbox.ancestor]. rewrite He.
    assert (RootDir :: map Normal (names ++ [n]) = (RootDir :: map Normal names) ++ [Normal n]) as Heq
      by (rewrite map_app; done).
    unfold file_name, parent. rewrite Heq, !last_snoc. cbn [mbind option_bind].
    rewrite removelast_last.
    destruct (IH fuel (suffix ++ [n])) as (pre & post & -> & Hpre & Hanc); [lia|].
    exists pre, (post ++ [n]). split; [by rewrite <- app_assoc|]. split; [done|].
    rewrite Hanc. by rewrite rev_app_distr, <- app_assoc.
Qed.

(** On a file system without symbolic links the path the sandbox compares is
    the lexically normalised one, for existing and for missing targets alike;
    so a path counts as under an allowed prefix exactly when its normalised
    names extend the prefix's. *)
Theorem path_is_under_spec p q :
  no_links → is_absolute (components p) = true → is_absolute (components q) = true →
  Sandbox.path_is_under fs p q =
    path_starts_with (normalize_path (components p)) (normalize_path (components q)).
Proof.
  intros [Hroot Hcan] Hp Hq.
  assert (∀ c, is_absolute c = true → ∃ names, normalize_path c = RootDir :: map Normal names) as Habs.
  { intros c Hc. destruct c as [|[] c]; try done. unfold normalize_path. simpl.
    clear -c. assert (∃ names, [RootDir] = RootDir :: map Normal names) as Hex by (by exists []).
    revert Hex. generalize [RootDir] as out. induction c as [|x c IH]; intros out Hex; [done|].
    simpl. apply IH. destruct Hex as [names ->]. destruct x; simpl.
    - by exists [].
    - eauto.
    - destruct names as [|n names _] using rev_ind; [by exists []|]. exists names.
      rewrite map_app.
      change (RootDir :: map Normal names ++ map Normal [n])
        with ((RootDir :: map Normal names) ++ [Normal n]). apply pop_snoc.
    - exists (names ++ [name]). by rewrite map_app. }
  assert (∀ s, is_absolute (components s) = true →
    Sandbox.canonicalize_for_policy fs (components s) = Some (normalize_path (components s))) as Hc.
  { intros s Hs. unfold Sandbox.canonicalize_for_policy. rewrite Hs. cbn [mbind option_bind].
    destruct (normalize_path_agree (components s)) as [-> [Hplain _]].
    destruct (Habs _ Hs) as [names Hn]. rewrite Hn in *.
    destruct (Sandbox.exists_ fs (RootDir :: map Normal names)) eqn:He; [by apply Hcan|].
    destruct (ancestor_spec names (length (RootDir :: map Normal names)) [])
      as (pre & post & -> & Hpre & ->); [done|simpl; rewrite length_map; lia|].
    cbn [mbind option_bind]. rewrite Hcan; [|exists pre; by right|done..].
    cbn [mbind option_bind]. rewrite push_names. simpl. rewrite rev_involutive.
    by rewrite map_app. }
  unfold Sandbox.path_is_under. rewrite !Hc by done. unfold path_starts_with.
  case_bool_decide as Heq; [|done]. rewrite Heq. simpl. by rewrite bool_decide_eq_true_2.
Qed.
End policy.

(** ** Normalising before checking *)

(** With a relative root, a path that first climbs out of the working
    directory still counts as within the root: leading [..] components vanish in
    the normalisation. *)
Theorem parent_of_relative_root_accepted ups root q :
  is_absolute (normalize_path root) = false → descending q →
  ensure_path_within_root root (replicate ups ParentDir ++ path_join (normalize_path root) q) = Ok tt.
Proof.
  intros Hrel Hq. unfold ensure_path_within_root, path_starts_with.
  assert (normalize_path (replicate ups ParentDir ++ path_join (normalize_path root) q) =
    normalize_path root ++ names_of q) as ->.
  { assert (∀ p, normalize_path (replicate ups ParentDir ++ p) = normalize_path p) as ->.
    { intros p. unfold normalize_path. rewrite foldl_app. f_equal.
      induction ups as [|ups IH]; [done|]. exact IH. }
    rewrite normalize_join by done. f_equal. apply normalize_plain_id, normalize_plain. }
  rewrite bool_decide_eq_true_2; [done|]. by eexists.
Qed.

(** The traversal check of [normalize_agent_directory] never sees a [..]: a
    directory that climbs any number of levels before [identities/<id>] is
    accepted as if it did not. *)
Theorem agent_directory_traversal_accepted ups i :
  normalize_agent_directory (replicate ups ParentDir ++ [Normal "identities"; Normal i]) =
    Ok [Normal "identities"; Normal i].
Proof.
  unfold normalize_agent_directory.
  assert (normalize_path (replicate ups ParentDir ++ [Normal "identities"; Normal i]) =
    [Normal "identities"; Normal i]) as ->.
  { unfold normalize_path. rewrite foldl_app.
    assert (foldl normalize_step [] (replicate ups ParentDir) = []) as ->; [|done].
    induction ups as [|ups IH]; [done|]. exact IH. }
  simpl. done.
Qed.

(** ** Witnesses *)

Lemma path_is_under_spec_witness :
  let fs := Sandbox.mkFileSystem (λ p, bool_decide (p = [RootDir])) Some None in
  Sandbox.path_is_under fs "/data/x/../y" "/data" = true ∧
  Sandbox.path_is_under fs "/data/../etc" "/data" = false.
Proof.
  intros fs. assert (no_links fs) as Hn by (split; [done|]; intros; done).
  split; (etrans; [apply (path_is_under_spec fs _ _ Hn); reflexivity|vm_compute; reflexivity]).
Defined.

Lemma parent_of_relative_root_accepted_witness :
  ensure_path_within_root (components "data") (components "../data/x") = Ok tt.
Proof.
  apply (parent_of_relative_root_accepted 1 (components "data") [Normal "x"]);
    [reflexivity|apply Forall_singleton; eauto].
Defined.
