(* ===== verification/SkillPolicy.v ===== *)
(** * Skill permissions and the execution policy

    The permission types ([crates/abigail-skills/src/manifest.rs]), the signed
    allowlist and the risk rules ([policy.rs]) and the permission sandbox
    ([sandbox.rs]).  Base64 and Ed25519 are parameters: [b64_decode],
    [b64_encode], [key_from_bytes], [key_bytes], [sig_from_slice] and
    [verify_strict] stand for the crates' functions. *)

From S2P Require Import Prelude RustStr Paths.
From Stdlib Require Import ZArith Lia Ascii.
From stdpp Require Import base list sets strings gmap pretty.

Open Scope rust_scope.

(** ** Permissions *)

Inductive NetworkPermission : Type :=
| Domains (domains : list string) | NetFull | LocalOnly.

Inductive FileSystemPermission : Type :=
| Read (paths : list string) | Write (paths : list string) | FsFull.

Inductive MemoryPermission : Type :=
| ReadOnly | ReadWrite | Namespace (ns : string).

Inductive Permission : Type :=
| Network (np : NetworkPermission)
| FileSystem (fsp : FileSystemPermission)
| Memory (mp : MemoryPermission)
| Notifications | Clipboard | Microphone | Camera | ScreenCapture | ShellExecute
| SkillInteraction (skill : string).

(** [parameters], [returns] and [cost_estimate] of the descriptor take no part
    in a decision. *)
Record ToolDescriptor : Type := mkToolDescriptor {
  name : string;
  description : string;
  required_permissions : list Permission;
  autonomous : bool;
  requires_confirmation : bool;
}.

Inductive AutonomyProfile : Type := Strict | Balanced | DesktopOperator.
Definition allows_local_network_access (p : AutonomyProfile) : bool :=
  match p with DesktopOperator => true | _ => false end.

Record SignedSkillAllowlistEntry : Type := mkEntry {
  skill_id : string;
  signer : string;
  signature : string;
  source : string;
  added_at : string;
  active : bool;
}.

(** The fields of [AppConfig] the policy reads. *)
Record SkillConfig : Type := mkSkillConfig {
  trusted_skill_signers : list string;
  approved_skill_ids_cfg : list string;
  signed_skill_allowlist : list SignedSkillAllowlistEntry;
  autonomy_profile_cfg : AutonomyProfile;
}.

(** ** Risk *)

Inductive ToolRiskClass : Type := Ordinary | Sensitive | Irreversible.

#[export] Instance ToolRiskClass_eq_dec : EqDecision ToolRiskClass.
Proof. solve_decision. Defined.

Definition irreversible_needles : list string :=
  ["delete"; "remove"; "drop"; "wipe"; "truncate"; "reset"; "kill"; "destroy"; "purge"; "revoke"].

Definition is_irreversible_name (name : string) : bool :=
  existsb (contains (to_lowercase name)) irreversible_needles.

Definition ordinary_tools : list string :=
  ["run_command"; "write_file"; "mkdir"; "http_post"; "clipboard_write";
   "calendar_add_event"; "calendar_update_event"; "git_commit"].

Definition is_ordinary_desktop_tool (skill_id tool_name : string) : bool :=
  if bool_decide (skill_id = "com.abigail.skills.browser") || starts_with tool_name "browser_"
  then true
  else bool_decide (tool_name ∈ ordinary_tools).

Definition is_full_fs (p : Permission) : bool :=
  match p with FileSystem FsFull => true | _ => false end.

Definition classify_tool_risk (skill_id : string) (tool : ToolDescriptor) : ToolRiskClass :=
  if is_irreversible_name (name tool) || existsb is_full_fs (required_permissions tool)
  then Irreversible
  else if is_ordinary_desktop_tool skill_id (name tool) then Ordinary
  else if requires_confirmation tool then Sensitive
  else Ordinary.

Definition build_allowlist_payload (skill_id signer source : string) (active : bool) : string :=
  "abigail-signed-skill-allowlist-v1" +:+ nl +:+
  "skill_id=" +:+ skill_id +:+ nl +:+
  "signer=" +:+ signer +:+ nl +:+
  "source=" +:+ source +:+ nl +:+
  "active=" +:+ bool_to_string active.

Definition signed_allowlist_payload (e : SignedSkillAllowlistEntry) : string :=
  build_allowlist_payload (skill_id e) (signer e) (source e) (active e).

Definition is_external_skill (skill_id : string) : bool :=
  negb (starts_with skill_id "builtin." || starts_with skill_id "com.abigail.skills."
        || starts_with skill_id "skill.").

(** ** The policy *)

Section policy.
(** Base64 and Ed25519; byte arrays are strings. *)
Context {Key Sig : Type}.
Context (b64_decode : string → result string string) (b64_encode : string → string).
Context (key_from_bytes : string → result Key string) (key_bytes : Key → string).
Context (sig_from_slice : string → result Sig string) (verify : Key → string → Sig → bool).

Record SkillExecutionPolicy : Type := mkPolicy {
  approved_skill_ids : gset string;
  active_signed_entries : gmap string SignedSkillAllowlistEntry;
  trusted_signers : gmap string Key;
  strict_signed_external : bool;
  configuration_error : option string;
  autonomy_profile : AutonomyProfile;
}.

Definition default_policy : SkillExecutionPolicy :=
  mkPolicy ∅ ∅ ∅ false None Strict.

Definition decode_signer_key (raw : string) : result Key string :=
  let? decoded := map_err (λ e, "base64 decode failed: " +:+ e) (b64_decode raw) in
  if negb (String.length decoded =? 32)%nat then
    Err ("expected 32-byte Ed25519 public key, got " +:+ pretty (String.length decoded) +:+ " bytes")
  else key_from_bytes decoded.

Definition normalize_trusted_signer_key (raw : string) : result string string :=
  let trimmed := trim raw in
  if str_is_empty trimmed then Err "signer key cannot be empty"
  else let? verifying_key := decode_signer_key trimmed in
       Ok (b64_encode (key_bytes verifying_key)).

Definition invalid_signer (trimmed e : string) : string :=
  "Invalid trusted signer key '" +:+ trimmed +:+ "': " +:+ e.

(** The loop over the configured signers: it stops at the first bad key. *)
Fixpoint load_signers (signers : list string) (acc : gmap string Key)
  : gmap string Key * option string :=
  match signers with
  | [] => (acc, None)
  | s :: rest =>
      let trimmed := trim s in
      if str_is_empty trimmed then load_signers rest acc
      else match normalize_trusted_signer_key trimmed with
      | Ok canonical =>
          match decode_signer_key canonical with
          | Ok key => load_signers rest (<[canonical := key]> acc)
          | Err e => (acc, Some (invalid_signer trimmed e))
          end
      | Err e => (acc, Some (invalid_signer trimmed e))
      end
  end.

Definition insert_entry (m : gmap string SignedSkillAllowlistEntry)
    (e : SignedSkillAllowlistEntry) : gmap string SignedSkillAllowlistEntry :=
  <[skill_id e := e]> m.

Definition from_app_config (config : SkillConfig) : SkillExecutionPolicy :=
  let '(signers, configuration_error) := load_signers (trusted_skill_signers config) ∅ in
  {| approved_skill_ids :=
       list_to_set (filter (λ i, str_is_empty i = false)
                      (map trim (approved_skill_ids_cfg config)));
     active_signed_entries :=
       foldl insert_entry ∅ (filter (λ e, active e = true) (signed_skill_allowlist config));
     trusted_signers := signers;
     strict_signed_external := match trusted_skill_signers config with [] => false | _ => true end;
     configuration_error := configuration_error;
     autonomy_profile := autonomy_profile_cfg config |}.

Definition verify_active_signed_entry (p : SkillExecutionPolicy) (skill : string)
  : result bool string :=
  match active_signed_entries p !! skill with
  | None => Ok false
  | Some entry =>
      match trusted_signers p !! trim (signer entry) with
      | None => Err ("Skill '" +:+ skill +:+ "' is blocked: signed allowlist entry signer '" +:+
                     signer entry +:+ "' is not in trusted_skill_signers.")
      | Some verifying_key =>
          let? signature_bytes :=
            map_err (λ e, "Invalid base64 signature for '" +:+ skill +:+ "': " +:+ e)
              (b64_decode (trim (signature entry))) in
          let? signature :=
            map_err (λ e, "Invalid Ed25519 signature for '" +:+ skill +:+ "': " +:+ e)
              (sig_from_slice signature_bytes) in
          if verify verifying_key (signed_allowlist_payload entry) signature then Ok true
          else Err ("Skill '" +:+ skill +:+
                    "' is blocked: signed allowlist signature verification failed for signer '" +:+
                    signer entry +:+ "'.")
      end
  end.

Definition evaluate_activation (p : SkillExecutionPolicy) (skill : string)
  : result unit string :=
  match configuration_error p with
  | Some err => Err ("Skill policy configuration error: " +:+ err)
  | None =>
      let? has_valid_signed_entry := verify_active_signed_entry p skill in
      if strict_signed_external p && is_external_skill skill && negb has_valid_signed_entry
      then Err ("Skill '" +:+ skill +:+ "' is blocked: signed allowlist verification is required for external skills and no valid active entry was found.")
      else Ok tt
  end.

Definition evaluate_execution (p : SkillExecutionPolicy) (skill : string)
  : result unit string :=
  let? _ := evaluate_activation p skill in
  let? has_valid_signed_entry :=
    (match active_signed_entries p !! skill with
     | Some _ => verify_active_signed_entry p skill
     | None => Ok false
     end) in
  if negb (bool_decide (approved_skill_ids p = ∅))
     && negb (bool_decide (skill ∈ approved_skill_ids p))
     && negb has_valid_signed_entry
  then Err ("Skill '" +:+ skill +:+ "' is blocked: not in approved_skill_ids and no valid signed allowlist entry is active.")
  else Ok tt.

Definition requires_mentor_confirmation (p : SkillExecutionPolicy) (skill : string)
    (tool : ToolDescriptor) : bool :=
  let risk := classify_tool_risk skill tool in
  match autonomy_profile p with
  | Strict => requires_confirmation tool || bool_decide (risk ≠ Ordinary)
  | Balanced | DesktopOperator =>
      bool_decide (risk = Irreversible)
      || (requires_confirmation tool && negb (is_ordinary_desktop_tool skill (name tool)))
  end.
End policy.
Arguments SkillExecutionPolicy Key : clear implicits.

(** ** The sandbox *)

(** Domain allow-list match: exact or true subdomain only. *)
Definition is_dot (c : ascii) : bool := bool_decide (c = "."%char).

Definition domain_matches_allowed (domain allowed : string) : bool :=
  let domain := to_lowercase (trim_end_matches is_dot domain) in
  let allowed := to_lowercase (trim_end_matches is_dot allowed) in
  if str_is_empty domain || str_is_empty allowed then false
  else bool_decide (domain = allowed) || ends_with domain ("." +:+ allowed).

Inductive AuditAction : Type :=
| NetworkRequest (domain : string)
| FileRead (path : string)
| FileWrite (path : string)
| MemoryAccess (namespace : option string)
| OtherAction (what : string).

Record ResourceLimits : Type := mkLimits {
  max_memory_bytes : Z;
  max_cpu_ms : Z;
  max_concurrency : Z;
  network_bandwidth : option Z;
  storage_quota : Z;
}.

Definition default_limits : ResourceLimits :=
  mkLimits (256 * 1024 * 1024) 30000 10 None (100 * 1024 * 1024).

Section sandbox.
Context (fs : Sandbox.FileSystem).

(** [granted_permissions] is a set: only membership matters. *)
Record SkillSandbox : Type := mkSandbox {
  sandbox_skill : string;
  granted_permissions : list Permission;
  resource_limits : ResourceLimits;
  audit_log : list (AuditAction * bool);
}.

Definition new_sandbox (skill : string) (granted : list Permission) (limits : ResourceLimits)
  : SkillSandbox := mkSandbox skill granted limits [].

Definition grants_network (domain : string) (p : Permission) : bool :=
  match p with
  | Network NetFull => true
  | Network LocalOnly => bool_decide (domain = "localhost") || starts_with domain "127."
  | Network (Domains domains) => existsb (domain_matches_allowed domain) domains
  | _ => false
  end.

Definition grants_read (path : string) (p : Permission) : bool :=
  match p with
  | FileSystem FsFull => true
  | FileSystem (Read allowed) => existsb (Sandbox.path_is_under fs path) allowed
  | _ => false
  end.

Definition grants_write (path : string) (p : Permission) : bool :=
  match p with
  | FileSystem FsFull => true
  | FileSystem (Write allowed) => existsb (Sandbox.path_is_under fs path) allowed
  | _ => false
  end.

Definition grants_memory (namespace : option string) (p : Permission) : bool :=
  match p with
  | Memory ReadOnly | Memory ReadWrite => true
  | Memory (Namespace ns) => bool_decide (namespace = Some ns)
  | _ => false
  end.

Definition check_permission_inner (granted : list Permission) (action : AuditAction) : bool :=
  match action with
  | NetworkRequest domain => existsb (grants_network domain) granted
  | FileRead path => existsb (grants_read path) granted
  | FileWrite path => existsb (grants_write path) granted
  | MemoryAccess namespace => existsb (grants_memory namespace) granted
  | OtherAction _ => true
  end.

Definition check_permission (action : AuditAction) (s : SkillSandbox) : SkillSandbox * bool :=
  let allowed := check_permission_inner (granted_permissions s) action in
  (mkSandbox (sandbox_skill s) (granted_permissions s) (resource_limits s)
     (audit_log s ++ [(action, allowed)]), allowed).
End sandbox.
