(* ===== verification/SkillExecutor.v ===== *)
(** * The skill registry and executor

    [SkillRegistry] ([crates/abigail-skills/src/registry.rs]) and
    [SkillExecutor] ([executor.rs]).  A skill is code the executor only calls
    ([dyn Skill]): its manifest, its tools and what a call does are the fields
    of [Skill].  The clock, the semaphore and the redaction of secrets are
    arguments.  A poisoned lock of the registry is not modelled. *)

From S2P Require Import Prelude RustStr Paths SkillPolicy.
From Stdlib Require Import ZArith Lia Ascii.
From stdpp Require Import base list sets strings gmap pretty.

Open Scope rust_scope.

Inductive SkillError : Type :=
| NotFound (skill : string)
| InitFailed (msg : string)
| ToolFailed (msg : string)
| PermissionDenied (msg : string)
| SkillTimeout (msg : string)
| MissingSecret (msg : string)
| ConfirmationRequired (msg : string)
| InvalidArguments (msg : string).

Record JobContext : Type := mkJobContext {
  depth : Z;
  job_correlation_id : option string;
}.

Record ExecutionContext : Type := mkExecutionContext {
  request_id : string;
  user_id : option string;
  job_depth : option Z;
  correlation_id : option string;
}.

Record SecretDescriptor : Type := mkSecretDescriptor {
  secret_name : string;
  secret_description : string;
  secret_required : bool;
}.

Record SkillManifest : Type := mkManifest {
  manifest_id : string;
  manifest_name : string;
  capability_types : list string;
  permissions : list Permission;
  secrets : list SecretDescriptor;
}.

Record MissingSkillSecret : Type := mkMissing {
  missing_skill_id : string;
  missing_skill_name : string;
  missing_secret_name : string;
  missing_secret_description : string;
  missing_required : bool;
}.

Section executor.
Context {Key Sig : Type}.
Context (b64_decode : string → result string string).
Context (sig_from_slice : string → result Sig string) (verify : Key → string → Sig → bool).
Context (fs : Sandbox.FileSystem).
Context {Params Output : Type}.

Notation Policy := (SkillExecutionPolicy Key).
Notation evaluate_activation := (evaluate_activation b64_decode sig_from_slice verify).
Notation evaluate_execution := (evaluate_execution b64_decode sig_from_slice verify).

(** [timeout(.., skill.execute_tool(..)).await]. *)
Inductive tool_outcome : Type :=
| Completed (out : Output) (ok : bool)
| ToolErr (e : SkillError) (shown : string)
| TimedOut.

Record Skill : Type := mkSkill {
  manifest : SkillManifest;
  tools : list ToolDescriptor;
  execute_tool : string → Params → ExecutionContext → tool_outcome;
}.

(** ** The registry *)

Record SkillRegistry : Type := mkRegistry {
  skills : gmap string Skill;
  vault : option (gset string);
  execution_policy : Policy;
}.

Definition new_registry : SkillRegistry := mkRegistry ∅ None (default_policy (Key:=Key)).
Definition with_secrets (v : gset string) : SkillRegistry :=
  mkRegistry ∅ (Some v) (default_policy (Key:=Key)).

Definition set_execution_policy (p : Policy) (r : SkillRegistry) : SkillRegistry :=
  mkRegistry (skills r) (vault r) p.

Definition enforce_skill_activation (r : SkillRegistry) (skill : string) : result unit SkillError :=
  map_err PermissionDenied (evaluate_activation (execution_policy r) skill).

Definition enforce_skill_execution (r : SkillRegistry) (skill : string) : result unit SkillError :=
  map_err PermissionDenied (evaluate_execution (execution_policy r) skill).

Definition register (skill_id : string) (s : Skill) (r : SkillRegistry)
  : SkillRegistry * result unit SkillError :=
  match enforce_skill_activation r (manifest_id (manifest s)) with
  | Err e => (r, Err e)
  | Ok _ => (mkRegistry (<[skill_id := s]> (skills r)) (vault r) (execution_policy r), Ok tt)
  end.

Definition unregister (skill_id : string) (r : SkillRegistry) : SkillRegistry :=
  mkRegistry (delete skill_id (skills r)) (vault r) (execution_policy r).

Definition list_skills (r : SkillRegistry) : list SkillManifest :=
  map (λ p, manifest p.2) (map_to_list (skills r)).

Definition find_by_capability (capability : string) (r : SkillRegistry) : list string :=
  map fst (filter (λ p, capability ∈ capability_types (manifest p.2)) (map_to_list (skills r))).

Definition get_skill (skill_id : string) (r : SkillRegistry) : result Skill SkillError :=
  ok_or (skills r !! skill_id) (NotFound skill_id).

Definition check_missing_secrets (m : SkillManifest) (r : SkillRegistry)
  : list MissingSkillSecret :=
  match vault r with
  | None => []
  | Some stored =>
      map (λ s, mkMissing (manifest_id m) (manifest_name m) (secret_name s)
                  (secret_description s) (secret_required s))
        (filter (λ s, secret_name s ∉ stored) (secrets m))
  end.

(** ** The executor *)

Record ExecutionAuditRecord : Type := mkAudit {
  audit_skill_id : string;
  audit_tool_name : string;
  audit_request_id : string;
  params_redacted : string;
  audit_success : bool;
  audit_error : option string;
  duration_ms : Z;
}.

(** What an execution does to the outside: the calls into skills and the audit
    events it hands to the broker. *)
Record World : Type := mkWorld {
  invocations : list (string * string * Params * ExecutionContext);
  audits : list ExecutionAuditRecord;
}.

Definition first_or_unknown (l : list string) : string :=
  match l with x :: _ => x | [] => "unknown" end.

Definition audit_action_of (p : Permission) : option AuditAction :=
  match p with
  | Network NetFull => Some (NetworkRequest "any")
  | Network LocalOnly => Some (NetworkRequest "localhost")
  | Network (Domains domains) => Some (NetworkRequest (first_or_unknown domains))
  | FileSystem (Read paths) => Some (FileRead (first_or_unknown paths))
  | FileSystem (Write paths) => Some (FileWrite (first_or_unknown paths))
  | FileSystem FsFull => Some (FileRead "/")
  | _ => None
  end.

Definition audit_actions_for_tool (required : list Permission) : list AuditAction :=
  omap audit_action_of required.

(** [for action in &actions { if !sandbox.check_permission(action) { return .. } }] *)
Fixpoint check_all (actions : list AuditAction) (s : SkillSandbox) : SkillSandbox * bool :=
  match actions with
  | [] => (s, true)
  | a :: rest =>
      let '(s, allowed) := check_permission fs a s in
      if allowed then check_all rest s else (s, false)
  end.

(** What the environment supplies to one call. *)
Record CallEnv : Type := mkCallEnv {
  has_broker : bool;
  default_timeout_ms : Z;
  limiter_open : bool;
  new_request_id : string;
  elapsed_ms : Z;
  redacted : Params → string;
  set_latency : Z → Output → Output;
}.

Definition publish_audit (env : CallEnv) (record : ExecutionAuditRecord) (w : World) : World :=
  if has_broker env then mkWorld (invocations w) (audits w ++ [record]) else w.

Definition find_tool (tool_name : string) (s : Skill) : option ToolDescriptor :=
  head (filter (λ t, name t = tool_name) (tools s)).

Definition AUDIT_PARAMS_MAX_CHARS : nat := 800.

Definition call_context (env : CallEnv) (job : option JobContext) : ExecutionContext :=
  mkExecutionContext (new_request_id env) None (depth <$> job) (job ≫= job_correlation_id).

Definition timeout_message (env : CallEnv) : string :=
  "exceeded timeout (" +:+ pretty (default_timeout_ms env) +:+ " ms)".

(** The call itself, once every gate has passed. *)
Definition invoke (env : CallEnv) (s : Skill) (skill_id tool_name : string) (params : Params)
    (job : option JobContext) : M World SkillError Output := λ w,
  let context := call_context env job in
  let audit ok err :=
    mkAudit skill_id tool_name (new_request_id env)
      (str_take_chars AUDIT_PARAMS_MAX_CHARS (redacted env params)) ok err (elapsed_ms env) in
  let w := mkWorld (invocations w ++ [(skill_id, tool_name, params, context)]) (audits w) in
  match execute_tool s tool_name params context with
  | Completed out ok =>
      (publish_audit env (audit ok None) w, Ok (set_latency env (elapsed_ms env) out))
  | ToolErr e shown => (publish_audit env (audit false (Some shown)) w, Err e)
  | TimedOut =>
      (publish_audit env (audit false (Some (timeout_message env))) w,
       Err (ToolFailed ("Tool " +:+ tool_name +:+ " " +:+ timeout_message env)))
  end.

Definition execute_full (env : CallEnv) (r : SkillRegistry) (skill_id tool_name : string)
    (params : Params) (confirmed : bool) (job : option JobContext) : M World SkillError Output :=
  lift_result (enforce_skill_execution r skill_id) ;;
  s ← lift_result (get_skill skill_id r);
  tool ← lift_result (ok_or (find_tool tool_name s)
                        (ToolFailed ("Unknown tool: " +:+ tool_name)));
  ensure (negb (requires_mentor_confirmation (execution_policy r) skill_id tool && negb confirmed))
    (ConfirmationRequired ("Tool '" +:+ tool_name +:+
       "' requires explicit mentor confirmation. Re-run with mentor_confirmed: true.")) ;;
  let sandbox := new_sandbox (manifest_id (manifest s)) (permissions (manifest s)) default_limits in
  ensure (check_all (audit_actions_for_tool (required_permissions tool)) sandbox).2
    (PermissionDenied ("Tool " +:+ tool_name +:+
       " requires permission that is not granted for this skill")) ;;
  ensure (limiter_open env) (ToolFailed "concurrency limiter closed") ;;
  invoke env s skill_id tool_name params job.

Definition execute (env : CallEnv) r skill_id tool_name params :=
  execute_full env r skill_id tool_name params false None.
Definition execute_in_job_context (env : CallEnv) r skill_id tool_name params job :=
  execute_full env r skill_id tool_name params false job.
Definition execute_with_confirmation (env : CallEnv) r skill_id tool_name params confirmed :=
  execute_full env r skill_id tool_name params confirmed None.
End executor.
