(* ===== verification/SkillSpec.v ===== *)
(** * Skills: correctness of the policy and of the executor

    The policy accepts a skill exactly when its signed entry verifies under a
    trusted key, or nothing asks for one; the signed text determines the entry;
    confirmation is demanded for every irreversible tool; the executor calls
    into a skill only behind all its gates.  The last section shows how much of
    a tool's required permissions the gate looks at. *)

From S2P Require Import Prelude RustStr Paths SkillPolicy SkillExecutor.
From Stdlib Require Import ZArith Lia Ascii.
From stdpp Require Import base list sets strings gmap pretty.

Section policy.
Context {Key Sig : Type}.
Context (b64_decode : string → result string string) (b64_encode : string → string).
Context (key_from_bytes : string → result Key string) (key_bytes : Key → string).
Context (sig_from_slice : string → result Sig string) (verify : Key → string → Sig → bool).

Notation Policy := (SkillExecutionPolicy Key).
Notation from_app_config := (from_app_config b64_decode b64_encode key_from_bytes key_bytes).
Notation decode_signer_key := (decode_signer_key b64_decode key_from_bytes).
Notation normalize_trusted_signer_key :=
  (normalize_trusted_signer_key b64_decode b64_encode key_from_bytes key_bytes).
Notation load_signers := (load_signers b64_decode b64_encode key_from_bytes key_bytes).
Notation verify_entry := (verify_active_signed_entry b64_decode sig_from_slice verify).
Notation evaluate_activation := (evaluate_activation b64_decode sig_from_slice verify).
Notation evaluate_execution := (evaluate_execution b64_decode sig_from_slice verify).
Implicit Types p : Policy.

(** [key] signed the entry: the base64 text decodes to a signature of the
    entry's payload under the key. *)
Definition signed_by (key : Key) (e : SignedSkillAllowlistEntry) : Prop :=
  ∃ bytes sig, b64_decode (trim (signature e)) = Ok bytes ∧ sig_from_slice bytes = Ok sig ∧
    verify key (signed_allowlist_payload e) sig = true.

(** The policy holds an active entry for the skill, signed by a trusted key. *)
Definition validly_signed p (skill : string) : Prop :=
  ∃ e key, active_signed_entries p !! skill = Some e ∧
    trusted_signers p !! trim (signer e) = Some key ∧ signed_by key e.

Lemma verify_entry_inv p skill o :
  verify_entry p skill = o →
  match o with
  | Ok true => validly_signed p skill
  | Ok false => active_signed_entries p !! skill = None
  | Err _ => is_Some (active_signed_entries p !! skill) ∧ ¬ validly_signed p skill
  end.
Proof.
  unfold verify_active_signed_entry, validly_signed, signed_by.
  destruct (active_signed_entries p !! skill) as [e|] eqn:He; [|by intros <-].
  destruct (trusted_signers p !! trim (signer e)) as [key|] eqn:Hk; simpl.
  2: { intros <-. split; [eauto|]. intros (e' & key' & ? & ? & _). congruence. }
  destruct (b64_decode (trim (signature e))) as [bytes|err] eqn:Hb; simpl.
  2: { intros <-. split; [eauto|]. intros (e' & key' & ? & ? & b' & s' & ? & _). congruence. }
  destruct (sig_from_slice bytes) as [sig|err] eqn:Hs; simpl.
  2: { intros <-. split; [eauto|]. intros (e' & key' & ? & ? & b' & s' & ? & ? & _). congruence. }
  destruct (verify key _ sig) eqn:Hv; intros <-; [by eauto 10|].
  split; [eauto|]. intros (e' & key' & ? & ? & b' & s' & ? & ? & ?). congruence.
Qed.

(** What an accepted execution rests on. *)
Definition accepted p (skill : string) : Prop :=
  configuration_error p = None ∧
  (validly_signed p skill ∨
   (active_signed_entries p !! skill = None ∧
    (strict_signed_external p = true → is_external_skill skill = false) ∧
    (approved_skill_ids p = ∅ ∨ skill ∈ approved_skill_ids p))).

Lemma evaluate_execution_accepted p skill :
  evaluate_execution p skill = Ok tt ↔ accepted p skill.
Proof.
  unfold accepted.
  unfold SkillPolicy.evaluate_execution, SkillPolicy.evaluate_activation.
  destruct (configuration_error p) as [err|]; simpl; [naive_solver|].
  destruct (verify_entry p skill) as [[]|e] eqn:Hv; apply verify_entry_inv in Hv as Hv'; simpl.
  - destruct Hv' as (e & key & He & Hk & Hs). rewrite andb_false_r. simpl. rewrite He. simpl.
    rewrite andb_false_r. split; [|done]. intros _. split; [done|]. left. by exists e, key.
  - rewrite Hv', andb_true_r. simpl.
    assert (¬ validly_signed p skill) as Hns by (intros (e & key & He & _); congruence).
    destruct (strict_signed_external p), (is_external_skill skill); simpl;
      repeat case_bool_decide; simpl; naive_solver.
  - destruct Hv' as [[e' He'] Hns]. split; [done|]. intros [_ [?|(Hn & _)]]; [done|congruence].
Qed.

(** The execution check accepts a skill exactly when the configuration is
    sound and either an active entry for it verifies under a trusted key, or it
    has no active entry, strict mode does not demand one (off, or a built-in
    skill) and the legacy approval list is empty or names it.  In particular
    an active entry that does not verify denies even a built-in skill. *)
Theorem evaluate_execution_iff p skill :
  evaluate_execution p skill = Ok tt ↔
  configuration_error p = None ∧
  (validly_signed p skill ∨
   (active_signed_entries p !! skill = None ∧
    (strict_signed_external p = true → is_external_skill skill = false) ∧
    (approved_skill_ids p = ∅ ∨ skill ∈ approved_skill_ids p))).
Proof.
  apply evaluate_execution_accepted.
Qed.

(** ** From the configuration *)

Lemma foldl_insert_entry l m skill e :
  foldl insert_entry m l !! skill = Some e →
  m !! skill = Some e ∨ (e ∈ l ∧ skill_id e = skill).
Proof.
  revert m. induction l as [|e' l IH]; intros m; simpl; [auto|].
  intros [H|[H ?]]%IH; [|right; set_solver].
  unfold insert_entry in H. apply lookup_insert_Some in H as [[<- <-]|[_ ?]]; [right|by left].
  set_solver.
Qed.

Lemma load_signers_lookup signers acc m err canonical key :
  load_signers signers acc = (m, err) → m !! canonical = Some key →
  acc !! canonical = Some key ∨
  ∃ s, s ∈ signers ∧ normalize_trusted_signer_key (trim s) = Ok canonical ∧
    decode_signer_key canonical = Ok key.
Proof.
  revert acc. induction signers as [|s signers IH]; intros acc; simpl.
  { intros ? ?. simplify_eq. auto. }
  destruct (str_is_empty (trim s)).
  { intros Hl Hm. destruct (IH acc Hl Hm) as [?|(s' & ? & ?)]; [auto|].
    right. exists s'. set_solver. }
  destruct (normalize_trusted_signer_key (trim s)) as [c|e] eqn:Hn.
  2: { intros ? ?. simplify_eq. auto. }
  destruct (decode_signer_key c) as [k|e] eqn:Hd.
  2: { intros ? ?. simplify_eq. auto. }
  intros Hl Hm. destruct (IH _ Hl Hm) as [H|(s' & ? & ?)].
  - apply lookup_insert_Some in H as [[<- <-]|[_ ?]]; [right|by left].
    exists s. set_solver.
  - right. exists s'. set_solver.
Qed.

(** C15: with trusted signers configured, an external skill is executed only on
    the strength of an active allowlist entry of the configuration, for that
    very skill id, whose signature verifies under a key decoded from one of
    the configured signers. *)
Theorem external_skill_needs_configured_signature config skill :
  trusted_skill_signers config ≠ [] → is_external_skill skill = true →
  evaluate_execution (from_app_config config) skill = Ok tt →
  ∃ e key s, e ∈ signed_skill_allowlist config ∧ active e = true ∧ skill_id e = skill ∧
    s ∈ trusted_skill_signers config ∧ decode_signer_key (trim (signer e)) = Ok key ∧
    normalize_trusted_signer_key (trim s) = Ok (trim (signer e)) ∧ signed_by key e.
Proof.
  intros Hne Hext [Hc [Hv|(_ & Hstrict & _)]]%evaluate_execution_accepted.
  - destruct Hv as (e & key & He & Hk & Hs). unfold SkillPolicy.from_app_config in He, Hk.
    destruct (load_signers (trusted_skill_signers config) ∅) as [m err] eqn:Hl. simpl in He, Hk.
    apply foldl_insert_entry in He as [He|[[Ha He]%list_elem_of_filter Hid]];
      [by rewrite lookup_empty in He|].
    apply (load_signers_lookup _ _ _ _ _ _ Hl) in Hk as [Hk|(s & Hs1 & Hs2 & Hs3)];
      [by rewrite lookup_empty in Hk|].
    exists e, key, s. auto 10.
  - unfold SkillPolicy.from_app_config in Hstrict.
    destruct (load_signers (trusted_skill_signers config) ∅) as [m err]. simpl in Hstrict.
    destruct (trusted_skill_signers config); [done|]. specialize (Hstrict eq_refl). congruence.
Qed.

Lemma load_signers_error signers acc s e :
  s ∈ signers → str_is_empty (trim s) = false → normalize_trusted_signer_key (trim s) = Err e →
  is_Some (load_signers signers acc).2.
Proof.
  intros Hin Hne Herr. revert acc. induction signers as [|s' signers IH]; intros acc; simpl.
  { by apply elem_of_nil in Hin. }
  apply elem_of_cons in Hin as [<-|Hin].
  - rewrite Hne, Herr. simpl. eauto.
  - destruct (str_is_empty (trim s')); [by apply IH|].
    destruct (normalize_trusted_signer_key (trim s')); [|simpl; eauto].
    destruct (decode_signer_key a); [by apply IH|simpl; eauto].
Qed.

(** The policy fails closed: one configured signer key that does not decode
    blocks the activation and the execution of every skill, built-in ones
    included. *)
Theorem bad_signer_blocks_everything config s e skill :
  s ∈ trusted_skill_signers config → str_is_empty (trim s) = false →
  normalize_trusted_signer_key (trim s) = Err e →
  (∃ msg, evaluate_activation (from_app_config config) skill = Err msg) ∧
  (∃ msg, evaluate_execution (from_app_config config) skill = Err msg).
Proof.
  intros Hin Hne Herr. pose proof (load_signers_error _ ∅ _ _ Hin Hne Herr) as [msg Hmsg].
  assert (configuration_error (from_app_config config) = Some msg) as Hc.
  { unfold SkillPolicy.from_app_config.
    destruct (load_signers (trusted_skill_signers config) ∅) as [m err]. done. }
  unfold SkillPolicy.evaluate_execution, SkillPolicy.evaluate_activation. rewrite Hc. simpl. eauto.
Qed.
End policy.

(** ** The signed text *)

(** The signed text determines the entry: for fields without newlines, equal
    payloads mean equal skill id, signer, source and active flag, so that a
    signature for one entry is worth nothing for another. *)
Theorem allowlist_payload_injective skill signer source active skill' signer' source' active' :
  newline ∉ str_chars skill → newline ∉ str_chars skill' →
  newline ∉ str_chars signer → newline ∉ str_chars signer' →
  newline ∉ str_chars source → newline ∉ str_chars source' →
  build_allowlist_payload skill signer source active =
    build_allowlist_payload skill' signer' source' active' →
  skill = skill' ∧ signer = signer' ∧ source = source' ∧ active = active'.
Proof.
  intros H1 H1' H2 H2' H3 H3'. unfold build_allowlist_payload.
  intros H%str_app_inj_l%str_app_inj_l%str_app_inj_l.
  apply split_at_newline in H as [-> H%str_app_inj_l]; [|done..].
  apply split_at_newline in H as [-> H%str_app_inj_l]; [|done..].
  apply split_at_newline in H as [-> H%str_app_inj_l]; [|done..].
  destruct active, active'; done || (vm_compute in H; discriminate).
Qed.

(** ** Confirmation *)

Lemma irreversible_class skill tool :
  is_irreversible_name (name tool) = true → classify_tool_risk skill tool = Irreversible.
Proof. unfold classify_tool_risk. by intros ->. Qed.

Lemma irreversible_confirmed {Key} (p : SkillExecutionPolicy Key) skill tool :
  classify_tool_risk skill tool = Irreversible → requires_mentor_confirmation p skill tool = true.
Proof.
  intros Hc. unfold requires_mentor_confirmation. rewrite Hc.
  destruct (autonomy_profile p); [|done..].
  rewrite bool_decide_eq_true_2 by done. by rewrite orb_true_r.
Qed.

(** Whatever the autonomy profile, a tool with an irreversible name (delete,
    wipe, revoke, ...) or with full file-system access needs the mentor's
    confirmation; and what needs it under a relaxed profile needs it under the
    strict one. *)
Theorem confirmation_rules {Key} (p : SkillExecutionPolicy Key) skill tool :
  (is_irreversible_name (name tool) = true ∨ FileSystem FsFull ∈ required_permissions tool →
   requires_mentor_confirmation p skill tool = true) ∧
  (requires_mentor_confirmation p skill tool = true →
   requires_mentor_confirmation (mkPolicy (approved_skill_ids p) (active_signed_entries p)
     (trusted_signers p) (strict_signed_external p) (configuration_error p) Strict) skill tool = true).
Proof.
  split.
  - intros H. apply irreversible_confirmed. unfold classify_tool_risk.
    destruct H as [->|H]; [done|].
    assert (existsb is_full_fs (required_permissions tool) = true) as ->
      by (apply existsb_elem; eauto). by rewrite orb_true_r.
  - unfold requires_mentor_confirmation. simpl.
    destruct (autonomy_profile p); [done|..]; intros [H|[-> _]%andb_prop]%orb_prop; try done;
      apply bool_decide_eq_true in H as ->; by rewrite orb_true_r.
Qed.

(** ** The sandbox *)

(** A domain matches an allowed one exactly when, case and trailing dots
    aside, it is that domain or a true subdomain of it ([x.allowed]); empty
    names match nothing. *)
Theorem domain_matches_allowed_spec domain allowed :
  let d := to_lowercase (trim_end_matches is_dot domain) in
  let a := to_lowercase (trim_end_matches is_dot allowed) in
  domain_matches_allowed domain allowed = true ↔
  d ≠ "" ∧ a ≠ "" ∧ (d = a ∨ ∃ sub, d = sub +:+ "." +:+ a).
Proof.
  intros d a. unfold domain_matches_allowed. cbv zeta. fold d a.
  destruct d as [|c d'] eqn:Hd; [simpl; naive_solver|].
  destruct a as [|c' a'] eqn:Ha; [simpl; naive_solver|]. simpl str_is_empty. cbn [orb].
  rewrite orb_true_iff, bool_decide_eq_true, ends_with_iff. naive_solver.
Qed.

Section gate.
Context (fs : Sandbox.FileSystem).

Lemma check_all_iff actions s :
  (check_all fs actions s).2 = true ↔
  ∀ a, a ∈ actions → check_permission_inner fs (granted_permissions s) a = true.
Proof.
  revert s. induction actions as [|a actions IH]; intros s; simpl.
  { split; [|done]. intros _ a Ha. by apply elem_of_nil in Ha. }
  destruct (check_permission_inner fs (granted_permissions s) a) eqn:Ha; simpl.
  - rewrite IH. simpl. split; [|set_solver]. intros H a' [->|?]%elem_of_cons; auto.
  - split; [done|]. intros H. rewrite <- Ha. apply H. by left.
Qed.

(** The permission gate of [execute_full], as a function of what the tool
    requires and what the skill is granted. *)
Definition gate_passes (required granted : list Permission) : bool :=
  (check_all fs (audit_actions_for_tool required) (new_sandbox "" granted default_limits)).2.

Lemma gate_passes_iff required granted :
  gate_passes required granted = true ↔
  ∀ p a, p ∈ required → audit_action_of p = Some a → check_permission_inner fs granted a = true.
Proof.
  unfold gate_passes. rewrite check_all_iff. simpl.
  unfold audit_actions_for_tool. setoid_rewrite list_elem_of_omap. naive_solver.
Qed.

(** The gate looks at the first domain (or path) of a required permission
    only, never at the grant of shell, clipboard or memory access, and takes
    full file-system access for reading the root: a tool may require any
    further domains and devices, and full access, of a skill that is granted
    one domain and reading below [/]. *)
Theorem gate_checks_first_only domain others devices granted :
  (∀ p, p ∈ devices → audit_action_of p = None) →
  (∃ ds, Network (Domains ds) ∈ granted ∧ domain ∈ ds) →
  to_lowercase (trim_end_matches is_dot domain) ≠ "" →
  Sandbox.path_is_under fs "/" "/" = true → FileSystem (Read ["/"]) ∈ granted →
  gate_passes ([Network (Domains (domain :: others)); FileSystem FsFull] ++ devices) granted = true.
Proof.
  intros Hdev (ds & Hds & Hd) Hne Hroot Hread. apply gate_passes_iff.
  intros p a Hp Ha. apply elem_of_app in Hp as [Hp|Hp]; [|by rewrite Hdev in Ha].
  apply elem_of_cons in Hp as [->|Hp%list_elem_of_singleton]; [|subst p];
    simpl in Ha; simplify_eq; simpl.
  - apply existsb_elem. eexists. split; [exact Hds|]. simpl. apply existsb_elem.
    exists domain. split; [done|]. apply domain_matches_allowed_spec. auto.
  - apply existsb_elem. eexists. split; [exact Hread|]. simpl. by rewrite Hroot.
Qed.

(** What the gate does look at is denied by default: with nothing granted, a
    tool that requires any network or file-system permission is refused. *)
Theorem gate_denies_by_default required :
  (∃ p, p ∈ required ∧ match p with Network _ | FileSystem _ => True | _ => False end) →
  gate_passes required [] = false.
Proof.
  intros (p & Hp & Hk). apply not_true_iff_false. rewrite gate_passes_iff. intros H.
  destruct p as [[]|[]| | | | | | | |]; try done; by specialize (H _ _ Hp eq_refl).
Qed.
End gate.

(** ** The executor *)

Section executor.
Context {Key Sig Params Output : Type}.
Context (b64_decode : string → result string string).
Context (sig_from_slice : string → result Sig string) (verify : Key → string → Sig → bool).
Context (fs : Sandbox.FileSystem).

Notation Registry := (SkillRegistry (Key:=Key) (Params:=Params) (Output:=Output)).
Notation Env := (CallEnv (Params:=Params) (Output:=Output)).
Notation execute_full := (execute_full b64_decode sig_from_slice verify fs).
Implicit Types (r : Registry) (env : Env).

(** Everything that must hold for a call to go through. *)
Definition admitted_call env r (skill_id tool_name : string) (confirmed : bool) : Prop :=
  ∃ s t, skills r !! skill_id = Some s ∧ find_tool tool_name s = Some t ∧
    evaluate_execution b64_decode sig_from_slice verify (execution_policy r) skill_id = Ok tt ∧
    (requires_mentor_confirmation (execution_policy r) skill_id t = true → confirmed = true) ∧
    gate_passes fs (required_permissions t) (permissions (manifest s)) = true ∧
    limiter_open env = true.

Lemma invoke_effect env s skill_id tool_name params job w w' o :
  invoke env s skill_id tool_name params job w = (w', o) →
  invocations w' = invocations w ++ [(skill_id, tool_name, params, call_context env job)] ∧
  (if has_broker env then ∃ a, audits w' = audits w ++ [a] ∧ audit_skill_id a = skill_id ∧
     audit_tool_name a = tool_name ∧ audit_request_id a = new_request_id env
   else audits w' = audits w).
Proof.
  unfold invoke, publish_audit. destruct (execute_tool _ _ _ _), (has_broker env);
    intros; simplify_eq/=; (split; [done|]); [eexists; eauto|done|eexists; eauto|done|eexists; eauto|done].
Qed.

Lemma lift_ensure_inv {A} b (e : SkillError) (k : unit → M (World (Params:=Params)) SkillError A) w w' o :
  (ensure b e ≫= k) w = (w', o) →
  (b = true ∧ k tt w = (w', o)) ∨ (b = false ∧ w' = w ∧ o = Err e).
Proof.
  unfold ensure. destruct b; [left|right].
  - done.
  - unfold mbind, M_bind, fail in *. by simplify_eq.
Qed.

Lemma lift_inv {A B} (x : result A SkillError) (k : A → M (World (Params:=Params)) SkillError B) w w' o :
  (lift_result x ≫= k) w = (w', o) →
  (∃ a, x = Ok a ∧ k a w = (w', o)) ∨ (∃ e, x = Err e ∧ w' = w ∧ o = Err e).
Proof. unfold mbind, M_bind, lift_result. destruct x; intros; simplify_eq; eauto. Qed.

Lemma gate_of_manifest (m : SkillManifest) required :
  (check_all fs (audit_actions_for_tool required)
     (new_sandbox (manifest_id m) (permissions m) default_limits)).2 =
  gate_passes fs required (permissions m).
Proof.
  unfold gate_passes. apply eq_true_iff_eq. by rewrite !check_all_iff.
Qed.

Lemma execute_full_cases env r skill_id tool_name params confirmed job w w' o :
  execute_full env r skill_id tool_name params confirmed job w = (w', o) →
  (admitted_call env r skill_id tool_name confirmed ∧
   invocations w' = invocations w ++ [(skill_id, tool_name, params, call_context env job)] ∧
   (if has_broker env then ∃ a, audits w' = audits w ++ [a] ∧ audit_skill_id a = skill_id ∧
      audit_tool_name a = tool_name ∧ audit_request_id a = new_request_id env
    else audits w' = audits w)) ∨
  (¬ admitted_call env r skill_id tool_name confirmed ∧ w' = w ∧ ∃ e, o = Err e).
Proof.
  unfold SkillExecutor.execute_full, enforce_skill_execution, get_skill. intros H.
  apply lift_inv in H as [([] & Hpol & H)|(e & Hpol & -> & ->)].
  2: { right. split; [|eauto]. intros (s & t & _ & _ & He & _). by rewrite He in Hpol. }
  apply lift_inv in H as [(s & Hs & H)|(e & Hs & -> & ->)].
  2: { right. split; [|eauto]. intros (s & t & He & _). by rewrite He in Hs. }
  apply lift_inv in H as [(t & Ht & H)|(e & Ht & -> & ->)].
  2: { right. split; [|eauto]. intros (s' & t & He & Hf & _).
       rewrite He in Hs. simplify_eq/=. by rewrite Hf in Ht. }
  assert (skills r !! skill_id = Some s) as Hs' by (destruct (skills r !! skill_id); by simplify_eq/=).
  assert (find_tool tool_name s = Some t) as Ht' by (destruct (find_tool tool_name s); by simplify_eq/=).
  apply lift_ensure_inv in H as [[Hc H]|(Hc & -> & ->)].
  2: { right. split; [|eauto]. intros (s' & t' & ? & ? & _ & Hr & _). simplify_eq.
       apply negb_false_iff, andb_prop in Hc as [Hc Hn%negb_true_iff]. apply Hr in Hc. congruence. }
  rewrite gate_of_manifest in H.
  apply lift_ensure_inv in H as [[Hg H]|(Hg & -> & ->)].
  2: { right. split; [|eauto]. intros (s' & t' & ? & ? & _ & _ & ? & _). simplify_eq. congruence. }
  apply lift_ensure_inv in H as [[Hl H]|(Hl & -> & ->)].
  2: { right. split; [|eauto]. intros (s' & t' & _ & _ & _ & _ & _ & ?). congruence. }
  left. split; [|by eapply invoke_effect].
  exists s, t. split; [done|]. split; [done|]. split; [|split; [|done]].
  - unfold map_err in Hpol. destruct (evaluate_execution _ _ _ _ _) as [[]|]; by simplify_eq.
  - intros Hr. rewrite Hr in Hc. by destruct confirmed.
Qed.

(** The context a tool must be given: the identifier of this call, no user, and the
    depth and the correlation id of the job it is part of, if it is part of one. *)
Definition context_of_job env (job : option JobContext) (c : ExecutionContext) : Prop :=
  request_id c = new_request_id env ∧ user_id c = None ∧
  match job with
  | Some j => job_depth c = Some (depth j) ∧ correlation_id c = job_correlation_id j
  | None => job_depth c = None ∧ correlation_id c = None
  end.

Lemma call_context_of_job env job : context_of_job env job (call_context env job).
Proof. by destruct job. Qed.

(** C8: the executor calls into a skill only behind all its gates: the policy
    accepts the skill, the skill and the tool exist, a required confirmation
    was given, the permissions pass and the limiter is open; then the tool is
    called exactly once, with a context that carries the depth and the correlation
    id of the job, if there is one, and, when the executor has a broker, audited
    once under the identifier of the call (without a broker nothing is audited).
    Otherwise the call is an error and nothing happened. *)
Theorem execute_full_gated env r skill_id tool_name params confirmed job w w' o :
  execute_full env r skill_id tool_name params confirmed job w = (w', o) →
  (admitted_call env r skill_id tool_name confirmed ∧
   (∃ c, context_of_job env job c ∧
      invocations w' = invocations w ++ [(skill_id, tool_name, params, c)]) ∧
   (has_broker env = true →
      ∃ a, audits w' = audits w ++ [a] ∧ audit_skill_id a = skill_id ∧
        audit_tool_name a = tool_name ∧ audit_request_id a = new_request_id env) ∧
   (has_broker env = false → audits w' = audits w)) ∨
  (¬ admitted_call env r skill_id tool_name confirmed ∧ w' = w ∧ ∃ e, o = Err e).
Proof.
  intros [(Ha & Hi & Hau)|?]%execute_full_cases; [left|by right].
  split; [done|]. split; [|by destruct (has_broker env)].
  exists (call_context env job). split; [apply call_context_of_job|done].
Qed.

(** No job and no chat turn runs a tool with an irreversible name: without
    an explicit confirmation, [execute] and [execute_in_job_context] return an
    error and call nothing, under every policy. *)
Theorem irreversible_tool_never_unconfirmed env r skill_id tool_name params job w :
  is_irreversible_name tool_name = true →
  (∃ e, execute b64_decode sig_from_slice verify fs env r skill_id tool_name params w = (w, Err e)) ∧
  (∃ e, execute_in_job_context b64_decode sig_from_slice verify fs env r skill_id tool_name params job w
     = (w, Err e)).
Proof.
  intros Hn.
  assert (∀ j w' o, execute_full env r skill_id tool_name params false j w = (w', o) →
    w' = w ∧ ∃ e, o = Err e) as Hno.
  { intros j w' o [[(s & t & _ & Ht & _ & Hc & _) _]|(_ & ? & ?)]%execute_full_cases; [|done].
    exfalso. assert (name t = tool_name) as Hname.
    { unfold find_tool in Ht. destruct (filter _ _) as [|t' l] eqn:Hf; simplify_eq/=.
      assert (t ∈ t :: l) as Hin by left. rewrite <- Hf in Hin.
      by apply list_elem_of_filter in Hin as [? _]. }
    rewrite <- Hname in Hn.
    apply (irreversible_class skill_id) in Hn.
    apply (irreversible_confirmed (execution_policy r)) in Hn. by apply Hc in Hn. }
  unfold execute, execute_in_job_context. split.
  - destruct (execute_full env r skill_id tool_name params false None w) as [w' o] eqn:H.
    apply Hno in H as [-> [e ->]]. eauto.
  - destruct (execute_full env r skill_id tool_name params false job w) as [w' o] eqn:H.
    apply Hno in H as [-> [e ->]]. eauto.
Qed.
End executor.

(** ** Witnesses *)

(** A signature scheme that appends the message to the key, and byte strings
    that are their own base64. *)
Module Toy.

Definition b64 (s : string) : result string string := Ok s.
Definition sign (key msg sig : string) : bool := bool_decide (sig = key +:+ msg).
Definition key : string := "0123456789abcdef0123456789abcdef".

Definition entry : SignedSkillAllowlistEntry :=
  mkEntry "acme.mail" key (key +:+ build_allowlist_payload "acme.mail" key "hub" true) "hub" "t" true.

Definition config : SkillConfig := mkSkillConfig [key] [] [entry] Strict.
Definition policy : SkillExecutionPolicy string := from_app_config b64 id b64 id config.

Definition fs : Sandbox.FileSystem := Sandbox.mkFileSystem (λ _, true) Some None.

Definition tool (name : string) : ToolDescriptor := mkToolDescriptor name "" [] true false.

Definition skill : Skill (Params:=unit) (Output:=unit) :=
  mkSkill (mkManifest "acme.mail" "Mail" [] [] []) [tool "send"; tool "delete_mail"]
    (λ _ _ _, Completed tt true).

Definition registry : SkillRegistry (Key:=string) (Params:=unit) (Output:=unit) :=
  mkRegistry (<["acme.mail" := skill]> ∅) None policy.

Definition env : CallEnv (Params:=unit) (Output:=unit) :=
  mkCallEnv true 30000 true "req" 5 (λ _, "{}") (λ _ o, o).

End Toy.

Lemma external_skill_needs_configured_signature_witness :
  ∃ e, e ∈ signed_skill_allowlist Toy.config ∧ skill_id e = "acme.mail".
Proof.
  destruct (external_skill_needs_configured_signature Toy.b64 id Toy.b64 id Toy.b64 Toy.sign
    Toy.config "acme.mail") as (e & key & s & ? & _ & ? & _);
    [done|reflexivity|vm_compute; reflexivity|by exists e].
Defined.

Lemma bad_signer_blocks_everything_witness :
  ∃ msg, evaluate_execution Toy.b64 Toy.b64 Toy.sign
    (from_app_config Toy.b64 id Toy.b64 id (mkSkillConfig ["short"] [] [] Strict)) "builtin.files" = Err msg.
Proof.
  eapply (bad_signer_blocks_everything Toy.b64 id Toy.b64 id Toy.b64 Toy.sign
    (mkSkillConfig ["short"] [] [] Strict) "short"); [by left|reflexivity|vm_compute; reflexivity].
Defined.

Lemma allowlist_payload_injective_witness :
  build_allowlist_payload "acme.mail" "k" "hub" true =
    signed_allowlist_payload (mkEntry "acme.mail" "k" "sig" "hub" "now" true) ∧
  skill_id (mkEntry "acme.mail" "k" "sig" "hub" "now" true) = "acme.mail".
Proof.
  split; [reflexivity|].
  apply (allowlist_payload_injective _ "k" "hub" true "acme.mail" "k" "hub" true);
    [decide_closed..|reflexivity].
Defined.

Lemma gate_checks_first_only_witness :
  gate_passes Toy.fs
    [Network (Domains ["api.acme.com"; "evil.example"]); FileSystem FsFull; ShellExecute]
    [Network (Domains ["api.acme.com"]); FileSystem (Read ["/"])] = true.
Proof.
  apply (gate_checks_first_only Toy.fs "api.acme.com" ["evil.example"] [ShellExecute]).
  - by intros p ->%list_elem_of_singleton.
  - exists ["api.acme.com"]. split; [by left|by left].
  - done.
  - reflexivity.
  - right. by left.
Defined.

Lemma gate_denies_by_default_witness :
  gate_passes Toy.fs [ShellExecute; FileSystem (Write ["/tmp"])] [] = false.
Proof.
  apply (gate_denies_by_default Toy.fs). exists (FileSystem (Write ["/tmp"])).
  split; [right; by left|done].
Defined.

Lemma execute_full_gated_witness :
  ∃ w' c, execute_in_job_context Toy.b64 Toy.b64 Toy.sign Toy.fs Toy.env Toy.registry "acme.mail" "send"
      tt (Some (mkJobContext 2 (Some "corr"))) (mkWorld [] []) = (w', Ok tt) ∧
    invocations w' = [("acme.mail", "send", tt, c)] ∧ job_depth c = Some 2%Z ∧
    correlation_id c = Some "corr" ∧ length (audits w') = 1.
Proof.
  destruct (execute_in_job_context Toy.b64 Toy.b64 Toy.sign Toy.fs Toy.env Toy.registry "acme.mail" "send"
      tt (Some (mkJobContext 2 (Some "corr"))) (mkWorld [] [])) as [w' o] eqn:H.
  pose proof H as H2. vm_compute in H2.
  apply (execute_full_gated Toy.b64 Toy.b64 Toy.sign Toy.fs) in H
    as [(_ & (c & (_ & _ & Hd & Hc) & Hi) & Ha & _)|(_ & _ & e & ->)].
  - exists w', c. split; [by simplify_eq|]. split; [exact Hi|]. split; [exact Hd|]. split; [exact Hc|].
    destruct (Ha eq_refl) as (a & -> & _). reflexivity.
  - exfalso. by simplify_eq.
Defined.

Lemma irreversible_tool_never_unconfirmed_witness :
  ∃ e, execute Toy.b64 Toy.b64 Toy.sign Toy.fs Toy.env Toy.registry "acme.mail" "delete_mail" tt
    (mkWorld [] []) = (mkWorld [] [], Err e).
Proof.
  apply (irreversible_tool_never_unconfirmed Toy.b64 Toy.b64 Toy.sign Toy.fs Toy.env Toy.registry
    "acme.mail" "delete_mail" tt None (mkWorld [] [])). reflexivity.
Defined.
