(* ===== verification/Runner.v ===== *)
(** * Running queued jobs
    What the Entity daemon does with the queue: the choice of a provider
    ([crates/entity-daemon/src/capability_matcher.rs]), the execution of one job
    ([subagent_runner.rs]) and the scheduler's loop with its recurring templates
    ([job_scheduler.rs]).  A delegated execution (a tool call or a conversation
    with a model, under its timeout) is an argument that says how it ended; what its
    tools do to the queue meanwhile comes between [claim] and [finish].  The
    cron library and the formats of dates are parameters. *)

From S2P Require Import Prelude RustStr JobTypes RecordStore JobQueue SkillExecutor.
From Stdlib Require Import ZArith Lia.
From stdpp Require Import base list strings gmap fin_maps relations pretty.

(** ** Capability to provider *)

Module Matcher.

Record CapabilityRoute : Type := mkRoute {
  route_provider : string;
  route_model : option string;
  route_mode : ExecutionMode;
}.

Record CapabilityMatcher : Type := mkMatcher {
  default_provider : string;
  routes : gmap string CapabilityRoute;
}.

Record CapabilitySelection : Type := mkSelection {
  provider : string;
  model_hint : option string;
  capability_label : string;
  execution_mode : ExecutionMode;
}.

Definition new (default_provider : string) : CapabilityMatcher :=
  mkMatcher default_provider
    (<["transcription" := mkRoute "openai" (Some "whisper-1") Direct]>
      (<["video_generation" := mkRoute "openai" (Some "sora") Direct]>
        (<["image_generation" := mkRoute "openai" (Some "dall-e-3") Direct]> ∅))).

(** [ego_provider] is the router's. *)
Definition from_router (ego_provider : option string) : CapabilityMatcher :=
  new (unwrap_or ego_provider "local").

Definition set_route (capability : string) (r : CapabilityRoute) (m : CapabilityMatcher)
  : CapabilityMatcher := mkMatcher (default_provider m) (<[capability := r]> (routes m)).

Definition with_search_provider (provider : string) (model : option string) (m : CapabilityMatcher)
  : CapabilityMatcher :=
  mkMatcher (default_provider m) (<["search" := mkRoute provider model Mediated]> (routes m)).

Definition select (capability : RequiredCapability) (m : CapabilityMatcher) : CapabilitySelection :=
  let key := Capability.as_str capability in
  match routes m !! key with
  | Some r => mkSelection (route_provider r) (route_model r) key (route_mode r)
  | None => mkSelection (default_provider m) None key Mediated
  end.

End Matcher.

(** ** One job *)

(** How a delegated execution under a timeout ended. *)
Inductive Outcome (A : Type) : Type :=
| Returned (a : A)
| Errored (e : string)
| TimedOut.
Arguments Returned {A} a.
Arguments Errored {A} e.
Arguments TimedOut {A}.

Definition is_claim_race (err : string) : bool :=
  contains (to_lowercase err) "not in queued state".

Section runner.
Context {Value T : Type} `{RecordStore T (JobRecord Value)}.
(** [Value::as_object], and the text of [{"success": .., "data": ..}]. *)
Context (as_object : Value → option (gmap string Value)).
Context (result_json : bool → option Value → string).

Notation Job := (JobRecord Value).
Notation Q := (M (JobQueue T) string).
Notation ToolCall :=
  (string → string → gmap string Value → JobContext → Outcome (bool * option Value)).

Definition job_context (job : Job) : JobContext :=
  mkJobContext (JobTypes.job_depth job)
    (match job_parent_correlation_id job with Some c => Some c | None => Some (job_id job) end).

(** The closure of [filter_tools_for_job]. *)
Definition is_allowed (allowed : list string) (tool : string) : bool :=
  match split_once tool "::" with
  | Some (skill, _) => existsb (λ i, bool_decide (i = skill)) allowed
  | None => false
  end.

(** The tools a job's agent is offered, by their qualified names. *)
Definition filter_tools_for_job (all_tools : list string) (job : Job) : list string :=
  match job_allowed_skill_ids job with
  | [] => all_tools
  | allowed => filter (is_allowed allowed) all_tools
  end.

(** [let _ = call]: the outcome is dropped. *)
Definition ignore {A} (m : Q A) : Q unit := λ q, ((m q).1, Ok tt).

Definition no_direct_tool_call : string :=
  "Direct execution requested but no direct_tool_call specified".

Definition over_budget (timeout_ms : Z) : string :=
  "Job exceeded time budget (" +:+ pretty timeout_ms +:+ " ms)".

(** [call] is the executor's [execute_in_job_context], under the timeout: skill,
    tool, parameters and context to the [success] and the [data] of the output. *)
Definition run_direct (job : Job) (timeout_ms : Z) (call : ToolCall) (now : string) : Q unit :=
  match job_direct_tool_call job with
  | None => ignore (mark_failed (job_id job) no_direct_tool_call 0 now)
  | Some dtc =>
      let values := match as_object (JobTypes.params dtc) with Some obj => obj | None => ∅ end in
      match call (JobTypes.skill_id dtc) (JobTypes.tool_name dtc) values (job_context job) with
      | Returned (success, data) =>
          ignore (mark_completed (job_id job) (result_json success data) 1 now)
      | Errored err =>
          ignore (mark_failed (job_id job) ("Direct skill execution failed: " +:+ err) 0 now)
      | TimedOut => ignore (mark_failed (job_id job) (over_budget timeout_ms) 0 now)
      end
  end.

(** [loop] is the tool-use loop: the content and the number of steps of its
    trace, if it has one. *)
Definition run_mediated (job : Job) (timeout_ms : Z)
    (loop : JobContext → Outcome (string * option nat)) (now : string) : Q unit :=
  match loop (job_context job) with
  | Returned (content, steps) =>
      let turns := match steps with Some n => as_u32 (Z.of_nat n) | None => 1%Z end in
      ignore (mark_completed (job_id job) content (Z.max turns 1) now)
  | Errored err =>
      ignore (mark_failed (job_id job) ("Sub-agent execution failed: " +:+ err) 0 now)
  | TimedOut => ignore (mark_failed (job_id job) (over_budget timeout_ms) 0 now)
  end.

(** The first half of [run_job]: the claim; [false] when it was lost. *)
Definition claim (m : Matcher.CapabilityMatcher) (uuid now : string) (job : Job) : Q bool := λ q,
  let selection := Matcher.select (job_capability job) m in
  match mark_running (job_id job) ("subagent-" +:+ uuid)
          (unwrap_or (Matcher.model_hint selection) "auto")
          (unwrap_or (job_provider_profile job) (Matcher.provider selection)) now q with
  | (q', Ok _) => (q', Ok true)
  | (q', Err e) => if is_claim_race e then (q', Ok false) else (q', Err e)
  end.

Definition effective_mode (m : Matcher.CapabilityMatcher) (job : Job) : ExecutionMode :=
  if decide (job_execution_mode job = Direct) then Direct
  else Matcher.execution_mode (Matcher.select (job_capability job) m).

(** The second half: the execution and the record of how it ended. *)
Definition finish (m : Matcher.CapabilityMatcher) (job : Job)
    (call : ToolCall)
    (loop : JobContext → Outcome (string * option nat)) (now : string) : Q unit :=
  let timeout_ms := Z.max (job_time_budget_ms job) 1000 in
  match effective_mode m job with
  | Direct => run_direct job timeout_ms call now
  | Mediated => run_mediated job timeout_ms loop now
  end.

Definition run_job (m : Matcher.CapabilityMatcher) (uuid started ended : string) (job : Job)
    (call : ToolCall)
    (loop : JobContext → Outcome (string * option nat)) : Q unit :=
  claimed ← claim m uuid started job;
  if (claimed : bool) then finish m job call loop ended else mret tt.
End runner.

(** ** The scheduler *)

Record JobScheduler : Type := mkScheduler {
  max_concurrency : nat;
  expire_interval : Z;
}.

Definition new_scheduler : JobScheduler := mkScheduler 2 30000%Z.

Definition with_max_concurrency (n : nat) (s : JobScheduler) : JobScheduler :=
  mkScheduler (Nat.max n 1) (expire_interval s).

Section scheduler.
Context {Value Time T : Type} `{RecordStore T (JobRecord Value)}.
Context (to_rfc3339 : Time → string) (add_seconds : Time → Z → option Time).
(** [DateTime::parse_from_rfc3339], the order of times, the two formats, and
    [cron::Schedule]: a parsed expression gives the first time after a
    reference. *)
Context (parse_rfc3339 : string → option Time) (time_leb : Time → Time → bool).
Context (format_date format_time : Time → string).
Context (schedule : string → option (Time → option Time)).

Notation Job := (JobRecord Value).
Notation Q := (M (JobQueue T) string).

(** The reference time: when the template last ran, or was created. *)
Definition reference (now : Time) (template : Job) : Time :=
  unwrap_or
    (parse_rfc3339
       (match job_last_scheduled_at template with Some s => s | None => job_created_at template end))
    now.

Definition is_due (now : Time) (template : Job) : bool :=
  match job_cron_expression template with
  | None => false
  | Some expr =>
      match schedule expr with
      | None => false
      | Some after =>
          match after (reference now template) with
          | Some next_time => time_leb next_time now
          | None => false
          end
      end
  end.

(** The goal of the instance, with the date and the time filled in. *)
Definition instance_goal (now : Time) (template : Job) : string :=
  match job_goal_template template with
  | Some tmpl => replace (replace tmpl "{date}" (format_date now)) "{time}" (format_time now)
  | None => job_goal template
  end.

(** The scheduler runs beside the tasks and the handlers of the daemon: between two
    [await]s of [run_loop] other calls of the queue come in between.  [Visiting] is the
    loop of [check_cron_jobs] over the templates still to be visited, as they were read;
    [Submitted] is inside [spawn_recurring_instance], between the submission of an
    instance and the writing of its template. *)
Inductive Phase : Type :=
| AtExpire
| AtCron
| Visiting (now : Time) (rest : list Job)
| Submitted (now : Time) (template : Job) (rest : list Job)
| AtDispatch.

(** The local state of [run_loop]: the two clocks, where it is, and the jobs whose tasks
    hold a permit of the semaphore. *)
Record LoopState : Type := mkLoop {
  last_expire_check : Z;
  last_cron_check : Z;
  phase : Phase;
  in_flight : list Job;
}.

(** Both checks are due at the start, unless the clock is younger than the
    interval. *)
Definition start_loop (s : JobScheduler) (clock : Z) : LoopState :=
  let back d := (if decide (d ≤ clock)%Z then clock - d else clock)%Z in
  mkLoop (back (expire_interval s)) (back 60000%Z) AtExpire [].

Definition go (ph : Phase) (l : LoopState) : LoopState :=
  mkLoop (last_expire_check l) (last_cron_check l) ph (in_flight l).
Definition cron_checked (clock : Z) (l : LoopState) : LoopState :=
  mkLoop (last_expire_check l) clock AtDispatch (in_flight l).

(** [clock] is the reading of the monotonic clock, [now] that of the calendar. *)
Definition expire_check (s : JobScheduler) (clock : Z) (now : Time) (l : LoopState) (q : JobQueue T)
  : LoopState * JobQueue T :=
  if (expire_interval s <=? clock - last_expire_check l)%Z
  then (mkLoop clock (last_cron_check l) AtCron (in_flight l), (expire_stale_jobs (to_rfc3339 now) q).1)
  else (go AtCron l, q).

(** [check_cron_jobs] up to its loop. *)
Definition cron_check (clock : Z) (now : Time) (l : LoopState) (q : JobQueue T) : LoopState * JobQueue T :=
  if (60000 <=? clock - last_cron_check l)%Z then
    match get_recurring_templates q with
    | (q, Ok templates) => (go (Visiting now templates) l, q)
    | (q, Err _) => (cron_checked clock l, q)
    end
  else (go AtDispatch l, q).

(** One template; [uuid] and [at_] are the identifier and the clock reading drawn for its
    instance. *)
Definition visit (now : Time) (template : Job) (rest : list Job) (uuid : string) (at_ : Time)
    (l : LoopState) (q : JobQueue T) : LoopState * JobQueue T :=
  if is_due now template then
    match submit_job to_rfc3339 add_seconds uuid at_ (instance_spec template (Some (instance_goal now template))) q with
    | (q, Ok _) => (go (Submitted now template rest) l, q)
    | (q, Err _) => (go (Visiting now rest) l, q)
    end
  else (go (Visiting now rest) l, q).

(** A permit and a queued job give a new task. *)
Definition dispatch (s : JobScheduler) (l : LoopState) (q : JobQueue T) : LoopState * JobQueue T :=
  if (length (in_flight l) <? max_concurrency s)%nat then
    match next_queued_job q with
    | (q, Ok (Some job)) =>
        (mkLoop (last_expire_check l) (last_cron_check l) AtExpire (in_flight l ++ [job]), q)
    | (q, _) => (go AtExpire l, q)
    end
  else (go AtExpire l, q).

(** What the loop does until its next [await]. *)
Definition advance (s : JobScheduler) (clock : Z) (now : Time) (uuid : string)
    (l : LoopState) (q : JobQueue T) : LoopState * JobQueue T :=
  match phase l with
  | AtExpire => expire_check s clock now l q
  | AtCron => cron_check clock now l q
  | Visiting now' (t :: rest) => visit now' t rest uuid now l q
  | Visiting _ [] => (cron_checked clock l, q)
  | Submitted now' t rest => (go (Visiting now' rest) l, (reschedule (to_rfc3339 now) t q).1)
  | AtDispatch => dispatch s l q
  end.

(** A task that ends gives its permit back. *)
Definition release (l1 l2 : list Job) (l : LoopState) : LoopState :=
  mkLoop (last_expire_check l) (last_cron_check l) (phase l) (l1 ++ l2).

(** The daemon: the pieces of the loop, the claims and the ends of the tasks, and any
    call of the queue made by the tasks and by the rest of the daemon ([other]), in any
    order. *)
Inductive loop_step (s : JobScheduler) (m : Matcher.CapabilityMatcher) (other : JobQueue T → JobQueue T → Prop)
  : LoopState * JobQueue T → LoopState * JobQueue T → Prop :=
| l_advance clock now uuid l q :
    loop_step s m other (l, q) (advance s clock now uuid l q)
| l_claim uuid started job l q :
    job ∈ in_flight l → loop_step s m other (l, q) (l, (claim m uuid started job q).1)
| l_release l1 job l2 l q :
    in_flight l = l1 ++ job :: l2 → loop_step s m other (l, q) (release l1 l2 l, q)
| l_other l q q' : other q q' → loop_step s m other (l, q) (l, q').
End scheduler.
Arguments LoopState : clear implicits.
Arguments Phase : clear implicits.
