(* ===== verification/RunnerSpec.v ===== *)
(** * Running queued jobs: correctness

    A claimed job always reaches a terminal state, as the abstract [verdict] of
    its execution says; a run that lost the claim, or whose job was cancelled
    meanwhile, changes nothing; every turn of the scheduler is a sequence of
    queue steps, so the queue's invariants hold under it. *)

From S2P Require Import Prelude RustStr JobTypes RecordStore JobQueue JobQueueFacts JobQueueSpec.
From S2P Require Import JobQueueProps SkillExecutor Runner JobTypes.
From Stdlib Require Import ZArith Lia.
From stdpp Require Import base list strings gmap fin_maps relations.

(** ** Operations on a store that answers *)

Section reliable.
Context {Value T : Type} `{ReliableStore T (JobRecord Value)}.
Notation Job := (JobRecord Value).
Implicit Types q : JobQueue T.

(** The read, the guard, the write and the event of a transition. *)
Definition guarded (i : string) (guard : Job → bool) (err : string) (upd : Job → Job)
    (ev : Job → JobEvent) : M (JobQueue T) string unit :=
  r ← require_job i;
  ensure (guard r) err ;;
  on_store (store_upsert (job_id (upd r)) (upd r)) ;; publish_event (ev r).

Lemma guarded_ok i guard err upd ev q r :
  jobs q !! i = Some r → guard r = true →
  ∃ q', guarded i guard err upd ev q = (q', Ok tt) ∧
    jobs q' = <[job_id (upd r) := upd r]> (jobs q) ∧ published q' = published q ++ [ev r].
Proof.
  intros Hr Hg. unfold guarded.
  erewrite M_bind_ok by (rewrite require_job_reliable, Hr; done).
  unfold ensure. rewrite Hg. erewrite M_bind_ok by done.
  destruct (on_store_upsert_reliable (job_id (upd r)) (upd r) q) as (q' & Ho & Hp & Hj).
  erewrite M_bind_ok by done. unfold publish_event, modify.
  eexists. split; [done|]. split; [by rewrite <- Hj|]. simpl. by rewrite Hp.
Qed.

Lemma guarded_refused i guard err upd ev q r :
  jobs q !! i = Some r → guard r = false → guarded i guard err upd ev q = (q, Err err).
Proof.
  intros Hr Hg. unfold guarded.
  erewrite M_bind_ok by (rewrite require_job_reliable, Hr; done).
  unfold ensure. rewrite Hg. by erewrite M_bind_err.
Qed.
End reliable.

(** ** One job *)

(** How an execution is meant to be recorded. *)
Inductive Verdict : Type :=
| Succeeded (text : string) (turns : Z)
| Broken (error : string).

Section runner.
Context {Value Time T : Type} `{ReliableStore T (JobRecord Value)}.
Context (as_object : Value → option (gmap string Value)).
Context (result_json : bool → option Value → string).

Notation Job := (JobRecord Value).
Notation ToolCall :=
  (string → string → gmap string Value → JobContext → Outcome (bool * option Value)).
Notation ModelLoop := (JobContext → Outcome (string * option nat)).
Notation run_job := (run_job as_object result_json).
Notation finish := (finish as_object result_json).
Implicit Types (q : JobQueue T) (job : Job) (call : ToolCall) (loop : ModelLoop).

Definition budget job : Z := Z.max (job_time_budget_ms job) 1000.

Definition verdict m job call loop : Verdict :=
  match effective_mode m job, job_direct_tool_call job with
  | Direct, None => Broken no_direct_tool_call
  | Direct, Some dtc =>
      match call (JobTypes.skill_id dtc) (JobTypes.tool_name dtc)
              (unwrap_or (as_object (JobTypes.params dtc)) ∅) (job_context job) with
      | Returned (success, data) => Succeeded (result_json success data) 1
      | Errored err => Broken ("Direct skill execution failed: " +:+ err)
      | TimedOut => Broken (over_budget (budget job))
      end
  | Mediated, _ =>
      match loop (job_context job) with
      | Returned (content, None) => Succeeded content 1
      | Returned (content, Some n) => Succeeded content (Z.max (as_u32 (Z.of_nat n)) 1)
      | Errored err => Broken ("Sub-agent execution failed: " +:+ err)
      | TimedOut => Broken (over_budget (budget job))
      end
  end.

(** The call of the queue a verdict leads to. *)
Definition settle (i : string) (v : Verdict) (now : string) : M (JobQueue T) string unit :=
  match v with
  | Succeeded text turns => ignore (mark_completed i text turns now)
  | Broken err => ignore (mark_failed i err 0 now)
  end.

Lemma finish_settles m job call loop now :
  finish m job call loop now = settle (job_id job) (verdict m job call loop) now.
Proof.
  unfold Runner.finish, verdict, run_direct, run_mediated, budget. cbv zeta.
  destruct (effective_mode m job).
  - destruct (loop _) as [[content [n|]]|err|]; done.
  - destruct (job_direct_tool_call job) as [dtc|]; [|done].
    unfold unwrap_or. by destruct (call _ _ _ _) as [[success data]|err|].
Qed.

(** The record and the event a verdict leaves. *)
Definition settled_as (v : Verdict) (now : string) (r : Job) : Job :=
  match v with
  | Succeeded text turns =>
      set_completed_at (Some now) (set_turns_consumed turns
        (set_result_ (Some text) (set_status Completed r)))
  | Broken err =>
      set_completed_at (Some now) (set_turns_consumed 0
        (set_error (Some err) (set_status Failed r)))
  end.

Definition settled_event (v : Verdict) (r : Job) : JobEvent :=
  match v with
  | Succeeded text turns => JobCompleted (job_id r) (job_topic r) text turns
  | Broken err => JobFailed (job_id r) (job_topic r) err 0
  end.

Lemma settle_guarded i v now :
  settle i v now = ignore (guarded i is_running (not_in_state i "running")
    (settled_as v now) (settled_event v)).
Proof. by destruct v. Qed.

Lemma settle_running i v now q r :
  jobs q !! i = Some r → job_status r = Running → job_id r = i →
  ∃ q', settle i v now q = (q', Ok tt) ∧ jobs q' = <[i := settled_as v now r]> (jobs q) ∧
    published q' = published q ++ [settled_event v r].
Proof.
  intros Hr Hs Hi. rewrite settle_guarded. unfold ignore.
  destruct (guarded_ok i is_running (not_in_state i "running") (settled_as v now)
    (settled_event v) q r) as (q' & Hg & Hj & Hp); [done|by apply bool_decide_eq_true|].
  exists q'. rewrite Hg. split; [done|]. split; [|done]. rewrite Hj.
  replace (job_id (settled_as v now r)) with i by (by destruct v). done.
Qed.

Lemma settle_late i v now q r :
  jobs q !! i = Some r → job_status r ≠ Running → settle i v now q = (q, Ok tt).
Proof.
  intros Hr Hs. rewrite settle_guarded. unfold ignore.
  erewrite guarded_refused; [done..|]. by apply bool_decide_eq_false.
Qed.

Lemma not_queued_is_claim_race i : is_claim_race (not_in_state i "queued") = true.
Proof.
  unfold is_claim_race, not_in_state. rewrite !to_lowercase_app. apply contains_iff.
  exists (to_lowercase "Job '" +:+ to_lowercase i +:+ "' not found or "), "".
  rewrite <- !str_app_assoc. done.
Qed.

Definition agent_of (uuid : string) : string := "subagent-" +:+ uuid.
Definition model_of m job : string :=
  unwrap_or (Matcher.model_hint (Matcher.select (job_capability job) m)) "auto".
Definition provider_of m job : string :=
  unwrap_or (job_provider_profile job) (Matcher.provider (Matcher.select (job_capability job) m)).

(** The record [r] of the job, as the claim leaves it. *)
Definition claimed_as m (uuid now : string) job (r : Job) : Job :=
  set_started_at (Some now) (set_provider_used (Some (provider_of m job))
    (set_model_used (Some (model_of m job)) (set_agent_id (Some (agent_of uuid))
      (set_status Running r)))).

Lemma settled_identity m uuid started job v now r :
  same_identity r (settled_as v now (claimed_as m uuid started job r)).
Proof. destruct v; repeat split. Qed.

Lemma claim_lost m uuid now job q r :
  jobs q !! job_id job = Some r → job_status r ≠ Queued →
  claim m uuid now job q = (q, Ok false).
Proof.
  intros Hr Hq. unfold claim, mark_running. cbv zeta.
  erewrite M_bind_err.
  2: { unfold mark_running_check. erewrite M_bind_ok by (rewrite require_job_reliable, Hr; done).
       unfold ensure. by rewrite bool_decide_eq_false_2. }
  by rewrite not_queued_is_claim_race.
Qed.

Lemma claim_seen m uuid now job q r :
  keyed (jobs q) → jobs q !! job_id job = Some r → job_status r = Queued →
  ∃ q', claim m uuid now job q = (q', Ok true) ∧
    jobs q' = <[job_id job := claimed_as m uuid now job r]> (jobs q) ∧
    published q' = published q ++
      [JobStarted (job_id job) (job_topic r) (agent_of uuid) (model_of m job)].
Proof.
  intros Hk Hr Hq. unfold claim, mark_running. cbv zeta.
  erewrite M_bind_ok.
  2: { unfold mark_running_check. erewrite M_bind_ok by (rewrite require_job_reliable, Hr; done).
       unfold ensure. by rewrite bool_decide_eq_true_2. }
  unfold mark_running_write. fold (claimed_as m uuid now job r).
  destruct (on_store_upsert_reliable (job_id r) (claimed_as m uuid now job r) q)
    as (q' & Ho & Hp & Hj).
  erewrite M_bind_ok by exact Ho. unfold publish_event, modify.
  eexists. split; [done|]. rewrite <- (Hk _ _ Hr). split; [done|]. simpl. by rewrite Hp.
Qed.

(** A capability routed to a specialised provider runs in direct mode
    whatever mode the job was submitted with: an image, video or transcription
    job without a [direct_tool_call] always fails, without a call to a skill or
    to a model. *)
Theorem routed_job_needs_direct_call provider uuid started ended job call loop q :
  keyed (jobs q) → jobs q !! job_id job = Some job → job_status job = Queued →
  job_capability job ∈ [ImageGeneration; VideoGeneration; Transcription] →
  job_direct_tool_call job = None →
  ∃ q' r', run_job (Matcher.new provider) uuid started ended job call loop q = (q', Ok tt) ∧
    jobs q' !! job_id job = Some r' ∧ job_status r' = Failed ∧
    job_error r' = Some no_direct_tool_call.
Proof.
  intros Hk Hr Hq Hcap Hd. unfold Runner.run_job.
  destruct (claim_seen (Matcher.new provider) uuid started job q job) as (q1 & Hc & Hj & _); [done..|].
  erewrite M_bind_ok by done. rewrite finish_settles.
  assert (verdict (Matcher.new provider) job call loop = Broken no_direct_tool_call) as ->.
  { unfold verdict, effective_mode. rewrite Hd. case_decide; [done|].
    repeat (apply elem_of_cons in Hcap as [->|Hcap]; [done|]). by apply elem_of_nil in Hcap. }
  destruct (settle_running (job_id job) (Broken no_direct_tool_call) ended q1
    (claimed_as (Matcher.new provider) uuid started job job))
    as (q2 & Hs & Hj2 & _); [by rewrite Hj, lookup_insert_eq|done..|].
  eexists q2, _. split; [done|]. rewrite Hj2, lookup_insert_eq. done.
Qed.
End runner.

(** ** Runs among other calls *)

Section interleaved.
Context {Value Time T : Type} `{ReliableStore T (JobRecord Value)}.
Context (to_rfc3339 : Time → string) (add_seconds : Time → Z → option Time).
Context (as_object : Value → option (gmap string Value)).
Context (result_json : bool → option Value → string).

Notation Job := (JobRecord Value).
Notation step := (step to_rfc3339 add_seconds).
Notation run_job := (run_job as_object result_json).
Notation finish := (finish as_object result_json).
Notation verdict := (verdict as_object result_json).
Implicit Types (q : JobQueue T) (job : Job).

(** After a claim the job is stored and never queued again, whatever else is
    called; while it runs its record stays as the claim wrote it. *)
Lemma claimed_then m uuid now job q r q1 q2 :
  keyed (jobs q) → job_is_recurring r = false → jobs q !! job_id job = Some r → job_status r = Queued →
  claim m uuid now job q = (q1, Ok true) → rtc step q1 q2 →
  keyed (jobs q2) ∧ ∃ r2, jobs q2 !! job_id job = Some r2 ∧ rtc lifecycle Running (job_status r2) ∧
    job_evolves (claimed_as m uuid now job r) r2.
Proof.
  intros Hk Hrec Hr Hq Hc Hsteps.
  destruct (claim_seen m uuid now job q r) as (q1' & Hc' & Hj & _); [done..|].
  rewrite Hc in Hc'. simplify_eq.
  assert (keyed (jobs q1')) as Hk1.
  { rewrite Hj, <- (Hk _ _ Hr). apply (keyed_insert (jobs q) (claimed_as m uuid now job r)). done. }
  destruct (steps_evolve _ _ _ _ Hk1 Hsteps) as [He Hk2]. split; [done|].
  destruct (He (job_id job) (claimed_as m uuid now job r)) as (r2 & Hr2 & Hev);
    [by rewrite Hj, lookup_insert_eq|]. exists r2. split; [done|]. split; [|done].
  by apply (evolves_one_shot _ _ Hev).
Qed.

Lemma running_never_queued s : rtc lifecycle Running s → s ≠ Queued.
Proof.
  intros Hl ->. apply rtc_inv_r in Hl as [Hl|(s & _ & Hl)]; [done|]. inversion Hl.
Qed.

(** C2: while the store works, running a queued one-shot job always ends it, whatever calls
    of the queue come in between (the job's own tools included), whatever its execution
    answers and whether or not it answers in time.  The claim announces the job and writes
    the agent, the model and the provider into its record, and changes no other.  When the
    execution is over the job is Completed with the execution's text and turns, or Failed
    with its error and no turns, which is announced, and no other record changes; unless it
    was ended in between, as by a cancellation: then nothing changes.  A job that is not
    queued is left alone. *)
Theorem run_job_ends m uuid started ended job call loop q r :
  keyed (jobs q) → jobs q !! job_id job = Some r → job_is_recurring r = false →
  (job_status r ≠ Queued → run_job m uuid started ended job call loop q = (q, Ok tt)) ∧
  (job_status r = Queued → ∃ q1, claim m uuid started job q = (q1, Ok true) ∧
     jobs q1 = <[job_id job := claimed_as m uuid started job r]> (jobs q) ∧
     published q1 = published q ++ [JobStarted (job_id job) (job_topic r) (agent_of uuid) (model_of m job)] ∧
     ∀ q2, rtc step q1 q2 → ∃ q3 r3, finish m job call loop ended q2 = (q3, Ok tt) ∧
       jobs q3 !! job_id job = Some r3 ∧ Status.is_terminal (job_status r3) = true ∧ same_identity r r3 ∧
       (q3 = q2 ∨
        jobs q2 !! job_id job = Some (claimed_as m uuid started job r) ∧
        jobs q3 = <[job_id job := r3]> (jobs q2) ∧
        published q3 = published q2 ++ [settled_event (verdict m job call loop) r] ∧
        job_agent_id r3 = Some (agent_of uuid) ∧ job_model_used r3 = Some (model_of m job) ∧
        job_provider_used r3 = Some (provider_of m job) ∧
        match verdict m job call loop with
        | Succeeded text turns =>
            job_status r3 = Completed ∧ job_result_ r3 = Some text ∧ job_turns_consumed r3 = turns
        | Broken err =>
            job_status r3 = Failed ∧ job_error r3 = Some err ∧ job_turns_consumed r3 = 0%Z
        end)).
Proof.
  intros Hk Hr Hrec. split.
  { intros Hq. unfold Runner.run_job. by erewrite M_bind_ok by by eapply claim_lost. }
  intros Hq. destruct (claim_seen m uuid started job q r) as (q1 & Hc & Hj & Hp); [done..|].
  exists q1. split_and!; [done..|]. intros q2 Hsteps.
  destruct (claimed_then _ _ _ _ _ _ _ _ Hk Hrec Hr Hq Hc Hsteps) as (Hk2 & r2 & Hr2 & Hl & Hev).
  assert (same_identity r r2) as Hi by exact (proj1 Hev).
  rewrite finish_settles. set (v := verdict m job call loop).
  destruct (decide (job_status r2 = Running)) as [Hrun|Hrun].
  - assert (r2 = claimed_as m uuid started job r) as -> by (by apply Hev).
    destruct (settle_running (job_id job) v ended q2 (claimed_as m uuid started job r)) as (q3 & Hs & Hj3 & Hp3);
      [done..|exact (Hk _ _ Hr)|].
    exists q3, (settled_as v ended (claimed_as m uuid started job r)). split; [done|].
    rewrite Hj3, lookup_insert_eq. split; [done|].
    split; [by destruct v|]. split; [apply settled_identity|]. right.
    rewrite Hp3. repeat (split; [by destruct v|]). by destruct v.
  - exists q2, r2. split; [by eapply settle_late|]. split; [done|]. split; [|by split; [|left]].
    destruct (lifecycle_rank _ _ Hl) as [Heq|Hlt]; [by rewrite <- Heq in Hrun|]. by destruct (job_status r2); simpl in Hlt; try lia.
Qed.

(** Dispatching one job twice runs it once: once a run has claimed the job,
    a second run of it leaves the queue untouched and publishes nothing,
    whatever calls came in between. *)
Theorem second_run_is_noop m uuid1 uuid2 started1 started2 ended job call loop q r q1 q2 :
  keyed (jobs q) → job_is_recurring r = false → jobs q !! job_id job = Some r → job_status r = Queued →
  claim m uuid1 started1 job q = (q1, Ok true) → rtc step q1 q2 →
  run_job m uuid2 started2 ended job call loop q2 = (q2, Ok tt).
Proof.
  intros Hk Hrec Hr Hq Hc Hsteps.
  destruct (claimed_then _ _ _ _ _ _ _ _ Hk Hrec Hr Hq Hc Hsteps) as (_ & r2 & Hr2 & Hl & _).
  unfold Runner.run_job. erewrite M_bind_ok; [|eapply claim_lost; [done|]]; [done|].
  by apply running_never_queued.
Qed.

(** A result that comes late is dropped: when a claimed job is cancelled
    before its execution ends, the outcome is not recorded, no event is
    published, and the job stays cancelled, whatever calls came in between. *)
Theorem late_result_is_dropped m uuid started later ended job call loop q r q1 q2 q3 q4 :
  keyed (jobs q) → job_is_recurring r = false → jobs q !! job_id job = Some r → job_status r = Queued →
  claim m uuid started job q = (q1, Ok true) → rtc step q1 q2 →
  cancel_job (job_id job) later q2 = (q3, Ok tt) → rtc step q3 q4 →
  finish m job call loop ended q4 = (q4, Ok tt) ∧
  ∃ r, jobs q4 !! job_id job = Some r ∧ job_status r = Cancelled.
Proof.
  intros Hk Hrec Hr Hq Hc Hsteps Hcancel Hsteps'.
  destruct (claimed_then _ _ _ _ _ _ _ _ Hk Hrec Hr Hq Hc Hsteps) as (Hk2 & r2 & Hr2 & _ & Hev).
  assert (keyed (jobs q3)) as Hk3.
  { eapply (step_moves to_rfc3339 add_seconds q2 q3); [done|]. by eapply s_cancel. }
  apply cancel_job_effect in Hcancel as (rc & Hr2' & _ & Hj3 & _). assert (rc = r2) as -> by congruence. clear Hr2'.
  destruct (steps_evolve _ _ _ _ Hk3 Hsteps') as [He _].
  destruct (He (job_id job) (set_completed_at (Some later) (set_status Cancelled r2))) as (r4 & Hr4 & Hev').
  { rewrite Hj3. simpl. rewrite (Hk2 _ _ Hr2). by rewrite lookup_insert_eq. }
  assert (r4 = set_completed_at (Some later) (set_status Cancelled r2)) as ->.
  { apply (evolves_one_shot _ _ Hev'); [|done]. simpl. by rewrite (same_recurring _ _ (proj1 Hev)). }
  split; [|by eexists]. rewrite finish_settles. by eapply settle_late.
Qed.
End interleaved.

(** ** The scheduler's loop *)

Section scheduler.
Context {Value Time T : Type} `{RecordStoreLaws T (JobRecord Value)}.
Context (to_rfc3339 : Time → string) (add_seconds : Time → Z → option Time).
Context (parse_rfc3339 : string → option Time) (time_leb : Time → Time → bool).
Context (format_date format_time : Time → string).
Context (schedule : string → option (Time → option Time)).

Notation Job := (JobRecord Value).
Notation step := (step to_rfc3339 add_seconds).
Notation daemon_step := (daemon_step to_rfc3339 add_seconds).
Notation other_call := (other_call to_rfc3339 add_seconds).
Notation advance := (advance to_rfc3339 add_seconds parse_rfc3339 time_leb format_date format_time schedule).
Notation loop_step := (loop_step to_rfc3339 add_seconds parse_rfc3339 time_leb format_date format_time schedule).
Implicit Types (q : JobQueue T) (l : LoopState Value Time).

(** The copies of templates the loop holds. *)
Definition copies (ph : Phase Value Time) : list Job :=
  match ph with
  | Visiting _ rest => rest
  | Submitted _ t rest => t :: rest
  | _ => []
  end.

Definition copy_of q (t : Job) : Prop :=
  is_recurring_template t = true ∧ ∃ r, jobs q !! job_id t = Some r ∧ same_identity r t.

Lemma copies_steps q q' ts :
  keyed (jobs q) → rtc step q q' → Forall (copy_of q) ts → Forall (copy_of q') ts.
Proof.
  intros Hk Hs Hts. eapply Forall_impl; [exact Hts|]. intros t (Hrec & r & Hr & Hi). split; [done|].
  destruct (steps_evolve _ _ _ _ Hk Hs) as [He _]. destruct (He _ _ Hr) as (r' & Hr' & Hi' & _).
  exists r'. split; [done|]. unfold same_identity in *. intuition congruence.
Qed.

Lemma reschedule_other at_ t q : keyed (jobs q) → copy_of q t → other_call q (reschedule at_ t q).1.
Proof.
  intros Hk (Hrec & r & Hr & Hi). destruct (reschedule at_ t q) as [q' o] eqn:Hs. simpl.
  split; [by eapply s_reschedule|]. intros i r1 r1' Hr1 Hr1' Hq.
  apply reschedule_inv in Hs as [Hj|[Hj _]]; rewrite Hj in Hr1'; [congruence|].
  apply lookup_insert_Some in Hr1' as [[_ <-]|[_ ?]]; [|congruence].
  destruct (recurring_template_is _ Hrec) as [_ Hq']. simpl. by rewrite Hq'.
Qed.

Lemma expire_other now q : keyed (jobs q) → other_call q (expire_stale_jobs now q).1.
Proof.
  intros Hk. destruct (expire_stale_jobs now q) as [q' o] eqn:He. simpl. split; [by eapply s_expire|].
  intros i r r' Hr Hr' Hq. apply expire_sweep in He as [->|(l & q1 & o1 & Hl & Hm & Hst & _)]; [congruence|].
  destruct (sweep_effect (is_stale now) (set_status Expired) l q q1 o1) as (_ & w & _ & _ & Hlook); [done..|].
  unfold jobs in Hr'. rewrite Hst in Hr'. fold (jobs q1) in Hr'. rewrite Hlook, Hr in Hr'.
  case_decide; simplify_eq/=; congruence.
Qed.

Lemma claim_runs m uuid now j q :
  ∃ agent model provider o, mark_running (job_id j) agent model provider now q = ((claim m uuid now j q).1, o).
Proof.
  unfold claim. cbv zeta.
  match goal with |- context [mark_running (job_id j) ?b ?c ?d now q] =>
    exists b, c, d; destruct (mark_running (job_id j) b c d now q) as [q' [[]|e]] end; simpl.
  - by exists (Ok tt).
  - exists (Err e). by case_match.
Qed.

(** The invariant of the loop: how far it is, as a run of the daemon that has picked
    every job in flight. *)
Definition loop_ok s q0 (x : LoopState Value Time * JobQueue T) : Prop :=
  (length (in_flight x.1) ≤ max_concurrency s)%nat ∧ Forall (copy_of x.2) (copies (phase x.1)) ∧
  ∃ p, rtc daemon_step ([], q0) (p, x.2) ∧ ∀ j, j ∈ in_flight x.1 → j ∈ p.

(** Nothing but the queue and the phase moves. *)
Lemma loop_ok_calls s q0 l l' q q' :
  keyed (jobs q) → loop_ok s q0 (l, q) → rtc other_call q q' → in_flight l' = in_flight l →
  Forall (copy_of q') (copies (phase l')) → loop_ok s q0 (l', q').
Proof.
  intros Hk (Hlen & _ & p & Hp & Hin) Hs Hf Hc. unfold loop_ok. simpl in *. rewrite Hf.
  split; [done|]. split; [done|]. exists p. split; [|done]. etrans; [exact Hp|].
  clear -Hs. induction Hs as [|x y z Hs _ IH]; [done|]. eapply rtc_l; [by apply d_other|done].
Qed.

Lemma other_steps q q' : rtc other_call q q' → rtc step q q'.
Proof. apply rtc_subrel. by intros x y [? _]. Qed.

Lemma dispatch_ok s q0 l q :
  keyed (jobs q) → loop_ok s q0 (l, q) → loop_ok s q0 (dispatch s l q).
Proof.
  intros Hk Hok. unfold dispatch.
  assert (loop_ok s q0 (go AtExpire l, q)) as Hgo by (eapply loop_ok_calls; [done|exact Hok|done|done|constructor]).
  case_match eqn:Hlt; [|done]. apply Nat.ltb_lt in Hlt.
  destruct (next_queued_job q) as [q' o] eqn:Hn. unfold next_queued_job in Hn.
  step_inv Hn; apply load_all_inv in Hm as [-> Hl]; [|by subst].
  unfold mret, M_ret in Hk0. simplify_eq. destruct (next_of a) as [j|] eqn:Hj; [|done].
  destruct Hok as (_ & _ & p & Hp & Hin). split; simpl; [rewrite length_app; simpl; lia|]. split; [constructor|].
  exists (p ++ [j]). split; [eapply rtc_r; [exact Hp|by eapply d_pick]|].
  intros j' [Hj'|Hj']%elem_of_app; apply elem_of_app; [left; by apply Hin|by right].
Qed.

Lemma advance_ok s clock now uuid q0 l q :
  keyed (jobs q) → loop_ok s q0 (l, q) → loop_ok s q0 (advance s clock now uuid l q).
Proof.
  intros Hk Hok. pose proof Hok as (_ & Hc & _). simpl in Hc. unfold Runner.advance.
  assert (∀ l', in_flight l' = in_flight l → Forall (copy_of q) (copies (phase l')) → loop_ok s q0 (l', q)) as Hstay
    by (intros; by eapply loop_ok_calls).
  destruct (phase l) as [| |now' [|t rest]|now' t rest|] eqn:Hph; simpl in Hc.
  - unfold expire_check. case_match; [|by apply Hstay].
    eapply loop_ok_calls; [done|exact Hok|by apply rtc_once, expire_other|done|constructor].
  - unfold cron_check. case_match; [|by apply Hstay].
    destruct (get_recurring_templates q) as [q1 [ts|e]] eqn:Hg; unfold get_recurring_templates in Hg;
      step_inv Hg; unfold mret, M_ret in *; simplify_eq/=; apply load_all_inv in Hm as [-> Hl]; [|by apply Hstay].
    apply Hstay; [done|]. apply Forall_forall. intros t [Hrec%Is_true_true Hin]%list_elem_of_filter.
    split; [done|]. exists t. split; [by eapply elem_of_all_jobs|done].
  - by apply Hstay.
  - apply Forall_cons in Hc as [Ht Hrest]. unfold visit. case_match; [|by apply Hstay].
    destruct (submit_job _ _ _ _ _ q) as [q1 o] eqn:Hs. pose proof (submit_other _ _ _ _ _ _ _ _ Hs) as Ho.
    assert (Forall (copy_of q1) (t :: rest)) as [Ht1 Hrest1]%Forall_cons.
    { apply (copies_steps q); [done|by apply other_steps, rtc_once|by constructor]. }
    destruct o; (eapply loop_ok_calls; [done|exact Hok|by apply rtc_once|done|]); simpl; [by constructor|done].
  - apply Forall_cons in Hc as [Ht Hrest]. pose proof (reschedule_other (to_rfc3339 now) t q Hk Ht) as Ho.
    eapply loop_ok_calls; [done|exact Hok|by apply rtc_once|done|].
    by apply (copies_steps q); [|by apply other_steps, rtc_once|].
  - by apply dispatch_ok.
Qed.

Lemma loop_step_ok s m q0 x y :
  keyed (jobs x.2) → loop_step s m other_call x y → loop_ok s q0 x → loop_ok s q0 y.
Proof.
  intros Hk Hs Hok. destruct Hs as [clock now uuid l q|uuid started job l q Hin|l1 job l2 l q Hl|l q q' Ho]; simpl in Hk.
  - by apply advance_ok.
  - destruct Hok as (Hlen & Hc & p & Hp & Hall). destruct (claim_runs m uuid started job q) as (ag & mo & pr & o & Hm).
    split; [done|]. simpl. split.
    + apply (copies_steps q); [done|apply rtc_once; by eapply s_run|done].
    + exists p. split; [|done]. eapply rtc_r; [exact Hp|]. by eapply d_run; [apply Hall|].
  - destruct Hok as (Hlen & Hc & p & Hp & Hall). simpl in *. rewrite Hl in *. split; simpl.
    + rewrite length_app in *. simpl in *. lia.
    + split; [done|]. exists p. split; [done|].
      intros j [Hj|Hj]%elem_of_app; apply Hall, elem_of_app; [by left|]. right. by right.
  - eapply loop_ok_calls; [done|exact Hok|by apply rtc_once|done|].
    apply (copies_steps q); [done|by apply other_steps, rtc_once|apply Hok].
Qed.

(** C3: over any run of the daemon, where the pieces of the scheduler's loop between two
    [await]s, the claims and the ends of the tasks it started, and any calls of the queue
    that claim no job come in any order, the queue only moves by its own methods, and a
    job is claimed only after the loop has picked it; every record stays under its own id,
    is never lost and keeps its identity; never more jobs are in flight than
    [max_concurrency]; and each of them was queued and not a recurring template when it
    was picked, is still stored, has moved only along the lifecycle, and its parent and
    its dependencies are still completed (or recurring templates, which are never
    started). *)
Theorem scheduler_safe s m clock q l' q' :
  keyed (jobs q) → rtc (loop_step s m other_call) (start_loop s clock, q) (l', q') →
  (∃ p, rtc daemon_step ([], q) (p, q') ∧ ∀ j, j ∈ in_flight l' → j ∈ p) ∧
  keyed (jobs q') ∧ (∀ i r, jobs q !! i = Some r → ∃ r', jobs q' !! i = Some r' ∧ same_identity r r') ∧
  (length (in_flight l') ≤ max_concurrency s)%nat ∧
  ∀ j, j ∈ in_flight l' → job_status j = Queued ∧ job_is_recurring j = false ∧
    ∃ r, jobs q' !! job_id j = Some r ∧ same_identity j r ∧ rtc lifecycle (job_status j) (job_status r) ∧
      ∀ d, job_parent_job_id j = Some d ∨ d ∈ job_depends_on j →
        ∃ rd, jobs q' !! d = Some rd ∧ (job_is_recurring rd = true ∨ job_status rd = Completed).
Proof.
  intros Hk Hsteps.
  assert (∀ x y, rtc (loop_step s m other_call) x y → loop_ok s q x → loop_ok s q y) as Hrun.
  { intros x y Hxy. induction Hxy as [|x y z Hs _ IH]; [done|]. intros Hx. apply IH.
    eapply loop_step_ok; [|exact Hs|exact Hx]. destruct Hx as (_ & _ & p & Hp & _).
    by destruct (daemon_steps_evolve _ _ ([], q) _ Hk Hp). }
  destruct (Hrun _ _ Hsteps) as (Hlen & _ & p & Hp & Hin).
  { split; [simpl; lia|]. split; [constructor|]. exists []. split; [done|]. by intros j ?%elem_of_nil. }
  simpl in *. destruct (daemon_steps_evolve _ _ ([], q) _ Hk Hp) as [He Hk']. simpl in *.
  split; [by exists p|]. split; [done|]. split.
  { intros i r Hr. destruct (He i r Hr) as (r' & ? & ? & _). by exists r'. }
  split; [done|]. intros j Hj.
  assert (picked_ok p q') as Hpicked.
  { apply (daemon_steps_picked to_rfc3339 add_seconds ([], q) (p, q')); [done..|]. by intros ? ?%elem_of_nil. }
  destruct (Hpicked j (Hin j Hj)) as (Hq & Hrec & r & Hr & Hev & Hd). split; [done|]. split; [done|].
  exists r. split; [done|]. split; [apply Hev|]. split; [by apply (evolves_one_shot _ _ Hev)|done].
Qed.
End scheduler.

(** ** Witnesses *)

Section witnesses.
Import Demo.

Definition no_object (_ : unit) : option (gmap string unit) := None.
Definition shown (success : bool) (_ : option unit) : string :=
  if success then "{success}" else "{failure}".
Definition run_demo :=
  run_job (T:=gmap string (JobRecord unit)) no_object shown (Matcher.new "anthropic") "u" "150" "160".
Definition answer (_ : JobContext) : Outcome (string * option nat) := Returned ("done", Some 3).
Definition timeless (_ _ : string) (_ : gmap string unit) (_ : JobContext)
  : Outcome (bool * option unit) := TimedOut.

Definition drawing : JobRecord unit :=
  new_record {|
    spec_goal := "draw a cat"; spec_topic := "art"; spec_capability := ImageGeneration;
    spec_priority := Normal; spec_time_budget_ms := 60000; spec_max_turns := 5;
    spec_system_context := None; spec_allowed_skill_ids := []; spec_ttl_seconds := 3600;
    spec_input_data := None; spec_parent_job_id := None; spec_parent_correlation_id := None;
    spec_depth := 0; spec_provider_profile := None; spec_cron_expression := None;
    spec_is_recurring := false; spec_significance_keywords := [];
    spec_significance_threshold := default_significance_threshold;
    spec_job_mode := "agentic_run"; spec_goal_template := None; spec_depends_on := [];
    spec_execution_mode := Mediated; spec_direct_tool_call := None |} "d" "100" "200".

Lemma routed_job_needs_direct_call_witness :
  ∃ q' r', run_demo drawing timeless answer (queue_of drawing) = (q', Ok tt) ∧
    jobs q' !! "d" = Some r' ∧ job_status r' = Failed.
Proof.
  destruct (routed_job_needs_direct_call no_object shown "anthropic" "u" "150" "160" drawing
    timeless answer (queue_of drawing) (keyed_queue_of _)) as (q' & r' & Hrun & Hj & Hs & _);
    [vm_compute; reflexivity|reflexivity|left|reflexivity|].
  exists q', r'. split; [exact Hrun|]. split; assumption.
Defined.

Definition claimed_queue : Queue :=
  (claim (Matcher.new "anthropic") "first" "150" (job "a") (queue_of (job "a"))).1.
Definition cancelled_queue : Queue := (cancel_job "a" "155" claimed_queue).1.

Notation RStep := (step (T:=gmap string (JobRecord unit)) at_ plus).

Lemma claimed_to_cancelled : rtc RStep claimed_queue cancelled_queue.
Proof. apply rtc_once. apply (s_cancel _ _ _ _ "a" "155" (Ok tt)). vm_compute. reflexivity. Qed.

(** The job's tool submits another one while it runs. *)
Definition with_child : Queue := (submit_job at_ plus "b" 155%Z (spec "child") claimed_queue).1.

Lemma run_job_ends_witness :
  ∃ q3 r3, finish no_object shown (Matcher.new "anthropic") (job "a") timeless answer "160" with_child = (q3, Ok tt) ∧
    jobs q3 !! "a" = Some r3 ∧ Status.is_terminal (job_status r3) = true ∧
    job_turns_consumed r3 = 3%Z ∧ is_Some (jobs q3 !! "b").
Proof.
  destruct (run_job_ends at_ plus no_object shown (Matcher.new "anthropic") "first" "150" "160" (job "a")
    timeless answer (queue_of (job "a")) (job "a") (keyed_queue_of _)) as [_ (q1 & Hc & _ & _ & Hrun)];
    [reflexivity..|].
  assert (q1 = claimed_queue) as -> by (unfold claimed_queue; by rewrite Hc).
  destruct (Hrun with_child) as (q3 & r3 & Hf & Hr & Ht & _).
  { apply rtc_once. apply (s_submit _ _ _ _ "b" 155%Z (spec "child") (Ok "b")). vm_compute. reflexivity. }
  exists q3, r3. split; [exact Hf|]. split; [exact Hr|]. split; [exact Ht|].
  vm_compute in Hf. injection Hf as <-. vm_compute in Hr. injection Hr as <-. split; [reflexivity|].
  vm_compute. eauto.
Defined.

Lemma second_run_is_noop_witness :
  run_demo (job "a") timeless answer cancelled_queue = (cancelled_queue, Ok tt).
Proof.
  apply (second_run_is_noop at_ plus no_object shown (Matcher.new "anthropic") "first" "u" "150"
    "150" "160" (job "a") timeless answer (queue_of (job "a")) (job "a") claimed_queue
    cancelled_queue (keyed_queue_of _)).
  - reflexivity.
  - vm_compute. reflexivity.
  - reflexivity.
  - vm_compute. reflexivity.
  - exact claimed_to_cancelled.
Defined.

Lemma late_result_is_dropped_witness :
  finish no_object shown (Matcher.new "anthropic") (job "a") timeless answer "160" cancelled_queue
    = (cancelled_queue, Ok tt).
Proof.
  apply (late_result_is_dropped at_ plus no_object shown (Matcher.new "anthropic") "first" "150"
    "155" "160" (job "a") timeless answer (queue_of (job "a")) (job "a") claimed_queue claimed_queue
    cancelled_queue cancelled_queue (keyed_queue_of _)).
  - reflexivity.
  - vm_compute. reflexivity.
  - reflexivity.
  - vm_compute. reflexivity.
  - apply rtc_refl.
  - vm_compute. reflexivity.
  - apply rtc_refl.
Defined.

(** A run of the loop: the template is cancelled while its instance is submitted, and
    comes back; then job "a" is picked, and claimed. *)
Definition every_minute (_ : string) : option (Z → option Z) := Some (λ t, Some (t + 60)%Z).
Definition demo_advance (x : LoopState unit Z * Queue) : LoopState unit Z * Queue :=
  advance (T:=gmap string (JobRecord unit)) at_ plus (λ _, Some 0%Z) Z.leb at_ at_ every_minute
    new_scheduler 100000%Z 150%Z "u" x.1 x.2.
Definition mixed : Queue := mkJobQueue (<["a" := job "a"]> (<["t" := template]> ∅)) [].
Definition submitted := demo_advance (demo_advance (demo_advance (start_loop new_scheduler 100000%Z, mixed))).
Definition cancelled_meanwhile : Queue := (cancel_job "t" "151" submitted.2).1.
Definition picked :=
  demo_advance (demo_advance (demo_advance (submitted.1, cancelled_meanwhile))).
Definition claimed_of_picked : Queue := (claim (Matcher.new "anthropic") "w" "152" (job "a") picked.2).1.

Lemma keyed_mixed : keyed (jobs mixed).
Proof.
  apply (keyed_insert (<["t" := template]> ∅) (job "a")). apply (keyed_insert ∅ template), keyed_empty.
Qed.

Notation DStep := (loop_step (T:=gmap string (JobRecord unit)) at_ plus (λ _, Some 0%Z) Z.leb at_ at_ every_minute
    new_scheduler (Matcher.new "anthropic") (other_call at_ plus)).

Lemma demo_advances x : DStep x (demo_advance x).
Proof. destruct x as [l q]. apply l_advance. Qed.

Lemma scheduler_safe_witness :
  in_flight picked.1 = [job "a"] ∧ map job_status (map_to_list (jobs claimed_of_picked)).*2 = [Queued; Running; Queued] ∧
  length (in_flight picked.1) ≤ max_concurrency new_scheduler ∧ keyed (jobs claimed_of_picked) ∧
  ∃ r, jobs claimed_of_picked !! "a" = Some r ∧ rtc lifecycle Queued (job_status r).
Proof.
  split; [vm_compute; reflexivity|]. split; [vm_compute; reflexivity|].
  destruct (scheduler_safe at_ plus (λ _, Some 0%Z) Z.leb at_ at_ every_minute new_scheduler (Matcher.new "anthropic")
    100000%Z mixed picked.1 claimed_of_picked keyed_mixed) as (_ & Hk & _ & Hl & Hj).
  - assert (rtc DStep (start_loop new_scheduler 100000%Z, mixed) submitted) as H1.
    { do 3 (eapply rtc_l; [apply demo_advances|]). apply rtc_refl. }
    etrans; [exact H1|]. rewrite (surjective_pairing submitted).
    eapply rtc_l; [apply (l_other _ _ _ _ _ _ _ _ _ _ _ _ cancelled_meanwhile)|].
    { eapply (cancel_other at_ plus "t" "151" _ _ (Ok tt)). vm_compute. reflexivity. }
    do 3 (eapply rtc_l; [apply demo_advances|]). fold picked.
    rewrite (surjective_pairing picked). apply rtc_once.
    apply (l_claim _ _ _ _ _ _ _ _ (Matcher.new "anthropic") _ "w" "152" (job "a")). vm_compute. by left.
  - split; [exact Hl|]. split; [exact Hk|]. destruct (Hj (job "a")) as (_ & _ & r & Hr & _ & Hlc & _).
    { vm_compute. by left. }
    exists r. split; [exact Hr|exact Hlc].
Defined.
End witnesses.
