(* ===== verification/Ledger.v ===== *)
(** * The execution ledger ([crates/entity-daemon/src/execution_ledger.rs])

    The hash-chained log of what an Entity runtime did.  SHA-256 and the JSON
    library are parameters; a byte array is a string.  The ledger is the vector
    behind the mutex together with the content of its file. *)

From S2P Require Import Prelude RustStr.
From Stdlib Require Import ZArith Lia Ascii.
From stdpp Require Import base list strings pretty.

Record ExecutionEvent : Type := mkEvent {
  schema_version : string;
  event_id : string;
  entity_id : string;
  session_id : option string;
  event_kind : string;
  payload_digest : string;
  previous_hash : option string;
  event_hash : string;
  created_at_utc : string;
  soul_ref : string;
}.

Definition hex_digit (n : N) : ascii :=
  if (n <? 10)%N then ascii_of_N (48 + n) else ascii_of_N (87 + n).

Fixpoint to_hex (bytes : string) : string :=
  match bytes with
  | EmptyString => EmptyString
  | String c rest =>
      String (hex_digit (N.shiftr (N_of_ascii c) 4))
        (String (hex_digit (N.land (N_of_ascii c) 15)) (to_hex rest))
  end.

Definition SCHEMA : string := "execution_event_v1".

Section ledger.
Context (sha256 : string → string).

Definition sha256_hex (bytes : string) : string := to_hex (sha256 bytes).

(** The text that is hashed. *)
Definition hash_payload (event_id entity_id : string) (session_id : option string)
    (event_kind payload_digest : string) (previous_hash : option string)
    (created_at_utc soul_ref : string) : string :=
  "execution_event_v1" +:+ nl +:+ event_id +:+ nl +:+ entity_id +:+ nl +:+
  unwrap_or session_id "" +:+ nl +:+ event_kind +:+ nl +:+ payload_digest +:+ nl +:+
  unwrap_or previous_hash "" +:+ nl +:+ created_at_utc +:+ nl +:+ soul_ref.

Definition event_hash_of (e : ExecutionEvent) (previous : option string) : string :=
  sha256_hex (hash_payload (event_id e) (entity_id e) (session_id e) (event_kind e)
    (payload_digest e) previous (created_at_utc e) (soul_ref e)).

(** The loop of [verify_chain], from the given previous hash. *)
Fixpoint verify_from (previous : option string) (events : list ExecutionEvent) : bool :=
  match events with
  | [] => true
  | e :: rest =>
      if bool_decide (schema_version e ≠ SCHEMA) then false
      else if bool_decide (previous_hash e ≠ previous) then false
      else if bool_decide (event_hash e ≠ event_hash_of e (previous_hash e)) then false
      else verify_from (Some (event_hash e)) rest
  end.

Definition verify_chain (events : list ExecutionEvent) : bool := verify_from None events.

Context {Value : Type}.
Context (to_json : Value → string) (session_of : Value → option string).
Context (print : list ExecutionEvent → string) (parse : string → option (list ExecutionEvent)).

Record ExecutionLedger : Type := mkLedger {
  events : list ExecutionEvent;
  file : option string;
}.

(** [load]: [read] is the outcome of reading the file, [None] when it does not
    exist.  A file that does not parse gives an empty ledger. *)
Definition load (read : option (result string string)) : result ExecutionLedger string :=
  match read with
  | None => Ok (mkLedger [] None)
  | Some (Err e) => Err e
  | Some (Ok bytes) => Ok (mkLedger (unwrap_or (parse bytes) []) (Some bytes))
  end.

(** The write of a temporary file and its rename: [disk] is the error of the
    file system, if any. *)
Definition persist (disk : option string) : M ExecutionLedger string unit := λ l,
  match disk with
  | Some e => (l, Err e)
  | None => (mkLedger (events l) (Some (print (events l))), Ok tt)
  end.

Definition new_event (uuid now entity : string) (session : option string) (kind : string)
    (payload : Value) (soul : string) (previous : option string) : ExecutionEvent :=
  let e := mkEvent SCHEMA uuid entity session kind (sha256_hex (to_json payload)) previous ""
             now soul in
  mkEvent SCHEMA uuid entity session kind (sha256_hex (to_json payload)) previous
    (event_hash_of e previous) now soul.

Definition append_event (disk : option string) (uuid now entity : string)
    (session : option string) (kind : string) (payload : Value) (soul : string)
  : M ExecutionLedger string ExecutionEvent :=
  l ← get_state;
  let previous := event_hash <$> last (events l) in
  let event := new_event uuid now entity session kind payload soul previous in
  put_state (mkLedger (events l ++ [event]) (file l)) ;;
  persist disk ;;
  mret event.

Definition append_outbox_event (disk : option string) (uuid now entity kind : string)
    (payload : Value) (soul : string) : M ExecutionLedger string ExecutionEvent :=
  append_event disk uuid now entity (session_of payload) kind payload soul.

Definition in_session (session : option string) (e : ExecutionEvent) : bool :=
  match session with
  | Some s => bool_decide (session_id e = Some s)
  | None => true
  end.

Definition recent (session : option string) (limit : nat) (l : ExecutionLedger)
  : list ExecutionEvent :=
  keep_last limit (filter (in_session session) (events l)).

(** [get_execution_events] of [routes.rs]: the window and its verdict. *)
Definition get_execution_events (session : option string) (limit : option nat)
    (l : ExecutionLedger) : bool * list ExecutionEvent :=
  let limit := Nat.max 1 (Nat.min 500 (unwrap_or limit 50)) in
  let window := recent session limit l in
  (verify_chain window, window).
End ledger.
