(* ===== verification/LedgerSpec.v ===== *)
(** * The execution ledger: correctness

    Appending keeps the chain valid, whatever the disk does; two valid chains
    with the same head are equal unless two events of them collide; the ledger survives a
    restart.  The verdict of the diagnostic endpoint is shown to be about the
    window, not about the ledger. *)

From S2P Require Import Prelude RustStr Ledger.
From Stdlib Require Import ZArith Lia Ascii.
From stdpp Require Import base list sets strings pretty.

(** ** Hexadecimal *)

Definition hex_value (c : ascii) : N :=
  if (N_of_ascii c <? 58)%N then (N_of_ascii c - 48)%N else (N_of_ascii c - 87)%N.

Lemma byte_of_hex c :
  ascii_of_N (16 * hex_value (hex_digit (N.shiftr (N_of_ascii c) 4)) +
              hex_value (hex_digit (N.land (N_of_ascii c) 15))) = c.
Proof. by destruct c as [[] [] [] [] [] [] [] []]. Qed.

Lemma hex_line c :
  newline ≠ hex_digit (N.shiftr (N_of_ascii c) 4) ∧ newline ≠ hex_digit (N.land (N_of_ascii c) 15).
Proof. by destruct c as [[] [] [] [] [] [] [] []]. Qed.

Section chain.
Context (sha256 : string → string).
Notation verify_from := (verify_from sha256).
Notation verify_chain := (verify_chain sha256).
Notation event_hash_of := (event_hash_of sha256).

Definition head_hash (l : list ExecutionEvent) : option string := event_hash <$> last l.

Lemma verify_cons prev e l :
  verify_from prev (e :: l) = true ↔
  schema_version e = SCHEMA ∧ previous_hash e = prev ∧
  event_hash e = event_hash_of e prev ∧ verify_from (Some (event_hash e)) l = true.
Proof.
  simpl. repeat case_bool_decide; split; try done.
  - naive_solver.
  - naive_solver.
  - intros (_ & <- & ? & _). done.
  - intros Hr. split; [done|]. split; [done|]. split; [congruence|done].
  - naive_solver.
Qed.

Lemma verify_app prev l1 l2 :
  verify_from prev (l1 ++ l2) = true ↔
  verify_from prev l1 = true ∧
  verify_from (match head_hash l1 with Some h => Some h | None => prev end) l2 = true.
Proof.
  revert prev. induction l1 as [|e l1 IH]; intros prev; [naive_solver|].
  change ((e :: l1) ++ l2) with (e :: (l1 ++ l2)). rewrite !verify_cons, IH.
  assert (match head_hash (e :: l1) with Some h => Some h | None => prev end =
          match head_hash l1 with Some h => Some h | None => Some (event_hash e) end) as ->.
  { unfold head_hash. destruct l1 as [|e' l1]; [done|]. rewrite last_cons.
    by destruct (last (e' :: l1)) eqn:Hl; [|apply last_None in Hl]. }
  tauto.
Qed.

(** ** Appending *)

Context {Value : Type}.
Context (to_json : Value → string) (session_of : Value → option string).
Context (print : list ExecutionEvent → string) (parse : string → option (list ExecutionEvent)).
Notation append_event := (append_event sha256 to_json print).
Notation new_event := (new_event sha256 to_json).

(** Appending to a valid chain gives a valid chain: the new event carries
    the previous head's hash and its own hash, and nothing before it changes;
    on a disk error the event stays in the ledger although the caller gets the
    error, and the file keeps its content. *)
Theorem append_event_extends_chain disk uuid now entity session kind payload soul l l' o :
  verify_chain (events l) = true →
  append_event disk uuid now entity session kind payload soul l = (l', o) →
  let e := new_event uuid now entity session kind payload soul (head_hash (events l)) in
  events l' = events l ++ [e] ∧ verify_chain (events l') = true ∧
  match disk with
  | None => o = Ok e ∧ file l' = Some (print (events l'))
  | Some err => o = Err err ∧ file l' = file l
  end.
Proof.
  intros Hv Hm. cbv zeta.
  unfold Ledger.append_event, persist, mbind, M_bind, get_state, put_state, mret, M_ret in Hm.
  fold (head_hash (events l)) in Hm. set (e := new_event _ _ _ _ _ _ _ _) in *.
  assert (verify_chain (events l ++ [e]) = true) as Hv'.
  { apply verify_app. split; [done|]. apply verify_cons. unfold head_hash in *.
    split; [done|]. split; [by destruct (last (events l))|].
    split; [|done]. by destruct (last (events l)). }
  destruct disk; simplify_eq/=; auto.
Qed.

(** The ledger survives a restart: after a successful append, loading the
    file gives back the same events. *)
Theorem ledger_survives_restart uuid now entity session kind payload soul l l' o :
  append_event None uuid now entity session kind payload soul l = (l', o) →
  parse (print (events l')) = Some (events l') →
  ∃ bytes, file l' = Some bytes ∧
    load parse (Some (Ok bytes)) = Ok (mkLedger (events l') (Some bytes)).
Proof.
  unfold Ledger.append_event, persist, mbind, M_bind, get_state, put_state, mret, M_ret.
  intros Hm Hpp. simplify_eq/=. eexists. split; [done|]. simpl in Hpp. by rewrite Hpp.
Qed.

End chain.

(** ** Tampering *)

Section tamper.
Context (sha256 : string → string).
Notation verify_chain := (verify_chain sha256).
Notation event_hash_of := (event_hash_of sha256).
Context (sha256_len : ∀ bytes, String.length (sha256 bytes) = 32).

(** The fields of an event before the last are single lines. *)
Definition single_line (e : ExecutionEvent) : Prop :=
  newline ∉ str_chars (event_id e) ∧ newline ∉ str_chars (entity_id e) ∧
  newline ∉ str_chars (unwrap_or (session_id e) "") ∧ newline ∉ str_chars (event_kind e) ∧
  newline ∉ str_chars (payload_digest e) ∧ newline ∉ str_chars (created_at_utc e) ∧
  session_id e ≠ Some "".


(** The text an event commits to: its lines are the version of the format and the
    fields, the hash of the event before it among them. *)
Definition committed (e : ExecutionEvent) : string :=
  RustStr.join nl ["execution_event_v1"; event_id e; entity_id e; default "" (session_id e); event_kind e;
    payload_digest e; default "" (previous_hash e); created_at_utc e; soul_ref e].

(** The events of two chains on which they part, the same events after them: their
    texts differ and have the same SHA-256. *)
Definition collide (l l' : list ExecutionEvent) : Prop :=
  ∃ before before' e e' after, l = before ++ e :: after ∧ l' = before' ++ e' :: after ∧
    committed e ≠ committed e' ∧ sha256 (committed e) = sha256 (committed e').

Lemma committed_payload e :
  committed e = hash_payload (event_id e) (entity_id e) (session_id e) (event_kind e) (payload_digest e)
    (previous_hash e) (created_at_utc e) (soul_ref e).
Proof.
  unfold committed, hash_payload. cbn [RustStr.join]. unfold unwrap_or, default, id. by destruct (session_id e), (previous_hash e).
Qed.

Lemma collide_snoc l l' e : collide l l' → collide (l ++ [e]) (l' ++ [e]).
Proof.
  intros (b & b' & x & x' & a & -> & -> & ? & ?). exists b, b', x, x', (a ++ [e]).
  split_and!; [by rewrite <- app_assoc|by rewrite <- app_assoc|done|done].
Qed.

Lemma to_hex_inj a b : to_hex a = to_hex b → a = b.
Proof.
  revert b. induction a as [|c a IH]; intros [|d b]; simpl; try done.
  intros H. injection H as H1 H2 H. rewrite <- (byte_of_hex c), <- (byte_of_hex d), H1, H2.
  by rewrite (IH b).
Qed.

Lemma to_hex_line a : newline ∉ str_chars (to_hex a).
Proof.
  induction a as [|c a IH]; simpl; [apply not_elem_of_nil|].
  rewrite !not_elem_of_cons. destruct (hex_line c). auto.
Qed.

Lemma length_to_hex a : String.length (to_hex a) = 2 * String.length a.
Proof. induction a; simpl; lia. Qed.

Lemma payload_inj e e' prev prev' :
  single_line e → single_line e' →
  newline ∉ str_chars (unwrap_or prev "") → newline ∉ str_chars (unwrap_or prev' "") →
  hash_payload (event_id e) (entity_id e) (session_id e) (event_kind e)
    (payload_digest e) prev (created_at_utc e) (soul_ref e) =
  hash_payload (event_id e') (entity_id e') (session_id e') (event_kind e')
    (payload_digest e') prev' (created_at_utc e') (soul_ref e') →
  event_id e = event_id e' ∧ entity_id e = entity_id e' ∧ session_id e = session_id e' ∧
  event_kind e = event_kind e' ∧ payload_digest e = payload_digest e' ∧
  unwrap_or prev "" = unwrap_or prev' "" ∧ created_at_utc e = created_at_utc e' ∧
  soul_ref e = soul_ref e'.
Proof.
  intros (?&?&?&?&?&?&Hs) (?&?&?&?&?&?&Hs') Hp Hp'. unfold hash_payload.
  intros E%str_app_inj_l%str_app_inj_l.
  apply split_at_newline in E as [? E]; [|done..].
  apply split_at_newline in E as [? E]; [|done..].
  apply split_at_newline in E as [Hsess E]; [|done..].
  apply split_at_newline in E as [? E]; [|done..].
  apply split_at_newline in E as [? E]; [|done..].
  apply split_at_newline in E as [? E]; [|done..].
  apply split_at_newline in E as [? E]; [|done..].
  assert (session_id e = session_id e'); [|done].
  destruct (session_id e), (session_id e'); simpl in Hsess; congruence.
Qed.

(** A hash is a non-empty line. *)
Definition is_hash (o : option string) : Prop :=
  match o with Some h => ∃ bytes, h = sha256_hex sha256 bytes | None => True end.

Lemma is_hash_line o : is_hash o → newline ∉ str_chars (unwrap_or o "").
Proof. destruct o; simpl; [|intros _; apply not_elem_of_nil]. intros [b ->]. apply to_hex_line. Qed.

Lemma is_hash_inj o o' : is_hash o → is_hash o' → unwrap_or o "" = unwrap_or o' "" → o = o'.
Proof.
  assert (∀ b, sha256_hex sha256 b ≠ "") as Hne.
  { intros b Hb. pose proof (length_to_hex (sha256 b)) as Hl. unfold sha256_hex in Hb.
    rewrite Hb, sha256_len in Hl. simpl in Hl. lia. }
  destruct o, o'; simpl; intros H H' E; try done; [by subst|..].
  - destruct H as [b ->]. by apply Hne in E.
  - destruct H' as [b ->]. symmetry in E. by apply Hne in E.
Qed.

Lemma verify_snoc l e :
  verify_chain (l ++ [e]) = true ↔
  verify_chain l = true ∧ schema_version e = SCHEMA ∧ previous_hash e = head_hash l ∧
  event_hash e = event_hash_of e (head_hash l).
Proof.
  unfold Ledger.verify_chain. rewrite verify_app, verify_cons.
  assert (match head_hash l with Some h => Some h | None => None end = head_hash l) as ->
    by (by destruct (head_hash l)).
  simpl. tauto.
Qed.

Lemma head_is_hash l : verify_chain l = true → is_hash (head_hash l).
Proof.
  destruct l as [|e l _] using rev_ind; [done|]. intros (_ & _ & _ & Hh)%verify_snoc.
  unfold head_hash. rewrite last_snoc. simpl. rewrite Hh. by eexists.
Qed.

(** C27: tampering is evident: two valid chains of events whose fields (but the last) are
    single lines and whose session, if there is one, is not empty, that end in the same
    event hash, are the same chain, event by event and field by field, unless they hold
    a collision of SHA-256: two events, the chains the same after them, whose
    committed texts differ and have the same hash. *)
Theorem chain_tamper_evident l l' :
  verify_chain l = true → verify_chain l' = true →
  Forall single_line l → Forall single_line l' →
  head_hash l = head_hash l' → l = l' ∨ collide l l'.
Proof.
  revert l'. induction l as [|e l IH] using rev_ind; intros l' Hv Hv' Hs Hs' Hh.
  - destruct l' as [|e' l' _] using rev_ind; [by left|].
    unfold head_hash in Hh. by rewrite last_snoc in Hh.
  - destruct l' as [|e' l' _] using rev_ind.
    { unfold head_hash in Hh. by rewrite last_snoc in Hh. }
    apply verify_snoc in Hv as (Hv & Hsch & Hp & He), Hv' as (Hv' & Hsch' & Hp' & He').
    apply Forall_app in Hs as [Hs Hse], Hs' as [Hs' Hse']. rewrite Forall_singleton in Hse, Hse'.
    unfold head_hash in Hh at 1 2. rewrite !last_snoc in Hh. simpl in Hh.
    injection Hh as Hh. pose proof Hh as Hh2.
    rewrite He, He', <- Hp, <- Hp' in Hh2. unfold Ledger.event_hash_of in Hh2.
    rewrite <- !committed_payload in Hh2. apply to_hex_inj in Hh2.
    pose proof (head_is_hash _ Hv) as Hl. pose proof (head_is_hash _ Hv') as Hl'.
    destruct (decide (committed e = committed e')) as [Hc|Hc].
    2: { right. by exists l, l', e, e', []. }
    rewrite !committed_payload in Hc.
    apply payload_inj in Hc as (?&?&?&?&?&Hprev&?&?);
      [|exact Hse|exact Hse'|rewrite ?Hp, ?Hp'; by apply is_hash_line..].
    rewrite Hp, Hp' in Hprev. apply is_hash_inj in Hprev; [|done..].
    assert (e = e') as -> by (destruct e, e'; simpl in *; congruence).
    destruct (IH l' Hv Hv' Hs Hs' Hprev) as [->|?]; [by left|right; by apply collide_snoc].
Qed.

(** ** The diagnostic endpoint *)

Lemma verify_nongenesis e l :
  is_Some (previous_hash e) → verify_chain (e :: l) = false.
Proof.
  intros [h Hh]. apply not_true_iff_false. intros (_ & Hp & _)%verify_cons. congruence.
Qed.

Lemma later_event_linked l1 e l2 :
  verify_chain (l1 ++ e :: l2) = true → l1 ≠ [] → is_Some (previous_hash e).
Proof.
  intros [_ (_ & Hp & _)%verify_cons]%verify_app Hne. rewrite Hp.
  destruct l1 as [|e1 l1 _] using rev_ind; [done|]. unfold head_hash.
  rewrite last_snoc. simpl. eauto.
Qed.

(** The endpoint that reports the recent events checks the window as if it
    were the whole chain: for any valid ledger longer than the window it
    answers that the chain is invalid. *)
Theorem long_ledger_reported_invalid limit (l : ExecutionLedger) :
  verify_chain (events l) = true →
  Nat.max 1 (Nat.min 500 (unwrap_or limit 50)) < length (events l) →
  (get_execution_events sha256 None limit l).1 = false.
Proof.
  unfold get_execution_events. set (n := Nat.max 1 _). intros Hv Hn. simpl.
  unfold recent. rewrite filter_bool_all by done.
  unfold keep_last. rewrite decide_True by done.
  destruct (drop (length (events l) - n) (events l)) as [|e rest] eqn:Hd.
  { apply (f_equal length) in Hd. rewrite length_drop in Hd. simpl in Hd. lia. }
  apply verify_nongenesis.
  apply (later_event_linked (take (length (events l) - n) (events l)) _ rest).
  - by rewrite <- Hd, take_drop.
  - intros He. apply (f_equal length) in He. rewrite length_take in He. simpl in He. lia.
Qed.
End tamper.

(** ** Witnesses *)

(** A stand-in for SHA-256: the text cut or padded to 32 bytes. *)
Definition pad32 : string := "                                ".
Definition toy_sha (s : string) : string := str_take 32 (str_drop 27 s +:+ pad32).

Lemma toy_sha_len s : String.length (toy_sha s) = 32.
Proof. unfold toy_sha. rewrite str_length_take, str_length_app.
  assert (String.length pad32 = 32) as -> by reflexivity. lia. Qed.

Definition toy_ledger (n : nat) : ExecutionLedger :=
  Nat.iter n (λ l, (append_event toy_sha (λ v : string, v) (λ _, "json") None "id" "now" "entity"
    None "chat" "payload" "soul" l).1) (mkLedger [] None).

Lemma append_event_extends_chain_witness :
  verify_chain toy_sha (events (append_event toy_sha (λ v : string, v) (λ _, "json") (Some "disk full")
    "id" "now" "entity" None "chat" "payload" "soul" (toy_ledger 2)).1) = true.
Proof.
  destruct (append_event toy_sha (λ v : string, v) (λ _, "json") (Some "disk full")
    "id" "now" "entity" None "chat" "payload" "soul" (toy_ledger 2)) as [l' o] eqn:H.
  eapply (append_event_extends_chain toy_sha (λ v : string, v)) in H;
    [by destruct H as (_ & ? & _)|vm_compute; reflexivity].
Defined.

Lemma ledger_survives_restart_witness :
  ∃ bytes, load (λ _, Some (events (toy_ledger 2))) (Some (Ok bytes)) =
    Ok (mkLedger (events (toy_ledger 2)) (Some bytes)).
Proof.
  destruct (ledger_survives_restart toy_sha (λ v : string, v) (λ _, "json")
    (λ _, Some (events (toy_ledger 2))) "id" "now" "entity" None "chat" "payload" "soul"
    (toy_ledger 1) (toy_ledger 2) (append_event toy_sha (λ v : string, v) (λ _, "json") None "id" "now"
      "entity" None "chat" "payload" "soul" (toy_ledger 1)).2) as (bytes & _ & Hl);
    [reflexivity|reflexivity|by exists bytes].
Defined.

(** The same chain with another last field in each event: the toy hash does not
    see the change. *)
Definition forged : list ExecutionEvent :=
  map (λ e, mkEvent (schema_version e) (event_id e) (entity_id e) (session_id e) (event_kind e)
    (payload_digest e) (previous_hash e) (event_hash e) (created_at_utc e) "forged")
    (events (toy_ledger 2)).

Lemma chain_tamper_evident_witness :
  forged ≠ events (toy_ledger 2) ∧ (events (toy_ledger 2) = forged ∨ collide toy_sha (events (toy_ledger 2)) forged).
Proof.
  split; [by vm_compute|].
  apply (chain_tamper_evident toy_sha toy_sha_len);
    [vm_compute; reflexivity|vm_compute; reflexivity| | |vm_compute; reflexivity];
    repeat constructor; simpl; vm_compute; set_solver.
Defined.

Lemma long_ledger_reported_invalid_witness :
  verify_chain toy_sha (events (toy_ledger 3)) = true ∧
  (get_execution_events toy_sha None (Some 2) (toy_ledger 3)).1 = false.
Proof.
  split; [vm_compute; reflexivity|].
  apply (long_ledger_reported_invalid toy_sha); [vm_compute; reflexivity|vm_compute; lia].
Defined.
