(* ===== verification/Outbox.v ===== *)
(** * The runtime outbox ([crates/entity-daemon/src/outbox.rs])

    The bounded queue of records an Entity runtime has not yet synced to Hive.
    The object is the vector behind the mutex and the content of its file; the
    JSON library and the outcome of a write ([disk]: the error, if any) are
    arguments. *)

From S2P Require Import Prelude RustStr Paths.
From Stdlib Require Import ZArith Lia.
From stdpp Require Import base list sets strings pretty.

Section outbox.
Context {Value : Type}.

Record EntityOutboxRecord : Type := mkRecord {
  record_id : string;
  entity_id : string;
  kind : string;
  created_at_utc : string;
  payload : Value;
}.

Record PersistedOutbox : Type := mkPersisted {
  records : list EntityOutboxRecord;
  last_sync_at_utc : option string;
  last_sync_error : option string;
}.

Definition PersistedOutbox_default : PersistedOutbox := mkPersisted [] None None.

Record EntityOutboxStatus : Type := mkStatus {
  queued_records : nat;
  oldest_record_at_utc : option string;
  status_last_sync_at_utc : option string;
  status_last_sync_error : option string;
}.

Context (print : PersistedOutbox → string) (parse : string → option PersistedOutbox).

Record RuntimeOutbox : Type := mkOutbox {
  max_records : nat;
  inner : PersistedOutbox;
  file : option string;
}.

Definition OUTBOX_FILE_NAME : string := "runtime_outbox.json".

(** The errors of [load] are those of the path guard, of the read and of the
    parser; only the last two matter here ([read]: [None] when there is no
    file). *)
Definition load (root : path) (read : option (result string string)) (max_records : nat)
  : result RuntimeOutbox string :=
  match trusted_file_path root OUTBOX_FILE_NAME with
  | Err _ => Err "path"
  | Ok _ =>
      match read with
      | None => Ok (mkOutbox max_records PersistedOutbox_default None)
      | Some (Err e) => Err e
      | Some (Ok bytes) =>
          match parse bytes with
          | Some inner => Ok (mkOutbox max_records inner (Some bytes))
          | None => Err "invalid outbox file"
          end
      end
  end.

Notation O := (M RuntimeOutbox string).

Definition save_locked (disk : option string) : O unit := λ b,
  match disk with
  | Some e => (b, Err e)
  | None => (mkOutbox (max_records b) (inner b) (Some (print (inner b))), Ok tt)
  end.

Definition with_inner (f : PersistedOutbox → PersistedOutbox) : O unit :=
  modify (λ b, mkOutbox (max_records b) (f (inner b)) (file b)).

(** [push], then [drain(0..overflow)] when there are too many. *)
Definition push_bounded (max : nat) (r : EntityOutboxRecord) (l : list EntityOutboxRecord)
  : list EntityOutboxRecord :=
  let l := l ++ [r] in
  if decide (max < length l) then drop (length l - max) l else l.

Definition enqueue (disk : option string) (uuid now entity_id kind : string) (payload : Value)
  : O EntityOutboxRecord :=
  let record := mkRecord uuid entity_id kind now payload in
  b ← get_state;
  with_inner (λ p, mkPersisted (push_bounded (max_records b) record (records p))
                     (last_sync_at_utc p) (last_sync_error p)) ;;
  save_locked disk ;;
  mret record.

Definition snapshot : O (list EntityOutboxRecord) :=
  b ← get_state; mret (records (inner b)).

Definition acknowledge (disk : option string) (now : string) (accepted : list string) : O unit :=
  with_inner (λ p, mkPersisted (filter (λ r, record_id r ∉ accepted) (records p))
                     (Some now) None) ;;
  save_locked disk.

Definition mark_sync_error (disk : option string) (error : string) : O unit :=
  with_inner (λ p, mkPersisted (records p) (last_sync_at_utc p) (Some error)) ;;
  save_locked disk.

Definition status : O EntityOutboxStatus :=
  b ← get_state;
  mret (mkStatus (length (records (inner b))) (created_at_utc <$> head (records (inner b)))
          (last_sync_at_utc (inner b)) (last_sync_error (inner b))).
End outbox.
Arguments EntityOutboxRecord Value : clear implicits.
Arguments PersistedOutbox Value : clear implicits.
Arguments RuntimeOutbox Value : clear implicits.
