(* ===== verification/ControlPlane.v ===== *)
(** * The Hive's runtime control plane

    [RuntimeControlPlane] ([crates/hive-daemon/src/runtime_registry.rs]), the
    single-use launch capabilities and the listen announcement
    ([supervisor.rs]), over the wire types of [crates/hive-core/src/lib.rs].
    SHA-256, the JSON encoding and the signer are parameters; identifiers and
    the clock are arguments. *)

From S2P Require Import Prelude RustStr Ledger Outbox.
From Stdlib Require Import ZArith Lia Ascii.
From stdpp Require Import base list sets strings gmap pretty.

Record RuntimeSessionRequest : Type := mkSessionRequest {
  req_entity_id : string;
  req_runtime_id : option string;
}.

Record RuntimeSessionLease : Type := mkLease {
  lease_id : string;
  lease_entity_id : string;
  lease_runtime_id : string;
  entity_name : option string;
  hive_url : option string;
  issued_at_utc : string;
  expires_at_utc : option string;
  offline_until_close : bool;
  lease_scope : string;
}.

Record RuntimeRegistrationRequest : Type := mkRegistrationRequest {
  rr_lease_id : string;
  rr_runtime_id : string;
  rr_local_url : string;
  rr_process_id : option Z;
}.

Record RuntimeRegistration : Type := mkRegistration {
  reg_lease_id : string;
  reg_runtime_id : string;
  reg_entity_id : string;
  local_url : string;
  process_id : option Z;
  registered_at_utc : string;
  last_seen_at_utc : string;
  reg_state : string;
}.

Record RuntimeSessionStatus : Type := mkSession {
  lease : RuntimeSessionLease;
  registration : option RuntimeRegistration;
  connected : bool;
  outbox_depth : Z;
  outbox_oldest_at_utc : option string;
}.

Record RuntimeHeartbeatRequest : Type := mkHeartbeat {
  hb_lease_id : string;
  hb_runtime_id : string;
  hb_local_url : option string;
  hb_outbox_depth : Z;
  hb_outbox_oldest_at_utc : option string;
}.

Record SkillAssignment : Type := mkAssignment {
  assignment_id : string;
  as_entity_id : string;
  as_skill_id : string;
  as_version : option string;
  as_manifest_path : option string;
  assigned_at_utc : string;
  as_status : string;
}.

Record ForgeApprovalJob : Type := mkForgeJob {
  fj_job_id : string;
  fj_entity_id : string;
  fj_skill_id : string;
  fj_code_path : string;
  fj_markdown_path : string;
  fj_approved_at_utc : string;
  fj_status : string;
  fj_correlation_id : option string;
}.

Record CreateForgeApprovalJobRequest : Type := mkForgeRequest {
  fr_skill_id : string;
  fr_code_path : string;
  fr_markdown_path : string;
  fr_correlation_id : option string;
}.

Record ExecutionReceipt : Type := mkReceipt {
  rc_schema_version : string;
  receipt_id : string;
  rc_entity_id : string;
  rc_runtime_id : string;
  rc_lease_id : string;
  batch_hash : string;
  event_count : nat;
  rc_accepted_record_ids : list string;
  rc_signature : string;
  rc_public_key : string;
  signed_at_utc : string;
}.

Section plane.
Context {Value : Type}.
Context (sha256 : string → string) (to_json : Value → string).

Notation Rec := (EntityOutboxRecord Value).

Record OutboxSyncRequest : Type := mkSyncRequest {
  sr_lease_id : string;
  sr_runtime_id : string;
  sr_records : list Rec;
}.

Record OutboxSyncResponse : Type := mkSyncResponse {
  accepted_record_ids : list string;
  pending_records : nat;
  server_time_utc : string;
  response_receipts : list ExecutionReceipt;
}.

(** The assignments and forge jobs are stored with their entity id; the maps
    below hold their lists. *)
Record RuntimeControlPlane : Type := mkPlane {
  sessions : gmap string RuntimeSessionStatus;
  assignments_ : gmap string (list SkillAssignment);
  forge_jobs_ : gmap string (list ForgeApprovalJob);
  synced_outbox : gmap string (list Rec);
  receipts_ : gmap string (list ExecutionReceipt);
}.

Definition empty_plane : RuntimeControlPlane := mkPlane ∅ ∅ ∅ ∅ ∅.

Definition with_sessions (f : gmap string RuntimeSessionStatus → gmap string RuntimeSessionStatus)
    (p : RuntimeControlPlane) : RuntimeControlPlane :=
  mkPlane (f (sessions p)) (assignments_ p) (forge_jobs_ p) (synced_outbox p) (receipts_ p).

Notation P := (M RuntimeControlPlane string).

(** [lease_uuid] and [runtime_uuid] are the identifiers drawn. *)
Definition issue_session (lease_uuid runtime_uuid now : string) (request : RuntimeSessionRequest)
    (name url : option string) : P RuntimeSessionLease :=
  let runtime_id := unwrap_or (req_runtime_id request) ("runtime-" +:+ runtime_uuid) in
  let l := mkLease lease_uuid (req_entity_id request) runtime_id name url now None true
             "runtime_session" in
  modify (with_sessions (<[lease_uuid := mkSession l None false 0 None]>)) ;;
  mret l.

(** The lookup and the check shared by the three calls of a runtime. *)
Definition authorized_session (lease runtime : string) : P RuntimeSessionStatus :=
  p ← get_state;
  session ← lift_result (ok_or (sessions p !! lease) ("Unknown runtime lease '" +:+ lease +:+ "'"));
  ensure (bool_decide (lease_runtime_id (ControlPlane.lease session) = runtime))
    ("Runtime '" +:+ runtime +:+ "' does not match lease '" +:+ lease +:+ "'") ;;
  mret session.

Definition register_runtime (now : string) (request : RuntimeRegistrationRequest)
  : P RuntimeSessionStatus :=
  session ← authorized_session (rr_lease_id request) (rr_runtime_id request);
  let reg := mkRegistration (rr_lease_id request) (rr_runtime_id request)
               (lease_entity_id (lease session)) (rr_local_url request) (rr_process_id request)
               now now "active" in
  let session := mkSession (lease session) (Some reg) true (outbox_depth session)
                   (outbox_oldest_at_utc session) in
  modify (with_sessions (<[rr_lease_id request := session]>)) ;;
  mret session.

Definition touch_registration (now : string) (url : option string) (r : RuntimeRegistration)
  : RuntimeRegistration :=
  mkRegistration (reg_lease_id r) (reg_runtime_id r) (reg_entity_id r)
    (unwrap_or url (local_url r)) (process_id r) (registered_at_utc r) now "active".

(** The response is the server time; [accepted] is always true. *)
Definition record_heartbeat (now : string) (request : RuntimeHeartbeatRequest) : P string :=
  session ← authorized_session (hb_lease_id request) (hb_runtime_id request);
  let session := mkSession (lease session)
                   (touch_registration now (hb_local_url request) <$> registration session)
                   true (hb_outbox_depth request) (hb_outbox_oldest_at_utc request) in
  modify (with_sessions (<[hb_lease_id request := session]>)) ;;
  mret now.

Definition session_status (lease : string) (p : RuntimeControlPlane) : option RuntimeSessionStatus :=
  sessions p !! lease.

Definition revoke_entity_sessions (entity : string) : P nat :=
  p ← get_state;
  let kept := filter (λ kv, lease_entity_id (lease kv.2) ≠ entity) (sessions p) in
  put_state (with_sessions (λ _, kept) p) ;;
  mret (size (sessions p) - size kept).

Definition assignments (entity : string) (p : RuntimeControlPlane) : list SkillAssignment :=
  unwrap_or (assignments_ p !! entity) [].

Definition set_assignments (entity : string) (l : list SkillAssignment) : P (list SkillAssignment) :=
  modify (λ p, mkPlane (sessions p) (<[entity := l]> (assignments_ p)) (forge_jobs_ p)
                 (synced_outbox p) (receipts_ p)) ;;
  mret l.

Definition forge_jobs (entity : string) (p : RuntimeControlPlane) : list ForgeApprovalJob :=
  unwrap_or (forge_jobs_ p !! entity) [].

Definition create_forge_job (uuid now entity : string) (request : CreateForgeApprovalJobRequest)
  : P ForgeApprovalJob :=
  let job := mkForgeJob uuid entity (fr_skill_id request) (fr_code_path request)
               (fr_markdown_path request) now "approved" (fr_correlation_id request) in
  modify (λ p, mkPlane (sessions p) (assignments_ p)
                 (<[entity := forge_jobs entity p ++ [job]]> (forge_jobs_ p))
                 (synced_outbox p) (receipts_ p)) ;;
  mret job.

(** The bytes fed to the batch hash. *)
Definition batch_text (records : list Rec) : string :=
  "execution_receipt_v1" +:+ nl +:+
  foldr (λ r rest,
    record_id r +:+ nl +:+ Outbox.entity_id r +:+ nl +:+ kind r +:+ nl +:+
    Outbox.created_at_utc r +:+ nl +:+ sha256 (to_json (payload r)) +:+ nl +:+ rest) "" records.

Definition hash_outbox_batch (records : list Rec) : string := to_hex (sha256 (batch_text records)).

Definition receipt_payload (entity runtime lease batch : string) (ids : list string) : string :=
  "execution_receipt_v1" +:+ nl +:+ "entity_id=" +:+ entity +:+ nl +:+
  "runtime_id=" +:+ runtime +:+ nl +:+ "lease_id=" +:+ lease +:+ nl +:+
  "batch_hash=" +:+ batch +:+ nl +:+ "event_count=" +:+ pretty (length ids) +:+ nl +:+
  "accepted_record_ids=" +:+ RustStr.join "," ids.

Definition sync_outbox (signer : string → string * string) (uuid now : string)
    (request : OutboxSyncRequest) : P OutboxSyncResponse :=
  session ← authorized_session (sr_lease_id request) (sr_runtime_id request);
  let entity := lease_entity_id (lease session) in
  let ids := map record_id (sr_records request) in
  let session := mkSession (lease session) (registration session) (connected session) 0 None in
  let receipts :=
    match sr_records request with
    | [] => []
    | _ =>
        let batch := hash_outbox_batch (sr_records request) in
        let '(signature, public_key) :=
          signer (receipt_payload entity (sr_runtime_id request) (sr_lease_id request) batch ids) in
        [mkReceipt "execution_receipt_v1" uuid entity (sr_runtime_id request)
           (sr_lease_id request) batch (length ids) ids signature public_key now]
    end in
  modify (λ p,
    mkPlane (<[sr_lease_id request := session]> (sessions p)) (assignments_ p) (forge_jobs_ p)
      (<[entity := unwrap_or (synced_outbox p !! entity) [] ++ sr_records request]> (synced_outbox p))
      (match receipts with
       | [] => receipts_ p
       | _ => <[entity := unwrap_or (receipts_ p !! entity) [] ++ receipts]> (receipts_ p)
       end)) ;;
  mret (mkSyncResponse ids 0 now receipts).

Definition execution_receipts (entity : string) (limit : nat) (p : RuntimeControlPlane)
  : list ExecutionReceipt :=
  keep_last limit (unwrap_or (receipts_ p !! entity) []).
End plane.
Arguments RuntimeControlPlane Value : clear implicits.
Arguments OutboxSyncRequest Value : clear implicits.

(** ** Launch capabilities ([supervisor.rs]) *)

Notation BootstrapRegistry := (gmap string string).

(** The capability is two fresh UUIDs. *)
Definition issue_runtime_bootstrap (uuid1 uuid2 entity : string) (r : BootstrapRegistry)
  : BootstrapRegistry * string :=
  (<[entity := uuid1 +:+ uuid2]> r, uuid1 +:+ uuid2).

Definition consume_runtime_bootstrap (entity capability : string) (r : BootstrapRegistry)
  : BootstrapRegistry * bool :=
  if bool_decide (r !! entity = Some capability) then (delete entity r, true) else (r, false).

Definition revoke_runtime_bootstrap (entity capability : string) (r : BootstrapRegistry)
  : BootstrapRegistry := (consume_runtime_bootstrap entity capability r).1.

(** ** The listen announcement *)

Definition ANNOUNCEMENT_PREFIX : string := "Entity daemon listening on http://127.0.0.1:".
Definition invalid_announcement : string := "Invalid Entity listen announcement".

(** The value of a string of digits. *)
Fixpoint digits_value (acc : N) (s : string) : N :=
  match s with
  | EmptyString => acc
  | String c s' => digits_value (10 * acc + (N_of_ascii c - 48)) s'
  end.

(** [str::parse::<u16>] on a string of digits. *)
Definition parse_u16 (digits : string) : option N :=
  let n := digits_value 0 digits in
  if (n <? 65536)%N then Some n else None.

Definition parse_listen_announcement (line : string) : result string string :=
  match RustStr.strip_prefix line ANNOUNCEMENT_PREFIX with
  | None => Err invalid_announcement
  | Some digits =>
      if str_is_empty digits || negb (forallb is_ascii_digit (str_chars digits))
      then Err invalid_announcement
      else match parse_u16 digits with
      | Some port =>
          if bool_decide (port ≠ 0%N) && bool_decide (pretty port = digits)
          then Ok ("http://127.0.0.1:" +:+ pretty port)
          else Err invalid_announcement
      | None => Err invalid_announcement
      end
  end.

Definition MAX_ANNOUNCEMENT_BYTES : nat := 256.

(** [line.last() == Some(b'\r')], then [pop]. *)
Definition strip_cr (line : string) : string :=
  trim_one (λ c, bool_decide (c = "013"%char)) line.

(** The loop that reads bytes up to the line feed; [stream] is what the child
    writes before it closes its output. *)
Fixpoint read_listen_announcement (line stream : string) : result string string :=
  match stream with
  | EmptyString => Err "Entity stdout closed before its listen announcement"
  | String c rest =>
      if decide (c = newline) then parse_listen_announcement (strip_cr line)
      else if decide (String.length line = MAX_ANNOUNCEMENT_BYTES)
      then Err "Entity listen announcement exceeded its size limit"
      else read_listen_announcement (line +:+ String c "") rest
  end.
