(* ===== verification/SyncSpec.v ===== *)
(** * Syncing with the Hive: correctness

    The outbox stays within its bound and loses nothing across a round of
    syncing; the control plane keeps its sessions, registrations and receipts
    consistent over every sequence of calls and refuses a runtime that does not
    hold the lease; launch capabilities are single-use; the listen announcement
    is read exactly in its canonical spelling. *)

From S2P Require Import Prelude RustStr Paths Ledger Outbox ControlPlane.
From Stdlib Require Import ZArith Lia Ascii.
From stdpp Require Import base list sets strings gmap fin_maps relations pretty.

(** ** The outbox *)

Section outbox.
Context {Value : Type} (print : PersistedOutbox Value → string).
Notation Rec := (EntityOutboxRecord Value).
Notation Box := (RuntimeOutbox Value).
Implicit Types b : Box.

Definition queued b : list Rec := records (inner b).

(** Changes of the object; the disk may fail after any of them. *)
Inductive box_step b b' : Prop :=
| b_enqueue disk uuid now entity kind payload o :
    enqueue print disk uuid now entity kind payload b = (b', o) → box_step b b'
| b_ack disk now accepted o : acknowledge print disk now accepted b = (b', o) → box_step b b'
| b_error disk error o : mark_sync_error print disk error b = (b', o) → box_step b b'.

Lemma push_bounded_eq max (r : Rec) l : push_bounded max r l = keep_last max (l ++ [r]).
Proof. done. Qed.

Lemma save_inv disk b b' o :
  save_locked print disk b = (b', o) →
  inner b' = inner b ∧ max_records b' = max_records b ∧
  match disk with
  | None => o = Ok tt ∧ file b' = Some (print (inner b))
  | Some e => o = Err e ∧ b' = b
  end.
Proof. unfold save_locked. destruct disk; intros; by simplify_eq. Qed.

Lemma enqueue_effect disk uuid now entity kind payload b b' o :
  enqueue print disk uuid now entity kind payload b = (b', o) →
  let r := mkRecord uuid entity kind now payload in
  queued b' = keep_last (max_records b) (queued b ++ [r]) ∧ max_records b' = max_records b ∧
  match disk with
  | None => o = Ok r ∧ file b' = Some (print (inner b'))
  | Some e => o = Err e ∧ file b' = file b
  end.
Proof.
  intros Hm. cbv zeta.
  unfold enqueue, with_inner, get_state, modify, mbind, M_bind, mret, M_ret, save_locked in Hm.
  destruct disk; by simplify_eq/=.
Qed.

Lemma acknowledge_effect disk now accepted b b' o :
  acknowledge print disk now accepted b = (b', o) →
  queued b' = filter (λ r, record_id r ∉ accepted) (queued b) ∧ max_records b' = max_records b.
Proof.
  intros Hm. unfold acknowledge, with_inner, modify, mbind, M_bind, save_locked in Hm.
  destruct disk; by simplify_eq/=.
Qed.

Lemma length_keep_last_le {A} n (l : list A) : length (keep_last n l) ≤ n.
Proof. autorewrite with abigail. lia. Qed.

(** The outbox never holds more than [max_records] records, over any sequence
    of enqueues, acknowledgements and errors and whatever the disk does; an
    enqueue drops the oldest records only. *)
Theorem outbox_bounded b b' :
  length (queued b) ≤ max_records b → rtc box_step b b' →
  max_records b' = max_records b ∧ length (queued b') ≤ max_records b' ∧
  (∀ disk uuid now entity kind payload b'' o,
     enqueue print disk uuid now entity kind payload b' = (b'', o) →
     queued b'' `suffix_of` queued b' ++ [mkRecord uuid entity kind now payload]).
Proof.
  intros Hb Hs.
  assert (max_records b' = max_records b ∧ length (queued b') ≤ max_records b') as [Hm Hl].
  2: { split_and!; [done..|]. intros * [-> _]%enqueue_effect. eauto with abigail. }
  induction Hs as [b|b b1 b' Hs _ IH]; [done|].
  assert (max_records b1 = max_records b ∧ length (queued b1) ≤ max_records b1) as [Hm Hl].
  { destruct Hs as [disk uuid now entity kind payload o Hm|disk now acc o Hm|disk e o Hm].
    - apply enqueue_effect in Hm as (Hq & Hmax & _). rewrite Hq, Hmax.
      split; [done|]. apply length_keep_last_le.
    - apply acknowledge_effect in Hm as [Hq Hmax]. rewrite Hq, Hmax. split; [done|].
      etrans; [apply length_filter|done].
    - unfold mark_sync_error, with_inner, modify, mbind, M_bind, save_locked in Hm.
      destruct disk; by simplify_eq/=. }
  destruct (IH Hl) as [-> ?]. done.
Qed.

(** Records enqueued one after the other. *)
Inductive enqueued : list Rec → Box → Box → Prop :=
| enq_nil b : enqueued [] b b
| enq_cons r l b b1 b' disk uuid now entity kind payload o :
    enqueue print disk uuid now entity kind payload b = (b1, o) →
    r = mkRecord uuid entity kind now payload →
    enqueued l b1 b' → enqueued (r :: l) b b'.

Lemma drop_keep_last {A} n (l l' : list A) :
  keep_last n (keep_last n l ++ l') = keep_last n (l ++ l').
Proof.
  assert (∀ m : list A, keep_last n m = drop (length m - n) m) as Hk.
  { intros m. unfold keep_last. case_decide; [done|].
    by replace (length m - n) with 0 by lia. }
  rewrite !Hk, !length_app, length_drop.
  destruct (decide (n ≤ length l)) as [Hn|Hn].
  - rewrite (drop_app (drop _ l)), (drop_app l), length_drop, drop_drop.
    f_equal; f_equal; lia.
  - replace (length l - n) with 0 by lia. rewrite drop_0. f_equal. lia.
Qed.

Lemma enqueued_records l b b' :
  enqueued l b b' → length (queued b) ≤ max_records b →
  queued b' = keep_last (max_records b) (queued b ++ l) ∧ max_records b' = max_records b.
Proof.
  induction 1 as [b|r l b b1 b' disk uuid now entity kind payload o Hm -> He IH]; intros Hb.
  - rewrite app_nil_r. split; [|done]. unfold keep_last. by rewrite decide_False by lia.
  - apply enqueue_effect in Hm as (Hq & Hmax & _).
    destruct IH as [-> ->]; [rewrite Hq, Hmax; apply length_keep_last_le|].
    split; [|done]. rewrite Hq, Hmax, drop_keep_last. by rewrite <- app_assoc.
Qed.
End outbox.

(** ** The control plane *)

Section plane.
Context {Value : Type} (sha256 : string → string) (to_json : Value → string).
Notation Rec := (EntityOutboxRecord Value).
Notation Plane := (RuntimeControlPlane Value).
Notation sync_outbox := (sync_outbox sha256 to_json).
Implicit Types p : Plane.

(** The runtime holds the lease. *)
Definition holds p (lease_ runtime : string) (s : RuntimeSessionStatus) : Prop :=
  sessions p !! lease_ = Some s ∧ lease_runtime_id (lease s) = runtime.

Lemma authorized_inv lease_ runtime p p' o :
  authorized_session (Value:=Value) lease_ runtime p = (p', o) →
  p' = p ∧ match o with
           | Ok s => holds p lease_ runtime s
           | Err _ => ∀ s, ¬ holds p lease_ runtime s
           end.
Proof.
  unfold authorized_session, mbind, M_bind, get_state, lift_result, ensure, holds.
  destruct (sessions p !! lease_) as [s|] eqn:Hs; simpl.
  - case_bool_decide as Hr; unfold mret, M_ret, fail; intros; simplify_eq; naive_solver.
  - intros; simplify_eq. split; [done|]. naive_solver.
Qed.

Lemma authorized_bind {A} lease_ runtime (k : RuntimeSessionStatus → M Plane string A) p p' o :
  (authorized_session lease_ runtime ≫= k) p = (p', o) →
  (∃ s, holds p lease_ runtime s ∧ k s p = (p', o)) ∨
  ((∀ s, ¬ holds p lease_ runtime s) ∧ p' = p ∧ ∃ e, o = Err e).
Proof.
  intros Hm. step_inv Hm.
  - apply authorized_inv in Hm0 as [-> Ha]. left. eauto.
  - apply authorized_inv in Hm0 as [-> Ha]. subst. right. eauto.
Qed.

(** A runtime that does not hold the lease (unknown lease, or another
    runtime's) cannot register, beat or sync: the call is an error and the
    control plane is unchanged. *)
Theorem foreign_runtime_rejected now signer uuid p
    (rr : RuntimeRegistrationRequest) (hb : RuntimeHeartbeatRequest) (sr : OutboxSyncRequest Value) :
  ((∀ s, ¬ holds p (rr_lease_id rr) (rr_runtime_id rr) s) →
   ∃ e, register_runtime now rr p = (p, Err e)) ∧
  ((∀ s, ¬ holds p (hb_lease_id hb) (hb_runtime_id hb) s) →
   ∃ e, record_heartbeat now hb p = (p, Err e)) ∧
  ((∀ s, ¬ holds p (sr_lease_id sr) (sr_runtime_id sr) s) →
   ∃ e, sync_outbox signer uuid now sr p = (p, Err e)).
Proof.
  repeat split; intros Hno.
  - destruct (register_runtime now rr p) as [p' o] eqn:Hm. unfold register_runtime in Hm.
    apply authorized_bind in Hm as [(s & Hs & _)|(_ & -> & e & ->)]; [by destruct (Hno s)|eauto].
  - destruct (record_heartbeat now hb p) as [p' o] eqn:Hm. unfold record_heartbeat in Hm.
    apply authorized_bind in Hm as [(s & Hs & _)|(_ & -> & e & ->)]; [by destruct (Hno s)|eauto].
  - destruct (sync_outbox signer uuid now sr p) as [p' o] eqn:Hm. unfold ControlPlane.sync_outbox in Hm.
    apply authorized_bind in Hm as [(s & Hs & _)|(_ & -> & e & ->)]; [by destruct (Hno s)|eauto].
Qed.

(** What Hive stores of an entity. *)
Definition synced p (entity : string) : list Rec := unwrap_or (synced_outbox p !! entity) [].
Definition receipts p (entity : string) : list ExecutionReceipt :=
  unwrap_or (receipts_ p !! entity) [].

Definition receipt_for (sr : OutboxSyncRequest Value) (entity : string) (r : ExecutionReceipt) : Prop :=
  rc_entity_id r = entity ∧ rc_runtime_id r = sr_runtime_id sr ∧ rc_lease_id r = sr_lease_id sr ∧
  rc_accepted_record_ids r = map record_id (sr_records sr) ∧
  event_count r = length (sr_records sr) ∧
  batch_hash r = hash_outbox_batch sha256 to_json (sr_records sr).

Lemma sync_outbox_effect signer uuid now sr p p' o :
  sync_outbox signer uuid now sr p = (p', o) →
  (∃ s, holds p (sr_lease_id sr) (sr_runtime_id sr) s ∧
     let entity := lease_entity_id (lease s) in
     synced_outbox p' = <[entity := synced p entity ++ sr_records sr]> (synced_outbox p) ∧
     sessions p' = <[sr_lease_id sr := mkSession (lease s) (registration s) (connected s) 0 None]>
                     (sessions p) ∧
     assignments_ p' = assignments_ p ∧ forge_jobs_ p' = forge_jobs_ p ∧
     ∃ resp, o = Ok resp ∧ accepted_record_ids resp = map record_id (sr_records sr) ∧
       pending_records resp = 0 ∧
       match sr_records sr with
       | [] => response_receipts resp = [] ∧ receipts_ p' = receipts_ p
       | _ => ∃ r, response_receipts resp = [r] ∧ receipt_for sr entity r ∧
           rc_signature r = (signer (receipt_payload entity (sr_runtime_id sr) (sr_lease_id sr)
             (batch_hash r) (map record_id (sr_records sr)))).1 ∧
           receipts_ p' = <[entity := receipts p entity ++ [r]]> (receipts_ p)
       end) ∨
  ((∀ s, ¬ holds p (sr_lease_id sr) (sr_runtime_id sr) s) ∧ p' = p ∧ ∃ e, o = Err e).
Proof.
  intros Hm. unfold ControlPlane.sync_outbox in Hm.
  apply authorized_bind in Hm as [(s & Hs & Hm)|?]; [left|by right].
  exists s. split; [done|]. cbv zeta in *. unfold receipt_for, synced, receipts.
  destruct (sr_records sr) as [|r rs] eqn:Hrs.
  - unfold modify, mbind, M_bind, mret, M_ret in Hm. simplify_eq/=.
    repeat (split; [done|]). eexists. split; [done|]. done.
  - destruct (signer _) as [sg pk] eqn:Hsg.
    unfold modify, mbind, M_bind, mret, M_ret in Hm. injection Hm as <- <-.
    cbn [synced_outbox sessions assignments_ forge_jobs_ receipts_].
    repeat (split; [done|]). eexists. split; [reflexivity|]. split; [done|]. split; [done|].
    eexists. split; [reflexivity|]. cbn. rewrite length_map.
    repeat (split; [done|]). cbn in Hsg. rewrite Hsg. done.
Qed.

Lemma sync_outbox_authorized signer uuid now sr p s :
  holds p (sr_lease_id sr) (sr_runtime_id sr) s →
  ∃ p' resp, sync_outbox signer uuid now sr p = (p', Ok resp) ∧
    let entity := lease_entity_id (lease s) in
    (∀ e, synced p' e = if decide (e = entity) then synced p e ++ sr_records sr else synced p e) ∧
    accepted_record_ids resp = map record_id (sr_records sr) ∧ pending_records resp = 0 ∧
    (∃ s', session_status (sr_lease_id sr) p' = Some s' ∧ outbox_depth s' = 0%Z ∧ lease s' = lease s) ∧
    (∀ e, receipts p' e = receipts p e ++ (if decide (e = entity) then response_receipts resp else [])) ∧
    Forall (receipt_for sr entity) (response_receipts resp) ∧
    length (response_receipts resp) = (if decide (sr_records sr = []) then 0 else 1).
Proof.
  intros Hs. destruct (sync_outbox signer uuid now sr p) as [p' o] eqn:Hm.
  apply sync_outbox_effect in Hm as [(s' & Hs' & Hsync & Hsess & _ & _ & resp & -> & Hacc & Hpend & Hrec)|(Hno & _)];
    [|by destruct (Hno s)].
  assert (s' = s) as -> by (unfold holds in *; naive_solver).
  exists p', resp. split; [done|]. cbv zeta. split; [|split; [done|split; [done|split]]].
  - intros e. unfold synced at 1. rewrite Hsync. case_decide as He; [subst e|].
    + by rewrite lookup_insert_eq.
    + by rewrite lookup_insert_ne.
  - unfold session_status. rewrite Hsess, lookup_insert_eq. by eexists.
  - destruct (sr_records sr) as [|r rs].
    + destruct Hrec as [-> Hr]. split; [|by split; [constructor|]].
      intros e. unfold receipts. rewrite Hr. case_decide; by rewrite app_nil_r.
    + destruct Hrec as (rc & -> & Hrc & _ & Hr). split; [|by split; [apply Forall_singleton|]].
      intros e. unfold receipts at 1. rewrite Hr. case_decide as He; [subst e|].
      * by rewrite lookup_insert_eq.
      * by rewrite lookup_insert_ne, app_nil_r.
Qed.

(** Syncing a batch appends exactly its records, in order, to what Hive
    stores of the lease's entity, acknowledges all of them, clears the
    session's outbox gauge, and issues one receipt over the batch (none for an
    empty one), signed over the entity, runtime, lease, hash and ids; other
    entities are untouched. *)
Theorem sync_outbox_appends signer uuid now sr p s :
  holds p (sr_lease_id sr) (sr_runtime_id sr) s →
  ∃ p' resp, sync_outbox signer uuid now sr p = (p', Ok resp) ∧
    let entity := lease_entity_id (lease s) in
    (∀ e, synced p' e = if decide (e = entity) then synced p e ++ sr_records sr else synced p e) ∧
    accepted_record_ids resp = map record_id (sr_records sr) ∧ pending_records resp = 0 ∧
    (∃ s', session_status (sr_lease_id sr) p' = Some s' ∧ outbox_depth s' = 0%Z ∧ lease s' = lease s) ∧
    (∀ e, receipts p' e = receipts p e ++ (if decide (e = entity) then response_receipts resp else [])) ∧
    Forall (receipt_for sr entity) (response_receipts resp) ∧
    length (response_receipts resp) = (if decide (sr_records sr = []) then 0 else 1).
Proof. apply sync_outbox_authorized. Qed.

(** ** Invariant *)

Definition session_wf (lease_ : string) (s : RuntimeSessionStatus) : Prop :=
  lease_id (lease s) = lease_ ∧
  match registration s with
  | Some r => reg_lease_id r = lease_ ∧ reg_runtime_id r = lease_runtime_id (lease s) ∧
      reg_entity_id r = lease_entity_id (lease s) ∧ connected s = true
  | None => True
  end.

Definition receipt_wf p (entity : string) (r : ExecutionReceipt) : Prop :=
  rc_entity_id r = entity ∧ event_count r = length (rc_accepted_record_ids r) ∧
  ∀ i, i ∈ rc_accepted_record_ids r → ∃ rec, rec ∈ synced p entity ∧ record_id rec = i.

Definition plane_wf p : Prop :=
  (∀ l s, sessions p !! l = Some s → session_wf l s) ∧
  (∀ e r, r ∈ receipts p e → receipt_wf p e r).

Inductive plane_step p p' : Prop :=
| p_issue lu ru now req name url o :
    issue_session lu ru now req name url p = (p', o) → plane_step p p'
| p_register now rr o : register_runtime now rr p = (p', o) → plane_step p p'
| p_heartbeat now hb o : record_heartbeat now hb p = (p', o) → plane_step p p'
| p_revoke entity o : revoke_entity_sessions entity p = (p', o) → plane_step p p'
| p_assign entity l o : set_assignments entity l p = (p', o) → plane_step p p'
| p_forge uuid now entity req o : create_forge_job uuid now entity req p = (p', o) → plane_step p p'
| p_sync signer uuid now sr o : sync_outbox signer uuid now sr p = (p', o) → plane_step p p'.

(** Steps that leave the synced records and the receipts alone. *)
Lemma wf_sessions p p' :
  plane_wf p → synced_outbox p' = synced_outbox p → receipts_ p' = receipts_ p →
  (∀ l s, sessions p' !! l = Some s → session_wf l s) → plane_wf p'.
Proof.
  intros [_ Hr] Hs Hrc Hw. split; [done|]. unfold receipts, receipt_wf, synced in *.
  by rewrite Hs, Hrc.
Qed.

Lemma insert_wf p l0 s0 :
  (∀ l s, sessions p !! l = Some s → session_wf l s) → session_wf l0 s0 →
  ∀ l s, <[l0 := s0]> (sessions p) !! l = Some s → session_wf l s.
Proof. intros Hw H0 l s [[<- <-]|[_ ?]]%lookup_insert_Some; auto. Qed.

Lemma plane_step_wf p p' : plane_step p p' → plane_wf p → plane_wf p'.
Proof.
  intros Hstep Hwf. pose proof Hwf as [Hs Hr].
  destruct Hstep as [lu ru now req nm url o Hm|now rr o Hm|now hb o Hm|entity o Hm|entity l o Hm
    |uuid now entity req o Hm|signer uuid now sr o Hm].
  - unfold issue_session, modify, mbind, M_bind, mret, M_ret in Hm. simplify_eq/=.
    eapply wf_sessions; [done..|]. by apply insert_wf.
  - unfold register_runtime in Hm.
    apply authorized_bind in Hm as [(s & [Hl Hrt] & Hm)|(_ & -> & _)]; [|done].
    unfold modify, mbind, M_bind, mret, M_ret in Hm. simplify_eq/=.
    eapply wf_sessions; [done..|]. apply insert_wf; [done|].
    destruct (Hs _ _ Hl) as [? _]. by repeat split.
  - unfold record_heartbeat in Hm.
    apply authorized_bind in Hm as [(s & [Hl Hrt] & Hm)|(_ & -> & _)]; [|done].
    unfold modify, mbind, M_bind, mret, M_ret in Hm. simplify_eq/=.
    eapply wf_sessions; [done..|]. apply insert_wf; [done|].
    destruct (Hs _ _ Hl) as [? Hreg]. split; [done|]. simpl.
    destruct (registration s); simpl; [|done]. naive_solver.
  - unfold revoke_entity_sessions, get_state, put_state, mbind, M_bind, mret, M_ret in Hm.
    simplify_eq/=. eapply wf_sessions; [done..|]. simpl.
    intros l s [? _]%map_lookup_filter_Some. auto.
  - unfold set_assignments, modify, mbind, M_bind, mret, M_ret in Hm. simplify_eq/=.
    by eapply wf_sessions.
  - unfold create_forge_job, modify, mbind, M_bind, mret, M_ret in Hm. simplify_eq/=.
    by eapply wf_sessions.
  - apply sync_outbox_effect in Hm as [(s & [Hl Hrt] & Hsync & Hsess & _ & _ & resp & _ & _ & _ & Hrec)
      |(_ & -> & _)]; [|done].
    assert (∀ e rec, rec ∈ synced p e → rec ∈ synced p' e) as Hmono.
    { intros e rec Hin. unfold synced at 1. rewrite Hsync.
      destruct (decide (e = lease_entity_id (lease s))) as [->|].
      - rewrite lookup_insert_eq. simpl. set_solver.
      - by rewrite lookup_insert_ne. }
    split.
    + rewrite Hsess. apply insert_wf; [done|]. destruct (Hs _ _ Hl). by split.
    + intros e r Hin.
      assert (r ∈ receipts p e ∨ (e = lease_entity_id (lease s) ∧ receipt_for sr e r)) as [Hold|[-> Hfor]].
      { destruct (sr_records sr) as [|r0 rs].
        - destruct Hrec as [_ Hrc]. left. unfold receipts in *. by rewrite Hrc in Hin.
        - destruct Hrec as (rc & _ & Hfor & _ & Hrc). unfold receipts in Hin at 1. rewrite Hrc in Hin.
          destruct (decide (e = lease_entity_id (lease s))) as [->|].
          + rewrite lookup_insert_eq in Hin. simpl in Hin.
            apply elem_of_app in Hin as [?|Hin%list_elem_of_singleton]; [auto|subst r; auto].
          + rewrite lookup_insert_ne in Hin by done. by left. }
      * destruct (Hr e r Hold) as (? & ? & Hi). split; [done|]. split; [done|].
        intros i Hin'. destruct (Hi i Hin') as (rec & ? & ?). exists rec. auto.
      * destruct Hfor as (He & _ & _ & Hids & Hc & _). split; [done|].
        rewrite Hids, length_map. split; [done|]. intros i (rec & -> & Hrec')%list_elem_of_map.
        exists rec. split; [|done]. unfold synced at 1. rewrite Hsync, lookup_insert_eq. simpl. set_solver.
Qed.

(** Over every sequence of calls, a session is stored under its lease's id
    and its registration names that lease, its runtime and its entity; every
    receipt is filed under its entity, counts its records, and each record it
    names is in what Hive stores of that entity. *)
Theorem plane_invariant p : rtc plane_step empty_plane p → plane_wf p.
Proof.
  intros Hs. assert (plane_wf empty_plane) as Hwf.
  { split; [intros l s Hl; simpl in Hl; by rewrite lookup_empty in Hl|].
    intros e r Hin. unfold receipts in Hin. simpl in Hin. rewrite lookup_empty in Hin.
    by apply elem_of_nil in Hin. }
  revert Hwf. induction Hs as [|p0 p1 p2 Hst _ IH]; [done|]. intros. by apply IH, (plane_step_wf p0).
Qed.

(** Closing an entity revokes exactly its sessions: each of its leases is
    unknown afterwards, so that its runtimes can no longer register, beat or
    sync, and every other entity's session stays as it was; the count returned
    is the number of sessions removed. *)
Theorem revoke_entity_sessions_spec entity p :
  ∃ p' n, revoke_entity_sessions entity p = (p', Ok n) ∧
    (∀ l, sessions p' !! l =
       match sessions p !! l with
       | Some s => if decide (lease_entity_id (lease s) = entity) then None else Some s
       | None => None
       end) ∧
    (n + size (sessions p') = size (sessions p)) ∧
    (∀ l s runtime s', sessions p !! l = Some s → lease_entity_id (lease s) = entity →
       ¬ holds p' l runtime s').
Proof.
  unfold revoke_entity_sessions, get_state, put_state, mbind, M_bind, mret, M_ret.
  eexists _, _. split; [reflexivity|]. simpl. split; [|split].
  - intros l. destruct (sessions p !! l) as [s|] eqn:Hl.
    + case_decide as He.
      * apply map_lookup_filter_None. right. intros s' Hs' Hne. simplify_eq.
      * by apply map_lookup_filter_Some.
    + apply map_lookup_filter_None. by left.
  - set (kept := filter _ (sessions p)).
    assert (size kept ≤ size (sessions p)); [|lia].
    apply map_subseteq_size. apply map_filter_subseteq.
  - intros l s runtime s' Hl He [[Hl' Hne]%map_lookup_filter_Some _]. simplify_eq.
Qed.
End plane.

(** ** A round of syncing

    The entity's side snapshots its queue, other tasks go on enqueueing while
    the request is under way, Hive takes the batch, and the entity acknowledges
    what Hive accepted ([main.rs], the heartbeat task). *)

Section round.
Context {Value : Type} (print : PersistedOutbox Value → string).
Context (sha256 : string → string) (to_json : Value → string).
Notation Rec := (EntityOutboxRecord Value).

Lemma filter_none (ids : list string) (l : list Rec) :
  (∀ r, r ∈ l → record_id r ∈ ids) → filter (λ r, record_id r ∉ ids) l = [].
Proof.
  induction l as [|r l IH]; intros Hl; [done|].
  rewrite filter_cons, decide_False by (intros Hn; apply Hn, Hl; by left).
  apply IH. intros r' ?. apply Hl. by right.
Qed.

Lemma filter_keep (ids : list string) (l : list Rec) :
  (∀ r, r ∈ l → record_id r ∉ ids) → filter (λ r, record_id r ∉ ids) l = l.
Proof.
  induction l as [|r l IH]; intros Hl; [done|].
  rewrite filter_cons, decide_True by (apply Hl; by left).
  f_equal. apply IH. intros r' ?. apply Hl. by right.
Qed.

(** C31: a round of syncing loses nothing and repeats nothing: the records of the
    snapshot are appended to Hive's, and exactly the records enqueued while the
    request was under way (with fresh ids, and no more than fit) stay queued,
    even if some of the snapshot were already dropped from a full queue. *)
Theorem sync_round_loses_nothing signer uuid now disk lease_ runtime b b1 b2 new p s o :
  length (queued b) ≤ max_records b →
  holds p lease_ runtime s →
  enqueued print new b b1 →
  (∀ r, r ∈ new → record_id r ∉ map record_id (queued b)) → length new ≤ max_records b →
  let sr := mkSyncRequest lease_ runtime (queued b) in
  let entity := lease_entity_id (lease s) in
  acknowledge print disk now (map record_id (queued b)) b1 = (b2, o) →
  ∃ p' resp, sync_outbox sha256 to_json signer uuid now sr p = (p', Ok resp) ∧
    accepted_record_ids resp = map record_id (queued b) ∧
    synced p' entity = synced p entity ++ queued b ∧ queued b2 = new.
Proof.
  intros Hb Hs Hnew Hfresh Hlen sr entity Hack.
  destruct (sync_outbox_authorized sha256 to_json signer uuid now sr p s Hs)
    as (p' & resp & Hsync & Hsynced & Hacc & _).
  exists p', resp. split; [done|]. split; [done|]. split.
  { rewrite Hsynced. fold entity. by rewrite decide_True. }
  apply acknowledge_effect in Hack as [-> _].
  destruct (enqueued_records print _ _ _ Hnew Hb) as [-> _].
  assert (keep_last (max_records b) (queued b ++ new) =
    drop (length (queued b ++ new) - max_records b) (queued b) ++ new) as ->.
  { rewrite length_app. unfold keep_last. case_decide as Hd; rewrite length_app in Hd.
    - rewrite length_app, drop_app.
      replace (length (queued b) + length new - max_records b - length (queued b)) with 0 by lia. done.
    - by replace (length (queued b) + length new - max_records b) with 0 by lia. }
  rewrite filter_app, filter_none, filter_keep; [done|done|].
  intros r Hr. apply list_elem_of_map. exists r. split; [done|].
  eapply subseteq_drop. exact Hr.
Qed.
End round.

(** ** Launch capabilities *)

(** A launch capability is accepted once: right after it is issued it is
    consumed successfully and a second attempt with it fails; another
    capability is refused and consumes nothing; issuing again for the same
    entity voids the capability issued before. *)
Theorem bootstrap_single_use r entity uuid1 uuid2 :
  let '(r1, cap) := issue_runtime_bootstrap uuid1 uuid2 entity r in
  (consume_runtime_bootstrap entity cap r1).2 = true ∧
  (∀ cap', (consume_runtime_bootstrap entity cap' (consume_runtime_bootstrap entity cap r1).1).2 = false) ∧
  (∀ cap', cap' ≠ cap → consume_runtime_bootstrap entity cap' r1 = (r1, false)) ∧
  (∀ other cap', other ≠ entity →
     (consume_runtime_bootstrap other cap' r1).2 = (consume_runtime_bootstrap other cap' r).2) ∧
  (∀ v1 v2, v1 +:+ v2 ≠ cap →
     (consume_runtime_bootstrap entity cap (issue_runtime_bootstrap v1 v2 entity r1).1).2 = false).
Proof.
  unfold issue_runtime_bootstrap, consume_runtime_bootstrap. cbn [fst snd].
  set (cap := uuid1 +:+ uuid2). split; [|split; [|split; [|split]]].
  - by rewrite bool_decide_eq_true_2 by apply lookup_insert_eq.
  - intros cap'. rewrite (bool_decide_eq_true_2 (<[entity:=cap]> r !! entity = Some cap))
      by apply lookup_insert_eq. cbn [fst snd]. by rewrite bool_decide_eq_false_2 by (by rewrite lookup_delete_eq).
  - intros cap' Hne. rewrite bool_decide_eq_false_2; [done|].
    rewrite lookup_insert_eq. naive_solver.
  - intros other cap' Hne. rewrite lookup_insert_ne by done. by case_bool_decide.
  - intros v1 v2 Hne. rewrite bool_decide_eq_false_2; [done|].
    rewrite lookup_insert_eq. naive_solver.
Qed.

(** ** The listen announcement *)

Lemma pretty_char_digit n :
  (n < 10)%N → is_ascii_digit (pretty_N_char n) = true ∧ (N_of_ascii (pretty_N_char n) - 48)%N = n.
Proof.
  intros Hn.
  assert (n ∈ [0;1;2;3;4;5;6;7;8;9]%N) as Hin by (rewrite !elem_of_cons; lia).
  repeat (apply elem_of_cons in Hin as [->|Hin]; [by vm_compute|]). by apply elem_of_nil in Hin.
Qed.

Lemma pretty_go_spec x s :
  digits_value 0 (pretty_N_go x s) = digits_value x s ∧
  forallb is_ascii_digit (str_chars (pretty_N_go x s)) = forallb is_ascii_digit (str_chars s) ∧
  (x ≠ 0%N → pretty_N_go x s ≠ "").
Proof.
  revert s. induction (N.lt_wf_0 x) as [x _ IH]. intros s.
  destruct (decide (x = 0%N)) as [->|Hx]; [done|].
  rewrite pretty_N_go_step by lia.
  assert (x `mod` 10 < 10)%N as Hm by (apply N.mod_lt; lia).
  destruct (pretty_char_digit (x `mod` 10)%N Hm) as [Hd Hv].
  destruct (IH (x `div` 10)%N) with (s := String (pretty_N_char (x `mod` 10)) s) as (H1 & H2 & H3);
    [apply N.div_lt; lia|].
  split; [|split].
  - rewrite H1. simpl. rewrite Hv. f_equal. rewrite (N.div_mod x 10) at 3 by lia. lia.
  - rewrite H2. simpl. by rewrite Hd.
  - intros _. destruct (decide (x `div` 10 = 0)%N) as [->|Hne]; [done|by apply H3].
Qed.

Lemma pretty_N_spec (n : N) :
  digits_value 0 (pretty n) = n ∧ forallb is_ascii_digit (str_chars (pretty n)) = true ∧
  str_is_empty (pretty n) = false.
Proof.
  unfold pretty, pretty_N. case_decide as Hn; [by subst|].
  destruct (pretty_go_spec n "") as (H1 & H2 & H3). split; [done|]. split; [done|].
  specialize (H3 Hn). by destruct (pretty_N_go n "").
Qed.

Definition valid_port (port : N) : Prop := (0 < port < 65536)%N.

Lemma parse_announcement_iff line url :
  parse_listen_announcement line = Ok url ↔
  ∃ port, valid_port port ∧ line = ANNOUNCEMENT_PREFIX +:+ pretty port ∧
    url = "http://127.0.0.1:" +:+ pretty port.
Proof.
  unfold parse_listen_announcement, parse_u16, valid_port. split.
  - destruct (RustStr.strip_prefix line ANNOUNCEMENT_PREFIX) as [digits|] eqn:Hp; [|done].
    apply strip_prefix_Some in Hp as ->.
    destruct (str_is_empty digits || _); [done|].
    destruct (N.ltb_spec (digits_value 0 digits) 65536); [|done].
    case_bool_decide as Hz; [|done]. case_bool_decide as Hc; [|done]. simpl. intros; simplify_eq.
    exists (digits_value 0 digits). split; [lia|]. by rewrite Hc.
  - intros (port & Hport & -> & ->).
    rewrite (proj2 (strip_prefix_Some _ _ _) eq_refl).
    destruct (pretty_N_spec port) as (H1 & H2 & H3). rewrite H2, H3, H1. simpl.
    rewrite (proj2 (N.ltb_lt _ _)) by lia.
    rewrite !bool_decide_eq_true_2 by (done || lia). done.
Qed.

Lemma digits_no_control s c :
  forallb is_ascii_digit (str_chars s) = true → is_ascii_digit c = false → c ∉ str_chars s.
Proof. rewrite forallb_elem. intros Hs Hc Hin. specialize (Hs c Hin). congruence. Qed.

Lemma read_line acc s rest :
  newline ∉ str_chars s → String.length acc + String.length s ≤ MAX_ANNOUNCEMENT_BYTES →
  read_listen_announcement acc (s +:+ nl +:+ rest) = parse_listen_announcement (strip_cr (acc +:+ s)).
Proof.
  revert acc. induction s as [|c s IH]; intros acc Hn Hl.
  - by rewrite str_app_nil_r.
  - rewrite str_app_cons. cbn [read_listen_announcement].
    simpl in Hn. apply not_elem_of_cons in Hn as [Hc Hn].
    cbn [String.length] in Hl. rewrite decide_False by congruence. rewrite decide_False by lia.
    rewrite IH; [|done|rewrite str_length_app; simpl; lia].
    f_equal. f_equal. by rewrite <- str_app_assoc.
Qed.

Lemma strip_cr_snoc s c :
  strip_cr (s +:+ String c "") = if bool_decide (c = "013"%char) then s else s +:+ String c "".
Proof.
  unfold strip_cr. induction s as [|d s IH]; simpl; [by case_bool_decide|].
  rewrite str_app_cons. cbn [trim_one]. rewrite IH.
  destruct (s +:+ String c "") as [|e t] eqn:He; [by destruct s|]. by case_bool_decide.
Qed.

Lemma strip_cr_id s : (∀ t, s ≠ t +:+ String "013" "") → strip_cr s = s.
Proof.
  intros Hs.
  assert (s = "" ∨ ∃ t c, s = t +:+ String c "") as [->|(t & c & ->)]; [|done|].
  { clear. induction s as [|c s [->|(t & d & ->)]]; [by left|right; by exists "", c|right].
    by exists (String c t), d. }
  rewrite strip_cr_snoc. case_bool_decide as Hc; [|done]. subst. by destruct (Hs t).
Qed.

Lemma announcement_length port :
  valid_port port → String.length (ANNOUNCEMENT_PREFIX +:+ pretty port) ≤ 255.
Proof.
  intros Hp. rewrite str_length_app.
  assert (∀ k x s, (x < 10 ^ N.of_nat k)%N → String.length (pretty_N_go x s) ≤ k + String.length s) as Hgo.
  { induction k as [|k IH]; intros x s Hx.
    - change (10 ^ N.of_nat 0)%N with 1%N in Hx. assert (x = 0%N) as -> by lia.
      rewrite pretty_N_go_0. lia.
    - destruct (decide (x = 0%N)) as [->|Hx0]; [rewrite pretty_N_go_0; lia|].
      rewrite pretty_N_go_step by lia. etrans; [apply IH|simpl; lia].
      apply N.Div0.div_lt_upper_bound. rewrite Nat2N.inj_succ, N.pow_succ_r' in Hx. done. }
  assert (String.length ANNOUNCEMENT_PREFIX = 44) as -> by reflexivity.
  unfold pretty, pretty_N. case_decide; [simpl; lia|].
  etrans; [apply Nat.add_le_mono_l, (Hgo 5)|simpl; lia].
  unfold valid_port in Hp. simpl. lia.
Qed.

(** The announcement the daemon prints for any port is read back as the URL of
    that port, with either line ending and whatever follows; and what is
    accepted is only the canonical spelling of a port from 1 to 65535: no other
    line yields a URL. *)
Theorem announcement_roundtrip port rest (crlf : bool) :
  valid_port port →
  let url := "http://127.0.0.1:" +:+ pretty port in
  let line := ANNOUNCEMENT_PREFIX +:+ pretty port in
  read_listen_announcement "" (line +:+ (if crlf then String "013" "" else "") +:+ nl +:+ rest) = Ok url ∧
  (∀ other, parse_listen_announcement other = Ok url ↔ other = line).
Proof.
  intros Hp url line.
  assert (parse_listen_announcement line = Ok url) as Hparse
    by (apply parse_announcement_iff; eauto).
  destruct (pretty_N_spec port) as (_ & Hdig & Hne).
  assert (∀ c, c ∈ ["010"; "013"]%char → c ∉ str_chars line) as Hno.
  { intros c Hc. unfold line. rewrite str_chars_app, not_elem_of_app. split.
    - apply elem_of_cons in Hc as [->|Hc%list_elem_of_singleton]; [|subst c];
        decide_closed.
    - apply digits_no_control; [done|].
      apply elem_of_cons in Hc as [->|Hc%list_elem_of_singleton]; [done|by subst c]. }
  pose proof (announcement_length port Hp) as Hlen. fold line in Hlen.
  split.
  - destruct crlf.
    + rewrite (str_app_assoc line (String "013" "")), read_line.
      * rewrite str_app_nil_l, strip_cr_snoc, bool_decide_eq_true_2 by done. done.
      * rewrite str_chars_app, not_elem_of_app. split; [apply Hno; by left|].
        decide_closed.
      * rewrite str_length_app. unfold MAX_ANNOUNCEMENT_BYTES.
        change (String.length (String "013" "")) with 1. change (String.length "") with 0. lia.
    + rewrite str_app_nil_l, read_line.
      * rewrite str_app_nil_l, strip_cr_id; [done|]. intros t Ht.
        destruct (Hno "013"%char) as []; [right; by left|]. rewrite Ht, str_chars_app. set_solver.
      * apply Hno. by left.
      * unfold MAX_ANNOUNCEMENT_BYTES. change (String.length "") with 0. lia.
  - intros other. split; [|by intros ->].
    intros (port' & _ & -> & Hu)%parse_announcement_iff.
    apply str_app_inj_l in Hu. unfold line. by rewrite Hu.
Qed.

(** ** Witnesses *)

Module Round.

Definition rec (i : string) : EntityOutboxRecord string := mkRecord i "e" "chat" "t" "{}".
Definition print (_ : PersistedOutbox string) : string := "json".
Definition box (l : list (EntityOutboxRecord string)) : RuntimeOutbox string :=
  mkOutbox 2 (mkPersisted l None None) None.
Definition sha (s : string) : string := s.
Definition json (s : string) : string := s.

Definition plane : RuntimeControlPlane string :=
  (issue_session "lease" "x" "t" (mkSessionRequest "e" (Some "rt")) None None empty_plane).1.

Definition session : RuntimeSessionStatus :=
  mkSession (mkLease "lease" "e" "rt" None None "t" None true "runtime_session") None false 0 None.

Lemma holds_session : holds plane "lease" "rt" session.
Proof. split; reflexivity. Qed.

End Round.

Lemma outbox_bounded_witness :
  length (queued (enqueue Round.print None "c" "t" "e" "chat" "{}"
    (Round.box [Round.rec "a"; Round.rec "b"])).1) ≤ 2.
Proof.
  set (b' := (enqueue Round.print None "c" "t" "e" "chat" "{}" _).1).
  assert (rtc (box_step Round.print) (Round.box [Round.rec "a"; Round.rec "b"]) b') as Hs.
  { apply rtc_once. apply (b_enqueue _ _ _ None "c" "t" "e" "chat" "{}" (Ok (Round.rec "c"))). reflexivity. }
  destruct (outbox_bounded Round.print (Round.box [Round.rec "a"; Round.rec "b"]) b') as (_ & H & _);
    [simpl; lia|exact Hs|exact H].
Defined.

Lemma foreign_runtime_rejected_witness :
  ∃ e, record_heartbeat "t" (mkHeartbeat "lease" "other" None 0 None) Round.plane = (Round.plane, Err e).
Proof.
  destruct (foreign_runtime_rejected Round.sha Round.json "t" (λ _, ("", "")) "u" Round.plane
    (mkRegistrationRequest "" "" "" None) (mkHeartbeat "lease" "other" None 0 None)
    (mkSyncRequest "" "" [])) as (_ & Hb & _).
  apply Hb. intros s [Hs Hr]. vm_compute in Hs. injection Hs as <-. vm_compute in Hr. discriminate.
Defined.

Lemma sync_outbox_appends_witness :
  ∃ p' resp, sync_outbox Round.sha Round.json (λ _, ("sig", "key")) "u" "t"
      (mkSyncRequest "lease" "rt" [Round.rec "a"]) Round.plane = (p', Ok resp) ∧
    accepted_record_ids resp = ["a"].
Proof.
  destruct (sync_outbox_appends Round.sha Round.json (λ _, ("sig", "key")) "u" "t"
    (mkSyncRequest "lease" "rt" [Round.rec "a"]) Round.plane Round.session Round.holds_session)
    as (p' & resp & ? & _ & ? & _). by exists p', resp.
Defined.

Lemma plane_invariant_witness :
  rtc (plane_step Round.sha Round.json) empty_plane Round.plane ∧ plane_wf Round.plane.
Proof.
  assert (rtc (plane_step Round.sha Round.json) empty_plane Round.plane) as Hs.
  { apply rtc_once. apply (p_issue _ _ _ _ "lease" "x" "t" (mkSessionRequest "e" (Some "rt")) None None
      (Ok (lease Round.session))). reflexivity. }
  split; [exact Hs|]. by apply (plane_invariant Round.sha Round.json).
Defined.

Lemma sync_round_loses_nothing_witness :
  queued (acknowledge Round.print None "t" ["a"; "b"]
    (Round.box [Round.rec "b"; Round.rec "c"])).1 = [Round.rec "c"].
Proof.
  destruct (sync_round_loses_nothing Round.print Round.sha Round.json (λ _, ("", "")) "u" "t" None
    "lease" "rt" (Round.box [Round.rec "a"; Round.rec "b"])
    (enqueue Round.print (Some "disk full") "c" "t" "e" "chat" "{}"
       (Round.box [Round.rec "a"; Round.rec "b"])).1
    (acknowledge Round.print None "t" ["a"; "b"] (Round.box [Round.rec "b"; Round.rec "c"])).1
    [Round.rec "c"] Round.plane Round.session (Ok tt)) as (p' & resp & _ & _ & _ & Hq).
  - simpl. lia.
  - exact Round.holds_session.
  - apply (enq_cons _ _ _ _ (enqueue Round.print (Some "disk full") "c" "t" "e" "chat" "{}"
       (Round.box [Round.rec "a"; Round.rec "b"])).1 _ (Some "disk full") "c" "t" "e" "chat" "{}"
       (Err "disk full")); [reflexivity|reflexivity|apply enq_nil].
  - intros r ->%list_elem_of_singleton. decide_closed.
  - simpl. lia.
  - reflexivity.
  - exact Hq.
Defined.

Lemma announcement_roundtrip_witness :
  read_listen_announcement "" (ANNOUNCEMENT_PREFIX +:+ "3142" +:+ nl) = Ok "http://127.0.0.1:3142".
Proof.
  destruct (announcement_roundtrip 3142 "" false) as [H _]; [unfold valid_port; lia|exact H].
Defined.
