(* ===== verification/Bus.v ===== *)
(** * The entity bus ([crates/abigail-streaming]: [bus.rs], [types.rs],
      [memory_broker.rs])

    Topics, envelopes and the in-memory broker.  tokio's broadcast channel is the
    class [Broadcast], with its documented behaviour in [BroadcastLaws].  A
    subscription is the task [subscribe] spawns: one turn of its loop is
    [deliver], and [handled] is what its handler was called with. *)

From S2P Require Import Prelude RustStr Ledger.
From Stdlib Require Import ZArith Lia.
From stdpp Require Import base list sets strings gmap fin_maps.

Open Scope rust_scope.

Definition BUS_STREAM : string := "entity".

Inductive Topic : Type :=
| MentorInput
| IdReaction
| IdSignal
| EgoDeliberation
| EgoAction
| ConscienceCheck
| SuperegoEvaluation
| JobEvents
| SkillExecuted
| MemoryArchive
| HiveOutbound
| GovernanceInbound.

#[export] Instance Topic_eq_dec : EqDecision Topic.
Proof. solve_decision. Defined.

Definition topic_str (t : Topic) : string :=
  match t with
  | MentorInput => "mentor.input"
  | IdReaction => "id.reaction"
  | IdSignal => "id.signal"
  | EgoDeliberation => "ego.deliberation"
  | EgoAction => "ego.action"
  | ConscienceCheck => "conscience.check"
  | SuperegoEvaluation => "superego.evaluation"
  | JobEvents => "job.events"
  | SkillExecuted => "skill.executed"
  | MemoryArchive => "memory.archive"
  | HiveOutbound => "hive.outbound"
  | GovernanceInbound => "governance.inbound"
  end.

Definition topic_from_name (name : string) : option Topic :=
  if decide (name = "mentor.input") then Some MentorInput
  else if decide (name = "id.reaction") then Some IdReaction
  else if decide (name = "id.signal") then Some IdSignal
  else if decide (name = "ego.deliberation") then Some EgoDeliberation
  else if decide (name = "ego.action") then Some EgoAction
  else if decide (name = "conscience.check") then Some ConscienceCheck
  else if decide (name = "superego.evaluation") then Some SuperegoEvaluation
  else if decide (name = "job.events") then Some JobEvents
  else if decide (name = "skill.executed") then Some SkillExecuted
  else if decide (name = "memory.archive") then Some MemoryArchive
  else if decide (name = "hive.outbound") then Some HiveOutbound
  else if decide (name = "governance.inbound") then Some GovernanceInbound
  else None.

(** ** Envelopes and messages *)

Record Envelope (P : Type) : Type := mkEnvelope {
  envelope_topic : Topic;
  envelope_entity : string;
  occurred_at : string;
  envelope_soul_ref : option string;
  envelope_correlation : string;
  envelope_payload : P;
}.
Arguments mkEnvelope {P}.
Arguments envelope_topic {P}.
Arguments envelope_entity {P}.
Arguments occurred_at {P}.
Arguments envelope_soul_ref {P}.
Arguments envelope_correlation {P}.
Arguments envelope_payload {P}.

Definition new_envelope {P} (now : string) (topic : Topic) (entity correlation : string) (payload : P)
  : Envelope P := mkEnvelope topic entity now None correlation payload.

Definition with_soul_ref {P} (soul : string) (e : Envelope P) : Envelope P :=
  mkEnvelope (envelope_topic e) (envelope_entity e) (occurred_at e) (Some soul)
    (envelope_correlation e) (envelope_payload e).

Record StreamMessage : Type := mkMessage {
  message_id : string;
  message_payload : string;
  message_headers : gmap string string;
  message_timestamp : string;
}.

Record TopicConfig : Type := mkTopicConfig {
  partitions : Z;
  retention_seconds : Z;
  encryption : bool;
}.

Definition default_topic_config : TopicConfig := mkTopicConfig 1 86400 false.

(** [to_message] and [from_message]: the JSON text of an envelope is a parameter. *)
Definition to_message {P} (print : Envelope P → result string string) (uuid now : string)
    (e : Envelope P) : result StreamMessage string :=
  let? payload := print e in
  let headers : gmap string string :=
    <["correlation_id" := envelope_correlation e]>
      (<["entity_id" := envelope_entity e]> {["topic" := topic_str (envelope_topic e)]}) in
  let headers :=
    match envelope_soul_ref e with
    | Some soul => <["soul_ref" := soul]> headers
    | None => headers
    end in
  Ok (mkMessage uuid payload headers now).

Definition from_message {P} (parse : string → result (Envelope P) string) (m : StreamMessage)
  : result (Envelope P) string := parse (message_payload m).

Definition compute_soul_ref (sha256 : string → string) (bytes : string) : string :=
  "sha256:" +:+ to_hex (sha256 bytes).

(** ** Broadcast channels *)

Inductive Received (Msg : Type) : Type :=
| Got (m : Msg)
| Empty
| Lagged (n : nat)
| Closed.
Arguments Got {Msg}.
Arguments Empty {Msg}.
Arguments Lagged {Msg}.
Arguments Closed {Msg}.

Class Broadcast (Msg Chan Recv : Type) : Type := {
  channel : nat → Chan;
  (** an error when there are no receivers *)
  channel_send : Msg → Chan → Chan * result unit string;
  channel_subscribe : Chan → Chan * Recv;
  try_recv : Recv → Chan → Recv * Received Msg;
}.

(** [sent] is what went through a channel, and [position] what a receiver has
    behind it. *)
Class BroadcastLaws (Msg Chan Recv : Type) `{Broadcast Msg Chan Recv} : Type := {
  sent : Chan → list Msg;
  position : Recv → nat;
  capacity : Chan → nat;
  channel_spec n : sent (channel n) = [] ∧ n ≤ capacity (channel n);
  send_spec m c c' o :
    channel_send m c = (c', o) →
    capacity c' = capacity c ∧
    match o with
    | Ok _ => sent c' = sent c ++ [m]
    | Err _ => sent c' = sent c
    end;
  subscribe_spec c c' r :
    channel_subscribe c = (c', r) →
    sent c' = sent c ∧ capacity c' = capacity c ∧ position r = length (sent c);
  try_recv_spec r c r' o :
    position r ≤ length (sent c) → try_recv r c = (r', o) →
    match o with
    | Got m => sent c !! position r = Some m ∧ position r' = S (position r)
    | Empty | Closed => position r = length (sent c) ∧ position r' = position r
    | Lagged n => capacity c < length (sent c) - position r ∧ 0 < n ∧
                  position r' = position r + n ∧ position r' ≤ length (sent c)
    end;
}.

(** ** The in-memory broker *)

Section broker.
Context {Msg Chan Recv : Type} `{Broadcast Msg Chan Recv}.

Record Subscription : Type := mkSubscription {
  sub_key : string * string;
  sub_group : string;
  sub_receiver : Recv;
  sub_cancelled : bool;
  handled : list Msg;
}.

Record MemoryBroker : Type := mkBroker {
  topics : gmap (string * string) Chan;
  consumer_groups : gmap (string * string * string) bool;
  channel_capacity : nat;
  subscriptions : list Subscription;
}.

Definition new_broker (capacity : nat) : MemoryBroker := mkBroker ∅ ∅ capacity [].

Definition with_topics (f : gmap (string * string) Chan → gmap (string * string) Chan)
    (b : MemoryBroker) : MemoryBroker :=
  mkBroker (f (topics b)) (consumer_groups b) (channel_capacity b) (subscriptions b).
Definition with_subscriptions (f : list Subscription → list Subscription) (b : MemoryBroker)
  : MemoryBroker :=
  mkBroker (topics b) (consumer_groups b) (channel_capacity b) (f (subscriptions b)).

(** The sender of a topic, and the broker that has it. *)
Definition get_or_create_sender (stream topic : string) (b : MemoryBroker) : MemoryBroker * Chan :=
  match topics b !! (stream, topic) with
  | Some c => (b, c)
  | None =>
      let c := channel (channel_capacity b) in
      (with_topics (<[(stream, topic) := c]>) b, c)
  end.

Definition publish (stream topic : string) (m : Msg) (b : MemoryBroker) : MemoryBroker :=
  let '(b, c) := get_or_create_sender stream topic b in
  with_topics (<[(stream, topic) := (channel_send m c).1]>) b.

(** [for _ in 0..batch_size { match receiver.try_recv() .. }] *)
Fixpoint receive_batch (n : nat) (r : Recv) (c : Chan) : list Msg :=
  match n with
  | 0 => []
  | S n =>
      match try_recv r c with
      | (r, Got m) => m :: receive_batch n r c
      | _ => []
      end
  end.

Definition poll (stream topic : string) (batch_size : nat) (b : MemoryBroker)
  : MemoryBroker * list Msg :=
  let '(b, c) := get_or_create_sender stream topic b in
  let '(c, r) := channel_subscribe c in
  (with_topics (<[(stream, topic) := c]>) b, receive_batch batch_size r c).

Definition subscribe (stream topic group : string) (b : MemoryBroker) : MemoryBroker :=
  let '(b, c) := get_or_create_sender stream topic b in
  let '(c, r) := channel_subscribe c in
  with_subscriptions (λ l, l ++ [mkSubscription (stream, topic) group r false []])
    (with_topics (<[(stream, topic) := c]>) b).

Definition ensure_topic (stream topic : string) (b : MemoryBroker) : MemoryBroker :=
  with_topics (λ m, match m !! (stream, topic) with
                    | Some _ => m
                    | None => <[(stream, topic) := channel (channel_capacity b)]> m
                    end) b.

Definition ensure_consumer_group (stream topic group : string) (b : MemoryBroker) : MemoryBroker :=
  mkBroker (topics b)
    (match consumer_groups b !! (stream, topic, group) with
     | Some _ => consumer_groups b
     | None => <[(stream, topic, group) := true]> (consumer_groups b)
     end) (channel_capacity b) (subscriptions b).

(** [SubscriptionHandle::cancel] *)
Definition cancel_subscription (i : nat) : MemoryBroker → MemoryBroker :=
  with_subscriptions (alter (λ s, mkSubscription (sub_key s) (sub_group s) (sub_receiver s) true
                                    (handled s)) i).

(** A turn of the loop of a subscription that found something to do. *)
Definition received (c : Chan) (s : Subscription) : Subscription :=
  match try_recv (sub_receiver s) c with
  | (r, Got m) => mkSubscription (sub_key s) (sub_group s) r (sub_cancelled s) (handled s ++ [m])
  | (r, _) => mkSubscription (sub_key s) (sub_group s) r (sub_cancelled s) (handled s)
  end.

Definition deliver (i : nat) (b : MemoryBroker) : MemoryBroker :=
  match subscriptions b !! i with
  | None => b
  | Some s =>
      if sub_cancelled s then b
      else match topics b !! sub_key s with
           | None => b
           | Some c => with_subscriptions (<[i := received c s]>) b
           end
  end.

(** One call of the broker, or one turn of a subscription. *)
Inductive broker_step : MemoryBroker → MemoryBroker → Prop :=
| step_publish stream topic m b : broker_step b (publish stream topic m b)
| step_poll stream topic n b : broker_step b (poll stream topic n b).1
| step_subscribe stream topic group b : broker_step b (subscribe stream topic group b)
| step_ensure_topic stream topic b : broker_step b (ensure_topic stream topic b)
| step_ensure_group stream topic group b : broker_step b (ensure_consumer_group stream topic group b)
| step_cancel i b : broker_step b (cancel_subscription i b)
| step_deliver i b : broker_step b (deliver i b).
End broker.
Arguments Subscription : clear implicits.
Arguments MemoryBroker : clear implicits.
