(* ===== verification/BusSpec.v ===== *)
(** * The entity bus: correctness
    Topic names are a coding; a handler sees what was published to its topic after it
    subscribed, in order and each message at most once, and misses none while the
    channel can hold them; polling never returns anything. *)

From S2P Require Import Prelude RustStr Ledger Bus.
From Stdlib Require Import ZArith Lia.
From stdpp Require Import base list sets strings gmap fin_maps relations.

Open Scope rust_scope.

(** The wire name of a topic is read back as that topic, and no other name is read as
    it. *)
Theorem topic_names_roundtrip name t : topic_from_name name = Some t ↔ name = topic_str t.
Proof.
  split.
  - unfold topic_from_name. repeat case_decide; by intros [= <-].
  - intros ->. by destruct t.
Qed.

Lemma topic_str_inj t t' : topic_str t = topic_str t' → t = t'.
Proof.
  intros Heq. assert (topic_from_name (topic_str t) = Some t) as Ht by (by destruct t).
  rewrite Heq in Ht. destruct t'; by injection Ht.
Qed.

(** The JSON text of an envelope carries it; the headers are for routing only. *)
Lemma envelope_message_roundtrip {P} (print : Envelope P → result string string) parse uuid now e m :
  (∀ e s, print e = Ok s → parse s = Ok e) →
  to_message print uuid now e = Ok m →
  from_message parse m = Ok e ∧
  message_headers m !! "correlation_id" = Some (envelope_correlation e) ∧
  message_headers m !! "soul_ref" = envelope_soul_ref e.
Proof.
  intros Hpp. unfold to_message. destruct (print e) as [s|] eqn:Hs; [|done]. intros [= <-].
  unfold from_message. cbn [message_payload message_headers]. split; [by eapply Hpp|].
  destruct (envelope_soul_ref e); simplify_map_eq; done.
Qed.

Section broker.
Context {Msg Chan Recv : Type} `{BroadcastLaws Msg Chan Recv}.
Notation Broker := (MemoryBroker Msg Chan Recv).
Notation Sub := (Subscription Msg Recv).
Implicit Types (b : Broker) (s : Sub) (c : Chan).

(** Every subscription has its channel, and has read no more than was sent. *)
Definition well b : Prop :=
  ∀ i s, subscriptions b !! i = Some s →
    ∃ c, topics b !! sub_key s = Some c ∧ position (sub_receiver s) ≤ length (sent c).

(** What a channel and a subscription may become. *)
Definition grown c c' : Prop := sent c `prefix_of` sent c' ∧ capacity c' = capacity c.

Lemma grown_refl c : grown c c.
Proof. split; [by exists []; rewrite app_nil_r|done]. Qed.

Lemma grown_trans c1 c2 c3 : grown c1 c2 → grown c2 c3 → grown c1 c3.
Proof. intros [? ?] [? ?]. split; [by etrans|congruence]. Qed.

(** The messages read between two states of a subscription, of those sent. *)
Definition read_between s s' c' (got : list Msg) : Prop :=
  sub_key s' = sub_key s ∧ handled s' = handled s ++ got ∧
  position (sub_receiver s) ≤ position (sub_receiver s') ≤ length (sent c') ∧
  let span := take (position (sub_receiver s') - position (sub_receiver s))
                (drop (position (sub_receiver s)) (sent c')) in
  got `sublist_of` span ∧
  (length (sent c') - position (sub_receiver s) ≤ capacity c' → got = span).

Definition step_ok b b' : Prop :=
  (∀ k c, topics b !! k = Some c → ∃ c', topics b' !! k = Some c' ∧ grown c c') ∧
  (∀ i s c, subscriptions b !! i = Some s → topics b !! sub_key s = Some c →
     position (sub_receiver s) ≤ length (sent c) →
     ∃ s' c' got, subscriptions b' !! i = Some s' ∧ topics b' !! sub_key s = Some c' ∧
       read_between s s' c' got).

Lemma read_nothing s s' c' :
  sub_key s' = sub_key s → sub_receiver s' = sub_receiver s → handled s' = handled s →
  position (sub_receiver s) ≤ length (sent c') → read_between s s' c' [].
Proof.
  intros Hk Hr Hh Hp. unfold read_between. rewrite Hk, Hr, Hh, Nat.sub_diag, take_0, app_nil_r.
  split_and!; [done..| |done]. apply sublist_nil_l.
Qed.

Lemma span_app (l : list Msg) p q r :
  p ≤ q → q ≤ r →
  take (r - p) (drop p l) = take (q - p) (drop p l) ++ take (r - q) (drop q l).
Proof.
  intros Hpq Hqr. replace (r - p) with ((q - p) + (r - q)) by lia.
  rewrite <- (take_take_drop (drop p l)). by rewrite drop_drop; replace (p + (q - p)) with q by lia.
Qed.

Lemma read_between_grown s s' c c' got :
  read_between s s' c got → grown c c' → read_between s s' c' got.
Proof.
  intros (Hk & Hh & Hp & Hsub & Hex) [[l Hl] Hcap]. unfold read_between.
  rewrite Hl, length_app.
  assert (take (position (sub_receiver s') - position (sub_receiver s))
            (drop (position (sub_receiver s)) (sent c ++ l)) =
          take (position (sub_receiver s') - position (sub_receiver s))
            (drop (position (sub_receiver s)) (sent c))) as Heq.
  { rewrite drop_app_le by lia. apply take_app_le. rewrite length_drop. lia. }
  rewrite Heq. split_and!; [done..|lia|lia|done|]. intros Hc. apply Hex. rewrite <- Hcap. lia.
Qed.

Lemma read_between_trans s1 s2 s3 c got got' :
  read_between s1 s2 c got → read_between s2 s3 c got' → read_between s1 s3 c (got ++ got').
Proof.
  intros (Hk & Hh & Hp & Hsub & Hex) (Hk' & Hh' & Hp' & Hsub' & Hex'). unfold read_between.
  rewrite (span_app _ _ (position (sub_receiver s2))) by lia.
  split_and!; [congruence|by rewrite Hh', Hh, app_assoc|lia|lia|by apply sublist_app|].
  intros Hc. rewrite Hex, Hex' by lia. done.
Qed.

Lemma step_ok_refl b : step_ok b b.
Proof.
  split.
  - intros k c Hc. exists c. split; [done|apply grown_refl].
  - intros i s c Hs Hc Hp. exists s, c, []. split_and!; [done..|by apply read_nothing].
Qed.

Lemma step_ok_well b b' : step_ok b b' →
  (∀ i s, subscriptions b' !! i = Some s → is_Some (subscriptions b !! i) ∨
     ∃ c, topics b' !! sub_key s = Some c ∧ position (sub_receiver s) ≤ length (sent c)) →
  well b → well b'.
Proof.
  intros [Ht Hs] Hnew Hw i s' Hi. destruct (Hnew i s' Hi) as [[s Hold]|Hc]; [|done].
  destruct (Hw i s Hold) as (c & Hc & Hp).
  destruct (Hs i s c Hold Hc Hp) as (s2 & c2 & got & Hs2 & Hc2 & Hk & _ & Hpos & _).
  rewrite Hi in Hs2. injection Hs2 as <-. exists c2. rewrite Hk. split; [done|lia].
Qed.

Lemma step_ok_trans b1 b2 b3 : well b1 → step_ok b1 b2 → step_ok b2 b3 → step_ok b1 b3.
Proof.
  intros Hw [Ht Hs] [Ht' Hs']. split.
  - intros k c Hc. destruct (Ht k c Hc) as (c2 & Hc2 & Hg).
    destruct (Ht' k c2 Hc2) as (c3 & Hc3 & Hg'). exists c3. split; [done|by eapply grown_trans].
  - intros i s c Hi Hc Hp. destruct (Hs i s c Hi Hc Hp) as (s2 & c2 & got & Hs2 & Hc2 & Hr).
    pose proof Hr as (Hk & _ & Hpos & _).
    destruct (Hs' i s2 c2 Hs2) as (s3 & c3 & got' & Hs3 & Hc3 & Hr'); [by rewrite Hk|lia|].
    rewrite Hk in Hc3. exists s3, c3, (got ++ got'). split_and!; [done..|].
    eapply read_between_trans; [|done]. eapply read_between_grown; [done|].
    destruct (Ht' _ _ Hc2) as (c4 & Hc4 & Hg). congruence.
Qed.

(** ** The calls *)

(** A call that only lets channels grow. *)
Lemma channels_only_ok b b' :
  (∀ k c, topics b !! k = Some c → ∃ c', topics b' !! k = Some c' ∧ grown c c') →
  (∀ i s, subscriptions b !! i = Some s → ∃ s', subscriptions b' !! i = Some s' ∧
     sub_key s' = sub_key s ∧ sub_receiver s' = sub_receiver s ∧ handled s' = handled s) →
  step_ok b b'.
Proof.
  intros Ht Hs. split; [done|]. intros i s c Hi Hc Hp.
  destruct (Ht _ _ Hc) as (c' & Hc' & Hg). destruct (Hs i s Hi) as (s' & Hi' & Hk & Hr & Hh).
  exists s', c', []. split_and!; [done..|]. apply read_nothing; [done..|].
  destruct Hg as [[l Hl] _]. rewrite Hl, length_app. lia.
Qed.

Lemma set_channel_grows (m : gmap (string * string) Chan) k c c' :
  (m !! k = Some c ∨ m !! k = None) → grown c c' →
  ∀ k' c1, m !! k' = Some c1 → ∃ c2, <[k := c']> m !! k' = Some c2 ∧ grown c1 c2.
Proof.
  intros Hk Hg k' c1 Hc1. destruct (decide (k = k')) as [<-|Hne].
  - rewrite lookup_insert_eq. exists c'. split; [done|]. destruct Hk; congruence.
  - rewrite lookup_insert_ne by done. exists c1. split; [done|apply grown_refl].
Qed.

Lemma get_or_create_spec stream topic b b' c :
  get_or_create_sender stream topic b = (b', c) →
  topics b' !! (stream, topic) = Some c ∧ subscriptions b' = subscriptions b ∧
  (∀ k c1, topics b !! k = Some c1 → topics b' !! k = Some c1).
Proof.
  unfold get_or_create_sender. destruct (topics b !! (stream, topic)) as [c0|] eqn:Hc.
  - by intros [= <- <-].
  - intros [= <- <-]. simpl. split_and!; [by rewrite lookup_insert_eq|done|].
    intros k c1 Hk. rewrite lookup_insert_ne; [done|]. intros <-. congruence.
Qed.

(** The channel of a topic replaced by one that has grown from it. *)
Lemma replace_channel_ok stream topic b b1 c c' :
  get_or_create_sender stream topic b = (b1, c) → grown c c' →
  step_ok b (with_topics (<[(stream, topic) := c']>) b1).
Proof.
  intros (Hc & Hs & Hkeep)%get_or_create_spec Hg. apply channels_only_ok.
  - intros k c1 Hk%Hkeep. simpl. eapply set_channel_grows; [|done|done]. by left.
  - intros i s Hi. exists s. simpl. rewrite Hs. done.
Qed.

Lemma publish_ok stream topic m b : step_ok b (publish stream topic m b).
Proof.
  unfold publish. destruct (get_or_create_sender stream topic b) as [b1 c] eqn:Hg.
  eapply replace_channel_ok; [done|]. destruct (channel_send m c) as [c' o] eqn:Hs.
  apply send_spec in Hs as [Hcap Hs]. split; [|exact Hcap].
  destruct o; simpl; rewrite Hs; [by exists [m]|by exists []; rewrite app_nil_r].
Qed.

Lemma subscribe_grown c c' r : channel_subscribe c = (c', r) → grown c c'.
Proof.
  intros (Hs & Hc & _)%subscribe_spec. split; [|done]. exists []. by rewrite app_nil_r, Hs.
Qed.

Lemma poll_ok stream topic n b : step_ok b (poll stream topic n b).1.
Proof.
  unfold poll. destruct (get_or_create_sender stream topic b) as [b1 c] eqn:Hg.
  destruct (channel_subscribe c) as [c' r] eqn:Hs. simpl.
  eapply replace_channel_ok; [done|]. by eapply subscribe_grown.
Qed.

Lemma append_subscription_ok b b' s :
  step_ok b b' → subscriptions b' = subscriptions b →
  step_ok b (with_subscriptions (λ l, l ++ [s]) b').
Proof.
  intros [Ht Hs] Heq. split; [done|]. intros i s1 c Hi Hc Hp.
  destruct (Hs i s1 c Hi Hc Hp) as (s2 & c2 & got & Hs2 & Hc2 & Hr).
  exists s2, c2, got. split_and!; [|done..]. simpl.
  by apply lookup_app_l_Some.
Qed.

Lemma subscribe_step stream topic group b :
  step_ok b (subscribe stream topic group b) ∧
  (well b → well (subscribe stream topic group b)).
Proof.
  unfold subscribe. destruct (get_or_create_sender stream topic b) as [b1 c] eqn:Hg.
  destruct (channel_subscribe c) as [c' r] eqn:Hs.
  pose proof (get_or_create_spec _ _ _ _ _ Hg) as (_ & Heq & _).
  assert (step_ok b (with_topics (<[(stream, topic):=c']>) b1)) as Hok
    by (eapply replace_channel_ok; [done|by eapply subscribe_grown]).
  assert (subscriptions (with_topics (<[(stream, topic):=c']>) b1) = subscriptions b) as Hsame
    by done.
  split; [by apply append_subscription_ok|].
  apply step_ok_well; [by apply append_subscription_ok|].
  intros i s Hi. simpl in Hi. rewrite Heq in Hi.
  apply lookup_app_Some in Hi as [Hi|[_ Hi]]; [by left; eexists|right].
  apply list_lookup_singleton_Some in Hi as [_ <-]. exists c'. simpl.
  rewrite lookup_insert_eq. split; [done|]. apply subscribe_spec in Hs as (-> & _ & ->). lia.
Qed.

Lemma ensure_topic_ok stream topic b : step_ok b (ensure_topic stream topic b).
Proof.
  apply channels_only_ok; [|intros i s Hi; by exists s].
  intros k c Hk. unfold ensure_topic. simpl.
  destruct (topics b !! (stream, topic)) as [c0|] eqn:Hc; [exists c; split; [done|apply grown_refl]|].
  rewrite lookup_insert_ne; [exists c; split; [done|apply grown_refl]|]. intros <-. congruence.
Qed.

Lemma cancel_ok i b : step_ok b (cancel_subscription i b).
Proof.
  apply channels_only_ok; [intros k c Hk; exists c; split; [done|apply grown_refl]|].
  intros j s Hj. unfold cancel_subscription. simpl. destruct (decide (i = j)) as [<-|Hne].
  - rewrite list_lookup_alter_eq, Hj. simpl. eexists; split; [done|]. done.
  - rewrite list_lookup_alter_ne by done. by exists s.
Qed.

Lemma received_spec c s :
  position (sub_receiver s) ≤ length (sent c) →
  ∃ got, read_between s (received c s) c got ∧
    (position (sub_receiver s) < length (sent c) →
     position (sub_receiver s) < position (sub_receiver (received c s))).
Proof.
  intros Hp. unfold received. destruct (try_recv (sub_receiver s) c) as [r o] eqn:Hr.
  apply try_recv_spec in Hr; [|done].
  destruct o as [m| |n|].
  - destruct Hr as [Hm Hpos]. exists [m]. simpl. split; [|lia]. unfold read_between. simpl.
    pose proof (lookup_lt_Some _ _ _ Hm).
    assert (take (position r - position (sub_receiver s)) (drop (position (sub_receiver s)) (sent c))
            = [m]) as ->.
    { rewrite Hpos. replace (S _ - _) with 1 by lia. by rewrite (drop_S _ m) by done. }
    split_and!; [done..|lia|lia|done|done].
  - destruct Hr as [Heq Hpos]. exists []. simpl. split; [|lia]. unfold read_between. simpl.
    rewrite Hpos, Nat.sub_diag, take_0, app_nil_r. split_and!; [done..|lia|done|done].
  - destruct Hr as (Hlag & Hn & Hpos & Hlen). exists []. simpl. split; [|lia].
    unfold read_between. simpl. rewrite app_nil_r.
    split_and!; [done|done|lia|lia|apply sublist_nil_l|lia].
  - destruct Hr as [Heq Hpos]. exists []. simpl. split; [|lia]. unfold read_between. simpl.
    rewrite Hpos, Nat.sub_diag, take_0, app_nil_r. split_and!; [done..|lia|done|done].
Qed.

Lemma deliver_ok i b : well b → step_ok b (deliver i b).
Proof.
  intros Hw. unfold deliver. destruct (subscriptions b !! i) as [s|] eqn:Hi; [|apply step_ok_refl].
  destruct (sub_cancelled s); [apply step_ok_refl|].
  destruct (topics b !! sub_key s) as [c|] eqn:Hc; [|apply step_ok_refl].
  split; [intros k c1 Hk; exists c1; split; [done|apply grown_refl]|].
  intros j s1 c1 Hj Hc1 Hp1. simpl. destruct (decide (i = j)) as [<-|Hne].
  - rewrite list_lookup_insert_eq by (by eapply lookup_lt_Some).
    assert (s1 = s) as -> by congruence. assert (c1 = c) as -> by congruence.
    destruct (received_spec c s Hp1) as (got & Hr & _). by exists (received c s), c, got.
  - rewrite list_lookup_insert_ne by done.
    exists s1, c1, []. split_and!; [done..|by apply read_nothing].
Qed.

Lemma broker_step_ok b b' : broker_step b b' → well b → step_ok b b' ∧ well b'.
Proof.
  assert (∀ b b', step_ok b b' → length (subscriptions b') = length (subscriptions b) →
    well b → well b') as Hsame.
  { intros b1 b2 Hok Hlen. apply step_ok_well; [done|]. intros i s Hi. left.
    apply lookup_lt_is_Some. rewrite <- Hlen. by eapply lookup_lt_Some. }
  intros Hs Hw. destruct Hs as [st t m b|st t n b|st t g b|st t b|st t g b|i b|i b].
  - split; [apply publish_ok|]. apply (Hsame b); [apply publish_ok| |done].
    unfold publish. destruct (get_or_create_sender st t b) as [b1 c] eqn:Hg.
    apply get_or_create_spec in Hg as (_ & Heq & _). simpl. by rewrite Heq.
  - split; [apply poll_ok|]. apply (Hsame b); [apply poll_ok| |done].
    unfold poll. destruct (get_or_create_sender st t b) as [b1 c] eqn:Hg.
    destruct (channel_subscribe c). apply get_or_create_spec in Hg as (_ & Heq & _). simpl. by rewrite Heq.
  - destruct (subscribe_step st t g b). auto.
  - split; [apply ensure_topic_ok|]. by apply (Hsame b); [apply ensure_topic_ok| |].
  - assert (step_ok b (ensure_consumer_group st t g b)) as Hok.
    { apply channels_only_ok; [|intros i s Hi; by exists s].
      intros k c Hk. exists c. split; [done|apply grown_refl]. }
    split; [done|]. by apply (Hsame b).
  - split; [apply cancel_ok|]. apply (Hsame b); [apply cancel_ok| |done].
    unfold cancel_subscription. simpl. apply length_alter.
  - split; [by apply deliver_ok|]. apply (Hsame b); [by apply deliver_ok| |done].
    unfold deliver. repeat case_match; simpl; rewrite ?length_insert; done.
Qed.

Lemma broker_steps_ok b b' : rtc broker_step b b' → well b → step_ok b b' ∧ well b'.
Proof.
  induction 1 as [b|b1 b2 b3 Hs _ IH]; intros Hw; [split; [apply step_ok_refl|done]|].
  destruct (broker_step_ok _ _ Hs Hw) as [Hok Hw2]. destruct (IH Hw2) as [Hok' Hw3].
  split; [by eapply step_ok_trans|done].
Qed.

Lemma new_broker_well n : well (new_broker n).
Proof. intros i s Hi. done. Qed.

(** Over any interleaving of calls of the broker and turns of its subscribers, what a
    handler is called with after some moment is taken from what its topic is sent
    from where it stood: in the order of publication and each message at most once;
    and as long as no more messages than the channel holds are sent past where it
    stood, it misses none of those it has read over. *)
Theorem handlers_see_in_order n b b' i s :
  rtc broker_step (new_broker n) b → rtc broker_step b b' →
  subscriptions b !! i = Some s →
  ∃ s' c' got, subscriptions b' !! i = Some s' ∧ topics b' !! sub_key s = Some c' ∧
    handled s' = handled s ++ got ∧
    got `sublist_of` drop (position (sub_receiver s)) (sent c') ∧
    (length (sent c') - position (sub_receiver s) ≤ capacity c' →
     got = take (position (sub_receiver s') - position (sub_receiver s))
             (drop (position (sub_receiver s)) (sent c'))).
Proof.
  intros Hinit Hsteps Hi.
  destruct (broker_steps_ok _ _ Hinit (new_broker_well n)) as [_ Hw].
  destruct (broker_steps_ok _ _ Hsteps Hw) as [[_ Hs] _].
  destruct (Hw i s Hi) as (c & Hc & Hp).
  destruct (Hs i s c Hi Hc Hp) as (s' & c' & got & Hi' & Hc' & _ & Hh & _ & Hsub & Hex).
  exists s', c', got. split_and!; [done..| |done].
  etrans; [exact Hsub|]. apply sublist_take.
Qed.

(** Polling the in-memory broker returns nothing, whatever was published and whatever
    the size of the batch. *)
Theorem poll_returns_nothing stream topic n b : (poll stream topic n b).2 = [].
Proof.
  unfold poll. destruct (get_or_create_sender stream topic b) as [b1 c] eqn:Hg.
  destruct (channel_subscribe c) as [c' r] eqn:Hs. apply subscribe_spec in Hs as (Hsent & _ & Hpos).
  simpl. destruct n as [|n]; [done|]. simpl.
  destruct (try_recv r c') as [r' o] eqn:Hr. apply try_recv_spec in Hr; [|rewrite Hpos, Hsent; done].
  destruct o as [m| | |]; [|done..]. destruct Hr as [Hm _]. apply lookup_lt_Some in Hm.
  rewrite Hpos, Hsent in Hm. lia.
Qed.

(** A subscriber that is behind catches up: with as many turns of its loop as there are
    messages ahead of it, it has read everything its topic was sent. *)
Theorem subscriber_catches_up i b s c :
  subscriptions b !! i = Some s → sub_cancelled s = false → topics b !! sub_key s = Some c →
  position (sub_receiver s) ≤ length (sent c) →
  ∃ k s', k ≤ length (sent c) - position (sub_receiver s) ∧
    subscriptions (Nat.iter k (deliver i) b) !! i = Some s' ∧
    position (sub_receiver s') = length (sent c).
Proof.
  remember (length (sent c) - position (sub_receiver s)) as d eqn:Hd.
  revert b s Hd. induction d as [d IH] using lt_wf_ind. intros b s Hd Hi Hlive Hc Hp.
  destruct (decide (d = 0)) as [->|Hne]; [exists 0, s; split_and!; [lia|done|lia]|].
  destruct (received_spec c s Hp) as (got & (Hk & _ & Hpos & _) & Hmore). specialize (Hmore ltac:(lia)).
  set (s1 := received c s) in *.
  assert (deliver i b = with_subscriptions (<[i := s1]>) b) as Hdel
    by (unfold deliver; by rewrite Hi, Hlive, Hc).
  destruct (IH (length (sent c) - position (sub_receiver s1)) ltac:(lia)
              (with_subscriptions (<[i := s1]>) b) s1) as (k & s' & Hlen & Hs' & Hend);
    [done| | | |lia|].
  - simpl. by rewrite list_lookup_insert_eq by (by eapply lookup_lt_Some).
  - unfold s1, received. destruct (try_recv _ _) as [r [| | |]]; done.
  - simpl. by rewrite Hk.
  - exists (S k), s'. split_and!; [lia| |done]. rewrite Nat.iter_succ_r, Hdel. done.
Qed.
End broker.

(** ** Witnesses *)

Module BusDemo.
(** A channel that remembers everything, and its capacity. *)
#[export] Instance bounded : Broadcast string (list string * nat) nat := {|
  channel n := ([], n);
  channel_send m c := ((c.1 ++ [m], c.2), Ok tt);
  channel_subscribe c := (c, length c.1);
  try_recv r c :=
    match c.1 !! r with
    | None => (r, Bus.Empty)
    | Some m =>
        if decide (c.2 < length c.1 - r) then
          (r + (length c.1 - r - c.2), Lagged (length c.1 - r - c.2))
        else (S r, Got m)
    end;
|}.

#[export] Instance bounded_laws : BroadcastLaws string (list string * nat) nat.
Proof.
  refine {| sent := fst; position := id; capacity := snd |}; cbn [channel channel_send
    channel_subscribe try_recv bounded]; unfold id.
  - done.
  - intros m c c' o [= <- <-]. done.
  - intros c c' r [= <- <-]. done.
  - intros r c r' o Hr. destruct (c.1 !! r) as [m|] eqn:Hm.
    + pose proof (lookup_lt_Some _ _ _ Hm). case_decide; intros [= <- <-]; [split_and!; lia|done].
    + apply lookup_ge_None in Hm. intros [= <- <-]. split; [lia|done].
Defined.

Definition start : MemoryBroker string (list string * nat) nat :=
  subscribe "entity" "mentor.input" "id-stage" (new_broker 2).
Definition busy : MemoryBroker string (list string * nat) nat :=
  deliver 0 (deliver 0 (publish "entity" "mentor.input" "b"
    (publish "entity" "mentor.input" "a" start))).
Definition first : Subscription string nat :=
  mkSubscription ("entity", "mentor.input") "id-stage" 0 false [].
End BusDemo.
Import (hints) BusDemo.

Lemma handlers_see_in_order_witness :
  ∃ s', subscriptions BusDemo.busy !! 0 = Some s' ∧ handled s' = ["a"; "b"].
Proof.
  destruct (handlers_see_in_order 2 BusDemo.start BusDemo.busy 0 BusDemo.first)
    as (s' & c' & got & Hs & Hc & Hh & _ & Hall).
  - eapply rtc_l; [apply (step_subscribe "entity" "mentor.input" "id-stage" (new_broker 2))|].
    apply rtc_refl.
  - eapply rtc_l; [apply (step_publish "entity" "mentor.input" "a")|].
    eapply rtc_l; [apply (step_publish "entity" "mentor.input" "b")|].
    eapply rtc_l; [apply (step_deliver 0)|]. eapply rtc_l; [apply (step_deliver 0)|]. apply rtc_refl.
  - vm_compute. reflexivity.
  - exists s'. split; [exact Hs|].
    assert (topics BusDemo.busy !! sub_key BusDemo.first = Some (["a"; "b"], 2)) as Ht
      by (vm_compute; reflexivity).
    rewrite Ht in Hc. injection Hc as <-.
    assert (subscriptions BusDemo.busy !! 0 =
      Some (mkSubscription ("entity", "mentor.input") "id-stage" 2 false ["a"; "b"])) as Hb
      by (vm_compute; reflexivity).
    rewrite Hb in Hs. injection Hs as <-. rewrite Hh, Hall; [reflexivity|]. simpl. lia.
Defined.

Lemma subscriber_catches_up_witness :
  ∃ k s', k ≤ 1 ∧ subscriptions (Nat.iter k (deliver 0)
      (publish "entity" "mentor.input" "a" BusDemo.start)) !! 0 = Some s' ∧
    sub_receiver s' = 1.
Proof.
  exact (subscriber_catches_up 0 (publish "entity" "mentor.input" "a" BusDemo.start) BusDemo.first
    (["a"], 2) eq_refl eq_refl eq_refl (Nat.le_0_l 1)).
Defined.
