(* ===== verification/SecureFs.v ===== *)
(** * Files and errors of the core crate ([crates/abigail-core/src/error.rs],
      [secure_fs.rs])

    [Disk] is what a process sees of its machine: the files, the password the
    operating system keeps for it, and a counter of the calls made to either.
    Whether the n-th call fails is read from an oracle, so that a theorem over
    all oracles covers every failure, and a crash too: it is the oracle that
    fails every call from some point on.  Directories carry no content and are
    not modelled. *)

From S2P Require Import Prelude RustStr Paths.
From Stdlib Require Import ZArith Lia Ascii.
From stdpp Require Import base list strings gmap countable pretty.

(** ** [CoreError] *)

Inductive CoreError : Type :=
| Crypto (msg : string)
| SignatureInvalid (document : string)
| DocumentNotFound (document : string)
| Keyring (msg : string)
| ConfigError (msg : string)
| Vault (msg : string)
| Io (msg : string)
| Serialization (msg : string).

(** [Display]: the [#[error("...")]] attributes. *)
Definition core_error_str (e : CoreError) : string :=
  match e with
  | Crypto m => "Crypto error: " +:+ m
  | SignatureInvalid d => "Signature verification failed for " +:+ d
  | DocumentNotFound d => "Document not found: " +:+ d
  | Keyring m => "Keyring error: " +:+ m
  | ConfigError m => "Config error: " +:+ m
  | Vault m => "Vault error: " +:+ m
  | Io m => "IO error: " +:+ m
  | Serialization m => "Serialization error: " +:+ m
  end.

(** ** The machine *)

#[export] Instance Component_countable : Countable Component.
Proof.
  refine (inj_countable'
    (λ c, match c with
          | RootDir => inl 0 | CurDir => inl 1 | ParentDir => inl 2
          | Normal n => inr n
          end)
    (λ x, match x with
          | inl 0 => RootDir | inl 1 => CurDir | inl _ => ParentDir
          | inr n => Normal n
          end) _).
  by intros [].
Defined.

Record Disk : Type := mkDisk {
  files : gmap path string;
  credential : option string;
  calls : nat;
}.

Section fs.
(** The error of the n-th call, if it fails; how many bytes a failing write had
    written. *)
Context (io : nat → option string) (written : nat → nat).
(** [Path::display], and the suffix of temporary names: process and clock. *)
Context (display : path → string) (tmp_suffix : nat → string).

Notation D := (M Disk CoreError).

Definition with_files (f : gmap path string → gmap path string) (d : Disk) : Disk :=
  mkDisk (f (files d)) (credential d) (calls d).

Definition tick (d : Disk) : Disk := mkDisk (files d) (credential d) (S (calls d)).

(** A call of the operating system that can fail and else changes the files. *)
Definition syscall (f : gmap path string → gmap path string) : D unit := λ d,
  match io (calls d) with
  | Some e => (tick d, Err (Io e))
  | None => (tick (with_files f d), Ok tt)
  end.

(** [std::fs::create_dir_all] *)
Definition create_dir_all (p : path) : D unit := syscall id.

(** [Path::exists], which also answers no when the metadata of a file cannot be read:
    that case is left out. *)
Definition exists_ (p : path) (d : Disk) : bool :=
  match files d !! p with Some _ => true | None => false end.

Definition not_found : string := "No such file or directory (os error 2)".

(** [std::fs::read] *)
Definition read_file (p : path) : D string := λ d,
  match io (calls d) with
  | Some e => (tick d, Err (Io e))
  | None =>
      match files d !! p with
      | Some b => (tick d, Ok b)
      | None => (tick d, Err (Io not_found))
      end
  end.

(** [std::fs::remove_file] *)
Definition remove_file (p : path) : D unit := λ d,
  match io (calls d) with
  | Some e => (tick d, Err (Io e))
  | None =>
      match files d !! p with
      | Some _ => (tick (with_files (delete p) d), Ok tt)
      | None => (tick d, Err (Io not_found))
      end
  end.

(** [OpenOptions::new().create_new(true)] *)
Definition create_new (p : path) : D unit := λ d,
  match io (calls d) with
  | Some e => (tick d, Err (Io e))
  | None =>
      match files d !! p with
      | Some _ => (tick d, Err (Io "File exists (os error 17)"))
      | None => (tick (with_files <[p := ""]> d), Ok tt)
      end
  end.

(** [write_all] into a file just emptied: a failure leaves a part of it. *)
Definition write_all (p : path) (bytes : string) : D unit := λ d,
  match io (calls d) with
  | Some e => (tick (with_files <[p := str_take (written (calls d)) bytes]> d), Err (Io e))
  | None => (tick (with_files <[p := bytes]> d), Ok tt)
  end.

(** [std::fs::write]: the file is truncated first. *)
Definition fs_write (p : path) (bytes : string) : D unit :=
  syscall <[p := ""]> ;; write_all p bytes.

(** [std::fs::rename] *)
Definition rename (src dest : path) : D unit := λ d,
  match io (calls d) with
  | Some e => (tick d, Err (Io e))
  | None =>
      match files d !! src with
      | Some b => (tick (with_files (λ m, <[dest := b]> (delete src m)) d), Ok tt)
      | None => (tick d, Err (Io not_found))
      end
  end.

(** [path.with_file_name(..)] *)
Definition with_file_name (p : path) (name : string) : path :=
  unwrap_or (parent p) p ++ [Normal name].

Definition unique_temp_path (p : path) (n : nat) : path :=
  with_file_name p
    ("." +:+ unwrap_or (file_name p) "abigail.tmp" +:+ ".tmp-" +:+ tmp_suffix n).

Definition sync_parent (p : path) : D unit := syscall id ;; syscall id.

(** What [write_bytes_atomic] does once the temporary file is open. *)
Definition replace_contents (temp p dir : path) (bytes : string) : D unit :=
  write_all temp bytes ;; syscall id ;; rename temp p ;; sync_parent dir.

(** A reading of the outside, at its place among the calls. *)
Definition reading {A} (k : nat → D A) : D A := λ d, k (calls d) d.

(** A failed operation removes the file it worked on, if it can. *)
Definition or_remove (temp : path) (m : D unit) : D unit := λ d,
  match m d with
  | (d, Ok tt) => (d, Ok tt)
  | (d, Err e) => ((remove_file temp d).1, Err e)
  end.

Definition write_bytes_atomic (p : path) (bytes : string) : D unit :=
  if existsb (λ c, bool_decide (c = ParentDir)) p
  then fail (Io ("Path '" +:+ display p +:+ "' contains disallowed traversal"))
  else match parent p with
  | None => fail (Io ("Path '" +:+ display p +:+ "' has no parent directory"))
  | Some dir =>
      create_dir_all dir ;;
      reading (λ n,
        let temp := unique_temp_path p n in
        create_new temp ;; syscall id ;;
        or_remove temp (replace_contents temp p dir bytes))
  end.

Definition write_string_atomic := write_bytes_atomic.
End fs.

(** ** What the calls do to the files *)

Section facts.
Context (io : nat → option string) (written : nat → nat).
Context (display : path → string) (tmp_suffix : nat → string).

(** The file is untouched by a step. *)
Definition file_kept (p : path) (d d' : Disk) : Prop := files d' !! p = files d !! p.

#[export] Instance file_kept_preorder p : PreOrder (file_kept p).
Proof. split; [done|]. intros d1 d2 d3 H1 H2. unfold file_kept in *. congruence. Qed.

(** The password kept by the operating system is untouched. *)
Definition credential_kept (d d' : Disk) : Prop := credential d' = credential d.

#[export] Instance credential_kept_preorder : PreOrder credential_kept.
Proof. split; [done|]. intros d1 d2 d3 H1 H2. unfold credential_kept in *. congruence. Qed.

Ltac one_call := intros d d' r;
  unfold syscall, read_file, remove_file, create_new, write_all, rename;
  repeat case_match; intros; simplify_eq; unfold file_kept, credential_kept; simpl;
  rewrite ?lookup_insert_ne, ?lookup_delete_ne by done; try done.

Lemma syscall_id_kept p : respects (file_kept p) (syscall io id).
Proof. one_call. Qed.
Lemma read_file_kept p q : respects (file_kept p) (read_file io q).
Proof. one_call. Qed.
Lemma remove_file_kept p q : p ≠ q → respects (file_kept p) (remove_file io q).
Proof. intros Hne. one_call. Qed.
Lemma create_new_kept p q : p ≠ q → respects (file_kept p) (create_new io q).
Proof. intros Hne. one_call. Qed.
Lemma write_all_kept p q b : p ≠ q → respects (file_kept p) (write_all io written q b).
Proof. intros Hne. one_call. Qed.
Lemma rename_kept p q q' : p ≠ q → p ≠ q' → respects (file_kept p) (rename io q q').
Proof. intros Hne Hne'. one_call. Qed.

Lemma syscall_credential f : respects credential_kept (syscall io f).
Proof. one_call. Qed.
Lemma read_file_credential q : respects credential_kept (read_file io q).
Proof. one_call. Qed.
Lemma remove_file_credential q : respects credential_kept (remove_file io q).
Proof. one_call. Qed.
Lemma create_new_credential q : respects credential_kept (create_new io q).
Proof. one_call. Qed.
Lemma write_all_credential q b : respects credential_kept (write_all io written q b).
Proof. one_call. Qed.
Lemma rename_credential q q' : respects credential_kept (rename io q q').
Proof. one_call. Qed.

Lemma temp_ne p n : unique_temp_path tmp_suffix p n ≠ p.
Proof.
  unfold unique_temp_path, with_file_name, parent, file_name.
  destruct p as [|c p _] using rev_ind; [done|].
  rewrite last_snoc. destruct c as [| | |name]; simpl.
  1: { intros H. apply (f_equal length) in H. rewrite !length_app in H. simpl in H. lia. }
  all: rewrite removelast_last; intros [_ H]%app_inj_2; try done.
  injection H as H. apply (f_equal String.length) in H. revert H.
  rewrite !str_length_app. simpl. lia.
Qed.

(** Of the files other than the temporary one, an atomic write changes the
    target only, and that to the new content. *)
Definition replaced (p temp : path) (bytes : string) (d d' : Disk) : Prop :=
  credential_kept d d' ∧
  (∀ q, q ≠ p → q ≠ temp → file_kept q d d') ∧
  (file_kept p d d' ∨ files d' !! p = Some bytes).

#[export] Instance replaced_preorder p temp bytes : PreOrder (replaced p temp bytes).
Proof.
  split; [intros d; split_and!; [done|done|by left]|].
  intros d1 d2 d3 (Hc & Hq & Hp) (Hc' & Hq' & Hp'). split_and!.
  - by transitivity d2.
  - intros q Hne Hne'. transitivity d2; auto.
  - destruct Hp' as [Hp'|]; [|by right]. unfold file_kept in *. rewrite Hp'. exact Hp.
Qed.

Lemma kept_replaced {A} p temp bytes (m : M Disk CoreError A) :
  respects credential_kept m → (∀ q, q ≠ temp → respects (file_kept q) m) → p ≠ temp →
  respects (replaced p temp bytes) m.
Proof.
  intros Hc Hq Hne d d' r H. split_and!; [by eapply Hc|intros; by eapply Hq|].
  left. by eapply Hq.
Qed.

Lemma replace_contents_spec temp p dir bytes d d' r :
  p ≠ temp → replace_contents io written temp p dir bytes d = (d', r) →
  replaced p temp bytes d d' ∧ (r = Ok tt → files d' !! p = Some bytes).
Proof.
  intros Hne. unfold replace_contents, sync_parent.
  assert (∀ b k, replaced p temp bytes d
    (mkDisk (<[temp:=b]> (files d)) (credential d) k)) as Hearly.
  { intros b k. split_and!; [done|..].
    - intros q _ Hq. unfold file_kept. simpl. by rewrite lookup_insert_ne.
    - left. unfold file_kept. simpl. by rewrite lookup_insert_ne. }
  unfold write_all, rename, syscall. rewrite M_bind_eq.
  destruct (io (calls d)); [intros [= <- <-]; by split; [apply Hearly|]|].
  rewrite !M_bind_eq. simpl. destruct (io (S (calls d))); [intros [= <- <-]; by split; [apply Hearly|]|].
  rewrite M_bind_eq. simpl. destruct (io (S (S (calls d)))); [intros [= <- <-]; by split; [apply Hearly|]|].
  simpl. rewrite lookup_insert_eq. rewrite M_bind_eq. simpl.
  assert (∀ k, replaced p temp bytes d
    (mkDisk (<[p:=bytes]> (delete temp (<[temp:=bytes]> (files d)))) (credential d) k)).
  { intros k. split_and!; [done|..].
    - intros q Hp Hq. unfold file_kept. simpl.
      by rewrite lookup_insert_ne, lookup_delete_ne, lookup_insert_ne.
    - right. simpl. by rewrite lookup_insert_eq. }
  repeat case_match; intros; simplify_eq; (split; [by eauto|]); intros; try done; simpl;
    by rewrite lookup_insert_eq.
Qed.

Lemma write_bytes_atomic_spec p bytes d d' r :
  write_bytes_atomic io written display tmp_suffix p bytes d = (d', r) →
  credential_kept d d' ∧
  (∀ q, q ≠ p → (∀ n, q ≠ unique_temp_path tmp_suffix p n) → file_kept q d d') ∧
  (file_kept p d d' ∨ files d' !! p = Some bytes) ∧
  (r = Ok tt → files d' !! p = Some bytes).
Proof.
  unfold write_bytes_atomic. destruct (existsb _ _).
  { intros [= <- <-]. split_and!; [done|done|by left|done]. }
  destruct (parent p) as [dir|].
  2: { intros [= <- <-]. split_and!; [done|done|by left|done]. }
  intros [(d1 & [] & H1 & H2)|(e & H1 & ->)]%M_bind_inv.
  2: { split_and!; [by eapply syscall_credential| |left; by eapply syscall_id_kept|done].
       intros. by eapply syscall_id_kept. }
  unfold reading in H2. set (temp := unique_temp_path tmp_suffix p (calls d1)) in *.
  assert (p ≠ temp) as Hne by (intros H; exact (temp_ne p _ (eq_sym H))).
  assert (replaced p temp bytes d d1) as Hd1.
  { eapply kept_replaced; [apply syscall_credential|intros; apply syscall_id_kept|done|done]. }
  assert (replaced p temp bytes d d' ∧ (r = Ok tt → files d' !! p = Some bytes))
    as [(Hc & Hq & Hp) Hok].
  { apply M_bind_inv in H2 as [(d2 & [] & H2 & H3)|(e & H2 & ->)].
    2: { split; [|done]. transitivity d1; [done|].
         eapply kept_replaced; [apply create_new_credential|intros; by apply create_new_kept|done|done]. }
    assert (replaced p temp bytes d1 d2) as Hd2.
    { eapply kept_replaced; [apply create_new_credential|intros; by apply create_new_kept|done|done]. }
    apply M_bind_inv in H3 as [(d3 & [] & H3 & H4)|(e & H3 & ->)].
    2: { split; [|done]. transitivity d1; [done|]. transitivity d2; [done|].
         eapply kept_replaced; [apply syscall_credential|intros; apply syscall_id_kept|done|done]. }
    assert (replaced p temp bytes d2 d3) as Hd3.
    { eapply kept_replaced; [apply syscall_credential|intros; apply syscall_id_kept|done|done]. }
    assert (replaced p temp bytes d d3) as Hd by (etrans; [|exact Hd3]; by etrans).
    unfold or_remove in H4. destruct (replace_contents _ _ _ _ _ _ _) as [d4 [[]|e]] eqn:Hr.
    - apply replace_contents_spec in Hr as [Hr ?]; [|done]. simplify_eq.
      split; [by etrans|done].
    - apply replace_contents_spec in Hr as [Hr _]; [|done]. simplify_eq.
      split; [|done]. etrans; [exact Hd|]. etrans; [exact Hr|].
      destruct (remove_file io temp d4) as [d5 r5] eqn:Hrm. simpl.
      eapply kept_replaced; [apply remove_file_credential|intros; by apply remove_file_kept|done|done]. }
  split_and!; try done. intros q Hqp Hqt. apply Hq; [done|apply Hqt].
Qed.
End facts.
