(* ===== verification/Vault.v ===== *)
(** * The vault ([crates/abigail-core/src/vault/crypto.rs], [vault/mod.rs],
      [vault/unlock.rs], [vault/scoped.rs], [secrets.rs], [encrypted_storage.rs])

    Secrets are kept in files encrypted under keys derived from one root key.
    The root key comes from the credential store of the operating system, from
    two environment variables, or is created on the first start; a sentinel
    file, encrypted under it, is how a later start recognises it.  AES-GCM, HKDF,
    Argon2, base64 and JSON are parameters, as are the random numbers, the clock
    and the failures of the machine ([SecureFs]); a key is the string of its
    bytes.  The code of the Windows build is not modelled. *)

From S2P Require Import Prelude RustStr Paths SecureFs.
From Stdlib Require Import ZArith Lia Ascii.
From stdpp Require Import base list strings gmap pretty.

Open Scope rust_scope.

Definition KEK_LEN : nat := 32.
Definition NONCE_LEN : nat := 12.
Definition ENVELOPE_VERSION : ascii := "001"%char.
Definition SENTINEL_FILE_NAME : string := "vault.sentinel".
Definition SENTINEL_SCOPE : string := "vault:sentinel:v1".
Definition SENTINEL_PREFIX : string := "ABIGAIL_VAULT_v1_".
Definition KEYRING_ACCOUNT : string := "abigail.hive.master-kek-v1".
Definition RAW_KEK_ENV : string := "ABIGAIL_VAULT_RAW_KEY".
Definition PASSPHRASE_SALT : string := "abigail-vault-passphrase-salt-v1".
Definition KDF_METADATA_FILE : string := "vault.kdf.json".
Definition STORAGE_SCOPE : string := "encrypted-storage:general".
Definition ARGON2_MEMORY_COST_KIB : Z := 65536.
Definition ARGON2_TIME_COST : Z := 3.
Definition ARGON2_PARALLELISM : Z := 1.
Definition ARGON2_SALT_LEN : nat := 16.

Record PassphraseKdfMetadata : Type := mkKdf {
  version : Z;
  algorithm : string;
  salt_base64 : option string;
  memory_cost_kib : option Z;
  time_cost : option Z;
  parallelism : option Z;
}.

Definition legacy_hkdf : PassphraseKdfMetadata := mkKdf 1 "legacy_hkdf_v1" None None None None.

(** What a process keeps for its lifetime: the root key, the sentinel's text and
    the time of its verification, each written once. *)
Record Session : Type := mkSession {
  session_kek : string;
  session_sentinel : string;
  verified_at_utc : string;
}.

Record VaultRuntimeStatus : Type := mkRuntimeStatus {
  healthy : bool;
  status_verified_at : string;
  sentinel_value : string;
  sentinel_timestamp : option string;
}.

Record Process : Type := mkProcess {
  disk : Disk;
  session : option Session;
}.

Inductive VaultScope : Type :=
| Hive
| Entity (id : string)
| Skills
| Custom (label : string).

Definition label (s : VaultScope) : string :=
  match s with
  | Hive => "hive"
  | Entity id => "entity:" +:+ id
  | Skills => "skills"
  | Custom l => l
  end.

Record ScopedVault : Type := mkScoped {
  scoped_path : path;
  scope : VaultScope;
  scoped_secrets : gmap string string;
}.

Record SecretsVault : Type := mkSecrets {
  file_path : path;
  scope_label : string;
  secrets : gmap string string;
}.

(** The external code in use. *)
Class VaultHost : Type := {
  aead_encrypt : string → string → string → result string string;
  aead_decrypt : string → string → string → option string;
  (** salt, key material, info *)
  hkdf : option string → string → string → string;
  (** passphrase, salt, memory, time, parallelism *)
  argon2 : string → string → Z → Z → Z → result string string;
  b64_encode : string → string;
  b64_decode : string → result string string;
  print_kdf : PassphraseKdfMetadata → string;
  parse_kdf : string → result PassphraseKdfMetadata string;
  print_secrets : gmap string string → string;
  parse_secrets : string → result (gmap string string) string;
  (** readings, at their place among the calls of the machine *)
  random_bytes : nat → nat → string;
  now_rfc3339 : nat → string;
  io : nat → option string;
  written : nat → nat;
  display_path : path → string;
  tmp_suffix : nat → string;
  (** what the credential store answers when it holds no password *)
  no_entry : string;
  env : string → option string;
  (** [Display] of the error of [String::from_utf8] *)
  utf8_error : string → string;
}.

Section vault.
Context `{VaultHost}.
Notation D := (M Disk CoreError).
Notation P := (M Process CoreError).
Notation write_bytes_atomic := (write_bytes_atomic io written display_path tmp_suffix).

Definition join_file (root : path) (name : string) : path := path_join root (components name).

(** ** Envelopes *)

(** [seal] once the nonce is drawn. *)
Definition seal_with (nonce key plaintext : string) : result string CoreError :=
  let? ciphertext := map_err (λ e, Crypto ("AES-GCM seal failed: " +:+ e))
                       (aead_encrypt key nonce plaintext) in
  Ok (String ENVELOPE_VERSION (nonce +:+ ciphertext)).

Definition seal (key plaintext : string) : D string :=
  reading (λ n, lift_result (seal_with (random_bytes n NONCE_LEN) key plaintext)).

Definition open_envelope (key envelope : string) : result string CoreError :=
  match envelope with
  | EmptyString => Err (Crypto "Empty envelope")
  | String v body =>
      if decide (v ≠ ENVELOPE_VERSION)
      then Err (Crypto ("Unsupported vault envelope version " +:+ pretty (nat_of_ascii v)))
      else if decide (String.length envelope < 1 + NONCE_LEN + 16)
      then Err (Crypto "Envelope too short")
      else ok_or (aead_decrypt key (str_take NONCE_LEN body) (str_drop NONCE_LEN body))
             (Crypto "AES-GCM decryption failed (wrong key or tampered data)")
  end.

Definition derive_scope_key (root_kek scope : string) : string := hkdf None root_kek scope.

Definition is_vault_envelope (data : string) : bool :=
  match data with String v _ => bool_decide (v = ENVELOPE_VERSION) | EmptyString => false end.

Definition derive_key_from_passphrase (passphrase salt : string) : string :=
  hkdf (Some salt) passphrase "abigail-vault-kek".

Definition derive_key_from_passphrase_argon2 (passphrase salt : string) (memory time par : Z)
  : result string CoreError :=
  map_err (λ e, Crypto ("Argon2id derivation failed: " +:+ e)) (argon2 passphrase salt memory time par).

(** ** The sentinel *)

Definition sentinel_path (root : path) : path := join_file root SENTINEL_FILE_NAME.

Definition validate_sentinel (sentinel : string) : result unit CoreError :=
  if starts_with sentinel SENTINEL_PREFIX then Ok tt
  else Err (Vault ("Invalid sentinel payload. Expected '" +:+ SENTINEL_PREFIX +:+ "' prefix.")).

Definition write_encrypted_sentinel (root : path) (root_kek : string) : D string :=
  create_dir_all io root ;;
  sentinel ← reading (λ n, mret (SENTINEL_PREFIX +:+ now_rfc3339 n));
  envelope ← seal (derive_scope_key root_kek SENTINEL_SCOPE) sentinel;
  write_bytes_atomic (sentinel_path root) envelope ;;
  mret sentinel.

Definition decrypt_sentinel_bytes (bytes root_kek : string) : result string CoreError :=
  let? plaintext := open_envelope (derive_scope_key root_kek SENTINEL_SCOPE) bytes in
  if utf8_valid plaintext
  then let? _ := validate_sentinel plaintext in Ok plaintext
  else Err (Vault ("Invalid sentinel UTF-8 payload: " +:+ utf8_error plaintext)).

Definition decrypt_sentinel (root : path) (root_kek : string) : D string :=
  bytes ← read_file io (sentinel_path root);
  lift_result (decrypt_sentinel_bytes bytes root_kek).

Definition sentinel_timestamp_utc (sentinel : string) : option string :=
  RustStr.strip_prefix sentinel SENTINEL_PREFIX.

Definition verify_or_create_sentinel (root : path) (kek : string) : D string := λ d,
  let p := sentinel_path root in
  if exists_ p d
  then match decrypt_sentinel root kek d with
       | (d, Err e) =>
           (d, Err (Vault ("Recovery Mode: failed to decrypt " +:+ display_path p +:+
                           " with stable KEK '" +:+ KEYRING_ACCOUNT +:+ "': " +:+ core_error_str e)))
       | ok => ok
       end
  else write_encrypted_sentinel root kek d.

(** ** The session *)

Definition on_disk {A} (m : D A) : P A := λ p,
  let '(d, r) := m (disk p) in (mkProcess d (session p), r).

Definition cached_session_root_kek (p : Process) : option string := session_kek <$> session p.

(** [OnceLock::set]: the first value stays. *)
Definition cache_session_root_kek (kek sentinel : string) : P unit := λ p,
  match session p with
  | Some _ => (p, Ok tt)
  | None => (mkProcess (disk p) (Some (mkSession kek sentinel (now_rfc3339 (calls (disk p))))), Ok tt)
  end.

Definition current_runtime_status (p : Process) : option VaultRuntimeStatus :=
  s ← session p;
  Some (mkRuntimeStatus true (verified_at_utc s) (session_sentinel s)
          (sentinel_timestamp_utc (session_sentinel s))).

(** ** The derivation of a key from a passphrase *)

Definition fresh_argon2 : D PassphraseKdfMetadata :=
  reading (λ n, mret (mkKdf 1 "argon2id" (Some (b64_encode (random_bytes n ARGON2_SALT_LEN)))
                        (Some ARGON2_MEMORY_COST_KIB) (Some ARGON2_TIME_COST)
                        (Some ARGON2_PARALLELISM))).

Definition decode_metadata_salt (m : PassphraseKdfMetadata) : result string CoreError :=
  match salt_base64 m with
  | None => Err (Vault ("Vault KDF metadata '" +:+ KDF_METADATA_FILE +:+
                        "' is missing a salt for Argon2id"))
  | Some encoded => map_err (λ e, Vault ("Invalid KDF metadata salt: " +:+ e)) (b64_decode encoded)
  end.

Definition derive_with_kdf_metadata (passphrase : string) (m : PassphraseKdfMetadata)
  : result string CoreError :=
  if decide (algorithm m = "argon2id") then
    let? salt := decode_metadata_salt m in
    derive_key_from_passphrase_argon2 passphrase salt
      (unwrap_or (memory_cost_kib m) ARGON2_MEMORY_COST_KIB)
      (unwrap_or (time_cost m) ARGON2_TIME_COST)
      (unwrap_or (parallelism m) ARGON2_PARALLELISM)
  else if decide (algorithm m = "legacy_hkdf_v1") then
    Ok (derive_key_from_passphrase passphrase PASSPHRASE_SALT)
  else Err (Vault ("Unsupported vault KDF algorithm '" +:+ algorithm m +:+ "' in " +:+
                   KDF_METADATA_FILE)).

Definition kdf_metadata_path (root : path) : path := join_file root KDF_METADATA_FILE.

Definition load_kdf_metadata (root : path) : D (option PassphraseKdfMetadata) := λ d,
  let p := kdf_metadata_path root in
  if exists_ p d then
    (content ← read_file io p;
     m ← lift_result (map_err (λ e, Vault ("Invalid KDF metadata at " +:+ display_path p +:+
                                           ": " +:+ e)) (parse_kdf content));
     mret (Some m)) d
  else (d, Ok None).

Definition save_kdf_metadata (root : path) (m : PassphraseKdfMetadata) : D unit :=
  write_bytes_atomic (kdf_metadata_path root) (print_kdf m).

(** An error of [m] becomes another one. *)
Definition on_error {A} (f : CoreError → CoreError) (m : D A) : D A := λ d,
  match m d with
  | (d, Err e) => (d, Err (f e))
  | ok => ok
  end.

Definition derive_passphrase_kek (root : path) (passphrase : string) (has_sentinel : bool)
  : D string :=
  loaded ← load_kdf_metadata root;
  match loaded with
  | Some m => lift_result (derive_with_kdf_metadata passphrase m)
  | None =>
      if has_sentinel then
        kek ← lift_result (derive_with_kdf_metadata passphrase legacy_hkdf);
        on_error (λ e, Vault ("Recovery Mode: passphrase metadata is missing and legacy HKDF " +:+
                              "compatibility could not decrypt " +:+
                              display_path (sentinel_path root) +:+ ": " +:+ core_error_str e))
          (decrypt_sentinel root kek) ;;
        save_kdf_metadata root legacy_hkdf ;;
        mret kek
      else
        m ← fresh_argon2;
        save_kdf_metadata root m ;;
        lift_result (derive_with_kdf_metadata passphrase m)
  end.

(** ** A key in the environment *)

Definition is_ascii_hexdigit (c : ascii) : bool :=
  is_ascii_digit c ||
  (let n := N_of_ascii (lower_char c) in (97 <=? n)%N && (n <=? 102)%N).

Definition hex_value (c : ascii) : N :=
  if is_ascii_digit c then (N_of_ascii c - 48)%N else (N_of_ascii (lower_char c) - 87)%N.

Fixpoint decode_hex (s : string) : string :=
  match s with
  | String a (String b s) => String (ascii_of_N (hex_value a * 16 + hex_value b)) (decode_hex s)
  | _ => EmptyString
  end.

Fixpoint all_chars (p : ascii → bool) (s : string) : bool :=
  match s with
  | EmptyString => true
  | String c s => p c && all_chars p s
  end.

Definition decode_raw_kek (raw_secret : string) : result string CoreError :=
  let trimmed := trim raw_secret in
  let? bytes :=
    (if (String.length trimmed =? KEK_LEN * 2)%nat && all_chars is_ascii_hexdigit trimmed
     then Ok (decode_hex trimmed)
     else map_err (λ e, Vault ("Invalid base64 raw KEK in " +:+ RAW_KEK_ENV +:+ ": " +:+ e))
            (b64_decode trimmed)) in
  if decide (String.length bytes = KEK_LEN) then Ok bytes
  else Err (Vault (RAW_KEK_ENV +:+ " must decode to exactly " +:+ pretty KEK_LEN +:+ " bytes")).

(** ** The credential store *)

Definition os_keyring_load : D string := λ d,
  match io (calls d) with
  | Some e => (tick d, Err (Keyring ("keyring get failed: " +:+ e)))
  | None =>
      (tick d,
       let? password := ok_or (credential d) (Keyring ("keyring get failed: " +:+ no_entry)) in
       let? bytes := map_err (λ e, Keyring ("keyring value decode failed: " +:+ e))
                       (b64_decode password) in
       if decide (String.length bytes = KEK_LEN) then Ok bytes
       else Err (Keyring "keyring value wrong length"))
  end.

Definition absent_hints : list string :=
  ["no entry"; "no matching entry"; "not found"; "no password"; "platform secure storage"].

Definition os_keyring_load_optional : D (option string) := λ d,
  match os_keyring_load d with
  | (d, Ok kek) => (d, Ok (Some kek))
  | (d, Err e) =>
      let msg := to_lowercase (core_error_str e) in
      if existsb (contains msg) absent_hints then (d, Ok None) else (d, Err e)
  end.

Definition os_keyring_store (kek : string) : D unit := λ d,
  match io (calls d) with
  | Some e => (tick d, Err (Keyring ("keyring store failed: " +:+ e)))
  | None => (mkDisk (files d) (Some (b64_encode kek)) (S (calls d)), Ok tt)
  end.

Definition os_keyring_store_verified (kek : string) : D unit :=
  os_keyring_store kek ;;
  reloaded ← os_keyring_load;
  ensure (bool_decide (reloaded = kek))
    (Keyring "keyring verification failed: stored KEK did not round-trip").

(** ** The root key *)

Definition recovery_error : CoreError :=
  Vault ("Recovery Mode: vault sentinel exists but stable KEK could not be loaded. " +:+
         "Refusing to auto-create a new key to avoid wrong-key AES-GCM corruption.").

Definition not_persisted_error : CoreError :=
  Vault ("Recovery Mode: failed to persist stable KEK '" +:+ KEYRING_ACCOUNT +:+
         "': OS keyring verification failed and no secure fallback could be written.").

(** [std::env::var(..)], when it is set and not blank. *)
Definition env_secret (var : string) : option string :=
  s ← env var;
  if str_is_empty (trim s) then None else Some s.

(** First start: a new key, kept in the credential store. *)
Definition bootstrap (root : path) : D (string * string) :=
  kek ← reading (λ n, mret (random_bytes n KEK_LEN));
  (λ d, match os_keyring_store_verified kek d with
        | (d, Ok tt) => (d, Ok tt)
        | (d, Err _) => (d, Err not_persisted_error)
        end) ;;
  sentinel ← write_encrypted_sentinel root kek;
  mret (kek, sentinel).

Definition verified (root : path) (kek : string) : D (string * string) :=
  sentinel ← verify_or_create_sentinel root kek;
  mret (kek, sentinel).

(** Where the key comes from, with the sentinel it opened or wrote. *)
Definition find_root_kek (root : path) : D (string * string) :=
  create_dir_all io root ;;
  has_sentinel ← (λ d, (d, Ok (exists_ (sentinel_path root) d)));
  stored ← os_keyring_load_optional;
  match stored, env_secret RAW_KEK_ENV, env_secret "ABIGAIL_VAULT_PASSPHRASE" with
  | Some kek, _, _ => verified root kek
  | None, Some raw, _ => kek ← lift_result (decode_raw_kek raw); verified root kek
  | None, None, Some passphrase =>
      kek ← derive_passphrase_kek root passphrase has_sentinel;
      verified root kek
  | None, None, None =>
      if (has_sentinel : bool) then fail recovery_error else bootstrap root
  end.

(** [HybridUnlockProvider::root_kek] *)
Definition root_kek (root : path) : P string := λ p,
  match cached_session_root_kek p with
  | Some kek => (p, Ok kek)
  | None =>
      ('(kek, sentinel) ← on_disk (find_root_kek root);
       cache_session_root_kek kek sentinel ;;
       mret kek) p
  end.

(** [PassphraseUnlockProvider::root_kek] *)
Definition passphrase_root_kek (passphrase : string) : P string :=
  mret (derive_key_from_passphrase passphrase PASSPHRASE_SALT).

(** ** Scoped vaults *)

(** The common part of every [open]: a missing file is an empty vault. *)
Definition load_secrets (unlock : P string) (p : path) (scope : string)
  : P (gmap string string) := λ s,
  if exists_ p (disk s) then
    (root_kek ← unlock;
     let dek := derive_scope_key root_kek scope in
     envelope ← on_disk (read_file io p);
     plaintext ← lift_result (open_envelope dek envelope);
     lift_result (map_err (λ e, Keyring ("vault payload parse failed: " +:+ e))
                    (parse_secrets plaintext))) s
  else (s, Ok ∅).

Definition seal_secrets (unlock : P string) (scope : string) (m : gmap string string) : P string :=
  root_kek ← unlock;
  on_disk (seal (derive_scope_key root_kek scope) (print_secrets m)).

Definition create_parent (p : path) : D unit :=
  match parent p with
  | Some dir => create_dir_all io dir
  | None => mret tt
  end.

Definition scoped_open (p : path) (sc : VaultScope) (unlock : P string) : P ScopedVault :=
  m ← load_secrets unlock p (label sc);
  mret (mkScoped p sc m).

Definition scoped_save (unlock : P string) (v : ScopedVault) : P unit :=
  envelope ← seal_secrets unlock (label (scope v)) (scoped_secrets v);
  on_disk (create_parent (scoped_path v) ;; fs_write io written (scoped_path v) envelope).

Definition scoped_set_secret (key value : string) (v : ScopedVault) : ScopedVault :=
  mkScoped (scoped_path v) (scope v) (<[key := value]> (scoped_secrets v)).

Definition scoped_remove_secret (key : string) (v : ScopedVault) : ScopedVault * bool :=
  (mkScoped (scoped_path v) (scope v) (delete key (scoped_secrets v)),
   bool_decide (is_Some (scoped_secrets v !! key))).

(** Memory first, then the file. *)
Definition scoped_reset (v : ScopedVault) : D unit := λ d,
  if exists_ (scoped_path v) d then remove_file io (scoped_path v) d else (d, Ok tt).

(** ** The vault of provider keys *)

Definition VAULT_EXT : string := "vault".

Definition force_vault_extension (filename : string) : string :=
  let stem :=
    match RustStr.strip_suffix filename ".bin" with
    | Some stem => stem
    | None => unwrap_or (RustStr.strip_suffix filename ".vault") filename
    end in
  stem +:+ "." +:+ VAULT_EXT.

Definition scope_from_filename (filename : string) : string :=
  "secrets:" +:+ unwrap_or (RustStr.strip_suffix filename ".vault") filename.

Definition new_custom (data_dir : path) (filename : string) : SecretsVault :=
  let vault_filename := force_vault_extension filename in
  mkSecrets (join_file data_dir vault_filename) (scope_from_filename vault_filename) ∅.

Definition save (unlock : P string) (v : SecretsVault) : P unit :=
  envelope ← seal_secrets unlock (scope_label v) (secrets v);
  on_disk (create_parent (file_path v) ;; write_bytes_atomic (file_path v) envelope).

Definition open_with_provider (data_dir : path) (filename : string) (unlock : P string)
  : P SecretsVault :=
  let v := new_custom data_dir filename in
  m ← load_secrets unlock (file_path v) (scope_label v);
  mret (mkSecrets (file_path v) (scope_label v) m).

(** Outside Windows [dpapi_decrypt] returns what it is given. *)
Definition migrate_legacy (data_dir : path) (filename : string) (unlock : P string) : P bool := λ s,
  let v := new_custom data_dir filename in
  let legacy_bin := join_file data_dir (replace filename ".vault" ".bin") in
  if exists_ (file_path v) (disk s) then (s, Ok false)
  else if negb (exists_ legacy_bin (disk s)) then (s, Ok false)
  else
    (decrypted ← on_disk (read_file io legacy_bin);
     m ← lift_result (map_err (λ e, Keyring ("legacy vault payload parse failed for " +:+
                                             display_path legacy_bin +:+ ": " +:+ e))
                        (parse_secrets decrypted));
     save unlock (mkSecrets (file_path v) (scope_label v) m) ;;
     mret true) s.

Definition load_custom (root data_dir : path) (filename : string) : P SecretsVault := λ s,
  let v := new_custom data_dir filename in
  (if exists_ (file_path v) (disk s)
   then open_with_provider data_dir filename (root_kek root)
   else migrate_legacy data_dir filename (root_kek root) ;;
        open_with_provider data_dir filename (root_kek root)) s.

Definition get_secret (provider : string) (v : SecretsVault) : option string := secrets v !! provider.

Definition set_secret (provider key : string) (v : SecretsVault) : SecretsVault :=
  mkSecrets (file_path v) (scope_label v) (<[provider := key]> (secrets v)).

Definition remove_secret (provider : string) (v : SecretsVault) : SecretsVault * bool :=
  (mkSecrets (file_path v) (scope_label v) (delete provider (secrets v)),
   bool_decide (is_Some (secrets v !! provider))).

Definition list_providers (v : SecretsVault) : list string := (map_to_list (secrets v)).*1.

(** ** Encrypted files *)

Definition write_encrypted (root p : path) (data : string) : P unit :=
  kek ← root_kek root;
  on_disk (create_parent p ;;
           envelope ← seal (derive_scope_key kek STORAGE_SCOPE) data;
           write_bytes_atomic p envelope).

Definition read_encrypted (root p : path) : P string :=
  kek ← root_kek root;
  envelope ← on_disk (read_file io p);
  lift_result (open_envelope (derive_scope_key kek STORAGE_SCOPE) envelope).
End vault.
