(* ===== verification/VaultSpec.v ===== *)
(** * The vault: correctness
    A key that unlocks opens the sentinel; a sentinel is never replaced; the
    next start finds the same key; what was saved is what is loaded; a failed
    save loses nothing in one of the two vaults and everything in the other. *)

From S2P Require Import Prelude RustStr Paths SecureFs Vault.
From Stdlib Require Import ZArith Lia Ascii.
From stdpp Require Import base list strings gmap pretty.

Open Scope rust_scope.

(** ** Documented behaviour of the external code *)

Class VaultHostLaws `{VaultHost} : Prop := {
  aead_roundtrip k n p c : aead_encrypt k n p = Ok c → aead_decrypt k n c = Some p;
  aead_tag k n p c : aead_encrypt k n p = Ok c → 16 ≤ String.length c;
  random_length i n : String.length (random_bytes i n) = n;
  now_utf8 i : utf8_valid (now_rfc3339 i) = true;
  kdf_roundtrip m : parse_kdf (print_kdf m) = Ok m;
  secrets_roundtrip m : parse_secrets (print_secrets m) = Ok m;
}.

Section laws.
Context `{VaultHostLaws}.
Implicit Types (d : Disk) (root q : path).

Notation write_bytes_atomic := (write_bytes_atomic io written display_path tmp_suffix).
Notation seal := Vault.seal.
Notation temp_path := (unique_temp_path tmp_suffix).

(** ** Envelopes *)

Lemma seal_with_open nonce key plaintext envelope :
  String.length nonce = NONCE_LEN → seal_with nonce key plaintext = Ok envelope →
  open_envelope key envelope = Ok plaintext.
Proof.
  unfold seal_with. intros Hn. destruct (aead_encrypt _ _ _) as [c|] eqn:Hc; [|done].
  intros [= <-]. pose proof (aead_tag _ _ _ _ Hc) as Htag. unfold open_envelope.
  rewrite decide_False by (intros Hv; by apply Hv).
  rewrite decide_False by (simpl; rewrite str_length_app, Hn; unfold NONCE_LEN in *; lia).
  rewrite <- Hn, str_take_app, str_drop_app, (aead_roundtrip _ _ _ _ Hc). done.
Qed.

Lemma seal_keeps key plaintext d d' r : seal key plaintext d = (d', r) → d' = d.
Proof. unfold seal, reading, lift_result. by intros [= <- <-]. Qed.

Lemma seal_open key plaintext d d' envelope :
  seal key plaintext d = (d', Ok envelope) → open_envelope key envelope = Ok plaintext.
Proof.
  unfold seal, reading, lift_result. intros [= _ Hs].
  eapply seal_with_open; [|exact Hs]. apply random_length.
Qed.

(** ** The files of the data directory *)

Lemma join_file_snoc root name :
  components name = [Normal name] → ∃ dir, join_file root name = dir ++ [Normal name].
Proof.
  intros Hn. unfold join_file, path_join. rewrite Hn. simpl. destruct root as [|c root].
  - by exists [].
  - exists (c :: root). by rewrite filter_cons_True.
Qed.

(** A temporary file is hidden, the files of the vault are not. *)
Lemma temp_path_hidden q n dir c name :
  c ≠ "."%char → dir ++ [Normal (String c name)] ≠ temp_path q n.
Proof.
  intros Hc. unfold unique_temp_path, with_file_name.
  intros [_ Hn]%app_inj_2; [|done]. simplify_eq.
Qed.

Lemma sentinel_not_temp root q n : sentinel_path root ≠ temp_path q n.
Proof.
  destruct (join_file_snoc root SENTINEL_FILE_NAME) as [dir Hd]; [done|].
  unfold sentinel_path. rewrite Hd. by apply temp_path_hidden.
Qed.

Lemma kdf_not_temp root q n : kdf_metadata_path root ≠ temp_path q n.
Proof.
  destruct (join_file_snoc root KDF_METADATA_FILE) as [dir Hd]; [done|].
  unfold kdf_metadata_path. rewrite Hd. by apply temp_path_hidden.
Qed.

Lemma sentinel_not_kdf root : sentinel_path root ≠ kdf_metadata_path root.
Proof.
  destruct (join_file_snoc root SENTINEL_FILE_NAME) as [dir Hd]; [done|].
  destruct (join_file_snoc root KDF_METADATA_FILE) as [dir' Hd']; [done|].
  unfold sentinel_path, kdf_metadata_path. rewrite Hd, Hd'.
  by intros [_ ?]%app_inj_2.
Qed.

(** What a later start relies on: the sentinel and the parameters of the
    passphrase, once written, and the credential store. *)
Definition stays (q : path) (d d' : Disk) : Prop :=
  ∀ b, files d !! q = Some b → files d' !! q = Some b.

#[export] Instance stays_preorder q : PreOrder (stays q).
Proof. split; [by intros d b|]. intros d1 d2 d3 H1 H2 b Hb. by apply H2, H1. Qed.

Lemma kept_stays q d d' : file_kept q d d' → stays q d d'.
Proof. intros Hk b Hb. by rewrite Hk. Qed.

Definition keeps_unlock root d d' : Prop :=
  stays (sentinel_path root) d d' ∧ stays (kdf_metadata_path root) d d'.

#[export] Instance keeps_unlock_preorder root : PreOrder (keeps_unlock root).
Proof.
  split; [intros d; split; reflexivity|]. intros d1 d2 d3 [] []. split; etrans; eauto.
Qed.

(** Calls that write no file. *)
Definition quiet d d' : Prop := files d' = files d ∧ credential d' = credential d.

#[export] Instance quiet_preorder : PreOrder quiet.
Proof. split; [done|]. intros d1 d2 d3 [H1 H2] [H3 H4]. split; congruence. Qed.

Lemma quiet_keeps root d d' : quiet d d' → keeps_unlock root d d' ∧ credential_kept d d'.
Proof. intros [Hf Hc]. split; [|done]. by split; intros b; rewrite Hf. Qed.

Lemma create_dir_quiet q : respects quiet (create_dir_all io q).
Proof. intros d d' r. unfold create_dir_all, syscall. by destruct (io _); intros [= <- <-]. Qed.

Lemma read_file_quiet q : respects quiet (read_file io q).
Proof. intros d d' r. unfold read_file. repeat case_match; by intros [= <- <-]. Qed.

Lemma keyring_load_quiet : respects quiet os_keyring_load.
Proof. intros d d' r. unfold os_keyring_load. case_match; by intros [= <- <-]. Qed.

Lemma keyring_optional_quiet : respects quiet os_keyring_load_optional.
Proof.
  intros d d' r. unfold os_keyring_load_optional.
  destruct (os_keyring_load d) as [d1 [kek|e]] eqn:Hl; apply keyring_load_quiet in Hl.
  - by intros [= <- <-].
  - case_match; by intros [= <- <-].
Qed.

Lemma decrypt_sentinel_quiet root kek : respects quiet (decrypt_sentinel root kek).
Proof.
  apply respects_bind; [apply _|apply read_file_quiet|]. intros. apply respects_lift, _.
Qed.

Lemma load_kdf_quiet root : respects quiet (load_kdf_metadata root).
Proof.
  intros d d' r. unfold load_kdf_metadata. destruct (exists_ _ d); [|by intros [= <- <-]].
  apply (respects_bind quiet); [apply read_file_quiet|]. intros c.
  apply (respects_bind quiet); [apply respects_lift, _|]. intros. apply respects_ret, _.
Qed.

(** ** The sentinel *)

Definition unlocked root d (kek : string) : Prop :=
  ∃ envelope sentinel, files d !! sentinel_path root = Some envelope ∧
    decrypt_sentinel_bytes envelope kek = Ok sentinel.

Lemma unlocked_stays root d d' kek :
  stays (sentinel_path root) d d' → unlocked root d kek → unlocked root d' kek.
Proof. intros Hs (e & s & He & Hd). exists e, s. split; [by apply Hs|done]. Qed.

Lemma atomic_write_stays q q' b d d' r :
  q ≠ q' → (∀ n, q ≠ temp_path q' n) →
  write_bytes_atomic q' b d = (d', r) → stays q d d' ∧ credential_kept d d'.
Proof.
  intros Hne Ht (Hc & Hq & _ & _)%write_bytes_atomic_spec.
  split; [|done]. by apply kept_stays, Hq.
Qed.

Lemma sentinel_text_opens (d : Disk) kek envelope d1 d2 i :
  seal (derive_scope_key kek SENTINEL_SCOPE) (SENTINEL_PREFIX +:+ now_rfc3339 i) d1
    = (d2, Ok envelope) →
  decrypt_sentinel_bytes envelope kek = Ok (SENTINEL_PREFIX +:+ now_rfc3339 i).
Proof.
  intros Hs%seal_open. unfold decrypt_sentinel_bytes. rewrite Hs. cbn [result_bind].
  change (utf8_valid (SENTINEL_PREFIX +:+ now_rfc3339 i)) with (utf8_valid (now_rfc3339 i)).
  rewrite now_utf8. unfold validate_sentinel.
  by rewrite (proj2 (starts_with_iff _ SENTINEL_PREFIX)) by eauto.
Qed.

Lemma write_sentinel_spec root kek d d' r :
  write_encrypted_sentinel root kek d = (d', r) →
  stays (kdf_metadata_path root) d d' ∧ credential_kept d d' ∧
  (∀ s, r = Ok s → unlocked root d' kek).
Proof.
  intros [(d1 & [] & H1 & H2)|(e & H1 & ->)]%M_bind_inv.
  2: { apply create_dir_quiet, (quiet_keeps root) in H1 as [[_ ?] ?]. by split_and!. }
  apply create_dir_quiet, (quiet_keeps root) in H1 as [[_ Hk] Hc].
  unfold reading in H2. apply M_bind_inv in H2 as [(d2 & s & [= <- <-] & H2)|(e & [=] & _)].
  apply M_bind_inv in H2 as [(d3 & env & Hs & H2)|(e & Hs & ->)].
  2: { apply seal_keeps in Hs as ->. by split_and!. }
  pose proof (seal_keeps _ _ _ _ _ Hs) as ->.
  apply M_bind_inv in H2 as [(d4 & [] & Hw & H2)|(e & Hw & ->)].
  all: assert (stays (kdf_metadata_path root) d1 _ ∧ credential_kept d1 _) as [Hk' Hc']
    by (eapply atomic_write_stays; [|intros; apply kdf_not_temp|exact Hw];
        apply not_eq_sym, sentinel_not_kdf).
  2: { split_and!; [by etrans|by etrans|done]. }
  injection H2 as <- <-. split_and!; [by etrans|by etrans|]. intros s _.
  apply write_bytes_atomic_spec in Hw as (_ & _ & _ & Hw).
  exists env, (SENTINEL_PREFIX +:+ now_rfc3339 (calls d1)). split; [by apply Hw|].
  by eapply sentinel_text_opens.
Qed.

Lemma verified_spec root kek d d' r :
  verified root kek d = (d', r) →
  keeps_unlock root d d' ∧ credential_kept d d' ∧
  (∀ x, r = Ok x → x.1 = kek ∧ unlocked root d' kek).
Proof.
  unfold verified, verify_or_create_sentinel. rewrite M_bind_eq. unfold exists_.
  destruct (files d !! sentinel_path root) as [env|] eqn:Hs.
  - destruct (decrypt_sentinel root kek d) as [d1 [s|e]] eqn:Hd;
      pose proof (decrypt_sentinel_quiet _ _ _ _ _ Hd) as Hq; intros [= <- <-];
      destruct (quiet_keeps root _ _ Hq); split_and!; try done.
    intros x [= <-]. split; [done|]. exists env, s. destruct Hq as [-> _]. split; [done|].
    unfold decrypt_sentinel in Hd. apply M_bind_inv in Hd as [(d2 & b & Hr & Hd)|(e & _ & [=])].
    unfold read_file in Hr. rewrite Hs in Hr. destruct (io _); [done|]. injection Hr as <- <-.
    by injection Hd.
  - destruct (write_encrypted_sentinel root kek d) as [d1 o] eqn:Hw.
    apply write_sentinel_spec in Hw as (Hk & Hc & Hu).
    assert (keeps_unlock root d d1) by (split; [intros b Hb; congruence|done]).
    destruct o as [s|e]; intros [= <- <-]; split_and!; try done.
    intros x [= <-]. split; [done|]. by eapply Hu.
Qed.

Definition keyring_answer (c : option string) : result (option string) CoreError :=
  match (let? password := ok_or c (Keyring ("keyring get failed: " +:+ no_entry)) in
         let? bytes := map_err (λ e, Keyring ("keyring value decode failed: " +:+ e))
                         (b64_decode password) in
         if decide (String.length bytes = KEK_LEN) then Ok bytes
         else Err (Keyring "keyring value wrong length")) with
  | Ok kek => Ok (Some kek)
  | Err e =>
      if existsb (contains (to_lowercase (core_error_str e))) absent_hints then Ok None else Err e
  end.

(** The parameters on disk give this key from this passphrase. *)
Definition derives root d (passphrase kek : string) : Prop :=
  ∃ c m, files d !! kdf_metadata_path root = Some c ∧ parse_kdf c = Ok m ∧
    derive_with_kdf_metadata passphrase m = Ok kek.

Lemma save_kdf_spec root m d d' r :
  save_kdf_metadata root m d = (d', r) →
  stays (sentinel_path root) d d' ∧ credential_kept d d' ∧
  (r = Ok tt → files d' !! kdf_metadata_path root = Some (print_kdf m)).
Proof.
  intros Hw. assert (stays (sentinel_path root) d d' ∧ credential_kept d d') as [? ?].
  { eapply atomic_write_stays; [apply sentinel_not_kdf|intros; apply sentinel_not_temp|exact Hw]. }
  apply write_bytes_atomic_spec in Hw as (_ & _ & _ & Hw). by split_and!.
Qed.

Lemma load_kdf_some root d d' m :
  load_kdf_metadata root d = (d', Ok (Some m)) →
  ∃ c, files d !! kdf_metadata_path root = Some c ∧ parse_kdf c = Ok m.
Proof.
  unfold load_kdf_metadata, exists_.
  destruct (files d !! kdf_metadata_path root) as [c|] eqn:Hc; [|done].
  intros [(d1 & b & Hr & H1)|(e & _ & [=])]%M_bind_inv.
  unfold read_file in Hr. rewrite Hc in Hr. destruct (io _); [done|]. injection Hr as <- <-.
  apply M_bind_inv in H1 as [(d2 & m' & Hp & [= _ <-])|(e & _ & [=])].
  unfold lift_result in Hp. destruct (parse_kdf c) eqn:Hpc; [|done]. simplify_eq/=. eauto.
Qed.

Lemma load_kdf_none root d d' :
  load_kdf_metadata root d = (d', Ok None) → files d !! kdf_metadata_path root = None.
Proof.
  unfold load_kdf_metadata, exists_. destruct (files d !! _); [|done].
  intros [(d1 & b & _ & H1)|(e & _ & [=])]%M_bind_inv.
  by apply M_bind_inv in H1 as [(d2 & m' & _ & [=])|(e & _ & [=])].
Qed.

Lemma on_error_quiet {A} f (m : M Disk CoreError A) : respects quiet m → respects quiet (on_error f m).
Proof.
  intros Hm d d' r. unfold on_error. destruct (m d) as [d1 [a|e]] eqn:He;
    intros [= <- <-]; by eapply Hm.
Qed.

Lemma save_then_derive root d d1 m passphrase o :
  files d !! kdf_metadata_path root = None → save_kdf_metadata root m d = (d1, o) →
  keeps_unlock root d d1 ∧ credential_kept d d1 ∧
  (∀ kek, o = Ok tt → derive_with_kdf_metadata passphrase m = Ok kek → derives root d1 passphrase kek).
Proof.
  intros Hn (Hs & Hc & Hw)%save_kdf_spec. split_and!; [|done|].
  - split; [done|]. intros b Hb. congruence.
  - intros kek Ho Hd. exists (print_kdf m), m. split_and!; [by apply Hw|apply kdf_roundtrip|done].
Qed.

Lemma derive_passphrase_spec root passphrase has d d' r :
  derive_passphrase_kek root passphrase has d = (d', r) →
  keeps_unlock root d d' ∧ credential_kept d d' ∧
  (∀ kek, r = Ok kek → derives root d' passphrase kek).
Proof.
  intros [(d1 & loaded & Hl & H1)|(e & Hl & ->)]%M_bind_inv.
  all: destruct (quiet_keeps root _ _ (load_kdf_quiet _ _ _ _ Hl)) as [Hk Hc].
  2: by split_and!.
  destruct loaded as [m|].
  { injection H1 as <- <-. split_and!; try done. intros kek Hd.
    destruct (load_kdf_some _ _ _ _ Hl) as (c & Hf & Hp). exists c, m.
    split_and!; [by apply Hk|done..]. }
  assert (files d1 !! kdf_metadata_path root = None) as Hn.
  { apply load_kdf_none in Hl as Hn. destruct (load_kdf_quiet _ _ _ _ Hl) as [-> _]. done. }
  destruct has.
  - apply M_bind_inv in H1 as [(d2 & kek & [= <- Hd] & H1)|(e & [=] & _)].
    apply M_bind_inv in H1 as [(d3 & s & Hs & H1)|(e & Hs & ->)].
    all: apply on_error_quiet in Hs; [|apply decrypt_sentinel_quiet].
    all: destruct (quiet_keeps root _ _ Hs) as [Hk' Hc'].
    2: { split_and!; [by etrans|by etrans|done]. }
    assert (files d3 !! kdf_metadata_path root = None) as Hn3 by (destruct Hs as [-> _]; done).
    apply M_bind_inv in H1 as [(d4 & [] & Hw & [= <- <-])|(e & Hw & ->)].
    all: destruct (save_then_derive _ _ _ _ passphrase _ Hn3 Hw) as (Hk4 & Hc4 & Hd4).
    all: split_and!; [by do 2 (etrans; [eassumption|])|by do 2 (etrans; [eassumption|])|].
    2: done.
    intros kek' [= <-]. apply Hd4; [done|]. by rewrite <- Hd.
  - apply M_bind_inv in H1 as [(d2 & m & [= <- <-] & H1)|(e & [=] & _)].
    apply M_bind_inv in H1 as [(d4 & [] & Hw & [= <- <-])|(e & Hw & ->)].
    all: destruct (save_then_derive _ _ _ _ passphrase _ Hn Hw) as (Hk4 & Hc4 & Hd4).
    all: split_and!; [by etrans|by etrans|].
    2: done.
    intros kek Hd. by apply Hd4.
Qed.

(** ** The root key *)

Lemma keyring_store_spec kek d d' r :
  os_keyring_store_verified kek d = (d', r) →
  files d' = files d ∧ (r = Ok tt → keyring_answer (credential d') = Ok (Some kek)).
Proof.
  unfold os_keyring_store_verified, os_keyring_store. rewrite M_bind_eq.
  destruct (io (calls d)); [by intros [= <- <-]|].
  intros [(d1 & reloaded & Hl & H1)|(e & Hl & ->)]%M_bind_inv.
  all: destruct (keyring_load_quiet _ _ _ Hl) as [Hf Hc]; simpl in Hf, Hc.
  2: done.
  unfold ensure in H1. destruct (bool_decide _) eqn:Hb; injection H1 as <- <-; [|done].
  split; [done|]. intros _. apply bool_decide_eq_true in Hb as <-.
  rewrite Hc. unfold os_keyring_load in Hl. simpl in Hl. destruct (io _); [done|].
  unfold keyring_answer. simpl. by injection Hl as _ ->.
Qed.

Lemma bootstrap_spec root d d' r :
  files d !! sentinel_path root = None → bootstrap root d = (d', r) →
  keeps_unlock root d d' ∧
  (∀ x, r = Ok x → unlocked root d' x.1 ∧ keyring_answer (credential d') = Ok (Some x.1)).
Proof.
  intros Hn. unfold bootstrap, reading. rewrite M_bind_eq. simpl.
  set (kek := random_bytes _ _).
  intros [(d1 & [] & Hs & H1)|(e & Hs & ->)]%M_bind_inv.
  all: destruct (os_keyring_store_verified kek d) as [d2 o] eqn:Ho;
    apply keyring_store_spec in Ho as [Hf Ha]; destruct o as [[]|]; simplify_eq.
  2: { split; [|done]. by split; intros b; rewrite Hf. }
  apply M_bind_inv in H1 as [(d2 & s & Hw & [= <- <-])|(e & Hw & ->)];
    apply write_sentinel_spec in Hw as (Hk & Hc & Hu).
  all: split; [split; [intros b; congruence|intros b Hb; apply Hk; congruence]|].
  2: done.
  intros x [= <-]. split; [by eapply Hu|]. rewrite Hc. by apply Ha.
Qed.

Lemma find_root_kek_spec root d d' r :
  find_root_kek root d = (d', r) →
  keeps_unlock root d d' ∧
  (is_Some (files d !! sentinel_path root) → credential_kept d d') ∧
  (∀ x, r = Ok x → unlocked root d' x.1).
Proof.
  intros [(d1 & [] & H1 & H2)|(e & H1 & ->)]%M_bind_inv.
  all: apply create_dir_quiet in H1 as Hq1; destruct (quiet_keeps root _ _ Hq1) as [Hk1 Hc1].
  2: done.
  rewrite M_bind_eq in H2. simpl in H2.
  apply M_bind_inv in H2 as [(d2 & stored & H2 & H3)|(e & H2 & ->)].
  all: apply keyring_optional_quiet in H2 as Hq2; destruct (quiet_keeps root _ _ Hq2) as [Hk2 Hc2].
  2: split_and!; [by etrans|intros _; by etrans|done].
  assert (keeps_unlock root d d2) as Hk by by etrans.
  assert (credential_kept d d2) as Hc by by etrans.
  assert (files d2 = files d) as Hf by (destruct Hq1 as [<- _], Hq2 as [<- _]; done).
  assert (∀ kek, verified root kek d2 = (d', r) →
    keeps_unlock root d d' ∧
    (is_Some (files d !! sentinel_path root) → credential_kept d d') ∧
    (∀ x, r = Ok x → unlocked root d' x.1)) as Hverified.
  { intros kek (Hk3 & Hc3 & Hu)%verified_spec. split_and!; [by etrans|intros _; by etrans|].
    intros x [-> Hx]%Hu. done. }
  destruct stored as [kek|]; [by eapply Hverified|].
  destruct (env_secret RAW_KEK_ENV) as [raw|].
  { apply M_bind_inv in H3 as [(d3 & kek & [= <- _] & H3)|(e & [= <- _] & ->)]; [by eapply Hverified|].
    by split_and!. }
  destruct (env_secret _) as [passphrase|].
  - apply M_bind_inv in H3 as [(d3 & kek & Hd & H3)|(e & Hd & ->)].
    all: apply derive_passphrase_spec in Hd as (Hk3 & Hc3 & _).
    2: split_and!; [by etrans|intros _; by etrans|done].
    apply verified_spec in H3 as (Hk4 & Hc4 & Hu).
    split_and!; [by do 2 (etrans; [eassumption|])|intros _; by do 2 (etrans; [eassumption|])|].
    intros x [-> Hx]%Hu. done.
  - unfold exists_ in H3. destruct (files d1 !! sentinel_path root) as [b|] eqn:Hb.
    { injection H3 as <- <-. by split_and!. }
    apply bootstrap_spec in H3 as [Hk3 Hu]; [|by destruct Hq2 as [-> _]].
    split_and!; [by etrans| |intros x Hx; by apply Hu].
    destruct Hq1 as [Hq1 _]. rewrite <- Hq1, Hb. by intros [].
Qed.

(** ** On a working machine *)

Definition works : Prop := ∀ n, io n = None.

Lemma keyring_optional_works d :
  works → os_keyring_load_optional d = (tick d, keyring_answer (credential d)).
Proof.
  intros Hio. unfold os_keyring_load_optional, os_keyring_load, keyring_answer. rewrite Hio.
  destruct (let? _ := _ in _); [done|]. by destruct (existsb _ _).
Qed.

(** The key is the one a start would find: from the credential store, else from
    the environment, else derived from the passphrase. *)
Definition found root kek d : Prop :=
  unlocked root d kek ∧
  match keyring_answer (credential d), env_secret RAW_KEK_ENV, env_secret "ABIGAIL_VAULT_PASSPHRASE" with
  | Ok (Some stored), _, _ => stored = kek
  | Ok None, Some raw, _ => decode_raw_kek raw = Ok kek
  | Ok None, None, Some passphrase => derives root d passphrase kek
  | _, _, _ => False
  end.

Lemma found_keeps root kek d d' :
  keeps_unlock root d d' → credential_kept d d' → found root kek d → found root kek d'.
Proof.
  intros [Hs Hk] Hc [Hu Hf]. split; [by eapply unlocked_stays|]. rewrite Hc.
  repeat case_match; try done. destruct Hf as (c & m & Hf & Hr). exists c, m.
  split; [by apply Hk|done].
Qed.

Lemma find_root_kek_found root d d' x :
  works → find_root_kek root d = (d', Ok x) → found root x.1 d'.
Proof.
  intros Hio Hfind. pose proof (find_root_kek_spec _ _ _ _ Hfind) as (_ & _ & Hu).
  split; [by apply Hu|]. clear Hu. revert Hfind.
  intros [(d1 & [] & H1 & H2)|(e & _ & [=])]%M_bind_inv.
  rewrite M_bind_eq in H2. simpl in H2.
  apply M_bind_inv in H2 as [(d2 & stored & H2 & H3)|(e & _ & [=])].
  rewrite keyring_optional_works in H2 by done. injection H2 as <- Ha.
  destruct stored as [kek|].
  { apply verified_spec in H3 as (_ & Hc & Hu). rewrite Hc. simpl. rewrite Ha.
    by destruct (Hu x) as [-> _]. }
  destruct (env_secret RAW_KEK_ENV) as [raw|].
  { apply M_bind_inv in H3 as [(d3 & kek & [= <- Hr] & H3)|(e & _ & [=])].
    apply verified_spec in H3 as (_ & Hc & Hu). rewrite Hc. simpl. rewrite Ha.
    by destruct (Hu x) as [-> _]. }
  destruct (env_secret _) as [passphrase|].
  - apply M_bind_inv in H3 as [(d3 & kek & Hd & H3)|(e & _ & [=])].
    apply derive_passphrase_spec in Hd as (_ & Hc3 & Hd).
    apply verified_spec in H3 as ([_ Hk] & Hc & Hu). rewrite Hc, Hc3. simpl. rewrite Ha.
    destruct (Hu x) as [-> _]; [done|]. destruct (Hd kek) as (c & m & Hf & Hr); [done|].
    exists c, m. split; [by apply Hk|done].
  - destruct (exists_ _ d1) eqn:Hb; [done|].
    apply bootstrap_spec in H3 as [_ H3].
    + by destruct (H3 x) as [_ ->].
    + unfold exists_ in Hb. simpl. by destruct (files d1 !! _).
Qed.

Lemma verified_again root kek d :
  works → unlocked root d kek →
  ∃ d' s, verified root kek d = (d', Ok (kek, s)) ∧ quiet d d'.
Proof.
  intros Hio (env & s & Hf & Hd). exists (tick d), s. split; [|done].
  unfold verified, verify_or_create_sentinel, exists_, decrypt_sentinel, read_file.
  rewrite !M_bind_eq, !Hf, Hio. unfold lift_result. by rewrite Hd.
Qed.

Lemma find_root_kek_again root kek d :
  works → found root kek d →
  ∃ d' s, find_root_kek root d = (d', Ok (kek, s)) ∧ quiet d d'.
Proof.
  intros Hio [Hu Hf].
  assert (∀ k, ∃ d' s, verified root kek (mkDisk (files d) (credential d) k) = (d', Ok (kek, s))
            ∧ quiet d d') as Hverified.
  { intros k. apply (verified_again root kek (mkDisk (files d) (credential d) k) Hio).
    exact Hu. } unfold find_root_kek, create_dir_all, syscall.
  rewrite M_bind_eq, Hio, M_bind_eq. cbv beta iota.
  rewrite M_bind_eq, keyring_optional_works by done. simpl.
  destruct (keyring_answer _) as [[stored|]|]; [subst stored| |done].
  { apply Hverified. }
  destruct (env_secret RAW_KEK_ENV) as [raw|].
  { rewrite M_bind_eq. unfold lift_result. rewrite Hf. apply Hverified. }
  destruct (env_secret _) as [passphrase|]; [|done].
  destruct Hf as (c & m & Hc & Hp & Hd).
  assert (∀ k has, ∃ k', derive_passphrase_kek root passphrase has
    (mkDisk (files d) (credential d) k) = (mkDisk (files d) (credential d) k', Ok kek)) as Hder.
  { intros k has. exists (S k). unfold derive_passphrase_kek, load_kdf_metadata, exists_.
    rewrite M_bind_eq. simpl. rewrite Hc. rewrite !M_bind_eq. unfold read_file. simpl.
    rewrite Hio, Hc, M_bind_eq. unfold lift_result. rewrite Hp. simpl. by rewrite Hd. }
  rewrite M_bind_eq. edestruct Hder as [k' Hk']. unfold tick, with_files. simpl. rewrite Hk'.
  apply Hverified.
Qed.

Definition restart d : Process := mkProcess d None.

Lemma root_kek_fresh root d p' r :
  root_kek root (restart d) = (p', r) →
  ∃ d' o, find_root_kek root d = (d', o) ∧ disk p' = d' ∧
    match o with
    | Ok x => r = Ok x.1 ∧ cached_session_root_kek p' = Some x.1
    | Err e => r = Err e
    end.
Proof.
  unfold root_kek. simpl. rewrite M_bind_eq. unfold on_disk. simpl.
  destruct (find_root_kek root d) as [d' [[kek s]|e]]; intros [= <- <-]; eauto 10.
Qed.

(** A root key is handed out only after the sentinel of the data directory has been
    opened with it, or written under it: at that moment the sentinel on disk
    decrypts under the key to a text with the expected prefix, and the key is the
    one the process remembers. *)
Theorem root_key_opens_sentinel root d p' kek :
  root_kek root (restart d) = (p', Ok kek) →
  ∃ envelope sentinel, files (disk p') !! sentinel_path root = Some envelope ∧
    decrypt_sentinel_bytes envelope kek = Ok sentinel ∧
    starts_with sentinel SENTINEL_PREFIX = true ∧
    cached_session_root_kek p' = Some kek.
Proof.
  intros (d' & o & (_ & _ & Hu)%find_root_kek_spec & <- & Ho)%root_kek_fresh.
  destruct o as [x|]; [|done]. destruct Ho as [[= ->] Hc].
  destruct (Hu x eq_refl) as (env & s & Hf & Hd). exists env, s. split_and!; try done.
  unfold decrypt_sentinel_bytes in Hd. destruct (open_envelope _ _) as [t|]; [|done]. simpl in Hd.
  destruct (utf8_valid t); [|done]. unfold validate_sentinel in Hd.
  destruct (starts_with t SENTINEL_PREFIX) eqn:Ht; [|done]. by injection Hd as <-.
Qed.

(** C12: a vault that exists is never put under another key: whatever the credential
    store, the environment and the files answer, and wherever the search for the
    root key fails, an existing sentinel, the stored credential and the parameters
    of the passphrase are unchanged.  (A file that is there is taken to be seen.) *)
Theorem sentinel_is_never_replaced root p p' r sentinel :
  root_kek root p = (p', r) →
  files (disk p) !! sentinel_path root = Some sentinel →
  files (disk p') !! sentinel_path root = Some sentinel ∧
  credential (disk p') = credential (disk p) ∧
  (∀ b, files (disk p) !! kdf_metadata_path root = Some b →
        files (disk p') !! kdf_metadata_path root = Some b).
Proof.
  intros Hr Hs. destruct p as [d [se|]]; [by injection Hr as <- <-|].
  destruct (root_kek_fresh _ _ _ _ Hr) as (d' & o & Hf & <- & _).
  apply find_root_kek_spec in Hf as ([Hk Hk'] & Hc & _).
  split_and!; [by apply Hk|apply Hc; simpl in Hs; eauto|exact Hk'].
Qed.

Lemma root_kek_again root kek d :
  works → found root kek d →
  ∃ p', root_kek root (restart d) = (p', Ok kek) ∧ quiet d (disk p').
Proof.
  intros Hio Hf. destruct (find_root_kek_again root kek d Hio Hf) as (d' & s & Hfind & Hq).
  unfold root_kek. simpl. rewrite M_bind_eq. unfold on_disk. simpl. rewrite Hfind. eauto.
Qed.

Lemma root_kek_found root d p1 kek :
  works → root_kek root (restart d) = (p1, Ok kek) → found root kek (disk p1).
Proof.
  intros Hio (d' & o & Hf & <- & Ho)%root_kek_fresh.
  destruct o as [x|]; [|done]. destruct Ho as [[= ->] _]. by eapply find_root_kek_found.
Qed.

(** The root key is stable: on a working machine with the same environment, a
    process started later, on a disk that still has the sentinel, the parameters
    of the passphrase and the stored credential, finds the key that the first
    process found or created. *)
Theorem root_key_is_stable root d p1 kek d2 :
  works →
  root_kek root (restart d) = (p1, Ok kek) →
  keeps_unlock root (disk p1) d2 → credential_kept (disk p1) d2 →
  ∃ p2, root_kek root (restart d2) = (p2, Ok kek).
Proof.
  intros Hio Hr Hk Hc.
  destruct (root_kek_again root kek d2) as (p2 & Hp2 & _); [done| |by exists p2].
  eapply found_keeps; [done..|]. by eapply root_kek_found.
Qed.

(** With a sentinel on disk, no stored credential and no key in the environment,
    a start refuses to go on: it reports Recovery Mode, creates no key and writes
    nothing. *)
Theorem missing_key_is_recovery_mode root d :
  works → is_Some (files d !! sentinel_path root) →
  credential d = None → existsb (contains (to_lowercase (core_error_str
    (Keyring ("keyring get failed: " +:+ no_entry))))) absent_hints = true →
  env_secret RAW_KEK_ENV = None → env_secret "ABIGAIL_VAULT_PASSPHRASE" = None →
  ∃ p', root_kek root (restart d) = (p', Err recovery_error) ∧
    files (disk p') = files d ∧ credential (disk p') = None ∧ session p' = None.
Proof.
  intros Hio [b Hs] Hc Hhint Hraw Hpass. unfold root_kek. simpl. rewrite M_bind_eq.
  unfold on_disk. simpl. unfold find_root_kek, create_dir_all, syscall.
  rewrite M_bind_eq, Hio, M_bind_eq. cbv beta iota.
  rewrite M_bind_eq, keyring_optional_works by done. simpl. rewrite Hc.
  unfold keyring_answer. cbn [ok_or result_bind]. rewrite Hhint, Hraw, Hpass.
  unfold exists_. simpl. rewrite Hs. eauto.
Qed.

(** ** The files of secrets *)

(** The file opens, under this key, to these secrets. *)
Definition holds (kek : string) (q : path) (sc : string) (m : gmap string string) d : Prop :=
  ∃ envelope, files d !! q = Some envelope ∧
    open_envelope (derive_scope_key kek sc) envelope = Ok (print_secrets m).

Definition unlocks (unlock : M Process CoreError string) (p : Process) (kek : string) : Prop :=
  unlock p = (p, Ok kek).

Lemma cached_unlocks root p kek : cached_session_root_kek p = Some kek → unlocks (root_kek root) p kek.
Proof. unfold unlocks, root_kek. by intros ->. Qed.

Lemma seal_secrets_spec unlock p kek sc m p' r :
  unlocks unlock p kek → seal_secrets unlock sc m p = (p', r) →
  p' = p ∧ (∀ env, r = Ok env → open_envelope (derive_scope_key kek sc) env = Ok (print_secrets m)).
Proof.
  intros Hu. unfold seal_secrets. rewrite M_bind_eq, Hu. unfold on_disk.
  destruct (seal _ _ (disk p)) as [d o] eqn:Hs. pose proof (seal_keeps _ _ _ _ _ Hs) as ->.
  intros [= <- <-]. split; [by destruct p|]. intros env ->. by eapply seal_open.
Qed.

Lemma create_parent_quiet q : respects quiet (create_parent q).
Proof.
  unfold create_parent. destruct (parent q); [apply create_dir_quiet|]. apply respects_ret, _.
Qed.

Lemma quiet_kept q d d' : quiet d d' → file_kept q d d'.
Proof. intros [Hf _]. unfold file_kept. by rewrite Hf. Qed.

Lemma save_spec unlock v p kek p' r :
  unlocks unlock p kek → save unlock v p = (p', r) →
  (files (disk p') !! file_path v = files (disk p) !! file_path v ∨
   holds kek (file_path v) (scope_label v) (secrets v) (disk p')) ∧
  (r = Ok tt → holds kek (file_path v) (scope_label v) (secrets v) (disk p')) ∧
  (∀ q, q ≠ file_path v → (∀ n, q ≠ temp_path (file_path v) n) →
    files (disk p') !! q = files (disk p) !! q) ∧
  credential (disk p') = credential (disk p) ∧ session p' = session p.
Proof.
  intros Hu [(p1 & env & H1 & H2)|(e & H1 & ->)]%M_bind_inv.
  all: apply (seal_secrets_spec _ _ kek) in H1 as [-> Hopen]; [|done].
  2: by split_and!; [left|..].
  unfold on_disk in H2.
  destruct ((create_parent (file_path v) ;; write_bytes_atomic (file_path v) env) (disk p))
    as [d' o] eqn:Hw.
  injection H2 as <- <-. simpl.
  apply M_bind_inv in Hw as [(d1 & [] & H1 & Hw)|(e & H1 & ->)].
  all: apply create_parent_quiet in H1.
  2: { destruct H1 as [Hf Hc]. rewrite Hf. split_and!; [by left|done..]. }
  apply write_bytes_atomic_spec in Hw as (Hc & Hq & Hp & Hok).
  assert (∀ d2, files d2 !! file_path v = Some env →
            holds kek (file_path v) (scope_label v) (secrets v) d2) as Hholds.
  { intros d2 Hf. exists env. split; [done|]. by apply Hopen. }
  assert (∀ q, file_kept q d1 d' → files d' !! q = files (disk p) !! q) as Hkept.
  { intros q Hk. etrans; [exact Hk|]. by apply quiet_kept. }
  split_and!; try done.
  - destruct Hp as [Hp|Hp]; [left; by apply Hkept|right; by apply Hholds].
  - intros ->. by apply Hholds, Hok.
  - intros q Hne Ht. by apply Hkept, Hq.
  - destruct H1 as [_ <-]. exact Hc.
Qed.

(** A save of the vault of provider keys loses nothing: wherever it fails, the file
    holds what it held before or opens to exactly the secrets being saved, and
    when it succeeds the latter; besides temporary files it touches no other file
    and not the stored credential. *)
Theorem save_is_atomic unlock v p kek p' r :
  unlocks unlock p kek → save unlock v p = (p', r) →
  (files (disk p') !! file_path v = files (disk p) !! file_path v ∨
   holds kek (file_path v) (scope_label v) (secrets v) (disk p')) ∧
  (r = Ok tt → holds kek (file_path v) (scope_label v) (secrets v) (disk p')) ∧
  (∀ q, q ≠ file_path v → (∀ n, q ≠ temp_path (file_path v) n) →
    files (disk p') !! q = files (disk p) !! q) ∧
  credential (disk p') = credential (disk p) ∧ session p' = session p.
Proof. apply save_spec. Qed.

Lemma load_secrets_holds unlock q sc m kek p p1 :
  works → holds kek q sc m (disk p) → unlock p = (p1, Ok kek) → quiet (disk p) (disk p1) →
  ∃ p', load_secrets unlock q sc p = (p', Ok m).
Proof.
  intros Hio (env & Hf & Ho) Hu [Hq _]. unfold load_secrets, exists_. rewrite Hf.
  rewrite M_bind_eq, Hu, M_bind_eq. unfold on_disk, read_file. rewrite Hio, Hq, Hf.
  rewrite M_bind_eq. unfold lift_result. rewrite Ho, secrets_roundtrip. simpl. eauto.
Qed.

(** C13: secrets survive a restart: what one process saved, under the root key it found
    or created, is exactly what the next process loads, under any of the spellings
    of the file name that lead to the same vault. *)
Theorem secrets_survive_restart root dir filename filename' d m p1 p2 kek :
  let v := mkSecrets (join_file dir (force_vault_extension filename))
             (scope_from_filename (force_vault_extension filename)) m in
  works →
  root_kek root (restart d) = (p1, Ok kek) →
  file_path v ≠ sentinel_path root → file_path v ≠ kdf_metadata_path root →
  save (root_kek root) v p1 = (p2, Ok tt) →
  force_vault_extension filename' = force_vault_extension filename →
  ∃ p3, load_custom root dir filename' (restart (disk p2)) = (p3, Ok v).
Proof.
  intros v Hio Hr Hns Hnk Hsave Hname.
  destruct (root_kek_fresh _ _ _ _ Hr) as (d1 & [x|] & Hf & <- & Ho); [|done].
  destruct Ho as [[= Hx] Hc]. rewrite <- Hx in Hc.
  apply (save_spec _ _ _ kek) in Hsave as (_ & Hok & Hq & Hcr & _);
    [|by apply cached_unlocks].
  specialize (Hok eq_refl) as Hholds.
  assert (found root kek (disk p2)) as Hfound.
  { eapply found_keeps; [| |by eapply root_kek_found].
    - split; intros b Hb; (rewrite Hq; [done|by apply not_eq_sym|intros n]);
        [apply sentinel_not_temp|apply kdf_not_temp].
    - exact Hcr. }
  destruct (root_kek_again root kek (disk p2) Hio Hfound) as (p3 & Hp3 & Hquiet).
  destruct (load_secrets_holds (root_kek root) (file_path v) (scope_label v) m kek
              (restart (disk p2)) p3) as [p4 Hload]; [done..|].
  exists p4. unfold load_custom. cbn [new_custom file_path]. rewrite Hname.
  unfold exists_. simpl. destruct Hholds as (env & Henv & _). simpl in Henv. rewrite Henv.
  unfold open_with_provider. cbn [new_custom file_path scope_label]. rewrite Hname.
  rewrite M_bind_eq. unfold v in Hload. simpl in Hload. by rewrite Hload.
Qed.

(** Spellings of a file name that lead to the same vault. *)
Lemma force_vault_extension_idem name :
  force_vault_extension (force_vault_extension name) = force_vault_extension name.
Proof.
  unfold force_vault_extension at 1.
  assert (∀ stem, RustStr.strip_suffix (stem +:+ ".vault") ".vault" = Some stem) as Hv
    by (intros stem; by apply strip_suffix_Some).
  assert (∀ stem, RustStr.strip_suffix (stem +:+ ".vault") ".bin" = None) as Hb.
  { intros stem. destruct (RustStr.strip_suffix _ ".bin") as [t|] eqn:Ht; [|done].
    exfalso. apply strip_suffix_Some in Ht. revert t Ht.
    induction stem as [|c stem IH]; intros t Ht.
    - apply (f_equal String.length) in Ht as Hl. rewrite !str_length_app in Hl.
      destruct t as [|? [|? [|? t]]]; cbn in Hl, Ht; (discriminate || lia).
    - destruct t as [|c' t]; [|injection Ht as _ Ht; by eapply IH].
      apply (f_equal String.length) in Ht. rewrite str_length_app in Ht. simpl in Ht. lia. }
  unfold force_vault_extension. simpl. by rewrite Hb, Hv.
Qed.
End laws.

(** ** A concrete machine *)

Module VaultDemo.
Definition pad16 (k : string) : string := str_take 16 (k +:+ "................").

Fixpoint bits (p : positive) : string :=
  match p with
  | xI p => String "1" (bits p)
  | xO p => String "0" (bits p)
  | xH => ""
  end.

Fixpoint unbits (s : string) : positive :=
  match s with
  | String "1" s => xI (unbits s)
  | String _ s => xO (unbits s)
  | "" => xH
  end.

Lemma unbits_bits p : unbits (bits p) = p.
Proof. by induction p as [p IH|p IH|]; simpl; rewrite ?IH. Qed.

Definition print {A} `{Countable A} (x : A) : string := bits (encode x).
Definition parse {A} `{Countable A} (s : string) : result A string :=
  ok_or (decode (unbits s)) "parse error".

Lemma parse_print {A} `{Countable A} (x : A) : parse (print x) = Ok x.
Proof. unfold parse, print. by rewrite unbits_bits, decode_encode. Qed.

#[export] Instance kdf_eq_dec : EqDecision PassphraseKdfMetadata.
Proof. solve_decision. Defined.

#[export] Instance kdf_countable : Countable PassphraseKdfMetadata.
Proof.
  refine (inj_countable'
    (λ m, (version m, algorithm m, salt_base64 m, memory_cost_kib m, time_cost m, parallelism m))
    (λ '(v, a, s, m, t, p), mkKdf v a s m t p) _).
  by intros [].
Defined.

(** A machine whose calls fail as [faults] says and whose environment is [vars]. *)
Definition host (faults : nat → option string) (vars : string → option string) : VaultHost := {|
  aead_encrypt k n p := Ok (pad16 k +:+ p);
  aead_decrypt k n c :=
    if decide (str_take 16 c = pad16 k) then Some (str_drop 16 c) else None;
  hkdf salt ikm info := str_take 32 (ikm +:+ info +:+ unwrap_or salt "");
  argon2 pass salt _ _ _ := Ok (str_take 32 (salt +:+ pass +:+ "................"));
  b64_encode := id;
  b64_decode := Ok;
  print_kdf := print;
  parse_kdf := parse;
  print_secrets := print;
  parse_secrets := parse;
  random_bytes i n := String.concat "" (replicate n "k");
  now_rfc3339 _ := "2026-01-01T00:00:00+00:00";
  io := faults;
  written _ := 0;
  display_path _ := "vault";
  tmp_suffix _ := "1-1";
  no_entry := "No matching entry found in secure storage";
  env := vars;
  utf8_error _ := "invalid utf-8 sequence";
|}.

Lemma pad16_length k : String.length (pad16 k) = 16.
Proof.
  unfold pad16. rewrite str_length_take, str_length_app.
  change (String.length "................") with 16. lia.
Qed.

Lemma pad16_take k p : str_take 16 (pad16 k +:+ p) = pad16 k.
Proof. rewrite <- (pad16_length k) at 1. apply str_take_app. Qed.

Lemma pad16_drop k p : str_drop 16 (pad16 k +:+ p) = p.
Proof. rewrite <- (pad16_length k) at 1. apply str_drop_app. Qed.

Lemma length_copies n : String.length (String.concat "" (replicate n "k")) = n.
Proof.
  induction n as [|[|n] IH]; [done..|].
  change (String.length ("k" +:+ ("" +:+ String.concat "" (replicate (S n) "k"))) = S (S n)).
  rewrite !str_length_app, IH. done.
Qed.

#[export] Instance host_laws faults vars : VaultHostLaws (H:=host faults vars).
Proof.
  constructor; cbn [aead_encrypt aead_decrypt random_bytes now_rfc3339 print_kdf parse_kdf
                    print_secrets parse_secrets host].
  - intros k _ p c [= <-]. by rewrite pad16_take, decide_True, pad16_drop.
  - intros k _ p c [= <-]. rewrite str_length_app, pad16_length. lia.
  - intros _. apply length_copies.
  - done.
  - apply parse_print.
  - apply parse_print.
Qed.

Definition healthy_host : VaultHost := host (λ _, None) (λ _, None).
Definition root : path := [RootDir; Normal "data"].
Definition fresh : Disk := mkDisk ∅ None 0.
Definition key : string := String.concat "" (replicate 32 "k").

Definition started : Process := (@root_kek healthy_host root (restart fresh)).1.

Lemma started_ok : @root_kek healthy_host root (restart fresh) = (started, Ok key).
Proof. vm_compute. reflexivity. Qed.
End VaultDemo.

Lemma root_key_opens_sentinel_witness : ∃ envelope sentinel,
  files (disk VaultDemo.started) !! @sentinel_path VaultDemo.root = Some envelope ∧
  @decrypt_sentinel_bytes VaultDemo.healthy_host envelope VaultDemo.key = Ok sentinel ∧
  starts_with sentinel SENTINEL_PREFIX = true ∧
  cached_session_root_kek VaultDemo.started = Some VaultDemo.key.
Proof.
  exact (@root_key_opens_sentinel VaultDemo.healthy_host (VaultDemo.host_laws _ _)
    VaultDemo.root VaultDemo.fresh VaultDemo.started VaultDemo.key VaultDemo.started_ok).
Defined.

Module LockedDemo.
(** The credential is lost, the files are there. *)
Definition kept : Disk := mkDisk (files (disk VaultDemo.started)) None 0.
Definition envelope : string := default "" (files kept !! sentinel_path VaultDemo.root).
Definition locked : Process * result string CoreError :=
  @root_kek VaultDemo.healthy_host VaultDemo.root (restart kept).

Lemma kept_sentinel : files kept !! sentinel_path VaultDemo.root = Some envelope.
Proof. vm_compute. reflexivity. Qed.

Lemma locked_eq :
  @root_kek VaultDemo.healthy_host VaultDemo.root (restart kept) = (locked.1, locked.2).
Proof. apply surjective_pairing. Qed.
End LockedDemo.

Lemma sentinel_is_never_replaced_witness :
  LockedDemo.locked.2 = Err recovery_error ∧
  files (disk LockedDemo.locked.1) !! sentinel_path VaultDemo.root = Some LockedDemo.envelope.
Proof.
  split; [vm_compute; reflexivity|].
  exact (proj1 (@sentinel_is_never_replaced VaultDemo.healthy_host (VaultDemo.host_laws _ _)
    VaultDemo.root (restart LockedDemo.kept) LockedDemo.locked.1 LockedDemo.locked.2
    LockedDemo.envelope LockedDemo.locked_eq LockedDemo.kept_sentinel)).
Defined.

Lemma root_key_is_stable_witness :
  ∃ p2, @root_kek VaultDemo.healthy_host VaultDemo.root (restart (disk VaultDemo.started))
    = (p2, Ok VaultDemo.key).
Proof.
  exact (@root_key_is_stable VaultDemo.healthy_host (VaultDemo.host_laws _ _)
    VaultDemo.root VaultDemo.fresh VaultDemo.started VaultDemo.key (disk VaultDemo.started)
    (λ _, eq_refl) VaultDemo.started_ok (reflexivity _) (reflexivity _)).
Defined.

Lemma missing_key_is_recovery_mode_witness :
  ∃ p', @root_kek VaultDemo.healthy_host VaultDemo.root
          (restart (mkDisk (files (disk VaultDemo.started)) None 0)) = (p', Err recovery_error) ∧
    files (disk p') = files (disk VaultDemo.started) ∧ credential (disk p') = None ∧
    session p' = None.
Proof.
  exact (@missing_key_is_recovery_mode VaultDemo.healthy_host VaultDemo.root
    (mkDisk (files (disk VaultDemo.started)) None 0) (λ _, eq_refl)
    (ltac:(vm_compute; eauto)) eq_refl (ltac:(vm_compute; reflexivity)) eq_refl eq_refl).
Defined.

Module SecretsDemo.
Definition m1 : gmap string string := {["openai" := "sk-old"]}.
Definition m2 : gmap string string := {["openai" := "sk-new"; "xai" := "xai-new"]}.

Definition vault (m : gmap string string) : SecretsVault :=
  mkSecrets (join_file VaultDemo.root (force_vault_extension "secrets.bin"))
    (scope_from_filename (force_vault_extension "secrets.bin")) m.

Definition saved : Process :=
  (@save VaultDemo.healthy_host (@root_kek VaultDemo.healthy_host VaultDemo.root) (vault m1)
     VaultDemo.started).1.

Lemma saved_ok :
  @save VaultDemo.healthy_host (@root_kek VaultDemo.healthy_host VaultDemo.root) (vault m1)
    VaultDemo.started = (saved, Ok tt).
Proof. vm_compute. reflexivity. Qed.

(** The machine on which every call from the [n]-th on fails. *)
Definition crash_at (n : nat) : VaultHost :=
  VaultDemo.host (λ i, if n <=? i then Some "power" else None) (λ _, None).

Definition at_zero (d : Disk) : Disk := mkDisk (files d) (credential d) 0.
Definition running (d : Disk) : Process :=
  mkProcess (at_zero d) (Some (mkSession VaultDemo.key "" "")).

Definition torn : Process * result unit CoreError :=
  @save (crash_at 5) (@root_kek (crash_at 5) VaultDemo.root) (vault m2) (running (disk saved)).
End SecretsDemo.

Lemma secrets_survive_restart_witness :
  ∃ p3, @load_custom VaultDemo.healthy_host VaultDemo.root VaultDemo.root "secrets"
          (restart (disk SecretsDemo.saved)) = (p3, Ok (SecretsDemo.vault SecretsDemo.m1)).
Proof.
  refine (@secrets_survive_restart VaultDemo.healthy_host (VaultDemo.host_laws _ _)
    VaultDemo.root VaultDemo.root "secrets.bin" "secrets" VaultDemo.fresh SecretsDemo.m1
    VaultDemo.started SecretsDemo.saved VaultDemo.key (λ _, eq_refl) VaultDemo.started_ok
    _ _ SecretsDemo.saved_ok eq_refl); vm_compute; discriminate.
Defined.

Lemma save_is_atomic_witness :
  is_ok SecretsDemo.torn.2 = false ∧
  (files (disk SecretsDemo.torn.1) !! file_path (SecretsDemo.vault SecretsDemo.m2)
     = files (SecretsDemo.at_zero (disk SecretsDemo.saved)) !! file_path (SecretsDemo.vault SecretsDemo.m2) ∨
   @holds (SecretsDemo.crash_at 5) VaultDemo.key (file_path (SecretsDemo.vault SecretsDemo.m2))
     (scope_label (SecretsDemo.vault SecretsDemo.m2)) SecretsDemo.m2 (disk SecretsDemo.torn.1)).
Proof.
  split; [vm_compute; reflexivity|].
  exact (proj1 (@save_is_atomic (SecretsDemo.crash_at 5) (VaultDemo.host_laws _ _)
    (@root_kek (SecretsDemo.crash_at 5) VaultDemo.root) (SecretsDemo.vault SecretsDemo.m2)
    (SecretsDemo.running (disk SecretsDemo.saved)) VaultDemo.key SecretsDemo.torn.1
    SecretsDemo.torn.2 eq_refl (surjective_pairing _))).
Defined.

(** ** The scoped vault writes in place *)

Module ScopedDemo.
Definition place : path := [RootDir; Normal "data"; Normal "skills.vault"].
Definition vault (m : gmap string string) : ScopedVault := mkScoped place Skills m.

Definition saved : Process :=
  (@scoped_save VaultDemo.healthy_host (@root_kek VaultDemo.healthy_host VaultDemo.root)
     (vault SecretsDemo.m1) VaultDemo.started).1.

Definition torn : Process :=
  (@scoped_save (SecretsDemo.crash_at 2) (@root_kek (SecretsDemo.crash_at 2) VaultDemo.root)
     (vault SecretsDemo.m2) (SecretsDemo.running (disk saved))).1.
End ScopedDemo.

(** A save of a scoped vault that fails once the file is truncated destroys what
    an earlier save had kept: the file that opened before is then an empty
    envelope, and nothing else of it is left. *)
Theorem failed_scoped_save_destroys :
  (∃ p, @scoped_open VaultDemo.healthy_host ScopedDemo.place Skills
          (@root_kek VaultDemo.healthy_host VaultDemo.root) (restart (disk ScopedDemo.saved))
        = (p, Ok (ScopedDemo.vault SecretsDemo.m1))) ∧
  (∃ p, @scoped_open VaultDemo.healthy_host ScopedDemo.place Skills
          (@root_kek VaultDemo.healthy_host VaultDemo.root) (restart (disk ScopedDemo.torn))
        = (p, Err (Crypto "Empty envelope"))) ∧
  files (disk ScopedDemo.torn) !! ScopedDemo.place = Some "".
Proof. split_and!; [eexists|eexists|]; vm_compute; reflexivity. Qed.
