(* ===== verification/Superego.v ===== *)
(** * The superego gate

    The detection of API keys ([crates/abigail-core/src/key_detection.rs]), the
    evaluator ([crates/abigail-superego/src/evaluator.rs]) and the gated relay of
    a streaming turn ([crates/entity-daemon/src/pipeline/stream_gate.rs]).  The
    regular-expression engine is a parameter: [find_iter pattern text] is the
    list of its matches. *)

From S2P Require Import Prelude RustStr.
From Stdlib Require Import ZArith Lia Ascii.
From stdpp Require Import base list sets strings.

(** ** Key detection *)

Definition KEY_PATTERNS : list (string * string) := [
  ("sk-ant-[a-zA-Z0-9_-]{20,}", "anthropic");
  ("sk-[a-zA-Z0-9]{20,}", "openai");
  ("xai-[a-zA-Z0-9_-]{20,}", "xai");
  ("pplx-[a-zA-Z0-9_-]{20,}", "perplexity");
  ("AIza[a-zA-Z0-9_-]{35}", "google");
  ("tvly-[a-zA-Z0-9_-]{20,}", "tavily")].

Definition CLI_ALIASES : list (string * string) := [
  ("openai", "codex-cli"); ("anthropic", "claude-cli");
  ("google", "gemini-cli"); ("xai", "grok-cli")].

(** ** Evaluation *)

Inductive EvaluationContext : Type := ChatReply | ToolExecution | JobResult | SkillEvent.

Definition context_as_str (c : EvaluationContext) : string :=
  match c with
  | ChatReply => "chat_reply"
  | ToolExecution => "tool_execution"
  | JobResult => "job_result"
  | SkillEvent => "skill_event"
  end.

Inductive Severity : Type := Info | Warning_ | Critical.

#[export] Instance Severity_eq_dec : EqDecision Severity.
Proof. solve_decision. Defined.

Record SuperegoFinding : Type := mkFinding {
  rule : string;
  severity : Severity;
  description : string;
}.

Inductive GateDecision : Type :=
| Allow
| Flag (findings : list SuperegoFinding)
| Block (findings : list SuperegoFinding).

Definition verdict (d : GateDecision) : string :=
  match d with Allow => "clear" | Flag _ => "flag" | Block _ => "block" end.

Definition findings (d : GateDecision) : list SuperegoFinding :=
  match d with Allow => [] | Flag f | Block f => f end.

Definition DESTRUCTIVE_KEYWORDS : list string :=
  ["drop table"; "delete all"; "rm -rf"; "format c:"; "wipe all data"; "truncate table";
   "delete database"].

Definition blocks_in_context (rule : string) (context : EvaluationContext) : bool :=
  if bool_decide (rule = "secret-leak") || bool_decide (rule = "pii-ssn") then true
  else if bool_decide (rule = "destructive-pattern") then
    match context with ToolExecution | JobResult => true | _ => false end
  else false.

Definition has_pii_email (text : string) : bool :=
  existsb (λ word,
    contains word "@" && contains word "." && (5 <? String.length word)%nat
    && negb (starts_with word "http")) (split_whitespace text).

(** One window of 11: the characters it accepts are all ASCII, so that windows of
    characters and windows of bytes are the same. *)
Definition is_ssn_window (window : list ascii) : bool :=
  match window with
  | [a; b; c; d; e; f; g; h; i; j; k] =>
      bool_decide (d = "-"%char) && bool_decide (g = "-"%char)
      && forallb is_ascii_digit [a; b; c; e; f; h; i; j; k]
  | _ => false
  end.

(** [chars.windows(11).any(..)] *)
Fixpoint any_window (p : list ascii → bool) (n : nat) (chars : list ascii) : bool :=
  if (length chars <? n)%nat then false
  else p (take n chars) || match chars with [] => false | _ :: rest => any_window p n rest end.

Definition has_pii_ssn (text : string) : bool := any_window is_ssn_window 11 (str_chars text).

Section evaluate.
Context (find_iter : string → string → list string).

Definition detect_api_keys (message : string) : list (string * string) :=
  flat_map (λ p, map (λ m, (p.2, m)) (find_iter p.1 message)) KEY_PATTERNS.

Definition when (b : bool) (f : SuperegoFinding) : list SuperegoFinding :=
  if b then [f] else [].

Definition find_concerns (content : string) : list SuperegoFinding :=
  let lower := to_lowercase content in
  when (match detect_api_keys content with [] => false | _ => true end)
    (mkFinding "secret-leak" Critical "Content contains what looks like an API key or secret.") ++
  when (existsb (contains lower) DESTRUCTIVE_KEYWORDS)
    (mkFinding "destructive-pattern" Critical "Content contains potentially destructive patterns.") ++
  when (has_pii_email lower)
    (mkFinding "pii-email" Warning_ "Content may contain an email address.") ++
  when (has_pii_ssn lower)
    (mkFinding "pii-ssn" Critical "Content may contain a social security number.").

Definition is_blocking (context : EvaluationContext) (f : SuperegoFinding) : bool :=
  bool_decide (severity f = Critical) && blocks_in_context (rule f) context.

Definition evaluate (content : string) (context : EvaluationContext) : GateDecision :=
  match find_concerns content with
  | [] => Allow
  | fs =>
      match filter (is_blocking context) fs with
      | [] => Flag fs
      | blocking => Block blocking
      end
  end.
End evaluate.

(** ** LLM judgment *)

Record LlmVerdict : Type := mkVerdict { llm_verdict : string; reason : string }.

(** Position of the first and of the last occurrence of a character. *)
Fixpoint find_char (c : ascii) (s : string) : option nat :=
  match s with
  | EmptyString => None
  | String d s' => if decide (c = d) then Some 0 else S <$> find_char c s'
  end.

Fixpoint rfind_char (c : ascii) (s : string) : option nat :=
  match s with
  | EmptyString => None
  | String d s' =>
      match rfind_char c s' with
      | Some n => Some (S n)
      | None => if decide (c = d) then Some 0 else None
      end
  end.

Definition parse_llm_verdict (from_str : string → option LlmVerdict) (raw : string)
  : option LlmVerdict :=
  start ← find_char "{" raw;
  end_ ← rfind_char "}" raw;
  if (end_ <=? start)%nat then None
  else
    verdict ← from_str (str_take (S end_ - start) (str_drop start raw));
    if decide (llm_verdict verdict ∈ ["clear"; "concern"; "violation"]) then Some verdict else None.

(** ** The gated relay *)

Inductive StreamEvent : Type :=
| Token (token : string)
| Done (content : string).

Definition HOLDBACK_BYTES : nat := 64.

(** [str::is_char_boundary] *)
Definition is_char_boundary (s : string) (idx : nat) : bool :=
  if decide (idx = 0) then true
  else match str_drop idx s with
  | String c _ => negb (is_continuation c)
  | EmptyString => bool_decide (idx = String.length s)
  end.

Fixpoint floor_char_boundary (s : string) (idx : nat) : nat :=
  match idx with
  | O => O
  | S idx' => if is_char_boundary s idx then idx else floor_char_boundary s idx'
  end.

Section relay.
Context (find_iter : string → string → list string).

Definition is_blocked (content : string) : bool :=
  match evaluate find_iter content ChatReply with Block _ => true | _ => false end.

(** The variables of the relay's task; [sent] is what went downstream. *)
Record Relay : Type := mkRelay {
  downstream : bool;
  acc : string;
  forwarded : nat;
  sent : list StreamEvent;
}.

Definition new_relay : Relay := mkRelay true "" 0 [].

Definition slice (s : string) (from to : nat) : string := str_drop from (str_take to s).

Definition flush_tail (r : Relay) : Relay :=
  if (forwarded r <? String.length (acc r))%nat
  then mkRelay (downstream r) (acc r) (String.length (acc r))
         (sent r ++ [Token (str_drop (forwarded r) (acc r))])
  else r.

Definition relay_event (r : Relay) (event : StreamEvent) : Relay :=
  if negb (downstream r) then r
  else match event with
  | Token token =>
      let acc := acc r +:+ token in
      if is_blocked acc then mkRelay false acc (forwarded r) (sent r)
      else
        let safe_end := floor_char_boundary acc (String.length acc - HOLDBACK_BYTES) in
        if (forwarded r <? safe_end)%nat
        then mkRelay true acc safe_end (sent r ++ [Token (slice acc (forwarded r) safe_end)])
        else mkRelay true acc (forwarded r) (sent r)
  | Done content =>
      if is_blocked content then mkRelay false (acc r) (forwarded r) (sent r)
      else
        let r := flush_tail r in
        mkRelay true (acc r) (forwarded r) (sent r ++ [Done content])
  end.

Definition spawn_gated_relay (events : list StreamEvent) : Relay :=
  foldl relay_event new_relay events.
End relay.
