(* ===== verification/GateSpec.v ===== *)
(** * The superego gate: correctness

    The verdict follows the stated policy in every context; blocking is
    monotone in the content; and the gated relay forwards no byte of anything
    that blocks the reply, while a clean reply arrives whole. *)

From S2P Require Import Prelude RustStr Superego.
From Stdlib Require Import ZArith Lia Ascii.
From stdpp Require Import base list sets strings.

(** ** What blocks a reply *)

Definition key_char (c : ascii) : bool :=
  is_ascii_alnum c || bool_decide (c = "_"%char) || bool_decide (c = "-"%char).

(** The patterns of [KEY_PATTERNS] as their literal, their class and the least
    number of characters of the class. *)
Record KeyShape : Type := mkShape {
  literal : string;
  class : ascii → bool;
  at_least : nat;
}.

Definition key_shapes : list (string * KeyShape) := [
  ("sk-ant-[a-zA-Z0-9_-]{20,}", mkShape "sk-ant-" key_char 20);
  ("sk-[a-zA-Z0-9]{20,}", mkShape "sk-" is_ascii_alnum 20);
  ("xai-[a-zA-Z0-9_-]{20,}", mkShape "xai-" key_char 20);
  ("pplx-[a-zA-Z0-9_-]{20,}", mkShape "pplx-" key_char 20);
  ("AIza[a-zA-Z0-9_-]{35}", mkShape "AIza" key_char 35);
  ("tvly-[a-zA-Z0-9_-]{20,}", mkShape "tvly-" key_char 20)].

Lemma key_shapes_patterns : map fst key_shapes = map fst KEY_PATTERNS.
Proof. reflexivity. Qed.

(** [m] is a shortest text the shape matches. *)
Definition shape_text (k : KeyShape) (m : string) : Prop :=
  ∃ run, m = literal k +:+ run ∧ String.length run = at_least k ∧
    forallb (class k) (str_chars run) = true.

(** The documented meaning of the patterns: there is a match exactly when the
    text contains the literal followed by enough characters of the class. *)
Definition regex_spec (find_iter : string → string → list string) : Prop :=
  ∀ pattern k, (pattern, k) ∈ key_shapes →
  ∀ s, find_iter pattern s ≠ [] ↔ ∃ a m b, s = a +:+ m +:+ b ∧ shape_text k m.

Definition is_ssn (m : string) : Prop := is_ssn_window (str_chars (to_lowercase m)) = true.

(** A shortest text that blocks a chat reply. *)
Definition blockable (m : string) : Prop :=
  (∃ pattern k, (pattern, k) ∈ key_shapes ∧ shape_text k m) ∨ is_ssn m.

Definition occurs (P : string → Prop) (s : string) : Prop := ∃ a m b, s = a +:+ m +:+ b ∧ P m.

(** ** Windows *)

Lemma any_window_iff p n chars :
  (∀ w, p w = true → length w = n) →
  any_window p n chars = true ↔ ∃ a w b, chars = a ++ w ++ b ∧ p w = true.
Proof.
  intros Hp. induction chars as [|c chars IH]; cbn [any_window].
  - destruct (Nat.ltb_spec (length (@nil ascii)) n) as [Hl|Hl]; simpl in Hl.
    + split; [done|]. intros (a & w & b & Heq & Hw). apply Hp in Hw.
      apply (f_equal length) in Heq. rewrite !length_app in Heq. simpl in Heq. lia.
    + rewrite orb_false_r, take_nil. split.
      * intros H. exists [], [], []. done.
      * intros (a & w & b & Heq & Hw). destruct a, w; done.
  - destruct (Nat.ltb_spec (length (c :: chars)) n) as [Hl|Hl].
    + split; [done|]. intros (a & w & b & Heq & Hw). apply Hp in Hw.
      apply (f_equal length) in Heq. rewrite !length_app in Heq. simpl in *. lia.
    + rewrite orb_true_iff, IH. split.
      * intros [H|(a & w & b & -> & Hw)].
        -- exists [], (take n (c :: chars)), (drop n (c :: chars)).
           split; [|done]. by rewrite take_drop.
        -- by exists (c :: a), w, b.
      * intros ([|d a] & w & b & Heq & Hw).
        -- left. simpl in Heq. rewrite Heq, <- (Hp w Hw), take_app_length. done.
        -- right. injection Heq as -> ->. by exists a, w, b.
Qed.

Lemma ssn_window_length w : is_ssn_window w = true → length w = 11.
Proof. by do 12 (destruct w as [|? w]; [done|]). Qed.

Lemma str_chars_surj l : ∃ s, str_chars s = l.
Proof. induction l as [|c l [s <-]]; [by exists ""|by exists (String c s)]. Qed.

Lemma lowercase_split s a' m' b' :
  to_lowercase s = a' +:+ m' +:+ b' →
  ∃ a m b, s = a +:+ m +:+ b ∧ to_lowercase m = m' ∧ String.length a = String.length a'.
Proof.
  revert s. induction a' as [|c a' IH]; intros s Hs.
  - rewrite str_app_nil_l in Hs. revert s Hs.
    induction m' as [|c m' IHm]; intros s Hs; [by exists "", "", s|].
    destruct s as [|d s]; [done|]. rewrite str_app_cons in Hs. simpl in Hs.
    injection Hs as Hd Hs. destruct (IHm s Hs) as (a & m & b & -> & Hm & Ha).
    destruct a; [|done]. exists "", (String d m), b. split; [done|]. split; [|done].
    simpl. by rewrite Hd, Hm.
  - destruct s as [|d s]; [done|]. rewrite str_app_cons in Hs. simpl in Hs.
    injection Hs as Hd Hs. destruct (IH s Hs) as (a & m & b & -> & Hm & Ha).
    exists (String d a), m, b. split; [done|]. split; [done|]. simpl. by rewrite Ha.
Qed.

Lemma has_pii_ssn_iff s : has_pii_ssn (to_lowercase s) = true ↔ occurs is_ssn s.
Proof.
  unfold has_pii_ssn, occurs, is_ssn. rewrite any_window_iff by apply ssn_window_length. split.
  - intros (a & w & b & Heq & Hw).
    destruct (str_chars_surj a) as [a' <-], (str_chars_surj w) as [w' <-], (str_chars_surj b) as [b' <-].
    rewrite <- !str_chars_app in Heq. apply str_chars_inj, lowercase_split in Heq.
    destruct Heq as (x & m & y & -> & <- & _). by exists x, m, y.
  - intros (a & m & b & -> & Hm). rewrite !to_lowercase_app, !str_chars_app. eauto.
Qed.

Section gate.
Context (find_iter : string → string → list string).
Context (find_iter_ok : regex_spec find_iter).
Notation find_concerns := (find_concerns find_iter).
Notation evaluate := (evaluate find_iter).
Notation is_blocked := (is_blocked find_iter).
Notation relay_event := (relay_event find_iter).
Notation spawn_gated_relay := (spawn_gated_relay find_iter).

Definition has_secret (s : string) : Prop :=
  occurs (λ m, ∃ pattern k, (pattern, k) ∈ key_shapes ∧ shape_text k m) s.
Definition is_destructive (s : string) : bool :=
  existsb (contains (to_lowercase s)) DESTRUCTIVE_KEYWORDS.

Lemma detect_api_keys_iff s : detect_api_keys find_iter s ≠ [] ↔ has_secret s.
Proof.
  unfold detect_api_keys, has_secret, occurs.
  assert (∀ l : list (string * string),
    flat_map (λ p, map (λ m, (p.2, m)) (find_iter p.1 s)) l ≠ [] ↔
    ∃ p, p ∈ map fst l ∧ find_iter p s ≠ []) as Hfm.
  { induction l as [|[p prov] l IH]; simpl.
    - split; [done|]. intros (p & Hp & _). by apply elem_of_nil in Hp.
    - setoid_rewrite elem_of_cons. destruct (find_iter p s) as [|m ms] eqn:Hm; simpl.
      + rewrite IH. split; [naive_solver|]. intros (q & [->|?] & ?); [congruence|eauto].
      + split; [|done]. intros _. exists p. rewrite Hm. auto. }
  rewrite Hfm, <- key_shapes_patterns. split.
  - intros (p & Hp & Hf). change (p ∈ fst <$> key_shapes) in Hp.
    apply list_elem_of_fmap in Hp as ([p' k] & -> & Hk).
    apply (find_iter_ok p' k Hk) in Hf as (a & m & b & ? & ?). exists a, m, b. eauto.
  - intros (a & m & b & -> & p & k & Hk & Hm). exists p. split.
    + change (p ∈ fst <$> key_shapes). apply list_elem_of_fmap. by exists (p, k).
    + apply (find_iter_ok p k Hk). eauto.
Qed.

Lemma elem_of_when b f g : f ∈ when b g ↔ b = true ∧ f = g.
Proof. destruct b; simpl; [rewrite list_elem_of_singleton; naive_solver|]. set_solver. Qed.

Lemma blocking_iff context s :
  (∃ f, f ∈ find_concerns s ∧ is_blocking context f = true) ↔
  has_secret s ∨ occurs is_ssn s ∨
  (is_destructive s = true ∧ (context = ToolExecution ∨ context = JobResult)).
Proof.
  unfold Superego.find_concerns. rewrite <- has_pii_ssn_iff, <- detect_api_keys_iff.
  unfold is_destructive. setoid_rewrite elem_of_app. setoid_rewrite elem_of_app.
  setoid_rewrite elem_of_app. setoid_rewrite elem_of_when. split.
  - intros (f & [[Hs ->]|[[Hd ->]|[[_ ->]|[Hp ->]]]] & Hb).
    + left. by destruct (detect_api_keys find_iter s).
    + right. right. split; [done|]. destruct context; auto; done.
    + done.
    + auto.
  - intros [Hs|[Hp|[Hd Hc]]].
    + eexists. split; [left; split; [by destruct (detect_api_keys find_iter s)|done]|done].
    + eexists. split; [right; right; right; split; [done|done]|done].
    + eexists. split; [right; left; split; [done|done]|]. by destruct Hc as [->| ->].
Qed.

Lemma evaluate_block_iff s context :
  (∃ fs, evaluate s context = Block fs) ↔ ∃ f, f ∈ find_concerns s ∧ is_blocking context f = true.
Proof.
  unfold Superego.evaluate. destruct (find_concerns s) as [|f0 fs] eqn:Hf.
  { split; [by intros [? ?]|]. intros (f & Hin & _). by apply elem_of_nil in Hin. }
  assert ((∃ f, f ∈ f0 :: fs ∧ is_blocking context f = true) ↔
          filter (is_blocking context) (f0 :: fs) ≠ []) as ->.
  { split.
    - intros (f & Hin & Hb) Hnil.
      assert (f ∈ filter (is_blocking context) (f0 :: fs)) as Hin'
        by (apply list_elem_of_filter; by rewrite Hb).
      rewrite Hnil in Hin'. by apply elem_of_nil in Hin'.
    - intros Hne. destruct (filter _ _) as [|f fs'] eqn:Hl; [done|].
      assert (f ∈ f :: fs') as Hin by left. rewrite <- Hl in Hin.
      apply list_elem_of_filter in Hin as [Hb%Is_true_true Hin]. eauto. }
  destruct (filter _ _); naive_solver.
Qed.

(** The verdict is exactly the policy: content with a secret or a social
    security number is blocked in every context; destructive commands block
    tools and job results but not conversation; content is clear exactly when
    there is no concern at all; and everything a block reports is critical. *)
Theorem evaluate_policy s context :
  ((∃ fs, evaluate s context = Block fs) ↔
    has_secret s ∨ occurs is_ssn s ∨
    (is_destructive s = true ∧ (context = ToolExecution ∨ context = JobResult))) ∧
  (evaluate s context = Allow ↔ find_concerns s = []) ∧
  (∀ fs f, evaluate s context = Block fs → f ∈ fs →
     severity f = Critical ∧ f ∈ find_concerns s).
Proof.
  split; [|split].
  - by rewrite evaluate_block_iff, blocking_iff.
  - unfold Superego.evaluate. destruct (find_concerns s); [done|]. by destruct (filter _ _).
  - intros fs f. unfold Superego.evaluate. destruct (find_concerns s) as [|f0 fs0] eqn:Hf; [done|].
    destruct (filter _ _) as [|b bs] eqn:Hl; [done|]. intros [= <-] Hin.
    rewrite <- Hl in Hin. apply list_elem_of_filter in Hin as [Hb%Is_true_true Hin].
    split; [|done]. unfold is_blocking in Hb. by apply andb_prop in Hb as [?%bool_decide_eq_true _].
Qed.

Lemma is_blocked_iff s : is_blocked s = true ↔ occurs blockable s.
Proof.
  assert (is_blocked s = true ↔ ∃ fs, evaluate s ChatReply = Block fs) as ->.
  { unfold Superego.is_blocked. destruct (evaluate s ChatReply); naive_solver. }
  rewrite evaluate_block_iff, blocking_iff. unfold has_secret, occurs, blockable. split.
  - intros [(a & m & b & ? & ?)|[(a & m & b & ? & ?)|[_ [?|?]]]]; [..|done|done];
      exists a, m, b; auto.
  - intros (a & m & b & -> & [?|?]); [left|right; left]; eauto 10.
Qed.

Lemma is_blocked_app s t : is_blocked s = true → is_blocked (s +:+ t) = true.
Proof.
  rewrite !is_blocked_iff. intros (a & m & b & -> & Hm). exists a, m, (b +:+ t).
  split; [|done]. by rewrite <- !str_app_assoc.
Qed.

(** No blockable text is longer than 39 bytes, the least Google key. *)
Lemma blockable_length m : blockable m → 0 < String.length m ≤ 39.
Proof.
  intros [(p & k & Hk & run & -> & Hr & _)|Hm].
  - rewrite str_length_app, Hr. unfold key_shapes in Hk.
    repeat (apply elem_of_cons in Hk as [[= -> ->]|Hk]; [simpl; lia|]). by apply elem_of_nil in Hk.
  - apply ssn_window_length in Hm.
    assert (∀ t, length (str_chars t) = String.length t) as Hc
      by (intros t; induction t; simpl; congruence).
    rewrite Hc, length_to_lowercase in Hm. lia.
Qed.

(** ** The relay *)

Definition tokens (ts : list string) : list StreamEvent := map Token ts.
Definition full (ts : list string) : string := foldr (λ t rest, t +:+ rest) "" ts.

(** The text that went downstream. *)
Definition text (l : list StreamEvent) : string :=
  full (omap (λ e, match e with Token t => Some t | Done _ => None end) l).

Definition has_done (l : list StreamEvent) : Prop := ∃ c, Done c ∈ l.

Lemma full_app l1 l2 : full (l1 ++ l2) = full l1 +:+ full l2.
Proof. induction l1 as [|t l1 IH]; [done|]. simpl. by rewrite IH, str_app_assoc. Qed.

Lemma text_app l1 l2 : text (l1 ++ l2) = text l1 +:+ text l2.
Proof. unfold text. by rewrite omap_app, full_app. Qed.

Lemma floor_le s idx : floor_char_boundary s idx ≤ idx.
Proof. induction idx as [|idx IH]; [done|]. simpl. destruct (is_char_boundary s (S idx)); lia. Qed.

(** What holds of the relay after any tokens that make up [s]. *)
Definition relay_inv (s : string) (r : Relay) : Prop :=
  text (sent r) = str_take (forwarded r) s ∧
  forwarded r ≤ String.length s - HOLDBACK_BYTES ∧
  ¬ has_done (sent r) ∧
  (downstream r = true ↔ is_blocked s = false) ∧
  (downstream r = true → acc r = s) ∧
  (∀ a m b, s = a +:+ m +:+ b → blockable m → forwarded r ≤ String.length a).

Lemma split_inside a m b s t :
  s +:+ t = a +:+ m +:+ b → String.length a + String.length m ≤ String.length s →
  ∃ b', s = a +:+ m +:+ b'.
Proof.
  intros Heq Hl. exists (str_drop (String.length (a +:+ m)) s).
  rewrite str_app_assoc. rewrite <- (str_take_drop (String.length (a +:+ m)) s) at 1.
  f_equal. rewrite <- (str_take_app_le _ _ t) by (rewrite str_length_app; lia).
  rewrite Heq, str_app_assoc, str_take_app_le by done. by apply str_take_ge.
Qed.

(** A later occurrence starts behind what was forwarded. *)
Lemma no_early_match s t n a m b :
  n ≤ String.length s - HOLDBACK_BYTES →
  (∀ a m b, s = a +:+ m +:+ b → blockable m → n ≤ String.length a) →
  s +:+ t = a +:+ m +:+ b → blockable m → n ≤ String.length a.
Proof.
  intros Hn Hs Heq Hm. pose proof (blockable_length m Hm) as Hl. unfold HOLDBACK_BYTES in Hn.
  destruct (decide (String.length a + String.length m ≤ String.length s)) as [Hin|Hout]; [|lia].
  destruct (split_inside _ _ _ _ _ Heq Hin) as [b' Hb]. by eapply Hs.
Qed.

Lemma slice_app s from to :
  from ≤ to → str_take from s +:+ slice s from to = str_take to s.
Proof. intros Hle. unfold slice. by rewrite str_take_drop_take. Qed.

Lemma text_token l t : text (l ++ [Token t]) = text l +:+ t.
Proof. rewrite text_app. unfold text at 2. simpl. by rewrite str_app_nil_r. Qed.

Lemma has_done_token l t : ¬ has_done l → ¬ has_done (l ++ [Token t]).
Proof.
  intros Hl [c [Hc|Hc%list_elem_of_singleton]%elem_of_app]; [|done]. apply Hl. by exists c.
Qed.

Lemma relay_token s r t : relay_inv s r → relay_inv (s +:+ t) (relay_event r (Token t)).
Proof.
  intros (Ht & Hf & Hd & Hopen & Hacc & Hm).
  assert (forwarded r ≤ String.length (s +:+ t) - HOLDBACK_BYTES) as Hf'
    by (rewrite str_length_app; lia).
  assert (∀ a m b, s +:+ t = a +:+ m +:+ b → blockable m → forwarded r ≤ String.length a) as Hm'
    by (intros a m b; by apply no_early_match).
  assert (text (sent r) = str_take (forwarded r) (s +:+ t)) as Ht'
    by (rewrite str_take_app_le by lia; done).
  unfold Superego.relay_event. destruct (downstream r) eqn:Ho; simpl.
  - rewrite Hacc by done. destruct (is_blocked (s +:+ t)) eqn:Hb.
    { repeat (split; [done|]). simpl. rewrite Hb. by repeat (split; [done|]). }
    set (safe := floor_char_boundary _ _).
    assert (safe ≤ String.length (s +:+ t) - HOLDBACK_BYTES) as Hsafe by apply floor_le.
    destruct (Nat.ltb_spec (forwarded r) safe) as [Hlt|Hge].
    + split; [|split; [|split; [|split; [|split]]]]; simpl; try done.
      * by rewrite text_token, Ht', slice_app by lia.
      * by apply has_done_token.
      * intros a m b Heq Hbl. exfalso. apply not_true_iff_false in Hb. apply Hb, is_blocked_iff.
        by exists a, m, b.
    + repeat (split; [done|]). simpl. by repeat (split; [done|]).
  - assert (is_blocked s = true) as Hb by (destruct (is_blocked s); naive_solver).
    repeat (split; [done|]). rewrite Ho, is_blocked_app by done. by repeat (split; [done|]).
Qed.

Lemma not_blocked_empty : is_blocked "" = false.
Proof.
  apply not_true_iff_false. rewrite is_blocked_iff. intros (a & m & b & Heq & Hm).
  apply blockable_length in Hm. apply (f_equal String.length) in Heq.
  rewrite !str_length_app in Heq. simpl in Heq. lia.
Qed.

Lemma relay_tokens ts : relay_inv (full ts) (spawn_gated_relay (tokens ts)).
Proof.
  unfold Superego.spawn_gated_relay, tokens.
  assert (∀ s r, relay_inv s r →
    relay_inv (s +:+ full ts) (foldl relay_event r (map Token ts))) as Hind.
  { induction ts as [|t ts IH]; intros s r Hr; simpl; [by rewrite str_app_nil_r|].
    rewrite str_app_assoc. by apply IH, relay_token. }
  rewrite <- (str_app_nil_l (full ts)). apply Hind. split; [done|]. split; [simpl; lia|].
  split; [intros [c Hc]; by apply elem_of_nil in Hc|].
  rewrite not_blocked_empty. split; [done|]. split; [done|].
  intros a m b _ _. simpl. lia.
Qed.

(** C9: however a reply is cut into tokens, what the client has received is a
    prefix of it that ends before the first byte of anything that blocks the
    reply: not one byte of a key or of a social security number is forwarded,
    matched only later or not; the stream is open exactly while the whole
    reply so far passes the gate, and no completion was sent. *)
Theorem relay_forwards_nothing_blockable ts :
  let r := spawn_gated_relay (tokens ts) in
  (∃ rest, full ts = text (sent r) +:+ rest) ∧
  (∀ a m b, full ts = a +:+ m +:+ b → blockable m →
     ∃ rest, a = text (sent r) +:+ rest) ∧
  (downstream r = true ↔ is_blocked (full ts) = false) ∧ ¬ has_done (sent r).
Proof.
  intros r. destruct (relay_tokens ts) as (Ht & Hf & Hd & Hopen & _ & Hm). fold r in Ht, Hf, Hd, Hopen, Hm.
  split; [|split; [|done]].
  - exists (str_drop (forwarded r) (full ts)). by rewrite Ht, str_take_drop.
  - intros a m b Heq Hbl. pose proof (Hm a m b Heq Hbl) as Hle.
    exists (str_drop (forwarded r) a). rewrite Ht, Heq, str_take_app_le by done.
    by rewrite str_take_drop.
Qed.

(** What a completion adds: the rest of the text and itself, if all passes. *)
Lemma relay_done s r c :
  relay_inv s r →
  let r' := relay_event r (Done c) in
  if downstream r && negb (is_blocked c)
  then downstream r' = true ∧ text (sent r') = s ∧ last (sent r') = Some (Done c) ∧
       ∀ x, Done x ∈ sent r' → x = c
  else downstream r' = false ∧ sent r' = sent r.
Proof.
  intros (Ht & Hf & Hd & Hopen & Hacc & _). unfold Superego.relay_event. cbv zeta.
  destruct (downstream r) eqn:Ho; simpl; [|by rewrite Ho].
  destruct (is_blocked c); simpl; [done|]. unfold flush_tail. rewrite (Hacc eq_refl).
  assert (∀ l x, Done x ∈ l ++ [Done c] → ¬ has_done l → x = c) as Hx.
  { intros l x [Hin|[= ->]%list_elem_of_singleton]%elem_of_app Hn; [|done]. destruct Hn. by eexists. }
  destruct (Nat.ltb_spec (forwarded r) (String.length s)) as [Hl|Hl]; simpl.
  - rewrite last_snoc, text_app, text_token, Ht, str_take_drop.
    unfold text. simpl. rewrite str_app_nil_r. split_and!; try done.
    intros x Hin. eapply Hx; [exact Hin|]. by apply has_done_token.
  - rewrite last_snoc, text_app, Ht, str_take_ge by lia.
    unfold text. simpl. rewrite str_app_nil_r. split_and!; try done.
    intros x Hin. by eapply Hx.
Qed.

(** What was forwarded passes the gate. *)
Lemma relay_inv_clean s r : relay_inv s r → is_blocked (text (sent r)) = false.
Proof.
  intros (Ht & Hf & _ & _ & _ & Hm). apply not_true_iff_false. rewrite is_blocked_iff.
  intros (a & m & b & Heq & Hbl). rewrite Ht in Heq.
  pose proof (blockable_length _ Hbl) as [Hpos _].
  assert (forwarded r ≤ String.length a) as Hle.
  { apply (Hm a m (b +:+ str_drop (forwarded r) s)); [|done].
    rewrite <- (str_take_drop (forwarded r) s) at 1. rewrite Heq. by rewrite <- !str_app_assoc. }
  apply (f_equal String.length) in Heq. rewrite !str_length_app in Heq.
  assert (String.length (str_take (forwarded r) s) ≤ forwarded r); [|lia].
  clear. generalize (forwarded r). induction s as [|c s IH]; intros [|n]; simpl; [lia..|].
  specialize (IH n). lia.
Qed.

(** A reply that passes the gate, with a completion that passes it, arrives
    whole: the tokens received make up exactly the tokens sent and the
    completion comes last; and when either does not pass, no completion is
    sent and the stream stays cut whatever follows. *)
Theorem relay_delivers_clean_reply ts c rest :
  let r := spawn_gated_relay (tokens ts ++ [Done c]) in
  (is_blocked (full ts) = false → is_blocked c = false →
   text (sent r) = full ts ∧ last (sent r) = Some (Done c)) ∧
  (is_blocked (full ts) = true ∨ is_blocked c = true →
   ¬ has_done (sent r) ∧ downstream r = false ∧
   sent (spawn_gated_relay (tokens ts ++ Done c :: rest)) = sent r).
Proof.
  intros r. pose proof (relay_tokens ts) as Hinv.
  pose proof (relay_done _ _ c Hinv) as Hdone.
  destruct Hinv as (_ & _ & Hd & Hopen & _ & _).
  set (r0 := spawn_gated_relay (tokens ts)) in *.
  assert (r = relay_event r0 (Done c)) as Hr
    by (unfold r, r0, Superego.spawn_gated_relay; by rewrite foldl_app).
  cbv zeta in Hdone. rewrite <- Hr in Hdone. split.
  - intros Hb Hc. apply Hopen in Hb. rewrite Hb, Hc in Hdone. simpl in Hdone.
    by destruct Hdone as (_ & ? & ? & _).
  - intros Hb.
    assert (downstream r = false ∧ sent r = sent r0) as [Ho Hs].
    { destruct (downstream r0) eqn:Ho, (is_blocked c) eqn:Hc; try exact Hdone.
      assert (is_blocked (full ts) = false) by (by apply Hopen). destruct Hb; congruence. }
    rewrite Hs at 1. split; [done|]. split; [done|].
    assert (∀ es r1, downstream r1 = false → foldl relay_event r1 es = r1) as Hcut.
    { induction es as [|e es IH]; intros r1 H1; [done|]. simpl.
      assert (relay_event r1 e = r1) as -> by (unfold Superego.relay_event; by rewrite H1).
      by apply IH. }
    unfold Superego.spawn_gated_relay. rewrite foldl_app. simpl.
    fold (tokens ts). change (foldl relay_event new_relay (tokens ts)) with r0.
    rewrite <- Hr. by rewrite Hcut.
Qed.
End gate.

(** ** Witnesses *)

(** A matcher for the patterns of the table: one match, the whole text, when the
    pattern occurs. *)
Fixpoint run_of (p : ascii → bool) (n : nat) (s : string) : bool :=
  match n, s with
  | O, _ => true
  | S n, String c s => p c && run_of p n s
  | S _, EmptyString => false
  end.

Definition shape_here (k : KeyShape) (s : string) : bool :=
  match RustStr.strip_prefix s (literal k) with
  | Some rest => run_of (class k) (at_least k) rest
  | None => false
  end.

Fixpoint shape_occurs (k : KeyShape) (s : string) : bool :=
  shape_here k s || match s with EmptyString => false | String _ s' => shape_occurs k s' end.

Definition find_shape (pattern : string) : option KeyShape :=
  snd <$> head (filter (λ p, p.1 = pattern) key_shapes).

Definition toy_find_iter (pattern s : string) : list string :=
  match find_shape pattern with
  | Some k => if shape_occurs k s then [s] else []
  | None => []
  end.

Lemma run_of_iff p n s :
  run_of p n s = true ↔
  ∃ run b, s = run +:+ b ∧ String.length run = n ∧ forallb p (str_chars run) = true.
Proof.
  revert s. induction n as [|n IH]; intros s.
  - split; [|done]. intros _. by exists "", s.
  - destruct s as [|c s]; simpl.
    + split; [done|]. intros ([|] & b & ? & ? & _); done.
    + rewrite andb_true_iff, IH. split.
      * intros [Hc (run & b & -> & <- & Hr)]. exists (String c run), b. simpl. by rewrite Hc, Hr.
      * intros ([|d run] & b & Heq & Hl & Hr); [done|]. rewrite str_app_cons in Heq.
        injection Heq as -> ->. simpl in *. apply andb_prop in Hr as [? ?]. split; [done|].
        exists run, b. split; [done|]. split; [lia|done].
Qed.

Lemma shape_occurs_iff k s :
  shape_occurs k s = true ↔ ∃ a m b, s = a +:+ m +:+ b ∧ shape_text k m.
Proof.
  assert (∀ s, shape_here k s = true ↔ ∃ m b, s = m +:+ b ∧ shape_text k m) as Hh.
  { intros t. unfold shape_here, shape_text. split.
    - destruct (RustStr.strip_prefix t (literal k)) as [rest|] eqn:Hp; [|done].
      apply strip_prefix_Some in Hp as ->. rewrite run_of_iff. intros (run & b & -> & Hl & Hr).
      exists (literal k +:+ run), b. split; [by rewrite <- str_app_assoc|]. eauto.
    - intros (m & b & -> & run & -> & Hl & Hr).
      rewrite <- str_app_assoc, (proj2 (strip_prefix_Some _ _ _) eq_refl).
      apply run_of_iff. eauto. }
  induction s as [|c s IH]; cbn [shape_occurs]; rewrite orb_true_iff, Hh.
  - split; [|].
    + intros [(m & b & ? & ?)|?]; [|done]. by exists "", m, b.
    + intros ([|] & m & b & Heq & ?); [left; by exists m, b|done].
  - rewrite IH. split.
    + intros [(m & b & ? & ?)|(a & m & b & -> & ?)]; [by exists "", m, b|by exists (String c a), m, b].
    + intros ([|d a] & m & b & Heq & ?); [left; by exists m, b|right].
      rewrite str_app_cons in Heq. injection Heq as -> ->. by exists a, m, b.
Qed.

Lemma toy_find_iter_ok : regex_spec toy_find_iter.
Proof.
  intros pattern k Hk s. rewrite <- shape_occurs_iff. unfold toy_find_iter.
  assert (find_shape pattern = Some k) as ->.
  { unfold key_shapes in Hk. repeat (apply elem_of_cons in Hk as [[= -> ->]|Hk]; [reflexivity|]).
    by apply elem_of_nil in Hk. }
  by destruct (shape_occurs k s).
Qed.

Definition a_key : string := "sk-abcdefghijklmnopqrstuvwxyz".

Lemma evaluate_policy_witness :
  ∃ fs, evaluate toy_find_iter ("my key is " +:+ a_key) SkillEvent = Block fs.
Proof.
  apply (evaluate_policy toy_find_iter toy_find_iter_ok ("my key is " +:+ a_key) SkillEvent).
  left. apply (detect_api_keys_iff toy_find_iter toy_find_iter_ok). vm_compute. discriminate.
Defined.

Lemma relay_forwards_nothing_blockable_witness :
  ∃ rest, full ["the key is sk-abcdefgh"; "ijklmnopqrstuvwxyz"; " ok"] =
    text (sent (spawn_gated_relay toy_find_iter
      (tokens ["the key is sk-abcdefgh"; "ijklmnopqrstuvwxyz"; " ok"]))) +:+ rest.
Proof.
  apply (relay_forwards_nothing_blockable toy_find_iter toy_find_iter_ok
    ["the key is sk-abcdefgh"; "ijklmnopqrstuvwxyz"; " ok"]).
Defined.

Lemma relay_delivers_clean_reply_witness :
  text (sent (spawn_gated_relay toy_find_iter (tokens ["hello "; "world"] ++ [Done "hello world"]))) =
    "hello world".
Proof.
  apply (relay_delivers_clean_reply toy_find_iter toy_find_iter_ok ["hello "; "world"] "hello world" []);
    vm_compute; reflexivity.
Defined.
