(* ===== verification/Protected.v ===== *)
(** * Secrets in messages ([crates/abigail-core/src/key_detection.rs],
      [crates/abigail-memory/src/protected_topics.rs])

    Two ways a secret in a message is dealt with: the part of an API key that
    [redact_secrets] hides, and the move of a whole message to an encrypted
    protected topic, with a notice in its place.  The regular-expression engine
    is a parameter: [segments pattern text] cuts the text into the matches, each
    with the text before it, and the rest.  The test for a UUID and the JSON of
    the payload are parameters too. *)

From S2P Require Import Prelude RustStr SecureFs Vault Superego.
From Stdlib Require Import ZArith Lia Ascii.
From stdpp Require Import base list strings pretty.

Open Scope rust_scope.

(** ** Redaction *)

(** What [redact_secrets] puts in the place of a match. *)
Definition redact_match (matched : string) : string :=
  let visible :=
    match find_char "-" matched with
    | Some idx => str_take (Nat.min (idx + 4) (String.length matched)) matched
    | None => str_take (Nat.min 4 (String.length matched)) matched
    end in
  visible +:+ "***".

Section redaction.
Context (segments : string → string → list (string * string) * string).

(** [Regex::find_iter] and [Regex::replace_all]. *)
Definition find_iter (pattern text : string) : list string := (segments pattern text).1.*2.

Definition replace_all (pattern : string) (f : string → string) (text : string) : string :=
  let '(found, rest) := segments pattern text in
  foldr (λ '(before, m) acc, before +:+ f m +:+ acc) rest found.

Definition redact_secrets (text : string) : string :=
  foldl (λ result p, replace_all p.1 redact_match result) text KEY_PATTERNS.
End redaction.

(** ** Protected topics *)

Inductive SecretKind : Type := ApiKey | Password | SecretToken | Credential.

Definition secret_kind_str (k : SecretKind) : string :=
  match k with
  | ApiKey => "api_key"
  | Password => "password"
  | SecretToken => "token"
  | Credential => "credential"
  end.

Record TriangleEthicPreview : Type := mkPreview {
  deontological_duty : Z;
  areteological_stewardship : Z;
  teleological_outcome : Z;
  autonomy_gain : Z;
  privacy_gain : Z;
  total : Z;
  summary : string;
}.

(** [{:+}] *)
Definition signed (z : Z) : string := if (z <? 0)%Z then pretty z else "+" +:+ pretty z.

Definition for_secret_move (kind : SecretKind) (secret_label : string) : TriangleEthicPreview :=
  let '(duty, stewardship, outcome) :=
    match kind with
    | ApiKey => (5, 4, 4)
    | Password => (5, 5, 4)
    | SecretToken => (4, 4, 4)
    | Credential => (4, 5, 4)
    end%Z in
  mkPreview duty stewardship outcome 5 5 (duty + stewardship + outcome + 5 + 5)%Z
    ("5D TriangleEthic preview for " +:+ secret_label +:+ ": duty " +:+ signed duty +:+
     ", stewardship " +:+ signed stewardship +:+ ", outcome " +:+ signed outcome +:+
     ", autonomy " +:+ signed 5 +:+ ", privacy " +:+ signed 5 +:+
     ". The entity keeps this secret inside a protected topic without mentor or superego review.").

Record SecretMovePlan : Type := mkPlan {
  topic_name : string;
  secret_kind : SecretKind;
  secret_label : string;
  redacted_excerpt : string;
  preview : TriangleEthicPreview;
}.

Record ProtectedSecretPayload : Type := mkPayload {
  payload_session : string;
  payload_role : string;
  payload_source : string;
  payload_content : string;
  captured_at : string;
}.

Definition any_of (lower : string) (hints : list string) : bool := existsb (contains lower) hints.

Definition looks_like_secret_delivery (lower : string) : bool :=
  let explicit_delivery :=
    any_of lower ["here is"; "here's"; "use this"; "remember this"; "remember my"; "save this";
                  "store this"; "keep this"; "my imap"; "my smtp"; "my email"] in
  let assignment := any_of lower [" is "; "="; ":"; "->"] in
  let credential_word :=
    any_of lower ["password"; "passcode"; "api key"; "token"; "client secret"; "credential";
                  "secret"] in
  let target_word :=
    any_of lower ["imap"; "smtp"; "email"; "mail"; "openai"; "anthropic"; "google"; "xai";
                  "perplexity"; "tavily"] in
  credential_word && (explicit_delivery || (assignment && target_word)).

(** [secret_kind.as_str().replace('_', "-")] *)
Definition kind_suffix (k : SecretKind) : string :=
  match k with
  | ApiKey => "api-key"
  | Password => "password"
  | SecretToken => "token"
  | Credential => "credential"
  end.

Definition infer_secret_label (lower : string) (kind : SecretKind) (provider : option string)
  : string :=
  match provider with
  | Some p => p +:+ "-" +:+ secret_kind_str kind
  | None =>
      if contains lower "imap" then "imap-" +:+ kind_suffix kind
      else if contains lower "smtp" then "smtp-" +:+ kind_suffix kind
      else if contains lower "email" || contains lower "mail" then "email-" +:+ kind_suffix kind
      else replace (secret_kind_str kind) "_" "-"
  end.

Section plan.
Context (segments : string → string → list (string * string) * string).
Context (is_uuid : string → bool).

Definition detect_secret_kind (content : string) : option (SecretKind * string) :=
  match detect_api_keys (find_iter segments) content with
  | (provider, _) :: _ => Some (ApiKey, provider +:+ "-api-key")
  | [] =>
      let lower := to_lowercase content in
      if negb (looks_like_secret_delivery lower) then None
      else if any_of lower ["password"; "passcode"; "app password"] then
        Some (Password, infer_secret_label lower Password None)
      else if any_of lower ["api key"; "access token"; "bearer "] then
        Some (SecretToken, infer_secret_label lower SecretToken None)
      else if any_of lower ["client secret"; "credential"] ||
              (contains lower " secret " && negb (contains lower "triangle ethic")) then
        Some (Credential, infer_secret_label lower Credential None)
      else None
  end.

Definition plan_secret_move (entity_id : option string) (content : string)
  : option SecretMovePlan :=
  entity_id ← entity_id;
  let entity_id := trim entity_id in
  if negb (is_uuid entity_id) then None
  else
    '(kind, secret_label) ← detect_secret_kind content;
    let topic_name := "secrets-" +:+ entity_id in
    Some (mkPlan topic_name kind secret_label
            ("[secret moved to Secrets Vault: " +:+ secret_label +:+ " in " +:+ topic_name +:+ "]")
            (for_secret_move kind secret_label)).
End plan.

(** ** The encrypted payload *)

Section payload.
Context `{VaultHost}.
Context (print : ProtectedSecretPayload → string).
Context (parse : string → result ProtectedSecretPayload string).
(** What the provider of the root key answers. *)
Context (unlock : result string CoreError).

Definition core_str {A} (r : result A CoreError) : result A string := map_err core_error_str r.

Definition topic_key (root_kek topic : string) : string :=
  derive_scope_key root_kek ("protected-topic:" +:+ topic).

Definition encrypt_secret_payload (nonce : string) (plan : SecretMovePlan)
    (session_id role source content captured_at : string) : result string string :=
  let plaintext := print (mkPayload session_id role source content captured_at) in
  let? root_kek := core_str unlock in
  core_str (seal_with nonce (topic_key root_kek (topic_name plan)) plaintext).

Definition decrypt_secret_payload (topic ciphertext : string)
  : result ProtectedSecretPayload string :=
  let? root_kek := core_str unlock in
  let? plaintext := core_str (open_envelope (topic_key root_kek topic) ciphertext) in
  parse plaintext.
End payload.
