(* ===== verification/MemStore.v ===== *)
(** * The memory of an Entity ([crates/abigail-memory/src/store.rs],
      [subscriber.rs]; [crates/entity-daemon/src/memory_consumer.rs])

    [MemoryStore] keeps five tables of the document database: the birth record,
    memories, conversation turns, and the protected topics with their encrypted
    entries.  The tables are record stores ([RecordStore]); the statements the
    source sends as SQL are its [store_query].  Drawn identifiers, clock readings
    and the nonce of an encryption are arguments. *)

From S2P Require Import Prelude RustStr RecordStore Ledger SecureFs Vault Superego Protected.
From Stdlib Require Import ZArith Lia.
From stdpp Require Import base list strings gmap fin_maps pretty.

Open Scope rust_scope.

(** ** Records *)

Inductive MemoryWeight : Type := Ephemeral | Distilled | Crystallized.

Definition weight_as_str (w : MemoryWeight) : string :=
  match w with
  | Ephemeral => "ephemeral"
  | Distilled => "distilled"
  | Crystallized => "crystallized"
  end.

Section records.
Context {Time : Type}.

Record Memory : Type := mkMemory {
  memory_id : string;
  memory_content : string;
  memory_weight : MemoryWeight;
  memory_created_at : Time;
}.

Record ConversationTurn : Type := mkTurn {
  turn_id : string;
  turn_session : string;
  turn_number : Z;
  turn_role : string;
  turn_content : string;
  turn_provider : option string;
  turn_model : option string;
  turn_tier : option string;
  turn_complexity : option Z;
  token_estimate : option Z;
  turn_created_at : Time;
}.

Definition new_turn (uuid : string) (now : Time) (session role content : string)
  : ConversationTurn :=
  mkTurn uuid session 0 role content None None None None None now.

Definition with_metadata (provider model tier : option string) (score : option Z)
    (t : ConversationTurn) : ConversationTurn :=
  mkTurn (turn_id t) (turn_session t) (turn_number t) (turn_role t) (turn_content t)
    provider model tier score (token_estimate t) (turn_created_at t).

Definition with_content (content : string) (t : ConversationTurn) : ConversationTurn :=
  mkTurn (turn_id t) (turn_session t) (turn_number t) (turn_role t) content (turn_provider t)
    (turn_model t) (turn_tier t) (turn_complexity t) (token_estimate t) (turn_created_at t).
End records.
Arguments Memory : clear implicits.
Arguments ConversationTurn : clear implicits.

Record SessionSummary : Type := mkSummary {
  summary_session : string;
  turn_count : Z;
  first_at : string;
  last_at : string;
}.

(** ** Documents *)

Record MemoryDoc : Type := mkMemoryDoc {
  mdoc_id : string;
  mdoc_content : string;
  mdoc_weight : string;
  mdoc_created_at : string;
}.

Record TurnDoc : Type := mkTurnDoc {
  doc_id : string;
  doc_session : string;
  doc_number : Z;
  doc_role : string;
  doc_content : string;
  doc_provider : option string;
  doc_model : option string;
  doc_tier : option string;
  doc_complexity : option Z;
  doc_token_estimate : option Z;
  doc_created_at : string;
}.

Record BirthDoc : Type := mkBirthDoc {
  birth_id : string;
  birth_content : string;
  birth_created_at : string;
}.

Record ProtectedTopicDoc : Type := mkTopicDoc {
  topic_id : string;
  topic_doc_name : string;
  topic_entity_id : string;
  protection_kind : string;
  entry_count : Z;
  last_secret_kind : string;
  last_redacted_excerpt : string;
  last_preview : TriangleEthicPreview;
  topic_created_at : string;
  topic_updated_at : string;
}.

Record ProtectedTopicEntryDoc : Type := mkEntryDoc {
  entry_id : string;
  entry_topic_name : string;
  entry_session : string;
  entry_role : string;
  entry_source : string;
  entry_secret_kind : string;
  entry_redacted_excerpt : string;
  entry_preview : TriangleEthicPreview;
  ciphertext : string;
  entry_created_at : string;
}.

Record PreparedProtectedSecret (Time : Type) : Type := mkPrepared {
  prepared_id : string;
  plan : SecretMovePlan;
  prepared_session : string;
  prepared_role : string;
  prepared_source : string;
  prepared_ciphertext : string;
  prepared_at : Time;
}.
Arguments mkPrepared {Time}.
Arguments prepared_id {Time}.
Arguments plan {Time}.
Arguments prepared_session {Time}.
Arguments prepared_role {Time}.
Arguments prepared_source {Time}.
Arguments prepared_ciphertext {Time}.
Arguments prepared_at {Time}.

Record ProtectedTopicSummary (Time : Type) : Type := mkTopicSummary {
  tsum_topic_name : string;
  tsum_entity_id : string;
  tsum_entry_count : Z;
  tsum_updated_at : Time;
  tsum_last_secret_kind : SecretKind;
  tsum_last_redacted_excerpt : string;
  tsum_last_preview : TriangleEthicPreview;
}.
Arguments mkTopicSummary {Time}.

Record ProtectedTopicEntry (Time : Type) : Type := mkTopicEntry {
  tent_id : string;
  tent_topic_name : string;
  tent_session : string;
  tent_role : string;
  tent_source : string;
  tent_secret_kind : SecretKind;
  tent_redacted_excerpt : string;
  tent_preview : TriangleEthicPreview;
  tent_content : string;
  tent_created_at : Time;
}.
Arguments mkTopicEntry {Time}.

Inductive StoreError : Type :=
| Persistence (msg : string)
| BirthAlreadyRecorded
| InvalidData (msg : string)
| ProtectedTopic (msg : string)
| Migration (msg : string).

Definition store_error_str (e : StoreError) : string :=
  match e with
  | Persistence m => "Persistence error: " +:+ m
  | BirthAlreadyRecorded => "Birth already recorded"
  | InvalidData m => "Invalid data: " +:+ m
  | ProtectedTopic m => "Protected topic error: " +:+ m
  | Migration m => "Migration failed: " +:+ m
  end.

Definition parse_weight (value : string) : result MemoryWeight StoreError :=
  if decide (value = "ephemeral") then Ok Ephemeral
  else if decide (value = "distilled") then Ok Distilled
  else if decide (value = "crystallized") then Ok Crystallized
  else Err (InvalidData ("unknown weight: " +:+ value)).

Definition parse_secret_kind (value : string) : result SecretKind StoreError :=
  if decide (value = "api_key") then Ok ApiKey
  else if decide (value = "password") then Ok Password
  else if decide (value = "token") then Ok SecretToken
  else if decide (value = "credential") then Ok Credential
  else Err (InvalidData ("unknown secret kind: " +:+ value)).

(** [collect::<Result<Vec<_>>>()] *)
Fixpoint collect {A B E} (f : A → result B E) (l : list A) : result (list B) E :=
  match l with
  | [] => Ok []
  | x :: l => let? y := f x in let? ys := collect f l in Ok (y :: ys)
  end.

(** ** The store *)

(** The five tables, each a record store of its own type. *)
Record Tables (TB TM TT TP TE : Type) : Type := mkTables {
  births : TB;
  memory_entries : TM;
  conversation_turns : TT;
  protected_topics : TP;
  protected_entries : TE;
}.
Arguments mkTables {TB TM TT TP TE}.
Arguments births {TB TM TT TP TE}.
Arguments memory_entries {TB TM TT TP TE}.
Arguments conversation_turns {TB TM TT TP TE}.
Arguments protected_topics {TB TM TT TP TE}.
Arguments protected_entries {TB TM TT TP TE}.

Section store.
Context {Time TB TM TT TP TE : Type}.
Context `{RecordStore TB BirthDoc} `{RecordStore TM MemoryDoc} `{!RecordQuery TM MemoryDoc}.
Context `{RecordStore TT TurnDoc} `{!RecordQuery TT TurnDoc}.
Context `{RecordStore TP ProtectedTopicDoc} `{!RecordQuery TP ProtectedTopicDoc}.
Context `{RecordStore TE ProtectedTopicEntryDoc} `{!RecordQuery TE ProtectedTopicEntryDoc}.
Context (to_rfc3339 : Time → string) (parse_rfc3339 : string → result Time string).
Context (time_leb : Time → Time → bool).
Context (segments : string → string → list (string * string) * string).
Context (is_uuid : string → bool) (sha256 : string → string).
Context `{VaultHost} (print_payload : ProtectedSecretPayload → string).
Context (parse_payload : string → result ProtectedSecretPayload string).
(** The answer of the unlock provider, and the entity the store belongs to. *)
Context (unlock : result string CoreError) (store_entity : option string).

Notation Store := (Tables TB TM TT TP TE).
Notation S := (M Store StoreError).
Notation Turn := (ConversationTurn Time).
Notation Mem := (Memory Time).

(** *** Conversions *)

Definition turn_doc (t : Turn) : TurnDoc :=
  mkTurnDoc (turn_id t) (turn_session t) (turn_number t) (turn_role t) (turn_content t)
    (turn_provider t) (turn_model t) (turn_tier t) (turn_complexity t) (token_estimate t)
    (to_rfc3339 (turn_created_at t)).

Definition parse_timestamp (value : string) : result Time StoreError :=
  map_err InvalidData (parse_rfc3339 value).

Definition doc_turn (d : TurnDoc) : result Turn StoreError :=
  let? at_ := parse_timestamp (doc_created_at d) in
  Ok (mkTurn (doc_id d) (doc_session d) (doc_number d) (doc_role d) (doc_content d)
        (doc_provider d) (doc_model d) (doc_tier d) (doc_complexity d) (doc_token_estimate d) at_).

Definition memory_doc (m : Mem) : MemoryDoc :=
  mkMemoryDoc (memory_id m) (memory_content m) (weight_as_str (memory_weight m))
    (to_rfc3339 (memory_created_at m)).

Definition doc_memory (d : MemoryDoc) : result Mem StoreError :=
  let? w := parse_weight (mdoc_weight d) in
  let? at_ := parse_timestamp (mdoc_created_at d) in
  Ok (mkMemory (mdoc_id d) (mdoc_content d) w at_).

(** *** Calls of one table *)

Definition persisted {A} (r : result A string) : result A StoreError := map_err Persistence r.

Definition on_births {A} (m : M TB string A) : S A := λ s,
  let '(t, r) := m (births s) in
  (mkTables t (memory_entries s) (conversation_turns s) (protected_topics s) (protected_entries s),
   persisted r).
Definition on_memories {A} (m : M TM string A) : S A := λ s,
  let '(t, r) := m (memory_entries s) in
  (mkTables (births s) t (conversation_turns s) (protected_topics s) (protected_entries s),
   persisted r).
Definition on_turns {A} (m : M TT string A) : S A := λ s,
  let '(t, r) := m (conversation_turns s) in
  (mkTables (births s) (memory_entries s) t (protected_topics s) (protected_entries s),
   persisted r).
Definition on_topics {A} (m : M TP string A) : S A := λ s,
  let '(t, r) := m (protected_topics s) in
  (mkTables (births s) (memory_entries s) (conversation_turns s) t (protected_entries s),
   persisted r).
Definition on_entries {A} (m : M TE string A) : S A := λ s,
  let '(t, r) := m (protected_entries s) in
  (mkTables (births s) (memory_entries s) (conversation_turns s) (protected_topics s) t,
   persisted r).

Definition reads {T A} (f : T → result A string) : M T string A := λ t, (t, f t).

(** [record_exists] *)
Definition exists_record {T R} `{RecordStore T R} (id : string) : M T string bool :=
  reads (λ t, let? o := store_select id t in Ok (bool_decide (is_Some o))).

(** *** Secrets *)

Definition stable_secret_id (topic session role source created_at content : string) : string :=
  to_hex (sha256 (topic +:+ "|" +:+ session +:+ "|" +:+ role +:+ "|" +:+ source +:+ "|" +:+
                  created_at +:+ "|" +:+ content)).

Definition prepare_secret_capture (nonce entity_id session_id role content source : string)
    (created_at : Time) : result (option (PreparedProtectedSecret Time)) StoreError :=
  match plan_secret_move segments is_uuid (Some entity_id) content with
  | None => Ok None
  | Some plan =>
      let? ciphertext := map_err ProtectedTopic
        (encrypt_secret_payload print_payload unlock nonce plan session_id role source content
           (to_rfc3339 created_at)) in
      Ok (Some (mkPrepared
        (stable_secret_id (topic_name plan) session_id role source (to_rfc3339 created_at) content)
        plan session_id role source ciphertext created_at))
  end.

Definition updated_topic (entity_id : string) (existing : option ProtectedTopicDoc)
    (secret : PreparedProtectedSecret Time) : ProtectedTopicDoc :=
  let p := plan secret in
  let created_at := to_rfc3339 (prepared_at secret) in
  mkTopicDoc (topic_name p) (topic_name p) entity_id "secret"
    (match existing with Some t => entry_count t + 1 | None => 1 end)%Z
    (secret_kind_str (secret_kind p)) (redacted_excerpt p) (preview p)
    (match existing with Some t => topic_created_at t | None => created_at end) created_at.

Definition entry_of (secret : PreparedProtectedSecret Time) : ProtectedTopicEntryDoc :=
  let p := plan secret in
  mkEntryDoc (prepared_id secret) (topic_name p) (prepared_session secret) (prepared_role secret)
    (prepared_source secret) (secret_kind_str (secret_kind p)) (redacted_excerpt p) (preview p)
    (prepared_ciphertext secret) (to_rfc3339 (prepared_at secret)).

Definition persist_protected_secret (entity_id : string) (secret : PreparedProtectedSecret Time)
  : S unit :=
  let topic := topic_name (plan secret) in
  existing ← on_topics (reads (store_query (λ t, bool_decide (topic_doc_name t = topic))
                                 (λ _ _, true) (Some 1)));
  let updated := updated_topic entity_id (head existing) secret in
  on_topics (store_upsert (topic_id updated) updated) ;;
  known ← on_entries (exists_record (prepared_id secret));
  if (known : bool) then mret tt
  else on_entries (store_create (prepared_id secret) (entry_of secret)).

Definition prepare_turn_for_storage (nonce : string) (t : Turn) (source : string)
  : result (Turn * option (PreparedProtectedSecret Time)) StoreError :=
  match store_entity with
  | None => Ok (t, None)
  | Some entity_id =>
      let? secret := prepare_secret_capture nonce entity_id (turn_session t) (turn_role t)
                       (turn_content t) source (turn_created_at t) in
      match secret with
      | None => Ok (t, None)
      | Some secret => Ok (with_content (redacted_excerpt (plan secret)) t, Some secret)
      end
  end.

Definition persist_turn (nonce : string) (t : Turn) : S unit :=
  '(persisted_turn, secret) ← lift_result (prepare_turn_for_storage nonce t "conversation_turn");
  match secret with
  | Some secret =>
      entity_id ← lift_result (ok_or store_entity (ProtectedTopic "missing entity id"));
      persist_protected_secret entity_id secret
  | None => mret tt
  end ;;
  on_turns (store_create (turn_id persisted_turn) (turn_doc persisted_turn)).

Definition capture_secret_message (nonce : string) (now : Time)
    (entity_id session_id role content source : string) : S (option SecretMovePlan) :=
  secret ← lift_result (prepare_secret_capture nonce entity_id session_id role content source now);
  match secret with
  | None => mret None
  | Some secret => persist_protected_secret entity_id secret ;; mret (Some (plan secret))
  end.

Definition topic_summary (d : ProtectedTopicDoc) : result (ProtectedTopicSummary Time) StoreError :=
  let? at_ := parse_timestamp (topic_updated_at d) in
  let? kind := parse_secret_kind (last_secret_kind d) in
  Ok (mkTopicSummary (topic_doc_name d) (topic_entity_id d) (entry_count d) at_ kind
        (last_redacted_excerpt d) (last_preview d)).

Definition list_protected_topics (limit : nat) : S (list (ProtectedTopicSummary Time)) :=
  docs ← on_topics (reads (store_query (λ _, true)
           (λ a b, String.leb (topic_updated_at b) (topic_updated_at a)) (Some (Nat.max limit 1))));
  lift_result (collect topic_summary docs).

Definition open_entry (d : ProtectedTopicEntryDoc) : result (ProtectedTopicEntry Time) StoreError :=
  let? payload := map_err ProtectedTopic
    (decrypt_secret_payload parse_payload unlock (entry_topic_name d) (ciphertext d)) in
  let? kind := parse_secret_kind (entry_secret_kind d) in
  let? at_ := parse_timestamp (entry_created_at d) in
  Ok (mkTopicEntry (entry_id d) (entry_topic_name d) (entry_session d) (entry_role d)
        (payload_source payload) kind (entry_redacted_excerpt d) (entry_preview d)
        (payload_content payload) at_).

Definition protected_topic_entries (topic : string) (limit : nat)
  : S (list (ProtectedTopicEntry Time)) :=
  docs ← on_entries (reads (store_query (λ d, bool_decide (entry_topic_name d = topic))
           (λ a b, String.leb (entry_created_at b) (entry_created_at a)) (Some (Nat.max limit 1))));
  lift_result (collect open_entry docs).

(** *** Birth and memories *)

Definition has_birth : S bool := on_births (exists_record "primary").

Definition record_birth (m : Mem) : S unit :=
  born ← has_birth;
  if (born : bool) then fail BirthAlreadyRecorded
  else on_births (store_create "primary"
         (mkBirthDoc "primary" (memory_content m) (to_rfc3339 (memory_created_at m)))).

Definition insert_memory (m : Mem) : S unit :=
  known ← on_memories (exists_record (memory_id m));
  if (known : bool) then fail (InvalidData ("memory '" +:+ memory_id m +:+ "' already exists"))
  else on_memories (store_create (memory_id m) (memory_doc m)).

Definition insert_memory_or_ignore (m : Mem) : S bool :=
  known ← on_memories (exists_record (memory_id m));
  if (known : bool) then mret false
  else on_memories (store_create (memory_id m) (memory_doc m)) ;; mret true.

Definition by_mdoc_created (a b : MemoryDoc) : bool :=
  String.leb (mdoc_created_at a) (mdoc_created_at b).

Definition all_memories : S (list Mem) :=
  docs ← on_memories (reads (store_query (λ _, true) by_mdoc_created None));
  lift_result (collect doc_memory docs).

Definition recent_memories (limit : nat) : S (list Mem) :=
  docs ← on_memories (reads (store_query (λ _, true) (λ a b, by_mdoc_created b a)
                               (Some (Nat.max limit 1))));
  lift_result (collect doc_memory docs).

Definition count_memories : S nat := memories ← all_memories; mret (length memories).

Definition clear_memories : S nat :=
  memories ← all_memories;
  for_each memories (λ m, on_memories (store_delete (memory_id m))) ;;
  mret (length memories).

Definition contains_case_insensitive (content query : string) : bool :=
  contains (to_lowercase content) query.

Definition search_memories (query : string) (limit : nat) : S (list Mem) :=
  let query := to_lowercase query in
  memories ← all_memories;
  let found := filter (λ m, contains_case_insensitive (memory_content m) query) memories in
  mret (take limit
    (sort_by (λ a b, time_leb (memory_created_at b) (memory_created_at a)) found)).

(** *** Turns *)

Definition turn_exists (id : string) : S bool := on_turns (exists_record id).

Definition insert_turn (nonce : string) (t : Turn) : S unit :=
  known ← turn_exists (turn_id t);
  if (known : bool) then fail (InvalidData ("turn '" +:+ turn_id t +:+ "' already exists"))
  else persist_turn nonce t.

Definition insert_turn_or_ignore (nonce : string) (t : Turn) : S bool :=
  known ← turn_exists (turn_id t);
  if (known : bool) then mret false
  else persist_turn nonce t ;; mret true.

Definition by_doc_created (a b : TurnDoc) : bool :=
  String.leb (doc_created_at a) (doc_created_at b).

Definition all_turns : S (list Turn) :=
  docs ← on_turns (reads (store_query (λ _, true) by_doc_created None));
  lift_result (collect doc_turn docs).

Definition session_turn_count (session_id : string) : S nat :=
  turns ← all_turns;
  mret (length (filter (λ t, turn_session t = session_id) turns)).

Definition total_turn_count : S nat := turns ← all_turns; mret (length turns).

(** [ORDER BY turn_number DESC, created_at DESC] *)
Definition by_number_desc (a b : TurnDoc) : bool :=
  (doc_number b <? doc_number a)%Z ||
  ((doc_number a =? doc_number b)%Z && String.leb (doc_created_at b) (doc_created_at a)).

(** By number, then time, then identifier. *)
Definition chronological (a b : Turn) : bool :=
  match (turn_number a ?= turn_number b)%Z with
  | Lt => true
  | Gt => false
  | Eq =>
      if negb (time_leb (turn_created_at b) (turn_created_at a)) then true
      else if negb (time_leb (turn_created_at a) (turn_created_at b)) then false
      else String.leb (turn_id a) (turn_id b)
  end.

Definition recent_turns (session_id : string) (limit : nat) : S (list Turn) :=
  docs ← on_turns (reads (store_query (λ d, bool_decide (doc_session d = session_id))
                            by_number_desc (Some (Nat.max limit 1))));
  turns ← lift_result (collect doc_turn docs);
  mret (sort_by chronological turns).

Definition recent_turns_all_sessions (limit : nat) : S (list Turn) :=
  docs ← on_turns (reads (store_query (λ _, true) (λ a b, by_doc_created b a)
                            (Some (Nat.max limit 1))));
  lift_result (collect doc_turn docs).

Definition search_turns (query : string) (limit : nat) : S (list Turn) :=
  let query := to_lowercase query in
  turns ← all_turns;
  let found := filter (λ t, contains_case_insensitive (turn_content t) query) turns in
  mret (take limit
    (sort_by (λ a b, time_leb (turn_created_at b) (turn_created_at a)) found)).

(** One turn more of its session: the count, the first and the last time. *)
Definition note_turn (m : gmap string (Z * string * string)) (t : Turn)
  : gmap string (Z * string * string) :=
  let timestamp := to_rfc3339 (turn_created_at t) in
  let '(n, first, last) := default (0%Z, timestamp, timestamp) (m !! turn_session t) in
  <[turn_session t :=
      ((n + 1)%Z,
       if String.ltb timestamp first then timestamp else first,
       if String.ltb last timestamp then timestamp else last)]> m.

Definition summaries (turns : list Turn) : list SessionSummary :=
  let sessions := foldl note_turn ∅ turns in
  map (λ '(id, (n, first, last)), mkSummary id n first last)
    (sort_by (λ a b, String.leb a.1 b.1) (map_to_list sessions)).

Definition list_sessions (limit : nat) : S (list SessionSummary) :=
  turns ← all_turns;
  mret (take limit (sort_by (λ a b, String.leb (last_at b) (last_at a)) (summaries turns))).

(** ** Turns from the runtime and from the bus *)

(** [memory_consumer::persist_turn]: API keys are redacted first. *)
Definition persist_chat_turn (nonce : string) (t : Turn) : M Store string unit := λ s,
  let '(s, r) := insert_turn_or_ignore nonce
                   (with_content (redact_secrets segments (turn_content t)) t) s in
  (s, match r with Ok _ => Ok tt | Err e => Err (store_error_str e) end).

(** [spawn_memory_consumer]: a turn from the archive topic; errors are logged. *)
Definition consume_archived_turn (nonce : string) (t : Turn) (s : Store) : Store :=
  (insert_turn nonce (with_content (redact_secrets segments (turn_content t)) t) s).1.

Record ChatTopicEnvelope : Type := mkTopicEnvelope {
  topic_correlation_id : string;
  topic_session_id : string;
  topic_entity : string;
  topic_message : string;
  topic_selected_model : option string;
  topic_stage : string;
  topic_enriched_preprompt : option string;
  topic_id_context : option string;
  topic_superego_context : option string;
}.

(** The handler of [spawn_chat_topic_subscriber], its log apart: the identifier
    and the time of the turn, and the nonces and the time of the capture. *)
Definition chat_topic_turn (uuid : string) (now : Time) (env : ChatTopicEnvelope) : Turn :=
  let content := unwrap_or (topic_enriched_preprompt env) (topic_message env) in
  let content :=
    match plan_secret_move segments is_uuid (Some (topic_entity env)) (topic_message env) with
    | Some plan => redacted_excerpt plan
    | None => content
    end in
  with_metadata
    (Some ("chat-topic:" +:+ topic_correlation_id env +:+ "|id:" +:+
           unwrap_or (topic_id_context env) "unknown" +:+ "|superego:" +:+
           unwrap_or (topic_superego_context env) "unknown"))
    (topic_selected_model env) (Some "mentor-monitor") None
    (new_turn uuid now (topic_session_id env) "mentor_monitor" content).

Definition on_chat_topic (uuid nonce nonce' : string) (now now' : Time) (env : ChatTopicEnvelope)
    (s : Store) : Store :=
  if decide (topic_stage env ≠ "enriched") then s
  else
    let s :=
      match detect_api_keys (find_iter segments) (topic_message env) with
      | [] => s
      | _ => (capture_secret_message nonce now (topic_entity env) (topic_session_id env) "user"
                (topic_message env) "entity/mentor.input" s).1
      end in
    (insert_turn nonce' (chat_topic_turn uuid now' env) s).1.
End store.
