(* ===== verification/Archive.v ===== *)
(** * Archives and imports of memory ([crates/abigail-memory/src/archive.rs],
      [backup_import.rs])

    An archive is the transcript and the memories as JSON, encrypted to the key of
    the Entity: four bytes of version, four of header length, the header, and the
    ciphertext, which is bound to everything before it.  X25519, AES-GCM, HKDF,
    SHA-512, base64 and JSON are parameters; errors are their messages.  A store
    is one of [MemStore]; the nonces of the secrets it may encrypt while turns are
    inserted are an argument. *)

From S2P Require Import Prelude RustStr RecordStore Ledger SecureFs Vault Superego.
From S2P Require Import Protected MemStore.
From Stdlib Require Import ZArith Lia Ascii.
From stdpp Require Import base list strings gmap fin_maps pretty.

Open Scope rust_scope.

Definition ARCHIVE_VERSION_V1 : Z := 1.
Definition ARCHIVE_VERSION_V2 : Z := 2.
Definition ARCHIVE_NONCE_LEN : nat := 12.

Record SerializableMemory : Type := mkSerial {
  serial_id : string;
  serial_content : string;
  serial_weight : string;
  serial_created_at : string;
}.

Record ArchivePayload (Time : Type) : Type := mkArchive {
  archive_version : Z;
  exported_at : string;
  archive_turns : list (ConversationTurn Time);
  archive_memories : list SerializableMemory;
}.
Arguments mkArchive {Time}.
Arguments archive_version {Time}.
Arguments exported_at {Time}.
Arguments archive_turns {Time}.
Arguments archive_memories {Time}.

Record ArchiveHeaderV2 : Type := mkHeader {
  header_version : Z;
  key_exchange : string;
  key_derivation : string;
  cipher : string;
  ephemeral_public_key_base64 : string;
  nonce_base64 : string;
  header_exported_at : string;
}.

Record ImportStats : Type := mkImport {
  turns_imported : Z;
  turns_skipped : Z;
  memories_imported : Z;
  memories_skipped : Z;
}.

Record BackupStats : Type := mkStats {
  db_label : string;
  stats_turn_count : Z;
  stats_memory_count : Z;
  stats_session_count : Z;
  earliest : option string;
  latest : option string;
}.

(** ** Bytes *)

(** [u32::to_le_bytes] and [u32::from_le_bytes]. *)
Definition byte_of (n : Z) : ascii := ascii_of_N (Z.to_N (n `mod` 256)%Z).
Definition to_le_bytes (n : Z) : string :=
  String (byte_of n) (String (byte_of (n / 256)%Z) (String (byte_of (n / 65536)%Z)
    (String (byte_of (n / 16777216)%Z) EmptyString))).

Definition byte_val (c : ascii) : Z := Z.of_N (N_of_ascii c).
Definition from_le_bytes (s : string) : Z :=
  match s with
  | String a (String b (String c (String d _))) =>
      byte_val a + 256 * byte_val b + 65536 * byte_val c + 16777216 * byte_val d
  | _ => 0
  end%Z.

(** [s\[from..to\]] *)
Definition bytes_of (s : string) (from to : nat) : string := str_take (to - from) (str_drop from s).

(** The clamping of an X25519 secret: bits of the first and the last byte. *)
Definition clamp_first (c : ascii) : ascii := ascii_of_N (N.land (N_of_ascii c) 248).
Definition clamp_last (c : ascii) : ascii :=
  ascii_of_N (N.lor (N.land (N_of_ascii c) 127) 64).

Fixpoint clamp_at_end (s : string) : string :=
  match s with
  | EmptyString => EmptyString
  | String c EmptyString => String (clamp_last c) EmptyString
  | String c s => String c (clamp_at_end s)
  end.
Definition clamp (key : string) : string :=
  match key with
  | EmptyString => EmptyString
  | String c rest => clamp_at_end (String (clamp_first c) rest)
  end.

(** The external code in use: keys are the strings of their 32 bytes. *)
Class ArchiveHost (Time : Type) : Type := {
  sha512 : string → string;
  (** the Montgomery form of an ed25519 public key *)
  to_montgomery : string → string;
  x25519_public : string → string;
  diffie_hellman : string → string → string;
  archive_hkdf : string → string → string → string;
  (** key, nonce, message, associated data *)
  encrypt_aad : string → string → string → string → result string string;
  decrypt_aad : string → string → string → string → option string;
  base64_encode : string → string;
  base64_decode : string → result string string;
  print_archive : ArchivePayload Time → string;
  parse_archive : string → result (ArchivePayload Time) string;
  print_header : ArchiveHeaderV2 → string;
  parse_header : string → result ArchiveHeaderV2 string;
}.

Section crypto.
Context {Time : Type} `{ArchiveHost Time}.

Definition ed25519_pub_to_x25519 (pub : string) : string := to_montgomery pub.

Definition ed25519_priv_to_x25519 (signing_key : string) : string :=
  clamp (str_take 32 (sha512 signing_key)).

Definition derive_archive_key (shared : string) : string :=
  archive_hkdf "abigail-archive-v2" shared "archive:aead-key".

(** [encrypt] of [export]: the bytes of the archive. *)
Definition seal_archive (pub eph_secret nonce : string) (payload : ArchivePayload Time)
  : result string string :=
  let json := print_archive payload in
  let aead_key := derive_archive_key (diffie_hellman eph_secret (ed25519_pub_to_x25519 pub)) in
  let header := print_header (mkHeader ARCHIVE_VERSION_V2 "x25519" "hkdf-sha256" "aes-256-gcm"
    (base64_encode (x25519_public eph_secret)) (base64_encode nonce) (exported_at payload)) in
  let header_len := Z.of_nat (String.length header) in
  if decide (u32_modulus ≤ header_len)%Z then Err "Archive header is too large"
  else
    let out := to_le_bytes ARCHIVE_VERSION_V2 +:+ to_le_bytes header_len +:+ header in
    let? ciphertext := map_err (λ e, "AES-GCM encrypt failed: " +:+ e)
                         (encrypt_aad aead_key nonce json out) in
    Ok (out +:+ ciphertext).

Definition decrypt_archive_v1 (data x_secret : string) : result string string :=
  if decide (String.length data < 4 + 32 + ARCHIVE_NONCE_LEN) then Err "Archive file too short"
  else
    let shared := diffie_hellman x_secret (bytes_of data 4 36) in
    ok_or (decrypt_aad shared (bytes_of data 36 (36 + ARCHIVE_NONCE_LEN))
             (str_drop (36 + ARCHIVE_NONCE_LEN) data) "")
      "Decryption failed - wrong recovery key?".

Definition check (b : bool) (e : string) : result unit string := if b then Ok tt else Err e.

Definition decrypt_archive_v2 (data x_secret : string) : result string string :=
  let? _ := check (8 <=? String.length data)%nat "Archive v2 file too short" in
  let header_len := Z.to_nat (from_le_bytes (str_drop 4 data)) in
  let header_end := 8 + header_len in
  let? _ := check (header_end <? String.length data)%nat "Archive v2 header truncated" in
  let? header := parse_header (bytes_of data 8 header_end) in
  let? _ := check (header_version header =? ARCHIVE_VERSION_V2)%Z
              ("Archive header version mismatch: " +:+ pretty (header_version header)) in
  let? _ := check (bool_decide (key_exchange header = "x25519") &&
                   bool_decide (key_derivation header = "hkdf-sha256") &&
                   bool_decide (cipher header = "aes-256-gcm"))
              "Unsupported archive v2 algorithm suite" in
  let? eph := base64_decode (trim (ephemeral_public_key_base64 header)) in
  let? _ := check (String.length eph =? 32)%nat
              "Archive v2 ephemeral public key must be 32 bytes" in
  let? nonce := base64_decode (trim (nonce_base64 header)) in
  let? _ := check (String.length nonce =? ARCHIVE_NONCE_LEN)%nat
              ("Archive v2 nonce must be " +:+ pretty ARCHIVE_NONCE_LEN +:+ " bytes") in
  let aead_key := derive_archive_key (diffie_hellman x_secret eph) in
  ok_or (decrypt_aad aead_key nonce (str_drop header_end data) (str_take header_end data))
    "Decryption failed - wrong recovery key or tampered archive".

(** [restore], up to the payload. *)
Definition open_archive (data recovery_key_base64 : string) : result (ArchivePayload Time) string :=
  let? _ := check (4 <=? String.length data)%nat "Archive file too short" in
  let version := from_le_bytes data in
  let? priv_bytes := base64_decode (trim recovery_key_base64) in
  let? _ := check (String.length priv_bytes =? 32)%nat
              "Recovery key must be 32 bytes (base64-encoded)" in
  let x_secret := ed25519_priv_to_x25519 priv_bytes in
  let? plaintext :=
    (if decide (version = ARCHIVE_VERSION_V1) then decrypt_archive_v1 data x_secret
     else if decide (version = ARCHIVE_VERSION_V2) then decrypt_archive_v2 data x_secret
     else Err ("Unsupported archive version: " +:+ pretty version)) in
  parse_archive plaintext.
End crypto.

Section store.
Context {Time TB TM TT TP TE : Type} `{ArchiveHost Time}.
Context `{RecordStore TB BirthDoc} `{RecordStore TM MemoryDoc} `{!RecordQuery TM MemoryDoc}.
Context `{RecordStore TT TurnDoc} `{!RecordQuery TT TurnDoc}.
Context `{RecordStore TP ProtectedTopicDoc} `{!RecordQuery TP ProtectedTopicDoc}.
Context `{RecordStore TE ProtectedTopicEntryDoc} `{!RecordQuery TE ProtectedTopicEntryDoc}.
Context (to_rfc3339 : Time → string) (parse_rfc3339 : string → result Time string).
Context (segments : string → string → list (string * string) * string).
Context (is_uuid : string → bool) (sha256 : string → string).
Context `{VaultHost} (print_payload : ProtectedSecretPayload → string).
Context (unlock : result string CoreError) (store_entity : option string).

Notation Store := (Tables TB TM TT TP TE).
Notation S := (M Store string).
Notation insert_turn := (insert_turn (TB:=TB) (TM:=TM) to_rfc3339 segments is_uuid sha256
  print_payload unlock store_entity).
Notation insert_turn_or_ignore := (insert_turn_or_ignore (TB:=TB) (TM:=TM) to_rfc3339 segments
  is_uuid sha256 print_payload unlock store_entity).
Notation insert_memory := (insert_memory (TB:=TB) (TT:=TT) (TP:=TP) (TE:=TE) to_rfc3339).
Notation insert_memory_or_ignore :=
  (insert_memory_or_ignore (TB:=TB) (TT:=TT) (TP:=TP) (TE:=TE) to_rfc3339).
Notation all_turns := (all_turns (TB:=TB) (TM:=TM) (TP:=TP) (TE:=TE) parse_rfc3339).
Notation all_memories := (all_memories (TB:=TB) (TT:=TT) (TP:=TP) (TE:=TE) parse_rfc3339).

(** [?] on an error of the store. *)
Definition on_store {A} (m : M Store StoreError A) : S A := λ s,
  let '(s, r) := m s in (s, map_err store_error_str r).

Definition serial_of (m : Memory Time) : SerializableMemory :=
  mkSerial (memory_id m) (memory_content m) (weight_as_str (memory_weight m))
    (to_rfc3339 (memory_created_at m)).

(** [export], up to the write of the file: what the public key file holds, the
    ephemeral secret, the nonce and the time. *)
Definition export (pub_bytes : result string string) (eph_secret nonce now : string) : S string :=
  pub ← lift_result pub_bytes;
  lift_result (check (String.length pub =? 32)%nat "Invalid public key file (expected 32 bytes)") ;;
  turns ← on_store all_turns;
  memories ← on_store all_memories;
  lift_result (seal_archive pub eph_secret nonce
                 (mkArchive ARCHIVE_VERSION_V2 now turns (map serial_of memories))).

Definition restored_memory (now : Time) (m : SerializableMemory) : Memory Time :=
  mkMemory (serial_id m) (serial_content m)
    (if decide (serial_weight m = "distilled") then Distilled
     else if decide (serial_weight m = "crystallized") then Crystallized
     else Ephemeral)
    (match parse_rfc3339 (serial_created_at m) with Ok t => t | Err _ => now end).

(** [for turn in .. { if store.insert_turn(turn).is_ok() { n += 1 } }] *)
Fixpoint restore_turns (nonces : nat → string) (l : list (ConversationTurn Time)) (n : nat) (s : Store)
  : Store * nat :=
  match l with
  | [] => (s, n)
  | t :: l =>
      let '(s, r) := insert_turn (nonces (length l)) t s in
      restore_turns nonces l (if is_ok r then n + 1 else n) s
  end.

Fixpoint restore_memories (now : Time) (l : list SerializableMemory) (n : nat) (s : Store)
  : Store * nat :=
  match l with
  | [] => (s, n)
  | m :: l =>
      let '(s, r) := insert_memory (restored_memory now m) s in
      restore_memories now l (if is_ok r then n + 1 else n) s
  end.

Definition restore_all (nonces : nat → string) (now : Time) (payload : ArchivePayload Time)
  : S (nat * nat) := λ s,
  let '(s, turns) := restore_turns nonces (archive_turns payload) 0 s in
  let '(s, mems) := restore_memories now (archive_memories payload) 0 s in
  (s, Ok (turns, mems)).

(** [restore]: how many turns and memories were imported. *)
Definition restore (data recovery_key_base64 : string) (nonces : nat → string) (now : Time)
  : S (nat * nat) :=
  payload ← lift_result (open_archive data recovery_key_base64);
  restore_all nonces now payload.

(** ** Imports from another store *)

Fixpoint import_turns (nonces : nat → string) (l : list (ConversationTurn Time)) (imported skipped : Z)
  : S (Z * Z) :=
  match l with
  | [] => mret (imported, skipped)
  | t :: l =>
      new ← on_store (insert_turn_or_ignore (nonces (length l)) t);
      if (new : bool) then import_turns nonces l (imported + 1)%Z skipped
      else import_turns nonces l imported (skipped + 1)%Z
  end.

Fixpoint import_memories (l : list (Memory Time)) (imported skipped : Z) : S (Z * Z) :=
  match l with
  | [] => mret (imported, skipped)
  | m :: l =>
      new ← on_store (insert_memory_or_ignore m);
      if (new : bool) then import_memories l (imported + 1)%Z skipped
      else import_memories l imported (skipped + 1)%Z
  end.

Definition import_from_store (nonces : nat → string) (source : Store) : S ImportStats :=
  turns ← lift_result (on_store all_turns source).2;
  memories ← lift_result (on_store all_memories source).2;
  '(ti, ts) ← import_turns nonces turns 0 0;
  '(mi, ms) ← import_memories memories 0 0;
  mret (mkImport ti ts mi ms).

Definition least (l : list string) : option string :=
  foldr (λ x acc, match acc with
                  | Some y => Some (if String.leb x y then x else y)
                  | None => Some x
                  end) None l.
Definition greatest (l : list string) : option string :=
  foldr (λ x acc, match acc with
                  | Some y => Some (if String.leb x y then y else x)
                  | None => Some x
                  end) None l.

Definition preview_backup_store (label : string) : S BackupStats :=
  turns ← on_store all_turns;
  memories ← on_store all_memories;
  let stamps := map (λ t, to_rfc3339 (turn_created_at t)) turns in
  mret (mkStats label (Z.of_nat (length turns)) (Z.of_nat (length memories))
          (Z.of_nat (length (remove_dups (map turn_session turns))))
          (least stamps) (greatest stamps)).
End store.
