(* ===== verification/ArchiveSpec.v ===== *)
(** * Archives and imports of memory: correctness
    What is exported can be restored with the recovery key, to the same turns and
    memories; an import counts every record once and a second one adds nothing. *)

From S2P Require Import Prelude RustStr RecordStore Ledger SecureFs Vault VaultSpec Superego.
From S2P Require Import Protected MemStore MemSpec Archive.
From Stdlib Require Import ZArith Lia Ascii.
From stdpp Require Import base list strings gmap fin_maps pretty.

Open Scope rust_scope.

Class ArchiveLaws (Time : Type) `{ArchiveHost Time} : Prop := {
  aad_roundtrip k n m aad c : encrypt_aad k n m aad = Ok c → decrypt_aad k n c aad = Some m;
  aad_tag k n m aad c : encrypt_aad k n m aad = Ok c → 16 ≤ String.length c;
  b64_roundtrip s : base64_decode (trim (base64_encode s)) = Ok s;
  archive_print_parse p : parse_archive (print_archive p) = Ok p;
  header_print_parse h : parse_header (print_header h) = Ok h;
  dh_commutes a b : diffie_hellman a (x25519_public b) = diffie_hellman b (x25519_public a);
  public_length a : String.length (x25519_public a) = 32;
}.

(** ** Bytes *)

Lemma byte_val_of n : byte_val (byte_of n) = (n `mod` 256)%Z.
Proof.
  unfold byte_val, byte_of. pose proof (Z.mod_pos_bound n 256 ltac:(lia)).
  rewrite N_ascii_embedding by lia. lia.
Qed.

Lemma from_to_le_bytes n rest :
  (0 ≤ n < u32_modulus)%Z → from_le_bytes (to_le_bytes n +:+ rest) = n.
Proof.
  unfold u32_modulus. intros Hn. unfold to_le_bytes. simpl. rewrite !byte_val_of.
  assert (n / 256 / 256 = n / 65536)%Z as E1 by (by rewrite Z.div_div).
  assert (n / 65536 / 256 = n / 16777216)%Z as E2 by (by rewrite Z.div_div).
  pose proof (Z.div_mod n 256 ltac:(lia)) as H1.
  pose proof (Z.div_mod (n / 256) 256 ltac:(lia)) as H2.
  pose proof (Z.div_mod (n / 65536) 256 ltac:(lia)) as H3.
  assert (0 ≤ n / 16777216 < 256)%Z as H4.
  { split; [apply Z.div_pos; lia|apply Z.div_lt_upper_bound; lia]. }
  rewrite (Z.mod_small (n / 16777216)) by lia. lia.
Qed.

Lemma length_to_le_bytes n : String.length (to_le_bytes n) = 4.
Proof. done. Qed.

Section seal.
Context {Time : Type} `{ArchiveLaws Time}.
Implicit Types payload : ArchivePayload Time.

(** An archive opens with the recovery key of the public key it was sealed to. *)
Lemma archive_opens pub recovery eph nonce payload data :
  to_montgomery pub = x25519_public (ed25519_priv_to_x25519 recovery) →
  String.length recovery = 32 → String.length nonce = ARCHIVE_NONCE_LEN →
  seal_archive pub eph nonce payload = Ok data →
  open_archive data (base64_encode recovery) = Ok payload.
Proof.
  intros Hpub Hrec Hnonce. unfold seal_archive.
  set (h := print_header _). set (out := to_le_bytes ARCHIVE_VERSION_V2 +:+ _).
  case_decide as Hlen; [done|].
  destruct (encrypt_aad _ _ _ _) as [c|] eqn:Hc; [|done]. simpl. intros [= <-].
  pose proof (aad_tag _ _ _ _ _ Hc) as Htag.
  assert (String.length out = 8 + String.length h) as Hout
    by (unfold out; rewrite !str_length_app, !length_to_le_bytes; lia).
  assert (String.length (out +:+ c) = 8 + String.length h + String.length c) as Hdata
    by (by rewrite str_length_app, Hout).
  assert (from_le_bytes (out +:+ c) = ARCHIVE_VERSION_V2) as Hversion.
  { unfold out. rewrite <- !str_app_assoc. by rewrite from_to_le_bytes. }
  assert (from_le_bytes (str_drop 4 (out +:+ c)) = Z.of_nat (String.length h)) as Hhl.
  { unfold out. rewrite <- !str_app_assoc.
    rewrite <- (length_to_le_bytes ARCHIVE_VERSION_V2), str_drop_app.
    rewrite from_to_le_bytes; lia. }
  unfold open_archive, check. rewrite (leb_correct 4) by lia. cbn [result_bind].
  rewrite b64_roundtrip. cbn [result_bind]. rewrite Hrec. cbn [Nat.eqb result_bind].
  rewrite Hversion, decide_False, decide_True by done.
  unfold decrypt_archive_v2, check. rewrite (leb_correct 8) by lia. cbn [result_bind].
  rewrite Hhl, Nat2Z.id. rewrite (proj2 (Nat.ltb_lt _ _)) by lia. cbn [result_bind].
  assert (bytes_of (out +:+ c) 8 (8 + String.length h) = h) as Hh.
  { unfold bytes_of. replace (8 + String.length h - 8) with (String.length h) by lia.
    unfold out. rewrite !str_app_assoc. rewrite <- (str_app_assoc _ h c).
    change 8 with (String.length (to_le_bytes ARCHIVE_VERSION_V2 +:+
                                  to_le_bytes (Z.of_nat (String.length h)))).
    by rewrite str_drop_app, str_take_app. }
  rewrite Hh. unfold h. rewrite header_print_parse. cbn [result_bind].
  cbn [header_version key_exchange key_derivation cipher ephemeral_public_key_base64 nonce_base64].
  rewrite !bool_decide_true by done. cbn [andb Z.eqb result_bind]. simpl (_ =? _)%Z. cbn [result_bind].
  rewrite b64_roundtrip. cbn [result_bind]. rewrite public_length. cbn [Nat.eqb result_bind].
  rewrite b64_roundtrip. cbn [result_bind]. rewrite Hnonce. cbn [Nat.eqb ARCHIVE_NONCE_LEN result_bind].
  fold h. rewrite <- Hout, str_drop_app, str_take_app.
  unfold ed25519_pub_to_x25519 in Hc. rewrite Hpub, dh_commutes in Hc.
  rewrite (aad_roundtrip _ _ _ _ _ Hc). simpl. apply archive_print_parse.
Qed.
End seal.

(** ** Inserting a list of records *)

Section insert_all.
Context {A D : Type} (key : A → string) (doc : A → D).

Definition insert_all (l : list A) (m : gmap string D) : gmap string D :=
  foldl (λ m x, <[key x := doc x]> m) m l.

Lemma insert_all_other l m k : k ∉ map key l → insert_all l m !! k = m !! k.
Proof.
  revert m. induction l as [|x l IH]; intros m Hk; [done|]. simpl in *.
  rewrite not_elem_of_cons in Hk. unfold insert_all. simpl. fold (insert_all l (<[key x:=doc x]> m)).
  rewrite IH by naive_solver. rewrite lookup_insert_ne by naive_solver. done.
Qed.

Lemma insert_all_in l m x : NoDup (map key l) → x ∈ l → insert_all l m !! key x = Some (doc x).
Proof.
  revert m. induction l as [|y l IH]; intros m Hnd Hx; [by apply not_elem_of_nil in Hx|].
  simpl in Hnd. apply NoDup_cons in Hnd as [Hy Hnd].
  unfold insert_all. simpl. fold (insert_all l (<[key y:=doc y]> m)).
  apply elem_of_cons in Hx as [->|Hx]; [|by apply IH].
  rewrite insert_all_other by done. by rewrite lookup_insert_eq.
Qed.

(** Records read from a table and written to another that has none of them. *)
Lemma insert_all_union l (src m : gmap string D) :
  (∀ k d, src !! k = Some d → ∃ x, d = doc x ∧ key x = k) →
  NoDup (map key l) → (∀ x, x ∈ l ↔ src !! key x = Some (doc x)) →
  insert_all l m = src ∪ m.
Proof.
  intros Hsrc Hnd Hl. apply map_eq. intros k. rewrite lookup_union.
  destruct (src !! k) as [d|] eqn:Hk.
  - destruct (Hsrc k d Hk) as (x & -> & <-). rewrite insert_all_in; [|done|by apply Hl].
    by destruct (m !! key x).
  - rewrite left_id_L by apply _. apply insert_all_other. intros (x & -> & Hx)%list_elem_of_fmap.
    apply Hl in Hx. congruence.
Qed.
End insert_all.

Section store.
Context {Time TB TM TT TP TE : Type} `{ArchiveLaws Time}.
Context `{RecordStore TB BirthDoc}.
Context `{RecordStoreLaws TM MemoryDoc} `{!RecordQuery TM MemoryDoc} `{!RecordQueryLaws TM MemoryDoc}.
Context `{RecordStoreLaws TT TurnDoc} `{!RecordQuery TT TurnDoc} `{!RecordQueryLaws TT TurnDoc}.
Context `{RecordStore TP ProtectedTopicDoc} `{!RecordQuery TP ProtectedTopicDoc}.
Context `{RecordStore TE ProtectedTopicEntryDoc} `{!RecordQuery TE ProtectedTopicEntryDoc}.
Context (to_rfc3339 : Time → string) (parse_rfc3339 : string → result Time string).
Context (segments : string → string → list (string * string) * string).
Context (is_uuid : string → bool) (sha256 : string → string).
Context `{VaultHost} (print_payload : ProtectedSecretPayload → string).
Context (unlock : result string CoreError) (store_entity : option string).
Context (parse_print : ∀ t, parse_rfc3339 (to_rfc3339 t) = Ok t).

Notation Store := (Tables TB TM TT TP TE).
Notation turns_of s := (contents (conversation_turns s) : gmap string TurnDoc).
Notation memories_of s := (contents (memory_entries s) : gmap string MemoryDoc).
Notation turn_doc := (turn_doc to_rfc3339).
Notation memory_doc := (memory_doc to_rfc3339).
Notation insert_turn := (insert_turn (TB:=TB) (TM:=TM) to_rfc3339 segments is_uuid sha256
  print_payload unlock store_entity).
Notation insert_memory := (insert_memory (TB:=TB) (TT:=TT) (TP:=TP) (TE:=TE) to_rfc3339).
Notation restore_turns := (restore_turns (TB:=TB) (TM:=TM) to_rfc3339 segments is_uuid sha256
  print_payload unlock store_entity).
Notation restore_memories :=
  (restore_memories (TB:=TB) (TT:=TT) (TP:=TP) (TE:=TE) to_rfc3339 parse_rfc3339).

(** No secret is found in the turn, for the entity of the target store. *)
Definition no_secret (t : ConversationTurn Time) : Prop :=
  ∀ e, store_entity = Some e → plan_secret_move segments is_uuid (Some e) (turn_content t) = None.

Lemma insert_turn_fresh `{!ReliableStore TT TurnDoc} nonce t (s : Store) :
  no_secret t → turns_of s !! turn_id t = None →
  ∃ s', insert_turn nonce t s = (s', Ok tt) ∧
    turns_of s' = <[turn_id t := turn_doc t]> (turns_of s) ∧
    memory_entries s' = memory_entries s.
Proof.
  intros Hsec Hn. unfold MemStore.insert_turn, turn_exists, exists_record, reads, on_turns.
  rewrite M_bind_eq. destruct (reliable_select (turn_id t) (conversation_turns s)) as [o Ho].
  rewrite Ho. apply store_select_spec in Ho as ->. rewrite Hn. simpl.
  assert (prepare_turn_for_storage to_rfc3339 segments is_uuid sha256 print_payload unlock
    store_entity nonce t "conversation_turn" = Ok (t, None)) as Hprep.
  { unfold prepare_turn_for_storage. destruct store_entity as [e|] eqn:He; [|done].
    unfold prepare_secret_capture. by rewrite Hsec. }
  unfold persist_turn. rewrite M_bind_eq. unfold lift_result. rewrite Hprep.
  rewrite M_bind_eq. cbn [mret M_ret]. unfold on_turns. simpl.
  destruct (reliable_create (turn_id t) (turn_doc t) (conversation_turns s)) as [t' Ht']; [done|].
  rewrite Ht'. simpl. eexists. split_and!; [done| |done].
  apply store_create_spec in Ht'. simpl. apply Ht'.
Qed.

Lemma restore_turns_fresh `{!ReliableStore TT TurnDoc} nonces l n (s : Store) :
  Forall no_secret l → NoDup (map turn_id l) →
  (∀ t, t ∈ l → turns_of s !! turn_id t = None) →
  ∃ s', restore_turns nonces l n s = (s', n + length l) ∧
    turns_of s' = insert_all turn_id turn_doc l (turns_of s) ∧
    memory_entries s' = memory_entries s.
Proof.
  revert n s. induction l as [|t l IH]; intros n s Hsec Hnd Hfresh.
  { exists s. by rewrite Nat.add_0_r. }
  apply Forall_cons in Hsec as [Ht Hsec]. simpl in Hnd. apply NoDup_cons in Hnd as [Hnt Hnd].
  destruct (insert_turn_fresh (nonces (length l)) t s) as (s1 & Hi & Hturns & Hmem);
    [done|apply Hfresh, list_elem_of_here|].
  destruct (IH (n + 1) s1) as (s2 & Hr & Hturns2 & Hmem2); [done..| |].
  { intros u Hu. rewrite Hturns, lookup_insert_ne.
    - apply Hfresh. by apply list_elem_of_further.
    - intros He. apply Hnt. rewrite He. apply list_elem_of_fmap. eauto. }
  exists s2. simpl. rewrite Hi. simpl. rewrite Hr. split_and!.
  - f_equal. lia.
  - rewrite Hturns2, Hturns. done.
  - congruence.
Qed.

Lemma insert_memory_fresh `{!ReliableStore TM MemoryDoc} m (s : Store) :
  memories_of s !! memory_id m = None →
  ∃ s', insert_memory m s = (s', Ok tt) ∧
    memories_of s' = <[memory_id m := memory_doc m]> (memories_of s) ∧
    conversation_turns s' = conversation_turns s.
Proof.
  intros Hn. unfold MemStore.insert_memory, exists_record, reads, on_memories.
  rewrite M_bind_eq. destruct (reliable_select (memory_id m) (memory_entries s)) as [o Ho].
  rewrite Ho. apply store_select_spec in Ho as ->. rewrite Hn. simpl.
  destruct (reliable_create (memory_id m) (memory_doc m) (memory_entries s)) as [t' Ht']; [done|].
  unfold on_memories. simpl. rewrite Ht'. simpl. eexists. split_and!; [done| |done].
  apply store_create_spec in Ht'. simpl. apply Ht'.
Qed.

Lemma restored_serial now m : restored_memory parse_rfc3339 now (serial_of to_rfc3339 m) = m.
Proof.
  unfold restored_memory, serial_of. simpl. rewrite parse_print. by destruct m as [? ? [] ?].
Qed.

Lemma restore_memories_fresh `{!ReliableStore TM MemoryDoc} now l n (s : Store) :
  NoDup (map memory_id l) → (∀ m, m ∈ l → memories_of s !! memory_id m = None) →
  ∃ s', restore_memories now (map (serial_of to_rfc3339) l) n s = (s', n + length l) ∧
    memories_of s' = insert_all memory_id memory_doc l (memories_of s) ∧
    conversation_turns s' = conversation_turns s.
Proof.
  revert n s. induction l as [|m l IH]; intros n s Hnd Hfresh.
  { exists s. by rewrite Nat.add_0_r. }
  simpl in Hnd. apply NoDup_cons in Hnd as [Hnm Hnd].
  destruct (insert_memory_fresh m s) as (s1 & Hi & Hmems & Hturns);
    [apply Hfresh, list_elem_of_here|].
  destruct (IH (n + 1) s1) as (s2 & Hr & Hmems2 & Hturns2); [done| |].
  { intros u Hu. rewrite Hmems, lookup_insert_ne.
    - apply Hfresh. by apply list_elem_of_further.
    - intros He. apply Hnm. rewrite He. apply list_elem_of_fmap. eauto. }
  exists s2. simpl. rewrite restored_serial, Hi. simpl. rewrite Hr. split_and!.
  - f_equal. lia.
  - rewrite Hmems2, Hmems. done.
  - congruence.
Qed.
(** What a store holds under the id of its record. *)
Definition archivable (s : Store) : Prop :=
  (∀ k d, turns_of s !! k = Some d → ∃ t, d = turn_doc t ∧ turn_id t = k) ∧
  (∀ k d, memories_of s !! k = Some d → ∃ m, d = memory_doc m ∧ memory_id m = k).

Lemma doc_turn_doc t : doc_turn parse_rfc3339 (turn_doc t) = Ok t.
Proof.
  unfold doc_turn, parse_timestamp, MemStore.turn_doc. simpl. rewrite parse_print. by destruct t.
Qed.

Lemma doc_memory_doc m : doc_memory parse_rfc3339 (memory_doc m) = Ok m.
Proof.
  unfold doc_memory, parse_timestamp, MemStore.memory_doc. simpl. rewrite parse_print.
  by destruct m as [? ? [] ?].
Qed.

(** The rows of a table, read back as records. *)
Lemma rows_read {A D E} (key : A → string) (doc : A → D) (of_doc : D → result A E)
    (m : gmap string D) docs l :
  (∀ x, of_doc (doc x) = Ok x) →
  (∀ k d, m !! k = Some d → ∃ x, d = doc x ∧ key x = k) →
  docs ≡ₚ (map_to_list m).*2 → collect of_doc docs = Ok l →
  NoDup (map key l) ∧ (∀ x, x ∈ l ↔ m !! key x = Some (doc x)) ∧ length l = size m.
Proof.
  intros Hod Hm Hp Hl%collect_Forall2.
  assert (docs = map doc l) as ->.
  { revert Hm Hp. clear -Hl Hod. intros Hm Hp.
    assert (∀ d, d ∈ docs → ∃ x, d = doc x) as Hdocs.
    { intros d Hd. rewrite Hp in Hd. apply list_elem_of_fmap in Hd as ([k d'] & -> & Hd).
      apply elem_of_map_to_list in Hd. destruct (Hm _ _ Hd) as (x & -> & _). eauto. }
    clear Hp Hm. induction Hl as [|d x docs l Hx Hl IH]; [done|]. simpl. f_equal.
    - destruct (Hdocs d) as (y & ->); [apply list_elem_of_here|]. rewrite Hod in Hx. congruence.
    - apply IH. intros e He. apply Hdocs. by apply list_elem_of_further. }
  assert (Permutation (map (λ x, (key x, doc x)) l) (map_to_list m)) as Hkv.
  { assert (∀ kd, kd ∈ map_to_list m → kd.1 = kd.1 ∧ ∃ x, kd = (key x, doc x)) as Hall.
    { intros [k d] Hd. apply elem_of_map_to_list in Hd.
      destruct (Hm _ _ Hd) as (x & -> & <-). eauto. }
    set (of_kv := λ d : D, match of_doc d with Ok x => (key x, doc x) | Err _ => ("", d) end).
    assert (map of_kv (map doc l) = map (λ x, (key x, doc x)) l) as <-.
    { rewrite map_map. apply map_ext. intros x. unfold of_kv. by rewrite Hod. }
    assert (map of_kv (map_to_list m).*2 = map_to_list m) as Hid.
    { clear -Hall Hod. induction (map_to_list m) as [|kd kvs IH]; [done|]. simpl. f_equal.
      - destruct (Hall kd) as (_ & x & ->); [apply list_elem_of_here|]. simpl.
        unfold of_kv. by rewrite Hod.
      - apply IH. intros ? ?. by apply Hall, list_elem_of_further. }
    rewrite <- Hid. by apply Permutation_map. }
  split_and!.
  - assert (map key l = (map (λ x, (key x, doc x)) l).*1) as ->.
    { clear. induction l as [|x l IH]; [done|]. cbn. by f_equal. }
    rewrite Hkv. apply NoDup_fst_map_to_list.
  - intros x. rewrite <- elem_of_map_to_list, <- Hkv, list_elem_of_fmap. split; [by eauto|].
    intros (y & Hy & Hin). injection Hy as _ Hd.
    assert (Ok x = Ok y :> result A E) as [= ->] by (by rewrite <- !Hod, Hd). done.
  - rewrite <- (length_map (λ x, (key x, doc x))), Hkv. apply length_map_to_list.
Qed.

Lemma filter_all {A} (l : list A) : filter (λ _, true) l = l.
Proof. induction l as [|x l IH]; [done|]. rewrite filter_cons_True by done. by rewrite IH at 1. Qed.

Lemma by_string_total {A} (f : A → string) x y :
  String.leb (f x) (f y) ∨ String.leb (f y) (f x).
Proof. destruct (string_leb_total (f x) (f y)) as [->| ->]; auto. Qed.

Lemma by_string_trans {A} (f : A → string) x y z :
  String.leb (f x) (f y) → String.leb (f y) (f z) → String.leb (f x) (f z).
Proof.
  intros Hxy%Is_true_true Hyz%Is_true_true. apply Is_true_true. eauto using string_leb_trans.
Qed.

Lemma all_turns_spec (s s' : Store) l :
  archivable s → all_turns (TB:=TB) (TM:=TM) (TP:=TP) (TE:=TE) parse_rfc3339 s = (s', Ok l) →
  s' = s ∧ NoDup (map turn_id l) ∧ (∀ t, t ∈ l ↔ turns_of s !! turn_id t = Some (turn_doc t)) ∧
  length l = size (turns_of s).
Proof.
  intros [Ha _] [(s1 & docs & [-> Hq]%on_turns_reads & [= <- Hl])|(e & _ & [=])]%M_bind_inv.
  destruct (store_query _ _ _ _) as [docs'|] eqn:Hd; [|done]. injection Hq as ->.
  split; [done|]. eapply rows_read; [apply doc_turn_doc|done| |done].
  apply store_query_spec in Hd as (rest & Hperm & _ & _ & ->);
    [|apply by_string_total|apply by_string_trans].
  by rewrite app_nil_r, filter_all in Hperm.
Qed.

Lemma on_memories_reads {A} (f : TM → result A string) (s s' : Store) (r : result A StoreError) :
  on_memories (TB:=TB) (TT:=TT) (TP:=TP) (TE:=TE) (reads f) s = (s', r) →
  s' = s ∧ r = persisted (f (memory_entries s)).
Proof. unfold on_memories, reads. intros [= <- <-]. by destruct s. Qed.

Lemma all_memories_spec (s s' : Store) l :
  archivable s → all_memories (TB:=TB) (TT:=TT) (TP:=TP) (TE:=TE) parse_rfc3339 s = (s', Ok l) →
  s' = s ∧ NoDup (map memory_id l) ∧
  (∀ m, m ∈ l ↔ memories_of s !! memory_id m = Some (memory_doc m)) ∧
  length l = size (memories_of s).
Proof.
  intros [_ Ha] [(s1 & docs & [-> Hq]%on_memories_reads & [= <- Hl])|(e & _ & [=])]%M_bind_inv.
  destruct (store_query _ _ _ _) as [docs'|] eqn:Hd; [|done]. injection Hq as ->.
  split; [done|]. eapply rows_read; [apply doc_memory_doc|done| |done].
  apply store_query_spec in Hd as (rest & Hperm & _ & _ & ->);
    [|apply by_string_total|apply by_string_trans].
  by rewrite app_nil_r, filter_all in Hperm.
Qed.

Lemma on_store_inv {A} (m : M Store StoreError A) (s s' : Store) a :
  on_store m s = (s', Ok a) → m s = (s', Ok a).
Proof. unfold on_store. destruct (m s) as [s1 [b|e]]; by intros [= <- <-]. Qed.

Lemma export_inv pub eph nonce now (s s' : Store) data :
  archivable s →
  export (TB:=TB) (TP:=TP) (TE:=TE) to_rfc3339 parse_rfc3339 (Ok pub) eph nonce now s = (s', Ok data) →
  s' = s ∧ ∃ turns memories,
    seal_archive pub eph nonce
      (mkArchive ARCHIVE_VERSION_V2 now turns (map (serial_of to_rfc3339) memories)) = Ok data ∧
    NoDup (map turn_id turns) ∧
    (∀ t, t ∈ turns ↔ turns_of s !! turn_id t = Some (turn_doc t)) ∧
    length turns = size (turns_of s) ∧
    NoDup (map memory_id memories) ∧
    (∀ m, m ∈ memories ↔ memories_of s !! memory_id m = Some (memory_doc m)) ∧
    length memories = size (memories_of s).
Proof.
  intros Ha He. unfold export, lift_result in He.
  apply M_bind_inv in He as [(s1 & p & [= <- <-] & He)|(e & _ & [=])].
  apply M_bind_inv in He as [(s1 & u & [= <- _] & He)|(e & _ & [=])].
  apply M_bind_inv in He as [(s1 & turns & Ht%on_store_inv & He)|(e & _ & [=])].
  apply M_bind_inv in He as [(s2 & mems & Hm%on_store_inv & [= <- Hs])|(e & _ & [=])].
  apply all_turns_spec in Ht as (-> & ? & ? & ?); [|done].
  apply all_memories_spec in Hm as (-> & ? & ? & ?); [|done].
  split; [done|]. exists turns, mems. done.
Qed.

(** What the archive of one store brings to another. *)
Definition mergeable (src tgt : Store) : Prop :=
  turns_of src ##ₘ turns_of tgt ∧ memories_of src ##ₘ memories_of tgt ∧
  ∀ t, turns_of src !! turn_id t = Some (turn_doc t) → no_secret t.

(** C11: the archive of a store, restored with the (32-byte) recovery key whose public key
    it was sealed to into a store that has none of
    its records, brings back every turn and every memory exactly as they were, counts
    them, and leaves what was there: when every row of the archived store is one the
    program writes (its times parse back, [archivable]), the two stores share no
    identifier, no store call fails while restoring, and the text of no archived turn
    is taken for a secret ([no_secret]; a restore protects such a text again instead of
    storing it, and so it does with the notice that stands for a protected one). *)
Theorem export_then_restore `{!ReliableStore TT TurnDoc} `{!ReliableStore TM MemoryDoc}
    pub recovery eph nonce now data nonces at_ (src src' tgt : Store) :
  archivable src → mergeable src tgt →
  to_montgomery pub = x25519_public (ed25519_priv_to_x25519 recovery) →
  String.length recovery = 32 → String.length nonce = ARCHIVE_NONCE_LEN →
  export (TB:=TB) (TP:=TP) (TE:=TE) to_rfc3339 parse_rfc3339 (Ok pub) eph nonce now src
    = (src', Ok data) →
  ∃ tgt',
    restore (TB:=TB) (TM:=TM) to_rfc3339 parse_rfc3339 segments is_uuid sha256 print_payload unlock
      store_entity data (base64_encode recovery) nonces at_ tgt
    = (tgt', Ok (size (turns_of src), size (memories_of src))) ∧
    turns_of tgt' = turns_of src ∪ turns_of tgt ∧
    memories_of tgt' = memories_of src ∪ memories_of tgt.
Proof.
  intros Ha (Hdt & Hdm & Hsec) Hpub Hlr Hln.
  intros (_ & turns & mems & Hseal & Hndt & Hint & Hlt & Hndm & Hinm & Hlm)%export_inv; [|done].
  apply (archive_opens _ recovery) in Hseal; [|done..].
  unfold restore. rewrite M_bind_eq. unfold lift_result. rewrite Hseal.
  unfold restore_all. cbn [archive_turns archive_memories].
  destruct (restore_turns_fresh nonces turns 0 tgt) as (s1 & -> & Ht1 & Hm1).
  { apply Forall_forall. intros t Ht. by apply Hsec, Hint. }
  { done. }
  { intros t Ht%Hint. by eapply map_disjoint_Some_l. }
  destruct (restore_memories_fresh at_ mems 0 s1) as (s2 & -> & Hm2 & Ht2).
  { done. }
  { intros m Hm%Hinm. rewrite Hm1. by eapply map_disjoint_Some_l. }
  destruct Ha as [Hat Ham]. exists s2. simpl. split_and!.
  - by rewrite Hlt, Hlm.
  - rewrite Ht2, Ht1. apply insert_all_union; [|done..].
    intros k d Hk. destruct (Hat k d Hk) as (t & -> & <-). eauto.
  - rewrite Hm2, Hm1. apply insert_all_union; [|done..].
    intros k d Hk. destruct (Ham k d Hk) as (t & -> & <-). eauto.
Qed.
End store.

(** ** Imports *)

Section import.
Context {Time TB TM TT TP TE : Type} `{ArchiveHost Time}.
Context `{RecordStoreLaws TB BirthDoc}.
Context `{RecordStoreLaws TM MemoryDoc} `{!RecordQuery TM MemoryDoc} `{!RecordQueryLaws TM MemoryDoc}.
Context `{RecordStoreLaws TT TurnDoc} `{!RecordQuery TT TurnDoc} `{!RecordQueryLaws TT TurnDoc}.
Context `{RecordStoreLaws TP ProtectedTopicDoc} `{!RecordQuery TP ProtectedTopicDoc}
  `{!RecordQueryLaws TP ProtectedTopicDoc}.
Context `{RecordStoreLaws TE ProtectedTopicEntryDoc} `{!RecordQuery TE ProtectedTopicEntryDoc}
  `{!RecordQueryLaws TE ProtectedTopicEntryDoc}.
Context (to_rfc3339 : Time → string) (parse_rfc3339 : string → result Time string).
Context (segments : string → string → list (string * string) * string).
Context (is_uuid : string → bool) (sha256 : string → string).
Context `{VaultHost} (print_payload : ProtectedSecretPayload → string).
Context (unlock : result string CoreError) (store_entity : option string).
Context (parse_print : ∀ t, parse_rfc3339 (to_rfc3339 t) = Ok t).

Notation Store := (Tables TB TM TT TP TE).
Notation turns_of s := (contents (conversation_turns s) : gmap string TurnDoc).
Notation memories_of s := (contents (memory_entries s) : gmap string MemoryDoc).
Notation import_turns := (import_turns (TB:=TB) (TM:=TM) to_rfc3339 segments is_uuid sha256
  print_payload unlock store_entity).
Notation import_memories := (import_memories (TB:=TB) (TT:=TT) (TP:=TP) (TE:=TE) to_rfc3339).
Notation import_from_store := (import_from_store (TB:=TB) (TM:=TM) to_rfc3339 parse_rfc3339 segments
  is_uuid sha256 print_payload unlock store_entity).
Notation insert_turn_or_ignore := (insert_turn_or_ignore (TB:=TB) (TM:=TM) to_rfc3339 segments
  is_uuid sha256 print_payload unlock store_entity).
Notation insert_memory_or_ignore :=
  (insert_memory_or_ignore (TB:=TB) (TT:=TT) (TP:=TP) (TE:=TE) to_rfc3339).
Implicit Types s : Store.

Definition has_turn s (t : ConversationTurn Time) : Prop := is_Some (turns_of s !! turn_id t).
Definition has_memory s (m : Memory Time) : Prop := is_Some (memories_of s !! memory_id m).

Lemma has_turn_grows s s' t : turns_of s ⊆ turns_of s' → has_turn s t → has_turn s' t.
Proof. intros Hs [d Hd]. exists d. by eapply lookup_weaken. Qed.

Lemma import_turns_spec nonces l a b s s' i k :
  import_turns nonces l a b s = (s', Ok (i, k)) → well_counted s →
  good s s' ∧ (i + k = a + b + Z.of_nat (length l))%Z ∧ Forall (has_turn s') l.
Proof.
  revert a b s. induction l as [|t l IH]; intros a b s Hi Hw.
  { injection Hi as <- <- <-. split_and!; [by split|simpl; lia|done]. }
  apply M_bind_inv in Hi as [(s1 & new & Ht%on_store_inv & Hi)|(e & _ & [=])].
  assert (good s s1) as Hg1.
  { eapply (mem_step_good to_rfc3339 parse_rfc3339 segments is_uuid sha256 print_payload
      (λ _, Err "")); [|exact Hw]. eapply step_insert_or_ignore, Ht. }
  assert (has_turn s1 t) as Hp.
  { eapply (insert_or_ignore_present to_rfc3339 parse_rfc3339 segments is_uuid sha256 print_payload
      (λ _, Err "")); [apply Hw|exact Ht]. }
  assert (good s1 s' ∧ (i + k = a + b + 1 + Z.of_nat (length l))%Z ∧ Forall (has_turn s') l)
    as (Hg & Hn & Hl).
  { destruct new; apply IH in Hi as (? & ? & ?); try apply Hg1; split_and!; try done; lia. }
  split_and!; [by eapply good_trans|simpl; lia|]. constructor; [|done].
  eapply has_turn_grows; [apply Hg|exact Hp].
Qed.

Lemma import_turns_again `{!ReliableStore TT TurnDoc} nonces l a b s :
  Forall (has_turn s) l →
  import_turns nonces l a b s = (s, Ok (a, b + Z.of_nat (length l))%Z).
Proof.
  revert b. induction l as [|t l IH]; intros b Hl.
  { simpl. by rewrite Z.add_0_r. }
  apply Forall_cons in Hl as [Ht Hl]. simpl. rewrite M_bind_eq. unfold on_store.
  destruct (reliable_select (turn_id t) (conversation_turns s)) as [o Ho].
  rewrite (insert_or_ignore_known _ _ _ _ _ _ _ _ _ _ o Ho Ht). simpl. rewrite IH by done.
  do 3 f_equal. lia.
Qed.

Lemma insert_memory_or_ignore_spec m s s1 b :
  insert_memory_or_ignore m s = (s1, Ok b) →
  has_memory s1 m ∧ memories_of s ⊆ memories_of s1.
Proof.
  intros Hi. unfold MemStore.insert_memory_or_ignore, exists_record in Hi.
  apply M_bind_inv in Hi as [(s2 & known & [-> Hk]%on_memories_reads & Hi)|(e & _ & [=])].
  destruct (store_select _ _) as [o|] eqn:Ho; [|done]. injection Hk as ->.
  apply store_select_spec in Ho as ->. case_bool_decide as Hsome.
  { injection Hi as <- <-. by split. }
  apply M_bind_inv in Hi as [(s2 & [] & Hc & [= <- <-])|(e & _ & [=])].
  unfold on_memories in Hc. destruct (store_create _ _ _) as [t o] eqn:Hcr.
  apply store_create_spec in Hcr. injection Hc as <- Ho. destruct o as [u|]; [|done].
  destruct Hcr as [Hn Heq]. unfold has_memory. simpl. rewrite Heq, lookup_insert_eq.
  split; [done|]. by apply insert_subseteq.
Qed.

Lemma import_memories_spec l a b s s' i k :
  import_memories l a b s = (s', Ok (i, k)) →
  only_memories s s' ∧ memories_of s ⊆ memories_of s' ∧
  (i + k = a + b + Z.of_nat (length l))%Z ∧ Forall (has_memory s') l.
Proof.
  revert a b s. induction l as [|m l IH]; intros a b s Hi.
  { injection Hi as <- <- <-. split_and!; [done..|simpl; lia|done]. }
  apply M_bind_inv in Hi as [(s1 & new & Hm%on_store_inv & Hi)|(e & _ & [=])].
  pose proof (insert_memory_or_ignore_only _ _ _ _ _ Hm) as Ho.
  apply insert_memory_or_ignore_spec in Hm as [[d Hd] Hs].
  assert (only_memories s1 s' ∧ memories_of s1 ⊆ memories_of s' ∧
    (i + k = a + b + 1 + Z.of_nat (length l))%Z ∧ Forall (has_memory s') l) as (Ho' & Hs' & Hn & Hl).
  { destruct new; apply IH in Hi as (? & ? & ? & ?); split_and!; try done; lia. }
  split_and!; [|by etrans|simpl; lia|].
  - destruct Ho as (? & ? & ? & ?), Ho' as (? & ? & ? & ?). split_and!; congruence.
  - constructor; [|done]. exists d. by eapply lookup_weaken.
Qed.

Lemma import_memories_again `{!ReliableStore TM MemoryDoc} l a b s :
  Forall (has_memory s) l →
  import_memories l a b s = (s, Ok (a, b + Z.of_nat (length l))%Z).
Proof.
  revert b. induction l as [|m l IH]; intros b Hl.
  { simpl. by rewrite Z.add_0_r. }
  apply Forall_cons in Hl as [Hm Hl]. simpl. rewrite M_bind_eq. unfold on_store.
  unfold MemStore.insert_memory_or_ignore at 1, exists_record, reads, on_memories.
  rewrite M_bind_eq. destruct (reliable_select (memory_id m) (memory_entries s)) as [o Ho].
  rewrite Ho. apply store_select_spec in Ho as ->. simpl. rewrite bool_decide_true by done.
  simpl. destruct s as [sb sm st sp se]. simpl in *. rewrite IH by done. do 3 f_equal. lia.
Qed.

(** An import from another store counts every record once, as imported or as skipped;
    when it succeeds every turn and every memory of the source has a record under its
    id in the target, nothing the target had is changed, and running it again imports
    nothing. *)
Theorem import_is_complete `{!ReliableStore TT TurnDoc} `{!ReliableStore TM MemoryDoc}
    nonces nonces' src s s' st :
  archivable to_rfc3339 src → well_counted s →
  import_from_store nonces src s = (s', Ok st) →
  (turns_imported st + turns_skipped st = Z.of_nat (size (turns_of src)))%Z ∧
  (memories_imported st + memories_skipped st = Z.of_nat (size (memories_of src)))%Z ∧
  dom (turns_of src) ⊆ dom (turns_of s') ∧ dom (memories_of src) ⊆ dom (memories_of s') ∧
  grows s s' ∧
  import_from_store nonces' src s'
    = (s', Ok (mkImport 0 (Z.of_nat (size (turns_of src))) 0 (Z.of_nat (size (memories_of src))))).
Proof.
  intros Ha Hw Hi. unfold Archive.import_from_store in *. unfold lift_result in Hi.
  apply M_bind_inv in Hi as [(s1 & turns & [= <- Ht] & Hi)|(e & _ & [=])].
  apply M_bind_inv in Hi as [(s1 & mems & [= <- Hm] & Hi)|(e & _ & [=])].
  apply M_bind_inv in Hi as [(s1 & [ti ts] & Hti & Hi)|(e & _ & [=])].
  apply M_bind_inv in Hi as [(s2 & [mi ms] & Hmi & [= <- <-])|(e & _ & [=])].
  unfold lift_result. rewrite M_bind_eq, Ht. cbv iota beta. rewrite M_bind_eq, Hm. cbv iota beta.
  destruct (on_store _ src) as [src1 r1] eqn:Hr1 in Ht. simpl in Ht. subst r1.
  destruct (on_store _ src) as [src2 r2] eqn:Hr2 in Hm. simpl in Hm. subst r2.
  apply on_store_inv, (all_turns_spec _ _ parse_print) in Hr1 as (-> & _ & Hint & Hlt); [|done].
  apply on_store_inv, (all_memories_spec _ _ parse_print) in Hr2 as (-> & _ & Hinm & Hlm); [|done].
  apply import_turns_spec in Hti as ([Hg Hw1] & Hnt & Hpt); [|done].
  apply import_memories_spec in Hmi as (Ho & Hsub & Hnm & Hpm).
  assert (turns_of s1 = turns_of s2) as Heqt by (by destruct Ho as (_ & -> & _)).
  assert (Forall (has_turn s2) turns) as Hpt2.
  { eapply Forall_impl; [exact Hpt|]. intros t. apply has_turn_grows. by rewrite Heqt. }
  rewrite M_bind_eq, import_turns_again by done. rewrite M_bind_eq, import_memories_again by done.
  destruct Ha as [Hat Ham]. simpl. split_and!; [lia|lia| | | |].
  - intros k [d Hd]%elem_of_dom. destruct (Hat _ _ Hd) as (t & -> & <-).
    apply elem_of_dom. rewrite Forall_forall in Hpt2. by apply Hpt2, Hint.
  - intros k [d Hd]%elem_of_dom. destruct (Ham _ _ Hd) as (m & -> & <-).
    apply elem_of_dom. rewrite Forall_forall in Hpm. by apply Hpm, Hinm.
  - destruct Hg as (Hb & Ht' & He), Ho as (Hb2 & Ht2 & _ & He2). unfold grows.
    by rewrite Hb2, Ht2, He2.
  - by rewrite Hlt, Hlm.
Qed.
End import.

(** ** Witnesses *)

Module ArchiveDemo.
(** A list of strings as one: a comma ends an item, a backslash takes the character
    after it as it is. *)
Definition special (c : ascii) : bool := bool_decide (c = "\"%char) || bool_decide (c = ","%char).

Fixpoint esc (s : string) : string :=
  match s with
  | EmptyString => ","
  | String c s => if special c then String "\" (String c (esc s)) else String c (esc s)
  end.

Definition cons_char (c : ascii) (l : list string) : list string :=
  match l with
  | x :: l => String c x :: l
  | [] => [String c ""]
  end.

Fixpoint items (s : string) : list string :=
  match s with
  | EmptyString => []
  | String c s =>
      if decide (c = "\"%char) then
        match s with
        | String c s => cons_char c (items s)
        | EmptyString => []
        end
      else if decide (c = ","%char) then "" :: items s
      else cons_char c (items s)
  end.

Definition packed (l : list string) : string := foldr (λ s acc, esc s +:+ acc) "" l.

Lemma items_esc s rest : items (esc s +:+ rest) = s :: items rest.
Proof.
  induction s as [|c s IH]; [done|]. cbn [esc]. unfold special.
  destruct (decide (c = "\"%char)) as [->|H1]; [cbn -[String.append]|].
  { change (items (String "\" (String "\" (esc s +:+ rest))) = String "\" s :: items rest).
    cbn [items]. rewrite decide_True by done. by rewrite IH. }
  rewrite bool_decide_false by done. destruct (decide (c = ","%char)) as [->|H2].
  { change (items (String "\" (String "," (esc s +:+ rest))) = String "," s :: items rest).
    cbn [items]. rewrite decide_True by done. by rewrite IH. }
  rewrite bool_decide_false by done. cbn [orb].
  change (items (String c (esc s +:+ rest)) = String c s :: items rest).
  cbn [items]. rewrite !decide_False by done. by rewrite IH.
Qed.

Lemma items_packed l : items (packed l) = l.
Proof. induction l as [|s l IH]; [done|]. simpl. by rewrite items_esc, IH. Qed.

Definition print_turn (t : ConversationTurn string) : string :=
  packed [turn_id t; turn_session t; VaultDemo.print (turn_number t); turn_role t; turn_content t;
    VaultDemo.print (turn_provider t); VaultDemo.print (turn_model t); VaultDemo.print (turn_tier t);
    VaultDemo.print (turn_complexity t); VaultDemo.print (token_estimate t); turn_created_at t].
Definition parse_turn (s : string) : result (ConversationTurn string) string :=
  match items s with
  | [i; ss; n; r; c; p; m; t; x; e; at_] =>
      let? n := VaultDemo.parse n in let? p := VaultDemo.parse p in
      let? m := VaultDemo.parse m in let? t := VaultDemo.parse t in
      let? x := VaultDemo.parse x in let? e := VaultDemo.parse e in
      Ok (mkTurn i ss n r c p m t x e at_)
  | _ => Err "a turn"
  end.

Lemma parse_print_turn t : parse_turn (print_turn t) = Ok t.
Proof.
  unfold parse_turn, print_turn. rewrite items_packed.
  do 6 (rewrite VaultDemo.parse_print; cbn [result_bind]). by destruct t.
Qed.

Definition print_serial (m : SerializableMemory) : string :=
  packed [serial_id m; serial_content m; serial_weight m; serial_created_at m].
Definition parse_serial (s : string) : result SerializableMemory string :=
  match items s with
  | [i; c; w; at_] => Ok (mkSerial i c w at_)
  | _ => Err "a memory"
  end.

Definition print (p : ArchivePayload string) : string :=
  packed [VaultDemo.print (archive_version p); exported_at p;
    packed (map print_turn (archive_turns p)); packed (map print_serial (archive_memories p))].
Definition parse (s : string) : result (ArchivePayload string) string :=
  match items s with
  | [v; at_; ts; ms] =>
      let? v := VaultDemo.parse v in
      let? ts := collect parse_turn (items ts) in
      let? ms := collect parse_serial (items ms) in
      Ok (mkArchive v at_ ts ms)
  | _ => Err "an archive"
  end.

Lemma collect_map {A} (f : A → string) (g : string → result A string) l :
  (∀ x, g (f x) = Ok x) → collect g (map f l) = Ok l.
Proof. intros Hg. induction l as [|x l IH]; [done|]. simpl. rewrite Hg. simpl. by rewrite IH. Qed.

Lemma parse_print_archive p : parse (print p) = Ok p.
Proof.
  unfold parse, print. rewrite items_packed, VaultDemo.parse_print. simpl.
  rewrite !items_packed, collect_map by apply parse_print_turn. simpl.
  rewrite collect_map; [by destruct p|]. intros m.
  unfold parse_serial, print_serial. rewrite items_packed. by destruct m.
Qed.

Definition print_header_v2 (h : ArchiveHeaderV2) : string :=
  packed [VaultDemo.print (header_version h); key_exchange h; key_derivation h; cipher h;
    ephemeral_public_key_base64 h; nonce_base64 h; header_exported_at h].
Definition parse_header_v2 (s : string) : result ArchiveHeaderV2 string :=
  match items s with
  | [v; x; d; c; e; n; at_] => let? v := VaultDemo.parse v in Ok (mkHeader v x d c e n at_)
  | _ => Err "a header"
  end.

Lemma parse_print_header h : parse_header_v2 (print_header_v2 h) = Ok h.
Proof.
  unfold parse_header_v2, print_header_v2. rewrite items_packed, VaultDemo.parse_print.
  by destruct h.
Qed.

Definition pad32 (s : string) : string := str_take 32 (s +:+ "................................").

Lemma pad32_length s : String.length (pad32 s) = 32.
Proof.
  unfold pad32. rewrite str_length_take, str_length_app.
  change (String.length "................................") with 32. lia.
Qed.

(** Toy primitives: a public key is its secret, padded, and two parties agree on the
    pair of their public keys. *)
Definition agree (a p : string) : string :=
  if String.leb (pad32 a) p then pad32 a +:+ p else p +:+ pad32 a.

#[export] Instance host : ArchiveHost string := {|
  sha512 := pad32;
  to_montgomery p := pad32 (clamp (str_take 32 (pad32 p)));
  x25519_public := pad32;
  diffie_hellman := agree;
  archive_hkdf salt ikm info := salt +:+ ikm +:+ info;
  encrypt_aad k n m aad := Ok ("0123456789abcdef" +:+ packed [k; n; m; aad]);
  decrypt_aad k n c aad :=
    match items (str_drop 16 c) with
    | [k'; n'; m; aad'] =>
        if decide (k' = k ∧ n' = n ∧ aad' = aad) then Some m else None
    | _ => None
    end;
  base64_encode := VaultDemo.print;
  base64_decode := VaultDemo.parse;
  print_archive := print;
  parse_archive := parse;
  print_header := print_header_v2;
  parse_header := parse_header_v2;
|}.

Lemma trim_bits p : trim (VaultDemo.bits p) = VaultDemo.bits p.
Proof.
  unfold trim. assert (trim_start (VaultDemo.bits p) = VaultDemo.bits p) as -> by (by destruct p).
  induction p as [p IH|p IH|]; cbn [VaultDemo.bits trim_end_matches]; [rewrite IH..|done];
    by destruct (VaultDemo.bits p).
Qed.

#[export] Instance host_laws : ArchiveLaws string.
Proof.
  split; cbn [encrypt_aad decrypt_aad base64_encode base64_decode print_archive parse_archive
              print_header parse_header diffie_hellman x25519_public host].
  - intros k n m aad c Hc.
    assert (items (str_drop 16 c) = [k; n; m; aad]) as ->
      by (injection Hc as <-; exact (items_packed [k; n; m; aad])).
    by rewrite decide_True.
  - intros k n m aad c [= <-]. rewrite str_length_app.
    change (String.length "0123456789abcdef") with 16. lia.
  - intros s. unfold VaultDemo.print at 1. rewrite trim_bits. apply VaultDemo.parse_print.
  - apply parse_print_archive.
  - apply parse_print_header.
  - intros a b. unfold agree.
    destruct (String.leb (pad32 a) (pad32 b)) eqn:Hab, (String.leb (pad32 b) (pad32 a)) eqn:Hba.
    + rewrite (String.leb_antisym _ _ Hab Hba). done.
    + done.
    + done.
    + destruct (string_leb_total (pad32 a) (pad32 b)); congruence.
  - apply pad32_length.
Qed.

Definition recovery : string := "rrrrrrrrrrrrrrrrrrrrrrrrrrrrrrrr".
Definition memory : Memory string := mkMemory "m1" "likes tea" Crystallized "2026-01-01T00:00:02+00:00".
Definition source : MemDemo.DemoStore :=
  (insert_memory (TB:=gmap string BirthDoc) (TT:=gmap string TurnDoc)
     (TP:=gmap string ProtectedTopicDoc) (TE:=gmap string ProtectedTopicEntryDoc) id memory MemDemo.one).1.

Definition import (s : MemDemo.DemoStore) : MemDemo.DemoStore * result ImportStats string :=
  import_from_store (H5:=MemDemo.host) id Ok MemDemo.segments MemDemo.is_uuid id
    MemDemo.print_payload MemDemo.unlock (Some MemDemo.entity) (λ _, MemDemo.nonce) source s.
End ArchiveDemo.

Lemma source_archivable : archivable id ArchiveDemo.source.
Proof.
  assert (contents (conversation_turns ArchiveDemo.source) =
    ({["t1" := turn_doc id MemDemo.hello]} : gmap string TurnDoc)) as Ht
    by (vm_compute; reflexivity).
  assert (contents (memory_entries ArchiveDemo.source) =
    ({["m1" := memory_doc id ArchiveDemo.memory]} : gmap string MemoryDoc)) as Hm
    by (vm_compute; reflexivity).
  split; intros k d; rewrite ?Ht, ?Hm; intros [<- <-]%lookup_singleton_Some.
  - by exists MemDemo.hello.
  - by exists ArchiveDemo.memory.
Qed.

Definition export_demo : MemDemo.DemoStore * result string string :=
  export (H:=ArchiveDemo.host) (TB:=gmap string BirthDoc) (TP:=gmap string ProtectedTopicDoc)
    (TE:=gmap string ProtectedTopicEntryDoc) id Ok (Ok ArchiveDemo.recovery)
    "ephemeral secret" MemDemo.nonce "2026-01-02T00:00:00+00:00" ArchiveDemo.source.
Definition archive_demo : string := match export_demo.2 with Ok d => d | Err _ => "" end.
Definition restore_demo : MemDemo.DemoStore * result (nat * nat) string :=
  restore (H:=ArchiveDemo.host) (H5:=MemDemo.host) id Ok MemDemo.segments MemDemo.is_uuid id
    MemDemo.print_payload MemDemo.unlock (Some MemDemo.entity) archive_demo
    (@base64_encode string ArchiveDemo.host ArchiveDemo.recovery) (λ _, MemDemo.nonce) "" MemDemo.empty.

Lemma export_demo_ok : export_demo = (ArchiveDemo.source, Ok archive_demo).
Proof. vm_compute. reflexivity. Qed.

Lemma nothing_secret : mergeable id MemDemo.segments MemDemo.is_uuid (Some MemDemo.entity)
  ArchiveDemo.source MemDemo.empty.
Proof.
  split; [|split]; [exact (map_disjoint_empty_r (M:=gmap string) (A:=TurnDoc) _)|exact (map_disjoint_empty_r (M:=gmap string) (A:=MemoryDoc) _)|]. intros t Ht e [= <-].
  destruct (proj1 source_archivable _ _ Ht) as (u & Hu & _).
  assert (turn_content t = "hello") as ->; [|vm_compute; reflexivity].
  revert Ht. destruct (decide (turn_id t = "t1")) as [->|Hne].
  - intros Ht. assert (contents (conversation_turns ArchiveDemo.source) !! "t1"
      = Some (turn_doc id MemDemo.hello)) as Hs by (vm_compute; reflexivity).
    rewrite Hs in Ht. injection Ht as _ _ _ _ Hc _ _ _ _ _ _. by symmetry.
  - change (contents (conversation_turns ArchiveDemo.source)) with
      ({["t1" := turn_doc id MemDemo.hello]} : gmap string TurnDoc).
    rewrite lookup_singleton_ne by congruence. done.
Qed.

Lemma export_then_restore_witness :
  ∃ tgt, restore_demo = (tgt, Ok (1, 1)) ∧
    contents (conversation_turns tgt) = contents (conversation_turns ArchiveDemo.source) ∧
    contents (memory_entries tgt) = contents (memory_entries ArchiveDemo.source).
Proof.
  destruct (export_then_restore (H:=ArchiveDemo.host) (H0:=ArchiveDemo.host_laws)
    (H8:=MemDemo.host) id Ok MemDemo.segments MemDemo.is_uuid id
    MemDemo.print_payload MemDemo.unlock (Some MemDemo.entity) (λ _, eq_refl)
    ArchiveDemo.recovery ArchiveDemo.recovery "ephemeral secret" MemDemo.nonce
    "2026-01-02T00:00:00+00:00" archive_demo (λ _, MemDemo.nonce) ""
    ArchiveDemo.source ArchiveDemo.source MemDemo.empty
    source_archivable nothing_secret eq_refl eq_refl eq_refl export_demo_ok)
    as (tgt & Hr & Ht & Hm).
  exists tgt. split_and!; [exact Hr|rewrite Ht; exact (map_union_empty (M:=gmap string) (A:=TurnDoc) _)
    |rewrite Hm; exact (map_union_empty (M:=gmap string) (A:=MemoryDoc) _)].
Defined.

Definition imported_demo : MemDemo.DemoStore := (ArchiveDemo.import MemDemo.empty).1.
Lemma imported_demo_ok : ArchiveDemo.import MemDemo.empty = (imported_demo, Ok (mkImport 1 0 1 0)).
Proof. vm_compute. reflexivity. Qed.

Lemma import_is_complete_witness :
  ArchiveDemo.import imported_demo = (imported_demo, Ok (mkImport 0 1 0 1)) ∧
  dom (contents (memory_entries ArchiveDemo.source)) ⊆ dom (contents (memory_entries imported_demo)).
Proof.
  destruct (import_is_complete (H10:=MemDemo.host) id Ok MemDemo.segments MemDemo.is_uuid id
    MemDemo.print_payload MemDemo.unlock (Some MemDemo.entity) (λ _, eq_refl)
    (λ _, MemDemo.nonce) (λ _, MemDemo.nonce) ArchiveDemo.source MemDemo.empty imported_demo
    (mkImport 1 0 1 0) source_archivable empty_well_counted imported_demo_ok)
    as (_ & _ & _ & Hm & _ & Hagain).
  split; [exact Hagain|exact Hm].
Defined.
