(* ===== verification/Cognitive.v ===== *)
(** * Language-model providers and execution traces

    The data a provider is called with and answers
    ([crates/abigail-capabilities/src/cognitive/provider.rs]), the renaming of
    tools for their interfaces, which models belong to which provider and what an
    answer says of a key ([cognitive/validation.rs]), and the trace of the calls
    made for a turn ([crates/entity-core/src/lib.rs]).  A provider is code the
    program only calls: what a call does to the outside, what it sends through the
    channel and what it answers are the fields of [LlmProvider]. *)

From S2P Require Import Prelude RustStr.
From Stdlib Require Import ZArith Lia Ascii.
From stdpp Require Import base list sets strings gmap pretty.

Open Scope rust_scope.

(** ** Messages *)

Record ToolDefinition (Value : Type) : Type := mkToolDefinition {
  def_name : string;
  def_description : string;
  def_parameters : Value;
}.
Arguments mkToolDefinition {Value}.
Arguments def_name {Value}.
Arguments def_description {Value}.
Arguments def_parameters {Value}.

Record ToolCall : Type := mkToolCall {
  call_id : string;
  call_name : string;
  arguments : string;
}.

Record Message : Type := mkMessage {
  role : string;
  content : string;
  tool_call_id : option string;
  tool_calls : option (list ToolCall);
}.

Definition new_message (role content : string) : Message := mkMessage role content None None.

Definition tool_result (tool_call_id content : string) : Message :=
  mkMessage "tool" content (Some tool_call_id) None.

Record CompletionRequest (Value : Type) : Type := mkRequest {
  messages : list Message;
  tools : option (list (ToolDefinition Value));
  model_override : option string;
}.
Arguments mkRequest {Value}.
Arguments messages {Value}.
Arguments tools {Value}.
Arguments model_override {Value}.

Definition simple_request {Value} (messages : list Message) : CompletionRequest Value :=
  mkRequest messages None None.

Record CompletionResponse : Type := mkResponse {
  reply : string;
  reply_tool_calls : option (list ToolCall);
}.

Inductive StreamEvent : Type :=
| Token (text : string)
| Done (response : CompletionResponse).

(** [W] is the state of the outside. *)
Record LlmProvider (Value W : Type) : Type := mkProvider {
  complete : CompletionRequest Value → W → W * result CompletionResponse string;
  stream : CompletionRequest Value → W → W * list StreamEvent * result CompletionResponse string;
}.
Arguments mkProvider {Value W}.
Arguments complete {Value W}.
Arguments stream {Value W}.

(** The default of the trait: one token with the whole reply. *)
Definition default_stream {Value W}
    (complete : CompletionRequest Value → W → W * result CompletionResponse string)
    (request : CompletionRequest Value) (w : W)
  : W * list StreamEvent * result CompletionResponse string :=
  match complete request w with
  | (w, Ok response) => (w, [Token (reply response); Done response], Ok response)
  | (w, Err e) => (w, [], Err e)
  end.

(** ** Tool names *)

Definition is_char (c : ascii) (s : string) : bool := bool_decide (s = String c "").

(** The class of [char::is_ascii_alphanumeric]; a character is its bytes. *)
Definition ascii_alnum_char (s : string) : bool :=
  match s with String c EmptyString => is_ascii_alnum c | _ => false end.

Definition keep_or_underscore (ok : string → bool) (s : string) : string :=
  if ok s then s else "_".

Definition tool_name_char (s : string) : bool :=
  ascii_alnum_char s || is_char "_" s || is_char "-" s.

Definition sanitize_tool_name (name : string) : string :=
  RustStr.join "" (map (keep_or_underscore tool_name_char)
    (chars (replace (replace name "::" "__") "." "_"))).

(** [collect()] into a [HashMap]: the last of two equal keys stays. *)
Definition build_tool_name_map {Value} (tools : list (ToolDefinition Value)) : gmap string string :=
  foldl (λ m td, <[sanitize_tool_name (def_name td) := def_name td]> m) ∅ tools.

(** ** Models and keys *)

Module Validation.

Definition starts_with_any (id : string) (prefixes : list string) : bool :=
  existsb (starts_with id) prefixes.
Definition contains_any (id : string) (parts : list string) : bool :=
  existsb (contains id) parts.

Definition is_chat_anthropic_model (id : string) : bool :=
  bool_decide (id ∈ ["sonnet"; "opus"; "haiku"]) || starts_with id "claude-".

Definition is_chat_openai_model (id : string) : bool :=
  if contains_any id ["-instruct"; "-search-preview"; "-realtime"; "-audio"] then false
  else starts_with_any id
    ["gpt-4.1"; "gpt-4.5"; "gpt-5"; "gpt-4o"; "gpt-4-turbo"; "gpt-4-"; "gpt-4"; "o1"; "o3"; "o4";
     "chatgpt-4o-latest"].

Definition is_chat_google_model (id : string) : bool :=
  if contains_any id ["embedding"; "aqa"; "imagen"; "veo"; "chirp"] then false
  else starts_with_any id ["gemini-2"; "gemini-1.5-pro"; "gemini-1.5-flash"].

Definition is_chat_xai_model (id : string) : bool :=
  if contains_any id ["embedding"; "image"] then false else starts_with_any id ["grok-"].

Definition is_model_compatible_with_provider (provider model : string) : bool :=
  let provider := to_lowercase (trim provider) in
  let model := trim model in
  if str_is_empty model then false
  else if decide (provider = "openai") then is_chat_openai_model model
  else if decide (provider = "google") then is_chat_google_model model
  else if decide (provider = "xai") then is_chat_xai_model model
  else if decide (provider = "anthropic") then is_chat_anthropic_model model
  else if decide (provider = "perplexity") then starts_with model "sonar"
  else if decide (provider = "claude-cli") then is_chat_anthropic_model model
  else if decide (provider = "gemini-cli") then is_chat_google_model model
  else if decide (provider = "codex-cli") then is_chat_openai_model model
  else if decide (provider = "grok-cli") then is_chat_xai_model model
  else true.

(** The answer of the probe of a key: the status, its display, and the body
    (empty when it cannot be read). *)
Record Probe : Type := mkProbe {
  status : Z;
  status_text : string;
  body_text : string;
}.

Definition invalid_key {A} : result A string := Err "Invalid API key".
Definition api_error {A} (p : Probe) : result A string := Err ("API error: " +:+ status_text p).

Definition validate_openai (p : Probe) : result unit string :=
  match status p with
  | 200 | 429 => Ok tt
  | 401 => invalid_key
  | _ => api_error p
  end%Z.

Definition validate_anthropic (p : Probe) : result unit string :=
  match status p with
  | 200 => Ok tt
  | 401 => invalid_key
  | 403 => Err "API key lacks permission (billing or access issue)"
  | 429 | 529 => Ok tt
  | 400 =>
      if contains (body_text p) "invalid x-api-key" || contains (body_text p) "invalid api key"
      then invalid_key
      else Err ("Anthropic API error (400): " +:+ body_text p)
  | n => Err ("API error: " +:+ pretty n)
  end%Z.

Definition validate_perplexity (p : Probe) : result unit string :=
  match status p with
  | 200 | 429 => Ok tt
  | 401 => invalid_key
  | 403 => Err "API key lacks permission"
  | _ => api_error p
  end%Z.

Definition validate_xai (p : Probe) : result unit string :=
  match status p with
  | 200 => Ok tt
  | 401 => invalid_key
  | _ => api_error p
  end%Z.

Definition validate_google (p : Probe) : result unit string :=
  match status p with
  | 200 => Ok tt
  | 400 | 401 | 403 => invalid_key
  | _ => api_error p
  end%Z.

Definition validate_tavily (p : Probe) : result unit string :=
  match status p with
  | 200 | 429 => Ok tt
  | 401 | 403 => invalid_key
  | _ => api_error p
  end%Z.

(** [probe] is the outcome of building the client and sending the request of the
    provider with the key; it is not called for an unknown provider. *)
Definition validate_api_key (probe : string → string → result Probe string) (provider key : string)
  : result unit string :=
  let check judge := let? p := probe provider key in judge p in
  if decide (provider = "openai") then check validate_openai
  else if decide (provider = "anthropic") then check validate_anthropic
  else if decide (provider = "perplexity") then check validate_perplexity
  else if decide (provider = "xai") then check validate_xai
  else if decide (provider = "google") then check validate_google
  else if decide (provider = "tavily") then check validate_tavily
  else Ok tt.

Record ModelInfo : Type := mkModelInfo {
  model_id : string;
  display_name : option string;
  created : option Z;
}.

(** What is read of one element of a listing: [id] (or [name]), [created] and
    [displayName]. *)
Record Listed : Type := mkListed {
  listed_id : option string;
  listed_created : option Z;
  listed_display : option string;
}.

(** The listing of a provider: the failures of the request, or the status and the
    array of the body, if the body is JSON ([Err]) and has one ([None]). *)
Record Listing : Type := mkListing {
  listing_status : Z;
  listing_status_text : string;
  listing_body : result (option (list Listed)) string;
}.

Definition listed_models (label : string) (pick : Listed → option ModelInfo) (l : Listing)
  : result (list ModelInfo) string :=
  if bool_decide (listing_status l ≠ 200%Z)
  then Err (label +:+ " model discovery failed with status " +:+ listing_status_text l)
  else
    let? body := map_err (λ e, "Failed to parse " +:+ label +:+ " models response: " +:+ e)
                   (listing_body l) in
    Ok (omap pick (unwrap_or body [])).

Definition pick_plain (is_chat : string → bool) (m : Listed) : option ModelInfo :=
  match listed_id m with
  | Some id => if is_chat id then Some (mkModelInfo id None (listed_created m)) else None
  | None => None
  end.

Definition pick_google (m : Listed) : option ModelInfo :=
  match listed_id m with
  | Some raw_name =>
      let id := unwrap_or (RustStr.strip_prefix raw_name "models/") raw_name in
      if is_chat_google_model id then Some (mkModelInfo id (listed_display m) None) else None
  | None => None
  end.

Definition curated_anthropic_models : list ModelInfo := [
  mkModelInfo "claude-sonnet-4-6" (Some "Claude Sonnet 4.6") None;
  mkModelInfo "claude-haiku-4-5" (Some "Claude Haiku 4.5") None;
  mkModelInfo "claude-opus-4-6" (Some "Claude Opus 4.6") None].

Definition curated_perplexity_models : list ModelInfo := [
  mkModelInfo "sonar" (Some "Sonar") None;
  mkModelInfo "sonar-pro" (Some "Sonar Pro") None;
  mkModelInfo "sonar-reasoning" (Some "Sonar Reasoning") None;
  mkModelInfo "sonar-reasoning-pro" (Some "Sonar Reasoning Pro") None].

(** [fetch] is the outcome of the request to the listing of a provider. *)
Definition discover_models (fetch : string → string → result Listing string)
    (provider api_key : string) : result (list ModelInfo) string :=
  if decide (provider = "openai") then
    let? l := fetch provider api_key in listed_models "OpenAI" (pick_plain is_chat_openai_model) l
  else if decide (provider = "xai") then
    let? l := fetch provider api_key in listed_models "xAI" (pick_plain is_chat_xai_model) l
  else if decide (provider = "google") then
    let? l := fetch provider api_key in listed_models "Google" pick_google l
  else if decide (provider = "anthropic") then Ok curated_anthropic_models
  else if decide (provider = "perplexity") then Ok curated_perplexity_models
  else Ok [].

End Validation.

(** ** The trace of a turn *)

Module Trace.

Inductive StepResult : Type := Success | Error.

#[global] Instance StepResult_eq_dec : EqDecision StepResult.
Proof. solve_decision. Defined.

Record ExecutionStep : Type := mkStep {
  provider_label : string;
  model_requested : option string;
  model_reported : option string;
  step_result : StepResult;
  error_summary : option string;
  started_at_utc : string;
  ended_at_utc : string;
}.

Inductive SelectionReason : Type :=
| Complexity | PinnedTier | PinnedModel | SetupIntent | EgoPrimary | Council | Fallback.

Definition reason_str (r : SelectionReason) : string :=
  match r with
  | Complexity => "complexity"
  | PinnedTier => "pinned_tier"
  | PinnedModel => "pinned_model"
  | SetupIntent => "setup_intent"
  | EgoPrimary => "ego_primary"
  | Council => "council"
  | Fallback => "fallback"
  end.

Record ExecutionTrace : Type := mkTrace {
  turn_id : string;
  timestamp_utc : string;
  routing_mode : string;
  configured_provider : option string;
  configured_model : option string;
  configured_tier : option string;
  complexity_score : option Z;
  selection_reason : option SelectionReason;
  target_selected : string;
  steps : list ExecutionStep;
  final_step_index : nat;
  fallback_occurred : bool;
}.

(** [uuid] and [now] are drawn for the trace. *)
Definition new (uuid now mode : string) (provider model : option string) (target : string)
  : ExecutionTrace :=
  mkTrace uuid now mode provider model None None None target [] 0 false.

Definition with_steps (l : list ExecutionStep) (i : nat) (fallback : bool) (t : ExecutionTrace)
  : ExecutionTrace :=
  mkTrace (turn_id t) (timestamp_utc t) (routing_mode t) (configured_provider t)
    (configured_model t) (configured_tier t) (complexity_score t) (selection_reason t)
    (target_selected t) l i fallback.

Definition with_reason (r : SelectionReason) (t : ExecutionTrace) : ExecutionTrace :=
  mkTrace (turn_id t) (timestamp_utc t) (routing_mode t) (configured_provider t)
    (configured_model t) (configured_tier t) (complexity_score t) (Some r)
    (target_selected t) (steps t) (final_step_index t) (fallback_occurred t).

Definition record_success (label : string) (model : option string) (started ended : string)
    (t : ExecutionTrace) : ExecutionTrace :=
  let idx := length (steps t) in
  with_steps (steps t ++ [mkStep label model None Success None started ended]) idx
    (bool_decide (0 < idx)) t.

Definition record_error (label : string) (model : option string) (error started ended : string)
    (t : ExecutionTrace) : ExecutionTrace :=
  with_steps (steps t ++ [mkStep label model None Error (Some error) started ended])
    (final_step_index t) (fallback_occurred t) t.

Definition final_provider (t : ExecutionTrace) : option string :=
  provider_label <$> steps t !! final_step_index t.

Definition final_model (t : ExecutionTrace) : option string :=
  steps t !! final_step_index t ≫= model_requested.

Definition final_tier (t : ExecutionTrace) : option string :=
  if fallback_occurred t then None else configured_tier t.

Definition selection_reason_str (t : ExecutionTrace) : string :=
  unwrap_or (reason_str <$> selection_reason t) "unknown".

(** [ProviderHealthEntry]: one line of the health board. *)
Record ProviderHealthEntry : Type := mkHealth {
  health_provider : string;
  health_model : option string;
  health_state : string;
  health_message : option string;
  at_utc : string;
}.

End Trace.

(** ** Lemmas *)

(** Keeping the one-byte characters of a class and replacing the others. *)
Section kept.
Context (ok : string → bool).
Context (ok_ascii : ∀ s, ok s = true → ∃ c, s = String c "" ∧ (N_of_ascii c <? 128)%N = true).
Context (ok_underscore : ok "_" = true).

Definition kept_bytes (s : string) : Prop := Forall (λ c, ok (String c "") = true) (str_chars s).

Lemma keep_kept s : kept_bytes (RustStr.join "" (map (keep_or_underscore ok) (chars s))).
Proof using ok_ascii ok_underscore.
  apply Forall_forall. intros c (t & Ht & Hc)%str_chars_join_nil.
  apply list_elem_of_map in Ht as (ch & -> & _). unfold keep_or_underscore in Hc.
  destruct (ok ch) eqn:Hok.
  - destruct (ok_ascii _ Hok) as (d & -> & _). by apply list_elem_of_singleton in Hc as ->.
  - by apply list_elem_of_singleton in Hc as ->.
Qed.

Lemma keep_id s : kept_bytes s → RustStr.join "" (map (keep_or_underscore ok) (chars s)) = s.
Proof using ok_ascii.
  intros Hs. rewrite chars_ascii.
  2: { eapply Forall_impl; [exact Hs|]. intros c Hc. by destruct (ok_ascii _ Hc) as (d & [= <-] & ?). }
  rewrite map_map. apply str_chars_inj. etrans; [|apply (join_nil_singletons (str_chars s))].
  do 2 f_equal. apply map_ext_in. intros c Hc. unfold keep_or_underscore.
  apply list_elem_of_In in Hc. by rewrite (proj1 (Forall_forall _ _) Hs c Hc).
Qed.
End kept.

Lemma ascii_alnum_ascii s : ascii_alnum_char s = true → ∃ c, s = String c "" ∧ (N_of_ascii c <? 128)%N = true.
Proof.
  destruct s as [|c [|]]; try done. simpl. intros H. exists c. split; [done|].
  apply N.ltb_lt. unfold is_ascii_alnum, is_ascii_digit, is_ascii_upper, is_ascii_lower in H.
  rewrite !orb_true_iff, !andb_true_iff, !N.leb_le in H. lia.
Qed.

Lemma is_char_ascii c s : (N_of_ascii c <? 128)%N = true → is_char c s = true →
  ∃ c, s = String c "" ∧ (N_of_ascii c <? 128)%N = true.
Proof. intros Hc ->%bool_decide_eq_true. by exists c. Qed.

Lemma tool_name_char_ascii s : tool_name_char s = true → ∃ c, s = String c "" ∧ (N_of_ascii c <? 128)%N = true.
Proof.
  unfold tool_name_char. intros [[H|H]%orb_true_iff|H]%orb_true_iff;
    [by apply ascii_alnum_ascii|eapply is_char_ascii; [|exact H]; done..].
Qed.

(** ** Tool names: theorems *)

(** A sanitised name has only the characters every interface accepts, and sanitising
    it again changes nothing. *)
Theorem sanitized_tool_name name :
  kept_bytes tool_name_char (sanitize_tool_name name) ∧
  RustStr.join "" (map (keep_or_underscore tool_name_char) (chars (sanitize_tool_name name)))
    = sanitize_tool_name name.
Proof.
  assert (kept_bytes tool_name_char (sanitize_tool_name name)) as Hk
    by (apply keep_kept; [apply tool_name_char_ascii|done]).
  split; [done|]. by apply keep_id; [apply tool_name_char_ascii|].
Qed.

Lemma name_map_lookup {Value} (tools : list (ToolDefinition Value)) (m : gmap string string) td :
  NoDup (map (λ t, sanitize_tool_name (def_name t)) tools) → td ∈ tools →
  foldl (λ m td, <[sanitize_tool_name (def_name td) := def_name td]> m) m tools
    !! sanitize_tool_name (def_name td) = Some (def_name td).
Proof.
  revert m. induction tools as [|t tools IH] using rev_ind; intros m Hn Ht; [by apply not_elem_of_nil in Ht|].
  rewrite foldl_app. simpl. rewrite map_app in Hn. apply NoDup_app in Hn as (Hn & Hd & _).
  apply elem_of_app in Ht as [Ht| ->%list_elem_of_singleton]; [|by rewrite lookup_insert_eq].
  rewrite lookup_insert_ne; [by apply IH|]. intros Heq.
  apply (Hd (sanitize_tool_name (def_name td))); [apply list_elem_of_map; eauto|].
  rewrite <- Heq. simpl. by left.
Qed.

(** The table of the renamed tools gives every tool its name back, as long as no two of
    them are renamed to the same. *)
Theorem tool_names_restored {Value} (tools : list (ToolDefinition Value)) td :
  NoDup (map (λ t, sanitize_tool_name (def_name t)) tools) → td ∈ tools →
  build_tool_name_map tools !! sanitize_tool_name (def_name td) = Some (def_name td).
Proof. apply name_map_lookup. Qed.

Lemma tool_names_restored_witness :
  build_tool_name_map [mkToolDefinition "com.acme::send" "" tt; mkToolDefinition "com.acme::read" "" tt]
    !! "com_acme__send" = Some "com.acme::send".
Proof.
  apply (tool_names_restored
    [mkToolDefinition "com.acme::send" "" tt; mkToolDefinition "com.acme::read" "" tt]
    (mkToolDefinition "com.acme::send" "" tt)); [|by left].
  repeat constructor; vm_compute; set_solver.
Defined.

(** Otherwise a call of one tool runs another: the dot of an identifier and the
    underscore are renamed alike. *)
Theorem tool_names_collide :
  build_tool_name_map [mkToolDefinition "a.b::wipe" "" tt; mkToolDefinition "a_b::wipe" "" tt]
    !! sanitize_tool_name "a.b::wipe" = Some "a_b::wipe".
Proof. vm_compute. reflexivity. Qed.
