(* ===== verification/Router.v ===== *)
(** * The Id/Ego router ([crates/abigail-router/src/router.rs])

    [IdEgoRouter]: the choice of the provider of a request, the sanitising of a
    model override, the fallback from one provider to the other with its trace,
    the health board, and the older entry points.  A call of a provider is logged
    with the slot it was made in; what a provider sends through the channel of a
    streaming request is appended to [channel].  [clock] gives the readings of the
    clock of one request, in order. *)

From S2P Require Import Prelude RustStr Cognitive.
From Stdlib Require Import ZArith Lia Ascii.
From stdpp Require Import base list sets strings gmap.

Open Scope rust_scope.

(** [RoutingMode] ([crates/abigail-core/src/config.rs]). *)
Inductive RoutingMode : Type := EgoPrimary | CliOrchestrator.

Definition mode_debug_lower (m : RoutingMode) : string :=
  match m with EgoPrimary => "egoprimary" | CliOrchestrator => "cliorchestrator" end.

Inductive FastPathTarget : Type := Id | Ego.

#[export] Instance FastPathTarget_eq_dec : EqDecision FastPathTarget.
Proof. solve_decision. Defined.

(** [ProviderKind] ([crates/abigail-hive/src/provider_registry.rs]). *)
Module Kind.
Inductive ProviderKind : Type :=
| OpenAi | Anthropic | Perplexity | Xai | Google | ClaudeCli | GeminiCli | CodexCli | GrokCli.
End Kind.

Inductive EgoProvider : Type :=
| OpenAi | Anthropic | Perplexity | Xai | Google | ClaudeCli | GeminiCli | CodexCli | GrokCli.

#[export] Instance EgoProvider_eq_dec : EqDecision EgoProvider.
Proof. solve_decision. Defined.

Definition from_kind (k : Kind.ProviderKind) : EgoProvider :=
  match k with
  | Kind.OpenAi => OpenAi
  | Kind.Anthropic => Anthropic
  | Kind.Perplexity => Perplexity
  | Kind.Xai => Xai
  | Kind.Google => Google
  | Kind.ClaudeCli => ClaudeCli
  | Kind.GeminiCli => GeminiCli
  | Kind.CodexCli => CodexCli
  | Kind.GrokCli => GrokCli
  end.

(** [Display] of [EgoProvider], and the keys of [ego_provider_key]. *)
Definition provider_name (p : EgoProvider) : string :=
  match p with
  | OpenAi => "openai"
  | Anthropic => "anthropic"
  | Perplexity => "perplexity"
  | Xai => "xai"
  | Google => "google"
  | ClaudeCli => "claude-cli"
  | GeminiCli => "gemini-cli"
  | CodexCli => "codex-cli"
  | GrokCli => "grok-cli"
  end.

Definition is_cli (p : EgoProvider) : bool :=
  match p with ClaudeCli | GeminiCli | CodexCli | GrokCli => true | _ => false end.

Definition HEALTH_BOARD_CAPACITY : nat := 32.

(** The characters kept in the names of models and entities. *)
Definition label_char (s : string) : bool :=
  ascii_alnum_char s || is_char "-" s || is_char "_" s || is_char "." s.

Definition sanitize_label (s : string) : string :=
  RustStr.join "" (map (keep_or_underscore label_char) (chars s)).

Definition normalize_model_name (model : option string) : option string :=
  m ← model;
  let trimmed := trim m in
  if str_is_empty trimmed then None else Some (sanitize_label trimmed).

Record FastPathResult : Type := mkFastPath {
  fast_target : FastPathTarget;
  id_instinct : Z;
  ego_feasible : bool;
  context_aligned : bool;
  conscience_spawned : bool;
}.

Record RouterStatusInfo : Type := mkStatus {
  status_has_ego : bool;
  status_ego_provider : option string;
  status_has_local_http : bool;
  status_mode : RoutingMode;
}.

Record RoutingDiagnosis : Type := mkDiagnosis {
  diag_mode : string;
  diag_target : string;
  diag_selected_model : option string;
  diag_selection_reason : string;
  diag_ego_provider : option string;
  diag_has_local_llm : bool;
}.

Definition target_str (t : FastPathTarget) : string :=
  match t with Ego => "ego" | Id => "id" end.

Definition has_external_context_signal (text : string) : bool :=
  let lower := to_lowercase text in
  existsb (contains lower)
    ["search"; "web"; "http"; "api"; "fetch"; "docs"; "documentation"; "latest"; "current";
     "today"; "news"; "url"; "crawl"].

Section router.
Context {Value W : Type}.
Notation Provider := (LlmProvider Value W).
Notation Request := (CompletionRequest Value).

Record IdEgoRouter : Type := mkRouter {
  id_ : Provider;
  ego : option Provider;
  ego_provider : option EgoProvider;
  local_http : option Provider;
  mode : RoutingMode;
  selected_chat_model : option string;
  health : list Trace.ProviderHealthEntry;
}.

(** What the calls of providers do. *)
Record Net : Type := mkNet {
  outside : W;
  asked : list (FastPathTarget * Request);
  channel : list StreamEvent;
}.

Record RoutingRequest : Type := mkRouting {
  req_messages : list Message;
  req_tools : option (list (ToolDefinition Value));
  req_model_override : option string;
  req_streams : bool;
  force_id_only : bool;
}.

Record RoutingResponse : Type := mkRouted {
  completion : CompletionResponse;
  trace : option Trace.ExecutionTrace;
}.

Record BuiltProviders : Type := mkBuilt {
  built_id : Provider;
  built_local_http : option Provider;
  built_ego : option Provider;
  built_kind : option Kind.ProviderKind;
  built_mode : RoutingMode;
}.

(** ** Construction and status *)

(** A CLI provider in the Ego slot turns the primary mode into the orchestrator. *)
Definition from_built_providers (b : BuiltProviders) : IdEgoRouter :=
  let provider := from_kind <$> built_kind b in
  let mode :=
    match provider, built_mode b with
    | Some p, EgoPrimary => if is_cli p then CliOrchestrator else EgoPrimary
    | _, m => m
    end in
  mkRouter (built_id b) (built_ego b) provider (built_local_http b) mode None [].

(** [check] is the heartbeat of the local server. *)
Definition heartbeat (check : result unit string) (r : IdEgoRouter) : result unit string :=
  match local_http r with Some _ => check | None => Ok tt end.

Definition is_some {A} (o : option A) : bool := match o with Some _ => true | None => false end.

Definition has_ego (r : IdEgoRouter) : bool := is_some (ego r).

Definition best_available_provider (r : IdEgoRouter) : option Provider :=
  match ego r with Some e => Some e | None => local_http r end.

Definition router_status (r : IdEgoRouter) : RouterStatusInfo :=
  mkStatus (has_ego r) (provider_name <$> ego_provider r) (is_some (local_http r)) (mode r).

Definition target_for_mode (r : IdEgoRouter) : FastPathTarget := if has_ego r then Ego else Id.

Definition diagnose (r : IdEgoRouter) : RoutingDiagnosis :=
  mkDiagnosis (mode_debug_lower (mode r)) (target_str (target_for_mode r)) None
    (match mode r with CliOrchestrator => "cli_orchestrator" | _ => "ego_primary" end)
    (provider_name <$> ego_provider r) (is_some (local_http r)).

Definition fast_path_classify (user_message : string) (r : IdEgoRouter) : FastPathResult :=
  mkFastPath (target_for_mode r) 0 (has_ego r) (has_external_context_signal user_message) false.

(** ** Models *)

Definition ego_provider_key (r : IdEgoRouter) : option string := provider_name <$> ego_provider r.

Definition sanitize_model_override_for_target (r : IdEgoRouter) (target : FastPathTarget)
    (model : option string) : option string :=
  let normalized := normalize_model_name model in
  if bool_decide (target ≠ Ego) then normalized
  else
    model ← normalized;
    provider ← ego_provider_key r;
    if Validation.is_model_compatible_with_provider provider model then Some model else None.

Definition with_selected (model : option string) (r : IdEgoRouter) : IdEgoRouter :=
  mkRouter (id_ r) (ego r) (ego_provider r) (local_http r) (mode r) model (health r).

Definition set_selected_chat_model (model : option string) (r : IdEgoRouter) : IdEgoRouter :=
  with_selected (normalize_model_name model) r.

Definition entity_chat_subscriber_group (entity_id : string) (r : IdEgoRouter) : string :=
  "entity-subscriber." +:+ sanitize_label entity_id +:+ "." +:+
    unwrap_or (selected_chat_model r) "default".

Definition register_selected_model_subscriber (entity_id : string) (model : option string)
    (r : IdEgoRouter) : IdEgoRouter * string :=
  let r := set_selected_chat_model
             (sanitize_model_override_for_target r (target_for_mode r) model) r in
  (r, entity_chat_subscriber_group entity_id r).

(** ** The health board *)

Definition health_board (r : IdEgoRouter) : list Trace.ProviderHealthEntry := rev (health r).

Definition push_health (board : list Trace.ProviderHealthEntry) (e : Trace.ProviderHealthEntry)
  : list Trace.ProviderHealthEntry :=
  (if bool_decide (HEALTH_BOARD_CAPACITY ≤ length board) then tail board else board) ++ [e].

Definition record_health (e : Trace.ProviderHealthEntry) (r : IdEgoRouter) : IdEgoRouter :=
  mkRouter (id_ r) (ego r) (ego_provider r) (local_http r) (mode r) (selected_chat_model r)
    (push_health (health r) e).

Definition health_of_step (t : Trace.ExecutionTrace) (s : Trace.ExecutionStep)
  : Trace.ProviderHealthEntry :=
  Trace.mkHealth (Trace.provider_label s)
    (match Trace.model_reported s with Some m => Some m | None => Trace.model_requested s end)
    (if decide (Trace.step_result s = Trace.Success)
     then if Trace.fallback_occurred t then "fallback" else "healthy"
     else "degraded")
    (Trace.error_summary s) (Trace.ended_at_utc s).

Definition record_health_from_trace (t : Trace.ExecutionTrace) (r : IdEgoRouter) : IdEgoRouter :=
  foldl (λ r s, record_health (health_of_step t s) r) r (Trace.steps t).

(** ** Calls *)

(** The outcome of an action, kept as a value. *)
Definition attempt {S A} (m : M S string A) : M S string (result A string) := λ s,
  let '(s, o) := m s in (s, Ok o).

(** [provider.stream(request, tx)] or [provider.complete(request)]. *)
Definition ask (slot : FastPathTarget) (p : Provider) (streams : bool) (request : Request)
  : M Net string CompletionResponse := λ n,
  let log := asked n ++ [(slot, request)] in
  if streams then
    let '(w, events, o) := stream p request (outside n) in
    (mkNet w log (channel n ++ events), o)
  else
    let '(w, o) := complete p request (outside n) in (mkNet w log (channel n), o).

Definition id_label (r : IdEgoRouter) : string :=
  match local_http r with Some _ => "id(local_http)" | None => "id(candle_stub)" end.

Definition ego_label (r : IdEgoRouter) : string :=
  unwrap_or (provider_name <$> ego_provider r) "ego".

Definition begin_trace (uuid now : string) (model : option string) (r : IdEgoRouter)
  : Trace.ExecutionTrace :=
  Trace.with_reason Trace.EgoPrimary
    (Trace.new uuid now (mode_debug_lower (mode r)) (provider_name <$> ego_provider r) model
       (target_str (target_for_mode r))).

(** The state of a traced call. *)
Notation Traced := (M (Net * Trace.ExecutionTrace) string).

Definition on_net {A} (m : M Net string A) : Traced A := λ s,
  let '(n, o) := m s.1 in ((n, s.2), o).

Definition on_trace (f : Trace.ExecutionTrace → Trace.ExecutionTrace) : Traced unit :=
  modify (λ s, (s.1, f s.2)).

(** The Id-first path. *)
Definition id_with_fallback (clock : nat → string) (r : IdEgoRouter) (request : Request)
    (model : option string) (streams allow_ego : bool) : Traced CompletionResponse :=
  outcome ← attempt (on_net (ask Id (id_ r) streams request));
  match outcome with
  | Ok response =>
      on_trace (Trace.record_success (id_label r) None (clock 1) (clock 2)) ;; mret response
  | Err e =>
      on_trace (Trace.record_error (id_label r) None e (clock 1) (clock 2)) ;;
      match (if allow_ego then ego r else None) with
      | Some p =>
          response ← on_net (ask Ego p streams request);
          on_trace (Trace.record_success (ego_label r) model (clock 3) (clock 4)) ;; mret response
      | None => fail e
      end
  end.

Definition execute_with_fallback (clock : nat → string) (r : IdEgoRouter) (request : Request)
    (target : FastPathTarget) (model : option string) (streams allow_ego : bool)
  : Traced CompletionResponse :=
  match target, ego r with
  | Ego, Some p =>
      outcome ← attempt (on_net (ask Ego p streams request));
      match outcome with
      | Ok response =>
          on_trace (Trace.record_success (ego_label r) model (clock 1) (clock 2)) ;; mret response
      | Err e =>
          on_trace (Trace.record_error (ego_label r) model e (clock 1) (clock 2)) ;;
          response ← on_net (ask Id (id_ r) streams request);
          on_trace (Trace.record_success (id_label r) None (clock 3) (clock 4)) ;; mret response
      end
  | _, _ => id_with_fallback clock r request model streams allow_ego
  end.

Definition route_unified (uuid : string) (clock : nat → string) (req : RoutingRequest)
  : M (IdEgoRouter * Net) string RoutingResponse := λ '(r, n),
  let target := if force_id_only req then Id else target_for_mode r in
  let model := sanitize_model_override_for_target r target (req_model_override req) in
  let request := mkRequest (req_messages req) (req_tools req) model in
  let '((n, t), outcome) :=
    execute_with_fallback clock r request target model (req_streams req) (negb (force_id_only req))
      (n, begin_trace uuid (clock 0) model r) in
  let r := record_health_from_trace t r in
  match outcome with
  | Ok response => ((r, n), Ok (mkRouted response (Some t)))
  | Err e => ((r, n), Err e)
  end.

(** ** The older entry points *)

(** The body they repeat, without a trace. *)
Definition id_then_ego (r : IdEgoRouter) (streams : bool) (request : Request)
  : M Net string CompletionResponse :=
  outcome ← attempt (ask Id (id_ r) streams request);
  match outcome with
  | Ok response => mret response
  | Err e => match ego r with Some p => ask Ego p streams request | None => fail e end
  end.

Definition ego_then_id (r : IdEgoRouter) (streams : bool) (request : Request)
  : M Net string CompletionResponse :=
  match target_for_mode r, ego r with
  | Ego, Some p =>
      outcome ← attempt (ask Ego p streams request);
      match outcome with
      | Ok response => mret response
      | Err _ => ask Id (id_ r) streams request
      end
  | _, _ => id_then_ego r streams request
  end.

Definition route_fast (r : IdEgoRouter) (messages : list Message) :=
  ego_then_id r false (mkRequest messages None None).
Definition route (r : IdEgoRouter) (messages : list Message) := route_fast r messages.
Definition route_with_tools (r : IdEgoRouter) (messages : list Message) tools :=
  ego_then_id r false (mkRequest messages (Some tools) None).
Definition id_only (r : IdEgoRouter) (messages : list Message) :=
  id_then_ego r false (simple_request messages).
Definition id_stream (r : IdEgoRouter) (messages : list Message) :=
  id_then_ego r true (simple_request messages).
Definition route_stream (r : IdEgoRouter) (messages : list Message) :=
  ego_then_id r true (mkRequest messages None None).
Definition route_stream_with_tools (r : IdEgoRouter) (messages : list Message) tools :=
  ego_then_id r true (mkRequest messages (Some tools) None).

(** With a trace, returned beside the answer. *)
Definition traced (t : Trace.ExecutionTrace) (m : Traced CompletionResponse)
  : M Net string (CompletionResponse * Trace.ExecutionTrace) := λ n,
  match m (n, t) with
  | ((n, t), Ok response) => (n, Ok (response, t))
  | ((n, _), Err e) => (n, Err e)
  end.

Definition traced_route (uuid : string) (clock : nat → string) (r : IdEgoRouter) (streams : bool)
    (request : Request) (model : option string)
  : M Net string (CompletionResponse * Trace.ExecutionTrace) :=
  traced (begin_trace uuid (clock 0) model r)
    (match target_for_mode r, ego r with
     | Ego, Some p =>
         outcome ← attempt (on_net (ask Ego p streams request));
         match outcome with
         | Ok response =>
             on_trace (Trace.record_success (ego_label r) model (clock 1) (clock 2)) ;; mret response
         | Err e =>
             on_trace (Trace.record_error (ego_label r) model e (clock 1) (clock 2)) ;;
             response ← on_net (ask Id (id_ r) streams request);
             on_trace (Trace.record_success (id_label r) None (clock 3) (clock 4)) ;; mret response
         end
     | _, _ => id_with_fallback clock r request model streams true
     end).

Definition route_traced uuid clock r messages :=
  traced_route uuid clock r false (mkRequest messages None None) None.
Definition route_with_tools_traced_override uuid clock r messages tools (forced : option string) :=
  traced_route uuid clock r false (mkRequest messages (Some tools) forced) forced.
Definition route_with_tools_traced uuid clock r messages tools :=
  route_with_tools_traced_override uuid clock r messages tools None.
Definition route_stream_traced uuid clock r messages :=
  traced_route uuid clock r true (mkRequest messages None None) None.
Definition route_stream_with_tools_traced uuid clock r messages tools :=
  traced_route uuid clock r true (mkRequest messages (Some tools) None) None.

Definition id_traced (uuid : string) (clock : nat → string) (r : IdEgoRouter) (streams : bool)
    (messages : list Message) : M Net string (CompletionResponse * Trace.ExecutionTrace) :=
  traced
    (Trace.new uuid (clock 0) (mode_debug_lower (mode r)) (provider_name <$> ego_provider r) None "id")
    (id_with_fallback clock r (simple_request messages) None streams true).
Definition id_only_traced uuid clock r messages := id_traced uuid clock r false messages.
Definition id_stream_traced uuid clock r messages := id_traced uuid clock r true messages.
End router.
Arguments IdEgoRouter : clear implicits.
Arguments Net : clear implicits.
Arguments RoutingRequest : clear implicits.
