(* ===== verification/RouterSpec.v ===== *)
(** * The router: correctness

    Routing refines "ask the planned providers in order until one answers"; the
    older entry points follow the same plan; a request forced to Id never reaches
    the Ego; overrides sent to the Ego belong to its provider; the trace names the
    provider that answered and the health board keeps the latest outcomes. *)

From S2P Require Import Prelude RustStr Cognitive Router.
From Stdlib Require Import ZArith Lia Ascii.
From stdpp Require Import base list sets strings gmap pretty.

Open Scope rust_scope.

(** ** The abstract router *)

Section refinement.
Context {Value W : Type}.
Notation Provider := (LlmProvider Value W).
Notation Request := (CompletionRequest Value).
Notation Net := (Net Value W).
Notation IdEgoRouter := (IdEgoRouter Value W).
Implicit Types (r : IdEgoRouter) (n : Net) (plan : list (FastPathTarget * Provider)).

(** Ask the providers of the plan in order, until one answers; the last error is
    the answer when none does. *)
Fixpoint try_in_order plan (streams : bool) (request : Request) : M Net string CompletionResponse :=
  match plan with
  | [] => fail ""
  | [(slot, p)] => ask slot p streams request
  | (slot, p) :: plan =>
      outcome ← attempt (ask slot p streams request);
      match outcome with
      | Ok response => mret response
      | Err _ => try_in_order plan streams request
      end
  end.

(** Ego first, when there is one, then Id; Id alone when forced. *)
Definition plan_of r (forced : bool) : list (FastPathTarget * Provider) :=
  match (if forced then None else ego r) with
  | Some p => [(Ego, p); (Id, id_ r)]
  | None => [(Id, id_ r)]
  end.

Definition request_of r (req : RoutingRequest Value) : Request :=
  mkRequest (req_messages req) (req_tools req)
    (sanitize_model_override_for_target r (if force_id_only req then Id else target_for_mode r)
       (req_model_override req)).

(** ** Steps of a traced call *)

Lemma attempt_spec {S A} (m : M S string A) s : attempt m s = ((m s).1, Ok (m s).2).
Proof. unfold attempt. by destruct (m s). Qed.

Lemma on_net_spec {A} (m : M Net string A) n t :
  on_net m (n, t) = (((m n).1, t), (m n).2).
Proof. unfold on_net. simpl. by destruct (m n). Qed.

Lemma attempt_net_spec {A} (m : M Net string A) n t :
  attempt (on_net m) (n, t) = (((m n).1, t), Ok (m n).2).
Proof. by rewrite attempt_spec, on_net_spec. Qed.

Lemma attempt_bind {S A B} (m : M S string A) (k : result A string → M S string B) s :
  (attempt m ≫= k) s = k (m s).2 (m s).1.
Proof. erewrite M_bind_ok by apply attempt_spec. done. Qed.

Lemma attempt_net_bind {A B} (m : M Net string A)
    (k : result A string → M (Net * Trace.ExecutionTrace) string B) n t :
  (attempt (on_net m) ≫= k) (n, t) = k (m n).2 ((m n).1, t).
Proof. erewrite M_bind_ok by apply attempt_net_spec. done. Qed.

Lemma on_trace_bind {B} f (k : unit → M (Net * Trace.ExecutionTrace) string B) n t :
  (on_trace f ≫= k) (n, t) = k tt (n, f t).
Proof. done. Qed.

(** The last call of a traced path: it is recorded only when it answers. *)
Definition last_call clock (label : string) (model : option string) (m : M Net string CompletionResponse)
  : M (Net * Trace.ExecutionTrace) string CompletionResponse :=
  response ← on_net m;
  on_trace (Trace.record_success label model (clock 3) (clock 4)) ;; mret response.

Lemma last_call_spec (clock : nat → string) label model (m : M Net string CompletionResponse) n t :
  last_call clock label model m (n, t) =
  (((m n).1, match (m n).2 with
             | Ok _ => Trace.record_success label model (clock 3) (clock 4) t
             | Err _ => t
             end), (m n).2).
Proof.
  unfold last_call, mbind, M_bind. rewrite on_net_spec. by destruct (m n) as [n' [response|e]].
Qed.

(** The trace after the calls of the plan with the given outcomes. *)
Definition trace_of (clock : nat → string) (first second : string * option string)
    (o1 : result CompletionResponse string) (o2 : option (result CompletionResponse string))
    (t : Trace.ExecutionTrace) : Trace.ExecutionTrace :=
  match o1 with
  | Ok _ => Trace.record_success first.1 first.2 (clock 1) (clock 2) t
  | Err e =>
      let t := Trace.record_error first.1 first.2 e (clock 1) (clock 2) t in
      match o2 with
      | Some (Ok _) => Trace.record_success second.1 second.2 (clock 3) (clock 4) t
      | _ => t
      end
  end.

(** The two-provider path, whichever comes first. *)
Lemma two_calls (clock : nat → string) l1 m1 l2 m2 (c1 c2 : M Net string CompletionResponse) n t :
  (outcome ← attempt (on_net c1);
   match outcome with
   | Ok response => on_trace (Trace.record_success l1 m1 (clock 1) (clock 2)) ;; mret response
   | Err e =>
       on_trace (Trace.record_error l1 m1 e (clock 1) (clock 2)) ;; last_call clock l2 m2 c2
   end) (n, t) =
  let '(n1, o1) := c1 n in
  match o1 with
  | Ok response => ((n1, trace_of clock (l1, m1) (l2, m2) o1 None t), o1)
  | Err _ => let '(n2, o2) := c2 n1 in
      ((n2, trace_of clock (l1, m1) (l2, m2) o1 (Some o2) t), o2)
  end.
Proof.
  rewrite attempt_net_bind. destruct (c1 n) as [n1 [response|e]]; simpl; [done|].
  rewrite on_trace_bind, last_call_spec. destruct (c2 n1) as [n2 [response|e2]]; done.
Qed.

Lemma single_call (clock : nat → string) l1 m1 (c1 : M Net string CompletionResponse) n t :
  (outcome ← attempt (on_net c1);
   match outcome with
   | Ok response => on_trace (Trace.record_success l1 m1 (clock 1) (clock 2)) ;; mret response
   | Err e => on_trace (Trace.record_error l1 m1 e (clock 1) (clock 2)) ;; fail e
   end) (n, t) =
  let '(n1, o1) := c1 n in
  ((n1, trace_of clock (l1, m1) (l1, m1) o1 None t), o1).
Proof. rewrite attempt_net_bind. by destruct (c1 n) as [n1 [response|e]]. Qed.

(** What a traced call along the plan computes. *)
Definition traced_plan (clock : nat → string) r (forced : bool) (model : option string)
    (streams : bool) (request : Request) n (t : Trace.ExecutionTrace)
  : Net * Trace.ExecutionTrace * result CompletionResponse string :=
  match (if forced then None else ego r) with
  | Some p =>
      let '(n1, o1) := ask Ego p streams request n in
      match o1 with
      | Ok _ => ((n1, trace_of clock (ego_label r, model) (id_label r, None) o1 None t), o1)
      | Err _ =>
          let '(n2, o2) := ask Id (id_ r) streams request n1 in
          ((n2, trace_of clock (ego_label r, model) (id_label r, None) o1 (Some o2) t), o2)
      end
  | None =>
      let '(n1, o1) := ask Id (id_ r) streams request n in
      ((n1, trace_of clock (id_label r, None) (id_label r, None) o1 None t), o1)
  end.

Lemma id_first_plan clock r request model streams (allow : bool) n t :
  (allow = true → ego r = None) →
  id_with_fallback clock r request model streams allow (n, t) =
  let '(n1, o1) := ask Id (id_ r) streams request n in
  ((n1, trace_of clock (id_label r, None) (id_label r, None) o1 None t), o1).
Proof.
  intros Ha. unfold id_with_fallback.
  assert ((if allow then ego r else None) = None) as -> by (destruct allow; auto).
  apply (single_call clock (id_label r) None (ask Id (id_ r) streams request)).
Qed.

Lemma execute_plan clock r request model streams (forced : bool) n t :
  execute_with_fallback clock r request (if forced then Id else target_for_mode r) model streams
    (negb forced) (n, t) = traced_plan clock r forced model streams request n t.
Proof.
  unfold execute_with_fallback, traced_plan, target_for_mode, has_ego, is_some.
  destruct forced; [by apply id_first_plan|].
  destruct (ego r) as [p|] eqn:He; [|by apply id_first_plan].
  apply (two_calls clock (ego_label r) model (id_label r) None
    (ask Ego p streams request) (ask Id (id_ r) streams request)).
Qed.

Lemma try_cons slot p x plan streams request n :
  try_in_order ((slot, p) :: x :: plan) streams request n =
  match (ask slot p streams request n).2 with
  | Ok response => ((ask slot p streams request n).1, Ok response)
  | Err _ => try_in_order (x :: plan) streams request (ask slot p streams request n).1
  end.
Proof.
  change (try_in_order ((slot, p) :: x :: plan) streams request) with
    (outcome ← attempt (ask slot p streams request);
     match outcome with
     | Ok response => mret response
     | Err _ => try_in_order (x :: plan) streams request
     end).
  rewrite attempt_bind. by destruct (ask slot p streams request n) as [n1 [response|e]].
Qed.

(** The plan, seen without the trace. *)
Lemma traced_plan_try clock r forced model streams request n t :
  let '((n', _), o) := traced_plan clock r forced model streams request n t in
  try_in_order (plan_of r forced) streams request n = (n', o).
Proof.
  unfold traced_plan, plan_of. destruct (if forced then None else ego r) as [p|]; cbn [try_in_order].
  - rewrite attempt_bind. destruct (ask Ego p streams request n) as [n1 [response|e]]; [done|].
    simpl. by destruct (ask Id (id_ r) streams request n1).
  - by destruct (ask Id (id_ r) streams request n).
Qed.

Lemma route_unified_plan uuid clock req r n :
  route_unified uuid clock req (r, n) =
  let '((n', t), o) :=
    traced_plan clock r (force_id_only req) (model_override (request_of r req)) (req_streams req)
      (request_of r req) n (begin_trace uuid (clock 0) (model_override (request_of r req)) r) in
  ((record_health_from_trace t r, n'),
   match o with Ok response => Ok (mkRouted response (Some t)) | Err e => Err e end).
Proof.
  unfold route_unified. rewrite execute_plan. unfold request_of. cbn [model_override].
  by destruct (traced_plan _ _ _ _ _ _ _ _) as [[n' t] [response|e]].
Qed.

Lemma route_unified_tries uuid clock req r n :
  let '((_, n'), outcome) := route_unified uuid clock req (r, n) in
  try_in_order (plan_of r (force_id_only req)) (req_streams req) (request_of r req) n =
    (n', match outcome with Ok routed => Ok (completion routed) | Err e => Err e end).
Proof.
  rewrite route_unified_plan.
  pose proof (traced_plan_try clock r (force_id_only req) (model_override (request_of r req))
    (req_streams req) (request_of r req) n
    (begin_trace uuid (clock 0) (model_override (request_of r req)) r)) as Ht.
  destruct (traced_plan _ _ _ _ _ _ _ _) as [[n' t] [response|e]]; exact Ht.
Qed.

(** C32: routing refines the abstract router: the calls made, their effects, what
    goes through the channel, and the answer or the error are those of asking the
    planned providers in order (the Ego, when there is one, then Id; Id alone when
    forced) until one answers. *)
Theorem route_unified_refines uuid clock req r n :
  let '((_, n'), outcome) := route_unified uuid clock req (r, n) in
  try_in_order (plan_of r (force_id_only req)) (req_streams req) (request_of r req) n =
    (n', match outcome with Ok routed => Ok (completion routed) | Err e => Err e end).
Proof. apply route_unified_tries. Qed.

(** ** The older entry points *)

Lemma ego_then_id_try r streams request n :
  ego_then_id r streams request n = try_in_order (plan_of r false) streams request n.
Proof.
  unfold ego_then_id, id_then_ego, plan_of, target_for_mode, has_ego, is_some.
  destruct (ego r) as [p|]; cbn [try_in_order]; [done|].
  rewrite attempt_bind. by destruct (ask Id (id_ r) streams request n) as [n1 [response|e]].
Qed.

Lemma traced_route_try uuid clock r streams request model n :
  traced_route uuid clock r streams request model n =
  let '((n', t), o) :=
    traced_plan clock r false model streams request n (begin_trace uuid (clock 0) model r) in
  (n', match o with Ok response => Ok (response, t) | Err e => Err e end).
Proof.
  unfold traced_route, traced.
  change (match target_for_mode r, ego r with
          | Ego, Some p => _ | _, _ => id_with_fallback clock r request model streams true end)
    with (execute_with_fallback clock r request (target_for_mode r) model streams true).
  rewrite (execute_plan clock r request model streams false).
  by destruct (traced_plan _ _ _ _ _ _ _ _) as [[n' t] [response|e]].
Qed.

Definition same_answer {A} (f : A → CompletionResponse) (x : Net * result A string)
    (y : IdEgoRouter * Net * result RoutingResponse string) : Prop :=
  x.1 = y.1.2 ∧
  match x.2, y.2 with
  | Ok a, Ok routed => f a = completion routed
  | Err e, Err e' => e = e'
  | _, _ => False
  end.

Lemma untraced_agrees uuid clock r streams messages tools n :
  same_answer id (ego_then_id r streams (mkRequest messages tools None) n)
    (route_unified uuid clock (mkRouting messages tools None streams false) (r, n)).
Proof.
  rewrite ego_then_id_try.
  pose proof (route_unified_tries uuid clock (mkRouting messages tools None streams false) r n) as H.
  destruct (route_unified _ _ _ _) as [[r' n'] o]. unfold request_of in H. cbn in H.
  replace (sanitize_model_override_for_target r (target_for_mode r) None)
    with (@None string) in H by (unfold sanitize_model_override_for_target; by case_bool_decide).
  rewrite H. split; [done|]. by destruct o.
Qed.

Lemma traced_agrees uuid clock r streams messages tools n :
  same_answer fst (traced_route uuid clock r streams (mkRequest messages tools None) None n)
    (route_unified uuid clock (mkRouting messages tools None streams false) (r, n)).
Proof.
  rewrite traced_route_try, route_unified_plan. unfold request_of. cbn.
  replace (sanitize_model_override_for_target r (target_for_mode r) None)
    with (@None string) by (unfold sanitize_model_override_for_target; by case_bool_decide).
  by destruct (traced_plan _ _ _ _ _ _ _ _) as [[n' t] [response|e]].
Qed.

(** Every older entry point that may use the Ego behaves as the unified one:
    for the same messages and tools, streaming or not, traced or not, the calls
    made and the answer are those of [route_unified]. *)
Theorem older_routes_agree uuid clock r messages tools n :
  let unified tools streams :=
    route_unified uuid clock (mkRouting messages tools None streams false) (r, n) in
  same_answer id (route_fast r messages n) (unified None false) ∧
  same_answer id (route r messages n) (unified None false) ∧
  same_answer id (route_with_tools r messages tools n) (unified (Some tools) false) ∧
  same_answer id (route_stream r messages n) (unified None true) ∧
  same_answer id (route_stream_with_tools r messages tools n) (unified (Some tools) true) ∧
  same_answer fst (route_traced uuid clock r messages n) (unified None false) ∧
  same_answer fst (route_with_tools_traced uuid clock r messages tools n)
    (unified (Some tools) false) ∧
  same_answer fst (route_stream_traced uuid clock r messages n) (unified None true) ∧
  same_answer fst (route_stream_with_tools_traced uuid clock r messages tools n)
    (unified (Some tools) true).
Proof. split_and!; first [apply untraced_agrees|apply traced_agrees]. Qed.

(** ** What is asked of whom *)

Lemma ask_asked slot p streams request n :
  asked (ask slot p streams request n).1 = asked n ++ [(slot, request)].
Proof.
  unfold ask. destruct streams.
  - by destruct (stream p request (outside n)) as [[w events] o].
  - by destruct (complete p request (outside n)) as [w o].
Qed.

Lemma try_in_order_asked plan streams request n :
  ∃ slots, slots `prefix_of` map fst plan ∧
    asked (try_in_order plan streams request n).1 = asked n ++ map (λ s, (s, request)) slots.
Proof.
  revert n. induction plan as [|[slot p] plan IH]; intros n.
  { exists []. simpl. by rewrite app_nil_r. }
  destruct plan as [|x plan].
  { exists [slot]. split; [done|]. apply ask_asked. }
  rewrite try_cons.
  pose proof (ask_asked slot p streams request n) as Ha.
  destruct (ask slot p streams request n) as [n1 [response|e]]; cbn [fst snd] in Ha |- *.
  - exists [slot]. split; [apply prefix_cons, prefix_nil|]. exact Ha.
  - destruct (IH n1) as (slots & Hp & Hl). exists (slot :: slots).
    split; [by apply prefix_cons|]. rewrite Hl, Ha. by rewrite <- app_assoc.
Qed.

Lemma route_unified_asked uuid clock req r n r' n' o :
  route_unified uuid clock req (r, n) = ((r', n'), o) →
  ∃ slots, slots `prefix_of` map fst (plan_of r (force_id_only req)) ∧
    asked n' = asked n ++ map (λ s, (s, request_of r req)) slots.
Proof.
  intros Hr. pose proof (route_unified_tries uuid clock req r n) as H. rewrite Hr in H.
  destruct (try_in_order_asked (plan_of r (force_id_only req)) (req_streams req) (request_of r req) n)
    as (slots & Hp & Hl). rewrite H in Hl. eauto.
Qed.

Lemma forced_id_asks uuid clock req r n r' n' o :
  force_id_only req = true → route_unified uuid clock req (r, n) = ((r', n'), o) →
  asked n' = asked n ++ [(Id, request_of r req)].
Proof.
  intros Hf Hr. pose proof (route_unified_tries uuid clock req r n) as H.
  rewrite Hr, Hf in H. unfold plan_of in H. cbn [try_in_order] in H.
  pose proof (ask_asked Id (id_ r) (req_streams req) (request_of r req) n) as Ha.
  by rewrite H in Ha.
Qed.

(** A request forced to Id asks Id once and nobody else, whatever Id answers:
    what it holds never reaches the Ego. *)
Theorem forced_id_stays_local uuid clock req r n r' n' o :
  force_id_only req = true → route_unified uuid clock req (r, n) = ((r', n'), o) →
  asked n' = asked n ++ [(Id, request_of r req)].
Proof. apply forced_id_asks. Qed.

(** The older [id_only], which the documentation of [route_unified] replaces by
    [force_id_only], does reach the Ego when Id fails. *)
Theorem id_only_reaches_ego r messages n p n1 e :
  ego r = Some p → ask Id (id_ r) false (simple_request messages) n = (n1, Err e) →
  asked (id_only r messages n).1 =
    asked n ++ [(Id, simple_request messages); (Ego, simple_request messages)].
Proof.
  intros He Hid. unfold id_only, id_then_ego. rewrite attempt_bind, Hid, He. cbn [fst snd].
  rewrite ask_asked. pose proof (ask_asked Id (id_ r) false (simple_request messages) n) as Ha.
  rewrite Hid in Ha. simpl in Ha. by rewrite Ha, <- app_assoc.
Qed.
End refinement.

(** ** Names of models *)

Section models.
Context {Value W : Type}.
Notation IdEgoRouter := (IdEgoRouter Value W).
Implicit Types (r : IdEgoRouter).

Lemma label_char_ascii s : label_char s = true → ∃ c, s = String c "" ∧ (N_of_ascii c <? 128)%N = true.
Proof.
  unfold label_char. intros [[[H|H]%orb_true_iff|H]%orb_true_iff|H]%orb_true_iff;
    [by apply ascii_alnum_ascii|eapply is_char_ascii; [|exact H]; done..].
Qed.

Notation label_bytes := (kept_bytes label_char).

Lemma sanitize_label_bytes s : label_bytes (sanitize_label s).
Proof. by apply keep_kept; [apply label_char_ascii|]. Qed.

Lemma sanitize_label_id s : label_bytes s → sanitize_label s = s.
Proof. apply keep_id, label_char_ascii. Qed.

Lemma label_not_space c : label_char (String c "") = true → is_whitespace c = false.
Proof.
  unfold label_char. intros H. destruct (is_whitespace c) eqn:Hw; [exfalso|done].
  revert H Hw. by destruct c as [[] [] [] [] [] [] [] []].
Qed.

Lemma trim_label s : label_bytes s → trim s = s.
Proof.
  intros Hs. assert (trim_start s = s) as Hst.
  { destruct s as [|c s]; [done|]. simpl. apply Forall_cons in Hs as [Hc _].
    by rewrite label_not_space. }
  unfold trim. rewrite Hst. clear Hst. induction s as [|c s IH]; [done|].
  apply Forall_cons in Hs as [Hc Hs]. simpl. rewrite IH by done.
  destruct s; [|done]. by rewrite label_not_space.
Qed.

Lemma normalize_some m m' :
  normalize_model_name m = Some m' → label_bytes m' ∧ m' ≠ "".
Proof.
  unfold normalize_model_name. destruct m as [s|]; simpl; [|done].
  destruct (str_is_empty (trim s)) eqn:He; [done|]. intros [= <-].
  split; [apply sanitize_label_bytes|].
  destruct (trim s) as [|c t]; [done|]. unfold sanitize_label, chars. simpl.
  assert (∀ x l, keep_or_underscore label_char x ≠ "" →
    RustStr.join "" (keep_or_underscore label_char x :: l) ≠ "") as Hj.
  { intros x l Hx. rewrite join_nil_cons. by destruct (keep_or_underscore label_char x). }
  assert (∀ x, x ≠ "" → keep_or_underscore label_char x ≠ "") as Hk
    by (intros x Hx; unfold keep_or_underscore; by destruct (label_char x)).
  destruct (N_of_ascii c <? 128)%N; [by apply Hj, Hk|].
  destruct (take_continuation t) as [a b]. by apply Hj, Hk.
Qed.

(** Whatever name the caller gives, the model override of the request that
    is sent is a non-empty name of ASCII letters, digits, dashes, underscores and
    dots, stable under a second normalisation; and when the Ego is asked first it
    is one of the models of the Ego's provider, or the router does not know which
    provider that is and there is no override. *)
Theorem override_sanitized r req m :
  model_override (request_of r req) = Some m →
  kept_bytes label_char m ∧ m ≠ "" ∧ normalize_model_name (Some m) = Some m ∧
  (force_id_only req = false → has_ego r = true →
   ∃ p, ego_provider r = Some p ∧
     Validation.is_model_compatible_with_provider (provider_name p) m = true).
Proof.
  unfold request_of. cbn [model_override]. unfold sanitize_model_override_for_target.
  intros Hm.
  assert (normalize_model_name (req_model_override req) = Some m) as Hn.
  { case_bool_decide; [done|]. destruct (normalize_model_name _) as [m'|]; [|done]. simpl in Hm.
    destruct (ego_provider_key r) as [p|]; [|done]. simpl in Hm.
    destruct (Validation.is_model_compatible_with_provider p m'); congruence. }
  destruct (normalize_some _ _ Hn) as [Hb He]. split; [done|]. split; [done|]. split.
  { unfold normalize_model_name. simpl. rewrite trim_label by done.
    destruct m; [done|]. simpl. f_equal. by apply sanitize_label_id. }
  intros Hf Hego. rewrite Hf in Hm. unfold target_for_mode in Hm. rewrite Hego, Hn in Hm. simpl in Hm.
  unfold ego_provider_key in Hm. destruct (ego_provider r) as [p|]; [|done]. simpl in Hm.
  exists p. split; [done|].
  by destruct (Validation.is_model_compatible_with_provider (provider_name p) m).
Qed.

(** The fallback sends the Ego's override to Id: the same request is asked of
    both, so the local provider is asked for a model of the remote one. *)
Theorem fallback_keeps_ego_model uuid clock req r n p n1 e :
  ego r = Some p → force_id_only req = false →
  ask Ego p (req_streams req) (request_of r req) n = (n1, Err e) →
  asked (route_unified uuid clock req (r, n)).1.2 =
    asked n ++ [(Ego, request_of r req); (Id, request_of r req)].
Proof.
  intros He Hf Hask. rewrite route_unified_plan. unfold traced_plan. rewrite Hf, He, Hask.
  pose proof (ask_asked Id (id_ r) (req_streams req) (request_of r req) n1) as Ha.
  pose proof (ask_asked Ego p (req_streams req) (request_of r req) n) as Ha1.
  rewrite Hask in Ha1. simpl in Ha1.
  destruct (ask Id _ _ _ n1) as [n2 o2]. simpl in *. by rewrite Ha, Ha1, <- app_assoc.
Qed.
End models.

(** ** Traces and health *)

Section traces.
Context {Value W : Type}.
Notation IdEgoRouter := (IdEgoRouter Value W).
Notation Net := (Net Value W).
Implicit Types (r : IdEgoRouter) (n : Net).

Definition label_of r (slot : FastPathTarget) : string :=
  match slot with Ego => ego_label r | Id => id_label r end.

(** The trace of an answered request tells the truth: it has one step for
    each provider asked, the last of which is the final one, names the provider
    that answered and succeeded, all earlier ones failed, and a fallback is
    reported exactly when the first provider asked was not the one that
    answered. *)
Theorem trace_attribution uuid clock req r n r' n' routed t :
  route_unified uuid clock req (r, n) = ((r', n'), Ok routed) → trace routed = Some t →
  ∃ slots slot, asked n' = asked n ++ map (λ s, (s, request_of r req)) (slots ++ [slot]) ∧
    map Trace.provider_label (Trace.steps t) = map (label_of r) (slots ++ [slot]) ∧
    map Trace.step_result (Trace.steps t) = map (λ _, Trace.Error) slots ++ [Trace.Success] ∧
    Trace.final_provider t = Some (label_of r slot) ∧
    Trace.fallback_occurred t = bool_decide (slots ≠ []).
Proof.
  rewrite route_unified_plan. unfold traced_plan.
  destruct (if force_id_only req then None else ego r) as [p|].
  - pose proof (ask_asked Ego p (req_streams req) (request_of r req) n) as Ha.
    destruct (ask Ego p _ _ n) as [n1 [response|e]]; simpl in Ha.
    + intros [= <- <- <-] [= <-]. exists [], Ego. by rewrite Ha.
    + pose proof (ask_asked Id (id_ r) (req_streams req) (request_of r req) n1) as Ha2.
      destruct (ask Id _ _ _ n1) as [n2 [response|e2]]; simpl in Ha2; [|done].
      intros [= <- <- <-] [= <-]. exists [Ego], Id. by rewrite Ha2, Ha, <- app_assoc.
  - pose proof (ask_asked Id (id_ r) (req_streams req) (request_of r req) n) as Ha.
    destruct (ask Id _ _ _ n) as [n1 [response|e]]; simpl in Ha; [|done].
    intros [= <- <- <-] [= <-]. exists [], Id. by rewrite Ha.
Qed.

Lemma push_health_last board e :
  length board ≤ HEALTH_BOARD_CAPACITY →
  push_health board e = keep_last HEALTH_BOARD_CAPACITY (board ++ [e]).
Proof.
  intros Hl. rewrite keep_last_drop. unfold push_health. rewrite length_app. simpl length.
  case_bool_decide as Hc.
  - replace (length board + 1 - HEALTH_BOARD_CAPACITY) with 1 by lia.
    destruct board as [|x board]; [by unfold HEALTH_BOARD_CAPACITY in Hc; simpl in Hc; lia|done].
  - by replace (length board + 1 - HEALTH_BOARD_CAPACITY) with 0 by lia.
Qed.

(** The health board is the last 32 outcomes: a request adds the entry of
    each step of its trace, in order, and the oldest ones make room; the board
    never holds more. *)
Theorem health_board_spec t r :
  length (health r) ≤ HEALTH_BOARD_CAPACITY →
  health (record_health_from_trace t r) =
    keep_last HEALTH_BOARD_CAPACITY (health r ++ map (health_of_step t) (Trace.steps t)) ∧
  length (health (record_health_from_trace t r)) ≤ HEALTH_BOARD_CAPACITY.
Proof.
  intros Hl. enough (health (record_health_from_trace t r) =
    keep_last HEALTH_BOARD_CAPACITY (health r ++ map (health_of_step t) (Trace.steps t))) as Heq.
  { split; [done|]. rewrite Heq, length_keep_last. lia. }
  unfold record_health_from_trace. generalize (Trace.steps t) as l. intros l.
  revert r Hl. induction l as [|s l IH]; intros r Hl; simpl.
  - rewrite app_nil_r, keep_last_drop. by replace (length (health r) - HEALTH_BOARD_CAPACITY) with 0 by lia.
  - assert (health (record_health (health_of_step t s) r) =
      keep_last HEALTH_BOARD_CAPACITY (health r ++ [health_of_step t s])) as Hh
      by by apply push_health_last.
    rewrite IH; rewrite Hh.
    + by rewrite keep_last_keep_last, <- app_assoc.
    + rewrite length_keep_last. lia.
Qed.

(** When both providers fail, the failure of the second is not recorded: the
    trace, and with it the health board, shows the first only. *)
Theorem second_failure_unrecorded uuid clock req r n p n1 e1 n2 e2 :
  ego r = Some p → force_id_only req = false → health r = [] →
  ask Ego p (req_streams req) (request_of r req) n = (n1, Err e1) →
  ask Id (id_ r) (req_streams req) (request_of r req) n1 = (n2, Err e2) →
  ∃ r', route_unified uuid clock req (r, n) = ((r', n2), Err e2) ∧
    map Trace.health_provider (health_board r') = [ego_label r].
Proof.
  intros He Hf Hh H1 H2. rewrite route_unified_plan. unfold traced_plan. rewrite Hf, He, H1, H2.
  eexists. split; [done|]. unfold health_board, record_health_from_trace. simpl. by rewrite Hh.
Qed.

(** A streamed request that falls back leaves what the Ego had sent in the
    channel: the client receives the events of the failed attempt before those of
    the answer. *)
Theorem stream_fallback_keeps_partial uuid clock req r n p w1 ev1 e1 w2 ev2 response :
  ego r = Some p → force_id_only req = false → req_streams req = true →
  stream p (request_of r req) (outside n) = (w1, ev1, Err e1) →
  stream (id_ r) (request_of r req) w1 = (w2, ev2, Ok response) →
  ∃ r' n' t, route_unified uuid clock req (r, n) = ((r', n'), Ok (mkRouted response (Some t))) ∧
    channel n' = channel n ++ ev1 ++ ev2.
Proof.
  intros He Hf Hs H1 H2. rewrite route_unified_plan. unfold traced_plan. rewrite Hf, He, Hs.
  unfold ask. rewrite H1. simpl. rewrite H2.
  eexists _, _, _. split; [done|]. simpl. by rewrite app_assoc.
Qed.
End traces.

(** ** Witnesses *)

Module RouterDemo.

(** A provider that answers with its name, and one that always fails, after a
    partial answer when it streams; the outside counts the calls. *)
Definition answering (name : string) : LlmProvider unit nat := mkProvider
  (λ _ w, (S w, Ok (mkResponse name None)))
  (default_stream (λ _ w, (S w, Ok (mkResponse name None)))).
Definition failing : LlmProvider unit nat := mkProvider
  (λ _ w, (S w, Err "overloaded"))
  (λ _ w, (S w, [Token "par"], Err "overloaded")).

Definition router (id ego : LlmProvider unit nat) : IdEgoRouter unit nat :=
  mkRouter id (Some ego) (Some OpenAi) None EgoPrimary None [].
Definition net : Net unit nat := mkNet 0 [] [].
Definition hello (streams forced : bool) : RoutingRequest unit :=
  mkRouting [new_message "user" "hello"] None (Some " gpt-4.1 ") streams forced.
Definition ticks (n : nat) : string := pretty n.

End RouterDemo.

Section witnesses.
Import RouterDemo.

Lemma forced_id_stays_local_witness :
  asked (route_unified "t" ticks (hello false true) (router failing (answering "ego"), net)).1.2 =
    [(Id, request_of (router failing (answering "ego")) (hello false true))].
Proof.
  apply (forced_id_stays_local "t" ticks (hello false true) (router failing (answering "ego")) net
    (route_unified "t" ticks (hello false true) (router failing (answering "ego"), net)).1.1 _
    (Err "overloaded")); vm_compute; reflexivity.
Defined.

Lemma override_sanitized_witness :
  model_override (request_of (router failing (answering "ego")) (hello false false)) = Some "gpt-4.1" ∧
  Validation.is_model_compatible_with_provider "openai" "gpt-4.1" = true.
Proof.
  split; [vm_compute; reflexivity|].
  destruct (override_sanitized (router failing (answering "ego")) (hello false false) "gpt-4.1")
    as (_ & _ & _ & H); [vm_compute; reflexivity|].
  destruct (H eq_refl eq_refl) as (p & Hp & Hc). simpl in Hp. injection Hp as <-. exact Hc.
Defined.

Lemma fallback_keeps_ego_model_witness :
  asked (route_unified "t" ticks (hello false false) (router (answering "id") failing, net)).1.2 =
    [(Ego, mkRequest [new_message "user" "hello"] None (Some "gpt-4.1"));
     (Id, mkRequest [new_message "user" "hello"] None (Some "gpt-4.1"))].
Proof.
  etrans; [apply (fallback_keeps_ego_model "t" ticks (hello false false)
    (router (answering "id") failing) net failing
    (mkNet 1 [(Ego, request_of (router (answering "id") failing) (hello false false))] [])
    "overloaded"); vm_compute; reflexivity|vm_compute; reflexivity].
Defined.

Lemma id_only_reaches_ego_witness :
  map fst (asked (id_only (router failing (answering "ego")) [new_message "user" "secret"] net).1)
    = [Id; Ego].
Proof.
  rewrite (id_only_reaches_ego (router failing (answering "ego")) [new_message "user" "secret"] net
    (answering "ego") (mkNet 1 [(Id, simple_request [new_message "user" "secret"])] []) "overloaded");
    vm_compute; reflexivity.
Defined.

Definition demo_run :=
  route_unified "t" ticks (hello false false) (router (answering "id") failing, net).
Definition demo_trace : Trace.ExecutionTrace :=
  match demo_run.2 with
  | Ok routed => default (Trace.new "" "" "" None None "") (trace routed)
  | Err _ => Trace.new "" "" "" None None ""
  end.

Lemma trace_attribution_witness :
  ∃ slots slot, map fst (asked demo_run.1.2) = slots ++ [slot] ∧
    Trace.final_provider demo_trace = Some (label_of (router (answering "id") failing) slot).
Proof.
  destruct (trace_attribution "t" ticks (hello false false) (router (answering "id") failing) net
    demo_run.1.1 demo_run.1.2 (mkRouted (mkResponse "id" None) (Some demo_trace)) demo_trace)
    as (slots & slot & Ha & _ & _ & Hf & _); [vm_compute; reflexivity|reflexivity|].
  exists slots, slot. split; [|exact Hf]. rewrite Ha. simpl. rewrite map_map. apply map_id.
Defined.

Lemma health_board_spec_witness :
  length (health (record_health_from_trace (begin_trace "t" "0" None (router failing failing))
    (router failing failing))) ≤ HEALTH_BOARD_CAPACITY.
Proof.
  apply (health_board_spec (begin_trace "t" "0" None (router failing failing))
    (router failing failing)). simpl. lia.
Defined.

Lemma second_failure_unrecorded_witness :
  ∃ r', route_unified "t" ticks (hello false false) (router failing failing, net) =
    ((r', mkNet 2 [(Ego, request_of (router failing failing) (hello false false));
                   (Id, request_of (router failing failing) (hello false false))] []),
     Err "overloaded") ∧ map Trace.health_provider (health_board r') = ["openai"].
Proof.
  apply (second_failure_unrecorded "t" ticks (hello false false) (router failing failing) net failing
    (mkNet 1 [(Ego, request_of (router failing failing) (hello false false))] []) "overloaded");
    vm_compute; reflexivity.
Defined.

Lemma stream_fallback_keeps_partial_witness :
  ∃ r' n' t, route_unified "t" ticks (hello true false) (router (answering "id") failing, net) =
      ((r', n'), Ok (mkRouted (mkResponse "id" None) (Some t))) ∧
    channel n' = [Token "par"; Token "id"; Done (mkResponse "id" None)].
Proof.
  apply (stream_fallback_keeps_partial "t" ticks (hello true false) (router (answering "id") failing)
    net failing 1 [Token "par"] "overloaded" 2 [Token "id"; Done (mkResponse "id" None)]);
    vm_compute; reflexivity.
Defined.
End witnesses.
