(* ===== verification/Json.v ===== *)
(** * JSON values

    [serde_json::Value] and the accessors the source uses of it.  Parsing and
    printing are code of that crate: the operations of the class [JsonText]. *)

From S2P Require Import Prelude RustStr.
From Stdlib Require Import ZArith Lia.
From stdpp Require Import base list strings gmap.

(** [serde_json::Number]; a float is only carried around. *)
Inductive Number : Type := PosInt (n : Z) | NegInt (n : Z) | Float (text : string).

(** An object is the list of its members, their keys distinct. *)
Inductive Value : Type :=
| Null
| Bool (b : bool)
| Num (n : Number)
| Str (s : string)
| Arr (l : list Value)
| Obj (members : list (string * Value)).

#[export] Instance number_eq_dec : EqDecision Number.
Proof. solve_decision. Defined.

Fixpoint value_eqb (v w : Value) {struct v} : bool :=
  match v, w with
  | Null, Null => true
  | Bool a, Bool b => bool_decide (a = b)
  | Num a, Num b => bool_decide (a = b)
  | Str a, Str b => bool_decide (a = b)
  | Arr l, Arr k =>
      (fix all (l k : list Value) {struct l} : bool :=
         match l, k with
         | [], [] => true
         | a :: l, b :: k => value_eqb a b && all l k
         | _, _ => false
         end) l k
  | Obj l, Obj k =>
      (fix all (l k : list (string * Value)) {struct l} : bool :=
         match l, k with
         | [], [] => true
         | (i, a) :: l, (j, b) :: k => bool_decide (i = j) && value_eqb a b && all l k
         | _, _ => false
         end) l k
  | _, _ => false
  end.

Class JsonText : Type := {
  from_str : string → result Value string;
  to_string : Value → string;
}.

Fixpoint member (key : string) (members : list (string * Value)) : option Value :=
  match members with
  | [] => None
  | (k, v) :: rest => if decide (k = key) then Some v else member key rest
  end.

Definition get (key : string) (v : Value) : option Value :=
  match v with Obj members => member key members | _ => None end.

(** [value[key]]: [Null] when there is no such member. *)
Definition index (key : string) (v : Value) : Value := unwrap_or (get key v) Null.

Definition as_str (v : Value) : option string := match v with Str s => Some s | _ => None end.
Definition as_bool (v : Value) : option bool := match v with Bool b => Some b | _ => None end.
Definition as_u64 (v : Value) : option Z := match v with Num (PosInt n) => Some n | _ => None end.
Definition as_array (v : Value) : option (list Value) := match v with Arr l => Some l | _ => None end.

(** [args[key].as_str().unwrap_or(default)]. *)
Definition str_or (default key : string) (v : Value) : string :=
  unwrap_or (as_str (index key v)) default.

(** [json!(option)]. *)
Definition json_opt (o : option string) : Value := match o with Some s => Str s | None => Null end.

Definition json_error (msg : string) : Value := Obj [("error", Str msg)].

(** [value[key] = v] on an object. *)
Fixpoint set_member (key : string) (v : Value) (members : list (string * Value))
  : list (string * Value) :=
  match members with
  | [] => [(key, v)]
  | (k, w) :: rest => if decide (k = key) then (k, v) :: rest else (k, w) :: set_member key v rest
  end.

Lemma member_set key v members k :
  member k (set_member key v members) = if decide (key = k) then Some v else member k members.
Proof.
  induction members as [|[k' w] rest IH]; simpl; [done|].
  repeat (case_decide; simplify_eq/=); try done; congruence.
Qed.
