(* ===== verification/Instructions.v ===== *)
(** * The instruction registry ([crates/abigail-skills/src/instruction_registry.rs])

    [InstructionRegistry]: the instructions of the skills, and which of them a
    prompt or a delegated job gets.  Reading a file and parsing the registry are
    arguments of [load]; a [HashMap] is a [gmap], walked in the order of
    [map_to_list].  The theorems follow the definitions. *)

From S2P Require Import Prelude RustStr.
From Stdlib Require Import ZArith Lia Ascii.
From stdpp Require Import base list sorting sets strings gmap.

Open Scope rust_scope.

Inductive PromptInjectionMode : Type := PerMessage | NoInjection | TopicAffinity.

Record SkillInstructionEntry : Type := mkInstruction {
  instr_id : string;
  instruction_file : string;
  keywords : list string;
  topics : list string;
  enabled : bool;
}.

(** The serde default of [enabled]. *)
Definition default_enabled : bool := true.

Record InstructionRegistry : Type := mkInstructions {
  entries : gmap string (SkillInstructionEntry * string);
}.

Definition empty_instructions : InstructionRegistry := mkInstructions ∅.

(** [read] is [read_to_string] of a path; [parse] is [toml::from_str]. *)
Definition load_entry (read : string → result string string)
    (m : gmap string (SkillInstructionEntry * string)) (entry : SkillInstructionEntry)
  : gmap string (SkillInstructionEntry * string) :=
  if negb (enabled entry) then m
  else match read (instruction_file entry) with
  | Ok content => <[instr_id entry := (entry, content)]> m
  | Err _ => m
  end.

Definition load (registry_file : result string string)
    (parse : string → result (list SkillInstructionEntry) string)
    (read : string → result string string) : InstructionRegistry :=
  match registry_file with
  | Err _ => empty_instructions
  | Ok toml_content =>
      match parse toml_content with
      | Err _ => empty_instructions
      | Ok skill => mkInstructions (foldl (load_entry read) ∅ skill)
      end
  end.

Definition matches (msg_lower : string) (words : list string) : bool :=
  existsb (λ kw, contains msg_lower (to_lowercase kw)) words.

Section registry.
Implicit Types r : InstructionRegistry.

Definition select_instructions (user_message : string) r : list (string * string) :=
  let msg_lower := to_lowercase user_message in
  omap (λ '(id, (entry, content)),
    if matches msg_lower (keywords entry) then Some (id, content) else None)
    (map_to_list (entries r)).

Definition entry_text (e : string * string) : string :=
  "<!-- skill: " +:+ e.1 +:+ " -->" +:+ nl +:+ e.2 +:+ nl +:+ nl.

Definition prompt_header : string :=
  nl +:+ nl +:+ "## Skill-Specific Instructions" +:+ nl +:+ nl.

(** [for .. in l { section.push_str(..) }] after the header. *)
Definition push_entries (header : string) (l : list (string * string)) : string :=
  match l with
  | [] => ""
  | _ => header +:+ RustStr.join "" (map entry_text l)
  end.

Definition format_for_prompt (user_message : string) r : string :=
  push_entries prompt_header (select_instructions user_message r).

Definition format_for_prompt_filtered (user_message : string) (registered : gset string) r
  : string :=
  push_entries prompt_header
    (filter (λ e, e.1 ∈ registered) (select_instructions user_message r)).

(** The words of the most specific keyword found in the message. *)
Definition best_specificity (msg_lower : string) (keywords : list string) : option nat :=
  match map (λ kw, length (split_whitespace kw))
          (filter (λ kw, contains msg_lower (to_lowercase kw) = true) keywords) with
  | [] => None
  | n :: l => Some (foldl Nat.max n l)
  end.

Definition scored (user_message : string) (registered : gset string) r
  : list (string * string * nat) :=
  let msg_lower := to_lowercase user_message in
  omap (λ '(id, (entry, content)),
    if bool_decide (id ∈ registered)
    then (λ n, (id, content, n)) <$> best_specificity msg_lower (keywords entry)
    else None)
    (map_to_list (entries r)).

(** [sort_by_key(|item| Reverse(item.2))], a stable sort. *)
Definition by_specificity (a b : string * string * nat) : bool := b.2 <=? a.2.

(** The loop over the sorted entries: [count] and [total_bytes] so far. *)
Fixpoint budgeted (max_instructions max_bytes count total_bytes : nat)
    (l : list (string * string * nat)) : list (string * string) :=
  match l with
  | [] => []
  | (e, _) :: rest =>
      if max_instructions <=? count then []
      else if max_bytes <? total_bytes + String.length (entry_text e) then []
      else e :: budgeted max_instructions max_bytes (S count)
                  (total_bytes + String.length (entry_text e)) rest
  end.

Definition format_for_prompt_budgeted (user_message : string) (registered : gset string)
    (max_instructions max_bytes : nat) r : string :=
  if (max_instructions =? 0) || (max_bytes =? 0) then ""
  else push_entries prompt_header
    (budgeted max_instructions max_bytes 0 0
      (sort_by by_specificity (scored user_message registered r))).

Definition select_instructions_for_delegation (user_message : string) (registered : gset string) r
  : list (string * string) :=
  let msg_lower := to_lowercase user_message in
  omap (λ '(id, (entry, content)),
    if negb (bool_decide (id ∈ registered)) then None
    else
      let topic_hit := negb (bool_decide (topics entry = [])) && matches msg_lower (topics entry) in
      let keyword_hit := matches msg_lower (keywords entry) in
      if topic_hit || keyword_hit then Some (id, content) else None)
    (map_to_list (entries r)).

Definition delegation_header : string := nl +:+ "## Skill-Specific Instructions" +:+ nl +:+ nl.

Definition format_for_delegation (user_message : string) (registered : gset string) r : string :=
  push_entries delegation_header (select_instructions_for_delegation user_message registered r).

Definition list_entries r : list SkillInstructionEntry :=
  map (λ p, p.2.1) (map_to_list (entries r)).
End registry.

(** ** Lemmas *)

Lemma elem_of_entries r id entry content :
  (id, (entry, content)) ∈ map_to_list (entries r) ↔ entries r !! id = Some (entry, content).
Proof. apply elem_of_map_to_list. Qed.

Lemma elem_of_select user_message r id content :
  (id, content) ∈ select_instructions user_message r ↔
  ∃ entry, entries r !! id = Some (entry, content)
           ∧ matches (to_lowercase user_message) (keywords entry) = true.
Proof.
  unfold select_instructions. rewrite list_elem_of_omap. split.
  - intros ([i [entry c]] & Hin & Hm). apply elem_of_entries in Hin.
    destruct (matches _ _) eqn:E; simplify_eq. eauto.
  - intros (entry & Hin & Hm). exists (id, (entry, content)).
    rewrite elem_of_entries, Hm. done.
Qed.

Lemma elem_of_scored user_message registered r id content n :
  (id, content, n) ∈ scored user_message registered r ↔
  ∃ entry, entries r !! id = Some (entry, content) ∧ id ∈ registered
           ∧ best_specificity (to_lowercase user_message) (keywords entry) = Some n.
Proof.
  unfold scored. rewrite list_elem_of_omap. split.
  - intros ([i [entry c]] & Hin & Hm). apply elem_of_entries in Hin.
    case_bool_decide; [|done]. apply fmap_Some in Hm as (k & Hk & ?). simplify_eq. eauto.
  - intros (entry & Hin & Hr & Hm). exists (id, (entry, content)).
    rewrite elem_of_entries. split; [done|]. rewrite bool_decide_eq_true_2 by done.
    by rewrite Hm.
Qed.

Lemma best_specificity_matches msg words n :
  best_specificity msg words = Some n → matches msg words = true.
Proof.
  unfold best_specificity, matches. intros H. apply existsb_elem.
  destruct (filter _ words) as [|kw l] eqn:E; [done|].
  exists kw. apply and_comm, (list_elem_of_filter (λ kw, contains msg (to_lowercase kw) = true)).
  rewrite E. left.
Qed.

(** What the loop takes is a prefix that fits, and is as long as it can be. *)
Lemma budgeted_prefix k b l count total :
  ∃ rest, map fst l = budgeted k b count total l ++ rest.
Proof.
  revert count total. induction l as [|[e n] l IH]; intros count total; simpl; [by exists []|].
  destruct (k <=? count); [by eexists|]. destruct (b <? _); [by eexists|].
  destruct (IH (S count) (total + String.length (entry_text e))) as [rest H].
  exists rest. by rewrite H.
Qed.

Lemma budgeted_count k b l count total :
  count ≤ k → length (budgeted k b count total l) + count ≤ k.
Proof.
  revert count total. induction l as [|[e n] l IH]; intros count total Hc; [simpl; lia|].
  cbn [budgeted]. destruct (Nat.leb_spec k count); [simpl; lia|].
  destruct (b <? _); [simpl; lia|]. cbn [length].
  specialize (IH (S count) (total + String.length (entry_text e)) ltac:(lia)). lia.
Qed.

Lemma length_join_cons s l :
  String.length (RustStr.join "" (s :: l)) = String.length s + String.length (RustStr.join "" l).
Proof. by rewrite join_nil_cons, str_length_app. Qed.

Lemma budgeted_bytes k b l count total :
  total ≤ b →
  String.length (RustStr.join "" (map entry_text (budgeted k b count total l))) + total ≤ b.
Proof.
  revert count total. induction l as [|[e n] l IH]; intros count total Ht; [done|].
  cbn [budgeted]. destruct (k <=? count); [simpl; lia|].
  destruct (Nat.ltb_spec b (total + String.length (entry_text e))); [simpl; lia|].
  cbn [map]. rewrite length_join_cons.
  specialize (IH (S count) (total + String.length (entry_text e)) ltac:(lia)). lia.
Qed.

#[local] Opaque entry_text.

Lemma budgeted_maximal k b l count total e rest :
  map fst l = budgeted k b count total l ++ e :: rest →
  k ≤ count + length (budgeted k b count total l) ∨
  b < total + String.length (RustStr.join "" (map entry_text (budgeted k b count total l)))
      + String.length (entry_text e).
Proof.
  revert count total. induction l as [|[e1 n] l IH]; intros count total; [done|].
  cbn [budgeted map]. destruct (Nat.leb_spec k count); [intros _; left; simpl; lia|].
  destruct (Nat.ltb_spec b (total + String.length (entry_text e1))).
  - intros Hm. simplify_eq/=. right. simpl. lia.
  - rewrite <- app_comm_cons. intros Hm. injection Hm as Hm. apply IH in Hm as [Hm|Hm]; [left|right].
    + cbn [length]. lia.
    + cbn [map]. rewrite length_join_cons. lia.
Qed.

#[local] Transparent entry_text.

Lemma by_specificity_true a b : by_specificity a b ↔ b.2 ≤ a.2.
Proof. unfold by_specificity. by rewrite Is_true_true, Nat.leb_le. Qed.

Lemma sort_specificity_sorted l :
  StronglySorted (λ x y, y.2 ≤ x.2) (sort_by by_specificity l).
Proof.
  assert (StronglySorted (λ a b, by_specificity a b) (sort_by by_specificity l)) as H.
  { apply sort_by_sorted; [intros x y z|intros x y]; rewrite !by_specificity_true; lia. }
  induction H as [|x l' _ IH Hx]; constructor; [done|].
  eapply Forall_impl; [done|]. intros y. apply by_specificity_true.
Qed.

(** ** Theorems *)

(** What the command-line prompt gets of the instructions is the header and a
    prefix of the registered entries with a keyword in the message, ordered by
    the words of their best keyword: at most [max_instructions] of them, at most
    [max_bytes] bytes of them, and no further entry of that order would fit. *)
Theorem budgeted_instructions user_message registered k b r :
  ∃ order chosen rest,
    order ≡ₚ scored user_message registered r ∧
    StronglySorted (λ x y, y.2 ≤ x.2) order ∧
    map fst order = chosen ++ rest ∧
    format_for_prompt_budgeted user_message registered k b r = push_entries prompt_header chosen ∧
    length chosen ≤ k ∧
    String.length (RustStr.join "" (map entry_text chosen)) ≤ b ∧
    (∀ e, head rest = Some e →
       k ≤ length chosen ∨
       b < String.length (RustStr.join "" (map entry_text chosen)) + String.length (entry_text e)) ∧
    (∀ id content, (id, content) ∈ chosen →
       id ∈ registered ∧ (id, content) ∈ select_instructions user_message r).
Proof.
  set (order := sort_by by_specificity (scored user_message registered r)).
  destruct (budgeted_prefix k b order 0 0) as [rest Hrest].
  exists order, (budgeted k b 0 0 order), rest.
  assert (order ≡ₚ scored user_message registered r) as Hperm by apply sort_by_perm.
  pose proof (budgeted_count k b order 0 0 ltac:(lia)) as Hk.
  pose proof (budgeted_bytes k b order 0 0 ltac:(lia)) as Hb.
  split_and!; [done| |done| |lia|lia| |].
  - apply sort_specificity_sorted.
  - unfold format_for_prompt_budgeted. fold order.
    destruct ((k =? 0) || (b =? 0)) eqn:E; [|done].
    apply orb_true_iff in E as [->%Nat.eqb_eq| ->%Nat.eqb_eq].
    + destruct (budgeted 0 b 0 0 order); [done|simpl in Hk; lia].
    + destruct (budgeted k 0 0 0 order) as [|e l]; [done|].
      cbn [map] in Hb. rewrite length_join_cons in Hb.
      assert (0 < String.length (entry_text e)) by (unfold entry_text; simpl; lia). lia.
  - intros e He. destruct rest as [|e' rest]; simplify_eq/=.
    apply budgeted_maximal in Hrest. rewrite !Nat.add_0_l in Hrest. done.
  - intros id content Hin.
    assert ((id, content) ∈ map fst order) as Ho by (rewrite Hrest; set_solver).
    apply list_elem_of_map in Ho as ([e n] & He & Ho). simpl in He. subst e.
    rewrite Hperm in Ho. apply elem_of_scored in Ho as (entry & H1 & H2 & H3).
    split; [done|]. apply elem_of_select. eauto using best_specificity_matches.
Qed.

(** The prompt of a chat never mentions the instructions of a skill that is not
    registered, and has those of every registered one a keyword of the message
    selects. *)
Theorem filtered_instructions user_message (registered : gset string) r id content :
  (id, content) ∈ filter (λ e, e.1 ∈ registered) (select_instructions user_message r) ↔
  ∃ entry, entries r !! id = Some (entry, content) ∧ id ∈ registered ∧
           matches (to_lowercase user_message) (keywords entry) = true.
Proof. rewrite list_elem_of_filter, elem_of_select. naive_solver. Qed.

(** A delegated job gets all that the prompt of a chat would get, and besides
    what a topic selects. *)
Theorem delegation_extends_filtered user_message (registered : gset string) r id content :
  (id, content) ∈ select_instructions_for_delegation user_message registered r ↔
  ∃ entry, entries r !! id = Some (entry, content) ∧ id ∈ registered ∧
           (matches (to_lowercase user_message) (topics entry) = true ∨
            matches (to_lowercase user_message) (keywords entry) = true).
Proof.
  unfold select_instructions_for_delegation. rewrite list_elem_of_omap.
  assert (∀ l, negb (bool_decide (l = [])) && matches (to_lowercase user_message) l
               = matches (to_lowercase user_message) l) as Ht by (by intros []).
  split.
  - intros ([i [entry c]] & Hin & Hm). apply elem_of_entries in Hin. rewrite Ht in Hm.
    case_bool_decide; [|done]. simpl in Hm. destruct (_ || _) eqn:E; simplify_eq.
    exists entry. by rewrite <- orb_true_iff.
  - intros (entry & Hin & Hr & Hm). exists (id, (entry, content)). rewrite elem_of_entries.
    split; [done|]. rewrite bool_decide_eq_true_2 by done. simpl. rewrite Ht.
    apply orb_true_iff in Hm. by rewrite Hm.
Qed.

(** The entry kept for a skill is the last enabled one whose file can be read. *)
Definition loadable (read : string → result string string) (id : string)
    (e : SkillInstructionEntry) : bool :=
  enabled e && bool_decide (instr_id e = id) && is_ok (read (instruction_file e)).

Theorem load_keeps_last_readable toml parse read skill id :
  parse toml = Ok skill →
  entries (load (Ok toml) parse read) !! id =
    (e ← find_last (loadable read id) skill;
     match read (instruction_file e) with Ok content => Some (e, content) | Err _ => None end).
Proof.
  intros Hp. unfold load. rewrite Hp. simpl. clear Hp.
  induction skill as [|e l IH] using rev_ind; [done|].
  rewrite foldl_app, find_last_snoc. simpl. unfold load_entry at 1, loadable at 1.
  destruct (enabled e); simpl; [|done].
  destruct (read (instruction_file e)) as [content|] eqn:Hr; simpl.
  - case_bool_decide as Hi; simpl.
    + rewrite Hi, lookup_insert_eq. by rewrite Hr.
    + by rewrite lookup_insert_ne.
  - by rewrite andb_false_r.
Qed.

Lemma load_keeps_last_readable_witness :
  let e := mkInstruction "s" "s.md" ["mail"] [] true in
  entries (load (Ok "toml") (λ _, Ok [e]) (λ _, Ok "Use it.")) !! "s" = Some (e, "Use it.").
Proof.
  intros e. rewrite (load_keeps_last_readable "toml" (λ _, Ok [e]) _ [e] "s"); [|done].
  reflexivity.
Defined.

(** The loop stops at the first entry that does not fit: a shorter one after it
    is left out, and the section is empty although that one would fit. *)
Definition long_and_short : InstructionRegistry :=
  mkInstructions
    (<["long" := (mkInstruction "long" "l.md" ["read mail"] [] true, "0123456789012345678901234567890123456789")]>
    {["short" := (mkInstruction "short" "s.md" ["mail"] [] true, "x")]}).

Theorem one_long_entry_hides_the_rest :
  format_for_prompt_budgeted "read mail" {["long"; "short"]} 2 40 long_and_short = "" ∧
  String.length (entry_text ("short", "x")) ≤ 40.
Proof. split; [vm_compute; reflexivity|decide_closed]. Qed.
