(* ===== verification/Chat.v ===== *)
(** * The chat engine: contexts, prompts and tools ([crates/entity-chat/src/lib.rs])

    What goes into a request of a chat turn: the history of the session, the
    context recalled from the memory store under [ContextBudget], the runtime
    section and the tool lists of the system prompt, the definitions of the tools,
    and the execution of one tool call.  The loops over these are in [ChatLoop].
    The memory store is the record of the three searches the engine makes; Unicode
    classes and case mapping are arguments; the executor of the skills is the class
    [ToolHost], which [SkillExecutor] implements. *)

From S2P Require Import Prelude RustStr Json Paths SkillPolicy SkillExecutor Instructions Cognitive.
From S2P Require Import Router.
From Stdlib Require Import ZArith Lia Ascii.
From stdpp Require Import base list sets strings gmap pretty.

Open Scope rust_scope.

Inductive PromptMode : Type := Full | Orchestrator.

(** ** History *)

Record SessionMessage : Type := mkSession {
  session_role : string;
  session_content : string;
}.

Definition MAX_HISTORY_MESSAGES : nat := 24.
Definition MAX_MESSAGE_CHARS : nat := N.to_nat 4000.

(** [s.chars().take(n).collect()] when the string has more characters. *)
Definition cap_chars (n : nat) (s : string) : string :=
  if n <? length (chars s) then RustStr.join "" (take n (chars s)) else s.

Definition sanitize_message (m : SessionMessage) : option Message :=
  if bool_decide (session_role m ≠ "user" ∧ session_role m ≠ "assistant") then None
  else
    let trimmed := trim (session_content m) in
    if str_is_empty trimmed then None
    else Some (new_message (session_role m) (cap_chars MAX_MESSAGE_CHARS trimmed)).

Definition sanitize_session_history (history : option (list SessionMessage)) : list Message :=
  rev (take MAX_HISTORY_MESSAGES (rev (omap sanitize_message (unwrap_or history [])))).

(** [if last is this message { history.pop() }]. *)
Definition dedupe_latest_user_message (history : list Message) (latest : string) : list Message :=
  match last history with
  | Some m =>
      if bool_decide (role m = "user" ∧ content m = trim latest)
      then removelast history else history
  | None => history
  end.

Definition build_contextual_messages (system_prompt : string)
    (session_messages : option (list SessionMessage)) (latest : string) : list Message :=
  new_message "system" system_prompt
    :: dedupe_latest_user_message (sanitize_session_history session_messages) latest
    ++ [new_message "user" latest].

(** ** Context recalled from the memory store *)

Record ContextBudget : Type := mkBudget {
  recent_turns_limit : nat;
  memory_search_limit : nat;
  max_total_chars : nat;
}.

Definition default_budget : ContextBudget := mkBudget 5 3 (N.to_nat 8000).

(** [ConversationTurn] and [Memory] ([crates/abigail-memory/src/store.rs]), with
    the day they were created. *)
Record ConversationTurn : Type := mkTurn {
  turn_id : string;
  turn_session : string;
  turn_role : string;
  turn_content : string;
  turn_day : string;
}.

Inductive MemoryWeight : Type := Ephemeral | Distilled | Crystallized.

Definition weight_str (w : MemoryWeight) : string :=
  match w with
  | Ephemeral => "ephemeral"
  | Distilled => "distilled"
  | Crystallized => "crystallized"
  end.

Record Memory : Type := mkMemory {
  memory_id : string;
  memory_content : string;
  weight : MemoryWeight;
  memory_day : string;
}.

(** The searches of the store; [None] is an error of the store. *)
Record MemoryStore : Type := mkStore {
  recent_turns : string → nat → option (list ConversationTurn);
  search_turns : string → nat → option (list ConversationTurn);
  search_memories : string → nat → option (list Memory);
}.

Section recall.
(** [char::is_alphanumeric] of a character, and [str::to_lowercase]. *)
Context (is_alphanumeric : string → bool) (unicode_lowercase : string → string).

(** [s.split(|c| !c.is_alphanumeric())] over the characters. *)
Fixpoint split_words (word : string) (cs : list string) : list string :=
  match cs with
  | [] => [word]
  | c :: cs => if is_alphanumeric c then split_words (word +:+ c) cs else word :: split_words "" cs
  end.

Fixpoint recall_tokens (tokens seen queries : list string) : list string :=
  match tokens with
  | [] => queries
  | token :: tokens =>
      let token := unicode_lowercase token in
      if (String.length token <? 4) || bool_decide (token ∈ seen)
      then recall_tokens tokens seen queries
      else
        let queries := queries ++ [token] in
        if 6 <=? length queries then queries else recall_tokens tokens (token :: seen) queries
  end.

Definition recall_queries (user_message : string) : list string :=
  let trimmed := trim user_message in
  recall_tokens (split_words "" (chars trimmed)) []
    (if str_is_empty trimmed then [] else [trimmed]).

(** The first layer: the messages and the bytes they take. *)
Fixpoint recent_layer (max total : nat) (turns : list ConversationTurn) : list Message * nat :=
  match turns with
  | [] => ([], total)
  | t :: turns =>
      let len := String.length (turn_content t) in
      if max <? total + len then ([], total)
      else
        let '(context, total) := recent_layer max (total + len) turns in
        (new_message (turn_role t) (turn_content t) :: context, total)
  end.

(** What a layer of searches has gathered. *)
Record Recalled : Type := mkRecalled {
  found_lines : list string;
  seen_ids : list string;
  used : nat;
}.

(** The loop over the results of one query: the id and the line of each. *)
Fixpoint recall_items (limit max : nat) (items : list (string * string)) (st : Recalled)
  : Recalled :=
  match items with
  | [] => st
  | (id, line) :: items =>
      if bool_decide (id ∈ seen_ids st) then recall_items limit max items st
      else if max <? used st + String.length line
      then mkRecalled (found_lines st) (id :: seen_ids st) (used st)
      else
        let st := mkRecalled (found_lines st ++ [line]) (id :: seen_ids st)
                    (used st + String.length line) in
        if limit <=? length (found_lines st) then st else recall_items limit max items st
  end.

(** The loop over the queries. *)
Fixpoint recall_layer (limit max : nat) (search : string → option (list (string * string)))
    (queries : list string) (st : Recalled) : Recalled :=
  match queries with
  | [] => st
  | query :: queries =>
      let st := match search query with
                | Some items => recall_items limit max items st
                | None => st
                end in
      if limit <=? length (found_lines st) then st else recall_layer limit max search queries st
  end.

Definition SNIPPET_CHARS : nat := 220.

Definition turn_line (t : ConversationTurn) : string :=
  let snippet :=
    if SNIPPET_CHARS <? length (chars (turn_content t))
    then RustStr.join "" (take SNIPPET_CHARS (chars (turn_content t))) +:+ "..."
    else turn_content t in
  "[prior_turn " +:+ turn_day t +:+ " session=" +:+ turn_session t +:+ " role=" +:+ turn_role t
    +:+ "] " +:+ snippet.

Definition memory_line (m : Memory) : string :=
  "[memory " +:+ memory_day m +:+ " weight=" +:+ weight_str (weight m) +:+ "] "
    +:+ memory_content m.

Definition turn_items (store : MemoryStore) (session_id : string) (limit : nat) (query : string)
  : option (list (string * string)) :=
  (λ turns, map (λ t, (turn_id t, turn_line t))
              (take (limit * 2) (filter (λ t, turn_session t ≠ session_id) turns)))
    <$> search_turns store query (limit * 4).

Definition memory_items (store : MemoryStore) (limit : nat) (query : string)
  : option (list (string * string)) :=
  (λ memories, map (λ m, (memory_id m, memory_line m)) memories)
    <$> search_memories store query limit.

(** A layer runs only while there are bytes left. *)
Definition run_layer (budget : ContextBudget) (search : string → option (list (string * string)))
    (queries : list string) (total : nat) : list string * nat :=
  if total <? max_total_chars budget then
    let st := recall_layer (memory_search_limit budget) (max_total_chars budget) search queries
                (mkRecalled [] [] total) in
    (found_lines st, used st)
  else ([], total).

Definition section_of (title : string) (lines : list string) : list string :=
  match lines with
  | [] => []
  | _ => [title +:+ nl +:+ nl +:+ RustStr.join nl lines]
  end.

Definition build_memory_context (store : MemoryStore) (session_id user_message : string)
    (budget : ContextBudget) : list Message :=
  let queries := recall_queries user_message in
  let '(context, total) :=
    recent_layer (max_total_chars budget) 0
      (unwrap_or (recent_turns store session_id (recent_turns_limit budget)) []) in
  let '(turn_lines, total) :=
    run_layer budget (turn_items store session_id (memory_search_limit budget)) queries total in
  let '(mem_lines, _) :=
    run_layer budget (memory_items store (memory_search_limit budget)) queries total in
  match section_of "## Recalled Prior Conversation" turn_lines
        ++ section_of "## Recalled Memories" mem_lines with
  | [] => context
  | sections => new_message "system" (RustStr.join (nl +:+ nl) sections) :: context
  end.

(** The history of the request, when it has one, replaces the recent turns. *)
Definition build_contextual_messages_with_memory (store : MemoryStore)
    (session_id system_prompt : string) (session_messages : option (list SessionMessage))
    (latest : string) (budget : ContextBudget) : list Message :=
  let memory_context := build_memory_context store session_id latest budget in
  let history :=
    match session_messages with
    | Some (_ :: _) =>
        match memory_context with
        | recalled :: _ => if bool_decide (role recalled = "system") then [recalled] else []
        | [] => []
        end ++ dedupe_latest_user_message (sanitize_session_history session_messages) latest
    | _ => dedupe_latest_user_message memory_context latest
    end in
  new_message "system" system_prompt :: history ++ [new_message "user" latest].
End recall.

(** ** The system prompt *)

Record RuntimeContext : Type := mkRuntime {
  provider_name_ : option string;
  model_id_ : option string;
  routing_mode_ : option string;
  tier : option string;
  complexity : option Z;
  entity_name : option string;
  entity_id : option string;
  has_local_llm : bool;
  last_provider_change_at : option string;
}.

Definition line_of (label : string) (o : option string) : list string :=
  match o with Some s => ["- " +:+ label +:+ ": " +:+ s] | None => [] end.

Definition runtime_lines (c : RuntimeContext) : list string :=
  line_of "Entity name" (entity_name c)
  ++ line_of "Active provider" (provider_name_ c)
  ++ line_of "Model" (model_id_ c)
  ++ line_of "Routing mode" (routing_mode_ c)
  ++ line_of "Quality tier" (tier c)
  ++ (if has_local_llm c then ["- Local LLM: available (failsafe)"] else [])
  ++ line_of "Provider last changed" (last_provider_change_at c).

Definition quote : string := String "034"%char "".
Definition emdash : string := String "226" (String "128" (String "148" "")).

Definition runtime_guidance : string :=
  "When asked what model or provider you are using, report ONLY the provider and model shown above. Do not guess or repeat stale information from previous turns. If the information above is absent, say you are unsure and suggest the user check the routing details panel."
  +:+ nl +:+ nl +:+
  "You are always the Entity " +:+ emdash +:+ " the single conversational agent. If a local fallback path was used, describe it as an internal execution path, not as a separate identity. Never refer to yourself as "
  +:+ quote +:+ "Id" +:+ quote +:+ " or claim to be a different system than the Entity.".

(** [RuntimeContext::format_for_prompt]. *)
Definition format_runtime (c : RuntimeContext) : string :=
  match runtime_lines c with
  | [] => ""
  | lines =>
      nl +:+ nl +:+ "## Runtime Context" +:+ nl +:+ nl +:+
      "You are executing within the following runtime environment:" +:+ nl +:+ nl +:+
      RustStr.join nl lines +:+ nl +:+ nl +:+ runtime_guidance +:+ nl
  end.

(** ** Tools and the executor *)

(** [ToolParams], [ToolOutput] ([crates/abigail-skills/src/skill.rs]). *)
Notation ToolParams := (gmap string Value).

Record ToolOutput : Type := mkToolOutput {
  success : bool;
  data : option Value;
  output_error : option string;
  latency_ms : option Z;
}.

Record ToolCallRecord : Type := mkRecord {
  record_skill : string;
  record_tool : string;
  record_success : bool;
}.

(** [Display] of [SkillError]. *)
Definition skill_error_str (e : SkillError) : string :=
  match e with
  | NotFound s => "Skill not found: " +:+ s
  | InitFailed s => "Initialization failed: " +:+ s
  | ToolFailed s => "Tool execution failed: " +:+ s
  | PermissionDenied s => "Permission denied: " +:+ s
  | SkillTimeout s => "Timeout: " +:+ s
  | MissingSecret s => "Missing secret: " +:+ s
  | ConfirmationRequired s => "Confirmation required: " +:+ s
  | InvalidArguments s => "Invalid arguments: " +:+ s
  end.

(** What the engine asks of an executor of tools, over the state [H]. *)
Class ToolHost (H : Type) : Type :=
  execute_tool_in_job : string → string → ToolParams → option JobContext → M H SkillError ToolOutput.

(** [qualified.find], then the two slices. *)
Definition split_qualified_tool_name (qualified : string) : option (string * string) :=
  match split_once qualified "::" with
  | Some (skill, tool) =>
      if str_is_empty skill || str_is_empty tool then None else Some (skill, tool)
  | None => None
  end.

Definition type_name (v : Value) : string :=
  match v with
  | Bool _ => "bool"
  | Num _ => "number"
  | Str _ => "string"
  | Arr _ => "array"
  | _ => "unknown"
  end.

Definition params_of (members : list (string * Value)) : ToolParams :=
  foldl (λ m p, <[p.1 := p.2]> m) ∅ members.

(** The parameters of a call, or the message of the refusal. *)
Definition parse_arguments `{JsonText} (skill tool arguments : string) : result ToolParams string :=
  match from_str arguments with
  | Ok (Obj members) => Ok (params_of members)
  | Ok Null => Ok ∅
  | Ok other =>
      Err ("Invalid arguments for " +:+ skill +:+ "::" +:+ tool
           +:+ ": expected a JSON object but got " +:+ type_name other
           +:+ ". Provide arguments as a JSON object with named parameters.")
  | Err e =>
      Err ("Malformed JSON arguments for " +:+ skill +:+ "::" +:+ tool +:+ ": " +:+ e
           +:+ ". Provide arguments as a valid JSON object.")
  end.

Definition output_json (o : ToolOutput) : Value :=
  Obj [("success", Bool (success o)); ("data", unwrap_or (data o) Null)].

Definition execute_single_tool_call `{JsonText} {H} `{ToolHost H} (tc : ToolCall)
    (job_ctx : option JobContext) (h : H) : H * (string * ToolCallRecord) :=
  match split_qualified_tool_name (call_name tc) with
  | None =>
      (h, (to_string (json_error ("Invalid tool name format: " +:+ call_name tc)),
           mkRecord (call_name tc) (call_name tc) false))
  | Some (skill, tool) =>
      match parse_arguments skill tool (arguments tc) with
      | Err msg => (h, (to_string (json_error msg), mkRecord skill tool false))
      | Ok params =>
          match execute_tool_in_job skill tool params job_ctx h with
          | (h, Ok output) =>
              (h, (to_string (output_json output), mkRecord skill tool (success output)))
          | (h, Err e) =>
              (h, (to_string (json_error (skill_error_str e)), mkRecord skill tool false))
          end
      end
  end.

(** ** Tool lists *)

Section tools.
Context {Key : Type}.
Notation Registry := (SkillRegistry (Key:=Key) (Params:=ToolParams) (Output:=ToolOutput)).
(** The JSON schema of a tool, which [ToolDescriptor] leaves out. *)
Context (parameters : ToolDescriptor → Value).

Definition qualified (skill : string) (t : ToolDescriptor) : string := skill +:+ "::" +:+ name t.

(** The tools of the skill the registry has under the id of a manifest. *)
Definition tools_of (r : Registry) (m : SkillManifest) : list ToolDescriptor :=
  match get_skill (manifest_id m) r with Ok s => SkillExecutor.tools s | Err _ => [] end.

Definition tool_definition (r : Registry) (m : SkillManifest) (t : ToolDescriptor)
  : option (ToolDefinition Value) :=
  if requires_mentor_confirmation (execution_policy r) (manifest_id m) t then None
  else if bool_decide (get "type" (parameters t) ≫= as_str ≠ Some "object") then None
  else Some (mkToolDefinition (qualified (manifest_id m) t) (description t) (parameters t)).

Definition build_tool_definitions (r : Registry) : list (ToolDefinition Value) :=
  flat_map (λ m, omap (tool_definition r m) (tools_of r m)) (list_skills r).

Definition registered_ids (r : Registry) : gset string :=
  list_to_set (map manifest_id (list_skills r)).

Definition web_skill : string := "com.abigail.skills.web-search".
Definition browser_skill : string := "com.abigail.skills.browser".

Definition append_web_and_image_guidance (prompt : string) (r : Registry) : string :=
  let has_web_search := is_ok (get_skill web_skill r) in
  let has_browser := is_ok (get_skill browser_skill r) in
  if negb has_web_search && negb has_browser then prompt
  else
    prompt +:+ nl +:+ nl +:+ "## Web Research And Images" +:+ nl
    +:+ (if has_web_search then
      "- For current information, call `com.abigail.skills.web-search::web_search` and cite key sources in your final reply." +:+ nl
      else "")
    +:+ (if has_browser then
      "- When the user explicitly asks for visuals, use browser tooling and return markdown image links like `![caption](https://...)` or safe `data:image/...` links so the runtime UI can render inline images." +:+ nl
      else "")
    +:+ "- Prefer concise, family-friendly summaries before detailed evidence." +:+ nl.

(** [id.rsplit('.').next()]: what follows the last dot. *)
Fixpoint last_segment_from (segment s : string) : string :=
  match s with
  | "" => segment
  | String c s =>
      if is_dot c then last_segment_from "" s else last_segment_from (segment +:+ String c "") s
  end.
Definition short_name (id : string) : string := last_segment_from "" id.

(** The names of the tools by the short name of their skill, sorted by it. *)
Definition add_tools (r : Registry) (m : gmap string (list string)) (manifest : SkillManifest)
  : gmap string (list string) :=
  match map name (tools_of r manifest) with
  | [] => m
  | names =>
      let short := short_name (manifest_id manifest) in
      <[short := unwrap_or (m !! short) [] ++ names]> m
  end.

Definition grouped_tools (r : Registry) : list (string * list string) :=
  sort_by (λ a b, String.leb a.1 b.1) (map_to_list (foldl (add_tools r) ∅ (list_skills r))).

Definition grouped_section (title : string) (r : Registry) : string :=
  match grouped_tools r with
  | [] => ""
  | groups =>
      title +:+ RustStr.join ""
        (map (λ g, g.1 +:+ ": " +:+ RustStr.join ", " g.2 +:+ nl) groups)
  end.

Definition full_tool_lines (r : Registry) : list string :=
  flat_map (λ m, map (λ t, "- `" +:+ qualified (manifest_id m) t +:+ "`: " +:+ description t)
                   (tools_of r m)) (list_skills r).

Definition augment_system_prompt (base : string) (r : Registry) (ir : InstructionRegistry)
    (user_message : string) (c : RuntimeContext) (mode : PromptMode) : string :=
  match mode with
  | Full =>
      let prompt := base +:+ format_runtime c in
      let prompt :=
        match full_tool_lines r with
        | [] => prompt
        | lines => prompt +:+ nl +:+ nl +:+ "## Available Tools" +:+ nl +:+ nl
                     +:+ RustStr.join nl lines
        end in
      append_web_and_image_guidance prompt r
        +:+ format_for_prompt_filtered user_message (registered_ids r) ir
  | Orchestrator =>
      base +:+ grouped_section (nl +:+ nl +:+ "## Available Tools" +:+ nl) r
  end.

(** [base] is the compressed prompt of the documents, [documents] their spillover
    text, and [write] the outcome of writing the temporary file: its path. *)
Definition build_cli_spillover_file (documents : string) (write : string → option string)
    (ir : InstructionRegistry) (user_message : string) (r : Registry) : option string :=
  write (documents +:+ format_for_prompt_filtered user_message (registered_ids r) ir).

Definition build_cli_system_prompt (base documents : string) (write : string → option string)
    (r : Registry) (ir : InstructionRegistry) (user_message : string) : string :=
  let prompt := base +:+ grouped_section (nl +:+ nl +:+ "## Entity Tools" +:+ nl) r in
  append_web_and_image_guidance prompt r
  +:+ format_for_prompt_budgeted user_message (registered_ids r) 1 (N.to_nat 2048) ir
  +:+ match build_cli_spillover_file documents write ir user_message r with
      | Some path =>
          nl +:+ nl +:+ "Detailed entity instructions are at: " +:+ path
          +:+ ". Read this file if you need guidance on ethics, tool usage, or skill-specific behavior."
          +:+ nl
      | None => ""
      end.
End tools.

(** ** The executor of the skills as a host *)

Section host.
Context {Key Sig : Type}.
Context (b64_decode : string → result string string).
Context (sig_from_slice : string → result Sig string) (verify : Key → string → Sig → bool).
Context (fs : Sandbox.FileSystem).
Context (env : nat → CallEnv (Params:=ToolParams) (Output:=ToolOutput)).
Context (r : SkillRegistry (Key:=Key) (Params:=ToolParams) (Output:=ToolOutput)).

(** The outside, and how many calls have been made: [env i] is what the
    environment supplies to call [i]. *)
Definition executor_host : ToolHost (World (Params:=ToolParams) * nat) :=
  λ skill tool params job_ctx '(w, i),
  let '(w, o) := execute_in_job_context b64_decode sig_from_slice verify fs (env i) r
                   skill tool params job_ctx w in
  ((w, S i), o).
End host.

(** [provider_label]. *)
Definition chat_provider_label {V W} (r : IdEgoRouter V W) : string :=
  if has_ego r then unwrap_or (provider_name <$> ego_provider r) "local" else "local".
