(* ===== verification/SkillKit.v ===== *)
(** * What the bundled skills share ([crates/abigail-skills/src/skill.rs])

    The parameters of a tool call as the skills read them, the two kinds of output,
    what a skill says about a tool, and the outcome of a process. *)

From S2P Require Import Prelude RustStr Json SkillPolicy SkillExecutor Chat.
From Stdlib Require Import ZArith Lia Ascii.
From stdpp Require Import base list strings gmap pretty.

Open Scope rust_scope.

(** [ToolOutput::success] and [error]. *)
Definition tool_success (data : Value) : ToolOutput := mkToolOutput true (Some data) None None.
Definition tool_error (msg : string) : ToolOutput := mkToolOutput false None (Some msg) None.

(** [ToolParams::get::<String>] and [get_string]. *)
Definition get_text (params : ToolParams) (key : string) : option string := params !! key ≫= as_str.
Definition get_string `{JsonText} (params : ToolParams) (key : string) : option string :=
  match params !! key with
  | Some (Str s) => Some s
  | Some Null | None => None
  | Some (Bool b) => Some (if b then "true" else "false")
  | Some other => Some (to_string other)
  end.

Definition missing (key : string) : SkillError := ToolFailed ("Missing required parameter: " +:+ key).
Definition number (n : nat) : Value := Num (PosInt (Z.of_nat n)).

(** [get::<u64>], [get::<bool>], [get::<Vec<String>>]. *)
Definition get_u64 (params : ToolParams) (key : string) : option Z :=
  match params !! key with Some (Num (PosInt n)) => Some n | _ => None end.
Definition get_bool (params : ToolParams) (key : string) : option bool :=
  match params !! key with Some (Bool b) => Some b | _ => None end.
Definition get_strings (params : ToolParams) (key : string) : option (list string) :=
  match params !! key with Some (Arr l) => mapM as_str l | _ => None end.

(** [s.split(sep)] for a character. *)
Fixpoint split_on_from (sep : ascii) (word s : string) : list string :=
  match s with
  | EmptyString => [word]
  | String c s =>
      if decide (c = sep) then word :: split_on_from sep "" s
      else split_on_from sep (word +:+ String c "") s
  end.
Definition split_on (sep : ascii) : string → list string := split_on_from sep "".

(** What a skill says of a tool: the part of the descriptor that takes part in
    decisions, and the rest of it. *)
Record CostEstimate : Type := mkCostEstimate {
  estimate_ms : Z;
  network_bound : bool;
  token_cost : option Z;
}.

Record Tool : Type := mkTool {
  descriptor : ToolDescriptor;
  parameters : Value;
  returns : Value;
  cost_estimate : CostEstimate;
}.

Definition unknown_tool (tool_name : string) : SkillError := ToolFailed ("Unknown tool: " +:+ tool_name).

(** ** Processes *)

Record Invocation : Type := mkInvocation {
  program : string;
  arguments : list string;
  current_directory : option string;
}.

(** What [Command::output] under a timeout gives: the two streams, as decoded, and
    the exit code ([None] for a signal). *)
Inductive ProcessResult : Type :=
| Exited (stdout stderr : string) (code : option Z)
| NotStarted (error : string)
| TimedOut.

(** A tool call that runs a process may fail or panic. *)
Inductive Fault : Type := Failed (e : SkillError) | Panicked.

Definition MAX_OUTPUT_BYTES : nat := 65536.

(** The stream and whether it was cut; [truncate] panics inside a character. *)
Definition cut_stream (s : string) : option (string * bool) :=
  if (MAX_OUTPUT_BYTES <? String.length s)%nat then
    match slice_to MAX_OUTPUT_BYTES s with
    | Some t => Some (t +:+ nl +:+ "... [output truncated]", true)
    | None => None
    end
  else Some (s, false).

Definition signed (z : Z) : Value := Num (if (0 <=? z)%Z then PosInt z else NegInt z).

(** The output of the tool for a process that ended; [what] names it. *)
Definition process_output (what : string) (stdout stderr : string) (code : option Z) : option ToolOutput :=
  match cut_stream stdout, cut_stream stderr with
  | Some (stdout, stdout_truncated), Some (stderr, stderr_truncated) =>
      let exit_code := default (-1)%Z code in
      let ok := bool_decide (code = Some 0%Z) in
      let formatted :=
        if ok then
          if str_is_empty stdout then what +:+ " completed successfully (exit code " +:+ pretty exit_code +:+ ")"
          else stdout
        else
          what +:+ " failed (exit code " +:+ pretty exit_code +:+ ")" +:+
          (if str_is_empty stderr then "" else nl +:+ "Stderr: " +:+ stderr) +:+
          (if str_is_empty stdout then "" else nl +:+ "Stdout: " +:+ stdout) in
      let data := Obj
        [("formatted", Str formatted); ("exit_code", signed exit_code); ("success", Bool ok);
         ("stdout", Str stdout); ("stderr", Str stderr);
         ("stdout_truncated", Bool stdout_truncated); ("stderr_truncated", Bool stderr_truncated)] in
      Some (if ok then tool_success data else mkToolOutput false (Some data) (Some formatted) None)
  | _, _ => None
  end.
