(* ===== verification/FileTree.v ===== *)
(** * A file system ([std::fs] on Unix)

    The files under the root as a finite map from real paths (lists of names) to
    directories, files and symbolic links, with the calls of the standard library
    that the skills use.  A path is taken by its components, so that a trailing
    separator is not distinguished; a call may be denied. *)

From S2P Require Import Prelude RustStr Paths.
From Stdlib Require Import ZArith Lia Ascii.
From stdpp Require Import base list strings gmap.

Open Scope rust_scope.

Notation real := (list string).

Inductive Node : Type :=
| Directory
| File (content : string)
| Link (target : path).

#[export] Instance Node_eq_dec : EqDecision Node.
Proof. solve_decision. Defined.

Notation Tree := (gmap (list string) Node).

Inductive IoError : Type := NoEntry | AlreadyExists | NotDirectory | IsDirectory | TooManyLinks | Denied
| NotEmpty | Refused (msg : string).

Definition io_error_str (e : IoError) : string :=
  match e with
  | NoEntry => "No such file or directory (os error 2)"
  | AlreadyExists => "File exists (os error 17)"
  | NotDirectory => "Not a directory (os error 20)"
  | IsDirectory => "Is a directory (os error 21)"
  | TooManyLinks => "Too many levels of symbolic links (os error 40)"
  | Denied => "Permission denied (os error 13)"
  | NotEmpty => "Directory not empty (os error 39)"
  | Refused msg => msg
  end.

(** The root is a directory. *)
Definition node_at (t : Tree) (r : real) : option Node :=
  match r with [] => Some Directory | _ => t !! r end.

Definition MAX_SYMLINKS : nat := 40.

(** The real path of [todo], taken from [cur]: at most [links] symbolic links are
    followed.  With [create], the last name may be missing. *)
Fixpoint walk (links : nat) (create : bool) (t : Tree) : real → path → result real IoError :=
  fix go (cur : real) (todo : path) {struct todo} : result real IoError :=
    match todo with
    | [] => Ok cur
    | RootDir :: rest => go [] rest
    | CurDir :: rest => go cur rest
    | ParentDir :: rest => go (removelast cur) rest
    | Normal n :: rest =>
        match t !! (cur ++ [n]) with
        | Some Directory => go (cur ++ [n]) rest
        | Some (File _) => match rest with [] => Ok (cur ++ [n]) | _ => Err NotDirectory end
        | Some (Link target) =>
            match links with
            | O => Err TooManyLinks
            | S links => walk links create t cur (target ++ rest)
            end
        | None =>
            match rest with
            | [] => if create then Ok (cur ++ [n]) else Err NoEntry
            | _ => Err NoEntry
            end
        end
    end.

(** A real path as a path, and its text. *)
Definition absolute (r : real) : path := RootDir :: map Normal r.

Definition component_str (c : Component) : string :=
  match c with RootDir => "" | CurDir => "." | ParentDir => ".." | Normal n => n end.
Definition display (p : path) : string :=
  match p with
  | [RootDir] => "/"
  | _ => RustStr.join "/" (map component_str p)
  end.

Inductive Call : Type := Lookup | ReadData | WriteData | MakeDir | ReadDir.

Section calls.
Context (cwd : real) (denied : Call → path → bool).

(** The empty path names nothing. *)
Definition resolve (create : bool) (t : Tree) (p : path) : result real IoError :=
  match p with [] => Err NoEntry | _ => walk MAX_SYMLINKS create t cwd p end.

Definition lookup_path (t : Tree) (p : path) : result real IoError :=
  if denied Lookup p then Err Denied else resolve false t p.

(** [Path::canonicalize], [exists], [is_file], [is_dir]. *)
Definition canonicalize (t : Tree) (p : path) : result path IoError :=
  let? r := lookup_path t p in Ok (absolute r).

Definition path_exists (t : Tree) (p : path) : bool := is_ok (lookup_path t p).

Definition node_of (t : Tree) (p : path) : option Node :=
  match lookup_path t p with Ok r => node_at t r | Err _ => None end.
Definition is_file (t : Tree) (p : path) : bool :=
  match node_of t p with Some (File _) => true | _ => false end.
Definition is_dir (t : Tree) (p : path) : bool :=
  match node_of t p with Some Directory => true | _ => false end.

(** [std::fs::metadata(p).len()]: of a file. *)
Definition metadata_len (t : Tree) (p : path) : result nat IoError :=
  let? r := lookup_path t p in
  Ok (match node_at t r with Some (File c) => String.length c | _ => 4096 end).

(** The bytes of a file. *)
Definition read (t : Tree) (p : path) : result string IoError :=
  if denied ReadData p then Err Denied
  else let? r := resolve false t p in
       match node_at t r with
       | Some (File c) => Ok c
       | _ => Err IsDirectory
       end.

(** [std::fs::write] *)
Definition write (p : path) (content : string) : M Tree IoError unit := λ t,
  if denied WriteData p then (t, Err Denied)
  else match resolve true t p with
  | Err e => (t, Err e)
  | Ok r =>
      match node_at t r with
      | Some Directory => (t, Err IsDirectory)
      | _ => (<[r := File content]> t, Ok tt)
      end
  end.

(** [mkdir]: the last name is not followed. *)
Definition mkdir (p : path) : M Tree IoError unit := λ t,
  if denied MakeDir p then (t, Err Denied)
  else match last p with
  | None => (t, Err NoEntry)
  | Some (Normal n) =>
      match walk MAX_SYMLINKS false t cwd (removelast p) with
      | Err e => (t, Err e)
      | Ok r =>
          match node_at t r with
          | Some Directory =>
              match t !! (r ++ [n]) with
              | Some _ => (t, Err AlreadyExists)
              | None => (<[r ++ [n] := Directory]> t, Ok tt)
              end
          | _ => (t, Err NotDirectory)
          end
      end
  | Some _ =>
      match resolve false t p with
      | Err e => (t, Err e)
      | Ok _ => (t, Err AlreadyExists)
      end
  end.

(** [DirBuilder::create_dir_all]: the parents of [p] are as many as its components. *)
Fixpoint create_dir_all_from (fuel : nat) (p : path) : M Tree IoError unit := λ t,
  match p with
  | [] => (t, Ok tt)
  | _ =>
      match mkdir p t with
      | (t, Ok _) => (t, Ok tt)
      | (t, Err NoEntry) =>
          match fuel, parent p with
          | S fuel, Some q =>
              match create_dir_all_from fuel q t with
              | (t, Err e) => (t, Err e)
              | (t, Ok _) =>
                  match mkdir p t with
                  | (t, Ok _) => (t, Ok tt)
                  | (t, Err e) => if is_dir t p then (t, Ok tt) else (t, Err e)
                  end
              end
          | _, _ => (t, Err NoEntry)
          end
      | (t, Err e) => if is_dir t p then (t, Ok tt) else (t, Err e)
      end
  end.
Definition create_dir_all (p : path) : M Tree IoError unit := create_dir_all_from (length p) p.

(** A temporary file beside [p], renamed to [p]: the last name is not followed. *)
Definition replace_file (p : path) (content : string) : M Tree IoError unit := λ t,
  if denied WriteData p then (t, Err Denied)
  else match last p with
  | Some (Normal n) =>
      match walk MAX_SYMLINKS false t cwd (removelast p) with
      | Err e => (t, Err e)
      | Ok r =>
          match node_at t r with
          | Some Directory =>
              match t !! (r ++ [n]) with
              | Some Directory => (t, Err IsDirectory)
              | _ => (<[r ++ [n] := File content]> t, Ok tt)
              end
          | _ => (t, Err NotDirectory)
          end
      end
  | _ => (t, Err IsDirectory)
  end.

(** [secure_fs::write_bytes_atomic], whose steps are those of [SecureFs]. *)
Definition write_bytes_atomic (p : path) (content : string) : M Tree IoError unit :=
  if existsb (λ c, bool_decide (c = ParentDir)) p
  then fail (Refused ("Path '" +:+ display p +:+ "' contains disallowed traversal"))
  else match parent p with
  | None => fail (Refused ("Path '" +:+ display p +:+ "' has no parent directory"))
  | Some dir => create_dir_all dir ;; replace_file p content
  end.

(** [std::fs::read_dir]: the names in a directory. *)
Definition children (t : Tree) (r : real) : list (string * Node) :=
  omap (λ e, match last e.1 with
             | Some n => if decide (removelast e.1 = r) then Some (n, e.2) else None
             | None => None
             end) (map_to_list t).

Definition read_dir (t : Tree) (p : path) : result (list (string * Node)) IoError :=
  if denied ReadDir p then Err Denied
  else let? r := resolve false t p in
       match node_at t r with
       | Some Directory => Ok (children t r)
       | _ => Err NotDirectory
       end.
(** Where a path ends: the directory of its last name, which is not followed. *)
Definition place (t : Tree) (p : path) : result (real * string) IoError :=
  match last p with
  | Some (Normal n) =>
      let? r := walk MAX_SYMLINKS false t cwd (removelast p) in
      match node_at t r with Some Directory => Ok (r, n) | _ => Err NotDirectory end
  | _ => Err IsDirectory
  end.

(** The places at or below one. *)
Definition below (x : real) : Tree → Tree := filter (λ e, x `prefix_of` e.1).
Definition not_below (x : real) : Tree → Tree := filter (λ e, ¬ x `prefix_of` e.1).

Definition is_empty_dir (t : Tree) (x : real) : bool := bool_decide (children t x = []).

(** What is below [x] is moved below [y]. *)
Definition relocate (x y : real) (t : Tree) : Tree :=
  list_to_map (map (λ e, (y ++ drop (length x) e.1, e.2)) (map_to_list (below x t))) ∪ not_below x (not_below y t).

(** [std::fs::rename] *)
Definition rename (p q : path) : M Tree IoError unit := λ t,
  if denied WriteData p || denied WriteData q then (t, Err Denied)
  else match place t p, place t q with
  | Err e, _ => (t, Err e)
  | _, Err e => (t, Err e)
  | Ok (r, n), Ok (r', n') =>
      let x := r ++ [n] in let y := r' ++ [n'] in
      match t !! x with
      | None => (t, Err NoEntry)
      | Some v =>
          if decide (x = y) then (t, Ok tt)
          else if decide (v = Directory ∧ x `prefix_of` y) then (t, Err (Refused "Invalid argument (os error 22)"))
          else match v, t !! y with
          | Directory, Some Directory => if is_empty_dir t y then (relocate x y t, Ok tt) else (t, Err NotEmpty)
          | Directory, Some _ => (t, Err NotDirectory)
          | _, Some Directory => (t, Err IsDirectory)
          | _, _ => (relocate x y t, Ok tt)
          end
      end
  end.

(** [std::fs::remove_file] *)
Definition remove_file (p : path) : M Tree IoError unit := λ t,
  if denied WriteData p then (t, Err Denied)
  else match place t p with
  | Err e => (t, Err e)
  | Ok (r, n) =>
      match t !! (r ++ [n]) with
      | None => (t, Err NoEntry)
      | Some Directory => (t, Err IsDirectory)
      | Some _ => (delete (r ++ [n]) t, Ok tt)
      end
  end.

(** [std::fs::remove_dir_all]: a link is removed, not followed; a directory named by
    its parent link is emptied and stays. *)
Definition remove_dir_all (p : path) : M Tree IoError unit := λ t,
  if denied WriteData p then (t, Err Denied)
  else match last p with
  | Some (Normal _) =>
      match place t p with
      | Err e => (t, Err e)
      | Ok (r, n) =>
          match t !! (r ++ [n]) with
          | None => (t, Err NoEntry)
          | Some (File _) => (t, Err NotDirectory)
          | Some (Link _) => (delete (r ++ [n]) t, Ok tt)
          | Some Directory => (not_below (r ++ [n]) t, Ok tt)
          end
      end
  | _ =>
      match resolve false t p with
      | Err e => (t, Err e)
      | Ok r =>
          match node_at t r with
          | Some Directory => (filter (λ e, ¬ (r `prefix_of` e.1 ∧ e.1 ≠ r)) t, Err NotEmpty)
          | _ => (t, Err NotDirectory)
          end
      end
  end.

(** [std::fs::copy] *)
Definition copy (p q : path) : M Tree IoError unit := λ t,
  match read t p with Err e => (t, Err e) | Ok content => write q content t end.

(** Appending to a file, made when missing. *)
Definition append (p : path) (content : string) : M Tree IoError unit := λ t,
  let old := match resolve false t p with
             | Ok r => match node_at t r with Some (File c) => c | _ => "" end
             | Err _ => ""
             end in
  write p (old +:+ content) t.
End calls.

(** ** Facts *)

(** What is below a place is below a directory. *)
Definition well_formed (t : Tree) : Prop :=
  ∀ r n, is_Some (t !! (r ++ [n])) → node_at t r = Some Directory.

(** The walk ends at a directory or a file, or where a file can be made. *)
Definition walked (create : bool) (t : Tree) (r : real) : Prop :=
  node_at t r = Some Directory ∨ (∃ c, node_at t r = Some (File c)) ∨
  (create = true ∧ ∃ r0 n, r = r0 ++ [n] ∧ node_at t r0 = Some Directory ∧ t !! r = None).

Lemma node_snoc t r n : node_at t (r ++ [n]) = t !! (r ++ [n]).
Proof. by destruct r. Qed.

Lemma node_removelast t r : well_formed t → node_at t r = Some Directory → node_at t (removelast r) = Some Directory.
Proof.
  intros Hw. destruct r as [|n r _] using rev_ind; [done|].
  rewrite removelast_last, node_snoc. intros Hs. apply (Hw r n). by rewrite Hs.
Qed.

Lemma walk_ends links create t :
  well_formed t → ∀ todo cur r,
  node_at t cur = Some Directory → walk links create t cur todo = Ok r → walked create t r.
Proof.
  intros Hw. induction links as [|links IHl]; intros todo; induction todo as [|c rest IH]; intros cur r Hcur;
    simpl; [intros [= <-]; by left| |intros [= <-]; by left|].
  all: destruct c as [| | |n]; [by apply IH|by apply IH|apply IH; by apply node_removelast|].
  all: destruct (t !! (cur ++ [n])) as [[|c|target]|] eqn:Hn.
  all: try (apply IH; by rewrite node_snoc).
  all: try (destruct rest; [|done]).
  all: try (intros [= <-]; right; left; exists c; by rewrite node_snoc).
  all: try done.
  all: try (destruct create; [|done]; intros [= <-]; right; right; split; [done|]; by exists cur, n).
  by apply IHl.
Qed.

(** What is above something is a directory. *)
Lemma above_directory t a b :
  well_formed t → b ≠ [] → is_Some (node_at t (a ++ b)) → node_at t a = Some Directory.
Proof.
  intros Hw. induction b as [|n b IH] using rev_ind; [done|]. intros _ Hs.
  rewrite app_assoc, node_snoc in Hs. apply Hw in Hs.
  destruct b as [|m b _] using rev_ind; [by rewrite app_nil_r in Hs|].
  apply IH; [by destruct b|by rewrite Hs].
Qed.

(** A real path is its own path. *)
Lemma walk_real links create t r :
  well_formed t → node_at t r = Some Directory ∨ (∃ c, node_at t r = Some (File c)) →
  walk links create t [] (absolute r) = Ok r.
Proof.
  intros Hw Hr.
  assert (∀ r2 r1, r = r1 ++ r2 → walk links create t r1 (map Normal r2) = Ok r) as Hgo.
  2: { destruct links; apply (Hgo r []); done. }
  induction r2 as [|n r2 IH]; intros r1 Heq.
  { rewrite app_nil_r in Heq. subst. by destruct links. }
  assert (r = (r1 ++ [n]) ++ r2) as Heq' by (by rewrite <- app_assoc).
  specialize (IH _ Heq').
  assert (t !! (r1 ++ [n]) = Some Directory ∨ r2 = [] ∧ ∃ c, t !! (r1 ++ [n]) = Some (File c)) as Hn.
  { rewrite <- (node_snoc t). destruct r2 as [|m r2].
    - rewrite app_nil_r in Heq'. subst r. destruct Hr; [by left|by right].
    - left. apply (above_directory t _ (m :: r2)); [done|done|]. rewrite <- Heq'.
      destruct Hr as [->|[c ->]]; by eexists. }
  destruct links; simpl; (destruct Hn as [->|[-> [c ->]]]; [exact IH|]);
    rewrite app_nil_r in Heq'; by subst.
Qed.

(** A walk to a directory meets only directories and links: it goes on, in any tree
    that keeps these. *)
Definition keeps_ways (t t' : Tree) : Prop :=
  ∀ x, t !! x = Some Directory ∨ (∃ target, t !! x = Some (Link target)) → t' !! x = t !! x.

Lemma walk_extends links t q r cur :
  walk links false t cur q = Ok r → node_at t r = Some Directory →
  ∃ links', ∀ t' create rest, keeps_ways t t' → walk links create t' cur (q ++ rest) = walk links' create t' r rest.
Proof.
  revert q cur. induction links as [|links IHl]; intros q; induction q as [|c q IH]; intros cur Hw Hr;
    simpl in Hw; [injection Hw as <-; by exists 0| |injection Hw as <-; by exists (S links)|].
  all: destruct c as [| | |n]; [destruct (IH _ Hw Hr) as [k Hk]; by exists k..|].
  all: destruct (t !! (cur ++ [n])) as [[|c|target]|] eqn:Hn.
  all: try (destruct (IH _ Hw Hr) as [k Hk]; exists k; intros t' create rest Hkeep; simpl;
            rewrite (Hkeep (cur ++ [n])), Hn by (rewrite Hn; by left); by apply Hk).
  all: try (destruct q; [injection Hw as <-|done]; by rewrite node_snoc, Hn in Hr).
  all: try done.
  all: try (by destruct q).
  apply IHl in Hw as [k Hk]; [|done]. exists k. intros t' create rest Hkeep. simpl.
  rewrite (Hkeep (cur ++ [n])), Hn by (rewrite Hn; right; by eexists). rewrite <- Hk by done. by rewrite <- app_assoc.
Qed.

(** A walk ends at the same place in a tree that keeps the way and the place. *)
Lemma walk_kept links t t' q r cur :
  keeps_ways t t' → t' !! r = t !! r → walk links false t cur q = Ok r → walk links false t' cur q = Ok r.
Proof.
  intros Hk Hr. revert q cur. induction links as [|links IHl]; intros q; induction q as [|c q IH]; intros cur Hw;
    simpl in Hw; [done| |done|].
  all: destruct c as [| | |n]; simpl; [by apply IH..|].
  all: destruct (t !! (cur ++ [n])) as [[|c|target]|] eqn:Hn.
  all: try (rewrite (Hk (cur ++ [n])), Hn by (rewrite Hn; by left); by apply IH).
  all: try (destruct q; [injection Hw as <-; by rewrite Hr, Hn|done]).
  all: try done.
  all: try (by destruct q).
  rewrite (Hk (cur ++ [n])), Hn by (rewrite Hn; right; by eexists). by apply IHl.
Qed.

Definition no_links (t : Tree) : Prop := ∀ r target, t !! r ≠ Some (Link target).

(** Without links the last name of a path is the last of its place. *)
Lemma walk_last links create t q n r cur :
  no_links t → walk links create t cur (q ++ [Normal n]) = Ok r → ∃ d, r = d ++ [n].
Proof.
  intros Hnl. revert cur. induction q as [|c q IH]; intros cur; simpl.
  - destruct links; simpl; (destruct (t !! (cur ++ [n])) as [[|c|target]|] eqn:Hn;
      [by intros [= <-]; exists cur|by intros [= <-]; exists cur|by apply Hnl in Hn|
       destruct create; [by intros [= <-]; exists cur|done]]).
  - destruct links; simpl; (destruct c as [| | |m]; [by apply IH..|]);
      (destruct (t !! (cur ++ [m])) as [[|c|target]|] eqn:Hn; [by apply IH| |by apply Hnl in Hn|]);
      by destruct q.
Qed.

(** A place can be filled, or a file replaced. *)
Lemma insert_well_formed t y n v :
  well_formed t → node_at t y = Some Directory → t !! (y ++ [n]) ≠ Some Directory →
  well_formed (<[y ++ [n] := v]> t).
Proof.
  intros Hw Hy Hnd r m Hs.
  assert (∀ z, z ≠ y ++ [n] → node_at (<[y ++ [n] := v]> t) z = node_at t z) as Hne.
  { intros z Hz. destruct z as [|a z]; [done|]. simpl. by rewrite lookup_insert_ne. }
  destruct (decide (r ++ [m] = y ++ [n])) as [He|Hd].
  - apply app_inj_tail in He as [-> _]. rewrite Hne; [done|]. intros Hy'.
    apply (f_equal length) in Hy'. rewrite length_app in Hy'. simpl in Hy'. lia.
  - rewrite lookup_insert_ne in Hs by done. apply Hw in Hs as Hr. rewrite Hne; [done|].
    intros ->. by rewrite node_snoc in Hr.
Qed.

(** Directories were made, nothing else. *)
Definition grown (t t' : Tree) : Prop :=
  (well_formed t → well_formed t') ∧ ∀ x, t' !! x = t !! x ∨ (t !! x = None ∧ t' !! x = Some Directory).

#[export] Instance grown_preorder : PreOrder grown.
Proof.
  split.
  - intros t. split; [done|]. by left.
  - intros t1 t2 t3 [Hw1 H1] [Hw2 H2]. split; [auto|]. intros x.
    destruct (H1 x) as [He|[Hn Hd]], (H2 x) as [He'|[Hn' Hd']]; [left|right|right|]; try congruence; split; congruence.
Qed.

Lemma grown_keeps t t' : grown t t' → keeps_ways t t'.
Proof. intros [_ Hg] x Hx. destruct (Hg x) as [?|[Hn _]]; [done|]. destruct Hx as [?|[? ?]]; congruence. Qed.

Lemma grown_directory t t' x : grown t t' → node_at t x = Some Directory → node_at t' x = Some Directory.
Proof. intros [_ Hg] Hx. destruct x; [done|]. simpl in *. destruct (Hg (s :: x)) as [?|[? ?]]; congruence. Qed.

Section growing.
Context (cwd : real) (denied : Call → path → bool).

Lemma mkdir_grown p : respects grown (mkdir cwd denied p).
Proof.
  intros t t' o. unfold mkdir. destruct (denied _ _); [by intros [= <- _]|].
  destruct (last p) as [[| | |n]|]; try (by intros [= <- _]); try (destruct (resolve _ _ _ _); by intros [= <- _]).
  destruct (walk _ _ _ _ _) as [r|]; [|by intros [= <- _]].
  destruct (node_at t r) as [[| |]|] eqn:Hr; try (by intros [= <- _]).
  destruct (t !! (r ++ [n])) eqn:Hn; intros [= <- _]; [done|]. split.
  - intros Hw. apply insert_well_formed; [done|done|by rewrite Hn].
  - intros x. destruct (decide (x = r ++ [n])) as [->|Hne]; [|left; by rewrite lookup_insert_ne].
    right. by rewrite lookup_insert_eq.
Qed.

Lemma create_dir_all_grown p : respects grown (create_dir_all cwd denied p).
Proof.
  unfold create_dir_all. generalize (length p) at 1. intros fuel. revert p.
  induction fuel as [|fuel IH]; intros p t t' o Hc; (destruct p as [|c p]; [by injection Hc as <- _|]);
    cbn [create_dir_all_from] in Hc; destruct (mkdir cwd denied (c :: p) t) as [t1 o1] eqn:Hm;
    apply mkdir_grown in Hm as Hg.
  - destruct o1 as [u|[]]; try (by injection Hc as <- _); destruct (is_dir _ _ _ _); by injection Hc as <- _.
  - destruct o1 as [u|e]; [by injection Hc as <- _|].
    assert (∀ b : bool, (if b then (t1, Ok ()) else (t1, Err e)) = (t', o) → grown t t') as Hend.
    { intros b He. destruct b; by injection He as <- _. }
    destruct e; try (by apply Hend in Hc). destruct (parent (c :: p)) as [q|]; [|by injection Hc as <- _].
    destruct (create_dir_all_from cwd denied fuel q t1) as [t2 o2] eqn:Hr. apply IH in Hr.
    destruct o2 as [u|e]; [|injection Hc as <- _; by etrans].
    destruct (mkdir cwd denied (c :: p) t2) as [t3 o3] eqn:Hm3. apply mkdir_grown in Hm3.
    assert (grown t t3) as Hg3 by (etrans; [exact Hg|by etrans]).
    destruct o3 as [u3|e3]; [by injection Hc as <- _|]. destruct (is_dir _ _ _ _); by injection Hc as <- _.
Qed.

(** Where a replaced file is, and what else is kept. *)
Lemma replace_file_inv p content t t' :
  replace_file cwd denied p content t = (t', Ok tt) →
  ∃ q n r, p = q ++ [Normal n] ∧ walk MAX_SYMLINKS false t cwd q = Ok r ∧ node_at t r = Some Directory ∧
    t !! (r ++ [n]) ≠ Some Directory ∧ t' = <[r ++ [n] := File content]> t.
Proof.
  unfold replace_file. destruct (denied WriteData p); [done|].
  destruct p as [|c q _] using rev_ind; [done|]. rewrite last_snoc, removelast_last.
  destruct c as [| | |n]; try done. destruct (walk _ _ _ _ _) as [r|] eqn:Hwalk; [|done].
  destruct (node_at t r) as [[| |]|] eqn:Hr; try done.
  destruct (t !! (r ++ [n])) as [v|] eqn:Hn; [destruct v; try done|]; intros [= <-]; exists q, n, r;
    (split; [done|]); (split; [done|]); (split; [done|]); (split; [by rewrite Hn|done]).
Qed.

Lemma grown_no_links t t' : grown t t' → no_links t → no_links t'.
Proof. intros [_ Hg] Hnl r target Hl. destruct (Hg r) as [He|[_ He]]; [|congruence]. apply (Hnl r target). congruence. Qed.

(** Without links, writing a file leaves what files of another name are read as. *)
Lemma lookup_other p content t t' q :
  write_bytes_atomic cwd denied p content t = (t', Ok tt) →
  well_formed t → node_at t cwd = Some Directory → no_links t →
  (∀ n, last q = Some (Normal n) → last p ≠ Some (Normal n)) → (∃ n, last q = Some (Normal n)) →
  ∀ r, lookup_path cwd denied t q = Ok r → lookup_path cwd denied t' q = Ok r ∧ node_at t' r = node_at t r.
Proof.
  unfold write_bytes_atomic. destruct (existsb _ p); [done|]. destruct (parent p) as [dir|]; [|done].
  intros Hrun Hwf Hcwd Hnl Hne [m Hm] r. apply M_bind_inv in Hrun as [(t1 & u & H1 & H2)|(e & _ & [=])].
  apply create_dir_all_grown in H1 as Hg. apply replace_file_inv in H2 as (q0 & n & d & -> & Hw & Hd & Hnd & ->).
  rewrite last_snoc in Hne. unfold lookup_path, resolve. destruct (denied Lookup q); [done|].
  destruct q as [|c q _] using rev_ind; [done|]. rewrite last_snoc in Hm, Hne. injection Hm as ->.
  assert (m ≠ n) as Hmn by (intros ->; by apply (Hne n)).
  destruct (q ++ [Normal m]) as [|c l] eqn:Hl; [by destruct q|]. rewrite <- Hl. intros Hr.
  destruct (walk_last _ _ _ _ _ _ _ Hnl Hr) as [d' ->].
  assert (d' ++ [m] ≠ d ++ [n]) as Hplace by (intros [_ [=]]%app_inj_tail; congruence).
  assert (t1 !! (d' ++ [m]) = t !! (d' ++ [m]) → walk MAX_SYMLINKS false (<[d ++ [n]:=File content]> t1) cwd (q ++ [Normal m]) = Ok (d' ++ [m])) as Hgo.
  { intros Hsame. apply (walk_kept _ t); [|by rewrite lookup_insert_ne|done].
    intros x [Hx|[target Hx]]; [|by apply Hnl in Hx]. rewrite lookup_insert_ne.
    - by apply grown_keeps; [|left].
    - intros <-. apply Hnd. rewrite (grown_keeps _ _ Hg); [done|by left]. }
  destruct Hg as [_ Hg]. destruct (Hg (d' ++ [m])) as [He|[Hn He]].
  - split; [by apply Hgo|]. by rewrite !node_snoc, lookup_insert_ne.
  - exfalso. destruct (walk_ends _ _ _ Hwf _ _ _ Hcwd Hr) as [Hx|[[? Hx]|[[=] _]]];
      rewrite node_snoc in Hx; congruence.
Qed.

(** What a replaced file is then read as. *)
Lemma read_replaced p content t t' :
  replace_file cwd denied p content t = (t', Ok tt) →
  (∀ r n target, t !! (r ++ [n]) = Some (Link target) → last p ≠ Some (Normal n)) →
  denied ReadData p = false → read cwd denied t' p = Ok content.
Proof.
  intros Hrep Hnl Hd. unfold replace_file in Hrep. destruct (denied WriteData p); [done|].
  destruct p as [|c q _] using rev_ind; [done|]. rewrite last_snoc, removelast_last in Hrep.
  destruct c as [| | |n]; try done. destruct (walk _ _ _ _ _) as [r|] eqn:Hwalk; [|done].
  destruct (node_at t r) as [[| |]|] eqn:Hr; try done.
  assert (t' = <[r ++ [n] := File content]> t ∧ keeps_ways t t') as [-> Hk].
  { destruct (t !! (r ++ [n])) as [[|c|target]|] eqn:Hn; try done; injection Hrep as <-; (split; [done|]);
      intros x Hx; (rewrite lookup_insert_ne; [done|]); intros <-; rewrite Hn in Hx;
      try (by destruct Hx as [?|[? ?]]).
    exfalso. apply (Hnl r n target Hn). by rewrite last_snoc. }
  unfold read. rewrite Hd. unfold resolve.
  destruct (walk_extends _ _ _ _ _ Hwalk Hr) as [k Hext].
  assert (walk MAX_SYMLINKS false (<[r ++ [n] := File content]> t) cwd (q ++ [Normal n]) = Ok (r ++ [n])) as Hw.
  { rewrite Hext by done. destruct k; simpl; by rewrite lookup_insert_eq. }
  destruct (q ++ [Normal n]) eqn:Hq; [by destruct q|]. rewrite Hw. simpl.
  by rewrite node_snoc, lookup_insert_eq.
Qed.

Lemma read_written p content t t' :
  write_bytes_atomic cwd denied p content t = (t', Ok tt) →
  (∀ r n target, t !! (r ++ [n]) = Some (Link target) → last p ≠ Some (Normal n)) →
  denied ReadData p = false → read cwd denied t' p = Ok content.
Proof.
  unfold write_bytes_atomic. destruct (existsb _ p); [done|]. destruct (parent p) as [dir|]; [|done].
  intros Hrun Hnl Hd. apply M_bind_inv in Hrun as [(t1 & u & H1 & H2)|(e & _ & [=])].
  apply create_dir_all_grown in H1 as [_ Hg]. eapply read_replaced; [exact H2| |done].
  intros r n target Hl. apply (Hnl r n target). destruct (Hg (r ++ [n])) as [He|[_ He]]; congruence.
Qed.
End growing.

(** ** Checking a tree *)

(** A tree is well formed when each place it holds is. *)
Definition well_formed_b (t : Tree) : bool :=
  forallb (λ e, match e.1 with
                | [] => true
                | r => match node_at t (removelast r) with Some Directory => true | _ => false end
                end) (map_to_list t).

Lemma well_formed_b_ok t : well_formed_b t = true → well_formed t.
Proof.
  intros Hb r n [v Hv]. unfold well_formed_b in Hb. rewrite forallb_forall in Hb.
  specialize (Hb (r ++ [n], v)). rewrite <- list_elem_of_In in Hb.
  specialize (Hb (proj2 (elem_of_map_to_list _ _ _) Hv)). cbn [fst] in Hb.
  assert (removelast (r ++ [n]) = r) as Hr by (by rewrite removelast_last).
  destruct (r ++ [n]) as [|x l] eqn:He; [by destruct r|]. rewrite Hr in Hb. by destruct (node_at t r) as [[| |]|].
Qed.

Definition no_links_b (t : Tree) : bool :=
  forallb (λ e, match e.2 with Link _ => false | _ => true end) (map_to_list t).

Lemma no_links_b_ok t r target : no_links_b t = true → t !! r ≠ Some (Link target).
Proof.
  intros Hb Hl. unfold no_links_b in Hb. rewrite forallb_forall in Hb.
  specialize (Hb (r, Link target)). rewrite <- list_elem_of_In in Hb.
  by specialize (Hb (proj2 (elem_of_map_to_list _ _ _) Hl)).
Qed.
