(* ===== verification/FilesystemSkill.v ===== *)
(** * The filesystem skill ([skills/skill-filesystem/src/lib.rs])

    A tool call is an action on the [Tree]; every path is checked against the
    allowed roots first.  The matches of a glob pattern are a parameter (a
    third-party crate); [strip_unc_prefix] does nothing outside Windows. *)

From S2P Require Import Prelude RustStr Paths FileTree Json SkillPolicy SkillExecutor Chat SkillKit.
From Stdlib Require Import ZArith Lia Ascii.
From stdpp Require Import base list strings gmap pretty.

Open Scope rust_scope.

Definition backslash : string := String "092" "".

Definition READ_LIMIT : Z := 1048576.

Section skill.
Context `{JsonText} (cwd : real) (denied : Call → path → bool) (allowed_roots : list path).
(** [std::env::current_dir], [temp_dir]; the existing paths a pattern matches. *)
Context (current_dir : result path IoError) (temp_dir : path).
Context (glob : Tree → string → result (list path) string).
Notation canonicalize := (canonicalize cwd denied).
Notation path_exists := (path_exists cwd denied).

(** ** Guards *)

Definition reject_malicious_path (path_str : string) : result unit SkillError :=
  let normalized := replace path_str backslash "/" in
  if contains normalized "../" || contains normalized "/.." then
    Err (PermissionDenied "Path traversal (../) is not allowed")
  else match components path_str with
  | [] => Err (InvalidArguments "Path cannot be empty")
  | _ => Ok tt
  end.

Definition outside (path_str : string) : SkillError :=
  PermissionDenied ("Path '" +:+ path_str +:+ "' is outside allowed directories").

(** The canonical root, or the root as it was given. *)
Definition canonical_root (t : Tree) (root : path) : path :=
  match canonicalize t root with Ok r => r | Err _ => root end.

Definition is_within_allowed_roots (t : Tree) (p : path) : bool :=
  existsb (λ root, path_starts_with p (canonical_root t root)) allowed_roots.

Definition cannot_resolve (what : string) (e : IoError) : SkillError :=
  ToolFailed (what +:+ ": " +:+ io_error_str e).

Definition validate_path (t : Tree) (path_str : string) : result path SkillError :=
  let p := components path_str in
  let? _ := reject_malicious_path path_str in
  if path_exists t p then
    let? canonical := map_err (cannot_resolve "Cannot resolve path") (canonicalize t p) in
    if is_within_allowed_roots t canonical then Ok canonical else Err (outside path_str)
  else
    match parent p with
    | Some up =>
        if path_exists t up then
          let? canonical := map_err (cannot_resolve "Cannot resolve parent path") (canonicalize t up) in
          if is_within_allowed_roots t canonical
          then Ok (path_join canonical (match file_name p with Some n => [Normal n] | None => [] end))
          else Err (outside path_str)
        else Err (outside path_str)
    | None => Err (outside path_str)
    end.

(** [while let Some(parent) = cursor.parent()]: a turn per component. *)
Fixpoint nearest_ancestor (fuel : nat) (t : Tree) (path_str : string) (cursor : path)
  : result path SkillError :=
  match fuel, parent cursor with
  | S fuel, Some up =>
      if path_exists t up then
        let? canonical := map_err (cannot_resolve "Cannot resolve parent path") (canonicalize t up) in
        if is_within_allowed_roots t canonical
        then Ok (path_join canonical (drop (length up) (components path_str)))
        else Err (outside path_str)
      else nearest_ancestor fuel t path_str up
  | _, _ => Err (outside path_str)
  end.

Definition validate_write_path (t : Tree) (path_str : string) : result path SkillError :=
  let p := components path_str in
  let? _ := reject_malicious_path path_str in
  if path_exists t p then validate_path t path_str
  else nearest_ancestor (length p) t path_str p.

(** ** Tools *)

Definition read_file (path_str : string) (t : Tree) : result ToolOutput SkillError :=
  let? p := validate_path t path_str in
  if negb (is_file cwd denied t p) then Ok (tool_error ("'" +:+ path_str +:+ "' is not a file"))
  else
    let? len := map_err (cannot_resolve "Cannot read metadata") (metadata_len cwd denied t p) in
    if (READ_LIMIT <? Z.of_nat len)%Z then
      Ok (tool_error ("File too large (" +:+ pretty len +:+ " bytes). Maximum is 1MB."))
    else
      let? content := map_err (cannot_resolve "Cannot read file") (read cwd denied t p) in
      if utf8_valid content then
        Ok (tool_success (Obj [("formatted", Str content); ("path", Str (display p)); ("size_bytes", number len)]))
      else Err (ToolFailed "Cannot read file: stream did not contain valid UTF-8").

Definition io {A} (what : string) (m : M Tree IoError A) : M Tree SkillError A := λ t,
  let '(t, r) := m t in (t, map_err (cannot_resolve what) r).

Definition write_file (path_str content : string) : M Tree SkillError ToolOutput := λ t,
  match validate_write_path t path_str with
  | Err e => (t, Err e)
  | Ok p =>
      (match parent p with
       | Some up => io "Cannot create directories" (create_dir_all cwd denied up)
       | None => mret tt
       end ;;
       io "Cannot write file" (write cwd denied p content) ;;
       mret (tool_success (Obj
         [("formatted", Str ("Written " +:+ pretty (String.length content) +:+ " bytes to " +:+ display p));
          ("path", Str (display p)); ("size_bytes", number (String.length content))]))) t
  end.

Definition recommended_names : list string := ["handoff"; "inbox"; "outbox"; "scratch"; "logs"].

Definition describe_filesystem (t : Tree) : result ToolOutput SkillError :=
  let? dir := map_err (cannot_resolve "Cannot resolve current directory") current_dir in
  let workspace := match allowed_roots with root :: _ => root | [] => dir end in
  let recommended name :=
    let p := path_join workspace [Normal name] in
    Obj [("name", Str name); ("path", Str (display p)); ("exists", Bool (path_exists t p))] in
  let described root :=
    Obj [("path", Str (display root)); ("exists", Bool (path_exists t root));
         ("readable", Bool (path_exists t root)); ("writable", Bool (path_exists t root))] in
  Ok (tool_success (Obj
    [("formatted", Str ("cwd: " +:+ display dir +:+ nl +:+ "workspace: " +:+ display workspace +:+ nl +:+
        "temp: " +:+ display temp_dir +:+ nl +:+ "allowed roots:" +:+ nl +:+
        RustStr.join nl (map (λ root, "- " +:+ display root) allowed_roots)));
     ("current_working_directory", Str (display dir));
     ("workspace_root", Str (display workspace));
     ("temp_directory", Str (display temp_dir));
     ("read_roots", Arr (map described allowed_roots));
     ("write_roots", Arr (map (λ root, Str (display root)) allowed_roots));
     ("recommended_subdirectories", Arr (map recommended recommended_names))])).

Definition probe_path_access (path_str mode : string) (t : Tree) : ToolOutput :=
  let mode := to_lowercase mode in
  let answer (r : result path SkillError) :=
    tool_success (match r with
      | Ok p => Obj [("formatted", Str (mode +:+ " access allowed: " +:+ display p)); ("allowed", Bool true);
                     ("mode", Str mode); ("canonical_path", Str (display p)); ("exists", Bool (path_exists t p))]
      | Err e => Obj [("formatted", Str (mode +:+ " access denied for " +:+ path_str +:+ ": " +:+ skill_error_str e));
                      ("allowed", Bool false); ("mode", Str mode); ("canonical_path", Null);
                      ("exists", Bool (path_exists t (components path_str)));
                      ("reason", Str (skill_error_str e))]
      end) in
  if decide (mode = "read") then answer (validate_path t path_str)
  else if decide (mode = "write") then answer (validate_write_path t path_str)
  else tool_error ("Unsupported mode '" +:+ mode +:+ "'. Use 'read' or 'write'.").

Definition mkdir_tool (path_str : string) : M Tree SkillError ToolOutput := λ t,
  match validate_write_path t path_str with
  | Err e => (t, Err e)
  | Ok p =>
      if is_file cwd denied t p then
        (t, Ok (tool_error ("Cannot create directory '" +:+ display p +:+ "': a file already exists there")))
      else
        (io ("Cannot create directory '" +:+ display p +:+ "'") (create_dir_all cwd denied p) ;;
         mret (tool_success (Obj [("formatted", Str ("Created directory " +:+ display p));
                                  ("path", Str (display p)); ("created", Bool true)]))) t
  end.

(** Directories first, then by name. *)
Record Entry : Type := mkEntry { entry_name : string; is_directory : bool; size_bytes : nat }.

Definition entry_of (e : string * Node) : Entry :=
  match e.2 with
  | Directory => mkEntry e.1 true 0
  | File c => mkEntry e.1 false (String.length c)
  | Link target => mkEntry e.1 false (String.length (display target))
  end.

Definition entry_leb (a b : Entry) : bool :=
  match is_directory a, is_directory b with
  | true, false => true
  | false, true => false
  | _, _ => String.leb (entry_name a) (entry_name b)
  end.

Definition entry_line (e : Entry) : string :=
  (if is_directory e then "📁" else "📄") +:+ " " +:+ entry_name e.

Definition entry_value (e : Entry) : Value :=
  Obj [("name", Str (entry_name e)); ("is_directory", Bool (is_directory e));
       ("size_bytes", number (size_bytes e))].

Definition list_directory (path_str : string) (t : Tree) : result ToolOutput SkillError :=
  let? p := validate_path t path_str in
  if negb (is_dir cwd denied t p) then Ok (tool_error ("'" +:+ path_str +:+ "' is not a directory"))
  else
    let? entries := map_err (cannot_resolve "Cannot read directory") (read_dir cwd denied t p) in
    let items := sort_by entry_leb (map entry_of entries) in
    Ok (tool_success (Obj
      [("formatted", Str (RustStr.join nl (map entry_line items))); ("path", Str (display p));
       ("count", number (length items)); ("entries", Arr (map entry_value items))])).

Definition MAX_MATCHES : nat := 100.

Definition search_files (pattern_str root_str : string) (t : Tree) : result ToolOutput SkillError :=
  let? root := validate_path t root_str in
  if negb (is_dir cwd denied t root) then Ok (tool_error ("'" +:+ root_str +:+ "' is not a directory"))
  else
    let full_pattern := replace (display root) backslash "/" +:+ "/" +:+ pattern_str in
    let? found := map_err (λ e, ToolFailed ("Invalid glob pattern: " +:+ e)) (glob t full_pattern) in
    let matches := map display (take MAX_MATCHES (filter (is_within_allowed_roots t) found)) in
    Ok (tool_success (Obj
      [("formatted", Str (match matches with
                          | [] => "No files found matching the pattern."
                          | _ => RustStr.join nl matches
                          end));
       ("pattern", Str pattern_str); ("root", Str (display root)); ("count", number (length matches));
       ("files", Arr (map Str matches))])).

(** ** The skill *)

Definition health (t : Tree) : bool := forallb (path_exists t) allowed_roots.

Definition reads_only (r : Tree → result ToolOutput SkillError) : M Tree SkillError ToolOutput :=
  λ t, (t, r t).

Definition with_text (params : ToolParams) (key : string) (k : string → M Tree SkillError ToolOutput)
  : M Tree SkillError ToolOutput :=
  match get_text params key with Some s => k s | None => fail (missing key) end.

Definition execute_tool (tool_name : string) (params : ToolParams) : M Tree SkillError ToolOutput :=
  if decide (tool_name = "describe_filesystem") then reads_only describe_filesystem
  else if decide (tool_name = "read_file") then
    with_text params "path" (λ p, reads_only (read_file p))
  else if decide (tool_name = "write_file") then
    with_text params "path" (λ p,
      match get_string params "content" with
      | Some content => write_file p content
      | None => fail (missing "content")
      end)
  else if decide (tool_name = "list_directory") then
    with_text params "path" (λ p, reads_only (list_directory p))
  else if decide (tool_name = "probe_path_access") then
    with_text params "path" (λ p, with_text params "mode" (λ mode,
      reads_only (λ t, Ok (probe_path_access p mode t))))
  else if decide (tool_name = "mkdir") then with_text params "path" mkdir_tool
  else if decide (tool_name = "search_files") then
    with_text params "pattern" (λ pattern, with_text params "root" (λ root,
      reads_only (search_files pattern root)))
  else fail (ToolFailed ("Unknown tool: " +:+ tool_name)).
End skill.

Definition skill_tools : list Tool := [
  mkTool (mkToolDescriptor "describe_filesystem"
      "Show authoritative filesystem boundaries for this runtime: current working directory, writable roots, temp directory, and recommended workspace subdirectories."
      [FileSystem (Read ["~"])] true false)
    (Obj [("type", Str "object"); ("properties", Obj [])])
    (Obj [
      ("type", Str "object");
      ("properties", Obj [
        ("current_working_directory", Obj [("type", Str "string")]);
        ("workspace_root", Obj [("type", Str "string")]);
        ("temp_directory", Obj [("type", Str "string")]);
        ("read_roots", Obj [("type", Str "array")]);
        ("write_roots", Obj [("type", Str "array")])])])
    (mkCostEstimate 5 false None);
  mkTool (mkToolDescriptor "read_file"
      "Read the contents of a file. Returns the text content for files under 1MB."
      [FileSystem (Read ["~"])] true false)
    (Obj [
      ("type", Str "object");
      ("properties", Obj [("path", Obj [("type", Str "string"); ("description", Str "Absolute path to the file to read")])]);
      ("required", Arr [Str "path"])])
    (Obj [
      ("type", Str "object");
      ("properties", Obj [
        ("formatted", Obj [("type", Str "string")]);
        ("path", Obj [("type", Str "string")]);
        ("size_bytes", Obj [("type", Str "integer")])])])
    (mkCostEstimate 10 false None);
  mkTool (mkToolDescriptor "write_file"
      "Write content to a file. Creates parent directories if needed."
      [FileSystem (Write ["~"])] false true)
    (Obj [
      ("type", Str "object");
      ("properties", Obj [
        ("path", Obj [("type", Str "string"); ("description", Str "Absolute path to write the file")]);
        ("content", Obj [("type", Str "string"); ("description", Str "Content to write to the file")])]);
      ("required", Arr [Str "path"; Str "content"])])
    (Obj [
      ("type", Str "object");
      ("properties", Obj [
        ("formatted", Obj [("type", Str "string")]);
        ("path", Obj [("type", Str "string")]);
        ("size_bytes", Obj [("type", Str "integer")])])])
    (mkCostEstimate 10 false None);
  mkTool (mkToolDescriptor "list_directory"
      "List the contents of a directory, showing files and subdirectories."
      [FileSystem (Read ["~"])] true false)
    (Obj [
      ("type", Str "object");
      ("properties", Obj [
        ("path", Obj [("type", Str "string"); ("description", Str "Absolute path to the directory to list")])]);
      ("required", Arr [Str "path"])])
    (Obj [
      ("type", Str "object");
      ("properties", Obj [
        ("formatted", Obj [("type", Str "string")]);
        ("count", Obj [("type", Str "integer")]);
        ("entries", Obj [("type", Str "array")])])])
    (mkCostEstimate 10 false None);
  mkTool (mkToolDescriptor "probe_path_access"
      "Validate whether a path is allowed before attempting to read or write it."
      [FileSystem (Read ["~"])] true false)
    (Obj [
      ("type", Str "object");
      ("properties", Obj [
        ("path", Obj [("type", Str "string"); ("description", Str "Absolute path to validate")]);
        ("mode", Obj [
          ("type", Str "string");
          ("enum", Arr [Str "read"; Str "write"]);
          ("description", Str "Whether to validate the path for reading or writing")])]);
      ("required", Arr [Str "path"; Str "mode"])])
    (Obj [
      ("type", Str "object");
      ("properties", Obj [
        ("allowed", Obj [("type", Str "boolean")]);
        ("canonical_path", Obj [("type", Arr [Str "string"; Str "null"])]);
        ("reason", Obj [("type", Str "string")])])])
    (mkCostEstimate 5 false None);
  mkTool (mkToolDescriptor "mkdir"
      "Create a directory recursively inside an allowed writable root."
      [FileSystem (Write ["~"])] false true)
    (Obj [
      ("type", Str "object");
      ("properties", Obj [("path", Obj [("type", Str "string"); ("description", Str "Absolute directory path to create")])]);
      ("required", Arr [Str "path"])])
    (Obj [
      ("type", Str "object");
      ("properties", Obj [("path", Obj [("type", Str "string")]); ("created", Obj [("type", Str "boolean")])])])
    (mkCostEstimate 10 false None);
  mkTool (mkToolDescriptor "search_files"
      "Search for files matching a glob pattern within a directory. Returns up to 100 matching paths."
      [FileSystem (Read ["~"])] true false)
    (Obj [
      ("type", Str "object");
      ("properties", Obj [
        ("pattern", Obj [("type", Str "string"); ("description", Str "Glob pattern to match (e.g. '**/*.txt', '*.rs')")]);
        ("root", Obj [("type", Str "string"); ("description", Str "Root directory to search from")])]);
      ("required", Arr [Str "pattern"; Str "root"])])
    (Obj [
      ("type", Str "object");
      ("properties", Obj [
        ("formatted", Obj [("type", Str "string")]);
        ("count", Obj [("type", Str "integer")]);
        ("files", Obj [("type", Str "array")])])])
    (mkCostEstimate 100 false None)].

Definition tools : list ToolDescriptor := map descriptor skill_tools.
