(* ===== verification/ShellSkill.v ===== *)
(** * The skills that run a process ([skills/skill-shell], [skills/skill-git])

    A call starts at most one process.  The state is the list of what was started;
    what a process answers is a parameter. *)

From S2P Require Import Prelude RustStr Json SkillPolicy SkillExecutor Chat SkillKit.
From Stdlib Require Import ZArith Lia Ascii.
From stdpp Require Import base list strings gmap pretty.

Open Scope rust_scope.

Section process.
Context (run_process : Invocation → ProcessResult).

Definition start (i : Invocation) : M (list Invocation) Fault ProcessResult :=
  λ started, (started ++ [i], Ok (run_process i)).

(** The [match result] of both skills. *)
Definition report (what failed timed_out : string) (r : ProcessResult) : M (list Invocation) Fault ToolOutput :=
  match r with
  | Exited stdout stderr code =>
      match process_output what stdout stderr code with
      | Some out => mret out
      | None => fail Panicked
      end
  | NotStarted e => mret (tool_error (failed +:+ e))
  | TimedOut => mret (tool_error timed_out)
  end.
End process.

Module Shell.

Definition DEFAULT_TIMEOUT_SECS : Z := 30.

Definition BLOCKED_PATTERNS : list string := [
  "rm -rf /"; "rm -rf /*"; "rm -rf ~"; "mkfs."; "dd if=/dev/zero"; "dd if=/dev/random";
  ":(){:|:&};:"; "chmod -R 777 /"; "chown -R"; "shutdown"; "reboot"; "poweroff"; "halt";
  "init 0"; "init 6"; "format c:"; "> /dev/sda"; "mv /* /dev/null"].

Definition ELEVATED_COMMANDS : list string := ["sudo"; "su "; "pkill"; "kill -9"; "killall"].

Record ShellSkill : Type := mkShell { max_timeout_secs : Z; allow_elevated : bool }.
Definition new : ShellSkill := mkShell DEFAULT_TIMEOUT_SECS false.

Definition check_safety (skill : ShellSkill) (command : string) : result unit string :=
  let lower := to_lowercase command in
  match List.find (contains lower) BLOCKED_PATTERNS with
  | Some pattern => Err ("Command blocked: contains dangerous pattern '" +:+ pattern +:+ "'")
  | None =>
      if allow_elevated skill then Ok tt
      else match List.find (λ p, starts_with lower p || contains lower (" " +:+ p)) ELEVATED_COMMANDS with
           | Some pattern =>
               Err ("Elevated command '" +:+ trim pattern +:+ "' is not allowed. Enable allow_elevated to permit.")
           | None => Ok tt
           end
  end.

(** The seconds a command may take. *)
Definition timeout_of (skill : ShellSkill) (timeout_secs : option Z) : Z :=
  Z.min (default DEFAULT_TIMEOUT_SECS timeout_secs) (max_timeout_secs skill).

Section run.
Context (run_process : Invocation → ProcessResult) (is_dir : string → bool).

Definition run_command (skill : ShellSkill) (command : string)
    (working_dir : option string) (timeout_secs : option Z) : M (list Invocation) Fault ToolOutput :=
  match check_safety skill command with
  | Err reason => mret (tool_error reason)
  | Ok _ =>
      match working_dir with
      | Some dir =>
          if is_dir dir then
            r ← start run_process (mkInvocation "sh" ["-c"; command] working_dir);
            report "Command" "Failed to execute command: "
              ("Command timed out after " +:+ pretty (timeout_of skill timeout_secs) +:+ " seconds") r
          else mret (tool_error ("Working directory '" +:+ dir +:+ "' does not exist"))
      | None =>
          r ← start run_process (mkInvocation "sh" ["-c"; command] working_dir);
          report "Command" "Failed to execute command: "
            ("Command timed out after " +:+ pretty (timeout_of skill timeout_secs) +:+ " seconds") r
      end
  end.

Definition execute_tool (skill : ShellSkill) (tool_name : string) (params : ToolParams)
  : M (list Invocation) Fault ToolOutput :=
  if decide (tool_name ≠ "run_command") then fail (Failed (unknown_tool tool_name))
  else match get_text params "command" with
  | None => fail (Failed (missing "command"))
  | Some command =>
      run_command skill command (get_text params "working_directory") (get_u64 params "timeout_secs")
  end.
End run.

Definition skill_tools : list Tool := [
  mkTool (mkToolDescriptor "run_command"
      "Execute a shell command and return its output. Commands are subject to safety checks and timeout limits."
      [ShellExecute] false true)
    (Obj [
      ("type", Str "object");
      ("properties", Obj [
        ("command", Obj [("type", Str "string"); ("description", Str "The shell command to execute")]);
        ("working_directory", Obj [("type", Str "string"); ("description", Str "Optional working directory for the command")]);
        ("timeout_secs", Obj [
          ("type", Str "integer");
          ("description", Str "Optional timeout in seconds (default 30, max 30)")])]);
      ("required", Arr [Str "command"])])
    (Obj [
      ("type", Str "object");
      ("properties", Obj [
        ("formatted", Obj [("type", Str "string")]);
        ("exit_code", Obj [("type", Str "integer")]);
        ("success", Obj [("type", Str "boolean")]);
        ("stdout", Obj [("type", Str "string")]);
        ("stderr", Obj [("type", Str "string")])])])
    (mkCostEstimate 5000 false None)].
End Shell.

Module Git.

Definition GIT_TIMEOUT_SECS : Z := 30.

Section run.
Context (run_process : Invocation → ProcessResult).

Definition run_git (args : list string) (repo_path : option string) : M (list Invocation) Fault ToolOutput :=
  let args := match repo_path with Some path => "-C" :: path :: args | None => args end in
  r ← start run_process (mkInvocation "git" args None);
  report "git command" "Failed to execute git: "
    ("git command timed out after " +:+ pretty GIT_TIMEOUT_SECS +:+ " seconds") r.

Definition execute_tool (tool_name : string) (params : ToolParams) : M (list Invocation) Fault ToolOutput :=
  let repo_path := get_text params "repo_path" in
  if decide (tool_name = "git_status") then run_git ["status"; "--porcelain=v1"] repo_path
  else if decide (tool_name = "git_log") then
    run_git ["log"; "--oneline"; "-" +:+ pretty (default 10%Z (get_u64 params "count"))] repo_path
  else if decide (tool_name = "git_diff") then
    run_git (if default false (get_bool params "staged") then ["diff"; "--cached"] else ["diff"]) repo_path
  else if decide (tool_name = "git_branch_list") then run_git ["branch"; "-a"] repo_path
  else if decide (tool_name = "git_commit") then
    match get_text params "message" with
    | None => fail (Failed (missing "message"))
    | Some message => run_git ["commit"; "-m"; message] repo_path
    end
  else fail (Failed (unknown_tool tool_name)).
End run.

Definition skill_tools : list Tool := [
  mkTool (mkToolDescriptor "git_status"
      "Show the working tree status in porcelain format."
      [ShellExecute] true false)
    (Obj [
      ("type", Str "object");
      ("properties", Obj [
        ("repo_path", Obj [("type", Str "string"); ("description", Str "Optional path to the git repository")])]);
      ("required", Arr [])])
    (Obj [
      ("type", Str "object");
      ("properties", Obj [
        ("formatted", Obj [("type", Str "string")]);
        ("exit_code", Obj [("type", Str "integer")]);
        ("success", Obj [("type", Str "boolean")]);
        ("stdout", Obj [("type", Str "string")]);
        ("stderr", Obj [("type", Str "string")])])])
    (mkCostEstimate 2000 false None);
  mkTool (mkToolDescriptor "git_log"
      "Show recent commit history in oneline format."
      [ShellExecute] true false)
    (Obj [
      ("type", Str "object");
      ("properties", Obj [
        ("repo_path", Obj [("type", Str "string"); ("description", Str "Optional path to the git repository")]);
        ("count", Obj [("type", Str "integer"); ("description", Str "Number of commits to show (default 10)")])]);
      ("required", Arr [])])
    (Obj [
      ("type", Str "object");
      ("properties", Obj [
        ("formatted", Obj [("type", Str "string")]);
        ("exit_code", Obj [("type", Str "integer")]);
        ("success", Obj [("type", Str "boolean")]);
        ("stdout", Obj [("type", Str "string")]);
        ("stderr", Obj [("type", Str "string")])])])
    (mkCostEstimate 2000 false None);
  mkTool (mkToolDescriptor "git_diff"
      "Show changes in the working tree or staged changes."
      [ShellExecute] true false)
    (Obj [
      ("type", Str "object");
      ("properties", Obj [
        ("repo_path", Obj [("type", Str "string"); ("description", Str "Optional path to the git repository")]);
        ("staged", Obj [
          ("type", Str "boolean");
          ("description", Str "If true, show staged changes (--cached). Default false.")])]);
      ("required", Arr [])])
    (Obj [
      ("type", Str "object");
      ("properties", Obj [
        ("formatted", Obj [("type", Str "string")]);
        ("exit_code", Obj [("type", Str "integer")]);
        ("success", Obj [("type", Str "boolean")]);
        ("stdout", Obj [("type", Str "string")]);
        ("stderr", Obj [("type", Str "string")])])])
    (mkCostEstimate 2000 false None);
  mkTool (mkToolDescriptor "git_branch_list"
      "List all local and remote branches."
      [ShellExecute] true false)
    (Obj [
      ("type", Str "object");
      ("properties", Obj [
        ("repo_path", Obj [("type", Str "string"); ("description", Str "Optional path to the git repository")])]);
      ("required", Arr [])])
    (Obj [
      ("type", Str "object");
      ("properties", Obj [
        ("formatted", Obj [("type", Str "string")]);
        ("exit_code", Obj [("type", Str "integer")]);
        ("success", Obj [("type", Str "boolean")]);
        ("stdout", Obj [("type", Str "string")]);
        ("stderr", Obj [("type", Str "string")])])])
    (mkCostEstimate 2000 false None);
  mkTool (mkToolDescriptor "git_commit"
      "Create a git commit with the given message. Only commits already-staged changes."
      [ShellExecute] false true)
    (Obj [
      ("type", Str "object");
      ("properties", Obj [
        ("repo_path", Obj [("type", Str "string"); ("description", Str "Optional path to the git repository")]);
        ("message", Obj [("type", Str "string"); ("description", Str "The commit message")])]);
      ("required", Arr [Str "message"])])
    (Obj [
      ("type", Str "object");
      ("properties", Obj [
        ("formatted", Obj [("type", Str "string")]);
        ("exit_code", Obj [("type", Str "integer")]);
        ("success", Obj [("type", Str "boolean")]);
        ("stdout", Obj [("type", Str "string")]);
        ("stderr", Obj [("type", Str "string")])])])
    (mkCostEstimate 3000 false None)].
End Git.
