(* ===== verification/RecordSkills.v ===== *)
(** * The skills over a table ([skills/skill-calendar], [skills/skill-knowledge-base])

    Each call opens the store of the entity; a record has the identifier it is
    stored under. *)

From S2P Require Import Prelude RustStr RecordStore Paths Json SkillPolicy SkillExecutor Chat SkillKit.
From Stdlib Require Import ZArith Lia Ascii.
From stdpp Require Import base list sets sorting strings gmap pretty.

Open Scope rust_scope.

(** ** Where the store is *)

Inductive EntityScope : Type := EntityOf (id : string) | HiveScope.

(** [path.file_name().and_then(to_str)] of a directory named by a UUID. *)
Definition uuid_name (is_uuid : string → bool) (p : path) : option string :=
  name ← file_name p; if is_uuid name then Some name else None.

Definition infer_scope (is_uuid : string → bool) (data_dir : path) : EntityScope :=
  match uuid_name is_uuid data_dir, parent data_dir ≫= uuid_name is_uuid with
  | Some id, _ => EntityOf id
  | None, Some id => EntityOf id
  | None, None => HiveScope
  end.

Definition shared_db_path (data_dir : path) : path :=
  match parent data_dir ≫= parent with
  | Some root => path_join root [Normal "memory.db"]
  | None => path_join data_dir [Normal "memory.db"]
  end.

(** [serde_json::to_value] of an optional text; a JSON field of a value as text. *)
Definition optional (o : option string) : Value := match o with Some s => Str s | None => Null end.
Definition field_or (d key : string) (v : Value) : string := default d (get key v ≫= as_str).

Section store.
Context {T R : Type} `{RecordStore T R, !RecordQuery T R}.
(** [create_dir_all] of the data directory, then [PersistenceHandle::open]. *)
Context (make_dir open_db : T → result unit string).

Definition tool_failed (what : string) (e : string) : SkillError := ToolFailed (what +:+ ": " +:+ e).
Definition failing {A} (what : string) (m : M T string A) : M T SkillError A := λ s,
  let '(s, r) := m s in (s, map_err (tool_failed what) r).
Definition observing {A} (what : string) (q : T → result A string) : M T SkillError A :=
  failing what (λ s, (s, q s)).

Definition open_store (what : string) : M T SkillError unit := λ s,
  (s, let? _ := map_err (λ e, InitFailed ("Cannot create data directory: " +:+ e)) (make_dir s) in
      map_err (λ e, InitFailed ("Cannot open " +:+ what +:+ ": " +:+ e)) (open_db s)).
End store.

Module Calendar.

Record CalendarEventDoc : Type := mkEvent {
  id : string;
  title : string;
  description : option string;
  start_time : string;
  end_time : option string;
  location : option string;
  created_at : string;
}.

Definition to_value (e : CalendarEventDoc) : Value := Obj
  [("id", Str (id e)); ("title", Str (title e)); ("description", optional (description e));
   ("start_time", Str (start_time e)); ("end_time", optional (end_time e));
   ("location", optional (location e)); ("created_at", Str (created_at e))].

Definition by_start (a b : CalendarEventDoc) : bool := String.leb (start_time a) (start_time b).

Section calendar.
Context {T : Type} `{RecordStore T CalendarEventDoc, !RecordQuery T CalendarEventDoc}.
Context (make_dir open_db : T → result unit string).
Notation open_store := (open_store make_dir open_db "memory store").

Definition list_all : M T SkillError (list CalendarEventDoc) :=
  open_store ;; observing "Failed to load events" (store_query (λ _, true) by_start None).

Definition get_event (i : string) : M T SkillError (option CalendarEventDoc) :=
  open_store ;; observing "Failed to load event" (store_select i).

(** [new_id] and [now] are the UUID and the time of the call. *)
Definition add_event (new_id now ti : string) (de : option string) (st : string) (en lo : option string)
  : M T SkillError ToolOutput :=
  open_store ;;
  failing "Failed to insert event" (store_create new_id (mkEvent new_id ti de st en lo now)) ;;
  mret (tool_success (Obj
    [("formatted", Str ("Event '" +:+ ti +:+ "' created (id: " +:+ new_id +:+ ")"));
     ("id", Str new_id); ("title", Str ti); ("start_time", Str st)])).

Definition in_range (from to : option string) (e : CalendarEventDoc) : bool :=
  match from with Some min => String.leb min (start_time e) | None => true end &&
  match to with Some max => String.leb (start_time e) max | None => true end.

Definition event_line (v : Value) : string :=
  let optional_part pre key := match get key v ≫= as_str with Some s => pre +:+ s | None => "" end in
  "[" +:+ field_or "" "id" v +:+ "] " +:+ field_or "" "title" v +:+ " (" +:+ field_or "" "start_time" v +:+
  optional_part " - " "end_time" +:+ optional_part " @ " "location" +:+ ")".

Definition list_events (from to : option string) : M T SkillError ToolOutput :=
  all ← list_all;
  let events := map to_value (filter (in_range from to) all) in
  mret (tool_success (Obj
    [("formatted", Str (match events with
                        | [] => "No events found."
                        | _ => RustStr.join nl (map event_line events)
                        end));
     ("count", number (length events)); ("events", Arr events)])).

Definition no_event (i : string) : ToolOutput := tool_error ("No event found with id '" +:+ i +:+ "'").

Definition delete_event (i : string) : M T SkillError ToolOutput :=
  found ← get_event i;
  match found with
  | None => mret (no_event i)
  | Some _ =>
      open_store ;;
      failing "Delete failed" (store_delete i) ;;
      mret (tool_success (Obj
        [("formatted", Str ("Event '" +:+ i +:+ "' deleted.")); ("id", Str i); ("deleted", Bool true)]))
  end.

(** The parameters given replace the fields. *)
Definition patched (ti de st en lo : option string) (e : CalendarEventDoc) : CalendarEventDoc :=
  let or_else (new old : option string) := match new with Some _ => new | None => old end in
  mkEvent (id e) (default (title e) ti) (or_else de (description e)) (default (start_time e) st)
    (or_else en (end_time e)) (or_else lo (location e)) (created_at e).

Definition update_event (i : string) (ti de st en lo : option string) : M T SkillError ToolOutput :=
  found ← get_event i;
  match found with
  | None => mret (no_event i)
  | Some event =>
      open_store ;;
      failing "Update failed" (store_upsert i (patched ti de st en lo event)) ;;
      mret (tool_success (Obj
        [("formatted", Str ("Event '" +:+ i +:+ "' updated.")); ("id", Str i); ("updated", Bool true)]))
  end.

Definition execute_tool (new_id now tool_name : string) (params : ToolParams) : M T SkillError ToolOutput :=
  let text := get_text params in
  if decide (tool_name = "calendar_add_event") then
    match text "title", text "start_time" with
    | None, _ => fail (missing "title")
    | _, None => fail (missing "start_time")
    | Some ti, Some st => add_event new_id now ti (text "description") st (text "end_time") (text "location")
    end
  else if decide (tool_name = "calendar_list_events") then list_events (text "from") (text "to")
  else if decide (tool_name = "calendar_delete_event") then
    match text "id" with None => fail (missing "id") | Some i => delete_event i end
  else if decide (tool_name = "calendar_update_event") then
    match text "id" with
    | None => fail (missing "id")
    | Some i => update_event i (text "title") (text "description") (text "start_time") (text "end_time")
                  (text "location")
    end
  else fail (unknown_tool tool_name).

Definition initialize : M T SkillError unit := open_store.
Definition health (s : T) : bool := is_ok (open_store s).2.
End calendar.

Definition skill_tools : list Tool := [
  mkTool (mkToolDescriptor "calendar_add_event"
      "Add a new calendar event with a title, start time, and optional details."
      [FileSystem (Read ["~"]); FileSystem (Write ["~"])] true false)
    (Obj [
      ("type", Str "object");
      ("properties", Obj [
        ("title", Obj [("type", Str "string"); ("description", Str "Title of the event")]);
        ("description", Obj [("type", Str "string"); ("description", Str "Optional description of the event")]);
        ("start_time", Obj [("type", Str "string"); ("description", Str "Start time in ISO 8601 format")]);
        ("end_time", Obj [("type", Str "string"); ("description", Str "Optional end time in ISO 8601 format")]);
        ("location", Obj [("type", Str "string"); ("description", Str "Optional location of the event")])]);
      ("required", Arr [Str "title"; Str "start_time"])])
    (Obj [
      ("type", Str "object");
      ("properties", Obj [
        ("formatted", Obj [("type", Str "string")]);
        ("id", Obj [("type", Str "string")]);
        ("title", Obj [("type", Str "string")]);
        ("start_time", Obj [("type", Str "string")])])])
    (mkCostEstimate 10 false None);
  mkTool (mkToolDescriptor "calendar_list_events"
      "List calendar events, optionally filtered by a date range."
      [FileSystem (Read ["~"])] true false)
    (Obj [
      ("type", Str "object");
      ("properties", Obj [
        ("from", Obj [("type", Str "string"); ("description", Str "Optional start of date range in ISO 8601 format")]);
        ("to", Obj [("type", Str "string"); ("description", Str "Optional end of date range in ISO 8601 format")])])])
    (Obj [
      ("type", Str "object");
      ("properties", Obj [
        ("formatted", Obj [("type", Str "string")]);
        ("count", Obj [("type", Str "integer")]);
        ("events", Obj [("type", Str "array")])])])
    (mkCostEstimate 10 false None);
  mkTool (mkToolDescriptor "calendar_delete_event"
      "Delete a calendar event by its ID."
      [FileSystem (Read ["~"]); FileSystem (Write ["~"])] false true)
    (Obj [
      ("type", Str "object");
      ("properties", Obj [("id", Obj [("type", Str "string"); ("description", Str "The unique ID of the event to delete")])]);
      ("required", Arr [Str "id"])])
    (Obj [
      ("type", Str "object");
      ("properties", Obj [
        ("formatted", Obj [("type", Str "string")]);
        ("id", Obj [("type", Str "string")]);
        ("deleted", Obj [("type", Str "boolean")])])])
    (mkCostEstimate 10 false None);
  mkTool (mkToolDescriptor "calendar_update_event"
      "Update one or more fields of an existing calendar event."
      [FileSystem (Read ["~"]); FileSystem (Write ["~"])] false true)
    (Obj [
      ("type", Str "object");
      ("properties", Obj [
        ("id", Obj [("type", Str "string"); ("description", Str "The unique ID of the event to update")]);
        ("title", Obj [("type", Str "string"); ("description", Str "New title for the event")]);
        ("description", Obj [("type", Str "string"); ("description", Str "New description for the event")]);
        ("start_time", Obj [("type", Str "string"); ("description", Str "New start time in ISO 8601 format")]);
        ("end_time", Obj [("type", Str "string"); ("description", Str "New end time in ISO 8601 format")]);
        ("location", Obj [("type", Str "string"); ("description", Str "New location for the event")])]);
      ("required", Arr [Str "id"])])
    (Obj [
      ("type", Str "object");
      ("properties", Obj [
        ("formatted", Obj [("type", Str "string")]);
        ("id", Obj [("type", Str "string")]);
        ("updated", Obj [("type", Str "boolean")])])])
    (mkCostEstimate 10 false None)].
End Calendar.

Module Knowledge.

Record KnowledgeEntryDoc : Type := mkEntryDoc {
  id : string;
  title : string;
  content : string;
  tags : option string;
  category : option string;
  created_at : string;
  updated_at : string;
}.

Definition to_value (e : KnowledgeEntryDoc) : Value := Obj
  [("id", Str (id e)); ("title", Str (title e)); ("content", Str (content e)); ("tags", optional (tags e));
   ("category", optional (category e)); ("created_at", Str (created_at e)); ("updated_at", Str (updated_at e))].

Definition newest_first (a b : KnowledgeEntryDoc) : bool := String.leb (updated_at b) (updated_at a).

Section knowledge.
Context {T : Type} `{RecordStore T KnowledgeEntryDoc, !RecordQuery T KnowledgeEntryDoc}.
Context (make_dir open_db : T → result unit string).
Notation open_store := (open_store make_dir open_db "knowledge base store").

Definition list_all : M T SkillError (list KnowledgeEntryDoc) :=
  open_store ;; observing "Failed to load knowledge entries" (store_query (λ _, true) newest_first None).

Definition get_entry (i : string) : M T SkillError (option KnowledgeEntryDoc) :=
  open_store ;; observing "Failed to load entry" (store_select i).

Definition kb_store (new_id now : string) (params : ToolParams) : M T SkillError ToolOutput :=
  match get_text params "title", get_text params "content" with
  | None, _ => fail (missing "title")
  | _, None => fail (missing "content")
  | Some ti, Some co =>
      open_store ;;
      failing "Insert failed" (store_create new_id
        (mkEntryDoc new_id ti co (RustStr.join "," <$> get_strings params "tags") (get_text params "category") now now)) ;;
      mret (tool_success (Obj
        [("formatted", Str ("Stored entry '" +:+ ti +:+ "' (id: " +:+ new_id +:+ ")"));
         ("id", Str new_id); ("title", Str ti)]))
  end.

Definition matches_text (query_lower : string) (e : KnowledgeEntryDoc) : bool :=
  contains (to_lowercase (title e)) query_lower || contains (to_lowercase (content e)) query_lower.

Definition has_tag (tag : option string) (e : KnowledgeEntryDoc) : bool :=
  match tag with
  | None => true
  | Some tag =>
      match tags e with
      | Some csv => existsb (λ item, bool_decide (trim item = tag)) (split_on "," csv)
      | None => false
      end
  end.

Definition entry_line (v : Value) : string :=
  "- [" +:+ field_or "?" "id" v +:+ "] " +:+ field_or "?" "title" v +:+
  " (tags: " +:+ field_or "none" "tags" v +:+ ")".

Definition kb_search (params : ToolParams) : M T SkillError ToolOutput :=
  match get_text params "query" with
  | None => fail (missing "query")
  | Some query =>
      all ← list_all;
      let results := map to_value
        (filter (has_tag (get_text params "tag")) (filter (matches_text (to_lowercase query)) all)) in
      mret (tool_success (Obj
        [("formatted", Str (match results with
                            | [] => "No entries found matching '" +:+ query +:+ "'."
                            | _ => RustStr.join nl (map entry_line results)
                            end));
         ("count", number (length results)); ("entries", Arr results)]))
  end.

Definition entry_page (e : KnowledgeEntryDoc) : string :=
  "# " +:+ title e +:+ nl +:+ nl +:+ content e +:+ nl +:+ nl +:+ "Tags: " +:+ default "none" (tags e) +:+ nl +:+
  "Category: " +:+ default "none" (category e) +:+ nl +:+ "Created: " +:+ created_at e +:+ nl +:+
  "Updated: " +:+ updated_at e.

Definition kb_get (params : ToolParams) : M T SkillError ToolOutput :=
  match get_text params "id" with
  | None => fail (missing "id")
  | Some i =>
      found ← get_entry i;
      match found with
      | None => fail (ToolFailed ("Entry not found: " +:+ i))
      | Some e => mret (tool_success (Obj [("formatted", Str (entry_page e)); ("entry", to_value e)]))
      end
  end.

Definition kb_delete (params : ToolParams) : M T SkillError ToolOutput :=
  match get_text params "id" with
  | None => fail (missing "id")
  | Some i =>
      found ← get_entry i;
      match found with
      | None => mret (tool_error ("Entry not found: " +:+ i))
      | Some _ =>
          open_store ;;
          failing "Delete failed" (store_delete i) ;;
          mret (tool_success (Obj
            [("formatted", Str ("Deleted entry " +:+ i)); ("id", Str i); ("deleted", Bool true)]))
      end
  end.

(** The [BTreeSet] of the tags, in order. *)
Definition distinct_tags (all : list KnowledgeEntryDoc) : list string :=
  let named e := match tags e with
                 | Some csv => filter (λ t, t ≠ "") (map trim (split_on "," csv))
                 | None => []
                 end in
  sort_by String.leb (remove_dups (concat (map named all))).

Definition kb_list_tags : M T SkillError ToolOutput :=
  all ← list_all;
  let tags := distinct_tags all in
  mret (tool_success (Obj
    [("formatted", Str (match tags with [] => "No tags found." | _ => RustStr.join ", " tags end));
     ("count", number (length tags)); ("tags", Arr (map Str tags))])).

Definition execute_tool (new_id now tool_name : string) (params : ToolParams) : M T SkillError ToolOutput :=
  if decide (tool_name = "kb_store") then kb_store new_id now params
  else if decide (tool_name = "kb_search") then kb_search params
  else if decide (tool_name = "kb_get") then kb_get params
  else if decide (tool_name = "kb_delete") then kb_delete params
  else if decide (tool_name = "kb_list_tags") then kb_list_tags
  else fail (unknown_tool tool_name).

Definition initialize : M T SkillError unit := open_store.
Definition health (s : T) : bool := is_ok (open_store s).2.
End knowledge.

Definition skill_tools : list Tool := [
  mkTool (mkToolDescriptor "kb_store"
      "Store a new knowledge entry with title, content, optional tags, and optional category."
      [FileSystem (Read ["~"]); FileSystem (Write ["~"])] true false)
    (Obj [
      ("type", Str "object");
      ("properties", Obj [
        ("title", Obj [("type", Str "string"); ("description", Str "Title of the knowledge entry")]);
        ("content", Obj [("type", Str "string"); ("description", Str "Body content of the knowledge entry")]);
        ("tags", Obj [
          ("type", Str "array");
          ("items", Obj [("type", Str "string")]);
          ("description", Str "Optional list of tags")]);
        ("category", Obj [("type", Str "string"); ("description", Str "Optional category for the entry")])]);
      ("required", Arr [Str "title"; Str "content"])])
    (Obj [
      ("type", Str "object");
      ("properties", Obj [
        ("formatted", Obj [("type", Str "string")]);
        ("id", Obj [("type", Str "string")]);
        ("title", Obj [("type", Str "string")])])])
    (mkCostEstimate 10 false None);
  mkTool (mkToolDescriptor "kb_search"
      "Search knowledge entries by title/content with optional tag filter."
      [FileSystem (Read ["~"])] true false)
    (Obj [
      ("type", Str "object");
      ("properties", Obj [
        ("query", Obj [("type", Str "string"); ("description", Str "Search text to match in title or content")]);
        ("tag", Obj [("type", Str "string"); ("description", Str "Optional tag to filter results")])]);
      ("required", Arr [Str "query"])])
    (Obj [
      ("type", Str "object");
      ("properties", Obj [
        ("formatted", Obj [("type", Str "string")]);
        ("count", Obj [("type", Str "integer")]);
        ("entries", Obj [("type", Str "array")])])])
    (mkCostEstimate 10 false None);
  mkTool (mkToolDescriptor "kb_get"
      "Retrieve a single knowledge entry by its ID."
      [FileSystem (Read ["~"])] true false)
    (Obj [
      ("type", Str "object");
      ("properties", Obj [("id", Obj [("type", Str "string"); ("description", Str "UUID of the entry to retrieve")])]);
      ("required", Arr [Str "id"])])
    (Obj [
      ("type", Str "object");
      ("properties", Obj [("formatted", Obj [("type", Str "string")]); ("entry", Obj [("type", Str "object")])])])
    (mkCostEstimate 10 false None);
  mkTool (mkToolDescriptor "kb_delete"
      "Delete a knowledge entry by its ID."
      [FileSystem (Read ["~"]); FileSystem (Write ["~"])] false true)
    (Obj [
      ("type", Str "object");
      ("properties", Obj [("id", Obj [("type", Str "string"); ("description", Str "UUID of the entry to delete")])]);
      ("required", Arr [Str "id"])])
    (Obj [
      ("type", Str "object");
      ("properties", Obj [
        ("formatted", Obj [("type", Str "string")]);
        ("id", Obj [("type", Str "string")]);
        ("deleted", Obj [("type", Str "boolean")])])])
    (mkCostEstimate 10 false None);
  mkTool (mkToolDescriptor "kb_list_tags"
      "List all distinct tags across all knowledge entries."
      [FileSystem (Read ["~"])] true false)
    (Obj [("type", Str "object"); ("properties", Obj []); ("required", Arr [])])
    (Obj [
      ("type", Str "object");
      ("properties", Obj [
        ("formatted", Obj [("type", Str "string")]);
        ("count", Obj [("type", Str "integer")]);
        ("tags", Obj [("type", Str "array")])])])
    (mkCostEstimate 10 false None)].
End Knowledge.
