(* ===== verification/Prompts.v ===== *)
(** * Prompts and constitutional context ([crates/abigail-core/src/constitutional.rs],
      [system_prompt.rs], the enrichment of [crates/abigail-router/src/monitor/mentor_chat.rs])

    The texts made of an Entity's documents.  The compiled-in templates are data
    ([Templates]); a file is what [read_file] says of its path. *)

From S2P Require Import Prelude RustStr Paths Superego Chat.
From Stdlib Require Import ZArith Lia Ascii.
From stdpp Require Import base list strings pretty.

Open Scope rust_scope.

(** The documents compiled into the program ([templates.rs]). *)
Class Templates : Type := {
  SOUL_MD : string;
  ETHICS_MD : string;
  INSTINCTS_MD : string;
  CAPABILITIES_MD : string;
  TRIANGLE_ETHICS_OPERATIONAL_MD : string;
  SOUL_TEMPLATE_MD : string;
}.

Definition fill_soul_template `{Templates} (name purpose personality mentor_name : string) : string :=
  let s := replace SOUL_TEMPLATE_MD "{name}" name in
  let s := replace s "{purpose}" purpose in
  let s := replace s "{personality}" personality in
  replace s "{mentor_name}" mentor_name.

(** ** Signals in a message *)

Definition contains_any (haystack : string) (needles : list string) : bool :=
  existsb (contains haystack) needles.

Definition infer_id_context (lower_message : string) : string :=
  if contains_any lower_message
       ["password"; "token"; "secret"; "ssn"; "credit card"; "private key"; "api key"]
  then "privacy-sensitive: keep processing local-first, redact before any external routing"
  else if contains_any lower_message
            ["search"; "web"; "latest"; "news"; "http://"; "https://"; "api"]
  then "external-context likely required: route with explicit source-check behavior"
  else "routine request profile: low-latency local path remains acceptable fallback".

Definition infer_superego_context (lower_message : string) : string :=
  if contains_any lower_message
       ["rm -rf"; "drop table"; "delete all"; "wipe"; "disable safety"; "bypass policy"]
  then "high-risk pattern detected: block destructive actions pending mentor approval"
  else if contains_any lower_message ["exploit"; "malware"; "phish"; "steal"]
  then "security-sensitive intent detected: enforce strict refusal and safe alternatives"
  else "within nominal safety posture: monitor only, no pre-emptive block".

(** ** Excerpts *)

Definition MAX_SNIPPET_LEN : nat := 380.

Definition clamp (text : string) (max_len : nat) : string :=
  if (length (chars text) <=? max_len)%nat then text else str_take_chars max_len text +:+ "...".

(** The loop over the lines: whether the title was seen, and the lines kept. *)
Fixpoint paragraph_lines (started : bool) (kept : list string) (ls : list string) : list string :=
  match ls with
  | [] => kept
  | l :: ls =>
      let trimmed := trim l in
      if starts_with trimmed "# " then paragraph_lines true kept ls
      else if negb started then paragraph_lines started kept ls
      else if str_is_empty trimmed then
        match kept with [] => paragraph_lines started kept ls | _ => kept end
      else if starts_with trimmed "## " && negb (bool_decide (kept = [])) then kept
      else paragraph_lines started (kept ++ [trimmed]) ls
  end.

Definition first_lines (content : string) : string :=
  RustStr.join " " (take 2 (lines content)).

Definition first_paragraph_after_title (content : string) : string :=
  match paragraph_lines false [] (lines content) with
  | [] => first_lines content
  | ls => RustStr.join " " ls
  end.

(** [trim_start_matches("- ")] *)
Fixpoint without_dashes (s : string) : string :=
  match s with
  | String "-" (String " " s) => without_dashes s
  | _ => s
  end.

Definition bullets (content : string) : list string :=
  map (λ l, trim (without_dashes l)) (filter (λ l, starts_with l "- ") (map trim (lines content))).

Definition first_n_bullets (content : string) (n : nat) : string :=
  match take n (bullets content) with
  | [] => first_lines content
  | l => RustStr.join " | " l
  end.

(** ** The preprompts *)

Section prompts.
Context `{Templates} (read_file : path → option string).

Section constitution.
(** [current_dir] and the directory of [current_exe], when they are known. *)
Context (cwd exe_dir : option path).

Definition template_candidate_paths (filename : string) : list path :=
  [Normal "templates"; Normal filename]
  :: match cwd with Some d => [d ++ [Normal "templates"; Normal filename]] | None => [] end
  ++ match exe_dir with Some d => [d ++ [Normal "templates"; Normal filename]] | None => [] end.

Fixpoint find_map {A B} (f : A → option B) (l : list A) : option B :=
  match l with
  | [] => None
  | x :: l => match f x with Some y => Some y | None => find_map f l end
  end.

Definition read_template_or_fallback (filename fallback : string) : string :=
  unwrap_or (find_map read_file (template_candidate_paths filename)) fallback.

Definition soul_excerpt : string :=
  clamp (first_paragraph_after_title (read_template_or_fallback "soul.md" SOUL_MD)) MAX_SNIPPET_LEN.
Definition ethics_excerpt : string :=
  clamp (first_n_bullets (read_template_or_fallback "ethics.md" ETHICS_MD) 3) MAX_SNIPPET_LEN.
Definition instincts_excerpt : string :=
  clamp (first_n_bullets (read_template_or_fallback "instincts.md" INSTINCTS_MD) 3) MAX_SNIPPET_LEN.

Definition load_preprompt_context (user_message : string) : string :=
  let lower := to_lowercase user_message in
  RustStr.join nl [
    "## Constitutional Monitor Context";
    "Soul: " +:+ soul_excerpt;
    "Ethics anchors: " +:+ ethics_excerpt;
    "Instinct anchors: " +:+ instincts_excerpt;
    "";
    "## Runtime Signals";
    "- Id context: " +:+ infer_id_context lower;
    "- Superego context: " +:+ infer_superego_context lower;
    "- Out-of-band observers (memory/id/superego) are passive and non-blocking."
  ].

Definition load_minimal_preprompt (user_message : string) : string :=
  RustStr.join nl [
    "## Constitutional Monitor Context (Minimal)";
    "User prompt: " +:+ clamp user_message 220;
    "Soul: " +:+ soul_excerpt;
    "Ethics anchors: " +:+ ethics_excerpt;
    "Instinct anchors: " +:+ instincts_excerpt;
    "Superego decisions are tracked in Hive/documents for review."
  ].
End constitution.

(** ** The system prompt of an Entity *)

Definition read_or_fallback (docs_dir : path) (filename fallback : string) : string :=
  match ensure_relative_no_traversal (components filename) with
  | Err _ => fallback
  | Ok _ =>
      let p := path_join docs_dir (components filename) in
      match ensure_path_within_root docs_dir p with
      | Err _ => fallback
      | Ok _ => unwrap_or (read_file p) fallback
      end
  end.

Definition greeting (agent_name : option string) : string :=
  match agent_name with
  | Some name => "You are " +:+ name +:+ "." +:+ nl +:+ nl
  | None => ""
  end.

(** Documents with an empty line between them. *)
Definition paragraphs (l : list string) : string := RustStr.join (nl +:+ nl) l.

Definition document (docs_dir : path) (filename fallback : string) : string :=
  trim (read_or_fallback docs_dir filename fallback).

Definition core_documents (docs_dir : path) : list string :=
  [document docs_dir "soul.md" SOUL_MD; document docs_dir "ethics.md" ETHICS_MD;
   document docs_dir "instincts.md" INSTINCTS_MD].

Definition all_documents (docs_dir : path) : list string :=
  core_documents docs_dir ++
  [document docs_dir "capabilities.md" CAPABILITIES_MD;
   document docs_dir "triangle_ethics_operational.md" TRIANGLE_ETHICS_OPERATIONAL_MD].

Definition OPERATIONAL_PROMPT : string :=
  RustStr.join nl [
    "";
    "## Operational Awareness";
    "";
    "- You are a persistent desktop agent, not a stateless API. You remember across conversations.";
    "- You have tools. Use them. Your full inventory is in Available Tools below.";
    "- If you lack a tool for a task, use the Forge pipeline:";
    "  - generate skill code + instruction markdown,";
    "  - publish a forge envelope to topic.skill.forge.request,";
    "  - request mentor approval before applying forge mutations,";
    "  - wait for topic.skill.forge.response before relying on the new skill.";
    "- Forge outputs must stay within TriangleEthic and constitutional safety boundaries.";
    "- If you need information, search the web. Don't guess.";
    "- If you need a new capability, search for APIs and services, then build a skill to integrate them.";
    "- Chain tools together to complete multi-step tasks without stopping to ask.";
    "- Treat ordinary desktop actions as routine work: browsing sites, filling forms, reading and writing workspace files, calling APIs, sending messages or email, and running non-destructive commands.";
    "- Confirm with your mentor before destructive or irreversible actions — otherwise, act.";
    "- Be yourself. First person. Let your Soul personality come through. Warm, direct, concise.";
    "";
    "## Memory";
    "";
    "- You have persistent memory. Every conversation turn is automatically archived to your memory store.";
    "- Recent turns from this session are included in your context. Older turns are available via search.";
    "- To recall older conversations, use the memory_search tool with a topic, date, or phrase.";
    "- Your memory survives across sessions. You can reference past interactions by topic or timeframe.";
    "- If your mentor asks " +:+ quote +:+ "do you remember X" +:+ quote +:+ ", search your memory before answering.";
    ""
  ].

Definition COMPRESSED_OPERATIONAL : string :=
  RustStr.join nl [
    "## Operational";
    "- You are a persistent agent with tools, memory, and sub-agent delegation.";
    "- For new reusable capabilities, use Forge request/response flow (`topic.skill.forge.request` -> `topic.skill.forge.response`) and honor TriangleEthic gates.";
    "- Forge mutations require explicit mentor approval before they are applied.";
    "- For complex tasks, delegate to sub-agents via the queue. You orchestrate, they execute.";
    "- Confirm with your mentor before destructive or irreversible actions — otherwise, act.";
    "- Be yourself. First person. Let your Soul personality come through. Warm, direct, concise."
  ].

Definition COMPRESSED_ETHICS : string :=
  RustStr.join nl [
    "## Ethics (condensed)";
    "- Privacy: PII stays local. Default to caution when sensitivity is ambiguous.";
    "- Autonomy: Act proactively. Chain tools. Confirm before destructive actions.";
    "- Honesty: Say what you know, admit what you don't. Search rather than guess.";
    "- Integrity: Your constitutional docs are signed and verified on every boot.";
    "- Relationship: Your mentor created you. Protect their interests. Never deceive."
  ].

Definition COMPRESSED_MEMORY : string :=
  RustStr.join nl [
    "## Memory";
    "- You have persistent memory. Every conversation turn is automatically archived.";
    "- Use memory_search to recall past conversations by topic, date, or phrase.";
    "- If asked " +:+ quote +:+ "do you remember X" +:+ quote +:+ ", search your memory before answering."
  ].

Definition build_hive_helper_prompt (agent_name : option string) : string :=
  "You are " +:+ unwrap_or agent_name "Abigail" +:+ RustStr.join nl [
    ", the friendly coordinator behind a family's private AI.";
    "";
    "You help the person setting up and running Abigail at home. Be warm, plain-spoken, and brief — most people you talk to are not technical.";
    "";
    "## What you help with";
    "- Explaining, in simple terms, what Abigail is: a private manager that lets a family create their own AI Entities and chat with them. Everything stays on this computer.";
    "- Helping the user create and name new Entities for members of the household, and deciding what each one is for.";
    "- Walking the user through connecting an AI model when they want more capability — reassuring them that a local model works out of the box and that cloud providers (Anthropic, OpenAI, Google, and others) are optional power-ups they can add with a key. Adding a provider happens in the Hive, not here in chat; your job is to guide and encourage, then point them to the Add-a-model step.";
    "- Answering everyday questions and helping the family get value from Abigail.";
    "";
    "## How you behave";
    "- Friendly, concise, first person. No jargon. Never expose internal model names, providers, tiers, or technical errors unless the user explicitly asks.";
    "- Privacy first: the family's data stays on this computer. Cloud models are optional, never required.";
    "- If something needs an action you can't take from chat (like saving a provider key), explain the simple next step the user can take in the Hive.";
    ""
  ].

Definition build_system_prompt (docs_dir : path) (agent_name : option string) : string :=
  greeting agent_name +:+ paragraphs (all_documents docs_dir) +:+ nl +:+ trim OPERATIONAL_PROMPT.

Definition build_cli_system_prompt (docs_dir : path) (agent_name : option string) : string :=
  greeting agent_name +:+ paragraphs (core_documents docs_dir).

Definition build_subagent_system_context (docs_dir : path) : string :=
  paragraphs (all_documents docs_dir).

Definition build_cli_spillover_document (docs_dir : path) : string :=
  paragraphs ("# Entity Constitutional Documents"
    :: ("These are your full identity and ethics documents. Refer to them for " +:+
        "detailed guidance on behavior, ethics, and tool usage.")
    :: core_documents docs_dir).

Fixpoint essence_lines (past_title : bool) (kept : list string) (ls : list string) : list string :=
  match ls with
  | [] => kept
  | l :: ls =>
      let trimmed := trim l in
      if starts_with trimmed "# " && negb past_title then essence_lines true kept ls
      else if starts_with trimmed "## " then kept
      else if past_title && negb (str_is_empty trimmed) then
        let kept := kept ++ [trimmed] in
        if (3 <=? length kept)%nat then kept else essence_lines past_title kept ls
      else essence_lines past_title kept ls
  end.

Definition extract_soul_essence (soul_content : string) : string :=
  match essence_lines false [] (lines soul_content) with
  | [] => trim (str_take_chars 200 soul_content)
  | ls => paragraphs ls
  end.

Definition soul_essence (docs_dir : path) : string :=
  extract_soul_essence (read_or_fallback docs_dir "soul.md" SOUL_MD).

Definition build_cli_system_prompt_compressed (docs_dir : path) (agent_name : option string)
  : string :=
  greeting agent_name +:+ paragraphs [soul_essence docs_dir; COMPRESSED_ETHICS; COMPRESSED_MEMORY].

Definition build_orchestrator_prompt (docs_dir : path) (agent_name : option string) : string :=
  greeting agent_name +:+
  paragraphs [soul_essence docs_dir; COMPRESSED_ETHICS; COMPRESSED_MEMORY; COMPRESSED_OPERATIONAL].
End prompts.

(** ** The enrichment of a mentor's message *)

Record MentorChatEnvelope : Type := mkMentor {
  mentor_correlation : string;
  mentor_session : string;
  mentor_entity : string;
  mentor_message : string;
  mentor_model : option string;
  mentor_stage : string;
  mentor_preprompt : option string;
  mentor_id_context : option string;
  mentor_superego_context : option string;
  mentor_created_at : string;
}.

Definition mentor_request (now correlation session entity message : string) (model : option string)
  : MentorChatEnvelope :=
  mkMentor correlation session entity message model "request" None None None now.

(** The handler of the monitor: the envelope it publishes.  The preprompt never
    fails to load. *)
Definition monitor_enrich `{Templates} (read_file : path → option string) (cwd exe_dir : option path)
    (e : MentorChatEnvelope) : option MentorChatEnvelope :=
  if decide (mentor_stage e = "enriched") then None
  else
    let lower := to_lowercase (mentor_message e) in
    Some (mkMentor (mentor_correlation e) (mentor_session e) (mentor_entity e) (mentor_message e)
            (mentor_model e) "enriched"
            (Some (load_minimal_preprompt read_file cwd exe_dir (mentor_message e)))
            (Some (infer_id_context lower)) (Some (infer_superego_context lower))
            (mentor_created_at e)).

Definition inject_preprompt (base_prompt : string) (preprompt : option string) : string :=
  match preprompt with
  | Some p =>
      if str_is_empty (trim p) then base_prompt
      else base_prompt +:+ nl +:+ nl +:+ "## Mentor Monitor" +:+ nl +:+ p +:+ nl
  | None => base_prompt
  end.

(** The handler of the Superego's monitor ([crates/abigail-superego/src/monitor.rs]):
    the decision it logs and, unless it allows, its signal. *)
Record SuperegoSignal : Type := mkSignal {
  signal_correlation : string;
  signal_session : string;
  severity : string;
  signal_rule : string;
  should_block : bool;
  signal_created_at : string;
}.

Definition superego_monitor (now : string) (e : MentorChatEnvelope)
  : option (string * option SuperegoSignal) :=
  if decide (mentor_stage e ≠ "enriched") then None
  else
    let text := to_lowercase (unwrap_or (mentor_preprompt e) (mentor_message e)) in
    let signal severity rule block :=
      Some (mkSignal (mentor_correlation e) (mentor_session e) severity rule block now) in
    Some (if contains text "rm -rf" || contains text "drop table" || contains text "delete all"
          then ("block:destructive-pattern", signal "critical" "destructive-pattern" true)
          else if contains text "@" && contains text "."
          then ("flag:pii-likelihood", signal "warning" "pii-likelihood" false)
          else ("allow", None)).
