(* ===== verification/JobTools.v ===== *)
(** * The job tools of the chat ([crates/entity-chat/src/job_tools.rs])

    The tools with which a conversation submits, follows and schedules background
    jobs, over the job queue of [JobQueue].  An operation of the queue that fails
    is answered as an error; [cron_valid] is the parser of cron expressions.  The
    one failure of a handler itself is the slice of a goal inside a character,
    which panics. *)

From S2P Require Import Prelude RustStr F32 JobTypes RecordStore JobQueue Json.
From S2P Require Import Cognitive SkillExecutor.
From Stdlib Require Import ZArith Lia Ascii.
From stdpp Require Import base list sets strings gmap fin_maps pretty.

Open Scope rust_scope.

Definition TOOL_SUBMIT_JOB : string := "builtin.jobs::submit_background_job".
Definition TOOL_GET_RESULT : string := "builtin.jobs::get_job_result".
Definition TOOL_LIST_JOBS : string := "builtin.jobs::list_my_jobs".
Definition TOOL_CREATE_RECURRING : string := "builtin.jobs::create_recurring_job".
Definition TOOL_LIST_RECURRING : string := "builtin.jobs::list_recurring_jobs".
Definition TOOL_CANCEL_RECURRING : string := "builtin.jobs::cancel_recurring_job".

Definition job_tool_names : list string :=
  [TOOL_SUBMIT_JOB; TOOL_GET_RESULT; TOOL_LIST_JOBS; TOOL_CREATE_RECURRING; TOOL_LIST_RECURRING;
   TOOL_CANCEL_RECURRING].

Definition is_job_tool (name : string) : bool := bool_decide (name ∈ job_tool_names).

(** ** Definitions for the model *)

Definition property (type description : string) : Value :=
  Obj [("type", Str type); ("description", Str description)].
Definition enum_property (values : list string) (description : string) : Value :=
  Obj [("type", Str "string"); ("enum", Arr (map Str values)); ("description", Str description)].
Definition schema (properties : list (string * Value)) (required : option (list string)) : Value :=
  Obj ([("type", Str "object"); ("properties", Obj properties)]
       ++ match required with Some l => [("required", Arr (map Str l))] | None => [] end).

Definition capability_property : Value :=
  enum_property ["general"; "code"; "vision"; "reasoning"; "search"; "image_generation";
                 "audio_generation"; "video_generation"; "transcription"]
    "Required capability for model selection".

Definition job_tool_definitions : list (ToolDefinition Value) := [
  mkToolDefinition TOOL_SUBMIT_JOB
    "Submit a background job for async execution. Use this to delegate tasks like image generation, research, or code analysis to a background agent. Returns a job_id you can check later with get_job_result."
    (schema [("goal", property "string" "What the background job should accomplish");
             ("capability", capability_property);
             ("topic", property "string" "Topic grouping for this job (e.g. 'image-tasks', 'research')");
             ("priority", enum_property ["low"; "normal"; "high"; "critical"] "Job priority level");
             ("execution_mode", enum_property ["mediated"; "direct"]
                "mediated = LLM agent loop, direct = execute skill tool directly");
             ("direct_skill_id", property "string"
                "Skill ID for direct execution (required when execution_mode=direct)");
             ("direct_tool_name", property "string"
                "Tool name for direct execution (required when execution_mode=direct)");
             ("direct_params", property "object" "Parameters for the direct tool call")]
       (Some ["goal"; "capability"; "topic"]));
  mkToolDefinition TOOL_GET_RESULT
    "Check the status and result of a previously submitted background job."
    (schema [("job_id", property "string" "The job ID returned from submit_background_job")]
       (Some ["job_id"]));
  mkToolDefinition TOOL_LIST_JOBS "List background jobs, optionally filtered by status."
    (schema [("status", enum_property ["queued"; "running"; "completed"; "failed"]
                "Filter by job status (omit for all)");
             ("limit", property "integer" "Maximum number of jobs to return (default 10)")] None);
  mkToolDefinition TOOL_CREATE_RECURRING
    "Create a recurring job that runs on a cron schedule. Use this for autonomous scheduled work (e.g. daily email check, weekly summaries)."
    (schema [("goal", property "string" "What each recurring instance should accomplish");
             ("goal_template", property "string"
                "Goal template with {date} and {time} placeholders for interpolation");
             ("cron_expression", property "string"
                "Cron expression in UTC (e.g. '0 8 * * *' for daily at 8 AM)");
             ("capability", capability_property);
             ("topic", property "string" "Topic grouping for recurring instances")]
       (Some ["goal"; "cron_expression"; "capability"; "topic"]));
  mkToolDefinition TOOL_LIST_RECURRING "List all active recurring job schedules." (schema [] None);
  mkToolDefinition TOOL_CANCEL_RECURRING "Cancel a recurring job schedule by its template ID."
    (schema [("job_id", property "string" "The recurring template job ID to cancel")]
       (Some ["job_id"]))].

(** ** The handlers *)

Definition mode_str (m : ExecutionMode) : string :=
  match m with Direct => "direct" | Mediated => "mediated" end.

Definition priority_of (s : string) : JobPriority :=
  if decide (s = "low") then Low
  else if decide (s = "high") then High
  else if decide (s = "critical") then Critical
  else Normal.

(** The direct call the arguments ask for, if they ask for one. *)
Definition direct_call_of (args : Value) : result (option (DirectToolCall Value)) string :=
  if decide (str_or "mediated" "execution_mode" args = "direct") then
    let skill := str_or "" "direct_skill_id" args in
    let tool := str_or "" "direct_tool_name" args in
    if str_is_empty skill || str_is_empty tool
    then Err "direct execution requires direct_skill_id and direct_tool_name"
    else Ok (Some (mkDirectToolCall skill tool (index "direct_params" args)))
  else Ok None.

Definition some_text (o : option string) : option string :=
  s ← o; if str_is_empty (trim s) then None else Some s.

Definition submit_spec (args : Value) (call : option (DirectToolCall Value))
    (job_ctx : option JobContext) : JobSpec Value := {|
  spec_goal := str_or "" "goal" args;
  spec_topic := str_or "delegation" "topic" args;
  spec_capability := Capability.from_str_lossy (str_or "general" "capability" args);
  spec_priority := priority_of (str_or "normal" "priority" args);
  spec_time_budget_ms := 120000;
  spec_max_turns := 10;
  spec_system_context := None;
  spec_allowed_skill_ids := [];
  spec_ttl_seconds := 3600;
  spec_input_data := None;
  spec_parent_job_id := None;
  spec_parent_correlation_id := job_ctx ≫= job_correlation_id;
  spec_depth := as_u32 (unwrap_or (depth <$> job_ctx) 0 + 1)%Z;
  spec_provider_profile := some_text (as_str (index "provider_profile" args));
  spec_cron_expression := None;
  spec_is_recurring := false;
  spec_significance_keywords := [];
  spec_significance_threshold := f32_0_5;
  spec_job_mode := "agentic_run";
  spec_goal_template := None;
  spec_depends_on := [];
  spec_execution_mode :=
    (if decide (str_or "mediated" "execution_mode" args = "direct") then Direct else Mediated);
  spec_direct_tool_call := call;
|}.

Definition recurring_spec (args : Value) : JobSpec Value := {|
  spec_goal := str_or "" "goal" args;
  spec_topic := str_or "recurring" "topic" args;
  spec_capability := Capability.from_str_lossy (str_or "general" "capability" args);
  spec_priority := Normal;
  spec_time_budget_ms := 120000;
  spec_max_turns := 10;
  spec_system_context := None;
  spec_allowed_skill_ids := [];
  spec_ttl_seconds := 86400;
  spec_input_data := None;
  spec_parent_job_id := None;
  spec_parent_correlation_id := None;
  spec_depth := 0;
  spec_provider_profile := None;
  spec_cron_expression := Some (str_or "" "cron_expression" args);
  spec_is_recurring := true;
  spec_significance_keywords := [];
  spec_significance_threshold := f32_0_5;
  spec_job_mode := "agentic_run";
  spec_goal_template := as_str (index "goal_template" args);
  spec_depends_on := [];
  spec_execution_mode := Mediated;
  spec_direct_tool_call := None;
|}.

(** What a finished job adds to its description. *)
Definition result_members `{JsonText} (result : string) : list (string * Value) :=
  match from_str result with
  | Ok parsed =>
      ("result", parsed) ::
      match index "data" parsed with
      | Obj data =>
          match (match member "url" data with Some u => Some u | None => member "image_url" data end) with
          | Some url => [("inline_content", Obj [("type", Str "image"); ("url", url)])]
          | None => []
          end
      | _ => []
      end
  | Err _ => [("result", Str result)]
  end.

Definition job_value `{JsonText} (job : JobRecord Value) : Value :=
  Obj ([("job_id", Str (job_id job)); ("status", Str (Status.as_str (job_status job)));
        ("topic", Str (job_topic job)); ("capability", Str (Capability.as_str (job_capability job)));
        ("execution_mode", Str (mode_str (job_execution_mode job)));
        ("created_at", Str (job_created_at job)); ("started_at", json_opt (job_started_at job));
        ("completed_at", json_opt (job_completed_at job))]
       ++ match job_result_ job with Some result => result_members result | None => [] end
       ++ match job_error job with Some error => [("error", Str error)] | None => [] end).

Definition GOAL_BYTES : nat := 100.

(** [&j.goal[..100]] panics ([None]) inside a character. *)
Definition goal_summary (goal : string) : option string :=
  if GOAL_BYTES <? String.length goal then (λ s, s +:+ "...") <$> slice_to GOAL_BYTES goal
  else Some goal.

Definition job_summary (job : JobRecord Value) : option Value :=
  goal ← goal_summary (job_goal job);
  Some (Obj [("job_id", Str (job_id job)); ("status", Str (Status.as_str (job_status job)));
             ("topic", Str (job_topic job)); ("goal", Str goal);
             ("capability", Str (Capability.as_str (job_capability job)));
             ("created_at", Str (job_created_at job))]).

Definition template_summary (t : JobRecord Value) : Value :=
  Obj [("template_id", Str (job_id t)); ("goal", Str (job_goal t)); ("topic", Str (job_topic t));
       ("cron_expression", json_opt (job_cron_expression t));
       ("capability", Str (Capability.as_str (job_capability t)));
       ("last_scheduled_at", json_opt (job_last_scheduled_at t))].

Definition counted (key : string) (l : list Value) : Value :=
  Obj [(key, Arr l); ("count", Num (PosInt (Z.of_nat (length l))))].

Section handlers.
Context {Time T : Type} `{RecordStore T (JobRecord Value)} `{JsonText}.
Context (to_rfc3339 : Time → string) (add_seconds : Time → Z → option Time).
Context (cron_valid : string → bool).
Notation Q := (M (JobQueue T) string).

(** The outcome of an operation of the queue, as the answer of a tool. *)
Definition answer {A} (op : Q A) (failed : string) (ok : A → Value) : Q Value := λ q,
  match op q with
  | (q, Ok a) => (q, Ok (ok a))
  | (q, Err e) => (q, Ok (json_error (failed +:+ ": " +:+ e)))
  end.

Definition execute_submit (uuid : string) (now : Time) (args : Value) (job_ctx : option JobContext)
  : Q Value :=
  match direct_call_of args with
  | Err e => mret (json_error e)
  | Ok call =>
      let spec := submit_spec args call job_ctx in
      answer (submit_job to_rfc3339 add_seconds uuid now spec) "Failed to submit job" (λ id,
        Obj [("success", Bool true); ("job_id", Str id); ("topic", Str (spec_topic spec));
             ("status", Str "queued")])
  end.

Definition execute_get_result (args : Value) : Q Value :=
  let id := str_or "" "job_id" args in
  if str_is_empty id then mret (json_error "job_id is required")
  else answer (get_job id) "Failed to get job" (λ found,
    match found with
    | Some job => job_value job
    | None => json_error ("Job '" +:+ id +:+ "' not found")
    end).

Definition execute_list (args : Value) : Q Value := λ q,
  let limit := Z.to_nat (unwrap_or (as_u64 (index "limit" args)) 10%Z) in
  match list_jobs (as_str (index "status" args)) limit q with
  | (q, Ok jobs) =>
      match mapM job_summary jobs with
      | Some summaries => (q, Ok (counted "jobs" summaries))
      | None => (q, Err "panic: byte index 100 is not a char boundary")
      end
  | (q, Err e) => (q, Ok (json_error ("Failed to list jobs: " +:+ e)))
  end.

Definition execute_create_recurring (uuid : string) (now : Time) (args : Value) : Q Value :=
  let cron_expression := str_or "" "cron_expression" args in
  if str_is_empty cron_expression then mret (json_error "cron_expression is required")
  else if negb (cron_valid cron_expression)
  then mret (json_error ("Invalid cron expression: " +:+ cron_expression))
  else
    let spec := recurring_spec args in
    answer (submit_job to_rfc3339 add_seconds uuid now spec) "Failed to create recurring job" (λ id,
      Obj [("success", Bool true); ("template_id", Str id); ("topic", Str (spec_topic spec));
           ("status", Str "recurring template created")]).

Definition execute_list_recurring : Q Value :=
  answer get_recurring_templates "Failed to list recurring templates" (λ templates,
    counted "templates" (map template_summary templates)).

Definition execute_cancel_recurring (now : string) (args : Value) : Q Value :=
  let id := str_or "" "job_id" args in
  if str_is_empty id then mret (json_error "job_id is required")
  else answer (cancel_job id now) "Failed to cancel recurring job" (λ _,
    Obj [("success", Bool true); ("template_id", Str id); ("status", Str "cancelled")]).

Definition execute_job_tool (uuid : string) (now : Time) (name : string) (args : Value)
    (job_ctx : option JobContext) : Q string :=
  v ← (if decide (name = TOOL_SUBMIT_JOB) then execute_submit uuid now args job_ctx
       else if decide (name = TOOL_GET_RESULT) then execute_get_result args
       else if decide (name = TOOL_LIST_JOBS) then execute_list args
       else if decide (name = TOOL_CREATE_RECURRING) then execute_create_recurring uuid now args
       else if decide (name = TOOL_LIST_RECURRING) then execute_list_recurring
       else if decide (name = TOOL_CANCEL_RECURRING)
       then execute_cancel_recurring (to_rfc3339 now) args
       else mret (json_error ("Unknown job tool: " +:+ name)));
  mret (to_string v).
End handlers.
