(* ===== verification/ChatLoop.v ===== *)
(** * The chat engine: the tool-use loops ([crates/entity-chat/src/lib.rs])

    The loops that send the conversation to the router, make the tool calls the
    model asks for and send it again.  The state is the router, what the calls of
    the providers did, the host of the tools and the conversation; a call of a
    tool is an operation on the host ([call]) that answers the text for the model
    and its record.  [uuid] and [clock] supply the trace of request [i], where [i]
    counts the calls of providers so far. *)

From S2P Require Import Prelude RustStr F32 JobTypes RecordStore JobQueue Json.
From S2P Require Import SkillPolicy SkillExecutor Cognitive Router Chat JobTools.
From Stdlib Require Import ZArith Lia.
From stdpp Require Import base list sets strings gmap fin_maps pretty.

Open Scope rust_scope.

Definition MAX_TOOL_ROUNDS : nat := 35.

(** [ToolUseResult]. *)
Record ToolUseResult : Type := mkToolUse {
  use_content : string;
  tool_calls_made : list ToolCallRecord;
  execution_trace : option Trace.ExecutionTrace;
}.

Definition use_tier (u : ToolUseResult) : option string := execution_trace u ≫= Trace.final_tier.
Definition use_model (u : ToolUseResult) : option string := execution_trace u ≫= Trace.final_model.
Definition use_complexity (u : ToolUseResult) : option Z :=
  execution_trace u ≫= Trace.complexity_score.

Record ToolUseConfig : Type := mkToolUseConfig {
  inline_max_rounds : nat;
  async_enabled : bool;
  delegation_topic : string;
}.

Definition default_tool_use : ToolUseConfig := mkToolUseConfig MAX_TOOL_ROUNDS false "delegation".

Inductive ToolUseOutcome : Type :=
| Finished (result : ToolUseResult)
| Delegated (partial : ToolUseResult) (job : string).

(** [IntermediateToolResult]. *)
Record IntermediateToolResult : Type := mkIntermediate {
  rounds_calls : list ToolCallRecord;
  final_text : option string;
  rounds_trace : option Trace.ExecutionTrace;
}.

(** The tool calls of a reply, when it has some. *)
Definition requested (response : CompletionResponse) : option (list ToolCall) :=
  match reply_tool_calls response with
  | Some (c :: l) => Some (c :: l)
  | _ => None
  end.

Definition capped_text : string :=
  "I attempted several tool calls but hit the maximum number of rounds. Here's what I have so far.".
Definition capped_text_jobs : string :=
  "I attempted several tool calls but hit the maximum number of rounds.".

Section loop.
Context {W H : Type}.
Context (uuid : nat → string) (clock : nat → nat → string).
Context (call : ToolCall → M H string (string * ToolCallRecord)).

Record ChatState : Type := mkChat {
  router : IdEgoRouter Value W;
  net : Net Value W;
  host : H;
  conversation : list Message;
}.

Notation C := (M ChatState string).
Notation Request := (RoutingRequest Value).

(** [router.route_unified(..)] on the conversation. *)
Definition send (request : list Message → Request) : C RoutingResponse := λ s,
  let i := length (asked (net s)) in
  let '((r, n), o) := route_unified (uuid i) (clock i) (request (conversation s)) (router s, net s) in
  (mkChat r n (host s) (conversation s), o).

Definition push (m : Message) : C unit :=
  modify (λ s, mkChat (router s) (net s) (host s) (conversation s ++ [m])).

Definition run_call (tc : ToolCall) : C ToolCallRecord := λ s,
  match call tc (host s) with
  | (h, Ok (output, record)) =>
      (mkChat (router s) (net s) h (conversation s ++ [tool_result (call_id tc) output]), Ok record)
  | (h, Err e) => (mkChat (router s) (net s) h (conversation s), Err e)
  end.

Fixpoint run_calls (calls : list ToolCall) (records : list ToolCallRecord)
  : C (list ToolCallRecord) :=
  match calls with
  | [] => mret records
  | tc :: calls => record ← run_call tc; run_calls calls (records ++ [record])
  end.

(** The message with the calls, then each call and its result. *)
Definition answer_calls (response : CompletionResponse) (calls : list ToolCall)
    (records : list ToolCallRecord) : C (list ToolCallRecord) :=
  push (mkMessage "assistant" (reply response) None (Some calls)) ;; run_calls calls records.

(** [for round in 0..n]: the text of a reply without calls, the calls made and the
    trace of the last reply. *)
Fixpoint rounds (n : nat) (request : list Message → Request) (records : list ToolCallRecord)
    (last_trace : option Trace.ExecutionTrace)
  : C (option string * list ToolCallRecord * option Trace.ExecutionTrace) :=
  match n with
  | 0 => mret (None, records, last_trace)
  | S n =>
      resp ← send request;
      let response := completion resp in
      match requested response with
      | None => mret (Some (reply response), records, trace resp)
      | Some calls =>
          records ← answer_calls response calls records;
          rounds n request records (trace resp)
      end
  end.

(** The request of every round of the loops that do not stream. *)
Definition inline_request (tools : list (ToolDefinition Value)) (model_override : option string)
    (messages : list Message) : Request :=
  mkRouting messages (Some tools) model_override false false.

(** The loop owns its copy of the messages. *)
Definition on_messages {A} (messages : list Message) (m : C A) : C A := λ s,
  m (mkChat (router s) (net s) (host s) messages).

Definition tool_use_loop (capped : string) (messages : list Message)
    (tools : list (ToolDefinition Value)) (model_override : option string) : C ToolUseResult :=
  on_messages messages (
    '(text, records, t) ← rounds MAX_TOOL_ROUNDS (inline_request tools model_override) [] None;
    mret (mkToolUse (unwrap_or text capped) records t)).

(** The conversation of the caller is the one that grows. *)
Definition run_tool_use_loop_rounds_only (tools : list (ToolDefinition Value))
    (model_override : option string) : C IntermediateToolResult :=
  '(text, records, t) ← rounds MAX_TOOL_ROUNDS (inline_request tools model_override) [] None;
  mret (mkIntermediate records text t).

(** ** Streaming *)

Definition is_token (e : StreamEvent) : bool := match e with Token _ => true | Done _ => false end.

(** A request whose events come through a channel of its own: the tokens among
    them are passed on, in order. *)
Definition send_relayed (request : list Message → Request) : C RoutingResponse := λ s,
  let n := net s in
  let before := channel n in
  let '(s, o) := send request (mkChat (router s) (mkNet (outside n) (asked n) []) (host s)
                                 (conversation s)) in
  let n := net s in
  (mkChat (router s) (mkNet (outside n) (asked n) (before ++ filter is_token (channel n)))
     (host s) (conversation s), o).

Definition emit (e : StreamEvent) : C unit :=
  modify (λ s, mkChat (router s)
    (mkNet (outside (net s)) (asked (net s)) (channel (net s) ++ [e])) (host s) (conversation s)).

Definition stream_request (tools : list (ToolDefinition Value)) (model_override : option string)
    (last_round : bool) (messages : list Message) : Request :=
  mkRouting messages
    (if bool_decide (tools = []) || last_round then None else Some tools)
    model_override true false.

Definition tool_limit_error : string :=
  "The model continued requesting tools after the tool-call limit".

(** [for round in 0..=MAX_TOOL_ROUNDS]: [n] rounds are left after this one, and
    the round with none left is the last. *)
Fixpoint stream_rounds (n : nat) (tools : list (ToolDefinition Value))
    (model_override : option string) (records : list ToolCallRecord) : C ToolUseResult :=
  resp ← send_relayed (stream_request tools model_override (n =? 0));
  let response := completion resp in
  match requested response, n with
  | None, _ =>
      emit (Done response) ;; mret (mkToolUse (reply response) records (trace resp))
  | Some _, 0 => fail tool_limit_error
  | Some calls, S n =>
      records ← answer_calls response calls records;
      stream_rounds n tools model_override records
  end.

Definition stream_chat_pipeline (messages : list Message) (tools : list (ToolDefinition Value))
    (model_override : option string) : C ToolUseResult :=
  on_messages messages (stream_rounds MAX_TOOL_ROUNDS tools model_override []).
End loop.
Arguments ChatState : clear implicits.

(** ** The loops of the engine *)

Section engine.
Context {W H : Type} `{JsonText} `{ToolHost H}.
Context (uuid : nat → string) (clock : nat → nat → string).

(** A call of a skill, as a step of a loop. *)
Definition skill_call (job_ctx : option JobContext) (tc : ToolCall)
  : M H string (string * ToolCallRecord) := λ h,
  let '(h, answer) := execute_single_tool_call tc job_ctx h in (h, Ok answer).

Definition run_tool_use_loop_with_model_override (messages : list Message) tools model_override
    (job_ctx : option JobContext) : M (ChatState W H) string ToolUseResult :=
  tool_use_loop uuid clock (skill_call job_ctx) capped_text messages tools model_override.

Definition run_tool_use_loop (messages : list Message) tools
  : M (ChatState W H) string ToolUseResult :=
  run_tool_use_loop_with_model_override messages tools None None.
End engine.

Section with_jobs.
Context {W H Time T : Type} `{RecordStore T (JobRecord Value)} `{JsonText} `{ToolHost H}.
Context (uuid : nat → string) (clock : nat → nat → string).
Context (to_rfc3339 : Time → string) (add_seconds : Time → Z → option Time).
Context (cron_valid : string → bool).
(** The identifier and the time drawn for the submission of a job, by the number
    of events the queue has published. *)
Context (job_uuid : nat → string) (job_now : nat → Time).

(** The host of the skills, and the queue. *)
Notation Hosts := (H * JobQueue T)%type.

Definition on_host {A} (m : M H string A) : M Hosts string A := λ s,
  let '(h, o) := m s.1 in ((h, s.2), o).
Definition on_queue {A} (m : M (JobQueue T) string A) : M Hosts string A := λ s,
  let '(q, o) := m s.2 in ((s.1, q), o).

Definition error_key : string := quote +:+ "error" +:+ quote.

(** [serde_json::from_str(..).unwrap_or_default()] *)
Definition job_call (job_ctx : option JobContext) (tc : ToolCall)
  : M Hosts string (string * ToolCallRecord) := λ s,
  if is_job_tool (call_name tc) then
    let args := match from_str (arguments tc) with Ok v => v | Err _ => Null end in
    let i := length (published s.2) in
    (result ← on_queue (execute_job_tool to_rfc3339 add_seconds cron_valid (job_uuid i) (job_now i)
                          (call_name tc) args job_ctx);
     mret (result, mkRecord "builtin.jobs" (call_name tc) (negb (contains result error_key)))) s
  else on_host (skill_call job_ctx tc) s.

Definition run_tool_use_loop_with_jobs (messages : list Message) tools model_override
    (job_ctx : option JobContext) : M (ChatState W Hosts) string ToolUseResult :=
  tool_use_loop uuid clock (job_call job_ctx) capped_text_jobs messages tools model_override.

(** ** Delegation of the rest of a conversation *)

(** [(MAX_TOOL_ROUNDS - effective_rounds) as u32], the subtraction of [usize]
    wrapping around as it does without overflow checks. *)
Definition turns_left (effective_rounds : nat) : Z :=
  as_u32 (Prelude.as_u64 (Z.of_nat MAX_TOOL_ROUNDS - Z.of_nat effective_rounds)%Z).

(** [serialize] is the JSON text of the conversation, if it can be written. *)
Definition delegation_spec (serialize : list Message → option string) (config : ToolUseConfig)
    (effective_rounds : nat) (messages : list Message) : JobSpec Value := {|
  spec_goal := "Continue tool-use conversation that exceeded " +:+ pretty effective_rounds
                 +:+ " inline rounds.";
  spec_topic := delegation_topic config;
  spec_capability := General;
  spec_priority := Normal;
  spec_time_budget_ms := 120000;
  spec_max_turns := turns_left effective_rounds;
  spec_system_context := Some "You are continuing a tool-use conversation that was delegated to a background job. The input_data contains the full message history.";
  spec_allowed_skill_ids := [];
  spec_ttl_seconds := 3600;
  spec_input_data :=
    Some (Obj [("conversation", Str (unwrap_or (serialize messages) "[]"));
               ("delegated_at_round", Num (PosInt (Z.of_nat effective_rounds)))]);
  spec_parent_job_id := None;
  spec_parent_correlation_id := None;
  spec_depth := 1;
  spec_provider_profile := None;
  spec_cron_expression := None;
  spec_is_recurring := false;
  spec_significance_keywords := [];
  spec_significance_threshold := f32_0_5;
  spec_job_mode := "agentic_run";
  spec_goal_template := None;
  spec_depends_on := [];
  spec_execution_mode := Mediated;
  spec_direct_tool_call := None;
|}.

Definition on_hosts {A} (m : M Hosts string A) : M (ChatState W Hosts) string A := λ s,
  let '(h, o) := m (host s) in (mkChat (router s) (net s) h (conversation s), o).

Definition run_tool_use_loop_with_delegation (serialize : list Message → option string)
    (messages : list Message) tools (config : ToolUseConfig) (has_queue : bool)
  : M (ChatState W Hosts) string ToolUseOutcome :=
  let effective_rounds :=
    if async_enabled config then inline_max_rounds config else MAX_TOOL_ROUNDS in
  on_messages messages (
    '(text, records, t) ←
      rounds uuid clock (λ tc, on_host (skill_call None tc)) effective_rounds
        (inline_request tools None) [] None;
    match text with
    | Some text => mret (Finished (mkToolUse text records t))
    | None =>
        if async_enabled config && has_queue then
          s ← get_state;
          let i := length (published (host s).2) in
          job ← on_hosts (on_queue (submit_job to_rfc3339 add_seconds (job_uuid i) (job_now i)
                  (delegation_spec serialize config effective_rounds (conversation s))));
          mret (Delegated (mkToolUse ("I've started working on this in the background (job: "
            +:+ job +:+ "). I'll continue the task with the remaining tool calls.") records t) job)
        else mret (Finished (mkToolUse capped_text records t))
    end).
End with_jobs.
