(* ===== verification/Pipeline.v ===== *)
(** * The chat pipeline of an Entity ([crates/entity-daemon/src]: [pipeline/],
      [state.rs], the chat handlers of [routes.rs])

    A turn goes from a chat handler ([begin_turn]) over the bus to the Id stage
    ([curate_and_publish]), the Ego stage ([respond]), the journal ([record]) and
    the Superego's judge ([judge_exchange]).  Each is a function of the shared
    state of the daemon; [respond] is three steps (answer, save, announce), since
    other turns run in between.  The bus is the list of what was published; the
    JSON coding of the payloads is left out.  The readings of the outside (times,
    identifiers, nonces) and the faults of the broker and the disk are functions
    of the number of readings so far. *)

From S2P Require Import Prelude RustStr RecordStore JobTypes Ledger Outbox ControlPlane Bus.
From S2P Require Import SecureFs Vault Superego Protected MemStore.
From S2P Require Import Json Paths SkillPolicy SkillExecutor Instructions Cognitive Router Chat.
From S2P Require Import Prompts JobTools ChatLoop.
From Stdlib Require Import ZArith Lia Ascii.
From stdpp Require Import base list sets strings gmap pretty.

Open Scope rust_scope.

Definition ID_SIGNAL_MAX_CHARS : nat := 400.
Definition CONSTITUTION_EXCERPT_CHARS : nat := N.to_nat 2000.
Definition ARCHIVE_INTERVAL_TURNS : Z := 50.
Definition MAX_SKILL_ACKS : nat := 32.

(** [TurnContext]; a cancellation token is a number. *)
Record TurnContext : Type := mkContext {
  session_messages : option (list SessionMessage);
  streams : bool;
  cancel : option nat;
}.

Record IdReactionPayload : Type := mkReaction {
  reaction_session : string;
  reaction_message : string;
  reaction_model : option string;
  reaction_prompt : string;
  id_signal : option string;
  id_consult : string;
  id_context : string;
  superego_context : string;
}.

Record ChatResponse : Type := mkChatResponse {
  response_reply : string;
  response_provider : option string;
  response_calls : list ToolCallRecord;
  response_tier : option string;
  response_model : option string;
  response_complexity : option Z;
  response_trace : option Trace.ExecutionTrace;
  response_session : option string;
}.

Record EgoActionPayload : Type := mkAction {
  action_session : string;
  action_status : string;
  action_error : option string;
  action_response : option ChatResponse;
  action_user_message : string;
  superego_verdict : option string;
  superego_findings : list string;
}.

Record SuperegoEvaluationPayload : Type := mkEvaluation {
  evaluation_source : string;
  evaluation_context : string;
  evaluation_verdict : string;
  evaluation_findings : list string;
  evaluation_reason : option string;
  evaluation_session : option string;
}.

Record SkillApplyAcknowledgement : Type := mkAck {
  ack_skill_id : string;
  ack_status : string;
  ack_applied_at : string;
}.

(** What is published, by topic: chat lifecycle events ride the job topic. *)
Inductive Body : Type :=
| Mentor (e : MentorChatEnvelope)
| Reaction (p : IdReactionPayload)
| Deliberation (t : Trace.ExecutionTrace)
| Action (p : EgoActionPayload)
| Evaluation (p : SuperegoEvaluationPayload)
| Lifecycle (session phase : string) (payload : Value)
| Governance (payload : Value).

Definition body_topic (b : Body) : Topic :=
  match b with
  | Mentor _ => MentorInput
  | Reaction _ => IdReaction
  | Deliberation _ => EgoDeliberation
  | Action _ => EgoAction
  | Evaluation _ => SuperegoEvaluation
  | Lifecycle _ _ _ => JobEvents
  | Governance _ => GovernanceInbound
  end.

Record Published : Type := mkPublished { correlation : string; body : Body }.

Definition TurnOutcome : Type := result ChatResponse string.

Definition friendly_turn_error : string :=
  "I'm having trouble reaching a language model right now. Please try again in a moment " +:+
  emdash +:+ " or ask whoever set up Abigail to connect a model in the Hive.".

(** ** The committed action *)

(** [format!("{:?}", mode)] *)
Definition mode_debug (m : RoutingMode) : string :=
  match m with EgoPrimary => "EgoPrimary" | CliOrchestrator => "CliOrchestrator" end.

Section action.
Context (segments : string → string → list (string * string) * string).

Definition blocked_action (payload : IdReactionPayload) (rules : list string) : EgoActionPayload :=
  mkAction (reaction_session payload) "blocked"
    (Some ("Response withheld by superego: " +:+ RustStr.join ", " rules)) None
    (reaction_message payload) (Some "block") rules.

Definition success_action (payload : IdReactionPayload) (provider : option string)
    (result : ToolUseResult) (gate : GateDecision) : EgoActionPayload :=
  mkAction (reaction_session payload) "success" None
    (Some (mkChatResponse (use_content result) provider (tool_calls_made result) (use_tier result)
             (use_model result) (use_complexity result) (execution_trace result)
             (Some (reaction_session payload))))
    (reaction_message payload) (Some (verdict gate)) (map rule (findings gate)).

(** The provider named in the trace, else that of the router. *)
Definition provider_of (label : string) (result : ToolUseResult) : string :=
  unwrap_or (execution_trace result ≫= Trace.final_provider) label.

Definition gated_action (payload : IdReactionPayload) (label : string) (result : ToolUseResult)
  : EgoActionPayload :=
  let gate := evaluate (find_iter segments) (use_content result) ChatReply in
  match gate with
  | Block fs => blocked_action payload (map rule fs)
  | _ => success_action payload (Some (provider_of label result)) result gate
  end.

Definition failed_action (payload : IdReactionPayload) (detail : string) : EgoActionPayload :=
  mkAction (reaction_session payload) "error"
    (Some (if contains (to_lowercase detail) "interrupted by user" then detail
           else friendly_turn_error))
    None (reaction_message payload) None [].

Definition unsaved_action (action : EgoActionPayload) (error : string) : EgoActionPayload :=
  mkAction (action_session action) "error"
    (Some ("Unable to save this conversation: " +:+ error)) None (action_user_message action)
    (superego_verdict action) (superego_findings action).

Definition outcome_of (action : EgoActionPayload) : TurnOutcome :=
  match action_response action with
  | Some response =>
      if decide (action_status action = "success") then Ok response
      else Err (unwrap_or (action_error action) "ego stage failed without detail")
  | None => Err (unwrap_or (action_error action) "ego stage failed without detail")
  end.

(** An event of the provider's stream, as the gate sees it. *)
Definition gate_event (e : Cognitive.StreamEvent) : Superego.StreamEvent :=
  match e with
  | Cognitive.Token t => Superego.Token t
  | Cognitive.Done r => Superego.Done (reply r)
  end.
End action.

(** [build_llm_judgment_prompt]: the system and the user message. *)
Definition build_llm_judgment_prompt (entity_name constitution user_message reply : string)
  : string * string :=
  ("You are the Superego of " +:+ entity_name +:+ " " +:+ emdash +:+ " its conscience. Judge whether the " +:+
   "entity's reply honors its constitution. Respond with ONLY a JSON object: {" +:+
   quote +:+ "verdict" +:+ quote +:+ ": " +:+ quote +:+ "clear" +:+ quote +:+ " | " +:+
   quote +:+ "concern" +:+ quote +:+ " | " +:+ quote +:+ "violation" +:+ quote +:+ ", " +:+
   quote +:+ "reason" +:+ quote +:+ ": " +:+ quote +:+ "<one sentence>" +:+ quote +:+ "}." +:+ nl +:+ nl +:+
   "Constitution excerpt:" +:+ nl +:+ constitution,
   "Mentor said:" +:+ nl +:+ user_message +:+ nl +:+ nl +:+ "Entity replied:" +:+ nl +:+ reply).

Definition consult_prompt (agent_name : option string) : string :=
  "You are the Id " +:+ emdash +:+ " the instinctive personality core of " +:+
  unwrap_or agent_name "this entity" +:+ ". Read the mentor's message and reply with ONE short " +:+
  "sentence naming the emotional tone and drive the entity should bring to its reply. " +:+
  "No preamble, no advice, no analysis.".

(** ** The daemon *)

Section daemon.
Context {Time TB TM TT TP TE W H Key : Type}.
Context `{RecordStore TB BirthDoc} `{RecordStore TM MemoryDoc} `{!RecordQuery TM MemoryDoc}.
Context `{RecordStore TT TurnDoc} `{!RecordQuery TT TurnDoc}.
Context `{RecordStore TP ProtectedTopicDoc} `{!RecordQuery TP ProtectedTopicDoc}.
Context `{RecordStore TE ProtectedTopicEntryDoc} `{!RecordQuery TE ProtectedTopicEntryDoc}.
Context `{VaultHost} `{JsonText} `{ToolHost H} `{Templates}.

(** What a daemon is started with, and the external code in use. *)
Record Setup : Type := mkSetup {
  entity_id : string;
  soul_ref : string;
  is_hive : bool;
  agent_name : option string;
  docs_dir : path;
  has_exporter : bool;
  registry : SkillRegistry (Key:=Key) (Params:=gmap string Value) (Output:=ToolOutput);
  parameters : ToolDescriptor → Value;
  instructions : InstructionRegistry;
  store_entity : option string;
  unlock : result string CoreError;
  to_rfc3339 : Time → string;
  parse_rfc3339 : string → result Time string;
  time_leb : Time → Time → bool;
  day_of : Time → string;
  segments : string → string → list (string * string) * string;
  is_uuid : string → bool;
  sha256 : string → string;
  print_payload : ProtectedSecretPayload → string;
  print_outbox : PersistedOutbox Value → string;
  print_ledger : list ExecutionEvent → string;
  session_of : Value → option string;
  parse_verdict : string → option LlmVerdict;
  is_alphanumeric : string → bool;
  unicode_lowercase : string → string;
  read_file : path → option string;
  cwd : option path;
  exe_dir : option path;
  write_spill : string → option string;
  trace_uuid : nat → string;
  trace_clock : nat → nat → string;
}.

(** The readings of the outside, by their number. *)
Record Outside : Type := mkOutside {
  fresh_uuid : nat → string;
  now : nat → Time;
  nonce : nat → string;
  broker_fault : nat → option string;
  disk_fault : nat → option string;
}.

Context (cfg : Setup) (out : Outside).
Notation Store := (Tables TB TM TT TP TE).
Notation Brain := (ChatState W H).

Record Daemon : Type := mkDaemon {
  turns : gmap string TurnContext;
  brain : Brain;
  provider_config : option Value;
  memory : Store;
  outbox : RuntimeOutbox Value;
  ledger : ExecutionLedger;
  bus : list Published;
  skill_assignments : list SkillAssignment;
  recent_skill_acks : list SkillApplyAcknowledgement;
  turns_since_archive : Z;
  archives : nat;
  active_stream_cancel : option nat;
  cancelled_tokens : gset nat;
  (** handlers that no longer wait, what the others were sent, and what the gate
      let through to the client of a stream *)
  gave_up : gset string;
  answered : list (string * TurnOutcome);
  streamed : list (string * list Superego.StreamEvent);
  readings : nat;
}.

(** *** Fields *)

Definition tick (d : Daemon) : Daemon :=
  mkDaemon (turns d) (brain d) (provider_config d) (memory d) (outbox d) (ledger d) (bus d)
    (skill_assignments d) (recent_skill_acks d) (turns_since_archive d) (archives d)
    (active_stream_cancel d) (cancelled_tokens d) (gave_up d) (answered d) (streamed d)
    (S (readings d)).
Definition with_turns (f : gmap string TurnContext → gmap string TurnContext) (d : Daemon) : Daemon :=
  mkDaemon (f (turns d)) (brain d) (provider_config d) (memory d) (outbox d) (ledger d) (bus d)
    (skill_assignments d) (recent_skill_acks d) (turns_since_archive d) (archives d)
    (active_stream_cancel d) (cancelled_tokens d) (gave_up d) (answered d) (streamed d) (readings d).
Definition with_brain (b : Brain) (d : Daemon) : Daemon :=
  mkDaemon (turns d) b (provider_config d) (memory d) (outbox d) (ledger d) (bus d)
    (skill_assignments d) (recent_skill_acks d) (turns_since_archive d) (archives d)
    (active_stream_cancel d) (cancelled_tokens d) (gave_up d) (answered d) (streamed d) (readings d).
Definition with_config (c : option Value) (d : Daemon) : Daemon :=
  mkDaemon (turns d) (brain d) c (memory d) (outbox d) (ledger d) (bus d)
    (skill_assignments d) (recent_skill_acks d) (turns_since_archive d) (archives d)
    (active_stream_cancel d) (cancelled_tokens d) (gave_up d) (answered d) (streamed d) (readings d).
Definition with_memory (m : Store) (d : Daemon) : Daemon :=
  mkDaemon (turns d) (brain d) (provider_config d) m (outbox d) (ledger d) (bus d)
    (skill_assignments d) (recent_skill_acks d) (turns_since_archive d) (archives d)
    (active_stream_cancel d) (cancelled_tokens d) (gave_up d) (answered d) (streamed d) (readings d).
Definition with_records (o : RuntimeOutbox Value) (l : ExecutionLedger) (d : Daemon) : Daemon :=
  mkDaemon (turns d) (brain d) (provider_config d) (memory d) o l (bus d)
    (skill_assignments d) (recent_skill_acks d) (turns_since_archive d) (archives d)
    (active_stream_cancel d) (cancelled_tokens d) (gave_up d) (answered d) (streamed d) (readings d).
Definition with_bus (f : list Published → list Published) (d : Daemon) : Daemon :=
  mkDaemon (turns d) (brain d) (provider_config d) (memory d) (outbox d) (ledger d) (f (bus d))
    (skill_assignments d) (recent_skill_acks d) (turns_since_archive d) (archives d)
    (active_stream_cancel d) (cancelled_tokens d) (gave_up d) (answered d) (streamed d) (readings d).
Definition with_skills (l : list SkillAssignment) (acks : list SkillApplyAcknowledgement) (d : Daemon)
  : Daemon :=
  mkDaemon (turns d) (brain d) (provider_config d) (memory d) (outbox d) (ledger d) (bus d)
    l acks (turns_since_archive d) (archives d)
    (active_stream_cancel d) (cancelled_tokens d) (gave_up d) (answered d) (streamed d) (readings d).
Definition with_archive (count : Z) (n : nat) (d : Daemon) : Daemon :=
  mkDaemon (turns d) (brain d) (provider_config d) (memory d) (outbox d) (ledger d) (bus d)
    (skill_assignments d) (recent_skill_acks d) count n
    (active_stream_cancel d) (cancelled_tokens d) (gave_up d) (answered d) (streamed d) (readings d).
Definition with_cancel (active : option nat) (fired : gset nat) (d : Daemon) : Daemon :=
  mkDaemon (turns d) (brain d) (provider_config d) (memory d) (outbox d) (ledger d) (bus d)
    (skill_assignments d) (recent_skill_acks d) (turns_since_archive d) (archives d)
    active fired (gave_up d) (answered d) (streamed d) (readings d).
Definition with_answers (gone : gset string) (l : list (string * TurnOutcome))
    (s : list (string * list Superego.StreamEvent)) (d : Daemon) : Daemon :=
  mkDaemon (turns d) (brain d) (provider_config d) (memory d) (outbox d) (ledger d) (bus d)
    (skill_assignments d) (recent_skill_acks d) (turns_since_archive d) (archives d)
    (active_stream_cancel d) (cancelled_tokens d) gone l s (readings d).

Definition stamp (d : Daemon) : string := to_rfc3339 cfg (now out (readings d)).

(** *** The bus, the memory and the records *)

Definition publish (corr : string) (b : Body) : M Daemon string unit := λ d,
  match broker_fault out (readings d) with
  | Some e => (tick d, Err e)
  | None => (with_bus (λ l, l ++ [mkPublished corr b]) (tick d), Ok tt)
  end.

(** A publication whose failure is only logged. *)
Definition announce_on_bus (corr : string) (b : Body) (d : Daemon) : Daemon := (publish corr b d).1.

(** [memory_consumer::persist_turn]; the turn has the time and the identifier of
    this reading, the secret it may hold the nonce of it. *)
Definition persist_turn (t : MemStore.ConversationTurn Time) : M Daemon string unit := λ d,
  let '(m, r) := persist_chat_turn (TB:=TB) (TM:=TM) (to_rfc3339 cfg) (segments cfg) (is_uuid cfg)
                   (sha256 cfg) (print_payload cfg) (unlock cfg) (store_entity cfg)
                   (nonce out (readings d)) t (memory d) in
  (with_memory m (tick d), r).

Definition fresh_turn (session role content : string) (d : Daemon) : MemStore.ConversationTurn Time :=
  new_turn (fresh_uuid out (readings d)) (now out (readings d)) session role content.

(** [queue_outbox_record] *)
Definition queue_outbox_record (kind : string) (payload : Value) : M Daemon string unit := λ d,
  let i := readings d in
  let '(o, r) := Outbox.enqueue (print_outbox cfg) (disk_fault out i) (fresh_uuid out i)
                   (stamp d) (entity_id cfg) kind payload (outbox d) in
  let d := tick (with_records o (ledger d) d) in
  match r with
  | Err e => (d, Err e)
  | Ok _ =>
      let i := readings d in
      let '(l, r) := Ledger.append_outbox_event (sha256 cfg) to_string (session_of cfg)
                       (print_ledger cfg) (disk_fault out i) (fresh_uuid out i) (stamp d)
                       (entity_id cfg) kind payload (soul_ref cfg) (ledger d) in
      (tick (with_records (outbox d) l d), match r with Ok _ => Ok tt | Err e => Err e end)
  end.

(** [push_skill_ack] *)
Definition push_skill_ack (a : SkillApplyAcknowledgement) (d : Daemon) : Daemon :=
  with_skills (skill_assignments d) (keep_last MAX_SKILL_ACKS (recent_skill_acks d ++ [a])) d.

(** [maybe_auto_archive]: the exports started. *)
Definition maybe_auto_archive (d : Daemon) : Daemon :=
  let count := as_u32 (turns_since_archive d + 1) in
  if (ARCHIVE_INTERVAL_TURNS <=? count)%Z
  then with_archive 0 (archives d + if has_exporter cfg then 1 else 0) d
  else with_archive count (archives d) d.

Definition lifecycle (session phase : string) (payload : Value) (d : Daemon) : Daemon :=
  announce_on_bus "" (Lifecycle session phase payload) d.

(** *** The beginning of a turn *)

(** [TurnRegistry::take] *)
Definition take_turn (corr : string) (d : Daemon) : Daemon := with_turns (delete corr) d.

Definition begin_turn (session message : string) (model : option string) (ctx : TurnContext)
  : M Daemon string string := λ d,
  let corr := fresh_uuid out (readings d) in
  let d := tick (with_turns (<[corr := ctx]>) d) in
  match publish corr (Mentor (mentor_request (stamp d) corr session (entity_id cfg) message model)) d with
  | (d, Ok _) => (d, Ok corr)
  | (d, Err e) => (take_turn corr d, Err e)
  end.

(** *** The Id stage *)

(** A request to the router in use. *)
Definition route_request (request : RoutingRequest Value) : M Daemon string RoutingResponse := λ d,
  let '(b, r) := send (trace_uuid cfg) (trace_clock cfg) (λ _, request) (brain d) in
  (with_brain b d, r).

(** A request to Id alone that is given up while Id works on it ([route_unified] waits
    for nothing else then): Id was asked, and left the outside as [w]; the answer and
    the health of the provider are not recorded. *)
Definition given_up (messages : list Message) (w : W) (b : Brain) : Brain :=
  mkChat (ChatLoop.router b)
    (mkNet w (asked (net b) ++ [(Router.Id, mkRequest messages None None)]) (channel (net b)))
    (host b) (conversation b).

(** A request to Id alone, under a time limit; [late]: it is given up. *)
Definition ask_id (messages : list Message) (late : option W) : M Daemon string RoutingResponse :=
  λ d,
  match late with
  | Some w => (with_brain (given_up messages w (brain d)) d, Err "timeout")
  | None => route_request (mkRouting messages None None false true) d
  end.

Definition consult_id (has_local_llm : bool) (message : string) (late : option W) (d : Daemon)
  : Daemon * (option string * string) :=
  if negb has_local_llm then (d, (None, "skipped"))
  else
    let messages := [new_message "system" (consult_prompt (agent_name cfg)); new_message "user" message] in
    match ask_id messages late d with
    | (d, Ok resp) =>
        let text := trim (reply (completion resp)) in
        if str_is_empty text then (d, (None, "empty"))
        else (d, (Some (str_take_chars ID_SIGNAL_MAX_CHARS text), "success"))
    | (d, Err _) => (d, (None, match late with Some _ => "timeout" | None => "error" end))
    end.

Definition base_prompt (message : string) (s : RouterStatusInfo) : string :=
  if is_hive cfg then build_hive_helper_prompt (agent_name cfg)
  else match status_mode s with
  | CliOrchestrator =>
      Chat.build_cli_system_prompt
        (build_cli_system_prompt_compressed (read_file cfg) (docs_dir cfg) (agent_name cfg))
        (build_cli_spillover_document (read_file cfg) (docs_dir cfg))
        (write_spill cfg) (registry cfg) (instructions cfg) message
  | EgoPrimary =>
      augment_system_prompt (build_system_prompt (read_file cfg) (docs_dir cfg) (agent_name cfg))
        (registry cfg) (instructions cfg) message
        (mkRuntime (status_ego_provider s) None (Some (mode_debug (status_mode s))) None None
           (agent_name cfg) (Some (entity_id cfg)) (status_has_local_http s) None)
        Full
  end.

(** [curate_and_publish] *)
Definition curate_and_publish (e : MentorChatEnvelope) (late : option W) (d : Daemon) : Daemon :=
  let s := router_status (router (brain d)) in
  let lower := to_lowercase (mentor_message e) in
  let prompt := inject_preprompt (base_prompt (mentor_message e) s)
                  (Some (load_minimal_preprompt (read_file cfg) (cwd cfg) (exe_dir cfg)
                           (mentor_message e))) in
  let '(d, (signal, consult)) :=
    consult_id (status_has_local_http s && status_has_ego s) (mentor_message e) late d in
  let prompt :=
    match signal with
    | Some signal => prompt +:+ nl +:+ nl +:+ "## Id Signal" +:+ nl +:+ signal +:+ nl
    | None => prompt
    end in
  announce_on_bus (mentor_correlation e)
    (Reaction (mkReaction (mentor_session e) (mentor_message e) (mentor_model e) prompt signal consult
                 (infer_id_context lower) (infer_superego_context lower))) d.

(** *** The Ego stage *)

(** The store, as the chat engine sees it. *)
Definition turn_view (t : MemStore.ConversationTurn Time) : Chat.ConversationTurn :=
  Chat.mkTurn (MemStore.turn_id t) (MemStore.turn_session t) (MemStore.turn_role t)
    (MemStore.turn_content t) (day_of cfg (turn_created_at t)).
Definition weight_view (w : MemStore.MemoryWeight) : Chat.MemoryWeight :=
  match w with
  | MemStore.Ephemeral => Chat.Ephemeral
  | MemStore.Distilled => Chat.Distilled
  | MemStore.Crystallized => Chat.Crystallized
  end.
Definition memory_view (m : MemStore.Memory Time) : Chat.Memory :=
  Chat.mkMemory (MemStore.memory_id m) (MemStore.memory_content m) (weight_view (memory_weight m))
    (day_of cfg (memory_created_at m)).
Definition views {A B} (f : A → B) (r : result (list A) StoreError) : option (list B) :=
  match r with Ok l => Some (map f l) | Err _ => None end.

Definition store_view (s : Store) : Chat.MemoryStore := {|
  Chat.recent_turns session n :=
    views turn_view (MemStore.recent_turns (TB:=TB) (TM:=TM) (TP:=TP) (TE:=TE) (parse_rfc3339 cfg)
                       (time_leb cfg) session n s).2;
  Chat.search_turns query n :=
    views turn_view (MemStore.search_turns (TB:=TB) (TM:=TM) (TP:=TP) (TE:=TE) (parse_rfc3339 cfg)
                       (time_leb cfg) query n s).2;
  Chat.search_memories query n :=
    views memory_view (MemStore.search_memories (TB:=TB) (TT:=TT) (TP:=TP) (TE:=TE)
                         (parse_rfc3339 cfg) (time_leb cfg) query n s).2;
|}.

Definition turn_messages (payload : IdReactionPayload) (ctx : TurnContext) (s : Store) : list Message :=
  build_contextual_messages_with_memory (is_alphanumeric cfg) (unicode_lowercase cfg) (store_view s)
    (reaction_session payload) (reaction_prompt payload) (session_messages ctx)
    (reaction_message payload) default_budget.

(** The models with an empty channel to the client. *)
Definition fresh_channel (b : Brain) : Brain :=
  mkChat (router b) (mkNet (outside (net b)) (asked (net b)) []) (host b) (conversation b).

(** The call of the model or the loop of tools.  [interrupted] is what the models
    had become when the token of a streaming turn was fired. *)
Definition think (corr : string) (payload : IdReactionPayload) (ctx : TurnContext)
    (interrupted : option Brain) (messages : list Message) : M Brain string ToolUseResult := λ b,
  let tools := build_tool_definitions (parameters cfg) (registry cfg) in
  let job_ctx := Some (mkJobContext 0 (Some corr)) in
  let b := fresh_channel b in
  if streams ctx then
    match interrupted, cancel ctx with
    | Some b, Some _ => (b, Err "Interrupted by user")
    | _, _ =>
        stream_chat_pipeline (trace_uuid cfg) (trace_clock cfg) (skill_call job_ctx) messages tools
          (reaction_model payload) b
    end
  else match tools with
  | [] =>
      (r ← send (trace_uuid cfg) (trace_clock cfg)
             (λ _, mkRouting messages None (reaction_model payload) false false);
       mret (mkToolUse (reply (completion r)) [] (trace r))) b
  | _ =>
      run_tool_use_loop_with_model_override (trace_uuid cfg) (trace_clock cfg) messages tools
        (reaction_model payload) job_ctx b
  end.

(** [respond], up to the gate's verdict. *)
Definition answer_turn (corr : string) (payload : IdReactionPayload) (ctx : TurnContext)
    (interrupted : option Brain) (d : Daemon) : Daemon * EgoActionPayload :=
  let label := chat_provider_label (router (brain d)) in
  let '(b, r) := think corr payload ctx interrupted (turn_messages payload ctx (memory d)) (brain d) in
  let relayed := sent (spawn_gated_relay (find_iter (segments cfg)) (map gate_event (channel (net b)))) in
  let d := with_brain b d in
  let d := if streams ctx
           then with_answers (gave_up d) (answered d) (streamed d ++ [(corr, relayed)]) d else d in
  match r with
  | Ok result =>
      let d := match execution_trace result with
               | Some t => announce_on_bus corr (Deliberation t) d
               | None => d
               end in
      (d, gated_action (segments cfg) payload label result)
  | Err detail => (d, failed_action payload detail)
  end.

(** The reply is saved before it is delivered. *)
Definition save_reply (action : EgoActionPayload) (d : Daemon) : Daemon * EgoActionPayload :=
  match action_response action with
  | None => (d, action)
  | Some response =>
      let turn := with_metadata (response_provider response) (response_model response)
                    (response_tier response) (response_complexity response)
                    (fresh_turn (action_session action) "assistant" (response_reply response) d) in
      match persist_turn turn d with
      | (d, Ok _) => (d, action)
      | (d, Err e) => (d, unsaved_action action e)
      end
  end.

(** The action goes to its observers, and the outcome to the handler, if it waits. *)
Definition announce (corr : string) (action : EgoActionPayload) (d : Daemon) : Daemon :=
  let d := announce_on_bus corr (Action action) d in
  if decide (corr ∈ gave_up d) then d
  else with_answers (gave_up d) (answered d ++ [(corr, outcome_of action)]) (streamed d) d.

Definition respond (corr : string) (payload : IdReactionPayload) (ctx : TurnContext)
    (interrupted : option Brain) (d : Daemon) : Daemon :=
  let '(d, action) := answer_turn corr payload ctx interrupted d in
  let '(d, action) := save_reply action d in
  announce corr action d.

(** *** The journal *)

Definition call_summary (r : ToolCallRecord) : Value :=
  Obj [("skill_id", Str (record_skill r)); ("tool_name", Str (record_tool r));
       ("success", Bool (record_success r))].

Definition record (action : EgoActionPayload) (d : Daemon) : Daemon :=
  match action_response action with
  | Some response =>
      if decide (action_status action = "success") then
        let d := (queue_outbox_record "chat_assistant_turn"
                    (Obj [("session_id", Str (action_session action));
                          ("reply", Str (response_reply response));
                          ("provider", json_opt (response_provider response));
                          ("model_used", json_opt (response_model response))]) d).1 in
        let d := maybe_auto_archive d in
        lifecycle (action_session action) "chat_completed"
          (Obj [("provider", json_opt (response_provider response));
                ("model_used", json_opt (response_model response));
                ("tool_calls", Num (PosInt (Z.of_nat (length (response_calls response)))));
                ("tool_summary", Arr (map call_summary (response_calls response)))]) d
      else lifecycle (action_session action) "chat_failed"
             (Obj [("error", Str (unwrap_or (action_error action) "unknown"))]) d
  | None => lifecycle (action_session action) "chat_failed"
              (Obj [("error", Str (unwrap_or (action_error action) "unknown"))]) d
  end.

(** *** The Superego's judge *)

Definition constitution_excerpt : string :=
  str_take_chars CONSTITUTION_EXCERPT_CHARS
    (unwrap_or (read_file cfg (docs_dir cfg ++ [Normal "ethics.md"])) ETHICS_MD).

Definition judge_exchange (corr : string) (action : EgoActionPayload) (late : option W)
    (d : Daemon) : Daemon :=
  let d := announce_on_bus corr (Evaluation
             (mkEvaluation "pattern" (context_as_str ChatReply)
                (unwrap_or (superego_verdict action) "clear") (superego_findings action) None
                (Some (action_session action)))) d in
  match action_response action with
  | None => d
  | Some response =>
      if negb (status_has_local_http (router_status (router (brain d)))) then d
      else
        let '(system, user) :=
          build_llm_judgment_prompt (unwrap_or (agent_name cfg) "this entity") constitution_excerpt
            (action_user_message action) (response_reply response) in
        match ask_id [new_message "system" system; new_message "user" user] late d with
        | (d, Ok resp) =>
            match parse_llm_verdict (parse_verdict cfg) (reply (completion resp)) with
            | Some v =>
                announce_on_bus corr (Evaluation
                  (mkEvaluation "llm" (context_as_str ChatReply) (llm_verdict v) []
                     (Some (reason v)) (Some (action_session action)))) d
            | None => d
            end
        | (d, Err _) => d
        end
  end.

(** The observer of a topic of jobs or skills: [content] is the text of the message,
    [correlation] its header, or else its identifier. *)
Definition observe_content (context : EvaluationContext) (corr content : string) (d : Daemon) : Daemon :=
  if match context with
     | JobResult => contains content (quote +:+ "chat_lifecycle" +:+ quote)
     | _ => false
     end then d
  else match evaluate (find_iter (segments cfg)) content context with
  | Allow => d
  | decision =>
      announce_on_bus corr (Evaluation
        (mkEvaluation "pattern" (context_as_str context) (verdict decision)
           (map rule (findings decision)) None None)) d
  end.

(** *** Governance *)

Definition KIND_SKILL_ASSIGNMENTS_REFRESH : string := "skill_assignments.refresh".
Definition KIND_PROVIDER_REFRESH : string := "provider.refresh".

(** Reading the assignments and the provider configuration of a payload, [None] when
    they are malformed, the latter as its snapshot; and the router built for one. *)
Context (parse_assignments : Value → option (list SkillAssignment)).
Context (provider_snapshot : Value → option Value).
Context (build_router : Value → IdEgoRouter Value W).

(** The router is built anew, and the configuration remembered. *)
Definition swap_router (config : Value) (d : Daemon) : Daemon :=
  let b := brain d in
  with_config (Some config) (with_brain (mkChat (build_router config) (net b) (host b) (conversation b)) d).

Definition matches_provider_config (config : Value) (d : Daemon) : bool :=
  match provider_config d with Some snapshot => value_eqb snapshot config | None => false end.

Definition apply_provider_refresh (payload : Value) (d : Daemon) : Daemon :=
  match provider_snapshot (unwrap_or (get "provider_config" payload) Null) with
  | Some config => swap_router config d
  | None => d
  end.

Definition refreshed_ack (d : Daemon) (a : SkillAssignment) : SkillApplyAcknowledgement :=
  mkAck (as_skill_id a) "assignment_refreshed" (stamp d).

Definition apply_skill_assignments (payload : Value) (d : Daemon) : Daemon :=
  match parse_assignments (unwrap_or (get "assignments" payload) (Arr [])) with
  | None => d
  | Some l =>
      foldl (λ d a, tick (push_skill_ack (refreshed_ack d a) d)) (with_skills l (recent_skill_acks d) d) l
  end.

Definition govern (payload : Value) (d : Daemon) : Daemon :=
  let kind := unwrap_or (get "kind" payload ≫= as_str) "" in
  if decide (kind = KIND_SKILL_ASSIGNMENTS_REFRESH) then apply_skill_assignments payload d
  else if decide (kind = KIND_PROVIDER_REFRESH) then apply_provider_refresh payload d
  else d.

(** *** The chat handlers *)

Record ChatRequest : Type := mkChatRequest {
  request_message : string;
  request_session_messages : option (list SessionMessage);
  request_session_id : option string;
  request_model : option string;
}.

(** [refresh_provider_for_turn]: the configuration the Hive answered in time. *)
Definition refresh_provider_for_turn (config : option Value) (d : Daemon) : Daemon :=
  match config with
  | Some config => if matches_provider_config config d then d else swap_router config d
  | None => d
  end.

(** What both handlers do first. *)
Definition open_turn (body : ChatRequest) (config : option Value) (d : Daemon)
  : Daemon * string :=
  let d := refresh_provider_for_turn config d in
  let session := unwrap_or (request_session_id body) (fresh_uuid out (readings d)) in
  let d := tick d in
  let d := lifecycle session "chat_started"
             (Obj [("message_preview", Str (str_take_chars 200 (request_message body)));
                   ("model_override", json_opt (request_model body))]) d in
  let b := brain d in
  let '(r, _) := register_selected_model_subscriber (entity_id cfg) (request_model body) (router b) in
  (with_brain (mkChat r (net b) (host b) (conversation b)) d, session).

Definition user_turn_record (session message : string) : Value :=
  Obj [("session_id", Str session); ("message", Str message)].

Definition unsaved_input (e : string) : string := "Unable to save this conversation: " +:+ e.
Definition not_started (e : string) : string := "failed to start chat turn: " +:+ e.

(** [chat], up to the wait for the outcome. *)
Definition chat (body : ChatRequest) (config : option Value) : M Daemon string string := λ d,
  let '(d, session) := open_turn body config d in
  match persist_turn (fresh_turn session "user" (request_message body) d) d with
  | (d, Err e) => (d, Err (unsaved_input e))
  | (d, Ok _) =>
      let d := (queue_outbox_record "chat_user_turn" (user_turn_record session (request_message body)) d).1 in
      match begin_turn session (request_message body) (request_model body)
              (mkContext (request_session_messages body) false None) d with
      | (d, Err e) => (d, Err (not_started e))
      | (d, Ok corr) => (d, Ok corr)
      end
  end.

(** [chat_stream], up to the wait: the token of the stream is the reading at which
    it was made; the token of the stream before is fired. *)
Definition replace_token (d : Daemon) : Daemon * nat :=
  let token := readings d in
  (with_cancel (Some token)
     (match active_stream_cancel d with
      | Some before => {[before]} ∪ cancelled_tokens d
      | None => cancelled_tokens d
      end) (tick d), token).

Definition chat_stream (body : ChatRequest) (config : option Value) : M Daemon string string := λ d,
  let '(d, session) := open_turn body config d in
  let '(d, saved) := persist_turn (fresh_turn session "user" (request_message body) d) d in
  let d := (queue_outbox_record "chat_user_turn" (user_turn_record session (request_message body)) d).1 in
  let '(d, token) := replace_token d in
  match saved with
  | Err e => (d, Err (not_started (unsaved_input e)))
  | Ok _ =>
      match begin_turn session (request_message body) (request_model body)
              (mkContext (request_session_messages body) true (Some token)) d with
      | (d, Err e) => (d, Err (not_started e))
      | (d, Ok corr) => (d, Ok corr)
      end
  end.

(** The end of a stream's handler, whatever the outcome. *)
Definition clear_token (d : Daemon) : Daemon := with_cancel None (cancelled_tokens d) d.

(** [cancel_chat_stream] *)
Definition cancel_chat_stream (d : Daemon) : Daemon * bool :=
  match active_stream_cancel d with
  | Some token => (with_cancel None ({[token]} ∪ cancelled_tokens d) d, true)
  | None => (d, false)
  end.

(** A handler that waited too long takes the turn back. *)
Definition abandon (corr : string) (d : Daemon) : Daemon :=
  with_answers ({[corr]} ∪ gave_up d) (answered d) (streamed d) (take_turn corr d).

(** [chat_history] *)
Definition is_visible (t : MemStore.ConversationTurn Time) : bool :=
  bool_decide (MemStore.turn_role t = "user") || bool_decide (MemStore.turn_role t = "assistant").

Definition clamp_limit (limit : option nat) : nat := Nat.min 500 (Nat.max 1 (unwrap_or limit 200)).

Definition history_session (wanted : option string) (s : Store) : result (option string) string :=
  match wanted ≫= (λ id, if str_is_empty (trim id) then None else Some id) with
  | Some id => Ok (Some id)
  | None =>
      let? sessions := map_err store_error_str
        (MemStore.list_sessions (TB:=TB) (TM:=TM) (TP:=TP) (TE:=TE) (to_rfc3339 cfg)
           (parse_rfc3339 cfg) 1 s).2 in
      Ok (summary_session <$> head sessions)
  end.

Definition chat_history (wanted : option string) (limit : option nat) (s : Store)
  : result (option string * list SessionMessage) string :=
  let? session := history_session wanted s in
  match session with
  | None => Ok (None, [])
  | Some id =>
      let? ts := map_err store_error_str
        (MemStore.recent_turns (TB:=TB) (TM:=TM) (TP:=TP) (TE:=TE) (parse_rfc3339 cfg)
           (time_leb cfg) id (clamp_limit limit) s).2 in
      Ok (session, map (λ t, mkSession (MemStore.turn_role t) (MemStore.turn_content t))
                     (filter is_visible ts))
  end.

(** *** The subscribers *)

(** What runs of a turn the Ego stage took: [respond], between its awaits. *)
Inductive Task : Type :=
| Answering (corr : string) (payload : IdReactionPayload) (ctx : TurnContext)
| Saving (corr : string) (action : EgoActionPayload)
| Announcing (corr : string) (action : EgoActionPayload).

Definition run_task (interrupted : option Brain) (t : Task) (d : Daemon) : Daemon * list Task :=
  match t with
  | Answering corr payload ctx =>
      let '(d, action) := answer_turn corr payload ctx interrupted d in (d, [Saving corr action])
  | Saving corr action =>
      let '(d, action) := save_reply action d in (d, [Announcing corr action])
  | Announcing corr action => (announce corr action d, [])
  end.

Inductive Stage : Type := IdStage | EgoStage | JournalStage | JudgeStage | GovernanceStage.

(** What the subscriber of a stage does with a message: the Ego stage claims the turn
    and leaves a task. *)
Definition on_message (stage : Stage) (p : Published) (late : option W) (d : Daemon)
  : Daemon * list Task :=
  match stage, body p with
  | IdStage, Mentor e =>
      if decide (mentor_stage e = "request") then (curate_and_publish e late d, []) else (d, [])
  | EgoStage, Reaction payload =>
      match turns d !! correlation p with
      | Some ctx => (take_turn (correlation p) d, [Answering (correlation p) payload ctx])
      | None => (d, [])
      end
  | JournalStage, Action a => (record a d, [])
  | JudgeStage, Action a => (judge_exchange (correlation p) a late d, [])
  | GovernanceStage, Governance payload => (govern payload d, [])
  | _, _ => (d, [])
  end.
End daemon.
