(* ===== verification/ChatSpec.v ===== *)
(** * The chat engine: contexts and tools

    The history sent to the model, the budget of the recalled context, the
    qualified names of tools, and that a tool advertised to the model is one the
    executor runs without a confirmation. *)

From S2P Require Import Prelude RustStr Json Paths SkillPolicy SkillExecutor SkillSpec Instructions.
From S2P Require Import Cognitive Router Chat.
From Stdlib Require Import ZArith Lia Ascii.
From stdpp Require Import base list sets strings gmap pretty.

Open Scope rust_scope.

(** ** History *)

(** A message that takes no part in tool calling. *)
Definition plain (m : Message) : Prop :=
  role m ≠ "tool" ∧ tool_call_id m = None ∧ tool_calls m = None.

Lemma sanitize_last history :
  sanitize_session_history history =
  keep_last MAX_HISTORY_MESSAGES (omap sanitize_message (unwrap_or history [])).
Proof.
  unfold sanitize_session_history. by rewrite keep_last_drop, firstn_rev, rev_involutive.
Qed.

Lemma sanitize_message_some m m' :
  sanitize_message m = Some m' →
  plain m' ∧ role m' = session_role m ∧ (role m' = "user" ∨ role m' = "assistant") ∧
  content m' = cap_chars MAX_MESSAGE_CHARS (trim (session_content m)) ∧ trim (session_content m) ≠ "".
Proof.
  unfold sanitize_message. case_bool_decide as Hr; [done|].
  destruct (str_is_empty (trim (session_content m))) eqn:He; [done|]. intros [= <-]. simpl.
  assert (session_role m = "user" ∨ session_role m = "assistant") as Hr'.
  { destruct (decide (session_role m = "user")); [by left|].
    destruct (decide (session_role m = "assistant")); [by right|]. by destruct Hr. }
  split_and!; try done; [split; [|done]; simpl; destruct Hr' as [-> | ->]; done|].
  intros Ht. by rewrite Ht in He.
Qed.

Lemma sanitized_elem history m :
  m ∈ sanitize_session_history history →
  ∃ s, s ∈ unwrap_or history [] ∧ sanitize_message s = Some m.
Proof.
  rewrite sanitize_last. intros Hm. apply list_elem_of_omap.
  destruct (keep_last_suffix MAX_HISTORY_MESSAGES (omap sanitize_message (unwrap_or history [])))
    as [l ->]. set_solver.
Qed.

Lemma dedupe_cases history latest :
  dedupe_latest_user_message history latest = history ∨
  ∃ m, history = dedupe_latest_user_message history latest ++ [m] ∧
       role m = "user" ∧ content m = trim latest.
Proof.
  unfold dedupe_latest_user_message. destruct (last history) as [m|] eqn:Hl; [|by left].
  case_bool_decide as Hm; [right|by left]. exists m. split; [|done].
  apply last_Some in Hl as [l ->]. by rewrite removelast_last.
Qed.

Lemma dedupe_elem history latest m : m ∈ dedupe_latest_user_message history latest → m ∈ history.
Proof.
  intros Hm. destruct (dedupe_cases history latest) as [Heq|(m' & Heq & _)];
    [by rewrite Heq in Hm|]. rewrite Heq. set_solver.
Qed.

Lemma dedupe_length history latest :
  length (dedupe_latest_user_message history latest) ≤ length history.
Proof.
  destruct (dedupe_cases history latest) as [->|(m' & Heq & _)]; [done|].
  apply (f_equal length) in Heq. rewrite length_app in Heq. simpl in Heq. lia.
Qed.

Lemma contextual_shape system_prompt session latest :
  ∃ history,
    build_contextual_messages system_prompt session latest =
      new_message "system" system_prompt :: history ++ [new_message "user" latest] ∧
    length history ≤ MAX_HISTORY_MESSAGES ∧
    (keep_last MAX_HISTORY_MESSAGES (omap sanitize_message (unwrap_or session [])) = history ∨
     ∃ m, keep_last MAX_HISTORY_MESSAGES (omap sanitize_message (unwrap_or session [])) = history ++ [m]
          ∧ role m = "user" ∧ content m = trim latest) ∧
    ∀ m, m ∈ history → plain m ∧ (role m = "user" ∨ role m = "assistant") ∧
      ∃ s, s ∈ unwrap_or session [] ∧
        content m = cap_chars MAX_MESSAGE_CHARS (trim (session_content s)).
Proof.
  exists (dedupe_latest_user_message (sanitize_session_history session) latest).
  split; [done|]. split.
  - etransitivity; [apply dedupe_length|].
    rewrite sanitize_last, length_keep_last. apply Nat.le_min_l.
  - rewrite <- sanitize_last. split.
    + destruct (dedupe_cases (sanitize_session_history session) latest) as [Heq|?]; [by left|by right].
    + intros m Hm%dedupe_elem. apply sanitized_elem in Hm as (s & Hs & Hm).
      apply sanitize_message_some in Hm as (? & _ & ? & ? & _). eauto 6.
Qed.

(** A request built from the history of a session is the system prompt, then at
    most 24 of the latest acceptable messages, then the message of the user as it
    was typed; the messages between come from the history in its order, are of the
    user or the assistant, are the trimmed text cut to 4000 characters, and only a
    repetition of the new message is left out at the end. *)
Theorem contextual_messages system_prompt session latest :
  ∃ history,
    build_contextual_messages system_prompt session latest =
      new_message "system" system_prompt :: history ++ [new_message "user" latest] ∧
    length history ≤ MAX_HISTORY_MESSAGES ∧
    (keep_last MAX_HISTORY_MESSAGES (omap sanitize_message (unwrap_or session [])) = history ∨
     ∃ m, keep_last MAX_HISTORY_MESSAGES (omap sanitize_message (unwrap_or session [])) = history ++ [m]
          ∧ role m = "user" ∧ content m = trim latest) ∧
    ∀ m, m ∈ history → plain m ∧ (role m = "user" ∨ role m = "assistant") ∧
      ∃ s, s ∈ unwrap_or session [] ∧
        content m = cap_chars MAX_MESSAGE_CHARS (trim (session_content s)).
Proof. apply contextual_shape. Qed.

Lemma contextual_plain system_prompt session latest :
  Forall plain (build_contextual_messages system_prompt session latest).
Proof.
  destruct (contextual_shape system_prompt session latest) as (h & -> & _ & _ & Hh).
  apply Forall_cons. split; [done|]. apply Forall_app. split; [|by repeat constructor].
  apply Forall_forall. intros m Hm. by apply Hh.
Qed.

(** ** The budget of the recalled context *)

Definition bytes (l : list string) : nat := foldr (λ s n, String.length s + n) 0 l.

Lemma bytes_app l l' : bytes (l ++ l') = bytes l + bytes l'.
Proof. induction l as [|s l IH]; simpl; lia. Qed.

Lemma recent_layer_budget max total turns :
  total ≤ max →
  let '(context, total') := recent_layer max total turns in
  total' = total + bytes (map content context) ∧ total' ≤ max.
Proof.
  revert total. induction turns as [|t turns IH]; intros total Ht; simpl; [lia|].
  destruct (Nat.ltb_spec max (total + String.length (turn_content t))); simpl; [lia|].
  specialize (IH (total + String.length (turn_content t)) ltac:(lia)).
  destruct (recent_layer _ _ turns) as [context total']. simpl. lia.
Qed.

(** What the loops keep: the bytes used are those of the lines beyond the start,
    within the budget, and there are never more lines than the limit. *)
Definition within (limit max start : nat) (st : Recalled) : Prop :=
  used st = start + bytes (found_lines st) ∧ used st ≤ max ∧
  length (found_lines st) ≤ Nat.max 1 limit.

Lemma recall_items_within limit max start items st :
  within limit max start st → length (found_lines st) < Nat.max 1 limit →
  within limit max start (recall_items limit max items st).
Proof.
  revert st. induction items as [|[id line] items IH]; intros st Hst Hl; [done|].
  cbn [recall_items]. case_bool_decide; [by apply IH|].
  destruct Hst as (Hu & Hm & _).
  destruct (Nat.ltb_spec max (used st + String.length line)).
  { split_and!; simpl; [done|done|lia]. }
  set (st' := mkRecalled _ _ _).
  assert (within limit max start st') as Hst'.
  { subst st'. unfold within. simpl. rewrite bytes_app, length_app. simpl. lia. }
  destruct (Nat.leb_spec limit (length (found_lines st'))); [done|]. apply IH; [done|lia].
Qed.

Lemma recall_layer_within limit max start search queries st :
  within limit max start st → length (found_lines st) < Nat.max 1 limit →
  within limit max start (recall_layer limit max search queries st).
Proof.
  revert st. induction queries as [|q queries IH]; intros st Hst Hl; [done|].
  cbn [recall_layer]. set (st' := match search q with Some _ => _ | None => _ end).
  assert (within limit max start st') as Hst'.
  { subst st'. destruct (search q); [by apply recall_items_within|done]. }
  destruct (Nat.leb_spec limit (length (found_lines st'))); [done|]. apply IH; [done|lia].
Qed.

Lemma run_layer_within budget search queries total lines total' :
  total ≤ max_total_chars budget → run_layer budget search queries total = (lines, total') →
  total' = total + bytes lines ∧ total' ≤ max_total_chars budget ∧
  length lines ≤ Nat.max 1 (memory_search_limit budget).
Proof.
  unfold run_layer. intros Ht.
  destruct (Nat.ltb_spec total (max_total_chars budget)); intros [= <- <-]; [|simpl; lia].
  apply recall_layer_within; [|simpl; lia]. unfold within. simpl. lia.
Qed.

Lemma length_join_nl l :
  String.length (RustStr.join nl l) = bytes l + (length l - 1).
Proof.
  induction l as [|s [|s' l] IH]; [done|simpl; lia|].
  change (RustStr.join nl (s :: s' :: l)) with (s +:+ nl +:+ RustStr.join nl (s' :: l)).
  rewrite !str_length_app, IH. simpl. lia.
Qed.

Lemma section_bytes title lines :
  bytes (section_of title lines) ≤ String.length title + 2 + bytes lines + (length lines - 1).
Proof.
  destruct lines as [|s l]; [simpl; lia|]. unfold section_of, bytes at 1. cbn [foldr].
  rewrite !str_length_app, length_join_nl. simpl String.length. lia.
Qed.

Lemma length_section title lines : length (section_of title lines) ≤ 1.
Proof. destruct lines; simpl; lia. Qed.

Lemma length_join_blank l :
  length l ≤ 2 → String.length (RustStr.join (nl +:+ nl) l) ≤ bytes l + 2.
Proof.
  destruct l as [|a [|b [|c l]]]; simpl; intros; [lia|lia| |lia].
  rewrite !str_length_app. simpl. lia.
Qed.

(** The recalled context stays within its budget: the bytes of its messages are
    at most [max_total_chars], and besides only the two headings and the newlines
    between the lines. *)
Theorem memory_context_budget alphanumeric lower store session_id user_message budget :
  bytes (map content (build_memory_context alphanumeric lower store session_id user_message budget))
  ≤ max_total_chars budget + 54 + 2 * Nat.max 1 (memory_search_limit budget).
Proof.
  unfold build_memory_context. cbn zeta.
  pose proof (recent_layer_budget (max_total_chars budget) 0
    (unwrap_or (recent_turns store session_id (recent_turns_limit budget)) []) ltac:(lia)) as H0.
  destruct (recent_layer _ _ _) as [context total]. destruct H0 as [Hc Ht].
  destruct (run_layer budget (turn_items _ _ _) _ total) as [l1 t1] eqn:E1.
  apply run_layer_within in E1 as (H1 & Ht1 & Hl1); [|done].
  destruct (run_layer budget (memory_items _ _) _ t1) as [l2 t2] eqn:E2.
  apply run_layer_within in E2 as (H2 & Ht2 & Hl2); [|done].
  set (sections := section_of _ l1 ++ section_of _ l2).
  assert (bytes sections ≤ 54 + bytes l1 + (length l1 - 1) + bytes l2 + (length l2 - 1)) as Hs.
  { subst sections. rewrite bytes_app. etransitivity; [apply Nat.add_le_mono; apply section_bytes|].
    simpl String.length. lia. }
  assert (length sections ≤ 2) as Hn.
  { subst sections. rewrite length_app.
    pose proof (length_section "## Recalled Prior Conversation" l1).
    pose proof (length_section "## Recalled Memories" l2). lia. }
  destruct sections as [|a sections'] eqn:Es; [lia|].
  cbn [map]. unfold bytes at 1. cbn [foldr]. fold (bytes (map content context)).
  change (content (new_message _ ?c)) with c.
  pose proof (length_join_blank (a :: sections') Hn). lia.
Qed.

(** The turns are walked from the oldest: when one is too long, it and the newer
    ones are left out, the last answer included. *)
Theorem long_turn_hides_newer :
  let turn id text := mkTurn id "s" "user" text "2026-01-01" in
  (recent_layer 10 0 [turn "1" "old"; turn "2" "a very long turn"; turn "3" "new"]).1
    = [new_message "user" "old"].
Proof. reflexivity. Qed.

(** A history sent with the request replaces the recent turns, but their bytes
    still count: here they leave no room for what the memory would recall. *)
Definition crowded_store : MemoryStore :=
  mkStore (λ _ _, Some [mkTurn "1" "s" "user" "0123456789" "2026-01-01"]) (λ _ _, None)
    (λ _ _, Some [mkMemory "m" "key" Distilled "2026-01-01"]).

Theorem replaced_turns_use_the_budget :
  let messages turns limit :=
    build_contextual_messages_with_memory (λ _, true) (λ s, s)
      (mkStore (λ _ _, turns) (λ _ _, None) (search_memories crowded_store))
      "s" "prompt" (Some [mkSession "assistant" "hello"]) "where is the key" (mkBudget 5 3 limit) in
  map role (messages (recent_turns crowded_store "s" 5) 45) = ["system"; "assistant"; "user"] ∧
  map role (messages None 45) = ["system"; "system"; "assistant"; "user"].
Proof. split; vm_compute; reflexivity. Qed.

(** ** Qualified names *)

Lemma split_colons q a b :
  split_once q "::" = Some (a, b) ↔ q = a +:+ "::" +:+ b ∧ contains (a +:+ ":") "::" = false.
Proof.
  revert a. induction q as [|c q IH]; intros a.
  - split; [done|]. intros [H _]. destruct a; done.
  - cbn [split_once]. destruct (RustStr.strip_prefix (String c q) "::") as [rest|] eqn:E.
    + apply strip_prefix_Some in E. rewrite E. split.
      * by intros [= <- <-].
      * intros [H Hc]. destruct a as [|d a]; [rewrite !str_app_nil_l in H; by simplify_eq|].
        exfalso. rewrite !str_app_cons in *. rewrite contains_eq in Hc.
        apply orb_false_iff in Hc as [Hc _].
        assert (starts_with (String d (a +:+ ":")) "::" = true) as Hs; [|congruence].
        injection H as <- H. apply starts_with_iff.
        destruct a as [|e a]; [by exists ""|]. rewrite str_app_cons in *.
        injection H as <- H. by exists (a +:+ ":").
    + assert (starts_with (String c q) "::" = false) as Hs.
      { destruct (starts_with (String c q) "::") eqn:Es; [|done].
        apply starts_with_iff in Es as [t Ht]. apply strip_prefix_Some in Ht. congruence. }
      destruct a as [|d a].
      { split.
        - destruct (split_once q "::") as [[a' b']|]; intros; by simplify_eq.
        - intros [H _]. exfalso. rewrite H in Hs. assert (starts_with (""+:+"::"+:+b) "::" = true)
            by (apply starts_with_iff; by exists b). congruence. }
      transitivity (c = d ∧ split_once q "::" = Some (a, b)).
      { destruct (split_once q "::") as [[a' b']|]; naive_solver. }
      rewrite IH. rewrite !str_app_cons. split.
      * intros (-> & -> & Hc). split; [done|]. rewrite contains_eq, Hc, orb_false_r.
        destruct (starts_with (String d (a +:+ ":")) "::") eqn:E2; [|done]. exfalso.
        apply starts_with_iff in E2 as [t Ht]. rewrite !str_app_cons in Ht.
        injection Ht as -> Ht. apply not_true_iff_false in Hs. apply Hs, starts_with_iff.
        destruct a as [|e a]; [by exists (":" +:+ b)|].
        rewrite str_app_cons in *. injection Ht as -> Ht.
        by exists (a +:+ String ":" (String ":" b)).
      * intros [H Hc]. injection H as -> ->. split_and!; [done..|].
        rewrite contains_eq in Hc. by apply orb_false_iff in Hc as [_ Hc].
Qed.

(** Splitting a qualified tool name inverts qualifying it: it gives a skill and a
    tool, neither empty, exactly when the name is theirs, joined by two colons, and
    no two colons come earlier. *)
Theorem split_qualified_iff q skill tool :
  split_qualified_tool_name q = Some (skill, tool) ↔
  q = skill +:+ "::" +:+ tool ∧ skill ≠ "" ∧ tool ≠ "" ∧ contains (skill +:+ ":") "::" = false.
Proof.
  unfold split_qualified_tool_name.
  transitivity (split_once q "::" = Some (skill, tool) ∧ skill ≠ "" ∧ tool ≠ "").
  - destruct (split_once q "::") as [[a b]|]; [|naive_solver].
    destruct a, b; simpl; naive_solver.
  - rewrite split_colons. tauto.
Qed.

(** ** Advertised tools *)

Section advertised.
Context {Key Sig : Type}.
Context (b64_decode : string → result string string).
Context (sig_from_slice : string → result Sig string) (verify : Key → string → Sig → bool).
Context (fs : Sandbox.FileSystem).
Context (env : nat → CallEnv (Params:=ToolParams) (Output:=ToolOutput)).
Context (parameters : ToolDescriptor → Value) `{JsonText}.
Notation Registry := (SkillRegistry (Key:=Key) (Params:=ToolParams) (Output:=ToolOutput)).
Implicit Types (r : Registry).

Lemma find_unique (s : Skill (Params:=ToolParams) (Output:=ToolOutput)) t :
  t ∈ SkillExecutor.tools s → NoDup (map name (SkillExecutor.tools s)) → find_tool (name t) s = Some t.
Proof.
  unfold find_tool. induction (SkillExecutor.tools s) as [|x l IH]; intros Ht Hn.
  - by apply not_elem_of_nil in Ht.
  - apply NoDup_cons in Hn as [Hx Hn]. rewrite filter_cons. apply elem_of_cons in Ht as [->|Ht].
    + by rewrite decide_True.
    + rewrite decide_False; [by apply IH|]. intros Heq. apply Hx. rewrite Heq.
      apply list_elem_of_map. eauto.
Qed.

(** The chat offers the model no tool it may not use: a call of an advertised
    tool, made by its advertised name with well-formed arguments, reaches the tool
    without a confirmation, as soon as the policy lets the skill run, its
    permissions pass and the limiter is open. *)
Theorem advertised_tool_runs r m s t td tc params job w i :
  skills r !! manifest_id m = Some s → t ∈ SkillExecutor.tools s →
  NoDup (map name (SkillExecutor.tools s)) →
  tool_definition parameters r m t = Some td →
  manifest_id m ≠ "" → name t ≠ "" → contains (manifest_id m +:+ ":") "::" = false →
  call_name tc = def_name td →
  parse_arguments (manifest_id m) (name t) (Cognitive.arguments tc) = Ok params →
  evaluate_execution b64_decode sig_from_slice verify (execution_policy r) (manifest_id m) = Ok tt →
  gate_passes fs (required_permissions t) (permissions (manifest s)) = true →
  limiter_open (env i) = true →
  invocations (execute_single_tool_call (H0 := executor_host b64_decode sig_from_slice verify fs env r)
                 tc job (w, i)).1.1 =
    invocations w ++ [(manifest_id m, name t, params, call_context (env i) job)].
Proof.
  intros Hs Ht Hn Htd Hm1 Hm2 Hm3 Hc Hp He Hg Hl. unfold tool_definition in Htd.
  destruct (requires_mentor_confirmation _ _ _) eqn:Hr; [done|]. case_bool_decide; simplify_eq/=.
  unfold execute_single_tool_call.
  rewrite (proj2 (split_qualified_iff _ (manifest_id m) (name t))) by (by rewrite Hc).
  rewrite Hp. unfold execute_tool_in_job, executor_host.
  destruct (execute_in_job_context _ _ _ _ _ _ _ _ _ _ _) as [w' o] eqn:E.
  apply execute_full_cases in E as [(_ & Hi & _)|(Hna & _)]; [by destruct o|].
  exfalso. apply Hna. exists s, t. split_and!; try done; [by apply find_unique|].
  by rewrite Hr.
Qed.
End advertised.

(** ** Witnesses *)

(** JSON texts that are a member name and its value. *)
Definition toy_json : JsonText := {|
  from_str s := if str_is_empty s then Err "EOF" else Ok (Obj [("text", Str s)]);
  to_string v := match v with Obj ((k, Str s) :: _) => k +:+ "=" +:+ s | _ => "other" end;
|}.

Definition chat_skill : Skill (Params:=ToolParams) (Output:=ToolOutput) :=
  mkSkill (mkManifest "acme.mail" "Mail" [] [] []) [Toy.tool "send"; Toy.tool "delete_mail"]
    (λ _ _ _, Completed (mkToolOutput true None None None) true).

Definition chat_registry : SkillRegistry (Key:=string) (Params:=ToolParams) (Output:=ToolOutput) :=
  mkRegistry (<["acme.mail" := chat_skill]> ∅) None Toy.policy.

Definition chat_env (_ : nat) : CallEnv (Params:=ToolParams) (Output:=ToolOutput) :=
  mkCallEnv true 30000 true "req" 5 (λ _, "{}") (λ _ o, o).

Definition object_schema (_ : ToolDescriptor) : Value := Obj [("type", Str "object")].

Lemma advertised_tool_runs_witness :
  map def_name (build_tool_definitions object_schema chat_registry) = ["acme.mail::send"] ∧
  invocations (execute_single_tool_call (H := toy_json)
    (H0 := executor_host Toy.b64 Toy.b64 Toy.sign Toy.fs chat_env chat_registry)
    (mkToolCall "1" "acme.mail::send" "hello") None (mkWorld [] [], 0)).1.1 =
    [("acme.mail", "send", {["text" := Str "hello"]}, mkExecutionContext "req" None None None)].
Proof.
  split; [vm_compute; reflexivity|].
  rewrite (advertised_tool_runs Toy.b64 Toy.b64 Toy.sign Toy.fs chat_env object_schema chat_registry
    (manifest chat_skill) chat_skill (Toy.tool "send")
    (mkToolDefinition "acme.mail::send" "" (Obj [("type", Str "object")]))
    (mkToolCall "1" "acme.mail::send" "hello") {["text" := Str "hello"]});
    [reflexivity|reflexivity|by left|decide_closed|reflexivity|done|done|reflexivity|reflexivity
    |reflexivity|vm_compute; reflexivity|reflexivity|reflexivity].
Defined.
