(* ===== verification/ChatLoopSpec.v ===== *)
(** * The tool-use loops: correctness

    Every conversation a loop sends keeps the protocol of tool calling (each call
    of a message answered, in order, before anything else); the calls of providers
    are bounded; a streamed turn emits tokens and exactly one final event, when it
    succeeds; streaming changes nothing but the delivery; the budget of delegated
    and nested jobs. *)

From S2P Require Import Prelude RustStr JobTypes RecordStore JobQueue JobQueueFacts Json.
From S2P Require Import Paths SkillPolicy SkillExecutor Cognitive Router RouterSpec Chat JobTools ChatLoop ChatSpec.
From Stdlib Require Import ZArith Lia.
From stdpp Require Import base list sets strings gmap fin_maps pretty.

Open Scope rust_scope.

(** ** The protocol of tool calling *)

(** [pending]: the calls not answered yet.  A message with calls is followed by one
    tool message per call, in order, and there are no other tool messages. *)
Fixpoint protocol (pending : list ToolCall) (ms : list Message) : bool :=
  match pending, ms with
  | [], [] => true
  | _ :: _, [] => false
  | c :: pending, m :: ms =>
      bool_decide (role m = "tool") && bool_decide (tool_call_id m = Some (call_id c))
      && match tool_calls m with None => true | Some _ => false end
      && protocol pending ms
  | [], m :: ms =>
      negb (bool_decide (role m = "tool"))
      && match tool_calls m with
         | Some calls => bool_decide (role m = "assistant") && protocol calls ms
         | None => protocol [] ms
         end
  end.

Lemma protocol_app pending ms ms' :
  protocol pending ms = true → protocol [] ms' = true → protocol pending (ms ++ ms') = true.
Proof.
  intros H H'. revert pending H. induction ms as [|m ms IH]; intros [|c pending]; simpl; try done.
  - destruct (negb _); [|done]. simpl. destruct (tool_calls m) as [calls|]; [|apply IH].
    destruct (bool_decide _); [|done]. simpl. apply IH.
  - destruct (bool_decide _ && _ && _); [|done]. simpl. apply IH.
Qed.

Lemma protocol_plain ms : Forall plain ms → protocol [] ms = true.
Proof.
  induction 1 as [|m ms (Hr & _ & Ht) _ IH]; [done|]. simpl.
  by rewrite bool_decide_eq_false_2, Ht by done.
Qed.

Definition answers (calls : list ToolCall) (ms : list Message) : Prop :=
  Forall2 (λ c m, m = tool_result (call_id c) (content m)) calls ms.

Lemma protocol_answers calls ms : answers calls ms → protocol calls ms = true.
Proof.
  induction 1 as [|c m calls ms Hm _ IH]; [done|]. rewrite Hm. simpl.
  by rewrite bool_decide_eq_true_2.
Qed.

(** ** One round *)

Section loop.
Context {W H : Type}.
Context (uuid : nat → string) (clock : nat → nat → string).
Context (call : ToolCall → M H string (string * ToolCallRecord)).
Notation ChatState := (ChatState W H).
Implicit Types (s : ChatState).

(** At most [2 * k] calls of providers, each with messages that satisfy [P]. *)
Definition asks (k : nat) (P : list Message → Prop) s s' : Prop :=
  ∃ new, asked (net s') = asked (net s) ++ new ∧ length new ≤ 2 * k ∧
    Forall (λ q, P (messages q.2)) new.

Lemma asks_same k P s s' : asked (net s') = asked (net s) → asks k P s s'.
Proof. intros Ha. exists []. rewrite app_nil_r. split_and!; [done|simpl; lia|constructor]. Qed.

Lemma asks_trans k1 k2 P s1 s2 s3 : asks k1 P s1 s2 → asks k2 P s2 s3 → asks (k1 + k2) P s1 s3.
Proof.
  intros (l1 & H1 & Hl1 & HP1) (l2 & H2 & Hl2 & HP2). exists (l1 ++ l2).
  rewrite H2, H1, <- app_assoc, length_app. split_and!; [done|lia|by apply Forall_app].
Qed.

Lemma asks_weaken k1 k2 (P Q : list Message → Prop) s s' :
  k1 ≤ k2 → (∀ ms, P ms → Q ms) → asks k1 P s s' → asks k2 Q s s'.
Proof.
  intros Hk HPQ (l & Ha & Hl & HP). exists l. split_and!; [done|lia|].
  eapply Forall_impl; [done|]. simpl. auto.
Qed.

Lemma plan_length {V} (r : IdEgoRouter V W) forced : length (plan_of r forced) ≤ 2.
Proof. unfold plan_of. destruct (if forced then _ else _); simpl; lia. Qed.

Lemma send_spec request s s' o :
  send uuid clock request s = (s', o) →
  conversation s' = conversation s ∧ host s' = host s ∧
  asks 1 (λ ms, ms = req_messages (request (conversation s))) s s'.
Proof.
  unfold send. destruct (route_unified _ _ _ _) as [[r n] o'] eqn:E. intros [= <- <-].
  split; [done|]. split; [done|].
  apply route_unified_asked in E as (slots & Hp & Ha). eexists. split; [done|]. split.
  - rewrite length_map. apply prefix_length in Hp. rewrite length_map in Hp.
    pose proof (plan_length (router s) (force_id_only (request (conversation s)))). lia.
  - apply Forall_forall. intros q (slot & -> & _)%list_elem_of_map. done.
Qed.

Lemma run_calls_spec calls records s s' o :
  run_calls call calls records s = (s', o) →
  net s' = net s ∧ router s' = router s ∧
  match o with
  | Ok all => ∃ ms new, conversation s' = conversation s ++ ms ∧ answers calls ms ∧
                all = records ++ new ∧ length new = length calls
  | Err _ => conversation s `prefix_of` conversation s'
  end.
Proof.
  revert records s. induction calls as [|tc calls IH]; intros records s.
  - intros [= <- <-]. split_and!; [done..|]. exists [], []. rewrite !app_nil_r.
    split_and!; [done|constructor|done|done].
  - cbn [run_calls]. intros Hm. step_inv Hm.
    + unfold run_call in Hm0. destruct (call tc (host s)) as [h [[output record]|e]]; simplify_eq.
      apply IH in Hk as (Hn & Hr & Ho). split_and!; [done..|].
      destruct o as [all|e]; simpl in Ho.
      * destruct Ho as (ms & new & Hc & Ha & -> & Hl). exists (tool_result (call_id tc) output :: ms).
        exists (a :: new). rewrite Hc, <- !app_assoc. split_and!; [done| |done|simpl; lia].
        by constructor.
      * etransitivity; [by apply prefix_app_r|done].
    + unfold run_call in Hm0. destruct (call tc (host s)) as [h [[output record]|e']]; simplify_eq.
      done.
Qed.

Lemma answer_calls_spec response calls records s s' o :
  answer_calls call response calls records s = (s', o) →
  net s' = net s ∧ router s' = router s ∧ conversation s `prefix_of` conversation s' ∧
  match o with
  | Ok all =>
      (∃ new, all = records ++ new ∧ length new = length calls) ∧
      (protocol [] (conversation s) = true → protocol [] (conversation s') = true)
  | Err _ => True
  end.
Proof.
  unfold answer_calls. intros Hm. step_inv Hm; [|done].
  unfold push, modify in Hm0. simplify_eq. apply run_calls_spec in Hk as (Hn & Hr & Ho).
  split; [done|]. split; [done|]. destruct o as [all|e].
  - destruct Ho as (ms & new & Hc & Ha & -> & Hl). simpl in Hc. rewrite Hc, <- app_assoc.
    split; [by apply prefix_app_r|]. split; [by exists new|].
    intros Hp. apply protocol_app; [done|]. simpl. by apply protocol_answers.
  - split; [|done]. etransitivity; [by apply prefix_app_r|done].
Qed.

(** ** The loops *)

Definition conforms (ms : list Message) : Prop := protocol [] ms = true.

Lemma send_conforms request s s' o :
  (∀ ms, req_messages (request ms) = ms) → conforms (conversation s) →
  send uuid clock request s = (s', o) →
  conversation s' = conversation s ∧ asks 1 conforms s s'.
Proof.
  intros Hreq Hc (Hcs & _ & Ha)%send_spec. split; [done|]. rewrite Hreq in Ha.
  eapply asks_weaken; [| |done]; [lia|by intros ? ->].
Qed.

Lemma rounds_spec n request records last_trace s s' o :
  (∀ ms, req_messages (request ms) = ms) → conforms (conversation s) →
  rounds uuid clock call n request records last_trace s = (s', o) →
  asks n conforms s s' ∧ conversation s `prefix_of` conversation s' ∧
  match o with Ok _ => conforms (conversation s') | Err _ => True end.
Proof.
  intros Hreq. revert records last_trace s. induction n as [|n IH]; intros records last_trace s Hc.
  { intros [= <- <-]. split_and!; [by apply asks_same|done|done]. }
  cbn [rounds]. intros [(s0 & resp & Hm & Hk)|(e & Hm & ->)]%M_bind_inv;
    (apply send_conforms in Hm as (Hcs & Ha); [|done|done]).
  - destruct (requested (completion resp)) as [calls|].
    + apply M_bind_inv in Hk as [(s1 & records' & Hm1 & Hk1)|(e & Hm1 & ->)];
        apply answer_calls_spec in Hm1 as (Hn & _ & Hpre & Hp); rewrite Hcs in Hpre.
      * destruct Hp as [_ Hp]. rewrite Hcs in Hp. apply IH in Hk1 as (Ha2 & Hpre2 & Ho); [|by apply Hp].
        split_and!; [|by etransitivity|done]. apply (asks_trans 1 n _ s s1 s').
        -- destruct Ha as (new & Ha & ?). exists new. by rewrite Hn, Ha.
        -- done.
      * split_and!; [|done|done]. destruct Ha as (new & Ha & Hl & ?). exists new.
        rewrite Hn. split_and!; [done|lia|done].
    + unfold mret, M_ret in Hk. simplify_eq. rewrite Hcs. split_and!; [|done|done].
      eapply asks_weaken; [| |done]; [lia|done].
  - rewrite Hcs. split_and!; [|done|done]. eapply asks_weaken; [| |done]; [lia|done].
Qed.

(** ** The streaming loop *)

Definition tokens_only (events : list StreamEvent) : Prop := Forall (λ e, is_token e = true) events.

Lemma send_relayed_spec request s s' o :
  (∀ ms, req_messages (request ms) = ms) → conforms (conversation s) →
  send_relayed uuid clock request s = (s', o) →
  conversation s' = conversation s ∧ asks 1 conforms s s'.
Proof.
  intros Hreq Hc. unfold send_relayed.
  destruct (send uuid clock request _) as [s1 o1] eqn:E. intros [= <- <-].
  apply send_conforms in E as [Hcs Ha]; [|done|done]. split; [done|]. exact Ha.
Qed.

(** What a streamed turn sends: tokens, and the final reply when it succeeds. *)
Definition streamed s s' (o : result ToolUseResult string) : Prop :=
  ∃ tokens, tokens_only tokens ∧
    match o with
    | Ok u => ∃ response, channel (net s') = channel (net s) ++ tokens ++ [Done response] ∧
                requested response = None ∧ reply response = use_content u
    | Err _ => channel (net s') = channel (net s) ++ tokens
    end.

Lemma streamed_after s s1 s' o tokens :
  tokens_only tokens → channel (net s1) = channel (net s) ++ tokens → streamed s1 s' o →
  streamed s s' o.
Proof.
  intros Ht Hn (tokens' & Ht' & Ho). exists (tokens ++ tokens'). split; [by apply Forall_app|].
  rewrite Hn in Ho. destruct o as [u|e].
  - destruct Ho as (response & Hc & ? & ?). exists response. rewrite Hc, <- !app_assoc. done.
  - by rewrite Ho, <- app_assoc.
Qed.

Lemma send_relayed_tokens request s s' o :
  send_relayed uuid clock request s = (s', o) →
  ∃ tokens, tokens_only tokens ∧ channel (net s') = channel (net s) ++ tokens.
Proof.
  unfold send_relayed. destruct (send uuid clock request _) as [s1 o1] eqn:E. intros [= <- <-].
  eexists. split; [|done]. apply Forall_forall. intros e [He _]%list_elem_of_filter.
  by apply Is_true_true.
Qed.

Lemma stream_rounds_streamed n tools model_override records s s' o :
  stream_rounds uuid clock call n tools model_override records s = (s', o) → streamed s s' o.
Proof.
  revert records s. induction n as [|n IH]; intros records s;
    cbn [stream_rounds]; intros [(s0 & resp & Hm & Hk)|(e & Hm & ->)]%M_bind_inv;
    (apply send_relayed_tokens in Hm as (tokens & Ht & Hch)).
  1, 3: destruct (requested (completion resp)) as [calls|] eqn:Hr.
  - unfold fail in Hk. simplify_eq. by exists tokens.
  - unfold emit, modify, mbind, M_bind, mret, M_ret in Hk. simplify_eq.
    exists tokens. split; [done|]. exists (completion resp). simpl. by rewrite Hch, <- app_assoc.
  - apply M_bind_inv in Hk as [(s1 & records' & Hm1 & Hk1)|(e & Hm1 & ->)];
      apply answer_calls_spec in Hm1 as (Hn & _ & _ & _).
    + apply IH in Hk1. eapply streamed_after; [done|by rewrite Hn|done].
    + exists tokens. by rewrite Hn.
  - unfold emit, modify, mbind, M_bind, mret, M_ret in Hk. simplify_eq.
    exists tokens. split; [done|]. exists (completion resp). simpl. by rewrite Hch, <- app_assoc.
  - by exists tokens.
  - by exists tokens.
Qed.

Lemma stream_rounds_spec n tools model_override records s s' o :
  conforms (conversation s) →
  stream_rounds uuid clock call n tools model_override records s = (s', o) → asks (S n) conforms s s'.
Proof.
  revert records s. induction n as [|n IH]; intros records s Hc;
    cbn [stream_rounds]; intros [(s0 & resp & Hm & Hk)|(e & Hm & ->)]%M_bind_inv;
    (apply send_relayed_spec in Hm as (Hcs & Ha); [|done|done]).
  1, 3: destruct (requested (completion resp)) as [calls|] eqn:Hr.
  - unfold fail in Hk. by simplify_eq.
  - unfold emit, modify, mbind, M_bind, mret, M_ret in Hk. by simplify_eq.
  - apply M_bind_inv in Hk as [(s1 & records' & Hm1 & Hk1)|(e & Hm1 & ->)];
      apply answer_calls_spec in Hm1 as (Hn & _ & _ & Hp).
    + destruct Hp as [_ Hp]. rewrite Hcs in Hp. apply IH in Hk1; [|by apply Hp].
      apply (asks_trans 1 (S n) _ s s1 s'); [|done]. unfold asks in *. by rewrite Hn.
    + eapply (asks_weaken 1 _ conforms conforms); [lia|done|]. unfold asks in *. by rewrite Hn.
  - unfold emit, modify, mbind, M_bind, mret, M_ret in Hk. simplify_eq.
    eapply (asks_weaken 1 _ conforms conforms); [lia|done|exact Ha].
  - done.
  - eapply (asks_weaken 1 _ conforms conforms); [lia|done|exact Ha].
Qed.

(** ** Theorems *)

(** C37: every conversation a turn sends keeps the protocol of tool calling, if the
    one it starts from does: in each request of each loop, a message of the
    assistant with calls is followed by exactly one tool message for each of its
    calls, in their order and with their ids, and there are no other tool
    messages. *)
Theorem requests_keep_the_protocol capped messages tools model_override s :
  conforms messages →
  asks MAX_TOOL_ROUNDS conforms s
    (tool_use_loop uuid clock call capped messages tools model_override s).1 ∧
  asks (S MAX_TOOL_ROUNDS) conforms s
    (stream_chat_pipeline uuid clock call messages tools model_override s).1 ∧
  (conversation s = messages →
   let '(s', o) := run_tool_use_loop_rounds_only uuid clock call tools model_override s in
   asks MAX_TOOL_ROUNDS conforms s s' ∧ messages `prefix_of` conversation s' ∧
   match o with Ok _ => conforms (conversation s') | Err _ => True end).
Proof.
  intros Hc. split_and!.
  - destruct (tool_use_loop _ _ _ _ _ _ _ s) as [s' o] eqn:E.
    unfold tool_use_loop, on_messages in E. set (s1 := mkChat _ _ _ _) in E.
    change (asks MAX_TOOL_ROUNDS conforms s1 s').
    apply M_bind_inv in E as [(s2 & [[text records] t] & Hm & Hk)|(e & Hm & _)];
      apply rounds_spec in Hm as (Ha & _); [|done|done| |done|done]; [|done].
    unfold mret, M_ret in Hk. by simplify_eq.
  - unfold stream_chat_pipeline, on_messages. set (s1 := mkChat _ _ _ _).
    destruct (stream_rounds _ _ _ _ _ _ _ s1) as [s' o] eqn:E.
    by apply stream_rounds_spec in E .
  - intros <-. destruct (run_tool_use_loop_rounds_only _ _ _ _ _ s) as [s' o] eqn:E.
    unfold run_tool_use_loop_rounds_only in E.
    apply M_bind_inv in E as [(s2 & [[text records] t] & Hm & Hk)|(e & Hm & ->)];
      apply rounds_spec in Hm as (Ha & Hp & Ho); [|done|done| |done|done].
    + unfold mret, M_ret in Hk. by simplify_eq.
    + done.
Qed.

(** A streamed turn sends tokens and then, exactly when it succeeds, one final
    event: the reply it returns, which asks for no tool. *)
Theorem stream_ends_with_done messages tools model_override s :
  let '(s', o) := stream_chat_pipeline uuid clock call messages tools model_override s in
  streamed s s' o.
Proof.
  unfold stream_chat_pipeline, on_messages.
  destruct (stream_rounds _ _ _ _ _ _ _ _) as [s' o] eqn:E.
  by apply stream_rounds_streamed in E.
Qed.
End loop.

(** ** Streaming and not streaming *)

Section agreement.
Context {W H : Type}.
Context (uuid : nat → string) (clock : nat → nat → string).
Context (call : ToolCall → M H string (string * ToolCallRecord)).
Notation ChatState := (ChatState W H).
Notation Net := (Net Value W).
Implicit Types (s : ChatState) (n : Net).

(** Streaming does to the outside, and answers, what completing does. *)
Definition faithful (p : LlmProvider Value W) : Prop :=
  ∀ request w, (stream p request w).1.1 = (complete p request w).1 ∧
               (stream p request w).2 = (complete p request w).2.

Definition faithful_router (r : IdEgoRouter Value W) : Prop :=
  faithful (id_ r) ∧ match ego r with Some p => faithful p | None => True end.

(** The same, up to the events sent. *)
Definition net_agree n n' : Prop := outside n = outside n' ∧ asked n = asked n'.

Definition agree s s' : Prop :=
  router s = router s' ∧ net_agree (net s) (net s') ∧ host s = host s' ∧
  conversation s = conversation s'.

Lemma ask_agree slot p request n n' :
  faithful p → net_agree n n' →
  net_agree (ask slot p true request n).1 (ask slot p false request n').1 ∧
  (ask slot p true request n).2 = (ask slot p false request n').2.
Proof.
  intros Hp [Ho Ha]. unfold ask. rewrite Ho, Ha. destruct (Hp request (outside n')) as [H1 H2].
  destruct (stream p request (outside n')) as [[w events] o].
  destruct (complete p request (outside n')) as [w' o']. simpl in *. by subst.
Qed.

Lemma traced_plan_agree (ticks : nat → string) r forced model request n n' t :
  faithful_router r → net_agree n n' →
  let '((m, t1), o) := traced_plan ticks r forced model true request n t in
  let '((m', t2), o') := traced_plan ticks r forced model false request n' t in
  net_agree m m' ∧ t1 = t2 ∧ o = o'.
Proof.
  intros [Hid Hego] Hn. unfold traced_plan.
  destruct (if forced then None else ego r) as [p|] eqn:E.
  - assert (faithful p) as Hp by (destruct forced; [done|by rewrite E in Hego]).
    destruct (ask_agree Ego p request n n' Hp Hn) as [H1 H2].
    destruct (ask Ego p true request n) as [n1 o1], (ask Ego p false request n') as [n1' o1'].
    cbn [fst snd] in *. subst o1'. destruct o1 as [response|e]; [done|].
    destruct (ask_agree Id (id_ r) request n1 n1' Hid H1) as [H3 H4].
    destruct (ask Id (id_ r) true request n1) as [n2 o2], (ask Id (id_ r) false request n1') as [n2' o2'].
    cbn [fst snd] in *. by subst.
  - destruct (ask_agree Id (id_ r) request n n' Hid Hn) as [H1 H2].
    destruct (ask Id (id_ r) true request n) as [n1 o1], (ask Id (id_ r) false request n') as [n1' o1'].
    cbn [fst snd] in *. by subst.
Qed.

Lemma record_health_keeps (t : Trace.ExecutionTrace) (r : IdEgoRouter Value W) :
  id_ (record_health_from_trace t r) = id_ r ∧ ego (record_health_from_trace t r) = ego r.
Proof.
  unfold record_health_from_trace. generalize (Trace.steps t). intros l. revert r.
  induction l as [|st l IH]; intros r; [done|]. cbn [foldl].
  destruct (IH (record_health (health_of_step t st) r)) as [-> ->]. done.
Qed.

Lemma send_agree tools model_override s s' :
  tools ≠ [] → faithful_router (router s) → agree s s' →
  let '(s1, o) := send_relayed uuid clock (stream_request tools model_override false) s in
  let '(s1', o') := send uuid clock (inline_request tools model_override) s' in
  agree s1 s1' ∧ o = o' ∧ faithful_router (router s1).
Proof.
  intros Ht Hf (Hr & [Ho Ha] & Hh & Hc). unfold send_relayed, send.
  cbn [router net host conversation asked outside].
  rewrite !route_unified_plan, <- Hr, <- Hc, <- Ha.
  assert (∀ messages, stream_request tools model_override false messages =
    mkRouting messages (Some tools) model_override true false) as Hs.
  { intros messages. unfold stream_request. by rewrite bool_decide_eq_false_2. }
  rewrite Hs. unfold inline_request. cbn [req_streams force_id_only].
  change (request_of (router s) (mkRouting (conversation s) (Some tools) model_override true false))
    with (request_of (router s) (mkRouting (conversation s) (Some tools) model_override false false)).
  set (request := request_of _ _). set (t := begin_trace _ _ _ _).
  pose proof (traced_plan_agree (clock (length (asked (net s)))) (router s) false
    (Cognitive.model_override request) request (mkNet (outside (net s)) (asked (net s)) []) (net s') t Hf) as Hp.
  cbn [asked] in *.
  destruct (traced_plan _ _ _ _ true _ _ _) as [[m1 t1] o1].
  destruct (traced_plan _ _ _ _ false _ _ _) as [[m2 t2] o2].
  destruct Hp as ([Ho1 Ha1] & <- & <-); [by split|]. simpl.
  split; [|split; [done|]].
  - split_and!; done.
  - destruct (record_health_keeps t1 (router s)) as [H1 H2]. unfold faithful_router.
    by rewrite H1, H2.
Qed.

Lemma run_calls_agree calls records s s' :
  agree s s' →
  agree (run_calls call calls records s).1 (run_calls call calls records s').1 ∧
  (run_calls call calls records s).2 = (run_calls call calls records s').2.
Proof.
  revert records s s'. induction calls as [|tc calls IH]; intros records s s' Ha; [done|].
  cbn [run_calls]. unfold mbind, M_bind, run_call.
  destruct Ha as (Hr & Hn & Hh & Hc). rewrite <- Hh, <- Hc.
  destruct (call tc (host s)) as [h [[output record]|e]]; [|done]. apply IH. by split_and!.
Qed.

Lemma answer_calls_agree response calls records s s' :
  agree s s' →
  agree (answer_calls call response calls records s).1 (answer_calls call response calls records s').1 ∧
  (answer_calls call response calls records s).2 = (answer_calls call response calls records s').2.
Proof.
  intros (Hr & Hn & Hh & Hc). unfold answer_calls, mbind, M_bind, push, modify.
  apply run_calls_agree. split_and!; [done|apply Hn..|done|]. simpl. by rewrite Hc.
Qed.

Lemma answer_calls_router response calls records s :
  router (answer_calls call response calls records s).1 = router s.
Proof.
  destruct (answer_calls call response calls records s) as [s' o] eqn:E.
  by apply answer_calls_spec in E as (_ & ? & _).
Qed.

(** The outcome of the inline rounds, as that of a stream. *)
Definition same_outcome
    (o : result (option string * list ToolCallRecord * option Trace.ExecutionTrace) string)
    (o' : result ToolUseResult string) : Prop :=
  match o with
  | Ok (Some text, records, t) => o' = Ok (mkToolUse text records t)
  | Ok (None, _, _) => True
  | Err e => o' = Err e
  end.

Lemma rounds_agree (k : nat) tools model_override records last_trace s s' :
  tools ≠ [] → faithful_router (router s) → agree s s' →
  let '(s1', o) := rounds uuid clock call k (inline_request tools model_override) records last_trace s' in
  let '(s1, o') := stream_rounds uuid clock call k tools model_override records s in
  match o with Ok (None, _, _) => True | _ => agree s1 s1' ∧ same_outcome o o' end.
Proof.
  intros Ht. revert records last_trace s s'. induction k as [|k IH]; intros records last_trace s s' Hf Ha.
  { cbn [rounds]. unfold mret, M_ret. by destruct (stream_rounds _ _ _ _ _ _ _ s). }
  cbn [rounds stream_rounds Nat.eqb]. rewrite !M_bind_eq.
  pose proof (send_agree tools model_override s s' Ht Hf Ha) as Hsend.
  destruct (send_relayed uuid clock _ s) as [s1 o1].
  destruct (send uuid clock _ s') as [s1' o1'].
  destruct Hsend as (Ha1 & <- & Hf1). destruct o1 as [resp|e]; [|by cbn; split].
  destruct (requested (completion resp)) as [calls|].
  - rewrite !M_bind_eq.
    pose proof (answer_calls_agree (completion resp) calls records s1 s1' Ha1) as [Ha2 Ho2].
    pose proof (answer_calls_router (completion resp) calls records s1) as Hr2.
    destruct (answer_calls call _ calls records s1) as [s2 o2].
    destruct (answer_calls call _ calls records s1') as [s2' o2'].
    cbn [fst snd] in *. subst o2'. destruct o2 as [records'|e]; [|by cbn; split].
    apply IH; [by rewrite Hr2|done].
  - unfold emit, modify, mbind, M_bind, mret, M_ret. cbn. split; [|done].
    destruct Ha1 as (? & [? ?] & ? & ?). by split_and!.
Qed.

(** C39: with providers whose streaming answers what their completion answers, a turn
    with tools that is streamed makes the same calls of providers and tools, leaves
    the same conversation and returns the same result or error as one that is not,
    unless it runs out of rounds: only the events differ. *)
Theorem streaming_agrees capped messages tools model_override s s' :
  tools ≠ [] → faithful_router (router s) → agree s s' →
  let '(s1', o) := tool_use_loop uuid clock call capped messages tools model_override s' in
  let '(s1, o') := stream_chat_pipeline uuid clock call messages tools model_override s in
  (∀ records t,
     (rounds uuid clock call MAX_TOOL_ROUNDS (inline_request tools model_override) [] None
        (mkChat (router s') (net s') (host s') messages)).2 ≠ Ok (None, records, t)) →
  agree s1 s1' ∧ o = o'.
Proof.
  intros Ht Hf (Hr & Hn & Hh & _). unfold tool_use_loop, stream_chat_pipeline, on_messages.
  pose proof (rounds_agree MAX_TOOL_ROUNDS tools model_override [] None
    (mkChat (router s) (net s) (host s) messages) (mkChat (router s') (net s') (host s') messages)
    Ht Hf) as H0.
  rewrite M_bind_eq.
  destruct (rounds _ _ _ _ _ _ _ _) as [s1' o].
  destruct (stream_rounds _ _ _ _ _ _ _ _) as [s1 o'].
  specialize (H0 ltac:(by split_and!)). cbn [snd].
  destruct o as [[[[txt|] records] t]|e]; unfold mret, M_ret; intros Hne; simpl in *;
    [|by destruct (Hne records t)|]; by destruct H0 as [? ->].
Qed.
End agreement.

(** ** Witnesses *)

Module ChatDemo.

(** The first call asks for a tool, the others answer; the outside counts the calls. *)
Definition complete_ (request : CompletionRequest Value) (w : nat)
  : nat * result CompletionResponse string :=
  (S w, Ok (if w =? 0 then mkResponse "" (Some [mkToolCall "c1" "acme.mail::send" "hello"])
            else mkResponse "sent" None)).
Definition provider : LlmProvider Value nat := mkProvider complete_ (default_stream complete_).

Definition router : IdEgoRouter Value nat :=
  mkRouter provider (Some provider) (Some OpenAi) None EgoPrimary None [].

Definition clock (i j : nat) : string := pretty j.

(** A tool that counts its calls. *)
Definition call (tc : ToolCall) : M nat string (string * ToolCallRecord) := λ h,
  (S h, Ok ("done", mkRecord "acme.mail" "send" true)).

Definition start : ChatState nat nat := mkChat router (mkNet 0 [] []) 0 [].
Definition messages : list Message := build_contextual_messages "prompt" None "mail it".
Definition tools : list (ToolDefinition Value) := [mkToolDefinition "acme.mail::send" "" Null].

Definition finish : ChatState nat nat :=
  (tool_use_loop pretty clock call "" messages tools None start).1.
Definition streamed_turn : ChatState nat nat * result ToolUseResult string :=
  stream_chat_pipeline pretty clock call messages tools None start.

Lemma faithful_demo : faithful_router router.
Proof. repeat split. Qed.

Lemma messages_conform : conforms messages.
Proof. apply protocol_plain, contextual_plain. Qed.

End ChatDemo.

Lemma requests_keep_the_protocol_witness :
  asks MAX_TOOL_ROUNDS conforms ChatDemo.start ChatDemo.finish ∧
  length (asked (net ChatDemo.finish)) = 2 ∧
  map role (conversation ChatDemo.finish) = ["system"; "user"; "assistant"; "tool"].
Proof.
  split; [|split; vm_compute; reflexivity].
  exact (proj1 (requests_keep_the_protocol pretty ChatDemo.clock ChatDemo.call "" ChatDemo.messages
    ChatDemo.tools None ChatDemo.start ChatDemo.messages_conform)).
Defined.

Lemma streaming_agrees_witness : agree ChatDemo.streamed_turn.1 ChatDemo.finish.
Proof.
  pose proof (streaming_agrees pretty ChatDemo.clock ChatDemo.call "" ChatDemo.messages ChatDemo.tools
    None ChatDemo.start ChatDemo.start ltac:(done) ChatDemo.faithful_demo ltac:(by repeat split)) as Ha.
  unfold ChatDemo.finish, ChatDemo.streamed_turn.
  destruct (tool_use_loop pretty ChatDemo.clock ChatDemo.call "" ChatDemo.messages ChatDemo.tools None
    ChatDemo.start) as [s1 o1].
  destruct (stream_chat_pipeline pretty ChatDemo.clock ChatDemo.call ChatDemo.messages ChatDemo.tools
    None ChatDemo.start) as [s2 o2].
  apply Ha. intros records t. vm_compute. done.
Defined.
