(* ===== verification/PipelineSpec.v ===== *)
(** * The chat pipeline: correctness
    The daemon with its running turns as a transition system: the chat handlers,
    the stages on the messages of the bus, in any order, and the other users of the
    memory.  What the handlers are sent, what is kept in the memory, what stays on
    this machine. *)

From S2P Require Import Prelude RustStr RecordStore JobTypes Ledger Outbox ControlPlane Bus.
From S2P Require Import SecureFs Vault VaultSpec Superego GateSpec Protected.
From S2P Require Import Json Paths SkillPolicy SkillExecutor Instructions Cognitive Router RouterSpec Chat.
From S2P Require Import Prompts JobTools ChatLoop ChatSpec ChatLoopSpec Pipeline.
From S2P Require Import MemStore MemSpec SkillSpec.
From Stdlib Require Import ZArith Lia Ascii.
From stdpp Require Import base list sorting strings gmap fin_sets relations pretty.

Open Scope rust_scope.

Section pipeline.
Context {Time TB TM TT TP TE W Hosts Key : Type}.
Context `{RecordStoreLaws TB BirthDoc}.
Context `{RecordStoreLaws TM MemoryDoc} `{!RecordQuery TM MemoryDoc} `{!RecordQueryLaws TM MemoryDoc}.
Context `{RecordStoreLaws TT TurnDoc} `{!RecordQuery TT TurnDoc} `{!RecordQueryLaws TT TurnDoc}.
Context `{RecordStoreLaws TP ProtectedTopicDoc} `{!RecordQuery TP ProtectedTopicDoc}
  `{!RecordQueryLaws TP ProtectedTopicDoc}.
Context `{RecordStoreLaws TE ProtectedTopicEntryDoc} `{!RecordQuery TE ProtectedTopicEntryDoc}
  `{!RecordQueryLaws TE ProtectedTopicEntryDoc}.
Context `{VaultHostLaws} `{JsonText} `{ToolHost Hosts} `{Templates}.
Context (cfg : Setup (Time:=Time) (Key:=Key)) (out : Outside (Time:=Time)).
Context (parse_assignments : Value → option (list SkillAssignment)).
Context (provider_snapshot : Value → option Value).
Context (build_router : Value → IdEgoRouter Value W).
(** No identifier is drawn twice. *)
Context `{!Inj (=) (=) (fresh_uuid out)}.

Notation Daemon := (Daemon (TB:=TB) (TM:=TM) (TT:=TT) (TP:=TP) (TE:=TE) (W:=W) (H:=Hosts)).
Notation Brain := (ChatState W Hosts).
Notation Store := (Tables TB TM TT TP TE).
Notation stored_turns s := (contents (conversation_turns s) : gmap string TurnDoc).
Notation mem_step := (mem_step (TB:=TB) (TM:=TM) (TT:=TT) (TP:=TP) (TE:=TE) (to_rfc3339 cfg)
  (parse_rfc3339 cfg) (segments cfg) (is_uuid cfg) (sha256 cfg) (print_payload cfg) (unlock cfg)
  (store_entity cfg)).
Notation uuid := (fresh_uuid out).
Implicit Types (d : Daemon) (b : Brain).

(** ** What no turn notices *)

(** The handlers are sent nothing, no turn begins or ends, the transcripts grow, and
    any new one was given an identifier read meanwhile. *)
Record calm d d' : Prop := {
  quiet_turns : turns d' = turns d;
  quiet_answered : answered d' = answered d;
  quiet_gone : gave_up d' = gave_up d;
  quiet_readings : readings d ≤ readings d';
  quiet_bus : bus d `prefix_of` bus d';
  quiet_memory : well_counted (memory d) → good (memory d) (memory d');
  quiet_new i : well_counted (memory d) → is_Some (stored_turns (memory d') !! uuid i) →
    is_Some (stored_turns (memory d) !! uuid i) ∨ readings d ≤ i < readings d';
}.

#[local] Instance calm_preorder : PreOrder calm.
Proof.
  split.
  - intros d. split; try done. by left.
  - intros d1 d2 d3 [? ? ? ? ? Hm1 Hn1] [? ? ? ? ? Hm2 Hn2].
    split; try congruence; [lia|by etrans| |].
    + intros Hw. eapply good_trans; [by apply Hm1|done].
    + intros i Hw Hi. destruct (Hm1 Hw) as [_ Hw2].
      destruct (Hn2 i Hw2 Hi) as [Hi2|?]; [|right; lia].
      destruct (Hn1 i Hw Hi2) as [?|?]; [by left|]. right. lia.
Qed.

(** Nor is anything streamed. *)
Definition quiet d d' : Prop := calm d d' ∧ streamed d' = streamed d.

#[local] Instance quiet_preorder : PreOrder quiet.
Proof.
  split; [by split|]. intros d1 d2 d3 [? ?] [? ?]. split; [by etrans|congruence].
Qed.

(** The memory is not concerned. *)
Lemma calm_aside d d' :
  turns d' = turns d → answered d' = answered d → gave_up d' = gave_up d →
  readings d ≤ readings d' → bus d `prefix_of` bus d' → memory d' = memory d → calm d d'.
Proof.
  intros ? ? ? ? ? Hm. split; try done.
  - intros ?. rewrite Hm. by split.
  - intros i _ Hi. rewrite Hm in Hi. by left.
Qed.

Lemma quiet_aside d d' :
  turns d' = turns d → answered d' = answered d → gave_up d' = gave_up d →
  readings d ≤ readings d' → bus d `prefix_of` bus d' → memory d' = memory d →
  streamed d' = streamed d → quiet d d'.
Proof. split; [by apply calm_aside|done]. Qed.

Lemma quiet_publish corr (m : Body) d : quiet d (publish out corr m d).1.
Proof.
  unfold publish. destruct (broker_fault _ _); simpl; apply quiet_aside; simpl; try done; [lia|lia|].
  by apply prefix_app_r.
Qed.

Lemma quiet_announce corr (m : Body) d : quiet d (announce_on_bus out corr m d).
Proof. apply quiet_publish. Qed.

Lemma quiet_lifecycle ss phase v d : quiet d (lifecycle out ss phase v d).
Proof. apply quiet_announce. Qed.

Lemma quiet_with_brain b d : quiet d (with_brain b d).
Proof. by apply quiet_aside. Qed.

Lemma quiet_queue kind v d : quiet d (queue_outbox_record cfg out kind v d).1.
Proof.
  unfold queue_outbox_record. destruct (Outbox.enqueue _ _ _ _ _ _ _ _) as [o [r|e]].
  - destruct (append_outbox_event _ _ _ _ _ _ _ _ _ _ _ _) as [l [r'|e]];
      apply quiet_aside; simpl; try done; lia.
  - apply quiet_aside; simpl; try done; lia.
Qed.

Lemma quiet_archive d : quiet d (maybe_auto_archive cfg d).
Proof. unfold maybe_auto_archive. destruct (_ <=? _)%Z; by apply quiet_aside. Qed.

Lemma memory_good (m m' : Store) : mem_step m m' → well_counted m → good m m'.
Proof.
  apply (mem_step_good (to_rfc3339 cfg) (parse_rfc3339 cfg) (segments cfg) (is_uuid cfg) (sha256 cfg)
    (print_payload cfg) (λ _, Err "") (unlock cfg) (store_entity cfg)).
Qed.

Notation insert_spec := (insert_or_ignore_spec (TB:=TB) (TM:=TM) (to_rfc3339 cfg) (parse_rfc3339 cfg)
  (segments cfg) (is_uuid cfg) (sha256 cfg) (print_payload cfg) (λ _, Err "") (unlock cfg)
  (store_entity cfg)).

(** A turn with a new identifier. *)
Lemma persist_turn_saves t d d' r :
  turn_id t = uuid (readings d) → Pipeline.persist_turn cfg out t d = (d', r) →
  quiet d d' ∧
  (well_counted (memory d) → r = Ok tt → stored_turns (memory d) !! turn_id t = None →
   ∃ stored, stored_as (redact_secrets (segments cfg) (turn_content t)) stored ∧
     stored_turns (memory d') !! turn_id t =
       Some (turn_doc (to_rfc3339 cfg) (with_content stored t))).
Proof.
  intros Hid. unfold Pipeline.persist_turn, persist_chat_turn.
  destruct (insert_turn_or_ignore _ _ _ _ _ _ _ _ _ _) as [m o] eqn:Hi. intros [= <- <-].
  assert (∀ Hw : well_counted (memory d), good (memory d) m) as Hgood.
  { intros Hw. apply memory_good; [|exact Hw]. eapply step_insert_or_ignore, Hi. }
  split; [split; [|done]; split; simpl; try done; [lia|]|].
  - intros i Hw Hsome. apply insert_spec in Hi; [|apply Hw].
    destruct Hi as [[Hi _]|(stored & _ & Hn & Hi)]; rewrite Hi in Hsome; [by left|].
    simpl in Hsome. rewrite Hid in Hsome. destruct (decide (uuid i = uuid (readings d))) as [He|Hne].
    + apply (inj _) in He as ->. right. lia.
    + rewrite lookup_insert_ne in Hsome by done. by left.
  - intros Hw Ho Hn. apply insert_spec in Hi; [|apply Hw].
    destruct Hi as [[_ Hi]|(stored & Hst & _ & Hi)].
    + destruct o as [bo|]; [|done]. destruct (Hi bo eq_refl) as [x Hx]. simpl in Hx. congruence.
    + exists stored. split; [done|]. simpl. rewrite Hi. simpl. by rewrite lookup_insert_eq.
Qed.

(** ** The stages, one by one *)

Lemma send_brain_quiet request d : quiet d (route_request cfg request d).1.
Proof. unfold route_request. destruct (send _ _ _ _). apply quiet_with_brain. Qed.

Lemma ask_id_quiet messages late d : quiet d (ask_id cfg messages late d).1.
Proof. destruct late; [apply quiet_with_brain|apply send_brain_quiet]. Qed.

Lemma consult_quiet local message late d : quiet d (consult_id cfg local message late d).1.
Proof.
  unfold consult_id. destruct (negb local); [done|].
  pose proof (ask_id_quiet [new_message "system" (consult_prompt (agent_name cfg));
    new_message "user" message] late d) as Hq.
  destruct (ask_id _ _ _ _) as [d' [r|e]]; [|done]. by destruct (str_is_empty _).
Qed.

Lemma curate_quiet e late d : quiet d (curate_and_publish cfg out e late d).
Proof.
  unfold curate_and_publish. cbv zeta.
  pose proof (consult_quiet (status_has_local_http (router_status (router (brain d))) &&
    status_has_ego (router_status (router (brain d)))) (mentor_message e) late d) as Hq.
  destruct (consult_id _ _ _ _ _) as [d' [signal consult]]. simpl in Hq.
  etrans; [exact Hq|]. apply quiet_announce.
Qed.

Lemma record_quiet a d : quiet d (record cfg out a d).
Proof.
  unfold record. destruct (action_response a) as [response|]; [|apply quiet_lifecycle].
  destruct (decide _); [|apply quiet_lifecycle].
  etrans; [apply quiet_queue|]. etrans; [apply quiet_archive|]. apply quiet_lifecycle.
Qed.

Lemma judge_quiet corr a late d : quiet d (judge_exchange cfg out corr a late d).
Proof.
  unfold judge_exchange. cbv zeta. etrans; [apply quiet_announce|].
  destruct (action_response a) as [response|]; [|done]. destruct (negb _); [done|].
  destruct (build_llm_judgment_prompt _ _ _ _) as [system user].
  set (d1 := announce_on_bus _ _ _ _).
  pose proof (ask_id_quiet [new_message "system" system; new_message "user" user] late d1) as Hq.
  destruct (ask_id _ _ _ _) as [d2 [resp|e]]; [|done].
  destruct (parse_llm_verdict _ _); [|done]. etrans; [exact Hq|]. apply quiet_announce.
Qed.

Lemma observe_quiet context corr content d : quiet d (observe_content cfg out context corr content d).
Proof.
  unfold observe_content. destruct (match context with JobResult => _ | _ => _ end); [done|].
  destruct (evaluate _ _ _); [done|apply quiet_announce..].
Qed.

Lemma govern_quiet payload d :
  quiet d (govern cfg out parse_assignments provider_snapshot build_router payload d).
Proof.
  unfold govern. destruct (decide _).
  - unfold apply_skill_assignments. destruct (parse_assignments _) as [l|]; [|done].
    assert (∀ l d, quiet d (foldl (λ d a, tick (push_skill_ack (refreshed_ack cfg out d a) d)) d l)) as Hf.
    { intros l'. induction l' as [|a l' IH]; intros d'; [done|]. simpl. etrans; [|apply IH].
      apply quiet_aside; simpl; try done; lia. }
    etrans; [|apply Hf]. by apply quiet_aside.
  - destruct (decide _); [|done]. unfold apply_provider_refresh.
    destruct (provider_snapshot _); [|done]. by apply quiet_aside.
Qed.

Lemma open_turn_quiet body config d : quiet d (open_turn cfg out build_router body config d).1.
Proof.
  unfold open_turn. cbv zeta.
  destruct (register_selected_model_subscriber _ _ _) as [r g]. simpl.
  etrans; [|apply quiet_with_brain]. etrans; [|apply quiet_lifecycle].
  transitivity (refresh_provider_for_turn build_router config d).
  - unfold refresh_provider_for_turn. destruct config as [config|]; [|done].
    destruct (matches_provider_config _ _); [done|]. by apply quiet_aside.
  - apply quiet_aside; simpl; try done; lia.
Qed.

(** ** The system *)

(** [delivered]: what each stage has handled; [begun]: the turns begun, their session
    and message. *)
Record System : Type := mkSystem {
  entity : Daemon;
  tasks : list Task;
  delivered : list (Stage * nat);
  begun : list (string * string * string);
}.

Definition session_of_turn (body : ChatRequest) (config : option Value) d : string :=
  (open_turn cfg out build_router body config d).2.

(** A turn is cut short only when its stream was cancelled; its models were left in
    the middle of sending. *)
Definition may_interrupt (t : Task) (interrupted : option Brain) d : Prop :=
  ∀ b, interrupted = Some b → ∃ corr payload ctx token,
    t = Answering corr payload ctx ∧ Pipeline.cancel ctx = Some token ∧ token ∈ cancelled_tokens d ∧
    ∃ sent, tokens_only sent ∧ (channel (net b) = sent ∨ ∃ r, channel (net b) = sent ++ [Cognitive.Done r]).

Inductive step : System → System → Prop :=
(** A handler of chats; [streams]: of streamed ones. *)
| step_chat (streaming : bool) body config d ts done_ started d' r :
    (if streaming then chat_stream cfg out build_router body config d
     else chat cfg out build_router body config d) = (d', r) →
    step (mkSystem d ts done_ started)
      (mkSystem d' ts done_
         match r with
         | Ok corr => (corr, session_of_turn body config d, request_message body) :: started
         | Err _ => started
         end)
(** A stage handles a message it has not handled yet, or never does. *)
| step_message stage i p late d ts done_ started d' new :
    bus d !! i = Some p → (stage, i) ∉ done_ →
    on_message cfg out parse_assignments provider_snapshot build_router stage p late d = (d', new) →
    step (mkSystem d ts done_ started) (mkSystem d' (ts ++ new) ((stage, i) :: done_) started)
| step_task interrupted t before after d d' new done_ started :
    may_interrupt t interrupted d → run_task cfg out interrupted t d = (d', new) →
    step (mkSystem d (before ++ t :: after) done_ started)
      (mkSystem d' (before ++ new ++ after) done_ started)
(** A handler waited too long, or a stream ended or was cancelled. *)
| step_abandon corr ss m d ts done_ started :
    (corr, ss, m) ∈ started →
    step (mkSystem d ts done_ started) (mkSystem (abandon corr d) ts done_ started)
| step_stream_end d ts done_ started :
    step (mkSystem d ts done_ started) (mkSystem (clear_token d) ts done_ started)
| step_cancel d ts done_ started :
    step (mkSystem d ts done_ started) (mkSystem (cancel_chat_stream d).1 ts done_ started)
(** The observers, the other publishers and the other users of the memory. *)
| step_observe context corr content d ts done_ started :
    step (mkSystem d ts done_ started)
      (mkSystem (observe_content cfg out context corr content d) ts done_ started)
| step_publish corr content d ts done_ started :
    step (mkSystem d ts done_ started)
      (mkSystem (announce_on_bus out corr content d) ts done_ started)
| step_memory m d ts done_ started :
    mem_step (memory d) m →
    (∀ i, is_Some (stored_turns m !! uuid i) → is_Some (stored_turns (memory d) !! uuid i)) →
    step (mkSystem d ts done_ started) (mkSystem (with_memory m d) ts done_ started).

(** A daemon before its first turn. *)
Definition initial d : Prop :=
  turns d = ∅ ∧ answered d = [] ∧ gave_up d = ∅ ∧ streamed d = [] ∧ well_counted (memory d) ∧
  ∀ i, stored_turns (memory d) !! uuid i = None.

(** ** The invariant *)

Definition task_turn (t : Task) : string :=
  match t with Answering corr _ _ | Saving corr _ | Announcing corr _ => corr end.

(** The turns in progress, and those whose handler was answered. *)
Definition known d (ts : list Task) : list string :=
  (map_to_list (turns d)).*1 ++ map task_turn ts ++ (answered d).*1.

(** A turn of the conversation is in the memory. *)
Definition saved (m : Store) (ss role text : string) : Prop :=
  ∃ i doc, stored_turns m !! uuid i = Some doc ∧ doc_session doc = ss ∧ doc_role doc = role ∧
    stored_as (redact_secrets (segments cfg) text) (doc_content doc).

(** The reply passes the gate. *)
Definition clean (r : ChatResponse) : Prop :=
  is_blocked (find_iter (segments cfg)) (response_reply r) = false.

Definition kept (m : Store) (r : ChatResponse) : Prop :=
  ∃ ss, response_session r = Some ss ∧ saved m ss "assistant" (response_reply r).

(** An action with a reply is a success, and its reply passed the gate. *)
Definition sound_action (a : EgoActionPayload) : Prop :=
  ∀ r, action_response a = Some r → action_status a = "success" ∧ clean r ∧
    response_session r = Some (action_session a).

Definition sound_task (m : Store) (t : Task) : Prop :=
  match t with
  | Answering _ _ _ => True
  | Saving _ a => sound_action a
  | Announcing _ a => sound_action a ∧ ∀ r, action_response a = Some r → kept m r
  end.

Record inv (y : System) : Prop := {
  inv_memory : well_counted (memory (entity y));
  inv_fresh i : is_Some (stored_turns (memory (entity y)) !! uuid i) → i < readings (entity y);
  inv_known corr : corr ∈ known (entity y) (tasks y) → ∃ i, corr = uuid i ∧ i < readings (entity y);
  inv_once : NoDup (known (entity y) (tasks y));
  inv_begun corr ss m : (corr, ss, m) ∈ begun y →
    (corr ∈ known (entity y) (tasks y) ∨ corr ∈ gave_up (entity y)) ∧
    saved (memory (entity y)) ss "user" m;
  inv_tasks t : t ∈ tasks y → sound_task (memory (entity y)) t;
  inv_answers corr r : (corr, Ok r) ∈ answered (entity y) → clean r ∧ kept (memory (entity y)) r;
}.

Lemma grows_saved (m m' : Store) ss role text :
  grows m m' → saved m ss role text → saved m' ss role text.
Proof.
  intros (_ & Hsub & _) (i & doc & Hi & Hd). exists i, doc. split; [|done].
  by eapply lookup_weaken.
Qed.

Lemma grows_kept (m m' : Store) r : grows m m' → kept m r → kept m' r.
Proof. intros Hg (ss & Hs & Hsaved). exists ss. split; [done|]. by eapply grows_saved. Qed.

Lemma grows_task (m m' : Store) t : grows m m' → sound_task m t → sound_task m' t.
Proof.
  intros Hg. destruct t as [| |corr a]; [done..|]. intros [Ha Hk]. split; [done|].
  intros r Hr. eapply grows_kept; [done|]. by apply Hk.
Qed.

(** A step that begins no turn. *)
Lemma inv_next d d' ts ts' done_ done' started :
  readings d ≤ readings d' →
  (well_counted (memory d) → good (memory d) (memory d')) →
  (∀ i, is_Some (stored_turns (memory d') !! uuid i) → i < readings d') →
  known d' ts' ⊆+ known d ts → gave_up d ⊆ gave_up d' →
  (∀ corr, corr ∈ known d ts → corr ∈ known d' ts' ∨ corr ∈ gave_up d') →
  (∀ t, t ∈ ts' → t ∈ ts ∨ sound_task (memory d') t) →
  (∀ corr r, (corr, Ok r) ∈ answered d' →
     (corr, Ok r) ∈ answered d ∨ clean r ∧ kept (memory d') r) →
  inv (mkSystem d ts done_ started) → inv (mkSystem d' ts' done' started).
Proof.
  intros Hr Hm Hn Hk Hg Hlost Hts Hans [Im If Ik Io Ib It Ian]. simpl in *.
  destruct (Hm Im) as [Hgrow Hw]. split; simpl; [done|done| | | | |].
  - intros corr Hin. eapply elem_of_submseteq in Hin; [|exact Hk].
    destruct (Ik corr Hin) as (i & -> & ?). exists i. split; [done|lia].
  - apply submseteq_Permutation in Hk as [k Hk]. rewrite Hk in Io. by apply NoDup_app in Io as [? _].
  - intros corr ss m Hin. destruct (Ib corr ss m Hin) as [[Hc|Hc] Hs];
      (split; [|by eapply grows_saved]); [by apply Hlost|right; by apply Hg].
  - intros t Hin. destruct (Hts t Hin) as [Hin'|?]; [|done]. eapply grows_task; [done|]. by apply It.
  - intros corr r Hin. destruct (Hans corr r Hin) as [Hin'|?]; [|done].
    destruct (Ian corr r Hin'). split; [done|]. by eapply grows_kept.
Qed.

Lemma known_calm d d' ts : calm d d' → known d' ts = known d ts.
Proof. intros [Ht Ha _ _ _ _ _]. unfold known. by rewrite Ht, Ha. Qed.

Lemma calm_fresh d d' :
  calm d d' → well_counted (memory d) →
  (∀ i, is_Some (stored_turns (memory d) !! uuid i) → i < readings d) →
  ∀ i, is_Some (stored_turns (memory d') !! uuid i) → i < readings d'.
Proof.
  intros [_ _ _ Hr _ _ Hn] Hw Hf i Hi. destruct (Hn i Hw Hi) as [Hi'%Hf|?]; lia.
Qed.

(** A calm step that may change the tasks, but not the turns known. *)
Lemma inv_calm d d' ts ts' done_ done' started :
  calm d d' → map task_turn ts' = map task_turn ts →
  (∀ t, t ∈ ts' → t ∈ ts ∨ sound_task (memory d') t) →
  inv (mkSystem d ts done_ started) → inv (mkSystem d' ts' done' started).
Proof.
  intros Hc Hts Htasks Hi. pose proof Hi as [Im If _ _ _ _ _]. simpl in *.
  assert (known d' ts' = known d ts) as Hk.
  { transitivity (known d ts'); [by apply known_calm|]. unfold known. by rewrite Hts. }
  pose proof Hc as [_ Ha Hg Hr _ Hm _].
  apply (inv_next d d' ts ts' done_ done' started Hr Hm); try done.
  - by eapply calm_fresh.
  - by rewrite Hk.
  - by rewrite Hg.
  - rewrite Hk. auto.
  - intros corr r. rewrite Ha. auto.
Qed.

Lemma inv_quiet d d' ts done_ done' started :
  calm d d' → inv (mkSystem d ts done_ started) → inv (mkSystem d' ts done' started).
Proof. intros Hc. apply inv_calm; auto. Qed.

(** *** The tasks *)

Lemma gated_action_sound payload label result :
  sound_action (gated_action (segments cfg) payload label result).
Proof.
  unfold gated_action, sound_action. intros r.
  destruct (evaluate _ _ _) as [|fs|fs] eqn:He; simpl; [..|done];
    intros [= <-]; (split; [done|]; split; [|done]); unfold clean, is_blocked; simpl; by rewrite He.
Qed.

Lemma answer_turn_spec corr payload ctx interrupted d d' a :
  answer_turn cfg out corr payload ctx interrupted d = (d', a) → calm d d' ∧ sound_action a.
Proof.
  unfold answer_turn. cbv zeta. destruct (think _ _ _ _ _ _ _) as [b r].
  set (d1 := if streams ctx then _ else _).
  assert (calm d d1) as Hc by (unfold d1; destruct (streams ctx); by apply calm_aside).
  destruct r as [result|detail]; intros [= <- <-].
  - split; [|apply gated_action_sound]. etrans; [exact Hc|].
    destruct (execution_trace result); [|done]. apply quiet_announce.
  - by split.
Qed.

Lemma save_reply_spec action d d' a :
  well_counted (memory d) → stored_turns (memory d) !! uuid (readings d) = None →
  sound_action action → save_reply cfg out action d = (d', a) →
  quiet d d' ∧ sound_action a ∧ ∀ r, action_response a = Some r → kept (memory d') r.
Proof.
  intros Hw Hn Ha. unfold save_reply. destruct (action_response action) as [r|] eqn:Hr.
  2: { intros [= <- <-]. split; [done|]. split; [done|]. intros r. congruence. }
  destruct (Pipeline.persist_turn _ _ _ _) as [d1 [[]|e]] eqn:Hp;
    apply persist_turn_saves in Hp as [Hq Hs]; try done; intros [= <- <-]; (split; [done|]).
  2: { split; intros r'; done. }
  split; [done|]. intros r' [= <-]%(eq_trans (eq_sym Hr)).
  destruct (Hs Hw eq_refl Hn) as (stored & Hst & Hsome). exists (action_session action).
  split; [by destruct (Ha r Hr) as (_ & _ & ?)|].
  eexists _, _. split; [exact Hsome|]. done.
Qed.

(** *** The beginning *)

Definition unused d : Prop := ∀ i, readings d ≤ i → turns d !! uuid i = None.

Lemma begin_turn_spec ss m model ctx d d' r :
  unused d → begin_turn cfg out ss m model ctx d = (d', r) →
  match r with
  | Ok corr => ∃ d1, calm d d1 ∧ corr = uuid (readings d) ∧ readings d < readings d1 ∧
                 d' = with_turns (<[corr := ctx]>) d1 ∧
                 ∃ e, bus d1 = bus d ++ [mkPublished corr (Mentor e)] ∧
                   mentor_correlation e = corr ∧ mentor_stage e = "request"
  | Err _ => calm d d'
  end.
Proof.
  intros Hu. unfold begin_turn. cbv zeta. unfold publish. simpl.
  destruct (broker_fault _ _); intros [= <- <-].
  - unfold take_turn. apply calm_aside; simpl; try done; [|lia].
    rewrite delete_insert_id; [done|]. by apply Hu.
  - exists (with_bus (λ l, l ++ [mkPublished (uuid (readings d))
      (Mentor (mentor_request (stamp cfg out (tick (with_turns <[uuid (readings d):=ctx]> d)))
        (uuid (readings d)) ss (entity_id cfg) m model))]) (tick (tick d))).
    split_and!; [|done|simpl; lia|done|by eexists].
    apply calm_aside; simpl; try done; [lia|]. by apply prefix_app_r.
Qed.

Definition fresh d : Prop := ∀ i, is_Some (stored_turns (memory d) !! uuid i) → i < readings d.

Lemma fresh_none d : fresh d → stored_turns (memory d) !! uuid (readings d) = None.
Proof.
  intros Hf. destruct (stored_turns (memory d) !! uuid (readings d)) eqn:He; [|done].
  assert (readings d < readings d); [|lia]. apply Hf. by rewrite He.
Qed.

Lemma calm_unused d d' : calm d d' → unused d → unused d'.
Proof. intros [Ht _ _ Hr _ _ _] Hu i Hi. rewrite Ht. apply Hu. lia. Qed.

(** What both handlers do before the turn begins. *)
Lemma save_input body config d d0 d1 ss r :
  well_counted (memory d) → fresh d →
  open_turn cfg out build_router body config d = (d0, ss) →
  Pipeline.persist_turn cfg out (fresh_turn out ss "user" (request_message body) d0) d0 = (d1, r) →
  calm d d1 ∧ (r = Ok tt → saved (memory d1) ss "user" (request_message body)).
Proof.
  intros Hw Hf Ho Hp. pose proof (proj1 (open_turn_quiet body config d)) as Hc. rewrite Ho in Hc. simpl in Hc.
  pose proof (calm_fresh _ _ Hc Hw Hf) as Hf0.
  pose proof (quiet_memory _ _ Hc Hw) as [_ Hw0].
  apply persist_turn_saves in Hp as [[Hc1 _] Hs]; [|done].
  split; [by etrans|]. intros Hr. destruct (Hs Hw0 Hr (fresh_none _ Hf0)) as (stored & Hst & Hsome).
  eexists _, _. split; [exact Hsome|]. done.
Qed.

(** What a handler did when it waits for the outcome of a turn. *)
Definition turn_started body config d d' (corr : string) : Prop :=
  ∃ d1 ctx i, calm d d1 ∧ corr = uuid i ∧ readings d ≤ i < readings d1 ∧
    d' = with_turns (<[corr := ctx]>) d1 ∧
    saved (memory d1) (session_of_turn body config d) "user" (request_message body) ∧
    ∃ before e, bus d `prefix_of` before ∧ bus d1 = before ++ [mkPublished corr (Mentor e)] ∧
      mentor_correlation e = corr ∧ mentor_stage e = "request".

Lemma begin_after body config d d1 ss ctx d' (r : result string string) m model (err : string → string) :
  well_counted (memory d) → unused d → calm d d1 →
  saved (memory d1) (session_of_turn body config d) "user" (request_message body) →
  match begin_turn cfg out ss m model ctx d1 with
  | (d, Err e) => (d, Err (err e))
  | (d, Ok corr) => (d, Ok corr)
  end = (d', r) →
  match r with Ok corr => turn_started body config d d' corr | Err _ => calm d d' end.
Proof.
  intros Hw Hu Hc Hs. destruct (begin_turn _ _ _ _ _ _ _) as [d2 o] eqn:Hb.
  apply begin_turn_spec in Hb; [|by eapply calm_unused].
  destruct o as [corr|e]; intros [= <- <-]; [|by etrans].
  destruct Hb as (d3 & Hc3 & -> & Hlt & -> & e & Hbus & He). exists d3, ctx, (readings d1).
  pose proof (quiet_readings _ _ Hc) as Hr. split_and!; [by etrans|done|lia|done|done| |].
  - destruct (quiet_memory _ _ Hc Hw) as [_ Hw1]. eapply grows_saved; [|done].
    by apply (quiet_memory _ _ Hc3).
  - exists (bus d1), e. split; [by apply quiet_bus|done].
Qed.

Lemma chat_spec (streaming : bool) body config d d' r :
  well_counted (memory d) → fresh d → unused d →
  (if streaming then chat_stream cfg out build_router body config d
   else chat cfg out build_router body config d) = (d', r) →
  match r with Ok corr => turn_started body config d d' corr | Err _ => calm d d' end.
Proof.
  intros Hw Hf Hu. unfold chat, chat_stream.
  destruct (open_turn cfg out build_router body config d) as [d0 ss] eqn:Ho.
  destruct (Pipeline.persist_turn _ _ _ _) as [d1 saved_] eqn:Hp.
  destruct (save_input body config d d0 d1 ss saved_ Hw Hf Ho Hp) as [Hc Hsaved].
  assert (session_of_turn body config d = ss) as Hss by (unfold session_of_turn; by rewrite Ho).
  assert (∀ d2, calm d1 d2 → saved_ = Ok tt →
    saved (memory d2) (session_of_turn body config d) "user" (request_message body)) as Hs2.
  { intros d2 Hc2 Hok. rewrite Hss. destruct (quiet_memory _ _ Hc Hw) as [_ Hw1].
    eapply grows_saved; [by apply (quiet_memory _ _ Hc2)|]. by apply Hsaved. }
  pose proof (proj1 (quiet_queue "chat_user_turn" (user_turn_record ss (request_message body)) d1)) as Hq.
  destruct streaming; destruct saved_ as [[]|e].
  - set (d2 := (queue_outbox_record _ _ _ _ _).1) in *. set (p := replace_token d2).
    assert (calm d2 p.1) as Hp2 by (apply calm_aside; simpl; try done; lia).
    destruct p as [d3 token] eqn:Hd3. simpl in Hp2.
    apply begin_after; [done|done|by repeat (etrans; [eassumption|])|].
    apply Hs2; [by etrans|done].
  - destruct (replace_token _) as [d3 token] eqn:Hd3. intros [= <- <-].
    etrans; [exact Hc|]. etrans; [exact Hq|]. unfold replace_token in Hd3. injection Hd3 as <- _.
    apply calm_aside; simpl; try done; lia.
  - apply begin_after; [done|done|by etrans|]. by apply Hs2.
  - by intros [= <- <-].
Qed.

(** ** The steps *)

Lemma inv_unused d ts done_ started : inv (mkSystem d ts done_ started) → unused d.
Proof.
  intros [_ _ Ik _ _ _ _] i Hi. simpl in *. destruct (turns d !! uuid i) as [ctx|] eqn:Ht; [|done].
  destruct (Ik (uuid i)) as (j & He%(inj _) & ?); [|subst; lia].
  unfold known. apply elem_of_app. left. apply list_elem_of_fmap. exists (uuid i, ctx).
  split; [done|]. by apply elem_of_map_to_list.
Qed.

Lemma known_begin corr ctx d ts :
  turns d !! corr = None → known (with_turns (<[corr:=ctx]>) d) ts ≡ₚ corr :: known d ts.
Proof. intros Hn. unfold known. simpl. by rewrite map_to_list_insert. Qed.

Lemma known_take corr ctx d ts :
  turns d !! corr = Some ctx → known d ts ≡ₚ corr :: known (take_turn corr d) ts.
Proof. intros Hs. unfold known. simpl. by rewrite <- (map_to_list_delete _ _ _ Hs). Qed.

Lemma known_tasks d before t after :
  known d (before ++ t :: after) ≡ₚ task_turn t :: known d (before ++ after).
Proof. unfold known. rewrite !map_app. simpl. solve_Permutation. Qed.

(** The Ego stage claims a turn. *)
Lemma inv_claim corr payload ctx d ts done_ done' started :
  turns d !! corr = Some ctx → inv (mkSystem d ts done_ started) →
  inv (mkSystem (take_turn corr d) (ts ++ [Answering corr payload ctx]) done' started).
Proof.
  intros Ht Hi. pose proof Hi as [Im If _ _ _ _ _]. simpl in *.
  assert (known (take_turn corr d) (ts ++ [Answering corr payload ctx]) ≡ₚ known d ts) as Hk.
  { rewrite (known_take _ _ _ _ Ht), known_tasks. by rewrite app_nil_r. }
  eapply inv_next; [..|exact Hi]; simpl; try done.
  - by rewrite Hk.
  - intros c. rewrite Hk. auto.
  - intros t [?|Hin%list_elem_of_singleton]%elem_of_app; [by left|right; by rewrite Hin].
  - auto.
Qed.

Lemma inv_chat body config d d' corr ts done_ started :
  turn_started body config d d' corr → inv (mkSystem d ts done_ started) →
  inv (mkSystem d' ts done_ ((corr, session_of_turn body config d, request_message body) :: started)).
Proof.
  intros (d1 & ctx & i & Hc & -> & Hi & -> & Hsaved & _) Hinv.
  pose proof (inv_unused _ _ _ _ Hinv) as Hu.
  pose proof (inv_quiet _ _ _ _ done_ _ Hc Hinv) as [Im If Ik Io Ib It Ian]. simpl in *.
  assert (turns d1 !! uuid i = None) as Hn.
  { rewrite (quiet_turns _ _ Hc). apply Hu. lia. }
  pose proof (known_begin _ ctx d1 ts Hn) as Hk.
  split; simpl; try done.
  - intros c. rewrite Hk. intros [->|Hin]%elem_of_cons; [|by apply Ik]. exists i. split; [done|lia].
  - rewrite Hk. apply NoDup_cons. split; [|done]. destruct Hinv as [_ _ Ik0 _ _ _ _]. simpl in *.
    rewrite (known_calm _ _ _ Hc). intros (j & He%(inj _) & ?)%Ik0. subst. lia.
  - intros c ss m Hin. rewrite Hk. apply elem_of_cons in Hin as [[= -> -> ->]|Hin].
    + split; [left; by left|done].
    + destruct (Ib c ss m Hin) as [[?|?] ?]; split; try done; [left; by right|by right].
Qed.

Lemma inv_abandon corr d ts done_ started :
  inv (mkSystem d ts done_ started) → inv (mkSystem (abandon corr d) ts done_ started).
Proof.
  intros Hi. pose proof Hi as [Im If _ _ _ _ _]. simpl in *.
  assert (known (abandon corr d) ts ⊆+ known d ts ∧
    ∀ c, c ∈ known d ts → c ∈ known (abandon corr d) ts ∨ c = corr) as [Hsub Hlost].
  { destruct (turns d !! corr) as [ctx|] eqn:Ht.
    - pose proof (known_take _ _ _ ts Ht) as Hk.
      change (known (take_turn corr d) ts) with (known (abandon corr d) ts) in Hk.
      split; [rewrite Hk; by apply submseteq_cons|].
      intros c. rewrite Hk. intros [->|?]%elem_of_cons; auto.
    - assert (known (abandon corr d) ts = known d ts) as ->; [|by auto].
      unfold known. simpl. by rewrite delete_id. }
  eapply inv_next; [..|exact Hi]; simpl; try done.
  - set_solver.
  - intros c Hc. destruct (Hlost c Hc) as [?| ->]; [by left|right; set_solver].
  - auto.
  - auto.
Qed.

Lemma inv_announce corr a d before after done_ done' started :
  inv (mkSystem d (before ++ Announcing corr a :: after) done_ started) →
  inv (mkSystem (announce out corr a d) (before ++ after) done' started).
Proof.
  intros Hinv. pose proof (quiet_announce corr (Action a) d) as [Hc _].
  assert (sound_task (memory (announce_on_bus out corr (Action a) d)) (Announcing corr a)) as [Ha Hk].
  { pose proof (inv_quiet _ _ _ _ done_ _ Hc Hinv) as [_ _ _ _ _ It _]. apply It. simpl. set_solver. }
  apply (inv_quiet _ _ _ _ done_ _ Hc) in Hinv. unfold announce.
  set (d1 := announce_on_bus _ _ _ _) in *. pose proof Hinv as [Im If _ _ _ _ _]. simpl in *.
  pose proof (known_tasks d1 before (Announcing corr a) after) as Hkn. simpl in Hkn.
  destruct (decide (corr ∈ gave_up d1)) as [Hg|Hg]; (eapply inv_next; [..|exact Hinv]); simpl; try done.
  - rewrite Hkn. by apply submseteq_cons.
  - intros c. rewrite Hkn. intros [->|?]%elem_of_cons; auto.
  - set_solver.
  - auto.
  - rewrite Hkn. unfold known. simpl. rewrite !fmap_app. simpl.
    by rewrite (Permutation_cons_append (_ ++ _)), <- !app_assoc.
  - intros c. rewrite Hkn. unfold known. simpl. rewrite !fmap_app. set_solver.
  - set_solver.
  - intros c r [?|Hin%list_elem_of_singleton]%elem_of_app; [by left|]. right.
    injection Hin as -> Ho. unfold outcome_of in Ho.
    destruct (action_response a) as [r'|] eqn:Hr; [|done]. destruct (decide _); [|done].
    injection Ho as ->. destruct (Ha r' Hr) as (_ & ? & _). split; [done|]. by apply Hk.
Qed.

Lemma inv_message stage i p late d ts done_ started d' new :
  on_message cfg out parse_assignments provider_snapshot build_router stage p late d = (d', new) →
  inv (mkSystem d ts done_ started) →
  inv (mkSystem d' (ts ++ new) ((stage, i) :: done_) started).
Proof.
  intros Hm Hi. unfold on_message in Hm.
  assert (∀ d1, quiet d d1 → inv (mkSystem d1 (ts ++ []) ((stage, i) :: done_) started)) as Hq.
  { intros d1 [Hc _]. rewrite app_nil_r. by eapply inv_quiet. }
  destruct stage, (body p); try (injection Hm as <- <-; by apply Hq).
  - destruct (decide _); injection Hm as <- <-; apply Hq; [apply curate_quiet|done].
  - destruct (turns d !! correlation p) as [ctx|] eqn:Ht; injection Hm as <- <-; [|by apply Hq].
    by eapply inv_claim.
  - injection Hm as <- <-. apply Hq, record_quiet.
  - injection Hm as <- <-. apply Hq, judge_quiet.
  - injection Hm as <- <-. apply Hq, govern_quiet.
Qed.

Lemma inv_task interrupted t before after d d' new done_ started :
  run_task cfg out interrupted t d = (d', new) →
  inv (mkSystem d (before ++ t :: after) done_ started) →
  inv (mkSystem d' (before ++ new ++ after) done_ started).
Proof.
  intros Hr Hi. pose proof Hi as [Im If _ _ _ It _]. simpl in *.
  assert (∀ d1 t1, calm d d1 → task_turn t1 = task_turn t → sound_task (memory d1) t1 →
    inv (mkSystem d1 (before ++ [t1] ++ after) done_ started)) as Hnext.
  { intros d1 t1 Hc Ht Hs. eapply inv_calm; [exact Hc| | |exact Hi].
    - rewrite !map_app. simpl. by rewrite Ht.
    - intros t' [Hin|[Hin%list_elem_of_singleton|Hin]%elem_of_app]%elem_of_app; [left|right|left].
      + set_solver.
      + by subst.
      + set_solver. }
  destruct t as [corr payload ctx|corr a|corr a]; unfold run_task in Hr.
  - destruct (answer_turn _ _ _ _ _ _ _) as [d1 a] eqn:Ha. injection Hr as <- <-.
    apply answer_turn_spec in Ha as [Hc Ha]. by apply Hnext.
  - destruct (save_reply _ _ _ _) as [d1 a'] eqn:Ha. injection Hr as <- <-.
    apply save_reply_spec in Ha as ([Hc _] & Ha & Hk); [by apply Hnext|done|by apply fresh_none|].
    apply (It (Saving corr a)). set_solver.
  - injection Hr as <- <-. eapply inv_announce, Hi.
Qed.

Lemma inv_step y y' : step y y' → inv y → inv y'.
Proof.
  intros Hs Hi. destruct Hs as [streaming body config d ts dn st d' r Hc|stage i p late d ts dn st d' new _ _ Hm
    |interrupted t before after d d' new dn st _ Hr|corr ss m d ts dn st _|d ts dn st|d ts dn st
    |context corr content d ts dn st|corr content d ts dn st|m d ts dn st Hm Hn].
  - pose proof Hi as [Im If _ _ _ _ _]. simpl in *.
    apply chat_spec in Hc; [|done|done|by eapply inv_unused].
    destruct r as [corr|e]; [by apply inv_chat|by eapply inv_quiet].
  - by eapply inv_message.
  - by eapply inv_task.
  - by apply inv_abandon.
  - eapply inv_quiet; [|exact Hi]. by apply calm_aside.
  - eapply inv_quiet; [|exact Hi]. unfold cancel_chat_stream.
    destruct (active_stream_cancel d); by apply calm_aside.
  - eapply inv_quiet; [|exact Hi]. apply observe_quiet.
  - eapply inv_quiet; [|exact Hi]. apply quiet_announce.
  - eapply inv_quiet; [|exact Hi]. split; simpl; try done.
    + by apply memory_good.
    + intros j _ Hj. left. by apply Hn.
Qed.

Lemma inv_initial d : initial d → inv (mkSystem d [] [] []).
Proof.
  intros (Ht & Ha & Hg & _ & Hw & Hn). split; simpl; try done.
  - intros i. rewrite Hn. by intros [].
  - intros corr. unfold known. rewrite Ht, Ha, map_to_list_empty. set_solver.
  - unfold known. rewrite Ht, Ha, map_to_list_empty. constructor.
  - set_solver.
  - set_solver.
  - intros corr r. rewrite Ha. set_solver.
Qed.

Lemma inv_reachable d y : initial d → rtc step (mkSystem d [] [] []) y → inv y.
Proof.
  intros Hi Hr. apply inv_initial in Hi. induction Hr as [|y1 y2 y3 Hs _ IH]; [done|].
  by apply IH, (inv_step _ _ Hs).
Qed.

(** ** What the handlers are sent *)

(** C4: in any run of an Entity, whatever the models answer, the disk and the broker
    fail to do, and in whatever order the stages come to the messages, a reply
    delivered to a handler passes the Superego's gate, and is already in the
    transcript of its session as a turn of the assistant (its API keys redacted, or
    a notice in place of another secret). *)
Theorem delivered_replies d y corr r :
  initial d → rtc step (mkSystem d [] [] []) y → (corr, Ok r) ∈ answered (entity y) →
  is_blocked (find_iter (segments cfg)) (response_reply r) = false ∧
  ∃ ss i doc, response_session r = Some ss ∧
    stored_turns (memory (entity y)) !! uuid i = Some doc ∧ doc_session doc = ss ∧
    doc_role doc = "assistant" ∧
    stored_as (redact_secrets (segments cfg) (response_reply r)) (doc_content doc).
Proof.
  intros Hi Hr Hin. destruct (inv_answers _ (inv_reachable _ _ Hi Hr) _ _ Hin) as (Hc & ss & Hss & i & doc & Hk).
  split; [exact Hc|]. by exists ss, i, doc.
Qed.

(** C5: no turn is answered twice and none is lost: every turn a handler began is
    still registered, or being answered by one task, or its handler was answered
    or gave up; and the message of each is in the transcript of its session. *)
Theorem turns_accounted d y :
  initial d → rtc step (mkSystem d [] [] []) y →
  NoDup (map task_turn (tasks y) ++ (answered (entity y)).*1) ∧
  ∀ corr ss m, (corr, ss, m) ∈ begun y →
    (is_Some (turns (entity y) !! corr) ∨ corr ∈ map task_turn (tasks y) ∨
     corr ∈ (answered (entity y)).*1 ∨ corr ∈ gave_up (entity y)) ∧
    ∃ i doc, stored_turns (memory (entity y)) !! uuid i = Some doc ∧ doc_session doc = ss ∧
      doc_role doc = "user" ∧ stored_as (redact_secrets (segments cfg) m) (doc_content doc).
Proof.
  intros Hi Hr. destruct (inv_reachable _ _ Hi Hr) as [_ _ _ Io Ib _ _]. split.
  - unfold known in Io. by apply NoDup_app in Io as (_ & _ & ?).
  - intros corr ss m Hin. destruct (Ib corr ss m Hin) as [Hk Hs]. split; [|exact Hs].
    destruct Hk as [Hk|?]; [|by auto]. unfold known in Hk.
    apply elem_of_app in Hk as [([k ctx] & -> & Hk%elem_of_map_to_list)%list_elem_of_fmap|Hk].
    + left. by exists ctx.
    + apply elem_of_app in Hk as [?|?]; auto.
Qed.

(** *** The error path *)

Definition failure_shape (segs : string → string → list (string * string) * string) (e : string) : Prop :=
  e = friendly_turn_error ∨
  contains (to_lowercase e) "interrupted by user" = true ∨
  (∃ rules, rules ≠ [] ∧ e = "Response withheld by superego: " +:+ RustStr.join ", " rules) ∨
  (∃ cause, e = "Unable to save this conversation: " +:+ cause).

Lemma announce_memory corr (m : Body) d : memory (announce_on_bus out corr m d) = memory d.
Proof. unfold announce_on_bus, publish. by destruct (broker_fault _ _). Qed.

Lemma announce_eq corr a d :
  corr ∉ gave_up d →
  announce out corr a d =
    with_answers (gave_up d) (answered d ++ [(corr, outcome_of a)]) (streamed d)
      (announce_on_bus out corr (Action a) d).
Proof.
  intros Hg. unfold announce. pose proof (quiet_announce corr (Action a) d) as [[_ Ha Hgo _ _ _ _] Hs].
  rewrite decide_False by congruence. congruence.
Qed.

(** The action of a turn, and why it has no reply when it has none. *)
Lemma answer_turn_action corr payload ctx interrupted d d' a :
  answer_turn cfg out corr payload ctx interrupted d = (d', a) →
  memory d' = memory d ∧ action_session a = reaction_session payload ∧
  (action_response a = None → ∃ e, outcome_of a = Err e ∧ failure_shape (segments cfg) e).
Proof.
  unfold answer_turn. cbv zeta. destruct (think _ _ _ _ _ _ _) as [b r].
  set (d1 := if streams ctx then _ else _).
  assert (memory d1 = memory d) as Hm by (unfold d1; by destruct (streams ctx)).
  destruct r as [result|detail]; intros [= <- <-].
  - split; [by destruct (execution_trace result); rewrite ?announce_memory|].
    unfold gated_action. destruct (evaluate _ _ _) as [|fs|fs] eqn:He; (split; [done|]); [done..|].
    intros _. eexists. split; [done|]. right; right; left. exists (map rule fs).
    split; [|done]. unfold Superego.evaluate in He. destruct (find_concerns _ _); [done|].
    destruct (filter _ _) eqn:Hf; [done|]. by injection He as <-.
  - split; [done|]. split; [done|]. intros _. simpl. eexists. split; [done|].
    unfold failed_action. simpl.
    destruct (contains (to_lowercase detail) _) eqn:Hc; [right; by left|by left].
Qed.

Lemma save_reply_cases a d d' a' :
  save_reply cfg out a d = (d', a') →
  answered d' = answered d ∧ gave_up d' = gave_up d ∧
  ((action_response a ≠ None ∧ a' = a) ∨
   (action_response a = None ∧ a' = a ∧ memory d' = memory d) ∨
   ∃ cause, a' = unsaved_action a cause).
Proof.
  unfold save_reply. destruct (action_response a) as [r|].
  2: { intros [= <- <-]. split_and!; [done..|]. by right; left. }
  destruct (Pipeline.persist_turn _ _ _ _) as [d1 o] eqn:Hp.
  apply persist_turn_saves in Hp as [[[_ Ha Hg _ _ _ _] _] _]; [|done].
  destruct o as [[]|e]; intros [= <- <-]; (split_and!; [done..|]); [by left|].
  right; right. by eexists.
Qed.

(** C22: a turn ends in exactly one outcome, for the handler that still waits.  A
    failed one carries the fixed friendly text, a text with the mark of an
    interruption, the rules behind a withheld reply, or the failure to save; and in
    none of them, the last apart, is a turn added to the memory. *)
Theorem respond_outcomes corr payload ctx interrupted d :
  corr ∉ gave_up d →
  let d' := respond cfg out corr payload ctx interrupted d in
  ∃ o, answered d' = answered d ++ [(corr, o)] ∧
    match o with
    | Ok r => response_session r = Some (reaction_session payload) ∧ clean r
    | Err e => failure_shape (segments cfg) e ∧
        (stored_turns (memory d') = stored_turns (memory d) ∨
         ∃ cause, e = "Unable to save this conversation: " +:+ cause)
    end.
Proof.
  intros Hg d'. unfold d', respond.
  destruct (answer_turn _ _ _ _ _ _ _) as [d1 a] eqn:Ha.
  destruct (answer_turn_action _ _ _ _ _ _ _ Ha) as (Hm & Hses & Hfail).
  apply answer_turn_spec in Ha as [[_ Han Hgo _ _ _ _] Hs].
  destruct (save_reply _ _ _ _) as [d2 a2] eqn:Hsv.
  destruct (save_reply_cases _ _ _ _ Hsv) as (Han2 & Hgo2 & Hcase).
  rewrite announce_eq by congruence. simpl. rewrite announce_memory, Han2, Han.
  eexists. split; [done|]. destruct Hcase as [[Hr ->]|[(Hnone & -> & Hm2)|(e & ->)]].
  - unfold outcome_of. destruct (action_response a) as [r|] eqn:Ho; [|done].
    destruct (Hs r Ho) as (Hst & Hcl & Hss). rewrite decide_True by done.
    split; [by rewrite Hss, Hses|done].
  - destruct (Hfail Hnone) as (e & -> & He). split; [done|]. left. by rewrite Hm2, Hm.
  - simpl. split; [right; right; right; by eexists|right; by eexists].
Qed.

(** ** A turn can always be carried to its end *)

(** Only messages of the bus were handled; only turns begun were given up. *)
Record books (y : System) : Prop := {
  books_delivered stage i : (stage, i) ∈ delivered y → i < length (bus (entity y));
  books_gone corr : corr ∈ gave_up (entity y) → ∃ i, corr = uuid i ∧ i < readings (entity y);
}.

Lemma books_calm d d' ts ts' done_ st st' :
  calm d d' → books (mkSystem d ts done_ st) → books (mkSystem d' ts' done_ st').
Proof.
  intros [_ _ Hg Hr Hb _ _] [Bd Bg]. split; simpl in *.
  - intros stage i Hi%Bd. apply prefix_length in Hb. lia.
  - intros corr. rewrite Hg. intros (i & -> & ?)%Bg. exists i. split; [done|lia].
Qed.

Lemma on_message_bus stage p late d d' new :
  on_message cfg out parse_assignments provider_snapshot build_router stage p late d = (d', new) →
  bus d `prefix_of` bus d' ∧ gave_up d' = gave_up d ∧ readings d ≤ readings d'.
Proof.
  unfold on_message.
  assert (∀ d1, quiet d d1 → bus d `prefix_of` bus d1 ∧ gave_up d1 = gave_up d ∧
    readings d ≤ readings d1) as Hq by (by intros d1 [[_ _ ? ? ? _ _] _]).
  destruct stage, (body p); try (intros [= <- <-]; by apply Hq).
  - destruct (decide _); intros [= <- <-]; apply Hq; [apply curate_quiet|done].
  - destruct (turns d !! correlation p); intros [= <- <-]; by apply Hq + done.
  - intros [= <- <-]. apply Hq, record_quiet.
  - intros [= <- <-]. apply Hq, judge_quiet.
  - intros [= <- <-]. apply Hq, govern_quiet.
Qed.

Lemma run_task_bus interrupted t d d' new :
  well_counted (memory d) → fresh d → sound_task (memory d) t →
  run_task cfg out interrupted t d = (d', new) →
  bus d `prefix_of` bus d' ∧ gave_up d' = gave_up d ∧ readings d ≤ readings d'.
Proof.
  intros Hw Hf Hs. destruct t as [corr payload ctx|corr a|corr a]; simpl.
  - destruct (answer_turn _ _ _ _ _ _ _) as [d1 a] eqn:Ha. intros [= <- <-].
    by apply answer_turn_spec in Ha as [[_ _ ? ? ? _ _] _].
  - destruct (save_reply _ _ _ _) as [d1 a'] eqn:Ha. intros [= <- <-].
    apply save_reply_spec in Ha as ([[_ _ ? ? ? _ _] _] & _); [done|done|by apply fresh_none|done].
  - intros [= <- <-]. unfold announce.
    destruct (quiet_announce corr (Action a) d) as [[_ _ Hg ? ? _ _] _].
    by destruct (decide _).
Qed.

Lemma books_step y y' : inv y → step y y' → books y → books y'.
Proof.
  intros Hi Hs Hb. destruct Hs as [streaming body config d ts dn st d' r Hc|stage i p late d ts dn st d' new Hl _ Hm
    |interrupted t before after d d' new dn st _ Hr|corr ss m d ts dn st Hin|d ts dn st|d ts dn st
    |context corr content d ts dn st|corr content d ts dn st|m d ts dn st Hm Hn].
  - pose proof Hi as [Im If _ _ _ _ _]. simpl in *.
    apply chat_spec in Hc; [|done|done|by eapply inv_unused].
    destruct r as [corr|e]; [|by eapply books_calm].
    destruct Hc as (d1 & ctx & i & Hc & _ & _ & -> & _).
    destruct (books_calm d d1 ts ts dn st st Hc Hb) as [Bd Bg]. split; [exact Bd|exact Bg].
  - apply on_message_bus in Hm as (Hp & Hg & Hr). destruct Hb as [Bd Bg]. simpl in *.
    apply prefix_length in Hp. split; simpl.
    + intros s' j [[= -> ->]|Hj%Bd]%elem_of_cons; [|lia]. apply lookup_lt_Some in Hl. lia.
    + intros corr. rewrite Hg. intros (j & -> & ?)%Bg. exists j. split; [done|lia].
  - pose proof Hi as [Im If _ _ _ It _]. simpl in *.
    apply run_task_bus in Hr as (Hp & Hg & Hr); [|done|done|apply It; set_solver].
    destruct Hb as [Bd Bg]. simpl in *. apply prefix_length in Hp. split; simpl.
    + intros s' j Hj%Bd. lia.
    + intros corr. rewrite Hg. intros (j & -> & ?)%Bg. exists j. split; [done|lia].
  - destruct Hb as [Bd Bg]. split; simpl in *; [exact Bd|]. intros c [->%elem_of_singleton|Hc]%elem_of_union.
    + destruct (inv_begun _ Hi corr ss m Hin) as [[Hk|Hk] _]; [|by apply Bg].
      by apply (inv_known _ Hi).
    + by apply Bg.
  - eapply books_calm; [|exact Hb]. by apply calm_aside.
  - eapply books_calm; [|exact Hb]. unfold cancel_chat_stream.
    destruct (active_stream_cancel d); by apply calm_aside.
  - eapply books_calm; [|exact Hb]. apply observe_quiet.
  - eapply books_calm; [|exact Hb]. apply quiet_announce.
  - by destruct Hb as [Bd Bg].
Qed.

Lemma books_reachable d y : initial d → rtc step (mkSystem d [] [] []) y → books y.
Proof.
  intros Hi. assert (books (mkSystem d [] [] [])) as Hb.
  { destruct Hi as (_ & _ & Hg & _). split; simpl; [set_solver|rewrite Hg; set_solver]. }
  apply inv_initial in Hi. induction 1 as [|y1 y2 y3 Hs _ IH]; [done|].
  apply IH; [by eapply inv_step|by eapply books_step].
Qed.

(** A step of the turn [corr] itself: a stage handles a message of it, or its task goes
    on.  Nobody publishes, observes or begins anything else meanwhile. *)
Inductive turn_step (corr : string) : System → System → Prop :=
| turn_message stage i p late d ts done_ started d' new :
    correlation p = corr → bus d !! i = Some p → (stage, i) ∉ done_ →
    on_message cfg out parse_assignments provider_snapshot build_router stage p late d = (d', new) →
    turn_step corr (mkSystem d ts done_ started) (mkSystem d' (ts ++ new) ((stage, i) :: done_) started)
| turn_task interrupted t before after d d' new done_ started :
    task_turn t = corr → may_interrupt t interrupted d → run_task cfg out interrupted t d = (d', new) →
    turn_step corr (mkSystem d (before ++ t :: after) done_ started)
      (mkSystem d' (before ++ new ++ after) done_ started).

Lemma turn_step_step corr y y' : turn_step corr y y' → step y y'.
Proof. intros []; [by eapply step_message|by eapply step_task]. Qed.

Section working.
Context (broker_up : ∀ i, broker_fault out i = None).

Lemma announce_up corr (m : Body) d :
  bus (announce_on_bus out corr m d) = bus d ++ [mkPublished corr m].
Proof. unfold announce_on_bus, publish. by rewrite broker_up. Qed.

Lemma curate_up e late d :
  ∃ d0 payload, quiet d d0 ∧ bus d0 = bus d ∧
    bus (curate_and_publish cfg out e late d) =
      bus d ++ [mkPublished (mentor_correlation e) (Reaction payload)].
Proof.
  unfold curate_and_publish. cbv zeta.
  pose proof (consult_quiet (status_has_local_http (router_status (router (brain d))) &&
    status_has_ego (router_status (router (brain d)))) (mentor_message e) late d) as Hq.
  assert (bus (consult_id cfg (status_has_local_http (router_status (router (brain d))) &&
    status_has_ego (router_status (router (brain d)))) (mentor_message e) late d).1 = bus d) as Hb.
  { unfold consult_id, ask_id, route_request. destruct (negb _); [done|]. destruct late; [done|].
    destruct (send _ _ _ _) as [b [r|e']]; [|done]. by destruct (str_is_empty _). }
  destruct (consult_id _ _ _ _ _) as [d' [signal consult]]. simpl in Hq, Hb.
  eexists _, _. split; [exact Hq|]. split; [exact Hb|]. rewrite announce_up, Hb. done.
Qed.

(** The tasks of a turn answer it. *)
Lemma tasks_answer corr payload ctx d ts dn st :
  corr ∉ gave_up d → inv (mkSystem d (ts ++ [Answering corr payload ctx]) dn st) →
  ∃ d', nsteps (turn_step corr) 3 (mkSystem d (ts ++ [Answering corr payload ctx]) dn st)
      (mkSystem d' ts dn st) ∧
    ∃ o, (corr, o) ∈ answered d'.
Proof.
  intros Hg Hi.
  assert (∀ t, may_interrupt t None d) as Hmay by done.
  destruct (run_task cfg out None (Answering corr payload ctx) d) as [d1 n1] eqn:Hr1.
  pose proof (turn_task corr None (Answering corr payload ctx) ts [] d d1 n1 dn st eq_refl ltac:(done) Hr1) as S1.
  assert (∃ a, n1 = [Saving corr a] ∧ calm d d1) as (a & -> & Hc1).
  { simpl in Hr1. destruct (answer_turn _ _ _ _ _ _ _) as [d1' a] eqn:Ha. injection Hr1 as <- <-.
    apply answer_turn_spec in Ha as [Hc _]. by exists a. }
  pose proof (inv_step _ _ (turn_step_step _ _ _ S1) Hi) as I1. rewrite app_nil_r in S1, I1.
  destruct (run_task cfg out None (Saving corr a) d1) as [d2 n2] eqn:Hr2.
  pose proof (turn_task corr None (Saving corr a) ts [] d1 d2 n2 dn st eq_refl ltac:(done) Hr2) as S2.
  assert (∃ a', n2 = [Announcing corr a'] ∧ gave_up d2 = gave_up d1) as (a' & -> & Hg2).
  { simpl in Hr2. destruct (save_reply _ _ _ _) as [d2' a'] eqn:Ha. injection Hr2 as <- <-.
    apply save_reply_cases in Ha as (_ & Hg2 & _). by exists a'. }
  rewrite app_nil_r in S2.
  destruct (run_task cfg out None (Announcing corr a') d2) as [d3 n3] eqn:Hr3.
  pose proof (turn_task corr None (Announcing corr a') ts [] d2 d3 n3 dn st eq_refl ltac:(done) Hr3) as S3.
  simpl in Hr3. injection Hr3 as <- <-. rewrite !app_nil_r in S3.
  exists (announce out corr a' d2). split.
  - eapply nsteps_l; [exact S1|]. eapply nsteps_l; [exact S2|]. eapply nsteps_l; [exact S3|]. constructor.
  - exists (outcome_of a'). rewrite announce_eq; [simpl; set_solver|].
    rewrite Hg2. by rewrite (quiet_gone _ _ Hc1).
Qed.

(** C6: while the broker works, every turn a handler began, in whatever state the
    Entity is, can be carried to its answer by five steps of its own: the Id stage
    and the Ego stage take the messages of the turn that the handler and the Id stage
    published, and its task answers, saves and announces.  These are the only steps:
    no other publisher, turn or user has to do anything. *)
Theorem begun_turn_is_answered d y (streaming : bool) body config d' corr :
  initial d → rtc step (mkSystem d [] [] []) y →
  (if streaming then chat_stream cfg out build_router body config (entity y)
   else chat cfg out build_router body config (entity y)) = (d', Ok corr) →
  let y1 := mkSystem d' (tasks y) (delivered y)
              ((corr, session_of_turn body config (entity y), request_message body) :: begun y) in
  step y y1 ∧ ∃ y', nsteps (turn_step corr) 5 y1 y' ∧ ∃ o, (corr, o) ∈ answered (entity y').
Proof.
  intros Hi Hreach Hchat. pose proof (inv_reachable _ _ Hi Hreach) as Hinv.
  pose proof (books_reachable _ _ Hi Hreach) as Hbooks. destruct y as [d0 ts dn st]. simpl in *.
  pose proof (step_chat streaming body config d0 ts dn st d' (Ok corr) Hchat) as Hs.
  pose proof (inv_step _ _ Hs Hinv) as Hinv1.
  pose proof Hinv as [Im If _ _ _ _ _]. simpl in *.
  apply chat_spec in Hchat; [|done|done|by eapply inv_unused].
  destruct Hchat as (d1 & ctx & i & Hc & Hcorr & Hlt & Hd' & _ & before & e & Hpre & Hbus & He & Hst).
  set (started := (corr, session_of_turn body config d0, request_message body) :: st) in *.
  assert (corr ∉ gave_up d') as Hgone.
  { rewrite Hd'. simpl. rewrite (quiet_gone _ _ Hc). intros (j & Hj & ?)%(books_gone _ Hbooks).
    rewrite Hcorr in Hj. apply (inj _) in Hj. simpl in *. lia. }
  assert (bus d' = before ++ [mkPublished corr (Mentor e)]) as Hbus' by (by rewrite Hd').
  assert (turns d' !! corr = Some ctx) as Hturn by (rewrite Hd'; simpl; by rewrite lookup_insert_eq).
  assert (∀ stage k, length before ≤ k → (stage, k) ∉ dn) as Hnew.
  { intros stage k Hk Hin%(books_delivered _ Hbooks). simpl in Hin. apply prefix_length in Hpre. lia. }
  clear Hd'.
  set (d2 := curate_and_publish cfg out e None d').
  assert (turn_step corr (mkSystem d' ts dn started)
    (mkSystem d2 (ts ++ []) ((IdStage, length before) :: dn) started)) as Hs1.
  { eapply (turn_message corr IdStage _ (mkPublished corr (Mentor e)) None); [done| |by apply Hnew|].
    - rewrite Hbus'. by apply list_lookup_middle.
    - unfold on_message. simpl. by rewrite decide_True. }
  rewrite app_nil_r in Hs1. pose proof (inv_step _ _ (turn_step_step _ _ _ Hs1) Hinv1) as Hinv2.
  pose proof (curate_quiet e None d') as [[Ht2 _ Hg2 _ _ _ _] _]. fold d2 in Ht2, Hg2.
  destruct (curate_up e None d') as (_ & payload & _ & _ & Hbus2). fold d2 in Hbus2. rewrite He in Hbus2.
  assert (turn_step corr (mkSystem d2 ts ((IdStage, length before) :: dn) started)
    (mkSystem (take_turn corr d2) (ts ++ [Answering corr payload ctx])
       ((EgoStage, length (bus d')) :: (IdStage, length before) :: dn) started)) as Hs2.
  { eapply (turn_message corr EgoStage _ (mkPublished corr (Reaction payload)) None).
    - done.
    - rewrite Hbus2. by apply list_lookup_middle.
    - intros [?|Hin]%elem_of_cons; [done|]. revert Hin. apply Hnew.
      rewrite Hbus', length_app. lia.
    - unfold on_message. simpl. by rewrite Ht2, Hturn. }
  destruct (tasks_answer corr payload ctx (take_turn corr d2) ts _ _ ltac:(simpl; by rewrite Hg2) (inv_step _ _ (turn_step_step _ _ _ Hs2) Hinv2))
    as (d5 & Hsteps & Ho).
  split; [exact Hs|].
  exists (mkSystem d5 ts ((EgoStage, length (bus d')) :: (IdStage, length before) :: dn) started).
  split; [|exact Ho].
  eapply nsteps_l; [exact Hs1|]. eapply nsteps_l; [exact Hs2|]. exact Hsteps.
Qed.

End working.

(** ** What stays on this machine *)

(** At most one request was made meanwhile, and it was made to Id. *)
Definition asks_id_only d d' : Prop :=
  asked (net (brain d')) = asked (net (brain d)) ∨
  ∃ request, asked (net (brain d')) = asked (net (brain d)) ++ [(Router.Id, request)].

Lemma forced_route messages late d :
  asks_id_only d (ask_id cfg messages late d).1.
Proof.
  right. destruct late as [w|]; [by eexists|]. unfold ask_id, route_request, send.
  destruct (route_unified _ _ _ _) as [[r n] o] eqn:Hr. simpl.
  apply forced_id_asks in Hr; [|done]. eexists. exact Hr.
Qed.

Lemma announce_brain corr (m : Body) d : brain (announce_on_bus out corr m d) = brain d.
Proof. unfold announce_on_bus, publish. by destruct (broker_fault _ _). Qed.

Lemma curate_local e late d : asks_id_only d (curate_and_publish cfg out e late d).
Proof.
  unfold curate_and_publish. cbv zeta. set (local := _ && _).
  assert (asks_id_only d (consult_id cfg local (mentor_message e) late d).1) as Hc.
  { unfold consult_id. destruct (negb local); [by left|].
    pose proof (forced_route [new_message "system" (consult_prompt (agent_name cfg));
      new_message "user" (mentor_message e)] late d) as Ha.
    destruct (ask_id _ _ _ _) as [d' [r|e']]; [|exact Ha]. by destruct (str_is_empty _). }
  destruct (consult_id _ _ _ _ _) as [d' [signal consult]].
  unfold asks_id_only in *. by rewrite announce_brain.
Qed.

Lemma judge_local corr a late d : asks_id_only d (judge_exchange cfg out corr a late d).
Proof.
  unfold judge_exchange. cbv zeta. set (d1 := announce_on_bus _ _ _ _).
  assert (brain d1 = brain d) as Hd1 by apply announce_brain.
  unfold asks_id_only. rewrite <- Hd1. fold (asks_id_only d1).
  destruct (action_response a) as [response|]; [|by left]. destruct (negb _); [by left|].
  destruct (build_llm_judgment_prompt _ _ _ _) as [system user].
  pose proof (forced_route [new_message "system" system; new_message "user" user] late d1) as Ha.
  destruct (ask_id _ _ _ _) as [d2 [resp|e]]; [|exact Ha].
  destruct (parse_llm_verdict _ _); [|exact Ha]. unfold asks_id_only in *. by rewrite announce_brain.
Qed.

Lemma record_brain a d : brain (record cfg out a d) = brain d.
Proof.
  assert (∀ kind v d, brain (queue_outbox_record cfg out kind v d).1 = brain d) as Hq.
  { intros kind v d0. unfold queue_outbox_record.
    destruct (Outbox.enqueue _ _ _ _ _ _ _ _) as [o [r|e]]; [|done].
    by destruct (append_outbox_event _ _ _ _ _ _ _ _ _ _ _ _) as [l [r'|e]]. }
  assert (∀ d, brain (maybe_auto_archive cfg d) = brain d) as Ha.
  { intros d0. unfold maybe_auto_archive. by destruct (_ <=? _)%Z. }
  unfold record, lifecycle. destruct (action_response a); [|by rewrite announce_brain].
  destruct (decide _); by rewrite announce_brain, ?Ha, ?Hq.
Qed.

Lemma govern_net payload d :
  asked (net (brain (govern cfg out parse_assignments provider_snapshot build_router payload d))) =
  asked (net (brain d)).
Proof.
  unfold govern. destruct (decide _).
  - unfold apply_skill_assignments. destruct (parse_assignments _) as [l|]; [|done].
    enough (∀ l d, brain (foldl (λ d a, tick (push_skill_ack (refreshed_ack cfg out d a) d)) d l) = brain d)
      as Hf by (by rewrite Hf).
    intros l'. induction l' as [|x l' IH]; intros d'; [done|]. simpl. by rewrite IH.
  - destruct (decide _); [|done]. unfold apply_provider_refresh. by destruct (provider_snapshot _).
Qed.

(** C23: the personality consult and the judge keep the conversation on this machine:
    the Id stage and the judge make at most one request to a model, and only to Id,
    never to the Ego, whatever Id answers, even when it fails and even when the wait
    for it is given up after the time limit ([late]); the journal and governance make
    none. *)
Theorem consult_and_judge_stay_local e corr a payload late d :
  asks_id_only d (curate_and_publish cfg out e late d) ∧
  asks_id_only d (judge_exchange cfg out corr a late d) ∧
  asked (net (brain (record cfg out a d))) = asked (net (brain d)) ∧
  asked (net (brain (govern cfg out parse_assignments provider_snapshot build_router payload d))) =
    asked (net (brain d)).
Proof.
  split; [apply curate_local|]. split; [apply judge_local|].
  split; [by rewrite record_brain|apply govern_net].
Qed.

(** ** What the client of a stream sees *)

Section streams.
Context (Hregex : regex_spec (find_iter (segments cfg))).
Notation is_blocked := (is_blocked (find_iter (segments cfg))).

(** What a stream shows, and any completion it ends with, passes the gate. *)
Definition clean_stream (l : list Superego.StreamEvent) : Prop :=
  is_blocked (text l) = false ∧ ∀ c, Superego.Done c ∈ l → is_blocked c = false.

Lemma gate_tokens events :
  tokens_only events → ∃ ts, map gate_event events = tokens ts.
Proof.
  induction 1 as [|e events He _ [ts IH]]; [by exists []|].
  destruct e as [t|r]; [|done]. exists (t :: ts). simpl. by rewrite IH.
Qed.

Lemma relay_shows_clean events :
  (tokens_only events ∨ ∃ sent r, tokens_only sent ∧ events = sent ++ [Cognitive.Done r]) →
  clean_stream (sent (spawn_gated_relay (find_iter (segments cfg)) (map gate_event events))).
Proof.
  intros [Ht|(l & r & Ht & ->)]; apply gate_tokens in Ht as [ts Ht].
  - rewrite Ht. pose proof (relay_tokens _ Hregex ts) as Hr.
    split; [by eapply relay_inv_clean|]. intros c Hc. destruct Hr as (_ & _ & Hn & _).
    destruct Hn. by exists c.
  - rewrite map_app, Ht. unfold spawn_gated_relay. rewrite foldl_app. simpl.
    pose proof (relay_tokens _ Hregex ts) as Hr. unfold spawn_gated_relay in Hr.
    set (r0 := foldl _ new_relay (tokens ts)) in *.
    pose proof (relay_done _ _ _ (reply r) Hr) as Hd. cbv zeta in Hd.
    pose proof Hr as (_ & _ & Hn & Hopen & _). unfold clean_stream.
    destruct (downstream r0) eqn:Ho, (is_blocked (reply r)) eqn:Hb; simpl in Hd.
    2: { destruct Hd as (_ & -> & _ & Hx). split; [by apply Hopen|]. intros c ->%Hx. done. }
    all: destruct Hd as [_ ->]; (split; [by eapply relay_inv_clean|]);
      intros c Hc; destruct Hn; by exists c.
Qed.

Definition sends_well (events : list Cognitive.StreamEvent) : Prop :=
  tokens_only events ∨ ∃ sent r, tokens_only sent ∧ events = sent ++ [Cognitive.Done r].

Lemma think_channel corr payload ctx interrupted messages b b' r :
  streams ctx = true →
  (∀ b0 token, interrupted = Some b0 → Pipeline.cancel ctx = Some token → sends_well (channel (net b0))) →
  think cfg corr payload ctx interrupted messages b = (b', r) → sends_well (channel (net b')).
Proof.
  intros Hs Hi. unfold think. rewrite Hs.
  assert (∀ b0, stream_chat_pipeline (trace_uuid cfg) (trace_clock cfg)
      (skill_call (Some (mkJobContext 0 (Some corr)))) messages
      (build_tool_definitions (parameters cfg) (registry cfg)) (reaction_model payload)
      (fresh_channel b0) = (b', r) → sends_well (channel (net b'))) as Hp.
  { intros b0. unfold stream_chat_pipeline, on_messages. intros Hr%stream_rounds_streamed.
    destruct Hr as (toks & Ht & Hr). destruct r as [u|e]; simpl in Hr.
    - destruct Hr as (response & -> & _). right. by exists toks, response.
    - rewrite Hr. by left. }
  destruct interrupted as [b0|]; [|apply Hp]. destruct (Pipeline.cancel ctx) as [token|]; [|apply Hp].
  intros [= <- <-]. by eapply Hi.
Qed.

Lemma answer_turn_streams corr payload ctx interrupted d d' a :
  may_interrupt (Answering corr payload ctx) interrupted d →
  answer_turn cfg out corr payload ctx interrupted d = (d', a) →
  streamed d' = streamed d ∨
  ∃ l, streamed d' = streamed d ++ [(corr, l)] ∧ clean_stream l.
Proof.
  intros Hmay. unfold answer_turn. cbv zeta.
  destruct (think _ _ _ _ _ _ _) as [b r] eqn:Ht.
  set (d1 := if streams ctx then _ else _).
  intros Hr. assert (streamed d' = streamed d1) as ->.
  { destruct r as [result|detail]; injection Hr as <- _; [|done].
    destruct (execution_trace result) as [t|]; [|done]. apply quiet_announce. }
  unfold d1. destruct (streams ctx) eqn:Hs; [right|by left]. simpl.
  eexists. split; [done|]. apply relay_shows_clean.
  eapply think_channel; [exact Hs| |exact Ht]. intros b0 token -> Hc.
  destruct (Hmay b0 eq_refl) as (? & ? & ? & ? & _ & _ & _ & l & Hl & Hch).
  destruct Hch as [->|[r' ->]]; [by left|right; by exists l, r'].
Qed.

Lemma chat_streamed (streaming : bool) body config d d' r :
  (if streaming then chat_stream cfg out build_router body config d
   else chat cfg out build_router body config d) = (d', r) → streamed d' = streamed d.
Proof.
  unfold chat, chat_stream.
  destruct (open_turn cfg out build_router body config d) as [d0 ss] eqn:Ho.
  pose proof (proj2 (open_turn_quiet body config d)) as H1'. rewrite Ho in H1'. simpl in H1'.
  destruct (Pipeline.persist_turn _ _ _ _) as [d1 saved_] eqn:Hp.
  apply persist_turn_saves in Hp as [[_ Hp] _]; [|done].
  pose proof (proj2 (quiet_queue "chat_user_turn" (user_turn_record ss (request_message body)) d1)) as Hq.
  assert (∀ ss m model ctx d2 d3 o,
    begin_turn cfg out ss m model ctx d2 = (d3, o) → streamed d3 = streamed d2) as Hb.
  { intros ss' m model ctx d2 d3 o. unfold begin_turn, publish, take_turn. cbv zeta.
    destruct (broker_fault _ _); by intros [= <- _]. }
  destruct streaming.
  - destruct (replace_token _) as [d3 token] eqn:Hd3. unfold replace_token in Hd3. injection Hd3 as <- _.
    destruct saved_ as [[]|e]; [|intros [= <- _]; simpl; congruence].
    destruct (begin_turn _ _ _ _ _ _ _) as [d4 o] eqn:Hb4. apply Hb in Hb4. simpl in Hb4.
    destruct o; intros [= <- _]; congruence.
  - destruct saved_ as [[]|e]; [|intros [= <- _]; congruence].
    destruct (begin_turn _ _ _ _ _ _ _) as [d4 o] eqn:Hb4. apply Hb in Hb4.
    destruct o; intros [= <- _]; congruence.
Qed.

Lemma step_streams y y' :
  inv y → step y y' → (∀ corr l, (corr, l) ∈ streamed (entity y) → clean_stream l) →
  ∀ corr l, (corr, l) ∈ streamed (entity y') → clean_stream l.
Proof.
  intros Hi Hs Hcl.
  enough (streamed (entity y') = streamed (entity y) ∨
    ∃ corr l, streamed (entity y') = streamed (entity y) ++ [(corr, l)] ∧ clean_stream l)
    as [->|(corr & l & -> & Hl)]; [exact Hcl| |].
  { intros c l' [?|Hin%list_elem_of_singleton]%elem_of_app; [by eapply Hcl|]. by injection Hin as -> ->. }
  destruct Hs as [streaming body config d ts dn st d' r Hc|stage i p late d ts dn st d' new Hl _ Hm
    |interrupted t before after d d' new dn st Hmay Hr|corr ss m d ts dn st Hin|d ts dn st|d ts dn st
    |context corr content d ts dn st|corr content d ts dn st|m d ts dn st Hm Hn]; simpl;
    try (left; done).
  - left. by eapply chat_streamed.
  - left. unfold on_message in Hm. destruct stage, (body p); try (by injection Hm as <- _).
    + destruct (decide _); injection Hm as <- _; [apply curate_quiet|done].
    + destruct (turns d !! correlation p); by injection Hm as <- _.
    + injection Hm as <- _. apply record_quiet.
    + injection Hm as <- _. apply judge_quiet.
    + injection Hm as <- _. apply govern_quiet.
  - pose proof Hi as [Im If _ _ _ It _]. simpl in *.
    destruct t as [corr payload ctx|corr a|corr a]; simpl in Hr.
    + destruct (answer_turn _ _ _ _ _ _ _) as [d1 a] eqn:Ha. injection Hr as <- _.
      apply answer_turn_streams in Ha as [?|(l & ? & ?)]; [by left|right; by exists corr, l|done].
    + left. destruct (save_reply _ _ _ _) as [d1 a'] eqn:Ha. injection Hr as <- _.
      apply save_reply_spec in Ha as ([_ ?] & _); [done|done|by apply fresh_none|].
      apply (It (Saving corr a)). set_solver.
    + left. injection Hr as <- _. unfold announce.
      destruct (quiet_announce corr (Action a) d) as [_ ?]. by destruct (decide _).
  - left. unfold cancel_chat_stream. by destruct (active_stream_cancel d).
  - left. apply observe_quiet.
  - left. apply quiet_announce.
Qed.

(** Whatever the models send, however it is cut into tokens, and wherever a turn is
    cut short, what any client of a stream is shown contains no key and no social
    security number, not even in part across tokens, and no completion that
    contains one. *)
Theorem streams_are_clean d y corr l :
  initial d → rtc step (mkSystem d [] [] []) y → (corr, l) ∈ streamed (entity y) →
  is_blocked (text l) = false ∧ ∀ c, Superego.Done c ∈ l → is_blocked c = false.
Proof.
  intros Hi Hr. pose proof (inv_initial _ Hi) as Hinv.
  destruct Hi as (_ & _ & _ & Hst & _). revert corr l.
  assert (∀ corr l, (corr, l) ∈ streamed (entity (mkSystem d [] [] [])) → clean_stream l) as Hcl
    by (simpl; rewrite Hst; set_solver).
  clear Hst. induction Hr as [y|y1 y2 y3 Hs _ IH]; [exact Hcl|].
  apply IH; [by eapply inv_step|by eapply step_streams].
Qed.
End streams.
End pipeline.

(** ** Witnesses *)

Module PipelineDemo.

#[global] Instance demo_templates : Templates := {|
  SOUL_MD := "I am Ada."; ETHICS_MD := "Do no harm."; INSTINCTS_MD := "Be kind.";
  CAPABILITIES_MD := "Chat."; TRIANGLE_ETHICS_OPERATIONAL_MD := "Weigh."; SOUL_TEMPLATE_MD := "{name}" |}.
#[global] Instance demo_tools : ToolHost nat :=
  λ _ _ _ _ h, (S h, Ok (mkToolOutput true None None None)).
#[global] Existing Instance toy_json.
#[global] Existing Instance MemDemo.host.
#[global] Instance demo_host_laws : VaultHostLaws (H:=MemDemo.host) := VaultDemo.host_laws _ _.

Definition uuid (n : nat) : string := "id-" +:+ pretty n.
#[global] Instance uuid_inj : Inj (=) (=) uuid.
Proof. intros i j Hij. by apply (inj (String.append "id-")), (inj pretty) in Hij. Qed.

(** The matches of the toy engine of [GateSpec] as segments. *)
Definition segments (pattern s : string) : list (string * string) * string :=
  match toy_find_iter pattern s with
  | [] => ([], s)
  | ms => (map (λ m, ("", m)) ms, "")
  end.

Definition world : Outside (Time:=string) :=
  
  {| fresh_uuid := uuid; now := pretty; Pipeline.nonce := λ _, MemDemo.nonce;
     broker_fault := λ _, None; disk_fault := λ _, None |}.

Definition setup : Setup (Time:=string) (Key:=string) :=
  {| entity_id := "ada"; soul_ref := "soul"; is_hive := false; agent_name := Some "Ada";
     docs_dir := []; has_exporter := true; registry := mkRegistry ∅ None Toy.policy;
     parameters := λ _, Null; instructions := empty_instructions; store_entity := None;
     unlock := MemDemo.unlock; to_rfc3339 := id; parse_rfc3339 := Ok; time_leb := String.leb;
     day_of := id; Pipeline.segments := segments; is_uuid := λ _, true; sha256 := id;
     print_payload := MemDemo.print_payload; print_outbox := λ _, ""; print_ledger := λ _, "";
     session_of := λ _, None; parse_verdict := λ _, None; is_alphanumeric := λ _, true;
     unicode_lowercase := id; read_file := λ _, None; cwd := None; exe_dir := None;
     write_spill := λ _, None; trace_uuid := pretty; trace_clock := λ i j, pretty j |}.

(** The model answers every request. *)
Definition complete_ (request : CompletionRequest Value) (w : nat)
  : nat * result CompletionResponse string := (S w, Ok (mkResponse "hello there" None)).
Definition provider : LlmProvider Value nat := mkProvider complete_ (default_stream complete_).
Definition router : IdEgoRouter Value nat :=
  mkRouter provider (Some provider) (Some OpenAi) None EgoPrimary None [].

Notation DemoDaemon := (Daemon (TB:=gmap string BirthDoc) (TM:=gmap string MemoryDoc)
  (TT:=gmap string TurnDoc) (TP:=gmap string ProtectedTopicDoc)
  (TE:=gmap string ProtectedTopicEntryDoc) (W:=nat) (H:=nat)).

Definition start : DemoDaemon :=
  mkDaemon ∅ (mkChat router (mkNet 0 [] []) 0 []) None MemDemo.empty
    (mkOutbox 64 Outbox.PersistedOutbox_default None) (mkLedger [] None) [] [] [] 0 0 None ∅ ∅ [] [] 0.

Definition body : ChatRequest := mkChatRequest "hi" None (Some "s1") None.
Definition no_skills (_ : Value) : option (list SkillAssignment) := None.
Definition no_config (_ : Value) : option Value := None.
Definition build (_ : Value) : IdEgoRouter Value nat := router.

Definition begin (streaming : bool) : DemoDaemon * result string string :=
  if streaming then chat_stream setup world build body None start
  else chat setup world build body None start.
Definition d1 streaming := (begin streaming).1.
Definition message (d : DemoDaemon) (i : nat) : Published :=
  unwrap_or (bus d !! i) (mkPublished "" (Governance Null)).
Definition handle (stage : Stage) (i : nat) (d : DemoDaemon) :=
  on_message setup world no_skills no_config build stage (message d i) None d.
Definition d2 streaming := (handle IdStage 1 (d1 streaming)).1.
Definition d3 streaming := (handle EgoStage 2 (d2 streaming)).1.
Definition t3 streaming : Task :=
  unwrap_or (head (handle EgoStage 2 (d2 streaming)).2)
    (Announcing "" (failed_action (mkReaction "" "" None "" None "" "" "") "")).
Definition run (t : Task) (d : DemoDaemon) := run_task setup world None t d.
Definition next (l : list Task) : Task :=
  unwrap_or (head l) (Announcing "" (failed_action (mkReaction "" "" None "" None "" "" "") "")).
Definition d4 streaming := (run (t3 streaming) (d3 streaming)).1.
Definition t4 streaming := next (run (t3 streaming) (d3 streaming)).2.
Definition d5 streaming := (run (t4 streaming) (d4 streaming)).1.
Definition t5 streaming := next (run (t4 streaming) (d4 streaming)).2.
Definition d6 streaming := (run (t5 streaming) (d5 streaming)).1.

Lemma pair_eq {A B} (p : A * B) b : p.2 = b → p = (p.1, b).
Proof. destruct p. by intros <-. Qed.

Notation step_ := (step setup world no_skills no_config build).
Definition corr (streaming : bool) : string := if streaming then "id-6" else "id-5".
Definition started streaming : list (string * string * string) :=
  [(corr streaming, session_of_turn setup world build body None start, "hi")].
Definition ended streaming : System := mkSystem (d6 streaming) [] [(EgoStage, 2); (IdStage, 1)] (started streaming).

Lemma begun_ok streaming : begin streaming = (d1 streaming, Ok (corr streaming)).
Proof. apply pair_eq. destruct streaming; vm_compute; reflexivity. Qed.

Lemma reaches streaming : rtc step_ (mkSystem start [] [] []) (ended streaming).
Proof.
  eapply rtc_l.
  { apply (step_chat setup world no_skills no_config build streaming body None start [] [] []
      (d1 streaming) (Ok (corr streaming))), begun_ok. }
  eapply rtc_l.
  { apply (step_message setup world no_skills no_config build IdStage 1 (message (d1 streaming) 1) None
      (d1 streaming) [] [] (started streaming) (d2 streaming) []).
    - destruct streaming; vm_compute; reflexivity.
    - apply not_elem_of_nil.
    - apply pair_eq. destruct streaming; vm_compute; reflexivity. }
  eapply rtc_l.
  { apply (step_message setup world no_skills no_config build EgoStage 2 (message (d2 streaming) 2) None
      (d2 streaming) [] [(IdStage, 1)] (started streaming) (d3 streaming) [t3 streaming]).
    - destruct streaming; vm_compute; reflexivity.
    - intros [=]%list_elem_of_singleton.
    - apply pair_eq. destruct streaming; vm_compute; reflexivity. }
  eapply rtc_l.
  { apply (step_task setup world no_skills no_config build None (t3 streaming) [] [] (d3 streaming)
      (d4 streaming) [t4 streaming]); [done|].
    apply pair_eq. destruct streaming; vm_compute; reflexivity. }
  eapply rtc_l.
  { apply (step_task setup world no_skills no_config build None (t4 streaming) [] [] (d4 streaming)
      (d5 streaming) [t5 streaming]); [done|].
    apply pair_eq. destruct streaming; vm_compute; reflexivity. }
  apply rtc_once, (step_task setup world no_skills no_config build None (t5 streaming) [] [] (d5 streaming)
      (d6 streaming) []); [done|].
  apply pair_eq. destruct streaming; vm_compute; reflexivity.
Qed.

Definition reply_of streaming : ChatResponse :=
  match (d6 streaming).(answered) with
  | [(_, Ok r)] => r
  | _ => mkChatResponse "" None [] None None None None None
  end.
Definition shown : list Superego.StreamEvent := [Superego.Token "hello there"; Superego.Done "hello there"].

Lemma answered_ok streaming : (corr streaming, Ok (reply_of streaming)) ∈ answered (entity (ended streaming)).
Proof.
  assert (answered (entity (ended streaming)) = [(corr streaming, Ok (reply_of streaming))]) as ->;
    [destruct streaming; vm_compute; reflexivity|apply list_elem_of_here].
Qed.
Lemma reply_session streaming : response_session (reply_of streaming) = Some "s1".
Proof. destruct streaming; vm_compute; reflexivity. Qed.
Lemma streamed_ok : (corr true, shown) ∈ streamed (entity (ended true)).
Proof.
  assert (streamed (entity (ended true)) = [(corr true, shown)]) as -> by (vm_compute; reflexivity).
  apply list_elem_of_here.
Qed.

Lemma chat_started_ok : (corr true, "s1", "hi") ∈ begun (ended true).
Proof.
  assert (begun (ended true) = [(corr true, "s1", "hi")]) as -> by (vm_compute; reflexivity).
  apply list_elem_of_here.
Qed.

Lemma start_initial : initial world start.
Proof. split_and!; done. Qed.
End PipelineDemo.

Import PipelineDemo.

Lemma delivered_replies_witness :
  ∃ i (doc : TurnDoc), contents (conversation_turns (memory (entity (ended false)))) !! fresh_uuid world i = Some doc ∧
    doc_session doc = "s1" ∧ doc_role doc = "assistant".
Proof.
  destruct (delivered_replies setup world no_skills no_config build start (ended false) (corr false)
    (reply_of false) start_initial (reaches false) (answered_ok false))
    as (_ & ss & i & doc & Hss & Hdoc & Hs & Hrole & _).
  pose proof (f_equal (λ o, unwrap_or o "") (eq_trans (eq_sym Hss) (reply_session false))) as Heq.
  exists i, doc. split; [exact Hdoc|]. split; [exact (eq_trans Hs Heq)|exact Hrole].
Defined.

Lemma turns_accounted_witness :
  NoDup (map task_turn (tasks (ended true)) ++ (answered (entity (ended true))).*1) ∧
  ∃ i (doc : TurnDoc), contents (conversation_turns (memory (entity (ended true)))) !! fresh_uuid world i = Some doc ∧
    doc_session doc = "s1" ∧ doc_role doc = "user".
Proof.
  destruct (turns_accounted setup world no_skills no_config build start (ended true) start_initial
    (reaches true)) as [Hn Hb]. split; [exact Hn|].
  destruct (Hb (corr true) "s1" "hi" chat_started_ok) as (_ & i & doc & Hdoc & Hs & Hr & _).
  exists i, doc. split_and!; [exact Hdoc|exact Hs|exact Hr].
Defined.

Lemma respond_outcomes_witness :
  ∃ o, answered (respond setup world "c" (mkReaction "s1" "hi" None "prompt" None "skipped" "" "")
         (mkContext None false None) None start) = answered start ++ [("c", o)].
Proof.
  destruct (respond_outcomes setup world "c" (mkReaction "s1" "hi" None "prompt" None "skipped" "" "")
    (mkContext None false None) None start) as (o & Ho & _); [|exists o; exact Ho].
  apply not_elem_of_empty.
Defined.

Lemma begun_turn_is_answered_witness :
  ∃ y', nsteps (turn_step setup world no_skills no_config build (corr true)) 5
      (mkSystem (d1 true) [] [] (started true)) y' ∧
    ∃ o, (corr true, o) ∈ answered (entity y').
Proof.
  destruct (begun_turn_is_answered setup world no_skills no_config build (λ _, eq_refl) start
    (mkSystem start [] [] []) true body None (d1 true) (corr true) start_initial (rtc_refl _ _)
    (begun_ok true)) as (_ & y' & Hn & Ho).
  exists y'. split; [exact Hn|exact Ho].
Defined.

Lemma demo_regex : regex_spec (find_iter (Pipeline.segments setup)).
Proof.
  intros pattern k Hk s. rewrite <- (toy_find_iter_ok _ _ Hk). unfold find_iter. simpl. unfold segments.
  destruct (toy_find_iter pattern s); simpl; [done|]. by split.
Qed.

Lemma streams_are_clean_witness : is_blocked (find_iter (Pipeline.segments setup)) (text shown) = false.
Proof.
  exact (proj1 (streams_are_clean setup world no_skills no_config build demo_regex start (ended true)
    (corr true) shown start_initial (reaches true) streamed_ok)).
Defined.

(** ** What the pipeline does that it should not *)

(** An error that mentions an interruption, in any case, is shown as it is. *)
Theorem raw_error_is_shown payload :
  let e := "http 502 from https://10.0.0.7/v1: upstream Interrupted By User session key=42" in
  outcome_of (failed_action payload e) = Err e.
Proof. reflexivity. Qed.

(** The end of a stream forgets the token of the stream that replaced it: the newer
    one can no longer be cancelled, while its turn goes on. *)
Theorem newer_stream_cannot_be_cancelled :
  let first := chat_stream setup world build body None start in
  let second := chat_stream setup world build body None first.1 in
  match second.2 with
  | Ok c => ∃ ctx token, turns second.1 !! c = Some ctx ∧ Pipeline.cancel ctx = Some token ∧
      active_stream_cancel second.1 = Some token ∧
      (cancel_chat_stream (clear_token second.1)).2 = false ∧
      token ∉ cancelled_tokens (cancel_chat_stream (clear_token second.1)).1
  | Err _ => False
  end.
Proof.
  vm_compute. eexists _, _. split_and!; try reflexivity. intros H. by vm_compute in H.
Qed.
