(* ===== verification/JobToolsSpec.v ===== *)
(** * The job tools and the delegation of a turn: correctness

    A job submitted from a conversation nests one level below the job that submits
    it and inherits its correlation id, or is refused at the limit; a delegated
    turn leaves one job with the turns that are left.  Then what the tools do that
    they should not. *)

From S2P Require Import Prelude RustStr JobTypes RecordStore JobQueue JobQueueFacts JobQueueProps Json.
From S2P Require Import Paths SkillPolicy SkillExecutor Cognitive Router RouterSpec Chat JobTools ChatLoop.
From S2P Require Import ChatSpec ChatLoopSpec.
From Stdlib Require Import ZArith Lia Ascii.
From stdpp Require Import base list sets strings gmap fin_maps pretty.

Open Scope rust_scope.

Lemma job_tools_advertised :
  Forall (λ d, is_job_tool (def_name d) = true ∧ get "type" (def_parameters d) = Some (Str "object"))
    job_tool_definitions ∧ map def_name job_tool_definitions = job_tool_names.
Proof. split; [repeat (constructor; [by vm_compute|]); constructor|done]. Qed.

Section jobs.
Context {Time T : Type} `{RecordStoreLaws T (JobRecord Value)} `{JsonText}.
Context (to_rfc3339 : Time → string) (add_seconds : Time → Z → option Time).
Context (cron_valid : string → bool).
Notation execute_job_tool := (execute_job_tool to_rfc3339 add_seconds cron_valid).
Notation submit_job := (submit_job to_rfc3339 add_seconds).
Implicit Types q : JobQueue T.

(** What a submission leaves: the queue as it was, or one more job. *)
Definition submitted (uuid : string) (spec : JobSpec Value) q q' : Prop :=
  q' = q ∨
  ((spec_depth spec ≤ MAX_SUBAGENT_DEPTH)%Z ∧ jobs q !! uuid = None ∧
   ∃ now expires, let r := new_record spec uuid now expires in
     jobs q' = <[uuid := r]> (jobs q) ∧
     published q' = published q ++ [JobQueued uuid (job_topic r) (job_capability r) (job_priority r)]).

Lemma submit_submitted uuid now spec q q' o :
  submit_job uuid now spec q = (q', o) →
  submitted uuid spec q q' ∧ (is_ok o = false → q' = q).
Proof.
  intros Hs%submit_job_effect. destruct o as [i|e].
  - destruct Hs as (_ & Hd & Hf & expires & ? & ?). split; [|done]. right.
    split; [done|]. split; [done|]. by exists (to_rfc3339 now), expires.
  - subst. split; [by left|done].
Qed.

Lemma answer_inv {A} (op : M (JobQueue T) string A) failed ok q q' o :
  answer op failed ok q = (q', o) → ∃ r v, op q = (q', r) ∧ o = Ok v.
Proof. unfold answer. destruct (op q) as [q1 [a|e]]; intros [= <- <-]; eauto. Qed.

Lemma submit_tool_nests uuid now args ctx q q' o :
  execute_job_tool uuid now TOOL_SUBMIT_JOB args ctx q = (q', o) →
  let d := as_u32 (unwrap_or (depth <$> ctx) 0 + 1)%Z in
  (∃ text, o = Ok text) ∧
  (q' = q ∨
   (d ≤ MAX_SUBAGENT_DEPTH)%Z ∧ jobs q !! uuid = None ∧
   ∃ r, jobs q' = <[uuid := r]> (jobs q) ∧ JobTypes.job_depth r = d ∧
        job_parent_correlation_id r = ctx ≫= job_correlation_id ∧
        job_status r = Queued ∧ job_is_recurring r = false).
Proof.
  unfold JobTools.execute_job_tool. rewrite decide_True by done.
  unfold execute_submit. intros Hm. apply M_bind_inv in Hm as [(q1 & v & Hm & Hk)|(e & Hm & ->)].
  - unfold mret, M_ret in Hk. simplify_eq. split; [eauto|].
    destruct (direct_call_of args) as [call|e].
    + apply answer_inv in Hm as (r & v' & Hs & _). apply submit_submitted in Hs as [Hs _].
      destruct Hs as [->|(Hd & Hf & t & e & Hj & _)]; [by left|right].
      split; [exact Hd|]. split; [done|]. eexists. split; [exact Hj|]. done.
    + unfold mret, M_ret in Hm. simplify_eq. by left.
  - destruct (direct_call_of args) as [call|e'].
    + by apply answer_inv in Hm as (r & v & _ & ?).
    + by unfold mret, M_ret in Hm.
Qed.

(** A job submitted from a conversation of a job is one level deeper than it and
    carries its correlation id (from a chat turn: level 1); past the limit of
    nesting, or when the arguments or the store refuse it, the queue is as it was.
    There is always an answer for the model. *)
Theorem submitted_job_nests uuid now args ctx q q' o :
  execute_job_tool uuid now TOOL_SUBMIT_JOB args ctx q = (q', o) →
  let d := as_u32 (unwrap_or (depth <$> ctx) 0 + 1)%Z in
  (∃ text, o = Ok text) ∧
  (q' = q ∨
   (d ≤ MAX_SUBAGENT_DEPTH)%Z ∧ jobs q !! uuid = None ∧
   ∃ r, jobs q' = <[uuid := r]> (jobs q) ∧ JobTypes.job_depth r = d ∧
        job_parent_correlation_id r = ctx ≫= job_correlation_id ∧
        job_status r = Queued ∧ job_is_recurring r = false).
Proof. apply submit_tool_nests. Qed.

Lemma nesting_refused uuid now args (ctx : JobContext) q :
  (MAX_SUBAGENT_DEPTH ≤ depth ctx)%Z → (depth ctx < u32_modulus - 1)%Z →
  (execute_job_tool uuid now TOOL_SUBMIT_JOB args (Some ctx) q).1 = q.
Proof.
  intros Hd Hm. destruct (execute_job_tool _ _ _ _ _ q) as [q' o] eqn:E.
  apply submit_tool_nests in E as (_ & [?|(Hl & _)]); [done|].
  simpl in Hl. rewrite as_u32_small in Hl; unfold MAX_SUBAGENT_DEPTH in *; lia.
Qed.
End jobs.

(** ** What a loop keeps of its host *)

Section host.
Context {W H : Type}.
Context (uuid : nat → string) (clock : nat → nat → string).
Context (call : ToolCall → M H string (string * ToolCallRecord)).
Context (R : H → H → Prop) `{!PreOrder R} (call_respects : ∀ tc, respects R (call tc)).
Notation ChatState := (ChatState W H).

Definition on_hosts_of (s s' : ChatState) : Prop := R (host s) (host s').

#[local] Instance on_hosts_preorder : PreOrder on_hosts_of.
Proof.
  unfold on_hosts_of. split.
  - intros s. done.
  - intros s1 s2 s3 H12 H23. by transitivity (host s2).
Qed.

Lemma respects_run_calls calls records : respects on_hosts_of (run_calls call calls records).
Proof.
  revert records. induction calls as [|tc calls IH]; intros records; [apply respects_ret, _|].
  apply respects_bind; [apply _| |intros ?; apply IH].
  intros s s' o. unfold run_call, on_hosts_of.
  destruct (call tc (host s)) as [h [[output record]|e]] eqn:E; intros [= <- <-];
    by apply call_respects in E.
Qed.

Lemma respects_rounds n request records last_trace :
  respects on_hosts_of (rounds uuid clock call n request records last_trace).
Proof.
  revert records last_trace. induction n as [|n IH]; intros records last_trace; [apply respects_ret, _|].
  cbn [rounds]. apply respects_bind; [apply _| |].
  - intros s s' o (_ & Hh & _)%send_spec. unfold on_hosts_of. by rewrite Hh.
  - intros resp. destruct (requested (completion resp)); [|apply respects_ret, _].
    apply respects_bind; [apply _| |intros ?; apply IH].
    unfold answer_calls. apply respects_bind; [apply _| |intros ?; apply respects_run_calls].
    intros s s' o. unfold push, modify, on_hosts_of. by intros [= <- <-].
Qed.
End host.

(** ** Delegation *)

Lemma turns_left_small k :
  (k ≤ MAX_TOOL_ROUNDS)%nat → turns_left k = (Z.of_nat MAX_TOOL_ROUNDS - Z.of_nat k)%Z.
Proof.
  intros Hk. unfold turns_left, as_u32, Prelude.as_u64, MAX_TOOL_ROUNDS in *.
  assert (0 ≤ 35 - Z.of_nat k < u32_modulus)%Z by (change u32_modulus with 4294967296%Z; lia).
  rewrite (Z.mod_small _ u64_modulus), Z.mod_small; [done|done|].
  change u64_modulus with 18446744073709551616%Z. change u32_modulus with 4294967296%Z in *. lia.
Qed.

Section delegation.
Context {W H Time T : Type} `{RecordStoreLaws T (JobRecord Value)} `{JsonText} `{ToolHost H}.
Context (uuid : nat → string) (clock : nat → nat → string).
Context (to_rfc3339 : Time → string) (add_seconds : Time → Z → option Time).
Context (job_uuid : nat → string) (job_now : nat → Time).
Notation Hosts := (H * JobQueue T)%type.
Notation delegate := (run_tool_use_loop_with_delegation uuid clock to_rfc3339 add_seconds job_uuid job_now).
Implicit Types s : ChatState W Hosts.

Definition same_queue (h h' : Hosts) : Prop := h.2 = h'.2.

#[local] Instance same_queue_preorder : PreOrder same_queue.
Proof. split; [by intros ?|intros ??? H12 H23; by transitivity (y.2)]. Qed.

Lemma skill_call_keeps_queue ctx tc :
  respects same_queue (on_host (T:=T) (skill_call (H:=H) ctx tc)).
Proof.
  intros h h' o. unfold on_host, same_queue.
  destruct (skill_call ctx tc h.1) as [h1 o1]. by intros [= <- <-].
Qed.

(** A turn that delegates its rest does so once, with asynchrony on and a queue at
    hand: the only change of the queue is one queued job of level 1, under the
    identifier it reports, whose turns are those the inline rounds left of the 35. *)
Theorem delegation_budget serialize messages tools config has_queue s s' partial job :
  delegate serialize messages tools config has_queue s = (s', Ok (Delegated partial job)) →
  async_enabled config = true ∧ has_queue = true ∧ jobs (host s).2 !! job = None ∧
  ∃ r, jobs (host s').2 = <[job := r]> (jobs (host s).2) ∧
    job_status r = Queued ∧ JobTypes.job_depth r = 1%Z ∧ job_job_mode r = "agentic_run" ∧
    job_max_turns r = turns_left (inline_max_rounds config) ∧
    ((inline_max_rounds config ≤ MAX_TOOL_ROUNDS)%nat →
     (Z.of_nat (inline_max_rounds config) + job_max_turns r)%Z = Z.of_nat MAX_TOOL_ROUNDS).
Proof.
  unfold run_tool_use_loop_with_delegation, on_messages. intros Hm.
  apply M_bind_inv in Hm as [(s1 & [[text records] t] & Hm & Hk)|(e & _ & ?)]; [|done].
  assert (same_queue (host s) (host s1)) as Hq.
  { change (on_hosts_of same_queue
      (mkChat (router s) (net s) (host s) messages) s1).
    eapply respects_rounds; [apply _|intros tc; apply skill_call_keeps_queue|done]. }
  destruct text as [text|]; [unfold mret, M_ret in Hk; by simplify_eq|].
  destruct (async_enabled config) eqn:Ha; simpl in Hk; [|unfold mret, M_ret in Hk; by simplify_eq].
  destruct has_queue; [|unfold mret, M_ret in Hk; by simplify_eq].
  split; [done|]. split; [done|].
  apply M_bind_inv in Hk as [(s2 & st & Hg & Hk)|(e & Hg & ?)]; [|done].
  unfold get_state in Hg. injection Hg as -> ->.
  apply M_bind_inv in Hk as [(s3 & j & Hs & Hk)|(e & Hs & ?)]; [|done].
  unfold mret, M_ret in Hk. simplify_eq.
  unfold on_hosts, on_queue in Hs.
  destruct (submit_job _ _ _ _ _ _) as [q o] eqn:E. simplify_eq.
  apply submit_job_effect in E as (-> & _ & Hf & expires & Hj & _).
  unfold same_queue in Hq. rewrite Hq. split; [done|].
  eexists. split; [exact Hj|]. cbn. split_and!; [done..|].
  intros Hle. rewrite turns_left_small by done. lia.
Qed.
End delegation.

(** Asked for more inline rounds than the limit, the turn delegates with a budget of
    turns that wrapped around. *)
Theorem delegation_underflow : turns_left 36 = (2 ^ 32 - 1)%Z.
Proof. by vm_compute. Qed.

(** ** Witnesses *)

Module JobToolDemo.

Definition at_ (t : Z) : string := pretty t.
Definition plus (t d : Z) : option Z := Some (t + d)%Z.
Notation Queue := (JobQueue (gmap string (JobRecord Value))).
Definition empty_queue : Queue := mkJobQueue ∅ [].
#[global] Existing Instance toy_json.

Definition record (goal : string) : JobRecord Value :=
  set_status Running (new_record (recurring_spec (Obj [("goal", Str goal)])) "a" "100" "200").

Definition queue_of (goal : string) : Queue := mkJobQueue {["a" := record goal]} [].

(** 99 bytes, then a character of two bytes. *)
Definition long_goal : string :=
  "aaaaaaaaaabbbbbbbbbbccccccccccddddddddddeeeeeeeeeeffffffffffgggggggggghhhhhhhhhhiiiiiiiiiijjjjjjjjj"
  +:+ String "195" (String "169" "").

(** A host whose tools succeed. *)
#[global] Instance host_demo : ToolHost nat :=
  λ _ _ _ _ h, (S h, Ok (mkToolOutput true None None None)).

Definition state : ChatState nat (nat * Queue) :=
  mkChat ChatDemo.router (mkNet 0 [] []) (0, empty_queue) [].

End JobToolDemo.

Import JobToolDemo.

Lemma submitted_job_nests_witness :
  ∃ q' r, execute_job_tool at_ plus (λ _, true) "j" 100%Z TOOL_SUBMIT_JOB
      (Obj [("goal", Str "child")]) (Some (mkJobContext 1 (Some "turn-9"))) empty_queue = (q', Ok "other") ∧
    jobs q' = {["j" := r]} ∧ JobTypes.job_depth r = 2%Z ∧ job_parent_correlation_id r = Some "turn-9".
Proof.
  destruct (execute_job_tool at_ plus (λ _, true) "j" 100%Z TOOL_SUBMIT_JOB
      (Obj [("goal", Str "child")]) (Some (mkJobContext 1 (Some "turn-9"))) empty_queue) as [q' o] eqn:E.
  pose proof (submitted_job_nests at_ plus (λ _, true) _ _ _ _ _ _ _ E) as (_ & Hc).
  pose proof E as E2. vm_compute in E2. injection E2 as E2 Eo.
  destruct Hc as [->|(_ & _ & r & Hj & Hd & Hp & _)].
  - exfalso. apply (f_equal published) in E2. by vm_compute in E2.
  - exists q', r. split; [by rewrite <- Eo|]. by split_and!.
Defined.

Lemma delegation_budget_witness :
  ∃ s' partial, run_tool_use_loop_with_delegation pretty ChatDemo.clock at_ plus pretty (λ _, 100%Z)
      (λ _, None) ChatDemo.messages ChatDemo.tools (mkToolUseConfig 1 true "delegation") true state
      = (s', Ok (Delegated partial "0")) ∧
    ∃ r, jobs (host s').2 = {["0" := r]} ∧ job_max_turns r = 34%Z.
Proof.
  destruct (run_tool_use_loop_with_delegation pretty ChatDemo.clock at_ plus pretty (λ _, 100%Z)
      (λ _, None) ChatDemo.messages ChatDemo.tools (mkToolUseConfig 1 true "delegation") true state)
    as [s' o] eqn:E.
  pose proof E as E2. vm_compute in E2. injection E2 as _ E2. rewrite <- E2 in E.
  exists s'. eexists. rewrite <- E2. split; [reflexivity|].
  apply delegation_budget in E as (_ & _ & _ & r & Hj & _ & _ & _ & Ht & _).
  exists r. split; [exact Hj|]. rewrite Ht. by vm_compute.
Defined.

(** ** What the tools do that they should not *)

(** Listing the jobs slices a long goal at byte 100: inside a character the handler
    panics, and so does the turn. *)
Theorem listing_panics_on_a_long_goal :
  execute_job_tool at_ plus (λ _, true) "j" 100%Z TOOL_LIST_JOBS Null None (queue_of long_goal) =
    (queue_of long_goal, Err "panic: byte index 100 is not a char boundary") ∧
  Forall (λ c, String.length c = 1) (take 99 (chars long_goal)).
Proof. split; [vm_compute; reflexivity|]. decide_closed. Qed.

(** Cancelling a recurring job cancels any job: the identifier of a running one will
    do. *)
Theorem cancel_recurring_cancels_any_job :
  let q := mkJobQueue {["a" := set_status Running
             (new_record (submit_spec Null None None) "a" "100" "200")]} [] : Queue in
  job_status <$> jobs (execute_job_tool at_ plus (λ _, true) "j" 100%Z TOOL_CANCEL_RECURRING
    (Obj [("job_id", Str "a")]) None q).1 !! "a" = Some Cancelled.
Proof. vm_compute. reflexivity. Qed.
