(* ===== verification/Council.v ===== *)
(** * Council, sub-agents and conscience ([crates/abigail-router])

    The deliberation of several providers, at once ([council.rs], [deliberate]) or as a
    graph of jobs ([submit_as_jobs]); the delegation to sub-agents ([subagent.rs]); the
    patterns of the conscience ([conscience.rs]).

    What the providers answer is a function of the call and of the number of calls made
    before it, so that any order in which the parallel tasks reach them is covered. *)

From S2P Require Import Prelude RustStr F32 JobTypes RecordStore JobQueue Json.
From S2P Require Import Cognitive Router Chat.
From Stdlib Require Import ZArith Lia Ascii SpecFloat.
From stdpp Require Import base list strings gmap pretty.

Open Scope rust_scope.

(** ** The council *)

Record CouncilDraft : Type := mkDraft {
  draft_provider : string;
  draft_content : string;
  score : option f32;
}.

Record CouncilResult : Type := mkCouncil {
  synthesis : string;
  drafts : list CouncilDraft;
  provider_count : nat;
}.

(** A call of a provider, by its place in the council, with the messages. *)
Record Call : Type := mkCall { callee : nat; heard : list Message }.

(** How a spawned task ends: [None] is a panic. *)
Notation Answer := (option (result CompletionResponse string)).

Definition f32_10_0 : f32 := f32_of_Z 10.

Section council.
Context `{JsonText}.
(** [Number::as_f64] as [f32]. *)
Context (as_f32 : Number → f32).
(** The names of the providers, and what they answer. *)
Context (providers : list string) (ask : nat → Call → Answer).

Definition parse_score (text : string) : option f32 :=
  let trimmed := trim text in
  start ← find_char "{" trimmed;
  end_ ← rfind_char "}" trimmed;
  if (end_ <=? start)%nat then None
  else
    match from_str (str_take (end_ - start + 1) (str_drop start trimmed)) with
    | Err _ => None
    | Ok parsed =>
        match get "score" parsed with
        | Some (Num n) => Some (f32_clamp f32_0_0 f32_10_0 (as_f32 n))
        | _ => None
        end
    end.

(** [context] as a system message, then the messages. *)
Definition in_context (context : option string) (messages : list Message) : list Message :=
  match context with Some ctx => [new_message "system" ctx] | None => [] end ++ messages.

Definition original_question (messages : list Message) : string :=
  RustStr.join nl (map content (filter (λ m, role m = "user") messages)).

(** The calls made and what came of them. *)
Notation Deliberation A := (list Call → list Call * A).

(** One task: the call is made; its answer, unless it fails or panics. *)
Definition task (c : Call) : Deliberation (option string) := λ log,
  (log ++ [c], match ask (length log) c with Some (Ok response) => Some (reply response) | _ => None end).

(** Tasks in turn, each with what to make of its answer. *)
Fixpoint tasks {A} (l : list (Call * (string → option A))) : Deliberation (list A) := λ log,
  match l with
  | [] => (log, [])
  | (c, k) :: l =>
      let '(log, o) := task c log in
      let '(log, rest) := tasks l log in
      (log, match o ≫= k with Some a => a :: rest | None => rest end)
  end.

Definition draft_tasks (messages : list Message) (context : option string)
  : list (Call * (string → option CouncilDraft)) :=
  imap (λ i name, (mkCall i (in_context context messages), λ text, Some (mkDraft name text None))) providers.

Definition phase_draft (messages : list Message) (context : option string)
  : Deliberation (result (list CouncilDraft) string) := λ log,
  let '(log, l) := tasks (draft_tasks messages context) log in
  (log, match l with [] => Err "All providers failed during the draft phase" | _ => Ok l end).

Definition critique_prompt (question : string) (d : CouncilDraft) : string :=
  "You are a critical reviewer. The user asked:" +:+ nl +:+ quote +:+ question +:+ quote +:+ nl +:+ nl +:+
  "Provider " +:+ quote +:+ draft_provider d +:+ quote +:+ " answered:" +:+ nl +:+ quote +:+ draft_content d +:+
  quote +:+ nl +:+ nl +:+
  "Score this answer from 0 to 10 on accuracy, completeness, and helpfulness." +:+ nl +:+
  "Respond with ONLY a JSON object: {" +:+ quote +:+ "score" +:+ quote +:+ ": <number>}" +:+ nl +:+
  "Do not include any other text.".

(** Everyone but its author reviews a draft. *)
Definition reviewers (d : CouncilDraft) : list nat :=
  omap (λ e, if decide (e.2 = draft_provider d) then None else Some e.1) (imap pair providers).

Definition critique_tasks (question : string) (context : option string) (i : nat) (d : CouncilDraft)
  : list (Call * (string → option (nat * f32))) :=
  map (λ r, (mkCall r (in_context context [new_message "user" (critique_prompt question d)]),
             λ text, pair i <$> parse_score text)) (reviewers d).

Definition average (scores : list f32) : option f32 :=
  match scores with
  | [] => None
  | _ => Some (f32_div (f32_sum scores) (f32_of_Z (Z.of_nat (length scores))))
  end.

Definition with_score (scores : list (nat * f32)) (i : nat) (d : CouncilDraft) : CouncilDraft :=
  match average (map snd (filter (λ s, s.1 = i) scores)) with
  | Some avg => mkDraft (draft_provider d) (draft_content d) (Some avg)
  | None => d
  end.

Definition phase_critique (l : list CouncilDraft) (messages : list Message) (context : option string)
  : Deliberation (list CouncilDraft) := λ log,
  if (length l <? 2)%nat then (log, l)
  else
    let question := original_question messages in
    let '(log, scores) := tasks (concat (imap (critique_tasks question context) l)) log in
    (log, imap (with_score scores) l).

(** Highest first, those without a score last. *)
Definition rank (d : CouncilDraft) : f32 := default (f32_of_Z (-1)) (score d).
Definition ranked_before (a b : CouncilDraft) : bool :=
  match f32_cmp (rank b) (rank a) with Gt => false | _ => true end.

Definition draft_entry (i : nat) (d : CouncilDraft) : string :=
  "--- Draft " +:+ pretty (i + 1) +:+ " (from '" +:+ draft_provider d +:+ "', score: " +:+
  match score d with Some s => f32_fixed 1 s +:+ "/10" | None => "unscored" end +:+ ") ---" +:+ nl +:+
  draft_content d +:+ nl +:+ nl.

Definition synthesis_prompt (question : string) (l : list CouncilDraft) : string :=
  "You are a synthesis expert. The user asked:" +:+ nl +:+ quote +:+ question +:+ quote +:+ nl +:+ nl +:+
  "Multiple experts have provided answers, ranked by peer review score (highest first):" +:+ nl +:+ nl +:+
  RustStr.join "" (imap draft_entry l) +:+
  "Produce a single, authoritative answer that combines the best elements from the top-scoring drafts. " +:+
  "Be concise and accurate. Do not mention the drafts or the scoring process in your answer.".

(** Not spawned: an error is the caller's, and a panic too. *)
Definition direct_call (c : Call) : Deliberation (result string string) := λ log,
  (log ++ [c], match ask (length log) c with
               | Some (Ok response) => Ok (reply response)
               | Some (Err e) => Err e
               | None => Err "panic"
               end).

Definition phase_synthesis (l : list CouncilDraft) (messages : list Message) (context : option string)
  : Deliberation (result string string) :=
  direct_call (mkCall 0 (in_context context
    [new_message "user" (synthesis_prompt (original_question messages) l)])).

Definition run_pipeline (messages : list Message) (context : option string)
  : Deliberation (result CouncilResult string) := λ log,
  match providers with
  | [name] =>
      let '(log, o) := direct_call (mkCall 0 (in_context context messages)) log in
      (log, let? text := o in Ok (mkCouncil text [mkDraft name text None] 1))
  | _ =>
      let '(log, o) := phase_draft messages context log in
      match o with
      | Err e => (log, Err e)
      | Ok l =>
          let '(log, l) := phase_critique l messages context log in
          let l := sort_by ranked_before l in
          let '(log, o) := phase_synthesis l messages context log in
          (log, let? text := o in Ok (mkCouncil text l (length providers)))
      end
  end.

(** The whole of it within [timeout_secs], or not. *)
Definition deliberate (out_of_time : bool) (timeout_secs : Z) (messages : list Message) (context : option string)
  : list Call * result CouncilResult string :=
  match providers with
  | [] => ([], Err "CouncilEngine requires at least one provider")
  | _ =>
      let '(log, o) := run_pipeline messages context [] in
      if out_of_time then (log, Err ("Council deliberation timed out after " +:+ pretty timeout_secs +:+ "s"))
      else (log, o)
  end.
End council.

(** ** The graph of jobs *)

Record CouncilJobGraph : Type := mkGraph {
  draft_job_ids : list JobId;
  critique_job_id : JobId;
  synthesis_job_id : JobId;
  graph_topic : string;
}.

Section graph.
Context {Time T : Type} `{RecordStore T (JobRecord Value)}.
Context (to_rfc3339 : Time → string) (add_seconds : Time → Z → option Time).
(** The names of the providers and the time-out in milliseconds. *)
Context (providers : list string) (timeout_ms : Z).
(** New identifiers and clock readings, in the order they are taken. *)
Context (topic_uuid : string) (uuid : nat → string) (clock : nat → Time).

Notation Q := (M (JobQueue T) string).

Definition council_spec (topic base_context goal phase : string) (members : list (string * Value))
    (profile : option string) (depends : list JobId) : JobSpec Value := {|
  spec_goal := goal;
  spec_topic := topic;
  spec_capability := Reasoning;
  spec_priority := High;
  spec_time_budget_ms := (Prelude.as_u64 timeout_ms / 3)%Z;
  spec_max_turns := 3;
  spec_system_context := Some base_context;
  spec_allowed_skill_ids := [];
  spec_ttl_seconds := 300;
  spec_input_data := Some (Obj (("council_phase", Str phase) :: members));
  spec_parent_job_id := None;
  spec_parent_correlation_id := None;
  spec_depth := 1;
  spec_provider_profile := profile;
  spec_cron_expression := None;
  spec_is_recurring := false;
  spec_significance_keywords := [];
  spec_significance_threshold := f32_0_5;
  spec_job_mode := "agentic_run";
  spec_goal_template := None;
  spec_depends_on := depends;
  spec_execution_mode := Mediated;
  spec_direct_tool_call := None;
|}.

Definition draft_goal (question name : string) : string :=
  "Council draft (provider: " +:+ name +:+
  "): Provide an independent, thorough answer to the user's question." +:+ nl +:+ nl +:+
  "User question:" +:+ nl +:+ question.

Definition critique_goal (question : string) : string :=
  "Council critique: Review and score each draft response to the user's question." +:+ nl +:+ nl +:+
  "User question:" +:+ nl +:+ question +:+ nl +:+ nl +:+
  "Score each draft from 0 to 10 on accuracy, completeness, and helpfulness." +:+ nl +:+
  "Return a JSON array of objects: [{" +:+ quote +:+ "draft_index" +:+ quote +:+ ": 0, " +:+ quote +:+ "score" +:+
  quote +:+ ": N, " +:+ quote +:+ "reason" +:+ quote +:+ ": " +:+ quote +:+ "..." +:+ quote +:+ "}]".

Definition synthesis_goal (question : string) : string :=
  "Council synthesis: Combine the best elements from the scored drafts into a single authoritative answer." +:+
  nl +:+ nl +:+ "User question:" +:+ nl +:+ question +:+ nl +:+ nl +:+
  "Produce a concise, accurate final answer. Do not mention the drafts or scoring process.".

Definition submit (k : nat) (spec : JobSpec Value) : Q JobId :=
  submit_job to_rfc3339 add_seconds (uuid k) (clock k) spec.

Fixpoint submit_drafts (topic base_context question : string) (k : nat) (names : list string) : Q (list JobId) :=
  match names with
  | [] => mret []
  | name :: names =>
      i ← submit k (council_spec topic base_context (draft_goal question name) "draft"
                      [("provider_name", Str name)] (Some name) []);
      rest ← submit_drafts topic base_context question (S k) names;
      mret (i :: rest)
  end.

Definition submit_as_jobs (messages : list Message) (context : option string) : Q CouncilJobGraph :=
  match providers with
  | [] => fail "CouncilEngine requires at least one provider for job submission"
  | _ =>
      let topic := "council-" +:+ topic_uuid in
      let question := original_question messages in
      let base_context := default "You are a council member providing an expert response." context in
      let n := length providers in
      draft_ids ← submit_drafts topic base_context question 0 providers;
      critique_id ← submit n (council_spec topic base_context (critique_goal question) "critique"
        [("draft_job_ids", Arr (map Str draft_ids))] None draft_ids);
      synthesis_id ← submit (S n) (council_spec topic base_context (synthesis_goal question) "synthesis"
        [("critique_job_id", Str critique_id)] None [critique_id]);
      mret (mkGraph draft_ids critique_id synthesis_id topic)
  end.
End graph.

(** ** Sub-agents *)

Inductive SubagentProvider : Type := SameAsEgo | SameAsId | CustomProvider (name key : string).

Record SubagentDefinition : Type := mkSubagent {
  subagent_id : string;
  subagent_name : string;
  subagent_description : string;
  subagent_capabilities : list string;
  subagent_provider : SubagentProvider;
}.

(** [register]: a definition with the same id is replaced. *)
Definition register_subagent (d : SubagentDefinition) (l : list SubagentDefinition) : list SubagentDefinition :=
  filter (λ e, subagent_id e ≠ subagent_id d) l ++ [d].

Definition destructive_needles : list string := ["delete"; "wipe"; "destroy"; "drop table"; "format disk"].

Definition last_user_prompt (messages : list Message) : string :=
  match find_last (λ m, bool_decide (role m = "user")) messages with
  | Some m => to_lowercase (content m)
  | None => ""
  end.

Definition policy_denied (d : SubagentDefinition) (why : string) : string :=
  "Delegation policy denied for '" +:+ subagent_id d +:+ "': " +:+ why.

Definition validate_delegation_policy (d : SubagentDefinition) (messages : list Message) : result unit string :=
  if bool_decide (subagent_capabilities d = []) then Err (policy_denied d "no declared capabilities.")
  else
    let prompt := last_user_prompt messages in
    if str_is_empty (trim prompt) then Err (policy_denied d "empty user message.")
    else
      let destructive_intent := existsb (contains prompt) destructive_needles in
      let allows_destructive :=
        existsb (λ cap, bool_decide (to_lowercase cap = "destructive_ops")) (subagent_capabilities d) in
      if destructive_intent && negb allows_destructive
      then Err (policy_denied d "destructive intent requires 'destructive_ops' capability.")
      else Ok tt.

(** Which entry point of the router the request goes to. *)
Inductive Delegated : Type :=
| RouteWithTools (messages : list Message) (tools : list (ToolDefinition Value))
| RoutePlain (messages : list Message).

Definition delegate_to (l : list SubagentDefinition) (id : string) (messages : list Message)
    (tools : list (ToolDefinition Value)) : result Delegated string :=
  match List.find (λ d, bool_decide (subagent_id d = id)) l with
  | None => Err ("Subagent '" +:+ id +:+ "' not found")
  | Some d =>
      let? _ := validate_delegation_policy d messages in
      Ok (match subagent_provider d with
          | SameAsEgo | CustomProvider _ _ => RouteWithTools messages tools
          | SameAsId => RoutePlain messages
          end)
  end.

Definition delegate {W} (r : IdEgoRouter Value W) (l : list SubagentDefinition) (id : string) (messages : list Message)
    (tools : list (ToolDefinition Value)) : M (Net Value W) string CompletionResponse :=
  match delegate_to l id messages tools with
  | Err e => fail e
  | Ok (RouteWithTools messages tools) => route_with_tools r messages tools
  | Ok (RoutePlain messages) => route r messages
  end.

(** ** Conscience *)

Module Conscience.

Record ConscienceRequest : Type := mkConscience {
  request_id : string;
  request_content : string;
  request_context : string;
}.

Inductive EthicalCategory : Type := Pii | Destructive | ConstitutionalViolation | TrustConcern | CustomCategory (s : string).
Inductive Severity : Type := Info | Warning | CriticalSeverity.

Record ConscienceSignal : Type := mkSignal {
  signal_request : string;
  category : EthicalCategory;
  severity : Severity;
  description : string;
  should_block : bool;
}.

Definition email_word (word : string) : bool :=
  contains word "@" && contains word "." && (5 <? String.length word)%nat && negb (starts_with word "http").

(** Eleven characters, which are then bytes. *)
Fixpoint ssn_from (i : nat) (s : string) : bool :=
  match s with
  | EmptyString => (i =? 11)%nat
  | String c s =>
      (if (i =? 3)%nat || (i =? 6)%nat then bool_decide (c = "-"%char) else is_ascii_digit c) && ssn_from (S i) s
  end.

(** [windows(11)] of the characters. *)
Fixpoint windows (n : nat) (l : list string) : list (list string) :=
  match l with
  | [] => []
  | _ :: l' => if (length l <? n)%nat then [] else take n l :: windows n l'
  end.

Definition has_pii_patterns (text : string) : bool :=
  (contains text "@" && contains text "." && existsb email_word (split_whitespace text))
  || existsb (λ w, let s := RustStr.join "" w in (String.length s =? 11)%nat && ssn_from 0 s) (windows 11 (chars text)).

Definition DESTRUCTIVE_KEYWORDS : list string :=
  ["drop table"; "delete all"; "rm -rf"; "format c:"; "destroy"; "wipe all data"; "truncate table"; "delete database"].

Definition has_destructive_patterns (text : string) : bool := existsb (contains text) DESTRUCTIVE_KEYWORDS.

Definition evaluate (request : ConscienceRequest) : list ConscienceSignal :=
  let lower := to_lowercase (request_content request) in
  (if has_pii_patterns lower
   then [mkSignal (request_id request) Pii Warning
           "Content may contain personally identifiable information." false] else []) ++
  (if has_destructive_patterns lower
   then [mkSignal (request_id request) Destructive CriticalSeverity
           "Content contains potentially destructive or harmful patterns." true] else []).
End Conscience.
