(* ===== verification/CouncilSpec.v ===== *)
(** * Council, sub-agents and conscience: correctness
    Who is asked what in a deliberation and when it succeeds; how the drafts are ranked;
    the order of the jobs of a council, and what blocks them. *)

From S2P Require Import Prelude RustStr F32 JobTypes RecordStore JobQueue JobQueueFacts JobQueueSpec JobQueueProps Json.
From S2P Require Import Cognitive Router Chat Council.
From Stdlib Require Import ZArith Lia Ascii SpecFloat Sorted.
From stdpp Require Import base list strings gmap relations pretty.

Open Scope rust_scope.

(** ** Ranking *)

Definition rankable (d : CouncilDraft) : Prop := match score d with Some s => nonneg s | None => True end.

Lemma rank_not_nan d : rankable d → rank d ≠ S754_nan.
Proof. unfold rankable, rank. destruct (score d) as [s|]; simpl; [by destruct s|done]. Qed.

Lemma ranked_before_key a b :
  rankable a → rankable b → ranked_before a b ↔ key_le (f32_key (rank b)) (f32_key (rank a)).
Proof.
  intros Ha%rank_not_nan Hb%rank_not_nan. rewrite <- f32_cmp_key by done. unfold ranked_before.
  destruct (f32_cmp _ _); simpl; naive_solver.
Qed.

(** A draft with a score is before every draft without one. *)
Lemma scored_first a b : rankable a → rankable b → is_Some (score a) → score b = None → ¬ ranked_before b a.
Proof.
  intros Ha Hb [s Hs] Hn. rewrite ranked_before_key by done. unfold rank, rankable in *. rewrite Hs, Hn in *. simpl.
  unfold key_le. destruct s as [[]|[]| |[] m e]; simpl in *; try done; try lia.
Qed.

Section sorted_on.
Context {A : Type} (leb : A → A → bool) (P : A → Prop).
Context (leb_trans : ∀ x y z, P x → P y → P z → leb x y → leb y z → leb x z).
Context (leb_total : ∀ x y, P x → P y → leb x y ∨ leb y x).

Lemma insert_by_sorted_on x l :
  P x → Forall P l → StronglySorted (λ a b, leb a b) l → StronglySorted (λ a b, leb a b) (insert_by leb x l).
Proof.
  intros Hx Hp. induction 1 as [|y l Hl IH Hy]; simpl; [by repeat constructor|].
  apply Forall_cons in Hp as [Hpy Hp]. destruct (leb x y) eqn:Hxy.
  - constructor; [by constructor|]. constructor; [by rewrite Hxy|].
    rewrite Forall_forall in *. intros z Hz. eapply leb_trans; [done|exact Hpy|by apply Hp| |by apply Hy].
    by rewrite Hxy.
  - constructor; [by apply IH|]. rewrite insert_by_perm. constructor; [|done].
    destruct (leb_total x y Hx Hpy) as [Ht|Ht]; [by rewrite Hxy in Ht|done].
Qed.

Lemma sort_by_sorted_on l : Forall P l → StronglySorted (λ a b, leb a b) (sort_by leb l).
Proof.
  induction 1 as [|x l Hx Hl IH]; simpl; [constructor|]. apply insert_by_sorted_on; [done| |done].
  fold (sort_by leb l). by rewrite sort_by_perm.
Qed.
End sorted_on.

Lemma ranking_sorted l :
  Forall rankable l → StronglySorted (λ a b, ranked_before a b) (sort_by ranked_before l).
Proof.
  apply sort_by_sorted_on.
  - intros x y z Hx Hy Hz. rewrite !ranked_before_key by done. unfold key_le. lia.
  - intros x y Hx Hy. rewrite !ranked_before_key by done. unfold key_le. lia.
Qed.

Lemma elem_of_concat {A} (x : A) ls : x ∈ concat ls ↔ ∃ l, l ∈ ls ∧ x ∈ l.
Proof. rewrite list_elem_of_In, in_concat. by setoid_rewrite list_elem_of_In. Qed.

Section council.
Context `{JsonText} (as_f32 : Number → f32).
Context (providers : list string) (ask : nat → Call → Answer).
Notation tasks := (tasks ask).
Notation run_pipeline := (run_pipeline as_f32 providers ask).
Notation phase_draft := (phase_draft providers ask).
Notation phase_critique := (phase_critique as_f32 providers ask).
Notation deliberate := (deliberate as_f32 providers ask).

(** *** Tasks *)

(** What the task of the call at place [k] brings. *)
Definition brings {A} (k : nat) (t : Call * (string → option A)) (a : A) : Prop :=
  ∃ response, ask k t.1 = Some (Ok response) ∧ t.2 (reply response) = Some a.

Lemma tasks_spec {A} (l : list (Call * (string → option A))) log log' r :
  tasks l log = (log', r) →
  log' = log ++ map fst l ∧
  (∀ a, a ∈ r ↔ ∃ k t, l !! k = Some t ∧ brings (length log + k) t a).
Proof.
  revert log log' r. induction l as [|[c f] l IH]; intros log log' r.
  { intros [= <- <-]. split; [by rewrite app_nil_r|]. intros a. split; [by intros ?%elem_of_nil|]. by intros (? & ? & [=] & _). }
  cbn [Council.tasks]. unfold task. destruct (tasks l (log ++ [c])) as [log2 rest] eqn:Hr.
  apply IH in Hr as [-> Hin]. intros [= <- <-]. split; [by rewrite <- app_assoc|]. intros a.
  assert (a ∈ match match ask (length log) c with Some (Ok response) => Some (reply response) | _ => None end ≫= f with
    | Some a => a :: rest | None => rest end ↔ brings (length log) (c, f) a ∨ a ∈ rest) as ->.
  { unfold brings. simpl. destruct (ask (length log) c) as [[response|e]|]; simpl; [|naive_solver..].
    destruct (f (reply response)) as [b|] eqn:Hb; [rewrite elem_of_cons; naive_solver|naive_solver]. }
  rewrite Hin. split.
  - intros [Hb|(k & t & Hk & Hb)]; [exists 0, (c, f); split; [done|by rewrite Nat.add_0_r]|].
    exists (S k), t. split; [done|]. rewrite length_app in Hb. simpl in Hb. by rewrite <- Nat.add_assoc in Hb.
  - intros ([|k] & t & Hk & Hb); simpl in Hk; [injection Hk as <-; left; by rewrite Nat.add_0_r in Hb|].
    right. exists k, t. split; [done|]. rewrite length_app. simpl. by rewrite <- Nat.add_assoc.
Qed.

(** *** Reviews *)

Lemma elem_of_reviewers d i : i ∈ reviewers providers d ↔ ∃ name, providers !! i = Some name ∧ name ≠ draft_provider d.
Proof.
  unfold reviewers. rewrite list_elem_of_omap. split.
  - intros ([j name] & (k & n & [= -> ->] & Hk)%elem_of_lookup_imap_1 & Hd). simpl in Hd. case_decide; [done|].
    injection Hd as <-. by exists n.
  - intros (name & Hi & Hne). exists (i, name). split; [|simpl; by rewrite decide_False].
    apply elem_of_lookup_imap. by exists i, name.
Qed.

Lemma parse_score_nonneg text s :
  (∀ n, as_f32 n ≠ S754_nan) → parse_score as_f32 text = Some s → nonneg s.
Proof.
  intros Hn. unfold parse_score. repeat case_match; simplify_eq/=; try done.
  all: destruct (find_char _ _) as [i|]; simpl; [|done]; destruct (rfind_char _ _) as [j|]; simpl; [|done].
  all: destruct (j <=? i)%nat; [done|]; destruct (from_str _) as [v|]; [|done];
    destruct (get "score" v) as [[]|]; try done; intros [= <-]; by apply f32_clamp_nonneg.
Qed.

Lemma length_tasks {A} (l : list (Call * (string → option A))) log : length (tasks l log).2 ≤ length l.
Proof.
  revert log. induction l as [|[c f] l IH]; intros log; [done|]. cbn [Council.tasks]. unfold task.
  specialize (IH (log ++ [c])). destruct (tasks l (log ++ [c])) as [log2 rest]. simpl in *.
  destruct (_ ≫= f); simpl; lia.
Qed.

Lemma small_is_finite n : 0 < n ≤ 1600 → ∃ m e, f32_of_Z (Z.of_nat n) = S754_finite false m e.
Proof.
  intros Hn.
  assert (forallb (λ n, match f32_of_Z (Z.of_nat n) with S754_finite false _ _ => true | _ => false end) (seq 1 1600) = true)
    as Hall by (by vm_compute).
  rewrite forallb_forall in Hall. specialize (Hall n). rewrite <- list_elem_of_In, elem_of_seq in Hall.
  specialize (Hall ltac:(lia)). destruct (f32_of_Z (Z.of_nat n)) as [| | |[] m e]; try done. by exists m, e.
Qed.

Lemma average_nonneg l a : length l ≤ 1600 → Forall nonneg l → average l = Some a → nonneg a.
Proof.
  intros Hlen Hl. unfold average. destruct l as [|x l]; [done|].
  destruct (small_is_finite (length (x :: l))) as (m & e & ->); [simpl in *; lia|]. intros [= <-].
  by apply f32_div_nonneg, f32_sum_nonneg.
Qed.

(** A draft keeps its author and its text. *)
Definition same_draft (d d' : CouncilDraft) : Prop :=
  draft_provider d' = draft_provider d ∧ draft_content d' = draft_content d.

Lemma with_score_same scores i d : same_draft d (with_score scores i d).
Proof. unfold with_score. by destruct (average _). Qed.

Lemma with_score_rankable scores i d :
  length scores ≤ 1600 → Forall (λ s, nonneg s.2) scores → rankable d → rankable (with_score scores i d).
Proof.
  intros Hlen Hs Hd. unfold with_score. destruct (average _) as [a|] eqn:Ha; [|done]. unfold rankable. simpl.
  eapply average_nonneg; [| |exact Ha].
  - rewrite length_map. etrans; [apply length_filter|done].
  - apply Forall_forall. intros x (s & -> & [_ Hin]%list_elem_of_filter)%list_elem_of_fmap.
    by eapply Forall_forall in Hs.
Qed.

(** The drafts are those of the providers that answered. *)
Definition drafts_of (messages : list Message) (context : option string) (l : list CouncilDraft) : Prop :=
  ∀ name text, (∃ d, d ∈ l ∧ draft_provider d = name ∧ draft_content d = text) ↔
    ∃ i response, providers !! i = Some name ∧ reply response = text ∧
      ask i (mkCall i (in_context context messages)) = Some (Ok response).

Lemma draft_tasks_lookup messages context i t :
  draft_tasks providers messages context !! i = Some t ↔
  ∃ name, providers !! i = Some name ∧ t = (mkCall i (in_context context messages), λ text, Some (mkDraft name text None)).
Proof.
  unfold draft_tasks. rewrite list_lookup_imap. destruct (providers !! i); simpl; split; [intros [= <-]; eauto|..]; naive_solver.
Qed.

Lemma phase_draft_spec messages context log' l :
  phase_draft messages context [] = (log', Ok l) →
  log' = map fst (draft_tasks providers messages context) ∧ l ≠ [] ∧ length l ≤ length providers ∧
  Forall (λ d, score d = None) l ∧ drafts_of messages context l.
Proof.
  unfold Council.phase_draft. destruct (tasks _ []) as [log1 l1] eqn:Ht. intros Hr.
  pose proof (length_tasks (draft_tasks providers messages context) []) as Hlen. rewrite Ht in Hlen. simpl in Hlen.
  unfold draft_tasks in Hlen at 1. rewrite length_imap in Hlen.
  apply tasks_spec in Ht as [-> Hin]. destruct l1 as [|d l1]; [done|]. injection Hr as <- <-.
  split; [done|]. split; [done|]. split; [done|]. split.
  - apply Forall_forall. intros x (k & t & Ht & (resp & _ & Hx))%Hin.
    apply draft_tasks_lookup in Ht as (name & _ & ->). simpl in Hx. by injection Hx as <-.
  - intros name text. split.
    + intros (x & (k & t & Ht & (resp & Ha & Hx))%Hin & <- & <-).
      apply draft_tasks_lookup in Ht as (name & Hk & ->). simpl in *. injection Hx as <-. by exists k, resp.
    + intros (i & resp & Hi & <- & Ha). exists (mkDraft name (reply resp) None). split; [|done].
      apply Hin. exists i. eexists. split; [apply draft_tasks_lookup; by exists name|]. by exists resp.
Qed.

(** Reviews: each of a draft, by another provider; every one of them, when there are two
    drafts. *)
Definition reviews_of (messages : list Message) (context : option string) (l : list CouncilDraft) (calls : list Call) : Prop :=
  ∀ c, c ∈ calls ↔ 2 ≤ length l ∧ ∃ d name, d ∈ l ∧ providers !! callee c = Some name ∧ name ≠ draft_provider d ∧
    heard c = in_context context [new_message "user" (critique_prompt (original_question messages) d)].

Lemma phase_critique_spec messages context log log' l l' :
  (∀ n, as_f32 n ≠ S754_nan) → length providers ≤ 40 → length l ≤ length providers → Forall (λ d, score d = None) l →
  phase_critique l messages context log = (log', l') →
  ∃ calls, log' = log ++ calls ∧ reviews_of messages context l calls ∧
    Forall2 same_draft l l' ∧ Forall rankable l'.
Proof.
  intros Hnan Hn Hlen Hun. unfold Council.phase_critique.
  assert (Forall rankable l) as Hrank by (eapply Forall_impl; [exact Hun|]; intros d Hd; unfold rankable; by rewrite Hd).
  destruct (Nat.ltb_spec (length l) 2) as [H2|H2].
  { intros [= <- <-]. exists []. split; [by rewrite app_nil_r|]. split; [|split; [|done]].
    - intros c. split; [by intros ?%elem_of_nil|]. intros [? _]. lia.
    - by apply Forall_Forall2_diag, Forall_true. }
  destruct (tasks _ log) as [log1 scores] eqn:Ht. intros [= <- <-].
  pose proof (length_tasks (concat (imap (critique_tasks as_f32 providers (original_question messages) context) l)) log) as Hsc.
  rewrite Ht in Hsc. simpl in Hsc. apply tasks_spec in Ht as [-> Hin].
  assert (length scores ≤ 1600) as Hscores.
  { etrans; [exact Hsc|]. apply (Nat.le_trans _ (length l * 40)); [|lia]. clear -Hn.
    assert (∀ (f : nat → nat) , length (concat (imap (λ i d, critique_tasks as_f32 providers (original_question messages) context (f i) d) l)) ≤ length l * 40) as Hgen.
    { induction l as [|d l IH]; intros f; [done|]. rewrite imap_cons. cbn [concat length]. rewrite length_app.
      specialize (IH (f ∘ S)). unfold compose in *.
      assert (length (critique_tasks as_f32 providers (original_question messages) context (f 0) d) ≤ 40); [|simpl; lia].
      unfold critique_tasks, reviewers. rewrite length_map.
      assert (∀ (g : nat * string → option nat) l, length (omap g l) ≤ length l) as Homap.
      { intros g k. induction k as [|x k IHk]; csimpl; [done|]. destruct (g x); csimpl; lia. }
      etrans; [apply Homap|]. by rewrite length_imap. }
    exact (Hgen (λ i, i)). }
  assert (∀ k t, concat (imap (critique_tasks as_f32 providers (original_question messages) context) l) !! k = Some t →
    ∃ i d r, l !! i = Some d ∧ r ∈ reviewers providers d ∧
      t = (mkCall r (in_context context [new_message "user" (critique_prompt (original_question messages) d)]),
           λ text, pair i <$> parse_score as_f32 text)) as Htask.
  { intros k t Hk%list_elem_of_lookup_2. apply elem_of_concat in Hk as (ts & Hk & Hts).
    apply elem_of_lookup_imap_1 in Hk as (i & d & -> & Hi).
    apply list_elem_of_fmap in Hts as (r & -> & Hr). by exists i, d, r. }
  eexists. split; [done|]. split; [|split].
  - intros c. split.
    + intros (t & -> & (k & Hk)%list_elem_of_lookup_1)%list_elem_of_fmap. split; [done|].
      apply Htask in Hk as (i & d & r & Hi & Hr & ->). apply elem_of_reviewers in Hr as (name & Hname & Hne).
      exists d, name. simpl. split; [by eapply list_elem_of_lookup_2|]. done.
    + intros [_ (d & name & (i & Hi)%list_elem_of_lookup_1 & Hname & Hne & Hheard)].
      apply list_elem_of_fmap. exists (c, λ text, pair i <$> parse_score as_f32 text). split; [done|].
      apply elem_of_concat. exists (critique_tasks as_f32 providers (original_question messages) context i d). split.
      * apply elem_of_lookup_imap. by exists i, d.
      * unfold critique_tasks. apply list_elem_of_fmap. exists (callee c). split.
        { destruct c as [r h]. simpl in *. by subst. }
        apply elem_of_reviewers. by exists name.
  - clear. assert (∀ f : nat → nat, Forall2 same_draft l (imap (λ i, with_score scores (f i)) l)) as Hgen.
    { induction l as [|d l IH]; intros f; [constructor|]. rewrite imap_cons. constructor; [apply with_score_same|].
      exact (IH (f ∘ S)). }
    exact (Hgen (λ i, i)).
  - apply Forall_forall. intros d (i & d0 & -> & Hi)%elem_of_lookup_imap_1. apply with_score_rankable; [done| |].
    + apply Forall_forall. intros s (k & t & Hk & (resp & _ & Hs))%Hin. apply Htask in Hk as (j & d1 & r & _ & _ & ->).
      simpl in Hs. destruct (parse_score as_f32 (reply resp)) as [x|] eqn:Hx; [|done]. injection Hs as <-.
      by eapply parse_score_nonneg.
    + eapply Forall_forall in Hrank; [done|]. by eapply list_elem_of_lookup_2.
Qed.

Lemma drafts_of_same messages context l l' :
  Forall2 same_draft l l' → drafts_of messages context l → drafts_of messages context l'.
Proof.
  intros Hs Hd name text. rewrite <- (Hd name text). split; intros (d & Hin & Hp & Hc).
  - apply list_elem_of_lookup_1 in Hin as (i & Hi). eapply Forall2_lookup_r in Hs as (d0 & Hi0 & [H1 H2]); [|exact Hi].
    exists d0. split; [by eapply list_elem_of_lookup_2|]. split; congruence.
  - apply list_elem_of_lookup_1 in Hin as (i & Hi). eapply Forall2_lookup_l in Hs as (d0 & Hi0 & [H1 H2]); [|exact Hi].
    exists d0. split; [by eapply list_elem_of_lookup_2|]. split; congruence.
Qed.

Lemma reviews_of_same messages context l l' calls :
  Forall2 same_draft l l' → reviews_of messages context l calls → reviews_of messages context l' calls.
Proof.
  intros Hs Hr c. rewrite (Hr c), (Forall2_length _ _ _ Hs).
  assert (∀ d d', same_draft d d' → critique_prompt (original_question messages) d' = critique_prompt (original_question messages) d) as Hp.
  { intros d d' [H1 H2]. unfold critique_prompt. by rewrite H1, H2. }
  split; intros (Hl & d & name & Hin & Hn & Hne & Hh); (split; [done|]);
    apply list_elem_of_lookup_1 in Hin as (i & Hi).
  - eapply Forall2_lookup_l in Hs as (d0 & Hi0 & Hsame); [|exact Hi]. exists d0, name.
    split; [by eapply list_elem_of_lookup_2|]. split; [done|]. rewrite (Hp d d0) by done. split; [|done].
    destruct Hsame as [-> _]. done.
  - eapply Forall2_lookup_r in Hs as (d0 & Hi0 & Hsame); [|exact Hi]. exists d0, name.
    split; [by eapply list_elem_of_lookup_2|]. split; [done|]. rewrite <- (Hp d0 d) by done. split; [|done].
    destruct Hsame as [<- _]. done.
Qed.

Lemma drafts_of_perm messages context l l' : l ≡ₚ l' → drafts_of messages context l → drafts_of messages context l'.
Proof. intros Hp Hd name text. rewrite <- (Hd name text). by setoid_rewrite Hp. Qed.
Lemma reviews_of_perm messages context l l' calls :
  l ≡ₚ l' → reviews_of messages context l calls → reviews_of messages context l' calls.
Proof. intros Hp Hr c. rewrite (Hr c), Hp. by setoid_rewrite Hp. Qed.

Definition synthesis_call (messages : list Message) (context : option string) (l : list CouncilDraft) : Call :=
  mkCall 0 (in_context context [new_message "user" (synthesis_prompt (original_question messages) l)]).

(** A pipeline of several providers, when the drafting has not failed. *)
Lemma pipeline_inv messages context log o :
  (∀ n, as_f32 n ≠ S754_nan) → 2 ≤ length providers ≤ 40 →
  run_pipeline messages context [] = (log, o) →
  (o = Err "All providers failed during the draft phase" ∧ ∀ i, i < length providers →
     ∀ response, ask i (mkCall i (in_context context messages)) ≠ Some (Ok response)) ∨
  ∃ l reviews, l ≠ [] ∧
    log = map fst (draft_tasks providers messages context) ++ reviews ++ [synthesis_call messages context l] ∧
    drafts_of messages context l ∧ reviews_of messages context l reviews ∧
    Forall rankable l ∧ StronglySorted (λ a b, ranked_before a b) l ∧
    o = (let? text := match ask (length log - 1) (synthesis_call messages context l) with
                      | Some (Ok response) => Ok (reply response)
                      | Some (Err e) => Err e
                      | None => Err "panic"
                      end in Ok (mkCouncil text l (length providers))).
Proof.
  intros Hnan Hn. unfold Council.run_pipeline. destruct providers as [|p1 [|p2 ps]] eqn:Hps; [simpl in Hn; lia..|].
  rewrite <- Hps in *. clear Hps p1 p2 ps.
  destruct (phase_draft messages context []) as [log1 [l|e]] eqn:Hd.
  - apply phase_draft_spec in Hd as (-> & Hne & Hlen & Hun & Hdrafts).
    destruct (phase_critique l messages context _) as [log2 l2] eqn:Hc.
    apply phase_critique_spec in Hc as (calls & -> & Hrev & Hsame & Hrank); [|done|lia|done|done].
    intros Hr. right. unfold phase_synthesis, direct_call in Hr. injection Hr as <- <-.
    exists (sort_by ranked_before l2), calls.
    assert (l2 ≡ₚ sort_by ranked_before l2) as Hperm by (by rewrite sort_by_perm).
    split; [intros Hnil; rewrite Hnil in Hperm; apply Permutation_nil_r in Hperm as ->;
      by apply Forall2_nil_inv_r in Hsame|].
    split; [by rewrite <- app_assoc|]. split; [by eapply drafts_of_perm, drafts_of_same|].
    split; [by eapply reviews_of_perm, reviews_of_same|]. split; [by rewrite <- Hperm|].
    split; [by apply ranking_sorted|]. rewrite (length_app (_ ++ calls)). cbn [length]. by rewrite Nat.add_sub.
  - intros [= <- <-]. left. unfold Council.phase_draft in Hd. destruct (tasks _ []) as [log2 l] eqn:Ht.
    destruct l as [|d l]; [|done]. injection Hd as <- <-. split; [done|]. intros i Hi response Ha.
    apply tasks_spec in Ht as [_ Hin]. destruct (lookup_lt_is_Some_2 providers i Hi) as [name Hname].
    assert (mkDraft name (reply response) None ∈ []) as Hx; [|by apply elem_of_nil in Hx].
    apply Hin. exists i. eexists. split; [apply draft_tasks_lookup; by exists name|]. by exists response.
Qed.

(** A council of several providers asks each of them once for a draft, has each draft
    reviewed by every other provider and by nobody else, and asks the first provider to
    merge the drafts as they are ranked: those that were scored first, each before those
    with a lower score.  The drafts are exactly those of the providers that answered, and
    the answer is that of the last call. *)
Theorem council_deliberates out_of_time timeout_secs messages context log r :
  (∀ n, as_f32 n ≠ S754_nan) → 2 ≤ length providers ≤ 40 →
  deliberate out_of_time timeout_secs messages context = (log, Ok r) →
  ∃ reviews response,
    log = map fst (draft_tasks providers messages context) ++ reviews ++ [synthesis_call messages context (drafts r)] ∧
    drafts_of messages context (drafts r) ∧ reviews_of messages context (drafts r) reviews ∧
    StronglySorted (λ a b, ranked_before a b) (drafts r) ∧
    (∀ a b, a ∈ drafts r → b ∈ drafts r → is_Some (score a) → score b = None → ¬ ranked_before b a) ∧
    ask (length log - 1) (synthesis_call messages context (drafts r)) = Some (Ok response) ∧
    synthesis r = reply response ∧ provider_count r = length providers.
Proof.
  intros Hnan Hn. unfold Council.deliberate. destruct providers as [|p ps] eqn:Hps; [simpl in Hn; lia|]. rewrite <- Hps in *.
  destruct (run_pipeline messages context []) as [log1 o] eqn:Hr. destruct out_of_time; [done|]. intros [= <- ->].
  apply pipeline_inv in Hr as [[[=] _]|(l & reviews & _ & Hlog & Hd & Hrev & Hrank & Hsort & Ho)]; [|done|done].
  destruct (ask _ _) as [[response|]|] eqn:Ha; simplify_eq/=. exists reviews, response.
  split; [done|]. split; [done|]. split; [done|]. split; [done|]. split; [|done].
  intros a b Hina Hinb. apply scored_first; by eapply Forall_forall in Hrank.
Qed.

(** When time does not run out, a council of several providers fails only if none of
    them drafts or the first does not answer the last question: failed drafts, reviews
    that fail or cannot be read, and panics of the tasks are survived. *)
Theorem council_survives_failures timeout_secs messages context log o :
  (∀ n, as_f32 n ≠ S754_nan) → 2 ≤ length providers ≤ 40 →
  (∃ i response, i < length providers ∧ ask i (mkCall i (in_context context messages)) = Some (Ok response)) →
  (∀ k messages, k ≥ length providers → ∃ response, ask k (mkCall 0 messages) = Some (Ok response)) →
  deliberate false timeout_secs messages context = (log, o) → ∃ r, o = Ok r ∧ drafts r ≠ [].
Proof.
  intros Hnan Hn (i & response & Hi & Hans) Hlast. unfold Council.deliberate.
  destruct providers as [|p ps] eqn:Hps; [simpl in Hn; lia|]. rewrite <- Hps in *.
  destruct (run_pipeline messages context []) as [log1 o1] eqn:Hr. intros [= <- <-].
  apply pipeline_inv in Hr as [[_ Hno]|(l & reviews & Hne & Hlog & _ & _ & _ & _ & ->)]; [exact (False_ind _ (Hno i Hi response Hans))| |done|done].
  destruct (Hlast (length log1 - 1) (heard (synthesis_call messages context l))) as [resp Hresp].
  { rewrite Hlog, !length_app, length_map. unfold draft_tasks. rewrite length_imap. simpl. lia. }
  unfold synthesis_call in *. simpl in *. rewrite Hresp. simpl. by eexists.
Qed.

(** The first provider is needed: without it nobody merges what the others wrote. *)
Theorem first_provider_is_needed timeout_secs messages context log o :
  (∀ n, as_f32 n ≠ S754_nan) → 2 ≤ length providers ≤ 40 →
  (∀ k messages, ask k (mkCall 0 messages) = Some (Err "unavailable")) →
  deliberate false timeout_secs messages context = (log, o) → ∃ e, o = Err e.
Proof.
  intros Hnan Hn Hdown. unfold Council.deliberate.
  destruct providers as [|p ps] eqn:Hps; [simpl in Hn; lia|]. rewrite <- Hps in *.
  destruct (run_pipeline messages context []) as [log1 o1] eqn:Hr. intros [= <- <-].
  apply pipeline_inv in Hr as [[-> _]|(l & reviews & _ & _ & _ & _ & _ & _ & ->)]; [by eexists| |done|done].
  unfold synthesis_call. rewrite Hdown. by eexists.
Qed.
End council.

(** ** The jobs of a council *)

Section graph.
Context {Time T : Type} `{RecordStoreLaws T (JobRecord Value)}.
Context (to_rfc3339 : Time → string) (add_seconds : Time → Z → option Time).
Notation Job := (JobRecord Value).
Notation daemon_step := (daemon_step to_rfc3339 add_seconds).
Implicit Types q : JobQueue T.

Notation Daemon := (list Job * JobQueue T)%type.

(** A one-shot job that no task was started for and that has not run, or whose
    dependencies, one-shot jobs too, are completed. *)
Definition one_shots (m : gmap string Job) (ids : list string) : Prop :=
  ∀ d, d ∈ ids → ∃ r, m !! d = Some r ∧ job_is_recurring r = false.
Definition waits (x : Daemon) (u : string) (deps : list string) : Prop :=
  ∃ r, jobs x.2 !! u = Some r ∧ job_depends_on r = deps ∧ one_shots (jobs x.2) deps ∧
    (u ∉ map job_id x.1 ∧ never_ran (job_status r) ∨ ∀ d, d ∈ deps → completed_in (jobs x.2) d).

Lemma one_shots_kept m m' ids : evolves m m' → one_shots m ids → one_shots m' ids.
Proof.
  intros He Ho d Hd. destruct (Ho d Hd) as (r & Hr & Hrec). destruct (He d r Hr) as (r' & Hr' & Hi & _).
  exists r'. split; [done|]. by rewrite (same_recurring _ _ Hi).
Qed.

Lemma completed_kept m m' ids :
  evolves m m' → one_shots m ids → (∀ d, d ∈ ids → completed_in m d) → ∀ d, d ∈ ids → completed_in m' d.
Proof.
  intros He Ho Hall d Hd. destruct (Hall d Hd) as (r & Hr & Hc). destruct (Ho d Hd) as (r0 & Hr0 & Hrec). simplify_eq.
  destruct (He d r Hr) as (r' & Hr' & Hev). exists r'. split; [done|].
  destruct (evolves_one_shot _ _ Hev Hrec) as [_ Ht]. rewrite Ht; [done|]. by rewrite Hc.
Qed.

Lemma waits_step x y u deps :
  keyed (jobs x.2) → picked_ok x.1 x.2 → daemon_step x y → waits x u deps → waits y u deps.
Proof.
  intros Hk Hp Hs (r & Hr & Hd & Ho & Hw).
  destruct (daemon_steps_evolve _ _ _ _ Hk (rtc_once _ _ Hs)) as [He _].
  pose proof (daemon_step_picked _ _ x y Hk Hs Hp) as Hpy. pose proof (one_shots_kept _ _ _ He Ho) as Hoy.
  destruct (He u r Hr) as (r' & Hr' & Hi & _).
  assert (job_depends_on r' = deps) as Hd' by (rewrite <- Hd; apply Hi).
  destruct Hw as [[Hnp Hn]|Hall].
  2: { exists r'. split_and!; [done..|]. right. by eapply completed_kept. }
  destruct (decide (u ∈ map job_id y.1)) as [Hin|Hout].
  - exists r'. split_and!; [done..|]. right. apply list_elem_of_map in Hin as (j & -> & Hj).
    destruct (Hpy j Hj) as (_ & _ & rj & Hrj & Hev & Hdeps). assert (rj = r') as -> by congruence. intros d Hin.
    destruct (Hoy d Hin) as (rd & Hrd & Hrec). destruct (Hdeps d) as (rd' & Hrd' & Hc).
    { right. replace (job_depends_on j) with (job_depends_on r') by apply Hev. congruence. }
    exists rd'. split; [done|]. destruct Hc; [congruence|done].
  - destruct (not_picked_kept _ _ x y u r Hk Hs Hr Hnp Hn) as (r2 & Hr2 & _ & Hn2).
    assert (r2 = r') as -> by congruence. exists r'. split_and!; [done..|]. by left.
Qed.

Lemma waits_steps x y u deps :
  keyed (jobs x.2) → picked_ok x.1 x.2 → rtc daemon_step x y → waits x u deps → waits y u deps.
Proof.
  intros Hk Hp Hs. induction Hs as [x|x y z Hs _ IH]; [done|]. intros Hw.
  destruct (daemon_steps_evolve _ _ _ _ Hk (rtc_once _ _ Hs)) as [_ Hk1].
  apply IH; [done|by eapply (daemon_step_picked _ _ x y)|]. exact (waits_step _ _ _ _ Hk Hp Hs Hw).
Qed.

Context (providers : list string) (timeout_ms : Z) (topic_uuid : string) (uuid : nat → string) (clock : nat → Time).
Notation submit := (submit to_rfc3339 add_seconds uuid clock).
Notation submit_drafts := (submit_drafts to_rfc3339 add_seconds timeout_ms uuid clock).
Notation submit_as_jobs := (submit_as_jobs to_rfc3339 add_seconds providers timeout_ms topic_uuid uuid clock).

Lemma submit_inv k spec q q' i :
  keyed (jobs q) → submit k spec q = (q', Ok i) →
  rtc (step to_rfc3339 add_seconds) q q' ∧ keyed (jobs q') ∧ jobs q !! i = None ∧
  ∃ r, jobs q' = <[i := r]> (jobs q) ∧ job_status r = Queued ∧ job_depends_on r = spec_depends_on spec ∧
       job_is_recurring r = spec_is_recurring spec.
Proof.
  intros Hk Hs. pose proof (submit_moves _ _ _ _ _ _ _ _ Hk Hs) as [_ Hk'].
  split; [apply rtc_once; by eapply s_submit|].
  apply submit_job_effect in Hs as (-> & _ & Hfresh & e & Hj & _). split; [done|]. split; [done|].
  eexists. split; [exact Hj|]. done.
Qed.

Lemma submit_drafts_inv topic base question names k q q' ids :
  keyed (jobs q) → submit_drafts topic base question k names q = (q', Ok ids) →
  rtc (step to_rfc3339 add_seconds) q q' ∧ keyed (jobs q') ∧ length ids = length names ∧ jobs q ⊆ jobs q' ∧
  one_shots (jobs q') ids.
Proof.
  revert k q ids. induction names as [|name names IH]; intros k q ids Hk Hr; simpl in Hr.
  { injection Hr as <- <-. split_and!; [done..|]. by intros i ?%elem_of_nil. }
  apply M_bind_inv in Hr as [(q1 & i & Hs & Hr)|(x & _ & [=])].
  apply M_bind_inv in Hr as [(q2 & rest & Hrest & Hr)|(x & _ & [=])]. injection Hr as <- <-.
  apply submit_inv in Hs as (Hst & Hk1 & Hfresh & r & Hj & Hq & Hd & Hrec); [|done].
  destruct (IH _ _ _ Hk1 Hrest) as (Hst2 & Hk2 & Hlen & Hsub & Hall). split; [by etrans|].
  split; [done|]. split; [by simpl; rewrite Hlen|]. split.
  - etrans; [|exact Hsub]. rewrite Hj. by apply insert_subseteq.
  - intros j [->|Hin]%elem_of_cons; [|by apply Hall]. exists r. split; [|done].
    eapply lookup_weaken; [|exact Hsub]. by rewrite Hj, lookup_insert_eq.
Qed.

Lemma fresh_not_picked (p : list Job) q i : picked_ok p q → jobs q !! i = None → i ∉ map job_id p.
Proof.
  intros Hp Hi (j & -> & Hj)%list_elem_of_map. destruct (Hp j Hj) as (_ & _ & r & Hr & _). congruence.
Qed.

(** The jobs of a council in the table: the critique waits for every draft, the synthesis
    for the critique. *)
Lemma graph_waits messages context p q0 q1 g :
  keyed (jobs q0) → picked_ok p q0 → submit_as_jobs messages context q0 = (q1, Ok g) →
  keyed (jobs q1) ∧ picked_ok p q1 ∧ length (draft_job_ids g) = length providers ∧
  one_shots (jobs q1) (draft_job_ids g) ∧
  waits (p, q1) (critique_job_id g) (draft_job_ids g) ∧ waits (p, q1) (synthesis_job_id g) [critique_job_id g].
Proof.
  intros Hk Hp Hr. unfold Council.submit_as_jobs in Hr. destruct providers as [|p0 ps] eqn:Hps; [done|]. rewrite <- Hps in *.
  cbv zeta in Hr. apply M_bind_inv in Hr as [(qa & ids & Hd & Hr)|(x & _ & [=])].
  apply submit_drafts_inv in Hd as (Hsta & Hka & Hlen & _ & Hids); [|done].
  apply M_bind_inv in Hr as [(qb & c & Hc & Hr)|(x & _ & [=])].
  apply M_bind_inv in Hr as [(qc & s & Hs & Hr)|(x & _ & [=])]. injection Hr as <- <-. simpl.
  apply submit_inv in Hc as (Hstb & Hkb & Hfc & rc & Hjb & Hqc & Hdc & Hrc); [|done].
  apply submit_inv in Hs as (Hstc & Hkc & Hfs & rs & Hjc & Hqs & Hds & Hrs); [|done].
  pose proof (picked_steps _ _ p q0 qa Hk Hsta Hp) as Hpa. pose proof (picked_steps _ _ p qa qb Hka Hstb Hpa) as Hpb.
  destruct (steps_evolve _ _ _ _ Hkb Hstc) as [Heb _]. destruct (steps_evolve _ _ _ _ Hka Hstb) as [Hea _].
  assert (one_shots (jobs qc) ids) as Hidsc by (by do 2 (eapply one_shots_kept; [eassumption|])).
  assert (jobs qc !! c = Some rc) as Hcc.
  { rewrite Hjc, lookup_insert_ne by (intros ->; by rewrite Hjb, lookup_insert_eq in Hfs).
    by rewrite Hjb, lookup_insert_eq. }
  split; [done|]. split; [by apply (picked_steps to_rfc3339 add_seconds p qb)|]. split; [done|]. split; [done|]. split.
  - exists rc. split; [done|]. split; [done|]. split; [done|]. left. split; [by apply (fresh_not_picked p qa)|by left].
  - exists rs. split; [by simpl; rewrite Hjc, lookup_insert_eq|]. split; [done|]. split.
    + intros d ->%list_elem_of_singleton. by exists rc.
    + left. split; [by apply (fresh_not_picked p qb)|by left].
Qed.

(** What has run, and what that says of the phases before. *)
Definition in_order (m : gmap string Job) (g : CouncilJobGraph) : Prop :=
  (∃ r, m !! critique_job_id g = Some r ∧
     (never_ran (job_status r) ∨ ∀ d, d ∈ draft_job_ids g → completed_in m d)) ∧
  (∃ r, m !! synthesis_job_id g = Some r ∧
     (never_ran (job_status r) ∨ completed_in m (critique_job_id g) ∧
                                 ∀ d, d ∈ draft_job_ids g → completed_in m d)).

Lemma phases_in_order messages context p1 p2 q0 q1 q2 g :
  keyed (jobs q0) → picked_ok p1 q0 → submit_as_jobs messages context q0 = (q1, Ok g) →
  rtc daemon_step (p1, q1) (p2, q2) → in_order (jobs q2) g.
Proof.
  intros Hk Hp Hsub Hs. destruct (graph_waits _ _ _ _ _ _ Hk Hp Hsub) as (Hk1 & Hp1 & _ & _ & Hc & Hsy).
  destruct (waits_steps (p1, q1) _ _ _ Hk1 Hp1 Hs Hc) as (rc & Hrc & _ & _ & Hcw).
  destruct (waits_steps (p1, q1) _ _ _ Hk1 Hp1 Hs Hsy) as (rs & Hrs & _ & _ & Hsw). simpl in *.
  split; [exists rc; split; [done|]; destruct Hcw as [[_ ?]|?]; [by left|by right]|].
  exists rs. split; [done|]. destruct Hsw as [[_ ?]|Hsw]; [by left|]. right.
  assert (completed_in (jobs q2) (critique_job_id g)) as Hcc by (apply Hsw; by left). split; [done|].
  destruct Hcw as [[_ Hn]|?]; [|done]. destruct Hcc as (r & Hr & Hdone). simplify_eq. rewrite Hdone in Hn.
  by destruct Hn as [|[|]].
Qed.

(** C36: submitted as jobs, a council keeps its order whatever the daemon does with the
    queue from then on (its loop picks jobs, its tasks claim them at any time after, and
    any other calls that claim no job come in between), and whatever jobs it had picked
    before: there is one draft for each provider; the critique has run only if every draft
    is completed, and the synthesis only if the critique and every draft are. *)
Theorem council_phases_in_order messages context p1 p2 q0 q1 q2 g :
  keyed (jobs q0) → picked_ok p1 q0 → submit_as_jobs messages context q0 = (q1, Ok g) →
  rtc daemon_step (p1, q1) (p2, q2) →
  length (draft_job_ids g) = length providers ∧
  (∃ r, jobs q2 !! critique_job_id g = Some r ∧
     (never_ran (job_status r) ∨ ∀ d, d ∈ draft_job_ids g → completed_in (jobs q2) d)) ∧
  (∃ r, jobs q2 !! synthesis_job_id g = Some r ∧
     (never_ran (job_status r) ∨ completed_in (jobs q2) (critique_job_id g) ∧
                                 ∀ d, d ∈ draft_job_ids g → completed_in (jobs q2) d)).
Proof.
  intros Hk Hp Hsub Hs. split; [by destruct (graph_waits _ _ _ _ _ _ Hk Hp Hsub) as (_ & _ & ? & _)|].
  exact (phases_in_order _ _ _ _ _ _ _ _ Hk Hp Hsub Hs).
Qed.

(** One draft that fails, is cancelled or expires blocks the council for good, though the
    deliberation at once survives it. *)
Theorem failed_draft_blocks_council messages context p1 p2 p3 q0 q1 q2 q3 g d r :
  keyed (jobs q0) → picked_ok p1 q0 → submit_as_jobs messages context q0 = (q1, Ok g) →
  rtc daemon_step (p1, q1) (p2, q2) →
  d ∈ draft_job_ids g → jobs q2 !! d = Some r → Status.is_terminal (job_status r) = true → job_status r ≠ Completed →
  rtc daemon_step (p2, q2) (p3, q3) →
  ∃ r', jobs q3 !! synthesis_job_id g = Some r' ∧ never_ran (job_status r').
Proof.
  intros Hk Hp Hsub Hs Hd Hr Ht Hne Hs'.
  destruct (graph_waits _ _ _ _ _ _ Hk Hp Hsub) as (Hk1 & _ & _ & Hone & _).
  destruct (daemon_steps_evolve _ _ (p1, q1) _ Hk1 Hs) as [He1 Hk2].
  destruct (daemon_steps_evolve _ _ (p2, q2) _ Hk2 Hs') as [He _]. simpl in *.
  assert (rtc daemon_step (p1, q1) (p3, q3)) as Hs13 by (by etrans).
  destruct (phases_in_order _ _ _ _ _ _ _ _ Hk Hp Hsub Hs13) as [_ (rs & Hrs & [?|[_ Hall]])]; [by exists rs|].
  exfalso. destruct (Hall d Hd) as (rd & Hrd & Hdone). destruct (He d r Hr) as (r' & Hr' & Hev).
  destruct (one_shots_kept _ _ _ He1 Hone d Hd) as (r0 & Hr0 & Hrec). simplify_eq.
  destruct (evolves_one_shot _ _ Hev Hrec) as [_ Hfix]. rewrite (Hfix Ht) in Hdone. congruence.
Qed.
End graph.

(** ** Sub-agents *)

(** A delegation that passes names a registered sub-agent with a capability, has
    something to do, and if that sounds destructive the sub-agent may do such things;
    everything else is refused. *)
Theorem delegation_policy l id messages tools :
  is_ok (delegate_to l id messages tools) = true ↔
  ∃ d, List.find (λ d, bool_decide (subagent_id d = id)) l = Some d ∧ subagent_capabilities d ≠ [] ∧
    trim (last_user_prompt messages) ≠ "" ∧
    ((∃ n, n ∈ destructive_needles ∧ contains (last_user_prompt messages) n = true) →
     ∃ c, c ∈ subagent_capabilities d ∧ to_lowercase c = "destructive_ops").
Proof.
  unfold delegate_to. destruct (List.find _ l) as [d|]; [|split; [done|by intros (? & [=] & _)]].
  unfold validate_delegation_policy. cbv zeta.
  destruct (existsb (contains (last_user_prompt messages)) destructive_needles) eqn:Hd;
    (case_bool_decide as Hc; simpl; [split; [done|naive_solver]|]);
    (destruct (str_is_empty (trim (last_user_prompt messages))) eqn:He;
      [split; [done|]; intros (? & [= <-] & _ & Hne & _); exfalso; apply Hne; by destruct (trim _)|]);
    assert (trim (last_user_prompt messages) ≠ "") as Hne by (by intros Hn; rewrite Hn in He).
  - destruct (existsb (λ cap, _) _) eqn:Ha; simpl.
    + split; [intros _|done]. exists d. split_and!; [done..|]. intros _. apply existsb_exists in Ha as (c & Hin & Hb).
      exists c. split; [by apply list_elem_of_In|]. exact (proj1 (bool_decide_eq_true _) Hb).
    + split; [done|]. intros (? & [= <-] & _ & _ & Himp). exfalso. apply existsb_exists in Hd as (n & Hin & Hn).
      destruct Himp as (c & Hcin & Hlow); [exists n; by rewrite list_elem_of_In|].
      apply not_true_iff_false in Ha. apply Ha, existsb_exists. exists c. rewrite <- list_elem_of_In. split; [done|].
      by apply bool_decide_true.
  - simpl. split; [intros _|done]. exists d. split_and!; [done..|]. intros (n & Hin & Hn). exfalso.
    apply not_true_iff_false in Hd. apply Hd, existsb_exists. exists n. by rewrite <- list_elem_of_In.
Qed.

(** A sub-agent that is to use the local provider is routed like any other request: to
    the Ego first. *)
Theorem local_subagent_reaches_ego {W} (r : IdEgoRouter Value W) l id messages tools d :
  List.find (λ d, bool_decide (subagent_id d = id)) l = Some d → subagent_provider d = SameAsId →
  is_ok (validate_delegation_policy d messages) = true →
  delegate r l id messages tools = ego_then_id r false (mkRequest messages None None).
Proof.
  intros Hf Hp Hv. unfold delegate, delegate_to. rewrite Hf. destruct (validate_delegation_policy d messages); [|done].
  simpl. by rewrite Hp.
Qed.

(** ** At concrete inputs *)

Module CouncilDemo.

Definition text : JsonText :=
  {| from_str _ := Ok (Obj [("score", Num (PosInt 7))]); to_string _ := "" |}.
Definition number (n : Number) : f32 := match n with PosInt z => f32_of_Z z | _ => f32_0_0 end.
(** The third provider is down; the second is not reviewed by it. *)
Definition answers (k : nat) (c : Call) : Answer :=
  if decide (callee c = 2) then Some (Err "down") else Some (Ok (mkResponse "{}" None)).
Definition members : list string := ["a"; "b"; "c"].
Definition question : list Message := [new_message "user" "why?"].

Lemma number_not_nan n : number n ≠ S754_nan.
Proof.
  destruct n; [apply f32_of_Z_not_nan|done..].
Qed.

Definition outcome := deliberate (H := text) number members answers false 90 question None.

Lemma council_deliberates_witness :
  ∃ r, outcome.2 = Ok r ∧ map score (drafts r) = [Some (f32_of_Z 7); Some (f32_of_Z 7)] ∧
    drafts_of members answers question None (drafts r).
Proof.
  destruct (outcome.2) as [r|e] eqn:Hr; [|exfalso; vm_compute in Hr; discriminate].
  destruct (council_deliberates (H := text) number members answers false 90 question None outcome.1 r) as
    (reviews & response & _ & Hd & _).
  - apply number_not_nan.
  - simpl. lia.
  - change (outcome = (outcome.1, Ok r)). rewrite <- Hr. apply surjective_pairing.
  - exists r. split; [done|]. split; [|exact Hd]. vm_compute in Hr. injection Hr as <-. reflexivity.
Defined.

Definition start : JobQueue (gmap string (JobRecord Value)) := mkJobQueue ∅ [].
Definition submitted := submit_as_jobs (Time:=Z) (λ _, "now") (λ t _, Some t) members 90000 "u" pretty (λ _, 0%Z)
  question None start.

(** A draft is picked; before its task claims it, another job is submitted; then it runs
    to its end. *)
Definition first_draft : option (JobRecord Value) := jobs submitted.1 !! "1".
Definition urgent : JobSpec Value := {|
  spec_goal := "goal"; spec_topic := "other"; spec_capability := General; spec_priority := Critical;
  spec_time_budget_ms := 60000; spec_max_turns := 5; spec_system_context := None; spec_allowed_skill_ids := [];
  spec_ttl_seconds := 3600; spec_input_data := None; spec_parent_job_id := None; spec_parent_correlation_id := None;
  spec_depth := 0; spec_provider_profile := None; spec_cron_expression := None; spec_is_recurring := false;
  spec_significance_keywords := []; spec_significance_threshold := default_significance_threshold;
  spec_job_mode := "agentic_run"; spec_goal_template := None; spec_depends_on := [];
  spec_execution_mode := Mediated; spec_direct_tool_call := None |}.
Definition crowded := (submit_job (Time:=Z) (λ _, "now") (λ t _, Some t) "new" 0%Z urgent submitted.1).1.
Definition drafting := (mark_running "1" "agent" "m" "p" "now" crowded).1.
Definition drafted := (mark_completed "1" "draft" 1 "now" drafting).1.

Lemma council_phases_in_order_witness :
  ∃ g j, submitted.2 = Ok g ∧ draft_job_ids g = ["0"; "1"; "2"] ∧ first_draft = Some j ∧
    next_of (map_to_list (jobs crowded)).*2 ≠ Some j ∧ completed_in (jobs drafted) "1" ∧
    ∃ r, jobs drafted !! synthesis_job_id g = Some r ∧ never_ran (job_status r).
Proof.
  destruct (submitted.2) as [g|e] eqn:Hg; [|exfalso; vm_compute in Hg; discriminate].
  destruct first_draft as [j|] eqn:Hj; [|exfalso; vm_compute in Hj; discriminate].
  destruct (council_phases_in_order (Time:=Z) (λ _, "now") (λ t _, Some t) members 90000 "u" pretty (λ _, 0%Z)
    question None [] [j] start submitted.1 drafted g) as (_ & _ & r & Hr & Hw).
  - intros i r Hr. change ((∅ : gmap string (JobRecord Value)) !! i = Some r) in Hr. by rewrite lookup_empty in Hr.
  - by intros ? ?%elem_of_nil.
  - change (submitted = (submitted.1, Ok g)). rewrite <- Hg. apply surjective_pairing.
  - assert (job_id j = "1") as Hid by (vm_compute in Hj; injection Hj as <-; reflexivity).
    eapply rtc_l; [eapply (d_pick _ _ [] _ (map_to_list (jobs submitted.1)).*2 j); [reflexivity|]|].
    { rewrite <- Hj. vm_compute. reflexivity. }
    eapply rtc_l; [apply (d_other _ _ _ _ crowded)|].
    { apply (submit_other _ _ "new" 0%Z urgent _ _ (Ok "new")). vm_compute. reflexivity. }
    eapply rtc_l; [eapply (d_run _ _ [j] j "agent" "m" "p" "now" _ drafting (Ok tt)); [by left|]|].
    { rewrite Hid. vm_compute. reflexivity. }
    apply rtc_once, d_other, (complete_other _ _ "1" "draft" 1 "now" _ _ (Ok tt)). vm_compute. reflexivity.
  - exists g, j. vm_compute in Hg. injection Hg as <-. split; [reflexivity|]. split; [reflexivity|]. split; [done|].
    split; [vm_compute; vm_compute in Hj; congruence|]. split; [eexists; split; vm_compute; reflexivity|].
    exists r. split; [exact Hr|]. vm_compute in Hr. injection Hr as <-. by left.
Defined.
End CouncilDemo.
