(* ===== verification/SoulForge.v ===== *)
(** * The Soul Forge: calibration ([crates/soul-forge/src/lib.rs])

    Three dilemmas whose choices carry weights in [f32]; their sum, normalised, gives an
    archetype, a hash and a sigil.  SHA-256 is a parameter.  The texts of the dilemmas are
    left out: a scenario is its identifier and its choices with their weights.  Then what
    the calibration accepts, and every soul it can produce. *)

From S2P Require Import Prelude RustStr F32.
From Stdlib Require Import ZArith Lia SpecFloat.
From stdpp Require Import base list strings.

Open Scope rust_scope.

Record TriangleWeights : Type := mkWeights {
  deontology : f32;
  teleology : f32;
  areteology : f32;
  welfare : f32;
}.

Record ForgeChoice : Type := mkChoice { choice_id : string; choice_weights : TriangleWeights }.
Record ForgeScenario : Type := mkScenario { scenario_id : string; choices : list ForgeChoice }.

Record SoulOutput : Type := mkSoul {
  archetype : string;
  weights : TriangleWeights;
  soul_hash : string;
  sigil : string;
  choices_made : list (string * string);
}.

(** ** Weights *)

Definition zero_weights : TriangleWeights := mkWeights f32_0_0 f32_0_0 f32_0_0 f32_0_0.

Definition map_weights (f : f32 → f32) (w : TriangleWeights) : TriangleWeights :=
  mkWeights (f (deontology w)) (f (teleology w)) (f (areteology w)) (f (welfare w)).

Definition total (w : TriangleWeights) : f32 :=
  f32_add (f32_add (f32_add (deontology w) (teleology w)) (areteology w)) (welfare w).

Definition normalize (w : TriangleWeights) : TriangleWeights :=
  let sum := total w in
  if f32_gt sum f32_0_0 then map_weights (λ x, f32_div x sum) w else w.

Definition add (w other : TriangleWeights) : TriangleWeights :=
  mkWeights (f32_add (deontology w) (deontology other)) (f32_add (teleology w) (teleology other))
    (f32_add (areteology w) (areteology other)) (f32_add (welfare w) (welfare other)).

Definition dimensions (w : TriangleWeights) : list (f32 * string) :=
  [(deontology w, "deontology"); (teleology w, "teleology"); (areteology w, "areteology"); (welfare w, "welfare")].

(** [max_by]: the last of the greatest. *)
Definition max_by (l : list (f32 * string)) : option (f32 * string) :=
  foldl (λ acc v, match acc with
                  | None => Some v
                  | Some a => match f32_cmp a.1 v.1 with Gt => Some a | _ => Some v end
                  end) None l.

Definition dominant (w : TriangleWeights) : string := default "balanced" (snd <$> max_by (dimensions w)).

(** Greatest first, stable. *)
Definition greater_first (a b : f32 * string) : bool := match f32_cmp b.1 a.1 with Gt => false | _ => true end.
Definition secondary (w : TriangleWeights) : string :=
  default "" (snd <$> sort_by greater_first (dimensions w) !! 1%nat).

Definition archetype_of (first second : string) : string :=
  if decide (first = "deontology") then
    if decide (second = "welfare") then "The Guardian"
    else if decide (second = "areteology") then "The Sentinel" else "The Arbiter"
  else if decide (first = "teleology") then
    if decide (second = "welfare") then "The Architect"
    else if decide (second = "areteology") then "The Strategist" else "The Pragmatist"
  else if decide (first = "areteology") then
    if decide (second = "welfare") then "The Sage"
    else if decide (second = "deontology") then "The Philosopher" else "The Seeker"
  else if decide (first = "welfare") then
    if decide (second = "areteology") then "The Empath"
    else if decide (second = "deontology") then "The Protector" else "The Caretaker"
  else "The Balanced".

Definition derive_archetype (w : TriangleWeights) : string := archetype_of (dominant w) (secondary w).

(** ** Hash and sigil *)

Section soul.
(** SHA-256 in hexadecimal. *)
Context (sha256_hex : string → string).

Definition soul_text (made : list (string * string)) (w : TriangleWeights) : string :=
  RustStr.join "" (map (λ c, c.1 +:+ ":" +:+ c.2 +:+ "|") made) +:+
  RustStr.join "," (map (f32_fixed 4) [deontology w; teleology w; areteology w; welfare w]).

Definition compute_soul_hash (made : list (string * string)) (w : TriangleWeights) : string :=
  sha256_hex (soul_text made w).

Definition tenths (x : f32) : nat := N.to_nat (f32_to_usize (f32_mul x (f32_of_Z 10))).

(** [{:<10}]: padded to ten characters. *)
Definition bar (n : nat) (ch : string) : string :=
  RustStr.join "" (replicate n ch) +:+ RustStr.join "" (replicate (10 - n) " ").

Definition sigil_line (label : string) (x : f32) (ch : string) : string :=
  "    ║ " +:+ label +:+ ": [" +:+ bar (tenths x) ch +:+ "]  " +:+ f32_fixed 0 (f32_mul x (f32_of_Z 100)) +:+ "% ║" +:+ nl.

Definition generate_sigil (w : TriangleWeights) : string :=
  nl +:+ "    ╔═══════════════════════╗" +:+ nl +:+ "    ║     SOUL  SIGIL       ║" +:+ nl +:+
  "    ╠═══════════════════════╣" +:+ nl +:+
  sigil_line "D" (deontology w) "█" +:+ sigil_line "T" (teleology w) "▓" +:+
  sigil_line "A" (areteology w) "░" +:+ sigil_line "W" (welfare w) "▒" +:+
  "    ╚═══════════════════════╝".

(** ** The engine *)

Definition find_scenario (id : string) (l : list ForgeScenario) : option ForgeScenario :=
  List.find (λ s, bool_decide (scenario_id s = id)) l.
Definition find_choice (id : string) (s : ForgeScenario) : option ForgeChoice :=
  List.find (λ c, bool_decide (choice_id c = id)) (choices s).

Fixpoint sum_choices (scenarios : list ForgeScenario) (made : list (string * string)) (w : TriangleWeights)
  : result TriangleWeights string :=
  match made with
  | [] => Ok w
  | (sid, cid) :: made =>
      match find_scenario sid scenarios with
      | None => Err ("Unknown scenario: " +:+ sid)
      | Some s =>
          match find_choice cid s with
          | None => Err ("Unknown choice: " +:+ cid +:+ " in scenario " +:+ sid)
          | Some c => sum_choices scenarios made (add w (choice_weights c))
          end
      end
  end.

Definition pretty_nat (n : nat) : string := pretty.pretty n.

Definition crystallize (scenarios : list ForgeScenario) (made : list (string * string)) : result SoulOutput string :=
  if negb (length made =? length scenarios)%nat
  then Err ("Expected " +:+ pretty_nat (length scenarios) +:+ " choices, got " +:+ pretty_nat (length made))
  else
    let? w := sum_choices scenarios made zero_weights in
    let w := normalize w in
    Ok (mkSoul (derive_archetype w) w (compute_soul_hash made w) (generate_sigil w) made).

Definition quickstart_output : SoulOutput :=
  let w := mkWeights (f32_lit 1 4) (f32_lit 1 4) (f32_lit 1 4) (f32_lit 1 4) in
  mkSoul "The Balanced" w (compute_soul_hash [] w) (generate_sigil w) [].
End soul.

(** In tenths. *)
Definition choice (id : string) (d t a w : Z) : ForgeChoice :=
  mkChoice id (mkWeights (f32_lit d 10) (f32_lit t 10) (f32_lit a 10) (f32_lit w 10)).

Definition built_in_scenarios : list ForgeScenario := [
  mkScenario "trolley" [choice "fix_now" 0 8 3 5; choice "follow_protocol" 9 1 2 2; choice "escalate" 4 3 6 3];
  mkScenario "privacy" [choice "reveal" 7 3 4 2; choice "stay_silent" 5 2 3 6; choice "hint" 3 4 7 5];
  mkScenario "autonomy" [choice "innovate" 1 7 8 2; choice "ask_first" 9 1 3 4; choice "standard_path" 6 3 2 5]].

(** ** What is accepted *)

(** A scenario and one of its choices. *)
Definition known_pairs (scenarios : list ForgeScenario) : list (string * string) :=
  concat (map (λ s, map (λ c, (scenario_id s, choice_id c)) (choices s)) scenarios).

(** The scenarios have distinct identifiers. *)
Lemma find_scenario_iff scenarios sid cid :
  NoDup (map scenario_id scenarios) →
  (∃ s c, find_scenario sid scenarios = Some s ∧ find_choice cid s = Some c) ↔ (sid, cid) ∈ known_pairs scenarios.
Proof.
  intros Hn. unfold known_pairs. rewrite list_elem_of_In, in_concat. split.
  - intros (s & c & Hs & Hc). apply List.find_some in Hs as [Hs Hid], Hc as [Hc Hcid].
    apply (proj1 (bool_decide_eq_true _)) in Hid, Hcid. subst.
    exists (map (λ c, (scenario_id s, choice_id c)) (choices s)). split.
    + by apply (in_map (λ s, map (λ c, (scenario_id s, choice_id c)) (choices s))).
    + by apply (in_map (λ c, (scenario_id s, choice_id c))).
  - intros (l & (s & <- & Hs)%in_map_iff & (c & [= <- <-] & Hc)%in_map_iff).
    assert (find_scenario (scenario_id s) scenarios = Some s) as Hf.
    { clear Hc. induction scenarios as [|s' l IH]; [done|]. simpl in Hn. apply NoDup_cons in Hn as [Hnin Hn]. simpl.
      destruct Hs as [->|Hs]; [by rewrite bool_decide_true|]. rewrite bool_decide_false; [by apply IH|].
      intros Heq. apply Hnin. rewrite Heq. apply list_elem_of_In. by apply in_map. }
    destruct (find_choice (choice_id c) s) as [c'|] eqn:Hc'; [by exists s, c'|].
    exfalso. eapply List.find_none in Hc'; [|exact Hc]. by rewrite bool_decide_true in Hc'.
Qed.

Lemma sum_choices_ok scenarios made w :
  NoDup (map scenario_id scenarios) →
  is_ok (sum_choices scenarios made w) = true ↔ Forall (λ p, p ∈ known_pairs scenarios) made.
Proof.
  intros Hn. revert w. induction made as [|[sid cid] made IH]; intros w; [by split|]. simpl. rewrite Forall_cons.
  rewrite <- (find_scenario_iff scenarios sid cid Hn).
  destruct (find_scenario sid scenarios) as [s|]; [|split; [done|by intros [(? & ? & [=] & _) _]]].
  destruct (find_choice cid s) as [c|] eqn:Hc; [|split; [done|intros [(? & ? & [= <-] & ?) _]; congruence]].
  rewrite IH. naive_solver.
Qed.

(** A calibration succeeds exactly when as many choices are given as there are
    scenarios and each names a scenario and one of its choices: nothing asks for the
    scenarios to be different. *)
Theorem crystallize_accepts_iff sha256_hex scenarios made :
  NoDup (map scenario_id scenarios) →
  is_ok (crystallize sha256_hex scenarios made) = true ↔
  length made = length scenarios ∧ Forall (λ p, p ∈ known_pairs scenarios) made.
Proof.
  intros Hn. unfold crystallize. destruct (Nat.eqb_spec (length made) (length scenarios)) as [Hl|Hl]; simpl; [|naive_solver].
  rewrite <- (sum_choices_ok scenarios made zero_weights Hn). destruct (sum_choices _ _ _); simpl; naive_solver.
Qed.

(** ** Every soul *)

Definition known := known_pairs built_in_scenarios.

(** All that is accepted. *)
Definition all_made : list (list (string * string)) :=
  concat (map (λ a, concat (map (λ b, map (λ c, [a; b; c]) known) known)) known).

Lemma elem_of_all_made made : length made = 3 → Forall (λ p, p ∈ known) made → made ∈ all_made.
Proof.
  destruct made as [|a [|b [|c [|]]]]; try done. intros _ Hall. apply Forall_cons in Hall as [Ha Hall].
  apply Forall_cons in Hall as [Hb Hall]. apply Forall_cons in Hall as [Hc _].
  rewrite !list_elem_of_In in *. unfold all_made. apply in_concat. eexists. split.
  - exact (in_map (λ a, concat (map (λ b, map (λ c, [a; b; c]) known) known)) known a Ha).
  - apply in_concat. eexists. split.
    + exact (in_map (λ b, map (λ c, [a; b; c]) known) known b Hb).
    + exact (in_map (λ c, [a; b; c]) known c Hc).
Qed.

Lemma accepted_listed sha256_hex made o : crystallize sha256_hex built_in_scenarios made = Ok o → made ∈ all_made.
Proof.
  intros Ho. assert (is_ok (crystallize sha256_hex built_in_scenarios made) = true) as Hok by (by rewrite Ho).
  apply crystallize_accepts_iff in Hok as [Hl Hall]; [by apply elem_of_all_made|].
  apply (bool_decide_unpack _). by vm_compute.
Qed.

(** Within a millionth of 1. *)
Definition nearly_one (x : f32) : bool := SFleb (f32_lit 999999 1000000) x && SFleb x (f32_lit 1000001 1000000).

Definition in_unit (x : f32) : bool := SFleb f32_0_0 x && SFleb x f32_1_0.

Definition archetypes : list string :=
  ["The Guardian"; "The Sentinel"; "The Arbiter"; "The Architect"; "The Strategist"; "The Pragmatist"; "The Sage";
   "The Philosopher"; "The Seeker"; "The Empath"; "The Protector"; "The Caretaker"].

(** The weight of the dominant dimension is the greatest. *)
Definition dominates (w : TriangleWeights) : bool :=
  existsb (λ d, bool_decide (d.2 = dominant w) && forallb (λ e, SFleb e.1 d.1) (dimensions w)) (dimensions w).

Definition well_formed_soul (w : TriangleWeights) : bool :=
  forallb in_unit (map fst (dimensions w)) && nearly_one (total w) && dominates w &&
  forallb (λ x, (tenths x <=? 10)%nat) (map fst (dimensions w)) &&
  bool_decide (derive_archetype w ∈ archetypes).

Definition weights_of (made : list (string * string)) : TriangleWeights :=
  match sum_choices built_in_scenarios made zero_weights with Ok w => normalize w | Err _ => zero_weights end.

Lemma all_souls : forallb (λ made, well_formed_soul (weights_of made)) all_made = true.
Proof. by vm_compute. Qed.

Lemma crystallize_weights sha256_hex made o :
  crystallize sha256_hex built_in_scenarios made = Ok o →
  weights o = weights_of made ∧ archetype o = derive_archetype (weights_of made) ∧
  soul_hash o = compute_soul_hash sha256_hex made (weights_of made) ∧ choices_made o = made.
Proof.
  unfold crystallize, weights_of. destruct (negb _); [done|]. destruct (sum_choices _ _ _) as [w|]; [|done].
  by intros [= <-].
Qed.

Lemma crystallized_well_formed sha256_hex made o :
  crystallize sha256_hex built_in_scenarios made = Ok o →
  well_formed_soul (weights o) = true ∧ archetype o ∈ archetypes.
Proof.
  intros Ho. pose proof (accepted_listed _ _ _ Ho) as Hin. apply crystallize_weights in Ho as (-> & -> & _).
  pose proof all_souls as Hall. rewrite forallb_forall in Hall. rewrite list_elem_of_In in Hin. specialize (Hall made Hin).
  split; [done|]. unfold well_formed_soul in Hall. apply andb_prop in Hall as [_ H5]. exact (proj1 (bool_decide_eq_true _) H5).
Qed.

(** The soul of a trial, or the one of the quick start, which makes no choices. *)
Definition forged (sha256_hex : string → string) (o : SoulOutput) : Prop :=
  (∃ made, crystallize sha256_hex built_in_scenarios made = Ok o) ∨ o = quickstart_output sha256_hex.

(** C29: every soul the forge can produce, from a trial or by the quick start, has weights
    between 0 and 1 that add up to 1 but for rounding, a dominant dimension that no other
    exceeds, and bars of at most ten characters; its archetype is one of the twelve, or
    [The Balanced] for the quick start, whose weights are all a quarter and which made no
    choices. *)
Theorem souls_are_well_formed sha256_hex o :
  forged sha256_hex o →
  (∀ x, x ∈ map fst (dimensions (weights o)) → in_unit x = true ∧ tenths x ≤ 10) ∧
  nearly_one (total (weights o)) = true ∧ dominates (weights o) = true ∧
  (archetype o ∈ archetypes ∨
   archetype o = "The Balanced" ∧ choices_made o = [] ∧
     ∀ x, x ∈ map fst (dimensions (weights o)) → x = f32_lit 1 4).
Proof.
  intros [[made Ho]| ->].
  - apply crystallized_well_formed in Ho as [Hw Ha]. unfold well_formed_soul in Hw.
    apply andb_prop in Hw as [Hw _]. apply andb_prop in Hw as [Hw H4].
    apply andb_prop in Hw as [Hw H3]. apply andb_prop in Hw as [H1 H2].
    split; [|by split_and!; [..|left]].
    intros x Hx. rewrite list_elem_of_In in Hx. rewrite forallb_forall in H1, H4. split; [by apply H1|].
    by apply Nat.leb_le, H4.
  - assert (∀ x, x ∈ map fst (dimensions (weights (quickstart_output sha256_hex))) → x = f32_lit 1 4) as Hx.
    { intros x Hx. simpl in Hx. repeat (apply elem_of_cons in Hx as [->|Hx]; [done|]). by apply elem_of_nil in Hx. }
    split; [|split; [by vm_compute|split; [by vm_compute|by right]]].
    intros x ->%Hx. split; [by vm_compute|]. apply Nat.leb_le. by vm_compute.
Qed.

(** ** The hash *)

Lemma texts_differ : NoDup (map (λ made, soul_text made (weights_of made)) all_made).
Proof. apply (bool_decide_unpack _). by vm_compute. Qed.

(** Two calibrations have the same soul hash only if the same choices were made in
    the same order, or SHA-256 collides on the texts that are hashed. *)
Theorem soul_hash_identifies sha256_hex made made' o o' :
  crystallize sha256_hex built_in_scenarios made = Ok o → crystallize sha256_hex built_in_scenarios made' = Ok o' →
  soul_hash o = soul_hash o' →
  made = made' ∨ soul_text made (weights o) ≠ soul_text made' (weights o') ∧
    sha256_hex (soul_text made (weights o)) = sha256_hex (soul_text made' (weights o')).
Proof.
  intros Ho Ho' Hh. pose proof (accepted_listed _ _ _ Ho) as Hin. pose proof (accepted_listed _ _ _ Ho') as Hin'.
  apply crystallize_weights in Ho as (-> & _ & Hs & _), Ho' as (-> & _ & Hs' & _). rewrite Hs, Hs' in Hh. unfold compute_soul_hash in Hh.
  destruct (decide (soul_text made (weights_of made) = soul_text made' (weights_of made'))) as [He|Hne].
  - left. apply list_elem_of_lookup in Hin as [i Hi], Hin' as [j Hj]. pose proof texts_differ as Hn.
    assert (i = j) as ->; [|congruence].
    eapply NoDup_lookup; [exact Hn|rewrite list_lookup_fmap, Hi; done|rewrite list_lookup_fmap, Hj; simpl; by rewrite He].
  - by right.
Qed.

(** ** At concrete choices *)

Module ForgeDemo.

Definition made : list (string * string) := [("trolley", "fix_now"); ("privacy", "hint"); ("autonomy", "innovate")].

Lemma crystallize_accepts_iff_witness : is_ok (crystallize (λ s, s) built_in_scenarios made) = true.
Proof.
  apply (crystallize_accepts_iff (λ s, s) built_in_scenarios made).
  - apply (bool_decide_unpack _). vm_compute. exact I.
  - split; [reflexivity|]. apply (bool_decide_unpack _). vm_compute. exact I.
Defined.

Lemma souls_are_well_formed_witness :
  ∃ o, crystallize (λ s, s) built_in_scenarios made = Ok o ∧ archetype o = "The Strategist" ∧ nearly_one (total (weights o)) = true.
Proof.
  destruct (crystallize (λ s, s) built_in_scenarios made) as [o|] eqn:Ho; [|exfalso; vm_compute in Ho; discriminate].
  exists o. split; [done|]. split; [vm_compute in Ho; injection Ho as <-; reflexivity|].
  apply (souls_are_well_formed (λ s, s) o). left. exists made. exact Ho.
Defined.

Lemma soul_hash_identifies_witness :
  ∃ o, crystallize (λ s, s) built_in_scenarios made = Ok o ∧
    (made = made ∨ soul_text made (weights o) ≠ soul_text made (weights o) ∧
       soul_text made (weights o) = soul_text made (weights o)).
Proof.
  destruct (crystallize (λ s, s) built_in_scenarios made) as [o|] eqn:Ho; [|exfalso; vm_compute in Ho; discriminate].
  exists o. split; [done|]. exact (soul_hash_identifies (λ s, s) made made o o Ho Ho eq_refl).
Defined.

(** The same dilemma three times is a calibration too. *)
Theorem one_dilemma_is_enough :
  is_ok (crystallize (λ s, s) built_in_scenarios [("trolley", "fix_now"); ("trolley", "fix_now"); ("trolley", "escalate")]) = true.
Proof. by vm_compute. Qed.

(** When the two greatest weights are equal, the second dimension of the archetype is the
    dominant one again. *)
Theorem tie_counts_twice :
  let w := weights_of [("trolley", "fix_now"); ("privacy", "hint"); ("autonomy", "standard_path")] in
  dominant w = "welfare" ∧ secondary w = "welfare" ∧ teleology w = welfare w.
Proof. by vm_compute. Qed.
End ForgeDemo.
