(* ===== verification/Agentic.v ===== *)
(** * The agentic engine ([crates/abigail-router/src/agentic.rs])

    [AgenticEngine::run]: the loop of turns of an autonomous run, with its events,
    the confirmation of tools, the questions to the mentor and cancellation.  What
    the outside decides while the run waits (the token, the two channels) is an
    oracle indexed by the number of events emitted so far, which tells the waiting
    points apart.  The waits have no time limit and the runtime keeps the senders
    while the run is active, so nothing may ever come ([Silence]): the run then stays
    where it is ([StillWaiting]).  What a [recv] returns may have been put into the
    channel before the question was asked.  An event is stored in the run and sent
    through the channel, which its reader empties; the broker gets the same event
    with the headers of [event_headers_of].  The model and the tools answer. *)

From S2P Require Import Prelude RustStr Json Cognitive.
From Stdlib Require Import ZArith Lia.
From stdpp Require Import base list strings gmap relations pretty.

Open Scope rust_scope.

Inductive RunStatus : Type :=
| Pending | Running | WaitingForInput | WaitingForConfirmation | Completed | Failed | Cancelled.

#[export] Instance RunStatus_eq_dec : EqDecision RunStatus.
Proof. solve_decision. Defined.

(** [ToolCallInfo] has the fields of [ToolCall]. *)
Inductive AgenticEvent : Type :=
| RunStarted (task_id goal : string)
| TurnStarted (task_id : string) (turn_number : nat)
| LlmResponse (task_id content : string) (tool_calls : list ToolCall)
| ToolExecuted (task_id tool_name result : string)
| MentorAsk (task_id question : string)
| ToolConfirmation (task_id tool_name params : string)
| TurnCompleted (task_id : string) (turn_number : nat)
| RunCompleted (task_id summary : string)
| RunFailed (task_id error : string)
| RunCancelled (task_id : string).

Record RunConfig : Type := mkRunConfig {
  goal : string;
  max_turns : nat;
  require_confirmation : bool;
  system_context : option string;
}.

Definition default_run_config : RunConfig := mkRunConfig "" 10 false None.

Record AgenticRun : Type := mkRun {
  run_id : string;
  config : RunConfig;
  run_status : RunStatus;
  current_turn : nat;
  events : list AgenticEvent;
  run_messages : list Message;
  created_at : string;
  completed_at : option string;
}.

Definition new_run (task_id : string) (c : RunConfig) (now : string) : AgenticRun :=
  mkRun task_id c Pending 0 [] [] now None.

Definition event_type (e : AgenticEvent) : string :=
  match e with
  | RunStarted _ _ => "run_started"
  | TurnStarted _ _ => "turn_started"
  | LlmResponse _ _ _ => "llm_response"
  | ToolExecuted _ _ _ => "tool_executed"
  | MentorAsk _ _ => "mentor_ask"
  | ToolConfirmation _ _ _ => "tool_confirmation"
  | TurnCompleted _ _ => "turn_completed"
  | RunCompleted _ _ => "run_completed"
  | RunFailed _ _ => "run_failed"
  | RunCancelled _ => "run_cancelled"
  end.

(** The topic and the headers of an event on the broker. *)
Definition event_topic (task_id : string) : string := "agentic:" +:+ task_id.
Definition event_headers_of (task_id : string) (e : AgenticEvent) : gmap string string :=
  <["task_id" := task_id]> {["event_type" := event_type e]}.

(** What ends a wait: what [recv] returns ([None] when the channel is closed), the
    token cancelled first, or nothing at all. *)
Inductive Waited (A : Type) : Type := Received (a : option A) | TokenCancelled | Silence.
Arguments Received {A}.
Arguments TokenCancelled {A}.
Arguments Silence {A}.

Section engine.
Context {W : Type}.

Record AgenticEngine : Type := mkEngine {
  provider : LlmProvider Value W;
  engine_tools : list (ToolDefinition Value);
  execute_call : ToolCall → W → W * result string string;
}.

Record Outside : Type := mkOutside {
  is_cancelled : nat → bool;
  confirmation : nat → Waited bool;
  mentor_answer : nat → Waited string;
  now : nat → string;
}.

Record RunState : Type := mkRunState {
  run : AgenticRun;
  conversation : list Message;
  world : W;
  completions : nat;
  executed : list ToolCall;
}.

Context (engine : AgenticEngine) (out : Outside).
Notation Run := (M RunState string).

Definition update (f : AgenticRun → AgenticRun) : Run unit :=
  modify (λ s, mkRunState (f (run s)) (conversation s) (world s) (completions s) (executed s)).

Definition set_run_status (st : RunStatus) (r : AgenticRun) : AgenticRun :=
  mkRun (run_id r) (config r) st (current_turn r) (events r) (run_messages r) (created_at r)
    (completed_at r).

Definition push_event (e : AgenticEvent) (r : AgenticRun) : AgenticRun :=
  mkRun (run_id r) (config r) (run_status r) (current_turn r) (events r ++ [e]) (run_messages r)
    (created_at r) (completed_at r).

Definition set_turn (turn : nat) (r : AgenticRun) : AgenticRun :=
  mkRun (run_id r) (config r) (run_status r) turn (events r) (run_messages r) (created_at r)
    (completed_at r).

Definition set_messages (ms : list Message) (r : AgenticRun) : AgenticRun :=
  mkRun (run_id r) (config r) (run_status r) (current_turn r) (events r) ms (created_at r)
    (completed_at r).

(** The event pushed, then the time of the end. *)
Definition finish_run (st : RunStatus) (e : AgenticEvent) (r : AgenticRun) : AgenticRun :=
  mkRun (run_id r) (config r) st (current_turn r) (events r ++ [e]) (run_messages r) (created_at r)
    (Some (now out (S (length (events r))))).

Definition say (m : Message) : Run unit :=
  modify (λ s, mkRunState (run s) (conversation s ++ [m]) (world s) (completions s) (executed s)).

(** How a part of a turn ends: it goes on, leaves the loop, returns from the run, or
    does not get past a wait. *)
Inductive Flow : Type := Next | Leave | Return | Wait.
Inductive Ending : Type := Ended | StillWaiting.

Definition cancelled (task_id : string) : Run Flow :=
  update (finish_run Cancelled (RunCancelled task_id)) ;; mret Return.

Definition first_messages (c : RunConfig) : list Message :=
  match system_context c with Some ctx => [new_message "system" ctx] | None => [] end
  ++ [new_message "user"
       ("Your goal: " +:+ goal c +:+ nl +:+ nl +:+
        "Work autonomously to accomplish this goal. Use the available tools as needed. When you believe the goal is accomplished, summarize what you did.")].

Definition ask_provider : Run CompletionResponse := λ s,
  let request := mkRequest (conversation s)
    (match engine_tools engine with [] => None | l => Some l end) None in
  let '(w, o) := complete (provider engine) request (world s) in
  (mkRunState (run s) (conversation s) w (S (completions s)) (executed s), o).

Definition execute (tc : ToolCall) : Run string := λ s,
  let '(w, o) := execute_call engine tc (world s) in
  (mkRunState (run s) (conversation s) w (completions s) (executed s ++ [tc]),
   Ok (match o with
       | Ok r => r
       | Err e => "Error executing tool '" +:+ call_name tc +:+ "': " +:+ e
       end)).

Definition perform (task_id : string) (tc : ToolCall) : Run Flow :=
  result ← execute tc;
  update (push_event (ToolExecuted task_id (call_name tc) result)) ;;
  say (new_message "user" ("Tool '" +:+ call_name tc +:+ "' result: " +:+ result)) ;;
  mret Next.

(** One tool call: [Return] when the run is cancelled meanwhile, [Wait] when nobody
    answers. *)
Definition handle_call (task_id : string) (c : RunConfig) (tc : ToolCall) : Run Flow :=
  if negb (require_confirmation c) then perform task_id tc
  else
    update (λ r, push_event (ToolConfirmation task_id (call_name tc) (arguments tc))
                   (set_run_status WaitingForConfirmation r)) ;;
    s ← get_state;
    match confirmation out (length (events (run s))) with
    | TokenCancelled => cancelled task_id
    | Silence => mret Wait
    | Received (Some true) => update (set_run_status Running) ;; perform task_id tc
    | Received _ =>
        say (new_message "user" ("Tool '" +:+ call_name tc +:+ "' was denied by the mentor.")) ;;
        update (set_run_status Running) ;; mret Next
    end.

Fixpoint handle_calls (task_id : string) (c : RunConfig) (calls : list ToolCall) : Run Flow :=
  match calls with
  | [] => mret Next
  | tc :: calls =>
      flow ← handle_call task_id c tc;
      match flow with Next => handle_calls task_id c calls | _ => mret flow end
  end.

Definition asks_mentor (lower : string) : bool :=
  existsb (contains lower) ["question for mentor"; "i need your input"; "please clarify"].
Definition says_done (lower : string) : bool :=
  existsb (contains lower) ["goal accomplished"; "task complete"; "i have completed"].

(** A reply without tool calls. *)
Definition handle_text (task_id : string) (c : RunConfig) (turn : nat) (content : string)
  : Run Flow :=
  let lower := to_lowercase content in
  if asks_mentor lower then
    update (λ r, push_event (MentorAsk task_id content) (set_run_status WaitingForInput r)) ;;
    s ← get_state;
    match mentor_answer out (length (events (run s))) with
    | TokenCancelled => cancelled task_id
    | Silence => mret Wait
    | Received (Some answer) =>
        say (new_message "user" answer) ;; update (set_run_status Running) ;; mret Next
    | Received None => mret Leave
    end
  else if (turn =? max_turns c) || says_done lower then mret Leave
  else mret Next.

Definition one_turn (task_id : string) (c : RunConfig) (turn : nat) : Run Flow :=
  s ← get_state;
  if is_cancelled out (length (events (run s))) then cancelled task_id
  else
    update (λ r, push_event (TurnStarted task_id turn) (set_turn turn r)) ;;
    outcome ← (λ s, let '(s, o) := ask_provider s in (s, Ok o));
    match outcome with
    | Err e => update (finish_run Failed (RunFailed task_id e)) ;; fail e
    | Ok response =>
        update (push_event (LlmResponse task_id (reply response)
                              (unwrap_or (reply_tool_calls response) []))) ;;
        say (new_message "assistant" (reply response)) ;;
        flow ← (match reply_tool_calls response with
                | Some calls => handle_calls task_id c calls
                | None => handle_text task_id c turn (reply response)
                end);
        match flow with
        | Next => update (push_event (TurnCompleted task_id turn)) ;; mret Next
        | _ => mret flow
        end
    end.

(** [for turn in 1..=max_turns]: [n] turns remain, the next one is [turn]. *)
Fixpoint run_turns (task_id : string) (c : RunConfig) (n turn : nat) : Run Flow :=
  match n with
  | 0 => mret Next
  | S n =>
      flow ← one_turn task_id c turn;
      match flow with Next => run_turns task_id c n (S turn) | _ => mret flow end
  end.

Definition last_content (ms : list Message) : string :=
  match last ms with Some m => content m | None => "Run completed" end.

Definition run_agentic : Run Ending :=
  s ← get_state;
  let task_id := run_id (run s) in
  let c := config (run s) in
  update (λ r, push_event (RunStarted task_id (goal c)) (set_run_status Running r)) ;;
  modify (λ s, mkRunState (run s) (first_messages c) (world s) (completions s) (executed s)) ;;
  flow ← run_turns task_id c (max_turns c) 1;
  match flow with
  | Return => mret Ended
  | Wait => mret StillWaiting
  | _ =>
      s ← get_state;
      update (set_messages (conversation s)) ;;
      update (finish_run Completed (RunCompleted task_id (last_content (conversation s)))) ;;
      mret Ended
  end.
End engine.
Arguments RunState : clear implicits.
Arguments AgenticEngine : clear implicits.
