(* ===== verification/AgenticSpec.v ===== *)
(** * The agentic engine: correctness

    With confirmation required, a tool is executed only right after the mentor said
    yes to it; a run ends, within its turns, in a final state that its last event
    announces, unless it waits for a mentor who never answers. *)

From S2P Require Import Prelude RustStr Json Cognitive Agentic.
From Stdlib Require Import ZArith Lia.
From stdpp Require Import base list strings gmap relations pretty.

Open Scope rust_scope.

Section spec.
Context {W : Type}.
Context (engine : AgenticEngine W) (out : Outside).
Notation RunState := (RunState W).
Notation Run := (M RunState string).
Implicit Types (s : RunState) (r : AgenticRun).

(** ** The log of events *)

(** An executed tool follows the question for it, answered with yes. *)
Definition confirmed_at (log : list AgenticEvent) (i : nat) (tool : string) : Prop :=
  ∃ j t params, i = S j ∧ log !! j = Some (ToolConfirmation t tool params) ∧
    confirmation out i = Received (Some true).

Definition all_confirmed (log : list AgenticEvent) : Prop :=
  ∀ i t tool result, log !! i = Some (ToolExecuted t tool result) → confirmed_at log i tool.

Definition executions (log : list AgenticEvent) : list string :=
  omap (λ e, match e with ToolExecuted _ tool _ => Some tool | _ => None end) log.

Definition is_execution (e : AgenticEvent) : bool :=
  match e with ToolExecuted _ _ _ => true | _ => false end.

Lemma confirmed_at_app log log' i tool : confirmed_at log i tool → confirmed_at (log ++ log') i tool.
Proof. intros (j & t & p & ? & Hj & ?). exists j, t, p. split_and!; [done|by apply lookup_app_l_Some|done]. Qed.

Lemma all_confirmed_snoc log e :
  all_confirmed log → is_execution e = false → all_confirmed (log ++ [e]).
Proof.
  intros Hl He i t tool result Hi. apply confirmed_at_app.
  apply lookup_snoc_Some in Hi as [[_ Hi]|[_ ->]]; [by eapply Hl|done].
Qed.

Lemma all_confirmed_execution log t tool result :
  all_confirmed log → confirmed_at (log ++ [ToolExecuted t tool result]) (length log) tool →
  all_confirmed (log ++ [ToolExecuted t tool result]).
Proof.
  intros Hl Hc i t' tool' result' Hi.
  apply lookup_snoc_Some in Hi as [[_ Hi]|[-> Heq]]; [apply confirmed_at_app; by eapply Hl|].
  by simplify_eq.
Qed.

(** ** What every step keeps *)

(** The events only grow, the calls executed are those the log has, and every one
    of them was confirmed when the configuration asks for it. *)
Definition faithful_log (c : RunConfig) s : Prop :=
  map call_name (executed s) = executions (events (run s)) ∧
  (require_confirmation c = true → all_confirmed (events (run s))).

Definition keeps (c : RunConfig) {A} (m : Run A) : Prop :=
  ∀ s s' o, faithful_log c s → m s = (s', o) → faithful_log c s'.

Lemma keeps_ret c {A} (a : A) : keeps c (mret a).
Proof. intros s s' o Hs [= <- _]. done. Qed.

Lemma keeps_fail c {A} e : keeps c (fail (A:=A) e).
Proof. intros s s' o Hs [= <- _]. done. Qed.

Lemma keeps_get c : keeps c get_state.
Proof. intros s s' o Hs [= <- _]. done. Qed.

Lemma keeps_bind c {A B} (m : Run A) (k : A → Run B) :
  keeps c m → (∀ a, keeps c (k a)) → keeps c (m ≫= k).
Proof.
  intros Hm Hk s s' o Hs [(s1 & a & H1 & H2)|(e & H1 & _)]%M_bind_inv.
  - eapply Hk; [by eapply Hm|done].
  - by eapply Hm.
Qed.

Lemma keeps_say c m : keeps c (say (W:=W) m).
Proof. intros s s' o Hs [= <- _]. exact Hs. Qed.

Lemma executions_app l l' : executions (l ++ l') = executions l ++ executions l'.
Proof. apply omap_app. Qed.

(** An update of the run that pushes one event that is not an execution, or none. *)
Lemma keeps_update c f :
  (∀ r, events (f r) = events r ∨ ∃ e, events (f r) = events r ++ [e] ∧ is_execution e = false) →
  keeps c (update f).
Proof.
  intros Hf s s' o [He Hc] [= <- _]. unfold faithful_log. simpl.
  destruct (Hf (run s)) as [->|(e & -> & Hn)]; [done|]. split.
  - rewrite executions_app, He. destruct e; simpl in *; by rewrite ?app_nil_r.
  - intros Hr. apply all_confirmed_snoc; auto.
Qed.

Lemma keeps_ask c : keeps c (ask_provider engine).
Proof.
  intros s s' o Hs. unfold ask_provider. destruct (complete _ _ _) as [w o'].
  intros [= <- _]. exact Hs.
Qed.

(** A call that is performed: its event follows the log as it is. *)
Lemma perform_keeps c task_id tc s s' o :
  faithful_log c s →
  (require_confirmation c = true →
   ∀ result, confirmed_at (events (run s) ++ [ToolExecuted task_id (call_name tc) result])
               (length (events (run s))) (call_name tc)) →
  perform engine task_id tc s = (s', o) → faithful_log c s'.
Proof.
  intros [He Hc] Hq. unfold perform, execute, mbind, M_bind.
  destruct (execute_call engine tc (world s)) as [w r]. intros [= <- _].
  unfold faithful_log. simpl. split.
  - rewrite map_app, executions_app, He. done.
  - intros Hr. apply all_confirmed_execution; auto.
Qed.

Lemma handle_call_keeps c task_id tc : keeps c (handle_call engine out task_id c tc).
Proof.
  unfold handle_call. destruct (require_confirmation c) eqn:Hr; simpl.
  - intros s s' o Hs Hm.
    apply M_bind_inv in Hm as [(s1 & [] & H1 & Hm)|(e & H1 & _)]; [|by unfold update, modify in H1].
    assert (faithful_log c s1) as Hs1.
    { eapply keeps_update; [|exact Hs|exact H1]. intros r. right. eexists. by split. }
    unfold update, modify in H1. injection H1 as H1.
    apply M_bind_inv in Hm as [(s2 & st & H2 & Hm)|(e & H2 & _)]; [|by unfold get_state in H2].
    unfold get_state in H2. injection H2 as -> ->.
    assert (events (run st) =
      events (run s) ++ [ToolConfirmation task_id (call_name tc) (arguments tc)]) as Hev by (by rewrite <- H1).
    destruct (confirmation out (length (events (run st)))) as [[[]|]| |] eqn:Hq.
    + apply M_bind_inv in Hm as [(s3 & [] & H3 & Hm)|(e & H3 & _)]; [|by unfold update, modify in H3].
      eapply perform_keeps; [| |exact Hm].
      * eapply keeps_update; [|exact Hs1|exact H3]. intros r. by left.
      * intros _ result. unfold update, modify in H3. injection H3 as H3. rewrite <- H3. simpl.
        exists (length (events (run s))), task_id, (arguments tc).
        split_and!; [rewrite Hev, length_app; simpl; lia| |done].
        apply lookup_app_l_Some. rewrite Hev. by rewrite lookup_app_r, Nat.sub_diag.
    + revert Hs1 Hm. apply keeps_bind; [apply keeps_say|intros ?].
      apply keeps_bind; [apply keeps_update; intros r; by left|intros ?; apply keeps_ret].
    + revert Hs1 Hm. apply keeps_bind; [apply keeps_say|intros ?].
      apply keeps_bind; [apply keeps_update; intros r; by left|intros ?; apply keeps_ret].
    + revert Hs1 Hm. apply keeps_bind; [|intros ?; apply keeps_ret].
      apply keeps_update. intros r. right. eexists. by split.
    + by eapply keeps_ret.
  - intros s s' o Hs Hm. eapply perform_keeps; [exact Hs| |exact Hm]. congruence.
Qed.

(** One event, not an execution, or none: what every other update does. *)
Ltac solve_keeps :=
  lazymatch goal with
  | |- keeps _ (mbind _ _) => apply keeps_bind; [solve_keeps|intros ?; solve_keeps]
  | |- keeps _ (mret _) => apply keeps_ret
  | |- keeps _ (fail _) => apply keeps_fail
  | |- keeps _ get_state => apply keeps_get
  | |- keeps _ (say _) => apply keeps_say
  | |- keeps _ (update _) =>
      apply keeps_update; intros ?; first [by left | right; eexists; by split]
  | |- keeps _ (cancelled _ _) => unfold cancelled; solve_keeps
  | |- keeps _ (if ?b then _ else _) => destruct b; solve_keeps
  | |- keeps _ (match ?x with _ => _ end) => destruct x; solve_keeps
  | |- _ => auto
  end.

Lemma handle_calls_keeps c task_id calls : keeps c (handle_calls engine out task_id c calls).
Proof.
  induction calls as [|tc calls IH]; [apply keeps_ret|].
  cbn [handle_calls]. apply keeps_bind; [apply handle_call_keeps|]. intros []; solve_keeps.
Qed.

Lemma handle_text_keeps c task_id turn text : keeps c (handle_text (W:=W) out task_id c turn text).
Proof. unfold handle_text. solve_keeps. Qed.

Lemma one_turn_keeps c task_id turn : keeps c (one_turn engine out task_id c turn).
Proof.
  unfold one_turn. apply keeps_bind; [apply keeps_get|]. intros s.
  destruct (is_cancelled _ _); [solve_keeps|].
  apply keeps_bind; [solve_keeps|]. intros _. apply keeps_bind.
  - intros s1 s2 o Hs. destruct (ask_provider engine s1) as [s3 o3] eqn:E. intros [= <- _].
    by eapply keeps_ask.
  - intros [response|e]; [|solve_keeps].
    apply keeps_bind; [solve_keeps|]. intros _. apply keeps_bind; [solve_keeps|]. intros _.
    apply keeps_bind; [|intros []; solve_keeps].
    destruct (reply_tool_calls response); [apply handle_calls_keeps|apply handle_text_keeps].
Qed.

Lemma run_turns_keeps c task_id n turn : keeps c (run_turns engine out task_id c n turn).
Proof.
  revert turn. induction n as [|n IH]; intros turn; [apply keeps_ret|].
  cbn [run_turns]. apply keeps_bind; [apply one_turn_keeps|]. intros []; solve_keeps.
Qed.

Lemma run_agentic_keeps s s' o :
  faithful_log (config (run s)) s → run_agentic engine out s = (s', o) →
  faithful_log (config (run s)) s'.
Proof.
  intros Hs. unfold run_agentic. intros Hm.
  apply M_bind_inv in Hm as [(s1 & st & H1 & Hm)|(e & H1 & _)]; [|by unfold get_state in H1].
  unfold get_state in H1. injection H1 as <- <-.
  match type of Hm with ?m s = _ => assert (keeps (config (run s)) m) as Hk end; [|by eapply Hk].
  apply keeps_bind; [solve_keeps|]. intros _. apply keeps_bind.
  { intros s1 s2 o1 H1 [= <- _]. exact H1. }
  intros _. apply keeps_bind; [apply run_turns_keeps|]. intros []; solve_keeps.
Qed.

(** C38: a run that requires confirmation executes no tool the mentor did not agree to:
    every execution in its log directly follows the question for that tool, which
    was answered with yes (not with no, not by a closed channel or a cancellation),
    and the calls made to the executor are exactly the executions in the log. *)
Theorem only_confirmed_tools_run s s' o :
  require_confirmation (config (run s)) = true →
  events (run s) = [] → executed s = [] → run_agentic engine out s = (s', o) →
  all_confirmed (events (run s')) ∧ map call_name (executed s') = executions (events (run s')).
Proof.
  intros Hr He Hx Hm. apply run_agentic_keeps in Hm as [H1 H2].
  - split; [by apply H2|done].
  - split; [by rewrite He, Hx|]. intros _ i t tool result Hi. by rewrite He in Hi.
Qed.

(** ** How a run ends *)

Definition final (st : RunStatus) (e : AgenticEvent) r : Prop :=
  run_status r = st ∧ last (events r) = Some e ∧ is_Some (completed_at r).

Definition is_silence {A} (w : Waited A) : bool :=
  match w with Silence => true | _ => false end.

(** The run waits for an answer that never comes: the question is its last event. *)
Definition waiting (id : string) r : Prop :=
  (run_status r = WaitingForConfirmation ∧
   confirmation out (length (events r)) = Silence ∧
   ∃ tool params, last (events r) = Some (ToolConfirmation id tool params)) ∨
  (run_status r = WaitingForInput ∧
   mentor_answer out (length (events r)) = Silence ∧
   ∃ question, last (events r) = Some (MentorAsk id question)).

(** What a part of the run [id] does: it makes at most [k] completions, the log only
    grows, and when it ends the run, the run is final; when it waits, for the
    outside. *)
Definition part (id : string) (k : nat) s s' (o : result Flow string) : Prop :=
  completions s' ≤ completions s + k ∧
  events (run s) `prefix_of` events (run s') ∧
  match o with
  | Ok Return => final Cancelled (RunCancelled id) (run s')
  | Ok Wait => waiting id (run s')
  | Ok _ => True
  | Err e => final Failed (RunFailed id e) (run s')
  end.

(** The steps that neither complete nor end the run. *)
Definition quiet {A} (m : Run A) : Prop :=
  ∀ s s' o, m s = (s', o) →
    completions s' = completions s ∧ events (run s) `prefix_of` events (run s') ∧ is_ok o = true.

Lemma quiet_ret {A} (a : A) : quiet (mret a).
Proof. by intros s s' o [= <- <-]. Qed.
Lemma quiet_get : quiet get_state.
Proof. by intros s s' o [= <- <-]. Qed.
Lemma quiet_say m : quiet (say m).
Proof. by intros s s' o [= <- <-]. Qed.

Lemma quiet_update f : (∀ r, events r `prefix_of` events (f r)) → quiet (update f).
Proof. intros Hf s s' o [= <- <-]. by split_and!. Qed.

Lemma quiet_bind {A B} (m : Run A) (k : A → Run B) :
  quiet m → (∀ a, quiet (k a)) → quiet (m ≫= k).
Proof.
  intros Hm Hk s s' o [(s1 & a & H1 & H2)|(e & H1 & _)]%M_bind_inv.
  - apply Hm in H1 as (? & ? & _). apply Hk in H2 as (? & ? & ?).
    split_and!; [congruence|by etransitivity|done].
  - by apply Hm in H1 as (_ & _ & ?).
Qed.

(** [m] does a part of the run. *)
Definition does (id : string) (k : nat) (m : Run Flow) : Prop :=
  ∀ s s' o, m s = (s', o) → part id k s s' o.

Lemma does_after {A} id k (m : Run A) (f : A → Run Flow) :
  quiet m → (∀ a, does id k (f a)) → does id k (m ≫= f).
Proof.
  intros Hm Hk s s' o [(s1 & a & H1 & H2)|(e & H1 & _)]%M_bind_inv;
    apply Hm in H1 as (Hc & He & Ho); [|done].
  apply Hk in H2 as (Hc2 & He2 & Ho2). split_and!; [lia|by etransitivity|done].
Qed.

Lemma does_then id k1 k2 (m : Run Flow) (f : Flow → Run Flow) :
  does id k1 m → does id k2 (f Next) → (∀ x, x ≠ Next → f x = mret x) → does id (k1 + k2) (m ≫= f).
Proof.
  intros Hm Hk Hf s s' o [(s1 & x & H1 & H2)|(e & H1 & ->)]%M_bind_inv;
    apply Hm in H1 as (Hc & He & Ho); [|split_and!; [lia|done..]].
  destruct x; [|rewrite Hf in H2 by done; injection H2 as <- <-; split_and!; [lia|done..]..].
  - apply Hk in H2 as (Hc2 & He2 & Ho2). split_and!; [lia|by etransitivity|done].
Qed.

Lemma does_ret id k f : f ≠ Return → f ≠ Wait → does id k (mret f).
Proof. intros Hf Hf' s s' o [= <- <-]. split_and!; [lia|done|by destruct f]. Qed.

Lemma does_cancelled id k : does id k (cancelled out id).
Proof.
  intros s s' o [= <- <-]. split_and!; [simpl; lia|by apply prefix_app_r|].
  split_and!; [done|simpl; by rewrite last_snoc|by eexists].
Qed.

(** A question, and what comes of it. *)
Lemma does_ask {A} id k (ask : AgenticRun → AgenticRun) (answers : nat → Waited A)
    (f : Waited A → Run Flow) :
  (∀ r, events r `prefix_of` events (ask r)) →
  (∀ r, answers (length (events (ask r))) = Silence → waiting id (ask r)) →
  f Silence = mret Wait → (∀ a, a ≠ Silence → does id k (f a)) →
  does id k (update ask ;; s ← get_state; f (answers (length (events (run s))))).
Proof.
  intros He Hw Hs Hf s s' o Hm.
  set (s1 := mkRunState (ask (run s)) (conversation s) (world s) (completions s) (executed s)).
  change (f (answers (length (events (ask (run s))))) s1 = (s', o)) in Hm.
  destruct (decide (is_silence (answers (length (events (ask (run s))))) = true)) as [Hq|Hq].
  - destruct (answers _) eqn:Ha; try done. rewrite Hs in Hm. injection Hm as <- <-.
    split_and!; [simpl; lia|apply He|by apply Hw].
  - apply Hf in Hm as (Hc & Hp & Ho); [|by intros Ha; rewrite Ha in Hq].
    split_and!; [done|etransitivity; [apply He|exact Hp]|done].
Qed.

Ltac solve_quiet :=
  lazymatch goal with
  | |- quiet (mbind _ _) => apply quiet_bind; [solve_quiet|intros ?; solve_quiet]
  | |- quiet (mret _) => apply quiet_ret
  | |- quiet get_state => apply quiet_get
  | |- quiet (say _) => apply quiet_say
  | |- quiet (update _) => apply quiet_update; intros ?; first [done | by apply prefix_app_r]
  end.

Ltac solve_does :=
  lazymatch goal with
  | |- does _ _ (mret _) => by apply does_ret
  | |- does _ _ (cancelled _ _) => apply does_cancelled
  | |- does _ _ (if ?b then _ else _) => destruct b; solve_does
  | |- does _ _ (match ?x with _ => _ end) => destruct x; solve_does
  | |- does _ _ (mbind _ _) => apply does_after; [solve_quiet|intros ?; solve_does]
  | |- _ => auto
  end.

Lemma quiet_execute tc : quiet (execute engine tc).
Proof.
  intros s s' o. unfold execute. destruct (execute_call engine tc (world s)). by intros [= <- <-].
Qed.

Lemma perform_does id k tc : does id k (perform engine id tc).
Proof.
  unfold perform. apply does_after; [apply quiet_execute|]. intros result. solve_does.
Qed.

Lemma handle_call_does id k c tc : does id k (handle_call engine out id c tc).
Proof.
  pose proof (perform_does id k tc). unfold handle_call.
  destruct (negb _); [done|].
  apply (does_ask id k _ (confirmation out) (λ w, match w with
    | TokenCancelled => cancelled out id
    | Silence => mret Wait
    | Received (Some true) => update (set_run_status Running) ;; perform engine id tc
    | Received _ =>
        say (new_message "user" ("Tool '" +:+ call_name tc +:+ "' was denied by the mentor.")) ;;
        update (set_run_status Running) ;; mret Next
    end)); [intros r; by apply prefix_app_r| |done|].
  - intros r Hq. left. split_and!; [done|done|]. do 2 eexists. simpl. by rewrite last_snoc.
  - intros w Hw. destruct w as [[[]|]| |]; try done; solve_does.
Qed.

Lemma handle_calls_does id c calls : does id 0 (handle_calls engine out id c calls).
Proof.
  induction calls as [|tc calls IH]; [by apply does_ret|].
  cbn [handle_calls]. apply (does_then id 0 0); [apply handle_call_does|done|by intros []].
Qed.

Lemma handle_text_does id c turn text : does id 0 (handle_text (W:=W) out id c turn text).
Proof.
  unfold handle_text. cbv zeta. destruct (asks_mentor _); [|solve_does].
  apply (does_ask id 0 _ (mentor_answer out) (λ w, match w with
    | TokenCancelled => cancelled out id
    | Silence => mret Wait
    | Received (Some answer) =>
        say (new_message "user" answer) ;; update (set_run_status Running) ;; mret Next
    | Received None => mret Leave
    end)); [intros r; by apply prefix_app_r| |done|].
  - intros r Hq. right. split_and!; [done|done|]. eexists. simpl. by rewrite last_snoc.
  - intros w Hw. destruct w as [[|]| |]; try done; solve_does.
Qed.

Lemma one_turn_does id c turn : does id 1 (one_turn engine out id c turn).
Proof.
  unfold one_turn. apply does_after; [solve_quiet|]. intros s0.
  destruct (is_cancelled _ _); [solve_does|].
  apply does_after; [solve_quiet|]. intros _.
  intros s s' o [(s1 & r & H1 & H2)|(e & H1 & _)]%M_bind_inv.
  2: { by destruct (ask_provider engine s). }
  assert (completions s1 = S (completions s) ∧ run s1 = run s) as [Hc Hr].
  { unfold ask_provider in H1. destruct (complete _ _ _). by injection H1 as <- <-. }
  assert (part id 0 s1 s' o) as (Hc2 & He & Ho).
  2: { split_and!; [lia|by rewrite <- Hr|done]. }
  destruct r as [response|e].
  - revert s1 s' o H2 Hc Hr H1. intros s1 s' o H2 _ _ _. revert s1 s' o H2.
    change (does id 0 (update (push_event (LlmResponse id (reply response)
                         (unwrap_or (reply_tool_calls response) []))) ;;
      say (new_message "assistant" (reply response)) ;;
      flow ← (match reply_tool_calls response with
              | Some calls => handle_calls engine out id c calls
              | None => handle_text out id c turn (reply response)
              end);
      match flow with
      | Next => update (push_event (TurnCompleted id turn)) ;; mret Next
      | _ => mret flow
      end)).
    apply does_after; [solve_quiet|]. intros _. apply does_after; [solve_quiet|]. intros _.
    apply (does_then id 0 0); [|solve_does|by intros []].
    destruct (reply_tool_calls response); [apply handle_calls_does|apply handle_text_does].
  - injection H2 as <- <-. split_and!; [simpl; lia|by apply prefix_app_r|].
    split_and!; [done|simpl; by rewrite last_snoc|by eexists].
Qed.

Lemma run_turns_does id c n turn : does id n (run_turns engine out id c n turn).
Proof.
  revert turn. induction n as [|n IH]; intros turn; [by apply does_ret|].
  cbn [run_turns]. apply (does_then id 1 n); [apply one_turn_does|apply IH|by intros []].
Qed.

(** C40: how a run ends, when the model and the tools answer.  After at most [max_turns]
    completions of the model it is in a final state that the last event of its log
    announces and that carries the time of its end: completed, with the summary and
    the conversation stored; failed, with the error of the model, which is the answer
    of the call; or cancelled.  There is one exception: a question to the mentor, for
    a confirmation or for input, has no time limit, so a run whose question is
    neither answered nor cancelled keeps waiting; that question is then the last event
    and the status says which kind of answer is awaited. *)
Theorem run_ends s :
  let '(s', o) := run_agentic engine out s in
  completions s' ≤ completions s + max_turns (config (run s)) ∧
  (events (run s) ++ [RunStarted (run_id (run s)) (goal (config (run s)))]) `prefix_of` events (run s') ∧
  ((o = Ok Ended ∧ ∃ summary, final Completed (RunCompleted (run_id (run s)) summary) (run s') ∧
      run_messages (run s') = conversation s' ∧ summary = last_content (conversation s')) ∨
   (o = Ok Ended ∧ final Cancelled (RunCancelled (run_id (run s))) (run s')) ∨
   (∃ e, o = Err e ∧ final Failed (RunFailed (run_id (run s)) e) (run s')) ∨
   (o = Ok StillWaiting ∧ waiting (run_id (run s)) (run s'))).
Proof.
  destruct (run_agentic engine out s) as [s' o] eqn:E.
  set (start := λ s0, mkRunState (push_event (RunStarted (run_id (run s)) (goal (config (run s))))
    (set_run_status Running (run s0))) (first_messages (config (run s))) (world s0) (completions s0)
    (executed s0)).
  change ((flow ← run_turns engine out (run_id (run s)) (config (run s)) (max_turns (config (run s))) 1;
      match flow with
      | Return => mret Ended
      | Wait => mret StillWaiting
      | _ => s2 ← get_state;
             update (set_messages (conversation s2)) ;;
             update (finish_run out Completed
               (RunCompleted (run_id (run s)) (last_content (conversation s2)))) ;;
             mret Ended
      end : Run Ending) (start s) = (s', o)) in E.
  apply M_bind_inv in E as [(s2 & flow & H1 & H2)|(e & H1 & ->)];
    apply run_turns_does in H1 as (Hc & He & Ho); cbn in Hc, He, Ho.
  2: { split; [done|]. split; [done|]. right. right. left. by exists e. }
  assert (flow = Return ∧ s' = s2 ∧ o = Ok Ended ∨ flow = Wait ∧ s' = s2 ∧ o = Ok StillWaiting ∨
    s' = mkRunState (finish_run out Completed (RunCompleted (run_id (run s)) (last_content (conversation s2)))
           (set_messages (conversation s2) (run s2))) (conversation s2) (world s2) (completions s2)
           (executed s2) ∧ o = Ok Ended) as [(-> & -> & ->)|[(-> & -> & ->)|(-> & ->)]].
  { destruct flow; cbn in H2; injection H2 as <- <-; auto. }
  - split; [done|]. split; [done|]. right. by left.
  - split; [done|]. split; [done|]. right. right. by right.
  - split; [done|]. split; [simpl; by apply prefix_app_r|]. left. split; [done|].
    eexists. split; [|by split]. split_and!; [done|simpl; by rewrite last_snoc|by eexists].
Qed.
End spec.

(** ** Witnesses *)

Module AgenticDemo.

(** A model that asks for a tool, then says it is done. *)
Definition complete_ (_ : CompletionRequest Value) (w : nat) : nat * result CompletionResponse string :=
  (S w, Ok (if w =? 0 then mkResponse "" (Some [mkToolCall "1" "send" "{}"; mkToolCall "2" "wipe" "{}"])
            else mkResponse "Task complete." None)).
Definition engine : AgenticEngine nat :=
  mkEngine (mkProvider complete_ (default_stream complete_)) [] (λ _ w, (w, Ok "done")).

(** The mentor agrees to the first question and denies the second. *)
Definition outside (cancel : nat → bool) : Outside :=
  mkOutside cancel (λ i, Received (Some (i =? 4))) (λ _, Received None) pretty.

Definition start : RunState nat :=
  mkRunState (new_run "t" (mkRunConfig "mail" 5 true None) "0") [] 0 0 [].
Definition finish : RunState nat := (run_agentic engine (outside (λ _, false)) start).1.

End AgenticDemo.

Lemma only_confirmed_tools_run_witness :
  all_confirmed (AgenticDemo.outside (λ _, false)) (events (run AgenticDemo.finish)) ∧
  map call_name (executed AgenticDemo.finish) = ["send"].
Proof.
  destruct (run_agentic AgenticDemo.engine (AgenticDemo.outside (λ _, false)) AgenticDemo.start)
    as [s o] eqn:E.
  assert (AgenticDemo.finish = s) as -> by (unfold AgenticDemo.finish; by rewrite E).
  pose proof E as E2. vm_compute in E2. injection E2 as Es _.
  split; [|by rewrite <- Es].
  by eapply (only_confirmed_tools_run AgenticDemo.engine (AgenticDemo.outside (λ _, false))
    AgenticDemo.start); [..|exact E].
Defined.

(** ** What the source says otherwise *)

(** The comment on a closed channel of the mentor says that the run aborts: it is
    reported as completed, its summary the question nobody answered. *)
Definition asking : AgenticEngine nat :=
  mkEngine (mkProvider (λ _ w, (S w, Ok (mkResponse "Please clarify the address." None)))
    (λ _ w, (w, [], Err ""))) [] (λ _ w, (w, Ok "")).

Theorem closed_mentor_channel_completes :
  final Completed (RunCompleted "t" "Please clarify the address.")
    (run (run_agentic asking (AgenticDemo.outside (λ _, false)) AgenticDemo.start).1).
Proof. split; [by vm_compute|]. split; [by vm_compute|]. vm_compute. by eexists. Qed.

(** A run whose model never stops calling tools is reported as completed too, and its
    summary is the result of the last tool. *)
Definition restless : AgenticEngine nat :=
  mkEngine (mkProvider (λ _ w, (S w, Ok (mkResponse "" (Some [mkToolCall "1" "send" "{}"]))))
    (λ _ w, (w, [], Err ""))) [] (λ _ w, (w, Ok "queued")).

Theorem exhausted_run_completes :
  final Completed (RunCompleted "t" "Tool 'send' result: queued")
    (run (run_agentic restless (AgenticDemo.outside (λ _, false))
       (mkRunState (new_run "t" (mkRunConfig "mail" 3 false None) "0") [] 0 0 [])).1).
Proof. split; [by vm_compute|]. split; [by vm_compute|]. vm_compute. by eexists. Qed.
