(* ===== verification/UrlSecurity.v ===== *)
(** * Validation of outgoing URLs
    [UrlSecurityPolicy], [validate_url] and [is_private_ip]
    ([crates/abigail-capabilities/src/sensory/url_security.rs]).  The [url] crate
    is a parameter: parsing gives the scheme, the host as text and the host as
    one of its three kinds.  An IPv4 address is its four octets, an IPv6 address
    its eight 16-bit segments. *)

From S2P Require Import Prelude RustStr.
From Stdlib Require Import ZArith Lia Ascii.
From stdpp Require Import base list strings pretty.

Open Scope rust_scope.

Inductive Host : Type :=
| Domain (name : string)
| Ipv4 (a b c d : Z)
| Ipv6 (segments : list Z).

(** What the code reads of a [url::Url]. *)
Record Url : Type := mkUrl {
  url_text : string;
  scheme : string;
  host_str : option string;
  host : option Host;
  last_segment : option string;
}.

Definition DEFAULT_BLOCKED_HOSTS : list string :=
  ["metadata.google.internal"; "metadata.google.com"; "169.254.169.254"].

Record UrlSecurityPolicy : Type := mkUrlPolicy {
  allowed_schemes : list string;
  blocked_hosts : list string;
  allowed_domains : list string;
  block_private_ips : bool;
}.

Definition default_url_policy : UrlSecurityPolicy :=
  mkUrlPolicy ["http"; "https"] DEFAULT_BLOCKED_HOSTS [] true.

Definition in_range (lo hi x : Z) : bool := (lo <=? x)%Z && (x <=? hi)%Z.

(** The IPv4 arm, test by test. *)
Definition is_private_v4 (a b c d : Z) : bool :=
  if (a =? 127)%Z then true
  else if (a =? 10)%Z then true
  else if (a =? 172)%Z && in_range 16 31 b then true
  else if (a =? 192)%Z && (b =? 168)%Z then true
  else if (a =? 169)%Z && (b =? 254)%Z then true
  else (a =? 0)%Z.

(** The first 16-bit segment. *)
Definition segment0 (segments : list Z) : Z := default 0%Z (head segments).

Definition is_private_v6 (segments : list Z) : bool :=
  bool_decide (segments = [0; 0; 0; 0; 0; 0; 0; 1])%Z
  || bool_decide (segments = [0; 0; 0; 0; 0; 0; 0; 0])%Z
  || (Z.land (segment0 segments) 0xfe00 =? 0xfc00)%Z
  || (Z.land (segment0 segments) 0xffc0 =? 0xfe80)%Z.

Definition is_private_ip (addr : Host) : bool :=
  match addr with
  | Ipv4 a b c d => is_private_v4 a b c d
  | Ipv6 segments => is_private_v6 segments
  | Domain _ => false
  end.

Definition ipv4_to_string (a b c d : Z) : string :=
  pretty a +:+ "." +:+ pretty b +:+ "." +:+ pretty c +:+ "." +:+ pretty d.

(** [format!("{:?}", list)] for texts without characters to escape. *)
Definition debug_list (l : list string) : string :=
  "[" +:+ RustStr.join ", " (map (λ s, String "034" s +:+ String "034" "") l) +:+ "]".

Definition is_local_domain (d : string) : bool :=
  bool_decide (d = "localhost") || bool_decide (d = "0.0.0.0")
  || ends_with d ".local" || ends_with d ".internal".

(** The domain itself or a subdomain, case aside ([host_lower] is lower case). *)
Definition domain_allowed (host_lower d : string) : bool :=
  bool_decide (host_lower = to_lowercase d) || ends_with host_lower ("." +:+ to_lowercase d).

Section validate.
(** [Url::parse] and the text form of an IPv6 address. *)
Context (parse : string → result Url string) (ipv6_to_string : list Z → string).

Definition private_error (ip : string) : string :=
  "Private/internal IP '" +:+ ip +:+ "' is blocked (SSRF protection)".

(** The last check, when private addresses are blocked. *)
Definition check_private (url : Url) : result unit string :=
  match host url with
  | Some (Ipv4 a b c d) =>
      if is_private_ip (Ipv4 a b c d) then Err (private_error (ipv4_to_string a b c d)) else Ok tt
  | Some (Ipv6 segments) =>
      if is_private_ip (Ipv6 segments) then Err (private_error (ipv6_to_string segments)) else Ok tt
  | Some (Domain d) =>
      if is_local_domain (to_lowercase d)
      then Err ("Local/internal domain '" +:+ d +:+ "' is blocked (SSRF protection)") else Ok tt
  | None => Err "URL must have a host"
  end.

Definition validate_url (url_str : string) (policy : UrlSecurityPolicy) : result Url string :=
  let? url := map_err (λ e, "Invalid URL: " +:+ e) (parse url_str) in
  if negb (existsb (λ s, bool_decide (s = scheme url)) (allowed_schemes policy))
  then Err ("Scheme '" +:+ scheme url +:+ "' not allowed, permitted: " +:+
            debug_list (allowed_schemes policy))
  else
    let? h := ok_or (host_str url) "URL must have a host" in
    let host_lower := to_lowercase h in
    if existsb (λ blocked, bool_decide (host_lower = to_lowercase blocked)) (blocked_hosts policy)
    then Err ("Host '" +:+ h +:+ "' is blocked (SSRF protection)")
    else if negb (bool_decide (allowed_domains policy = []))
            && negb (existsb (domain_allowed host_lower) (allowed_domains policy))
    then Err ("Host '" +:+ h +:+ "' is not in allowed domains list")
    else
      let? _ := (if block_private_ips policy then check_private url else Ok tt) in
      Ok url.
End validate.

(** ** Redirects

    The clients of the program are built by [reqwest] with a policy that follows a
    limited number of redirects.  One exchange with a server, the request a redirect
    leads to and the error at the limit are the library's. *)

Section redirects.
Context {Request Response W : Type}.
Context (exchange : Request → W → W * result Response string).
Context (next_request : Request → Response → option Request) (too_many : Request → string).

Fixpoint send_following (budget : nat) (r : Request) (w : W) : W * result Response string :=
  match exchange r w with
  | (w, Err e) => (w, Err e)
  | (w, Ok a) =>
      match next_request r a with
      | None => (w, Ok a)
      | Some next =>
          match budget with
          | 0 => (w, Err (too_many next))
          | S budget => send_following budget next w
          end
      end
  end.
End redirects.

(** An exchange that also keeps a log of the requests. *)
Definition logged {Request Response W : Type} (exchange : Request → W → W * result Response string)
    (r : Request) (s : W * list Request) : W * list Request * result Response string :=
  let '(w, o) := exchange r s.1 in ((w, s.2 ++ [r]), o).

(** Every request but the first is a redirect of the one before it. *)
Definition redirected {Request Response : Type} (next_request : Request → Response → option Request)
    (l : list Request) : Prop :=
  ∀ i a b, l !! i = Some a → l !! S i = Some b → ∃ answer, next_request a answer = Some b.

Lemma redirected_cons {Request Response : Type} (next_request : Request → Response → option Request) a answer b l :
  next_request a answer = Some b → redirected next_request (b :: l) → redirected next_request (a :: b :: l).
Proof. intros Ha Hl [|i] x y Hx Hy; [simpl in *; simplify_eq; eauto|by apply (Hl i)]. Qed.

Lemma redirected_one {Request Response : Type} (next_request : Request → Response → option Request) a :
  redirected next_request [a].
Proof. by intros i x y _ [=]. Qed.

(** What is sent: the request, then at most [budget] redirects; [log] is what the outside
    has seen of the requests. *)
Lemma send_following_log {Request Response W : Type} (exchange : Request → W → W * result Response string)
    (next_request : Request → Response → option Request) too_many (log : W → list Request) budget r w w' o :
  (∀ r w, log (exchange r w).1 = log w ++ [r]) →
  send_following exchange next_request too_many budget r w = (w', o) →
  ∃ hops, log w' = log w ++ r :: hops ∧ length hops ≤ budget ∧ redirected next_request (r :: hops).
Proof.
  intros Hx. revert r w. induction budget as [|budget IH]; intros r w; simpl; specialize (Hx r w) as Hr;
    destruct (exchange r w) as [w2 [a|e]]; simpl in Hr;
    try (destruct (next_request r a) as [b|] eqn:Hb);
    try (intros [= <- <-]; exists []; split; [done|]; split; [simpl; lia|apply redirected_one]).
  intros (hops & Hs & Hl & Hn)%IH. exists (b :: hops). split; [by rewrite Hs, Hr, <- app_assoc|].
  split; [simpl; lia|]. by eapply redirected_cons.
Qed.

Lemma logged_log {Request Response W : Type} (exchange : Request → W → W * result Response string) r s :
  (logged exchange r s).1.2 = s.2 ++ [r].
Proof. unfold logged. by destruct (exchange r s.1). Qed.
