(* ===== verification/HttpClient.v ===== *)
(** * The HTTP client capability
    [HttpClientCapability]
    ([crates/abigail-capabilities/src/sensory/http_client.rs]): the named
    sessions, the validation of what is requested and the names of downloaded
    files.  [reqwest] is a parameter: one exchange with a server and its rules for
    redirects, which the clients follow up to the limit of their policy.  What leaves
    the program is the log of the requests of each call, redirects included.  The JSON arguments of a call are read
    through [Args]; the JSON text of an answer is left as its fields. *)

From S2P Require Import Prelude RustStr Paths UrlSecurity.
From Stdlib Require Import ZArith Lia Ascii.
From stdpp Require Import base list strings gmap pretty.

Open Scope rust_scope.

Definition MAX_RESPONSE_BYTES : N := (2 * 1048576)%N.
Definition MAX_SESSIONS : nat := 20.
(** [Policy::limited(10)] *)
Definition MAX_REDIRECTS : nat := 10.

(** [args.get(k).and_then(|v| v.as_str())], and the string-valued headers. *)
Record Args : Type := mkArgs {
  arg : string → option string;
  arg_headers : list (string * string);
}.

(** A session: its base URL ([None] without one). *)
Notation Session := (option string).

Record Request : Type := mkRequest {
  method : string;
  url : string;
  headers : list (string * string);
  body : option string;
}.

Record Response : Type := mkResponse {
  status : Z;
  canonical_reason : option string;
  response_headers : gmap string string;
  bytes : result string string;
}.

(** The answer of a call: a message, or the JSON object. *)
Inductive Answer : Type :=
| Text (s : string)
| Responded (formatted : string) (status : Z) (status_text body : string) (body_truncated : bool)
    (content_type : string) (headers : gmap string string)
| Downloaded (dest : path) (size : nat) (filename : string)
| Panicked.

(** [sent]: for each call that sends, the request and the redirects it followed. *)
Record HttpClient : Type := mkClient {
  sessions : gmap string Session;
  security_policy : UrlSecurityPolicy;
  download_dir : path;
  sent : list (list Request);
  written : list (path * string);
}.

(** ** File names *)

Section client.
Context (parse : string → result Url string) (ipv6_to_string : list Z → string).
(** [char::is_alphanumeric] outside ASCII; upper case of a method name. *)
Context (unicode_alphanumeric : string → bool) (to_uppercase : string → string).
(** [String::from_utf8_lossy]. *)
Context (from_utf8_lossy : string → string).

(** The request a redirect leads to, and the error when there are too many. *)
Context (next_request : Request → Response → option Request) (too_many : Request → string).

Notation validate_url := (validate_url parse ipv6_to_string).

Definition is_alphanumeric (ch : string) : bool :=
  match ch with
  | String c EmptyString => is_ascii_alnum c
  | _ => unicode_alphanumeric ch
  end.

Definition sanitize_char (ch : string) : string :=
  if is_alphanumeric ch || bool_decide (ch = ".") || bool_decide (ch = "-") || bool_decide (ch = "_")
  then ch else "_".

Definition sanitize (name : string) : string := RustStr.join "" (map sanitize_char (chars name)).

Definition download_filename (requested : option string) (u : Url) : string :=
  match requested with
  | Some name => let s := sanitize name in if str_is_empty s then "download" else s
  | None =>
      match last_segment u with
      | Some s => if str_is_empty s then "download" else s
      | None => "download"
      end
  end.

(** ** Answers *)

(** [execute_request]: what is made of the outcome of [request.send()]. *)
Definition execute_request (outcome : result Response string) : Answer :=
  match outcome with
  | Err e => Text ("Request failed: " +:+ e)
  | Ok r =>
      let status_text := unwrap_or (canonical_reason r) "" in
      match bytes r with
      | Err e => Text ("Failed to read response body: " +:+ e)
      | Ok data =>
          let truncated := (MAX_RESPONSE_BYTES <? N.of_nat (String.length data))%N in
          let body :=
            from_utf8_lossy (if truncated then str_take (N.to_nat MAX_RESPONSE_BYTES) data else data) in
          let answer formatted :=
            Responded formatted (status r) status_text body truncated
              (unwrap_or (response_headers r !! "content-type") "") (response_headers r) in
          if in_range 200 299 (status r) then
            if bool_decide (2000 < String.length body) then
              match slice_to 2000 body with
              | Some shown =>
                  answer (pretty (status r) +:+ " (" +:+ status_text +:+ ")" +:+ nl +:+ shown +:+
                    "..." +:+ nl +:+ "[truncated at 2000 chars, full body in 'body' field]")
              | None => Panicked
              end
            else answer body
          else answer ("HTTP " +:+ pretty (status r) +:+ " " +:+ status_text +:+ nl +:+ body)
      end
  end.

(** ** Handlers *)

Definition http_methods : list string :=
  ["GET"; "POST"; "PUT"; "DELETE"; "PATCH"; "HEAD"; "OPTIONS"].

(** The URL of a request, resolved against the session's base. *)
Definition full_url (c : HttpClient) (session : option string) (url_str : string) : result string string :=
  match session with
  | None => Ok url_str
  | Some name =>
      match sessions c !! name with
      | None => Err ("Session '" +:+ name +:+ "' not found. Create it first with http_session_create.")
      | Some None => Ok url_str
      | Some (Some base) =>
          if negb (starts_with url_str "http://") && negb (starts_with url_str "https://")
          then Ok (trim_end_matches (λ ch, bool_decide (ch = "/"%char)) base +:+ url_str)
          else Ok url_str
      end
  end.

Definition log_call (hops : list Request) (c : HttpClient) : HttpClient :=
  mkClient (sessions c) (security_policy c) (download_dir c) (sent c ++ [hops]) (written c).

(** [request.send()]: the requests made and the outcome.  [exchange] is what the server
    answers to a request, after the earlier ones of the same call. *)
Definition send (exchange : list Request → Request → result Response string) (r : Request)
  : list Request * result Response string :=
  send_following (λ r log, (log ++ [r], exchange log r)) next_request too_many MAX_REDIRECTS r [].

Definition handle_http_request (exchange : list Request → Request → result Response string) (args : Args)
    (c : HttpClient) : HttpClient * Answer :=
  match to_uppercase <$> arg args "method", arg args "url" with
  | None, _ => (c, Text "Missing required parameter: method")
  | Some _, None => (c, Text "Missing required parameter: url")
  | Some m, Some url_str =>
      match full_url c (arg args "session") url_str with
      | Err e => (c, Text e)
      | Ok full =>
          match validate_url full (security_policy c) with
          | Err e => (c, Text ("URL rejected: " +:+ e))
          | Ok u =>
              if negb (existsb (λ x, bool_decide (x = m)) http_methods)
              then (c, Text ("Unsupported HTTP method: " +:+ m))
              else
                let r := mkRequest m (url_text u)
                  (arg_headers args ++
                   match arg args "content_type" with Some ct => [("Content-Type", ct)] | None => [] end)
                  (arg args "body") in
                let '(hops, outcome) := send exchange r in
                (log_call hops c, execute_request outcome)
          end
      end
  end.

(** [build] is the error of [Client::builder().build()], if any. *)
Definition handle_session_create (build : option string) (args : Args) (c : HttpClient)
  : HttpClient * Answer :=
  match arg args "name" with
  | None => (c, Text "Missing required parameter: name")
  | Some name =>
      let base_url := arg args "base_url" in
      let rejected :=
        match base_url with
        | Some u => match validate_url u (security_policy c) with Err e => Some e | Ok _ => None end
        | None => None
        end in
      match rejected with
      | Some e => (c, Text ("Base URL rejected: " +:+ e))
      | None =>
          if bool_decide (MAX_SESSIONS ≤ size (sessions c)) && bool_decide (sessions c !! name = None)
          then (c, Text ("Maximum sessions (" +:+ pretty MAX_SESSIONS +:+
                         ") reached. Close a session first."))
          else match build with
          | Some e => (c, Text ("Failed to create session client: " +:+ e))
          | None =>
              (mkClient (<[name := base_url]> (sessions c)) (security_policy c) (download_dir c)
                 (sent c) (written c),
               Text ("Session '" +:+ name +:+ "' created" +:+
                 match base_url with Some u => " with base URL '" +:+ u +:+ "'" | None => "" end))
          end
      end
  end.

Definition handle_session_close (args : Args) (c : HttpClient) : HttpClient * Answer :=
  match arg args "name" with
  | None => (c, Text "Missing required parameter: name")
  | Some name =>
      match sessions c !! name with
      | Some _ =>
          (mkClient (delete name (sessions c)) (security_policy c) (download_dir c) (sent c) (written c),
           Text ("Session '" +:+ name +:+ "' closed"))
      | None => (c, Text ("Session '" +:+ name +:+ "' not found"))
      end
  end.

(** [mkdir] and [disk] are the errors of creating the directory and of the write. *)
Definition handle_download (exchange : list Request → Request → result Response string) (mkdir disk : option string)
    (args : Args) (c : HttpClient) : HttpClient * Answer :=
  match arg args "url" with
  | None => (c, Text "Missing required parameter: url")
  | Some url_str =>
      match validate_url url_str (security_policy c) with
      | Err e => (c, Text ("URL rejected: " +:+ e))
      | Ok u =>
          let filename := download_filename (arg args "filename") u in
          match mkdir with
          | Some e => (c, Text ("Failed to create download directory: " +:+ e))
          | None =>
              let dest := path_join (download_dir c) (components filename) in
              let r := mkRequest "GET" (url_text u) [] None in
              let '(hops, outcome) := send exchange r in
              let c := log_call hops c in
              match outcome with
              | Err e => (c, Text ("Download request failed: " +:+ e))
              | Ok response =>
                  if negb (in_range 200 299 (status response))
                  then (c, Text ("Download failed with HTTP " +:+ pretty (status response)))
                  else match bytes response with
                  | Err e => (c, Text ("Failed to read download body: " +:+ e))
                  | Ok data =>
                      match disk with
                      | Some e => (c, Text ("Failed to write file: " +:+ e))
                      | None =>
                          (mkClient (sessions c) (security_policy c) (download_dir c) (sent c)
                             (written c ++ [(dest, data)]),
                           Downloaded dest (String.length data) filename)
                      end
                  end
              end
          end
      end
  end.

(** What the outside does during a call. *)
Record HttpEnv : Type := mkHttpEnv {
  exchange : list Request → Request → result Response string;
  build_error : option string;
  mkdir_error : option string;
  disk_error : option string;
}.

Definition execute_tool (env : HttpEnv) (tool_name : string) (args : Args) (c : HttpClient)
  : HttpClient * Answer :=
  if decide (tool_name = "http_request") then handle_http_request (exchange env) args c
  else if decide (tool_name = "http_session_create") then handle_session_create (build_error env) args c
  else if decide (tool_name = "http_session_close") then handle_session_close args c
  else if decide (tool_name = "http_download")
  then handle_download (exchange env) (mkdir_error env) (disk_error env) args c
  else (c, Text ("Unknown HTTP tool: " +:+ tool_name)).
End client.
