(* ===== verification/Config.v ===== *)
(** * The configuration of an entity ([crates/abigail-core/src/config.rs])

    The record with its JSON form as serde derives it, the migrations between
    schema versions, the trust policy of MCP servers, and loading and saving over
    the file tree. *)

From S2P Require Import Prelude RustStr Cognitive Router Paths FileTree UrlSecurity SkillPolicy Json.
From Stdlib Require Import ZArith Lia Ascii.
From stdpp Require Import base list strings gmap pretty.

Open Scope rust_scope.

Definition CONFIG_SCHEMA_VERSION : Z := 27.

(** ** Data *)

Inductive CliPermissionMode : Type := AllowListOnly | Interactive | DangerousSkipAll.
Inductive RuntimeMode : Type := InProcess | Daemon.

Record McpServerDefinition : Type := mkMcpServer {
  mcp_id : string;
  mcp_name : string;
  transport : string;
  command_or_url : string;
  env : gmap string string;
}.

Record McpTrustPolicy : Type := mkTrustPolicy {
  allow_list_only : bool;
  allowed_http_hosts : list string;
}.
Definition default_trust_policy : McpTrustPolicy := mkTrustPolicy false [].

Record ProviderCatalogEntry : Type := mkCatalogEntry {
  catalog_provider : string;
  catalog_model_id : string;
  display_name : string;
  lifecycle : option string;
  last_fetched : option string;
}.

Record EmailAccountConfig : Type := mkAccount {
  account_id : string;
  account_address : string;
  account_imap_host : string;
  account_imap_port : Z;
  account_smtp_host : string;
  account_smtp_port : Z;
  auth_method : string;
  account_password : list Z;
  oauth2_provider : option string;
}.

Record EmailConfig : Type := mkEmail {
  address : string;
  imap_host : string;
  imap_port : Z;
  smtp_host : string;
  smtp_port : Z;
  password_encrypted : list Z;
}.

Record TrinityConfig : Type := mkTrinity {
  id_url : option string;
  ego_provider : option string;
  ego_api_key : option string;
}.

Definition default_hive_daemon_url : string := "http://127.0.0.1:43141".
Definition default_entity_daemon_url : string := "http://127.0.0.1:43142".

Record AppConfig : Type := mkAppConfig {
  schema_version : Z;
  data_dir : path;
  models_dir : path;
  docs_dir : path;
  db_path : path;
  openai_api_key : option string;
  email : option EmailConfig;
  birth_complete : bool;
  birth_stage : option string;
  external_pubkey_path : option path;
  local_llm_base_url : option string;
  routing_mode : RoutingMode;
  trinity : option TrinityConfig;
  agent_name : option string;
  birth_timestamp : option string;
  is_hive : bool;
  mcp_servers : list McpServerDefinition;
  mcp_trust_policy : McpTrustPolicy;
  approved_skill_ids : list string;
  trusted_skill_signers : list string;
  sao_endpoint : option string;
  provider_catalog : list ProviderCatalogEntry;
  active_provider_preference : option string;
  ego_model : option string;
  email_accounts : list EmailAccountConfig;
  bundled_ollama : bool;
  bundled_model : option string;
  first_model_pull_complete : bool;
  preloaded_skills_version : Z;
  primary_color : option string;
  avatar_url : option string;
  share_skills_across_identities : bool;
  allow_minor_visual_adaptation : bool;
  allow_avatar_swap : bool;
  memory_disclosure_enabled : bool;
  forge_advanced_mode : bool;
  signed_skill_allowlist : list SignedSkillAllowlistEntry;
  known_recipients_by_identity : gmap string (list string);
  skill_recovery_budget : Z;
  last_provider_change_at : option string;
  cli_permission_mode : CliPermissionMode;
  runtime_mode : RuntimeMode;
  hive_daemon_url : string;
  entity_daemon_url : string;
  iggy_connection : option string;
  theme_id : option string;
  autonomy_profile : AutonomyProfile;
}.

(** ** Reading JSON as serde derives it

    [None] is an error of serde.  A field with a default may be missing; any other
    must be there and well formed. *)

Definition required {A} (key : string) (de : Value → option A) (v : Value) : option A :=
  get key v ≫= de.
Definition defaulted {A} (key : string) (de : Value → option A) (d : A) (v : Value) : option A :=
  match get key v with Some w => de w | None => Some d end.

Definition de_str : Value → option string := as_str.
Definition de_bool : Value → option bool := as_bool.
(** An unsigned integer of that width. *)
Definition de_int (bits : Z) (v : Value) : option Z :=
  match v with Num (PosInt n) => if (0 <=? n)%Z && (n <? 2 ^ bits)%Z then Some n else None | _ => None end.
Definition de_option {A} (de : Value → option A) (v : Value) : option (option A) :=
  match v with Null => Some None | _ => Some <$> de v end.
Definition de_list {A} (de : Value → option A) (v : Value) : option (list A) :=
  match v with Arr l => mapM de l | _ => None end.
Definition de_map {A} (de : Value → option A) (v : Value) : option (gmap string A) :=
  match v with
  | Obj l => list_to_map <$> mapM (λ e, (λ x, (e.1, x)) <$> de e.2) l
  | _ => None
  end.
Definition de_path (v : Value) : option path := components <$> as_str v.

(** A unit variant by one of its names. *)
Fixpoint variant {A} (names : list (string * A)) (s : string) : option A :=
  match names with
  | [] => None
  | (n, a) :: rest => if decide (n = s) then Some a else variant rest s
  end.
Definition de_variant {A} (names : list (string * A)) (v : Value) : option A := as_str v ≫= variant names.

Definition de_mode : Value → option RoutingMode := de_variant
  [("ego_primary", EgoPrimary); ("id_primary", EgoPrimary); ("tier_based", EgoPrimary); ("council", EgoPrimary);
   ("cli_orchestrator", CliOrchestrator)].
Definition de_cli : Value → option CliPermissionMode := de_variant
  [("allow_list_only", AllowListOnly); ("interactive", Interactive); ("dangerous_skip_all", DangerousSkipAll)].
Definition de_runtime : Value → option RuntimeMode := de_variant [("in_process", InProcess); ("daemon", Daemon)].
Definition de_autonomy : Value → option AutonomyProfile := de_variant
  [("strict", Strict); ("balanced", Balanced); ("desktop_operator", DesktopOperator)].

Definition de_mcp (v : Value) : option McpServerDefinition :=
  i ← required "id" de_str v;
  n ← required "name" de_str v;
  t ← defaulted "transport" de_str "http" v;
  u ← required "command_or_url" de_str v;
  e ← defaulted "env" (de_map de_str) ∅ v;
  Some (mkMcpServer i n t u e).

Definition de_trust (v : Value) : option McpTrustPolicy :=
  a ← defaulted "allow_list_only" de_bool false v;
  h ← defaulted "allowed_http_hosts" (de_list de_str) [] v;
  Some (mkTrustPolicy a h).

Definition de_catalog (v : Value) : option ProviderCatalogEntry :=
  p ← required "provider" de_str v;
  m ← required "model_id" de_str v;
  d ← required "display_name" de_str v;
  l ← defaulted "lifecycle" (de_option de_str) None v;
  f ← defaulted "last_fetched" (de_option de_str) None v;
  Some (mkCatalogEntry p m d l f).

Definition de_account (v : Value) : option EmailAccountConfig :=
  i ← required "id" de_str v;
  a ← required "address" de_str v;
  ih ← required "imap_host" de_str v;
  ip ← required "imap_port" (de_int 16) v;
  sh ← required "smtp_host" de_str v;
  sp ← required "smtp_port" (de_int 16) v;
  m ← defaulted "auth_method" de_str "password" v;
  p ← defaulted "password_encrypted" (de_list (de_int 8)) [] v;
  o ← defaulted "oauth2_provider" (de_option de_str) None v;
  Some (mkAccount i a ih ip sh sp m p o).

Definition de_email (v : Value) : option EmailConfig :=
  a ← required "address" de_str v;
  ih ← required "imap_host" de_str v;
  ip ← required "imap_port" (de_int 16) v;
  sh ← required "smtp_host" de_str v;
  sp ← required "smtp_port" (de_int 16) v;
  p ← required "password_encrypted" (de_list (de_int 8)) v;
  Some (mkEmail a ih ip sh sp p).

Definition de_trinity (v : Value) : option TrinityConfig :=
  i ← defaulted "id_url" (de_option de_str) None v;
  p ← defaulted "ego_provider" (de_option de_str) None v;
  k ← defaulted "ego_api_key" (de_option de_str) None v;
  Some (mkTrinity i p k).

Definition de_entry (v : Value) : option SignedSkillAllowlistEntry :=
  i ← required "skill_id" de_str v;
  s ← required "signer" de_str v;
  g ← required "signature" de_str v;
  o ← required "source" de_str v;
  t ← required "added_at" de_str v;
  a ← defaulted "active" de_bool true v;
  Some (mkEntry i s g o t a).

Definition de_config (v : Value) : option AppConfig :=
  schema_version ← defaulted "schema_version" (de_int 32) CONFIG_SCHEMA_VERSION v;
  data_dir ← required "data_dir" (de_path) v;
  models_dir ← required "models_dir" (de_path) v;
  docs_dir ← required "docs_dir" (de_path) v;
  db_path ← required "db_path" (de_path) v;
  openai_api_key ← defaulted "openai_api_key" (de_option de_str) None v;
  email ← defaulted "email" (de_option de_email) None v;
  birth_complete ← required "birth_complete" (de_bool) v;
  birth_stage ← defaulted "birth_stage" (de_option de_str) None v;
  external_pubkey_path ← defaulted "external_pubkey_path" (de_option de_path) None v;
  local_llm_base_url ← defaulted "local_llm_base_url" (de_option de_str) None v;
  routing_mode ← defaulted "routing_mode" (de_mode) EgoPrimary v;
  trinity ← defaulted "trinity" (de_option de_trinity) None v;
  agent_name ← defaulted "agent_name" (de_option de_str) None v;
  birth_timestamp ← defaulted "birth_timestamp" (de_option de_str) None v;
  is_hive ← defaulted "is_hive" (de_bool) false v;
  mcp_servers ← defaulted "mcp_servers" (de_list de_mcp) [] v;
  mcp_trust_policy ← defaulted "mcp_trust_policy" (de_trust) default_trust_policy v;
  approved_skill_ids ← defaulted "approved_skill_ids" (de_list de_str) [] v;
  trusted_skill_signers ← defaulted "trusted_skill_signers" (de_list de_str) [] v;
  sao_endpoint ← defaulted "sao_endpoint" (de_option de_str) None v;
  provider_catalog ← defaulted "provider_catalog" (de_list de_catalog) [] v;
  active_provider_preference ← defaulted "active_provider_preference" (de_option de_str) None v;
  ego_model ← defaulted "ego_model" (de_option de_str) None v;
  email_accounts ← defaulted "email_accounts" (de_list de_account) [] v;
  bundled_ollama ← defaulted "bundled_ollama" (de_bool) true v;
  bundled_model ← defaulted "bundled_model" (de_option de_str) (Some "llama3.2:3b") v;
  first_model_pull_complete ← defaulted "first_model_pull_complete" (de_bool) false v;
  preloaded_skills_version ← defaulted "preloaded_skills_version" (de_int 32) 0%Z v;
  primary_color ← defaulted "primary_color" (de_option de_str) None v;
  avatar_url ← defaulted "avatar_url" (de_option de_str) None v;
  share_skills_across_identities ← defaulted "share_skills_across_identities" (de_bool) false v;
  allow_minor_visual_adaptation ← defaulted "allow_minor_visual_adaptation" (de_bool) true v;
  allow_avatar_swap ← defaulted "allow_avatar_swap" (de_bool) false v;
  memory_disclosure_enabled ← defaulted "memory_disclosure_enabled" (de_bool) true v;
  forge_advanced_mode ← defaulted "forge_advanced_mode" (de_bool) false v;
  signed_skill_allowlist ← defaulted "signed_skill_allowlist" (de_list de_entry) [] v;
  known_recipients_by_identity ← defaulted "known_recipients_by_identity" (de_map (de_list de_str)) ∅ v;
  skill_recovery_budget ← defaulted "skill_recovery_budget" (de_int 8) 3%Z v;
  last_provider_change_at ← defaulted "last_provider_change_at" (de_option de_str) None v;
  cli_permission_mode ← defaulted "cli_permission_mode" (de_cli) AllowListOnly v;
  runtime_mode ← defaulted "runtime_mode" (de_runtime) InProcess v;
  hive_daemon_url ← defaulted "hive_daemon_url" (de_str) default_hive_daemon_url v;
  entity_daemon_url ← defaulted "entity_daemon_url" (de_str) default_entity_daemon_url v;
  iggy_connection ← defaulted "iggy_connection" (de_option de_str) None v;
  theme_id ← defaulted "theme_id" (de_option de_str) None v;
  autonomy_profile ← defaulted "autonomy_profile" (de_autonomy) DesktopOperator v;
  Some (mkAppConfig
    schema_version data_dir models_dir docs_dir db_path openai_api_key email birth_complete birth_stage
    external_pubkey_path local_llm_base_url routing_mode trinity agent_name birth_timestamp is_hive mcp_servers
    mcp_trust_policy approved_skill_ids trusted_skill_signers sao_endpoint provider_catalog
    active_provider_preference ego_model email_accounts bundled_ollama bundled_model first_model_pull_complete
    preloaded_skills_version primary_color avatar_url share_skills_across_identities
    allow_minor_visual_adaptation allow_avatar_swap memory_disclosure_enabled forge_advanced_mode
    signed_skill_allowlist known_recipients_by_identity skill_recovery_budget last_provider_change_at
    cli_permission_mode runtime_mode hive_daemon_url entity_daemon_url iggy_connection theme_id
    autonomy_profile).

(** ** Writing JSON

    The two legacy email fields are not written. *)

Definition ser_int (n : Z) : Value := Num (PosInt n).
Definition ser_option {A} (ser : A → Value) (o : option A) : Value :=
  match o with Some a => ser a | None => Null end.
Definition ser_list {A} (ser : A → Value) (l : list A) : Value := Arr (map ser l).
Definition ser_map {A} (ser : A → Value) (m : gmap string A) : Value :=
  Obj (map (λ e, (e.1, ser e.2)) (map_to_list m)).
Definition ser_path (p : path) : Value := Str (display p).

Definition ser_mode (m : RoutingMode) : Value :=
  Str (match m with EgoPrimary => "ego_primary" | CliOrchestrator => "cli_orchestrator" end).
Definition ser_cli (m : CliPermissionMode) : Value :=
  Str (match m with AllowListOnly => "allow_list_only" | Interactive => "interactive"
       | DangerousSkipAll => "dangerous_skip_all" end).
Definition ser_runtime (m : RuntimeMode) : Value := Str (match m with InProcess => "in_process" | Daemon => "daemon" end).
Definition ser_autonomy (a : AutonomyProfile) : Value :=
  Str (match a with Strict => "strict" | Balanced => "balanced" | DesktopOperator => "desktop_operator" end).

Definition ser_mcp (s : McpServerDefinition) : Value := Obj
  [("id", Str (mcp_id s)); ("name", Str (mcp_name s)); ("transport", Str (transport s));
   ("command_or_url", Str (command_or_url s)); ("env", ser_map Str (env s))].
Definition ser_trust (p : McpTrustPolicy) : Value := Obj
  [("allow_list_only", Bool (allow_list_only p)); ("allowed_http_hosts", ser_list Str (allowed_http_hosts p))].
Definition ser_catalog (e : ProviderCatalogEntry) : Value := Obj
  [("provider", Str (catalog_provider e)); ("model_id", Str (catalog_model_id e));
   ("display_name", Str (display_name e)); ("lifecycle", json_opt (lifecycle e));
   ("last_fetched", json_opt (last_fetched e))].
Definition ser_trinity (t : TrinityConfig) : Value := Obj
  [("id_url", json_opt (id_url t)); ("ego_provider", json_opt (ego_provider t));
   ("ego_api_key", json_opt (ego_api_key t))].
Definition ser_entry (e : SignedSkillAllowlistEntry) : Value := Obj
  [("skill_id", Str (skill_id e)); ("signer", Str (signer e)); ("signature", Str (signature e));
   ("source", Str (source e)); ("added_at", Str (added_at e)); ("active", Bool (active e))].

Definition ser_config (c : AppConfig) : Value := Obj [
  ("schema_version", ser_int (schema_version c)); ("data_dir", ser_path (data_dir c));
  ("models_dir", ser_path (models_dir c)); ("docs_dir", ser_path (docs_dir c));
  ("db_path", ser_path (db_path c)); ("openai_api_key", json_opt (openai_api_key c));
  ("birth_complete", Bool (birth_complete c)); ("birth_stage", json_opt (birth_stage c));
  ("external_pubkey_path", ser_option ser_path (external_pubkey_path c));
  ("local_llm_base_url", json_opt (local_llm_base_url c)); ("routing_mode", ser_mode (routing_mode c));
  ("trinity", ser_option ser_trinity (trinity c)); ("agent_name", json_opt (agent_name c));
  ("birth_timestamp", json_opt (birth_timestamp c)); ("is_hive", Bool (is_hive c));
  ("mcp_servers", ser_list ser_mcp (mcp_servers c)); ("mcp_trust_policy", ser_trust (mcp_trust_policy c));
  ("approved_skill_ids", ser_list Str (approved_skill_ids c));
  ("trusted_skill_signers", ser_list Str (trusted_skill_signers c));
  ("sao_endpoint", json_opt (sao_endpoint c)); ("provider_catalog", ser_list ser_catalog (provider_catalog c));
  ("active_provider_preference", json_opt (active_provider_preference c));
  ("ego_model", json_opt (ego_model c)); ("bundled_ollama", Bool (bundled_ollama c));
  ("bundled_model", json_opt (bundled_model c));
  ("first_model_pull_complete", Bool (first_model_pull_complete c));
  ("preloaded_skills_version", ser_int (preloaded_skills_version c));
  ("primary_color", json_opt (primary_color c)); ("avatar_url", json_opt (avatar_url c));
  ("share_skills_across_identities", Bool (share_skills_across_identities c));
  ("allow_minor_visual_adaptation", Bool (allow_minor_visual_adaptation c));
  ("allow_avatar_swap", Bool (allow_avatar_swap c));
  ("memory_disclosure_enabled", Bool (memory_disclosure_enabled c));
  ("forge_advanced_mode", Bool (forge_advanced_mode c));
  ("signed_skill_allowlist", ser_list ser_entry (signed_skill_allowlist c));
  ("known_recipients_by_identity", ser_map (ser_list Str) (known_recipients_by_identity c));
  ("skill_recovery_budget", ser_int (skill_recovery_budget c));
  ("last_provider_change_at", json_opt (last_provider_change_at c));
  ("cli_permission_mode", ser_cli (cli_permission_mode c)); ("runtime_mode", ser_runtime (runtime_mode c));
  ("hive_daemon_url", Str (hive_daemon_url c)); ("entity_daemon_url", Str (entity_daemon_url c));
  ("iggy_connection", json_opt (iggy_connection c)); ("theme_id", json_opt (theme_id c));
  ("autonomy_profile", ser_autonomy (autonomy_profile c))].

(** [path.join(name)]. *)
Notation "p // n" := (path_join p [Normal n]) (at level 40, left associativity).

(** [AppConfig::default_paths], below the application's directory. *)
Definition default_config (base : path) : AppConfig := mkAppConfig
  CONFIG_SCHEMA_VERSION base (base // "models") (base // "docs") (base // "memory.db") None None false None
  None None EgoPrimary None None None false [] default_trust_policy [] [] None [] None None [] true
  (Some "llama3.2:3b") false 0%Z None None false true false true false [] ∅ 3%Z None AllowListOnly InProcess
  default_hive_daemon_url default_entity_daemon_url None None DesktopOperator.

(** ** Updates *)

Definition with_version (v : Z) (c : AppConfig) : AppConfig := mkAppConfig
  v (data_dir c) (models_dir c) (docs_dir c) (db_path c) (openai_api_key c) (email c) (birth_complete c)
  (birth_stage c) (external_pubkey_path c) (local_llm_base_url c) (routing_mode c) (trinity c) (agent_name c)
  (birth_timestamp c) (is_hive c) (mcp_servers c) (mcp_trust_policy c) (approved_skill_ids c)
  (trusted_skill_signers c) (sao_endpoint c) (provider_catalog c) (active_provider_preference c) (ego_model c)
  (email_accounts c) (bundled_ollama c) (bundled_model c) (first_model_pull_complete c)
  (preloaded_skills_version c) (primary_color c) (avatar_url c) (share_skills_across_identities c)
  (allow_minor_visual_adaptation c) (allow_avatar_swap c) (memory_disclosure_enabled c) (forge_advanced_mode c)
  (signed_skill_allowlist c) (known_recipients_by_identity c) (skill_recovery_budget c)
  (last_provider_change_at c) (cli_permission_mode c) (runtime_mode c) (hive_daemon_url c)
  (entity_daemon_url c) (iggy_connection c) (theme_id c) (autonomy_profile c).

Definition with_legacy_email (e : option EmailConfig) (c : AppConfig) : AppConfig := mkAppConfig
  (schema_version c) (data_dir c) (models_dir c) (docs_dir c) (db_path c) (openai_api_key c) e
  (birth_complete c) (birth_stage c) (external_pubkey_path c) (local_llm_base_url c) (routing_mode c)
  (trinity c) (agent_name c) (birth_timestamp c) (is_hive c) (mcp_servers c) (mcp_trust_policy c)
  (approved_skill_ids c) (trusted_skill_signers c) (sao_endpoint c) (provider_catalog c)
  (active_provider_preference c) (ego_model c) (email_accounts c) (bundled_ollama c) (bundled_model c)
  (first_model_pull_complete c) (preloaded_skills_version c) (primary_color c) (avatar_url c)
  (share_skills_across_identities c) (allow_minor_visual_adaptation c) (allow_avatar_swap c)
  (memory_disclosure_enabled c) (forge_advanced_mode c) (signed_skill_allowlist c)
  (known_recipients_by_identity c) (skill_recovery_budget c) (last_provider_change_at c)
  (cli_permission_mode c) (runtime_mode c) (hive_daemon_url c) (entity_daemon_url c) (iggy_connection c)
  (theme_id c) (autonomy_profile c).

Definition with_email_accounts (l : list EmailAccountConfig) (c : AppConfig) : AppConfig := mkAppConfig
  (schema_version c) (data_dir c) (models_dir c) (docs_dir c) (db_path c) (openai_api_key c) (email c)
  (birth_complete c) (birth_stage c) (external_pubkey_path c) (local_llm_base_url c) (routing_mode c)
  (trinity c) (agent_name c) (birth_timestamp c) (is_hive c) (mcp_servers c) (mcp_trust_policy c)
  (approved_skill_ids c) (trusted_skill_signers c) (sao_endpoint c) (provider_catalog c)
  (active_provider_preference c) (ego_model c) l (bundled_ollama c) (bundled_model c)
  (first_model_pull_complete c) (preloaded_skills_version c) (primary_color c) (avatar_url c)
  (share_skills_across_identities c) (allow_minor_visual_adaptation c) (allow_avatar_swap c)
  (memory_disclosure_enabled c) (forge_advanced_mode c) (signed_skill_allowlist c)
  (known_recipients_by_identity c) (skill_recovery_budget c) (last_provider_change_at c)
  (cli_permission_mode c) (runtime_mode c) (hive_daemon_url c) (entity_daemon_url c) (iggy_connection c)
  (theme_id c) (autonomy_profile c).

Definition with_bundled (o : bool) (m : option string) (c : AppConfig) : AppConfig := mkAppConfig
  (schema_version c) (data_dir c) (models_dir c) (docs_dir c) (db_path c) (openai_api_key c) (email c)
  (birth_complete c) (birth_stage c) (external_pubkey_path c) (local_llm_base_url c) (routing_mode c)
  (trinity c) (agent_name c) (birth_timestamp c) (is_hive c) (mcp_servers c) (mcp_trust_policy c)
  (approved_skill_ids c) (trusted_skill_signers c) (sao_endpoint c) (provider_catalog c)
  (active_provider_preference c) (ego_model c) (email_accounts c) o m (first_model_pull_complete c)
  (preloaded_skills_version c) (primary_color c) (avatar_url c) (share_skills_across_identities c)
  (allow_minor_visual_adaptation c) (allow_avatar_swap c) (memory_disclosure_enabled c) (forge_advanced_mode c)
  (signed_skill_allowlist c) (known_recipients_by_identity c) (skill_recovery_budget c)
  (last_provider_change_at c) (cli_permission_mode c) (runtime_mode c) (hive_daemon_url c)
  (entity_daemon_url c) (iggy_connection c) (theme_id c) (autonomy_profile c).

Definition with_routing_mode (m : RoutingMode) (c : AppConfig) : AppConfig := mkAppConfig
  (schema_version c) (data_dir c) (models_dir c) (docs_dir c) (db_path c) (openai_api_key c) (email c)
  (birth_complete c) (birth_stage c) (external_pubkey_path c) (local_llm_base_url c) m (trinity c)
  (agent_name c) (birth_timestamp c) (is_hive c) (mcp_servers c) (mcp_trust_policy c) (approved_skill_ids c)
  (trusted_skill_signers c) (sao_endpoint c) (provider_catalog c) (active_provider_preference c) (ego_model c)
  (email_accounts c) (bundled_ollama c) (bundled_model c) (first_model_pull_complete c)
  (preloaded_skills_version c) (primary_color c) (avatar_url c) (share_skills_across_identities c)
  (allow_minor_visual_adaptation c) (allow_avatar_swap c) (memory_disclosure_enabled c) (forge_advanced_mode c)
  (signed_skill_allowlist c) (known_recipients_by_identity c) (skill_recovery_budget c)
  (last_provider_change_at c) (cli_permission_mode c) (runtime_mode c) (hive_daemon_url c)
  (entity_daemon_url c) (iggy_connection c) (theme_id c) (autonomy_profile c).

Definition with_birth_stage (s : option string) (c : AppConfig) : AppConfig := mkAppConfig
  (schema_version c) (data_dir c) (models_dir c) (docs_dir c) (db_path c) (openai_api_key c) (email c)
  (birth_complete c) s (external_pubkey_path c) (local_llm_base_url c) (routing_mode c) (trinity c)
  (agent_name c) (birth_timestamp c) (is_hive c) (mcp_servers c) (mcp_trust_policy c) (approved_skill_ids c)
  (trusted_skill_signers c) (sao_endpoint c) (provider_catalog c) (active_provider_preference c) (ego_model c)
  (email_accounts c) (bundled_ollama c) (bundled_model c) (first_model_pull_complete c)
  (preloaded_skills_version c) (primary_color c) (avatar_url c) (share_skills_across_identities c)
  (allow_minor_visual_adaptation c) (allow_avatar_swap c) (memory_disclosure_enabled c) (forge_advanced_mode c)
  (signed_skill_allowlist c) (known_recipients_by_identity c) (skill_recovery_budget c)
  (last_provider_change_at c) (cli_permission_mode c) (runtime_mode c) (hive_daemon_url c)
  (entity_daemon_url c) (iggy_connection c) (theme_id c) (autonomy_profile c).

(** The directories of an entity, and its public key. *)
Definition with_directories (data models docs db : path) (pubkey : option path) (c : AppConfig) : AppConfig := mkAppConfig
  (schema_version c) data models docs db (openai_api_key c) (email c) (birth_complete c) (birth_stage c) pubkey
  (local_llm_base_url c) (routing_mode c) (trinity c) (agent_name c) (birth_timestamp c) (is_hive c)
  (mcp_servers c) (mcp_trust_policy c) (approved_skill_ids c) (trusted_skill_signers c) (sao_endpoint c)
  (provider_catalog c) (active_provider_preference c) (ego_model c) (email_accounts c) (bundled_ollama c)
  (bundled_model c) (first_model_pull_complete c) (preloaded_skills_version c) (primary_color c) (avatar_url c)
  (share_skills_across_identities c) (allow_minor_visual_adaptation c) (allow_avatar_swap c)
  (memory_disclosure_enabled c) (forge_advanced_mode c) (signed_skill_allowlist c)
  (known_recipients_by_identity c) (skill_recovery_budget c) (last_provider_change_at c)
  (cli_permission_mode c) (runtime_mode c) (hive_daemon_url c) (entity_daemon_url c) (iggy_connection c)
  (theme_id c) (autonomy_profile c).

(** ** Migrations *)

Definition legacy_account (e : EmailConfig) : EmailAccountConfig :=
  mkAccount "legacy" (address e) (imap_host e) (imap_port e) (smtp_host e) (smtp_port e) "password"
    (password_encrypted e) None.

Definition migrate_email (c : AppConfig) : AppConfig :=
  match email c, email_accounts c with
  | Some e, [] => with_email_accounts [legacy_account e] c
  | _, _ => c
  end.

Definition migrate_bundled (c : AppConfig) : AppConfig :=
  with_bundled true (if decide (bundled_model c = Some "qwen2.5:0.5b") then Some "llama3.2:3b" else bundled_model c) c.

(** What the step to a version does besides setting the version. *)
Definition migration (version : Z) : AppConfig → AppConfig :=
  if (version =? 8)%Z then migrate_email
  else if (version =? 21)%Z then migrate_bundled
  else if (version =? 23)%Z then with_routing_mode EgoPrimary
  else id.

Definition migrate_step (cm : AppConfig * bool) (version : Z) : AppConfig * bool :=
  let '(c, migrated) := cm in
  if (schema_version c <? version)%Z then (with_version version (migration version c), true) else (c, migrated).

Definition versions : list Z := map Z.of_nat (seq 1 27).

Definition migrate (c : AppConfig) : AppConfig * bool := foldl migrate_step (c, false) versions.

Definition check_interrupted_birth (c : AppConfig) : AppConfig * bool :=
  if bool_decide (is_Some (birth_stage c)) && negb (birth_complete c)
  then (with_birth_stage None c, true) else (c, false).

Definition set_birth_stage (stage : string) (c : AppConfig) : AppConfig := with_birth_stage (Some stage) c.
Definition clear_birth_stage (c : AppConfig) : AppConfig := with_birth_stage None c.

(** ** Files *)

Definition CONFIG_FILE : string := "config.json".
Definition config_path (c : AppConfig) : path := data_dir c // CONFIG_FILE.

(** The application's own directory. *)
Definition trusted_config_path (base : path) : path := base // CONFIG_FILE.

(** [anyhow::Error] of the functions below. *)
Inductive ConfigFault : Type :=
| BadPath (e : PathError)
| NoParent
| Unreadable (e : IoError)
| NotText
| NotJson (e : string)
| BadField
| Unwritable (e : IoError).

Section files.
Context `{JsonText} (to_string_pretty : Value → string).
Context (cwd : real) (denied : Call → path → bool).

Definition effective_external_pubkey_path (t : Tree) (c : AppConfig) : option path :=
  match external_pubkey_path c with
  | Some p => Some p
  | None =>
      let auto_path := data_dir c // "external_pubkey.bin" in
      if path_exists cwd denied t auto_path then Some auto_path else None
  end.

Definition save_to_data_dir (c : AppConfig) (dir : path) : M Tree ConfigFault unit := λ t,
  match trusted_file_path dir CONFIG_FILE with
  | Err e => (t, Err (BadPath e))
  | Ok p =>
      match create_dir_all cwd denied dir t with
      | (t, Err e) => (t, Err (Unwritable e))
      | (t, Ok _) =>
          let '(t, r) := write_bytes_atomic cwd denied p (to_string_pretty (ser_config c)) t in
          (t, map_err Unwritable r)
      end
  end.

Definition load_from_data_dir (dir : path) : M Tree ConfigFault AppConfig := λ t,
  match trusted_file_path dir CONFIG_FILE with
  | Err e => (t, Err (BadPath e))
  | Ok p =>
      match read cwd denied t p with
      | Err e => (t, Err (Unreadable e))
      | Ok content =>
          if negb (utf8_valid content) then (t, Err NotText)
          else match from_str content with
          | Err e => (t, Err (NotJson e))
          | Ok v =>
              match de_config v with
              | None => (t, Err BadField)
              | Some c =>
                  let '(c, migrated) := migrate c in
                  if migrated then (save_to_data_dir c dir ;; mret c) t else (t, Ok c)
              end
          end
      end
  end.

(** [path] must be a [config.json] with a parent. *)
Definition beside {A} (p : path) (k : path → M Tree ConfigFault A) : M Tree ConfigFault A :=
  match ensure_expected_filename p CONFIG_FILE with
  | Err e => fail (BadPath e)
  | Ok _ => match parent p with None => fail NoParent | Some dir => k dir end
  end.

Definition load (p : path) : M Tree ConfigFault AppConfig := beside p load_from_data_dir.
Definition save (c : AppConfig) (p : path) : M Tree ConfigFault unit := beside p (save_to_data_dir c).
End files.

(** ** Trust in MCP servers *)

Definition normal_host (h : string) : string :=
  to_lowercase (trim_end_matches (λ c, bool_decide (c = "."%char)) (trim h)).

Definition normalized_allowed_hosts (p : McpTrustPolicy) : list string :=
  filter (λ h, h ≠ "") (map normal_host (allowed_http_hosts p)).

Definition is_host_allowed (p : McpTrustPolicy) (host : string) : bool :=
  existsb (λ allowed, bool_decide (normal_host host = allowed) || ends_with (normal_host host) ("." +:+ allowed))
    (normalized_allowed_hosts p).

Section mcp.
Context (parse : string → result Url string).

Definition validate_http_server_url (p : McpTrustPolicy) (server_id url : string) : result Url string :=
  let server := "MCP server '" +:+ server_id +:+ "' " in
  let? parsed := map_err (λ e, server +:+ "has invalid URL '" +:+ url +:+ "': " +:+ e) (parse url) in
  if negb (bool_decide (scheme parsed = "http")) && negb (bool_decide (scheme parsed = "https"))
  then Err (server +:+ "is blocked: URL scheme '" +:+ scheme parsed +:+ "' is not allowed for HTTP transport.")
  else
    let? host := ok_or (host_str parsed) (server +:+ "is blocked: URL '" +:+ url +:+ "' does not contain a host.") in
    let refused := server +:+ "is blocked: host '" +:+ host +:+ "' is not in mcp_trust_policy.allowed_http_hosts." in
    let empty := bool_decide (normalized_allowed_hosts p = []) in
    if allow_list_only p then
      if empty then
        Err (server +:+ "is blocked: mcp_trust_policy.allow_list_only=true but allowed_http_hosts is empty.")
      else if negb (is_host_allowed p host) then Err refused else Ok parsed
    else if negb empty && negb (is_host_allowed p host) then Err refused else Ok parsed.
End mcp.
