(* ===== verification/ConfigSpec.v ===== *)
(** * The configuration: correctness
    What is saved is loaded again; what the migrations reach and keep; whom the MCP
    policy trusts. *)

From S2P Require Import Prelude RustStr Cognitive Router Paths FileTree UrlSecurity SkillPolicy Json Config.
From Stdlib Require Import ZArith Lia Ascii.
From stdpp Require Import base list strings gmap pretty.

Open Scope rust_scope.

(** ** Round trip *)

(** A path that is its own text's path. *)
Definition path_ok (p : path) : Prop := components (display p) = p.
Definition fits (bits n : Z) : Prop := (0 ≤ n < 2 ^ bits)%Z.

Record config_ok (c : AppConfig) : Prop := {
  ok_version : fits 32 (schema_version c);
  ok_data : path_ok (data_dir c);
  ok_models : path_ok (models_dir c);
  ok_docs : path_ok (docs_dir c);
  ok_db : path_ok (db_path c);
  ok_pubkey : match external_pubkey_path c with Some p => path_ok p | None => True end;
  ok_preloaded : fits 32 (preloaded_skills_version c);
  ok_budget : fits 8 (skill_recovery_budget c);
}.

Lemma de_int_ser bits n : fits bits n → de_int bits (ser_int n) = Some n.
Proof.
  intros [H1 H2]. unfold de_int, ser_int. apply Z.leb_le in H1 as ->. apply Z.ltb_lt in H2 as ->. done.
Qed.

Lemma de_path_ser p : path_ok p → de_path (ser_path p) = Some p.
Proof. intros Hp. unfold de_path, ser_path. simpl. by rewrite Hp. Qed.

Lemma de_opt_str_ser o : de_option de_str (json_opt o) = Some o.
Proof. by destruct o. Qed.

Lemma de_option_ser {A} (de : Value → option A) ser o :
  (∀ a, o = Some a → de (ser a) = Some a ∧ ser a ≠ Null) → de_option de (ser_option ser o) = Some o.
Proof.
  intros Ha. destruct o as [a|]; [|done]. destruct (Ha a eq_refl) as [Hd Hn]. unfold ser_option, de_option.
  destruct (ser a) eqn:Hs; [done|..]; by rewrite Hd.
Qed.

Lemma mapM_ser {A B} (de : B → option A) (ser : A → B) l : (∀ a, de (ser a) = Some a) → mapM de (map ser l) = Some l.
Proof. intros Hs. induction l as [|a l IH]; [done|]. simpl. by rewrite Hs, IH. Qed.

Lemma de_list_ser {A} (de : Value → option A) ser l : (∀ a, de (ser a) = Some a) → de_list de (ser_list ser l) = Some l.
Proof. apply mapM_ser. Qed.

Lemma de_map_ser {A} (de : Value → option A) ser m : (∀ a, de (ser a) = Some a) → de_map de (ser_map ser m) = Some m.
Proof.
  intros Hs. unfold de_map, ser_map. rewrite (mapM_ser _ (λ e : string * A, (e.1, ser e.2))).
  - simpl. by rewrite list_to_map_to_list.
  - intros [k a]. simpl. by rewrite Hs.
Qed.

Lemma de_mode_ser m : de_mode (ser_mode m) = Some m.
Proof. by destruct m. Qed.
Lemma de_cli_ser m : de_cli (ser_cli m) = Some m.
Proof. by destruct m. Qed.
Lemma de_runtime_ser m : de_runtime (ser_runtime m) = Some m.
Proof. by destruct m. Qed.
Lemma de_autonomy_ser m : de_autonomy (ser_autonomy m) = Some m.
Proof. by destruct m. Qed.

(** Look a literal key up in a literal object. *)
Ltac field :=
  match goal with
  | |- context [get ?k (Obj ?l)] =>
      let H := fresh in
      first [eassert (get k (Obj l) = Some _) as H by reflexivity | assert (get k (Obj l) = None) as H by reflexivity];
      rewrite H; clear H
  end.

Lemma de_str_ser s : de_str (Str s) = Some s.
Proof. done. Qed.
Lemma de_bool_ser b : de_bool (Bool b) = Some b.
Proof. done. Qed.
Lemma de_strs_ser l : de_list de_str (ser_list Str l) = Some l.
Proof. by apply de_list_ser. Qed.
Lemma de_str_map_ser m : de_map de_str (ser_map Str m) = Some m.
Proof. by apply de_map_ser. Qed.
Lemma bind_some {A B} (a : A) (f : A → option B) : Some a ≫= f = f a.
Proof. done. Qed.

Create HintDb serde.
#[local] Hint Rewrite @bind_some de_str_ser de_bool_ser de_strs_ser de_str_map_ser de_opt_str_ser de_mode_ser de_cli_ser
  de_runtime_ser de_autonomy_ser : serde.

Ltac read_fields := unfold required, defaulted; repeat field; autorewrite with serde.

Lemma de_mcp_ser s : de_mcp (ser_mcp s) = Some s.
Proof. unfold de_mcp, ser_mcp. read_fields. by destruct s. Qed.
Lemma de_trust_ser p : de_trust (ser_trust p) = Some p.
Proof. unfold de_trust, ser_trust. read_fields. by destruct p. Qed.
Lemma de_catalog_ser e : de_catalog (ser_catalog e) = Some e.
Proof. unfold de_catalog, ser_catalog. read_fields. by destruct e. Qed.
Lemma de_trinity_ser t : de_trinity (ser_trinity t) = Some t.
Proof. unfold de_trinity, ser_trinity. read_fields. by destruct t. Qed.
Lemma de_entry_ser e : de_entry (ser_entry e) = Some e.
Proof. unfold de_entry, ser_entry. read_fields. by destruct e. Qed.
Lemma de_mcps_ser l : de_list de_mcp (ser_list ser_mcp l) = Some l.
Proof. apply de_list_ser, de_mcp_ser. Qed.
Lemma de_catalogs_ser l : de_list de_catalog (ser_list ser_catalog l) = Some l.
Proof. apply de_list_ser, de_catalog_ser. Qed.
Lemma de_entries_ser l : de_list de_entry (ser_list ser_entry l) = Some l.
Proof. apply de_list_ser, de_entry_ser. Qed.
Lemma de_recipients_ser m : de_map (de_list de_str) (ser_map (ser_list Str) m) = Some m.
Proof. apply de_map_ser, de_strs_ser. Qed.
Lemma de_trinity_opt_ser o : de_option de_trinity (ser_option ser_trinity o) = Some o.
Proof. apply de_option_ser. intros a _. split; [apply de_trinity_ser|done]. Qed.
#[local] Hint Rewrite de_trust_ser de_mcps_ser de_catalogs_ser de_entries_ser de_recipients_ser de_trinity_opt_ser : serde.

Lemma config_roundtrip_data c :
  config_ok c → de_config (ser_config c) = Some (with_email_accounts [] (with_legacy_email None c)).
Proof.
  intros [Hv Hd Hm Hdo Hdb Hpk Hp Hb]. unfold de_config, ser_config. unfold required, defaulted. repeat field.
  rewrite ?bind_some, !de_int_ser, !de_path_ser by done.
  rewrite (de_option_ser de_path ser_path) by (intros p Hpp; rewrite Hpp in Hpk; split; [by apply de_path_ser|done]).
  autorewrite with serde. by destruct c.
Qed.

(** A configuration that is written as JSON is read back as it was, but for the two
    legacy email fields, which are not written. *)
Theorem config_roundtrip c :
  config_ok c → de_config (ser_config c) = Some (with_email_accounts [] (with_legacy_email None c)).
Proof. apply config_roundtrip_data. Qed.

(** ** Migrations *)

(** What a step does besides the version keeps the version. *)
Lemma migration_keeps_version v c : schema_version (migration v c) = schema_version c.
Proof.
  unfold migration, migrate_email. repeat case_match; try done.
Qed.

Lemma migrate_step_eq c b v :
  migrate_step (c, b) v = if (schema_version c <? v)%Z then (with_version v (migration v c), true) else (c, b).
Proof. done. Qed.

Lemma migrate_steps l c b :
  let r := foldl migrate_step (c, b) l in
  schema_version r.1 = foldl Z.max (schema_version c) l ∧
  r.2 = b || existsb (λ v, schema_version c <? v)%Z l ∧
  ((∀ v, v ∈ l → v ≤ schema_version c)%Z → r = (c, b)).
Proof.
  cbv zeta. revert c b. induction l as [|v l IH]; intros c b; [by rewrite orb_false_r|].
  cbn [foldl existsb]. rewrite migrate_step_eq. destruct (Z.ltb_spec (schema_version c) v) as [Hv|Hv].
  - destruct (IH (with_version v (migration v c)) true) as (H1 & H2 & _). split_and!.
    + rewrite H1. simpl. by rewrite Z.max_r by lia.
    + rewrite H2. simpl. by rewrite orb_true_r.
    + intros Hall. assert (v ≤ schema_version c)%Z by (apply Hall; by left). lia.
  - destruct (IH c b) as (H1 & H2 & H3). split_and!.
    + by rewrite H1, Z.max_l by lia.
    + by rewrite H2.
    + intros Hall. apply H3. intros w Hw. apply Hall. by right.
Qed.

(** All that the migrations can change. *)
Definition migrated_from (c c' : AppConfig) : Prop :=
  c' = with_version (schema_version c') (with_email_accounts (email_accounts c')
         (with_bundled (bundled_ollama c') (bundled_model c') (with_routing_mode (routing_mode c') c))).

Lemma migrated_refl c : migrated_from c c.
Proof. by destruct c. Qed.

Lemma migrated_trans c1 c2 c3 : migrated_from c1 c2 → migrated_from c2 c3 → migrated_from c1 c3.
Proof. unfold migrated_from. intros H12 H23. rewrite H23, H12 at 1. done. Qed.

Lemma migrated_step v c : migrated_from c (with_version v (migration v c)).
Proof. unfold migration, migrate_email. repeat case_match; by destruct c. Qed.

Lemma steps_migrated l c b : migrated_from c (foldl migrate_step (c, b) l).1.
Proof.
  revert c b. induction l as [|v l IH]; intros c b; [apply migrated_refl|]. cbn [foldl].
  rewrite migrate_step_eq. destruct (_ <? _)%Z; [|apply IH]. eapply migrated_trans; [apply migrated_step|apply IH].
Qed.

(** Only the step to version 8 looks at the email account. *)
Lemma steps_keep_email l c b :
  8%Z ∉ l → email (foldl migrate_step (c, b) l).1 = email c ∧ email_accounts (foldl migrate_step (c, b) l).1 = email_accounts c.
Proof.
  revert c b. induction l as [|v l IH]; intros c b Hl; [done|]. cbn [foldl]. rewrite migrate_step_eq.
  apply not_elem_of_cons in Hl as [Hv Hl]. destruct (_ <? _)%Z; [|by apply IH].
  destruct (IH (with_version v (migration v c)) true Hl) as [-> ->].
  unfold migration. destruct (Z.eqb_spec v 8); [congruence|]. repeat case_match; done.
Qed.

(** Migrating a configuration brings it to the current schema version, or leaves a
    newer one alone; it reports whether anything was done; it is idempotent; it touches
    nothing but the version, the routing mode, the bundled model and the email
    accounts; and the account of an old configuration is carried over. *)
Theorem migrate_spec c c' b :
  migrate c = (c', b) →
  schema_version c' = Z.max (schema_version c) CONFIG_SCHEMA_VERSION ∧
  b = (schema_version c <? CONFIG_SCHEMA_VERSION)%Z ∧
  migrate c' = (c', false) ∧
  migrated_from c c' ∧
  (∀ e, (schema_version c < 8)%Z → email c = Some e → email_accounts c = [] → email_accounts c' = [legacy_account e]).
Proof.
  intros Hm. unfold migrate in Hm.
  destruct (migrate_steps versions c false) as (H1 & H2 & _). rewrite Hm in H1, H2. cbn [fst snd] in H1, H2.
  assert (∀ z, foldl Z.max z versions = Z.max z 27) as Hmax by (intros z; unfold versions; simpl; lia).
  assert (∀ z, existsb (λ v, z <? v)%Z versions = (z <? 27)%Z) as Hex.
  { intros z. destruct (Z.ltb_spec z 27).
    - apply existsb_exists. exists 27%Z. split; [apply list_elem_of_In; unfold versions; apply list_elem_of_fmap; exists 27%nat; split; [done|]; apply elem_of_seq; lia|by apply Z.ltb_lt].
    - apply not_true_iff_false. intros (v & Hv & Hz%Z.ltb_lt)%existsb_exists. apply list_elem_of_In in Hv.
      apply list_elem_of_fmap in Hv as (n & -> & Hn%elem_of_seq). lia. }
  rewrite Hmax in H1. rewrite Hex in H2. split_and!; try done.
  - unfold migrate. apply migrate_steps. intros v Hv. rewrite H1.
    apply list_elem_of_fmap in Hv as (n & -> & Hn%elem_of_seq). lia.
  - pose proof (steps_migrated versions c false) as Hs. by rewrite Hm in Hs.
  - intros e Hlt He Ha.
    assert (versions = map Z.of_nat (seq 1 7) ++ 8%Z :: map Z.of_nat (seq 9 19)) as Hsplit by done.
    rewrite Hsplit, foldl_app in Hm.
    assert (8%Z ∉ map Z.of_nat (seq 1 7) ∧ 8%Z ∉ map Z.of_nat (seq 9 19)) as [Hn1 Hn2].
    { split; intros (n & Hn & Hin%elem_of_seq)%list_elem_of_fmap; lia. }
    destruct (migrate_steps (map Z.of_nat (seq 1 7)) c false) as (Hv1 & _ & _).
    destruct (steps_keep_email _ c false Hn1) as [He1 Ha1].
    destruct (foldl migrate_step (c, false) (map Z.of_nat (seq 1 7))) as [c1 b1]. cbn [fst] in *.
    cbn [foldl] in Hm. rewrite migrate_step_eq in Hm.
    assert ((schema_version c1 <? 8)%Z = true) as Hlt1.
    { apply Z.ltb_lt. rewrite Hv1. simpl. lia. }
    rewrite Hlt1 in Hm. destruct (steps_keep_email _ (with_version 8 (migration 8 c1)) true Hn2) as [_ Ha2].
    rewrite Hm in Ha2. cbn [fst] in Ha2. rewrite Ha2. unfold migration. simpl. unfold migrate_email.
    by rewrite He1, He, Ha1, Ha.
Qed.

(** *** What gets lost *)

(** A configuration without a version is taken for a current one. *)
Theorem versionless_config_is_current v c :
  get "schema_version" v = None → de_config v = Some c → migrate c = (c, false).
Proof.
  intros Hv Hc. unfold de_config in Hc. 
  assert (defaulted "schema_version" (de_int 32) CONFIG_SCHEMA_VERSION v = Some CONFIG_SCHEMA_VERSION) as Hd
    by (unfold defaulted; by rewrite Hv).
  rewrite Hd, bind_some in Hc. clear Hd.
  assert (schema_version c = CONFIG_SCHEMA_VERSION) as Hs.
  { repeat (match type of Hc with ?o ≫= _ = _ => destruct o; [cbn [mbind option_bind] in Hc|done] end). by simplify_eq. }
  unfold migrate. apply migrate_steps. rewrite Hs. intros w Hw.
  apply list_elem_of_fmap in Hw as (n & -> & Hn%elem_of_seq). unfold CONFIG_SCHEMA_VERSION. lia.
Qed.

(** The account that is carried over is gone when the configuration has been saved, as
    loading it does, and is read again. *)
Theorem carried_account_is_not_saved c :
  config_ok c → ∃ c2, de_config (ser_config c) = Some c2 ∧ email_accounts c2 = [] ∧ email c2 = None.
Proof. intros Hc. eexists. split; [by apply config_roundtrip_data|done]. Qed.

(** ** Files *)

Section files.
Context `{JsonText} (to_string_pretty : Value → string).
Context (cwd : real) (denied : Call → path → bool).

Lemma config_file_path dir : trusted_file_path dir CONFIG_FILE = Ok (dir // CONFIG_FILE) ∨ ∃ e, trusted_file_path dir CONFIG_FILE = Err e.
Proof.
  unfold trusted_file_path, resolve_within_root.
  change (ensure_simple_filename CONFIG_FILE) with (Ok (A:=()) (E:=PathError) ()).
  change (components CONFIG_FILE) with [Normal CONFIG_FILE]. simpl.
  destruct (ensure_path_within_root _ _); [by left|right; by eexists].
Qed.

Lemma last_join dir n : last (dir // n) = Some (Normal n).
Proof.
  unfold path_join. cbn [is_absolute]. destruct dir as [|c dir]; [done|].
  change (filter (λ c, c ≠ CurDir) [Normal n]) with [Normal n]. apply last_snoc.
Qed.

(** A configuration of the current schema that was saved is loaded as it was, the
    legacy email fields apart, when nothing denies the reading, no [config.json] is a
    symbolic link, and the text of its JSON is read as that JSON. *)
Theorem saved_config_is_loaded c dir t t' :
  from_str (to_string_pretty (ser_config c)) = Ok (ser_config c) → utf8_valid (to_string_pretty (ser_config c)) = true →
  config_ok c → (CONFIG_SCHEMA_VERSION ≤ schema_version c)%Z →
  (∀ r target, t !! (r ++ [CONFIG_FILE]) ≠ Some (Link target)) → denied ReadData (dir // CONFIG_FILE) = false →
  save_to_data_dir to_string_pretty cwd denied c dir t = (t', Ok tt) →
  load_from_data_dir to_string_pretty cwd denied dir t' =
    (t', Ok (with_email_accounts [] (with_legacy_email None c))).
Proof.
  intros Hjson Hutf Hok Hv Hnl Hd Hs. unfold save_to_data_dir in Hs. unfold load_from_data_dir.
  destruct (config_file_path dir) as [Hp|[e Hp]]; rewrite Hp in *; [|done].
  destruct (create_dir_all cwd denied dir t) as [t1 [u|e]] eqn:Hc; [|done].
  destruct (write_bytes_atomic _ _ _ _ _) as [t2 r] eqn:Hw. injection Hs as -> Hr.
  destruct r as [u'|]; [|done]. destruct u'.
  apply create_dir_all_grown in Hc as [_ Hg].
  apply read_written in Hw; [|..|done].
  - rewrite Hw, Hutf, Hjson. cbn [negb].
    rewrite config_roundtrip_data by done.
    set (c' := with_email_accounts [] _). assert (migrate c' = (c', false)) as ->; [|done].
    unfold migrate. apply migrate_steps. intros v (n & -> & Hn%elem_of_seq)%list_elem_of_fmap.
    change (schema_version c') with (schema_version c). unfold CONFIG_SCHEMA_VERSION in Hv. lia.
  - intros r n target Hl. rewrite last_join. intros [= <-]. destruct (Hg (r ++ [CONFIG_FILE])) as [He|[_ He]]; [|congruence].
    apply (Hnl r target). congruence.
Qed.
End files.

(** ** Trust *)

(** A URL of an MCP server is accepted exactly when it parses, is HTTP, has a host,
    and, when the policy lists hosts or insists on its list, the host is one of them or a
    subdomain, letter case and trailing dots aside. *)
Theorem mcp_url_accepted_iff parse p server_id url u :
  validate_http_server_url parse p server_id url = Ok u ↔
  parse url = Ok u ∧ (scheme u = "http" ∨ scheme u = "https") ∧
  ∃ host, host_str u = Some host ∧
    (allow_list_only p = true ∨ normalized_allowed_hosts p ≠ [] →
     ∃ a, a ∈ normalized_allowed_hosts p ∧
       (normal_host host = a ∨ ∃ sub, normal_host host = sub +:+ "." +:+ a)).
Proof.
  assert (∀ host, is_host_allowed p host = true ↔ ∃ a, a ∈ normalized_allowed_hosts p ∧
       (normal_host host = a ∨ ∃ sub, normal_host host = sub +:+ "." +:+ a)) as Hallowed.
  { intros host. unfold is_host_allowed. rewrite existsb_exists. split; intros (a & Ha & Hm); exists a;
      rewrite list_elem_of_In in *; (split; [done|]).
    - apply orb_prop in Hm as [Hm|Hm]; [left; exact (proj1 (bool_decide_eq_true _) Hm)|right; by apply ends_with_iff].
    - apply orb_true_iff. destruct Hm as [Hm|Hm]; [left; by apply bool_decide_true|right; by apply ends_with_iff]. }
  unfold validate_http_server_url. destruct (parse url) as [u'|e]; [|split; [done|by intros [? _]]]. simpl.
  split.
  - destruct (_ && _) eqn:Hsch; [done|]. destruct (host_str u') as [host|] eqn:Hh; [|done]. simpl. intros Hok.
    assert (u' = u ∧ (allow_list_only p = true ∨ normalized_allowed_hosts p ≠ [] → is_host_allowed p host = true)) as [<- Ha].
    { destruct (allow_list_only p).
      - case_bool_decide; [done|]. destruct (is_host_allowed p host); [by simplify_eq/=|done].
      - case_bool_decide; simpl in Hok; [simplify_eq; split; [done|intros [?|?]; done]|].
        destruct (is_host_allowed p host); [by simplify_eq/=|done]. }
    split; [done|]. split.
    + apply andb_false_iff in Hsch as [Hs|Hs]; apply negb_false_iff in Hs;
        [left|right]; exact (proj1 (bool_decide_eq_true _) Hs).
    + exists host. split; [done|]. intros Hp. by apply Hallowed, Ha.
  - intros ([= ->] & Hs & host & Hh & Ha). rewrite Hh. simpl.
    assert (negb (bool_decide (scheme u = "http")) && negb (bool_decide (scheme u = "https")) = false) as ->.
    { destruct Hs as [-> | ->]; done. }
    destruct (allow_list_only p).
    + assert (is_host_allowed p host = true) as Hal by (apply Hallowed, Ha; by left).
      case_bool_decide as He; [unfold is_host_allowed in Hal; by rewrite He in Hal|]. by rewrite Hal.
    + case_bool_decide as He; [done|]. simpl. assert (is_host_allowed p host = true) as -> by (apply Hallowed, Ha; by right). done.
Qed.

(** ** At concrete configurations *)

Module ConfigDemo.

(** An old configuration with an account; a current one. *)
Definition written (version : Z) : Value := Obj
  [("schema_version", ser_int version); ("data_dir", Str "/d"); ("models_dir", Str "/d/models"); ("docs_dir", Str "/d/docs");
   ("db_path", Str "/d/abigail.db"); ("agent_name", Str "Orion"); ("birth_complete", Bool false)].
Definition read_config (version : Z) : option AppConfig := de_config (written version).
Definition account : EmailConfig := mkEmail "a@b.c" "imap" 993 "smtp" 587 [].

Definition current : AppConfig :=
  match read_config 27 with Some c => c | None => default_config [RootDir] end.

Lemma current_ok : config_ok current.
Proof. split; vm_compute; done. Defined.

Lemma config_roundtrip_witness : de_config (ser_config current) = Some current ∧ agent_name current = Some "Orion".
Proof. split; [|reflexivity]. rewrite (config_roundtrip current current_ok). vm_compute. reflexivity. Defined.

Definition old : AppConfig := with_version 3 (with_legacy_email (Some account) current).

Lemma migrate_spec_witness :
  schema_version (migrate old).1 = 27%Z ∧ email_accounts (migrate old).1 = [legacy_account account].
Proof.
  destruct (migrate_spec old (migrate old).1 (migrate old).2 (surjective_pairing _)) as (H1 & _ & _ & _ & H5).
  split; [rewrite H1; reflexivity|]. apply H5; reflexivity.
Defined.

Definition permit (c : Call) (p : path) : bool := false.
#[export] Instance text : JsonText := {| from_str _ := Ok (ser_config current); to_string _ := "" |}.

Lemma saved_config_is_loaded_witness :
  ∃ t, load_from_data_dir (λ _, "") [] permit [RootDir; Normal "d"] t = (t, Ok current) ∧ t !! ["d"; "config.json"] = Some (File "").
Proof.
  destruct (save_to_data_dir (λ _, "") [] permit current [RootDir; Normal "d"] ∅) as [t r] eqn:Hs.
  assert (r = Ok tt ∧ t !! ["d"; "config.json"] = Some (File "")) as [-> Hf] by (vm_compute in Hs; by simplify_eq).
  exists t. split; [|done].
  rewrite (saved_config_is_loaded (λ _, "") [] permit current [RootDir; Normal "d"] ∅ t); done.
Defined.
End ConfigDemo.
