(* ===== verification/Identity.v ===== *)
(** * The identity manager of the Hive ([crates/abigail-identity])

    The registry of entities with their directories, keys, signatures and backups,
    over the file tree.  Cryptography, the clock and new identifiers are parameters.
    The lock around the registry is held for each operation and never poisoned. *)

From S2P Require Import Prelude RustStr Cognitive Router Paths FileTree SkillPolicy Json Config.
From Stdlib Require Import ZArith Lia Ascii.
From stdpp Require Import base list strings gmap pretty.

Open Scope rust_scope.

(** ** Data *)

Record AgentEntry : Type := mkAgent {
  id : string;
  name : string;
  is_hive : bool;
  directory : path;
}.

Record GlobalConfig : Type := mkGlobal {
  master_key_path : path;
  agents : list AgentEntry;
  hive_secrets_path : option path;
  default_theme : string;
}.

Record AgentIdentityInfo : Type := mkInfo {
  info_id : string;
  info_name : string;
  info_directory : string;
  info_birth_complete : bool;
  info_birth_date : option string;
  info_is_hive : bool;
  immortal : bool;
}.

Record BackupMetadata : Type := mkMetadata {
  meta_agent_id : string;
  meta_agent_name : string;
  meta_backup_type : string;
  meta_created_at : string;
  meta_source_directory : string;
}.

Record BackupInfo : Type := mkBackupInfo {
  directory_name : string;
  directory_path : string;
  backup_agent_name : string;
  backup_type : string;
  backup_created_at : string;
  backup_birth_complete : bool;
  backup_birth_date : option string;
  has_memories : bool;
  has_signatures : bool;
}.

Definition default_hive_theme : string := "modern".
Definition GLOBAL_FILE : string := "global_settings.json".

(** *** JSON *)

Definition ser_agent (e : AgentEntry) : Value := Obj
  [("id", Str (id e)); ("name", Str (name e)); ("is_hive", Bool (is_hive e)); ("directory", ser_path (directory e))].
Definition de_agent (v : Value) : option AgentEntry :=
  i ← required "id" de_str v;
  n ← required "name" de_str v;
  h ← defaulted "is_hive" de_bool false v;
  d ← required "directory" de_path v;
  Some (mkAgent i n h d).

Definition ser_global (g : GlobalConfig) : Value := Obj
  [("master_key_path", ser_path (master_key_path g)); ("agents", ser_list ser_agent (agents g));
   ("hive_secrets_path", ser_option ser_path (hive_secrets_path g)); ("default_theme", Str (default_theme g))].
Definition de_global (v : Value) : option GlobalConfig :=
  m ← required "master_key_path" de_path v;
  a ← defaulted "agents" (de_list de_agent) [] v;
  h ← defaulted "hive_secrets_path" (de_option de_path) None v;
  t ← defaulted "default_theme" de_str default_hive_theme v;
  Some (mkGlobal m a h t).

Definition ser_metadata (m : BackupMetadata) : Value := Obj
  [("agent_id", Str (meta_agent_id m)); ("agent_name", Str (meta_agent_name m));
   ("backup_type", Str (meta_backup_type m)); ("created_at", Str (meta_created_at m));
   ("source_directory", Str (meta_source_directory m))].
Definition de_metadata (v : Value) : option BackupMetadata :=
  i ← required "agent_id" de_str v;
  n ← required "agent_name" de_str v;
  t ← required "backup_type" de_str v;
  c ← required "created_at" de_str v;
  s ← required "source_directory" de_str v;
  Some (mkMetadata i n t c s).

(** ** The registry *)

Definition new_global (data_root : path) : GlobalConfig :=
  mkGlobal (data_root // "master.key") [] (Some (data_root // "hive_secrets.bin")) default_hive_theme.

Definition global_config_path (data_root : path) : path := data_root // GLOBAL_FILE.

Definition find_agent (agent_id : string) (g : GlobalConfig) : option AgentEntry :=
  List.find (λ a, bool_decide (id a = agent_id)) (agents g).

Definition with_agents (f : list AgentEntry → list AgentEntry) (g : GlobalConfig) : GlobalConfig :=
  mkGlobal (master_key_path g) (f (agents g)) (hive_secrets_path g) (default_theme g).

Definition register_agent (e : AgentEntry) (g : GlobalConfig) : result GlobalConfig string :=
  if existsb (λ a, bool_decide (id a = id e)) (agents g)
  then Err ("Agent with id " +:+ id e +:+ " already registered")
  else Ok (with_agents (λ l, l ++ [e]) g).

Definition remove_agent (agent_id : string) : GlobalConfig → GlobalConfig :=
  with_agents (filter (λ a, id a ≠ agent_id)).

Definition normalize_agent_directories (g : GlobalConfig) : result GlobalConfig PathError :=
  let normal e := let? d := normalize_agent_directory (directory e) in Ok (mkAgent (id e) (name e) (is_hive e) d) in
  let? l := (fix all (l : list AgentEntry) : result (list AgentEntry) PathError :=
    match l with [] => Ok [] | e :: l => let? e := normal e in let? l := all l in Ok (e :: l) end) (agents g) in
  Ok (with_agents (λ _, l) g).

(** ** Text *)

Definition hex_digit (n : N) : ascii := ascii_of_N (if (n <? 10)%N then 48 + n else 87 + n).
Fixpoint to_hex (bytes : string) : string :=
  match bytes with
  | EmptyString => ""
  | String b rest =>
      String (hex_digit (N_of_ascii b / 16)) (String (hex_digit (N_of_ascii b mod 16)) (to_hex rest))
  end.

Definition hex_value (c : ascii) : option N :=
  let n := N_of_ascii c in
  if (48 <=? n)%N && (n <=? 57)%N then Some (n - 48)%N
  else if (97 <=? n)%N && (n <=? 102)%N then Some (n - 87)%N
  else if (65 <=? n)%N && (n <=? 70)%N then Some (n - 55)%N
  else None.

(** [u8::from_str_radix] of two characters, which takes a leading plus. *)
Definition hex_byte (a b : ascii) : option ascii :=
  match hex_value a, hex_value b with
  | Some x, Some y => Some (ascii_of_N (16 * x + y))
  | None, Some y => if bool_decide (a = "+"%char) then Some (ascii_of_N y) else None
  | _, None => None
  end.

Fixpoint decode_pairs (s : string) : result string string :=
  match s with
  | String a (String b rest) =>
      match hex_byte a b with
      | Some c => let? t := decode_pairs rest in Ok (String c t)
      | None => Err "invalid digit found in string"
      end
  | _ => Ok ""
  end.

Fixpoint is_ascii (s : string) : bool :=
  match s with EmptyString => true | String c s => (N_of_ascii c <? 128)%N && is_ascii s end.

Definition decode_hex (input : string) : result string string :=
  if negb (is_ascii input) || negb (Nat.even (String.length input))
  then Err "Invalid hexadecimal signature encoding."
  else decode_pairs input.

(** [splitn(3, '_')] when it has three parts. *)
Definition three_parts (s : string) : option (string * string * string) :=
  match split_once s "_" with
  | None => None
  | Some (a, rest) => match split_once rest "_" with None => None | Some (b, c) => Some (a, b, c) end
  end.

Fixpoint trim_end_string (fuel : nat) (suffix s : string) : string :=
  match fuel, RustStr.strip_suffix s suffix with
  | S fuel, Some t => trim_end_string fuel suffix t
  | _, _ => s
  end.

(** Slices of the two leading parts panic ([None]) inside a character. *)
Definition slice (from to : nat) (s : string) : option string :=
  match slice_to to s with
  | None => None
  | Some t => if bool_decide (from = 0)%nat then Some t
              else match slice_to from s with Some _ => Some (str_drop from t) | None => None end
  end.

Definition created_of (date time : string) : option string :=
  if (String.length date =? 8)%nat && (String.length time =? 6)%nat then
    y ← slice 0 4 date; mo ← slice 4 6 date; d ← slice 6 8 date;
    h ← slice 0 2 time; mi ← slice 2 4 time; s ← slice 4 6 time;
    Some (y +:+ "-" +:+ mo +:+ "-" +:+ d +:+ "T" +:+ h +:+ ":" +:+ mi +:+ ":" +:+ s +:+ "Z")
  else Some "".

Definition parse_backup_dir_name (dir_name : string) : option (string * string * string) :=
  match three_parts dir_name with
  | None => Some (dir_name, "unknown", "")
  | Some (date, time, rest) =>
      created_at ← created_of date time;
      Some (if ends_with rest "_backup"
            then (trim_end_string (String.length rest) "_backup" rest, "manual_backup", created_at)
            else (rest, "archive", created_at))
  end.

Definition HIVE_ENTITY_NAME : string := "Abigail Hive".

(** [HiveEntity::registry_entry] and [config]. *)
Definition hive_entry (hive_id : string) : AgentEntry :=
  mkAgent hive_id HIVE_ENTITY_NAME true [Normal "identities"; Normal hive_id].

Definition memory_db_path (data_root : path) : path := data_root // "memory.db".

Definition entity_config (data_root : path) (agent_id agent_name theme : string) (hive : bool) : AppConfig :=
  let agent_dir := data_root // "identities" // agent_id in
  mkAppConfig CONFIG_SCHEMA_VERSION agent_dir (agent_dir // "models") (agent_dir // "docs") (memory_db_path data_root)
    None None false None None None EgoPrimary None (Some agent_name) None hive [] default_trust_policy [] [] None []
    None None [] true (Some "llama3.2:3b") false 0%Z (if hive then Some "#00c2a8" else None) None false (negb hive)
    false true false [] ∅ 3%Z None AllowListOnly InProcess default_hive_daemon_url default_entity_daemon_url None
    (Some theme) (if hive then Strict else DesktopOperator).

Definition hive_config (data_root : path) (hive_id theme : string) : AppConfig :=
  entity_config data_root hive_id HIVE_ENTITY_NAME theme true.

Definition should_auto_reset_identity_state (error : string) : bool :=
  let error := to_lowercase error in
  contains error "aes-gcm decryption failed" || contains error "wrong key or tampered data"
  || contains error "decryption failed".

(** ** The manager *)

(** The file tree and the registry in memory. *)
Record Hive : Type := mkHive { disk : Tree; registry : GlobalConfig }.

Section manager.
Context `{JsonText} (to_string_pretty : Value → string).
Context (cwd : real) (denied : Call → path → bool).
Context (config_fault_str : ConfigFault → string) (path_error_str : PathError → string).
(** Ed25519; the encryption of files under the root key. *)
Context {Key : Type} (verifying_key : Key → string) (sign : Key → string → string).
Context (verify : string → string → string → bool) (check_key : string → result unit string).
Context (private_base64 : Key → string) (parse_private_key : string → result Key string).
Context (seal_file unseal_file : string → result string string).
Context (print_key : Key → string) (parse_master : string → result Key string).
(** [SignatureMetadata] as JSON, of the encoded signature. *)
Context (signature_json : string → string).
Context (is_alphanumeric : string → bool).
(** The environment: [ABIGAIL_DOCUMENTS_DIR] if not empty, the application's own
    directory, [HOME]. *)
Context (documents_dir : option path) (app_dir : path) (home : option path).
Context (data_root : path).

Notation HM := (M Hive string).
Notation exists_ := (path_exists cwd denied).

Definition on_disk {A} (wrap : IoError → string) (m : M Tree IoError A) : HM A := λ h,
  let '(t, r) := m (disk h) in (mkHive t (registry h), map_err wrap r).
Definition io {A} : M Tree IoError A → HM A := on_disk io_error_str.
Definition tree_looks {A} (q : Tree → result A IoError) : M Tree IoError A := λ t, (t, q t).
Definition looks {A} (q : Tree → result A IoError) : HM A := io (tree_looks q).

Definition gets {A} (f : Hive → A) : HM A := λ h, (h, Ok (f h)).
Definition of_result {A} (r : result A string) : HM A := λ h, (h, r).
Definition set_registry (g : GlobalConfig) : HM unit := λ h, (mkHive (disk h) g, Ok tt).
Definition there (p : path) : HM bool := gets (λ h, exists_ (disk h) p).
Definition wrapping {A} (wrap : string → string) (m : HM A) : HM A := λ h,
  let '(h, r) := m h in (h, map_err wrap r).
(** A failure is cleaned up after, if that works. *)
Definition or_clean (m clean : HM unit) : HM unit := λ h,
  match m h with (h, Ok _) => (h, Ok tt) | (h, Err e) => ((clean h).1, Err e) end.
(** [let _ = ...]. *)
Definition ignore {A} (m : HM A) : HM unit := λ h, ((m h).1, Ok tt).

Definition config_op {A} (m : M Tree ConfigFault A) : HM A := λ h,
  let '(t, r) := m (disk h) in (mkHive t (registry h), map_err config_fault_str r).
Definition load_config (p : path) : HM AppConfig := config_op (load to_string_pretty cwd denied p).
Definition save_config (c : AppConfig) (p : path) : HM unit := config_op (save to_string_pretty cwd denied c p).

(** [GlobalConfig::save] and [load]. *)
Definition write_global (g : GlobalConfig) : M Tree string unit := λ t,
  match normalize_agent_directories g with
  | Err e => (t, Err (path_error_str e))
  | Ok g =>
      match trusted_file_path data_root GLOBAL_FILE with
      | Err e => (t, Err (path_error_str e))
      | Ok p =>
          let '(t, r) := (create_dir_all cwd denied data_root ;;
                          write_bytes_atomic cwd denied p (to_string_pretty (ser_global g))) t in
          (t, map_err io_error_str r)
      end
  end.

Definition read_global (t : Tree) : result GlobalConfig string :=
  let? p := map_err path_error_str (trusted_file_path data_root GLOBAL_FILE) in
  let? content := map_err io_error_str (read cwd denied t p) in
  let? v := (if utf8_valid content then from_str content else Err "stream did not contain valid UTF-8") in
  match de_global v with
  | None => Err (config_fault_str BadField)
  | Some g => map_err path_error_str (normalize_agent_directories g)
  end.

(** The registry as it stands is saved. *)
Definition save_registry : HM unit := λ h,
  let '(t, r) := write_global (registry h) (disk h) in (mkHive t (registry h), r).

Definition identities_dir : path := data_root // "identities".
Definition backups_dir : path := data_root // "backups".
Definition registry_directory_for (agent_id : string) : path := [Normal "identities"; Normal agent_id].
Definition shared_memory_db_path : path := memory_db_path data_root.

Definition resolve_agent_dir (dir : path) : result path string :=
  let? relative := map_err path_error_str (normalize_agent_directory dir) in
  map_err path_error_str (resolve_within_root data_root relative).

Definition not_registered (agent_id : string) : string := "Agent " +:+ agent_id +:+ " not registered".

Definition entry_of (agent_id : string) : HM AgentEntry := λ h,
  (h, ok_or (find_agent agent_id (registry h)) (not_registered agent_id)).

Definition agent_dir (agent_id : string) : HM path :=
  e ← entry_of agent_id; of_result (resolve_agent_dir (directory e)).

(** *** Bootstrap *)

Definition recovery_candidates : list path :=
  [data_root // "master.key"; global_config_path data_root; data_root // "identities"].

Definition archive_failed (p : path) (e : IoError) : string :=
  "Failed to archive '" +:+ display p +:+ "' during identity recovery: " +:+ io_error_str e.

Definition recover_identity_state (timestamp : string) : HM unit :=
  any ← gets (λ h, existsb (exists_ (disk h)) recovery_candidates);
  if negb any then mret tt
  else
    io (create_dir_all cwd denied backups_dir) ;;
    let recovery_dir := backups_dir // ("identity_recovery_" +:+ timestamp) in
    io (create_dir_all cwd denied recovery_dir) ;;
    for_each recovery_candidates (λ p,
      e ← there p;
      if negb e then mret tt
      else match file_name p with
      | None => fail ("Invalid identity recovery path '" +:+ display p +:+ "'")
      | Some n => on_disk (archive_failed p) (rename cwd denied p (recovery_dir // n))
      end).

Definition ensure_hive_entity (hive_id : string) : HM unit :=
  g ← gets registry;
  if existsb is_hive (agents g) then mret tt
  else
    let dir := data_root // "identities" // hive_id in
    io (create_dir_all cwd denied (dir // "docs")) ;;
    save_config (hive_config data_root hive_id (default_theme g)) (dir // "config.json") ;;
    g ← of_result (register_agent (hive_entry hive_id) g);
    set_registry g ;;
    save_registry.

Definition read_text (p : path) : HM string := looks (λ t, read cwd denied t p).

(** The master key that a new installation draws is [drawn]; the registry in memory is
    set by this function. *)
Definition try_load_from_vault (drawn : Key) (hive_id : string) : HM Key :=
  io (create_dir_all cwd denied data_root) ;;
  io (create_dir_all cwd denied identities_dir) ;;
  let master_key := data_root // "master.key" in
  e ← there master_key;
  key ← (if (e : bool) then
           data ← read_text master_key;
           opened ← of_result (unseal_file data);
           of_result (parse_master opened)
         else
           sealed ← of_result (seal_file (print_key drawn));
           io (write_bytes_atomic cwd denied master_key sealed) ;;
           mret drawn);
  e ← there (global_config_path data_root);
  (if (e : bool) then
     g ← (λ h, (h, read_global (disk h)));
     set_registry g
   else
     set_registry (new_global data_root) ;;
     save_registry) ;;
  ensure_hive_entity hive_id ;;
  mret key.

(** [root_kek]: the key of the vault must be there first. *)
Definition new (root_kek : result unit string) (drawn : Key) (hive_id : string) (timestamp : string)
    (drawn' : Key) (hive_id' : string) : HM Key := λ h,
  match root_kek with
  | Err e => (h, Err ("Recovery Mode: " +:+ e))
  | Ok _ =>
      match try_load_from_vault drawn hive_id h with
      | (h, Ok key) => (h, Ok key)
      | (h, Err error) =>
          if should_auto_reset_identity_state error
          then (recover_identity_state timestamp ;; try_load_from_vault drawn' hive_id') h
          else (h, Err error)
      end
  end.

Definition hive_agent_id (h : Hive) : result string string :=
  match List.find is_hive (agents (registry h)) with
  | Some e => Ok (id e)
  | None => Err "Abigail Hive is not registered"
  end.

Definition has_agents (h : Hive) : bool := negb (bool_decide (agents (registry h) = [])).

(** *** Entities *)

(** What the configuration in a directory says of the birth; unreadable is unborn. *)
Definition birth_of (dir : path) : HM (bool * option string) :=
  let config := dir // "config.json" in
  e ← there config;
  if negb e then mret (false, None)
  else λ h, match load_config config h with
            | (h, Ok c) => (h, Ok (birth_complete c, birth_timestamp c))
            | (h, Err _) => (h, Ok (false, None))
            end.

Fixpoint collect {A B} (f : A → HM B) (l : list A) : HM (list B) :=
  match l with
  | [] => mret []
  | a :: l => b ← f a; rest ← collect f l; mret (b :: rest)
  end.

(** The Hive first, then by name. *)
Definition info_leb (a b : AgentIdentityInfo) : bool :=
  match info_is_hive a, info_is_hive b with
  | true, false => true
  | false, true => false
  | _, _ => String.leb (info_name a) (info_name b)
  end.

Definition info_for (e : AgentEntry) : HM AgentIdentityInfo :=
  dir ← of_result (resolve_agent_dir (directory e));
  born ← birth_of dir;
  mret (mkInfo (id e) (name e) (display dir) born.1 born.2 (is_hive e) (is_hive e)).

Definition list_agents : HM (list AgentIdentityInfo) :=
  g ← gets registry;
  infos ← collect info_for (agents g);
  mret (sort_by info_leb infos).

(** The public key in a directory, and what the key says of it. *)
Definition invalid_key (e : string) : string := "Invalid public key: " +:+ e.
Definition checked_key (bytes : string) : result string string :=
  if (String.length bytes =? 32)%nat
  then let? _ := map_err invalid_key (check_key bytes) in Ok bytes
  else Err "Invalid public key length".

Definition verify_agent (master : Key) (agent_id : string) : HM unit :=
  e ← entry_of agent_id;
  dir ← of_result (resolve_agent_dir (directory e));
  let pubkey_path := dir // "external_pubkey.bin" in
  k ← there pubkey_path;
  if negb k then fail ("Agent " +:+ agent_id +:+ " has no public key at " +:+ display pubkey_path)
  else
    bytes ← read_text pubkey_path;
    agent_pubkey ← of_result (checked_key bytes);
    let sig_path := dir // "signature.sig" in
    s ← there sig_path;
    if negb s then fail ("Agent " +:+ agent_id +:+ " has no Hive signature at " +:+ display sig_path)
    else
      sig ← read_text sig_path;
      if verify (verifying_key master) agent_pubkey sig then mret tt
      else fail ("SECURITY: Agent " +:+ agent_id +:+
                 " signature verification FAILED. This agent may not belong to this Hive.").

(** *** Documents *)

Definition safe_char (c : string) : string :=
  if is_alphanumeric c || bool_decide (c = "-") || bool_decide (c = "_") || bool_decide (c = " ") then c else "_".

Definition safe_document_name (agent_id agent_name : string) : string :=
  let safe := trim (RustStr.join "" (map safe_char (chars agent_name))) in
  if str_is_empty safe then agent_id else safe.

Definition documents_base : result path string :=
  match documents_dir with
  | Some p => Ok p
  | None =>
      if decide (data_root = app_dir)
      then match home with
           | Some h => Ok (h // "Documents")
           | None => Err "HOME environment variable not set"
           end
      else Ok (data_root // "Documents")
  end.

Definition create_documents_folder (agent_id : string) : HM path :=
  e ← entry_of agent_id;
  base ← of_result documents_base;
  let agent_docs := base // "Abigail" // safe_document_name agent_id (name e) in
  on_disk (λ e, "Failed to create Documents folder: " +:+ io_error_str e) (create_dir_all cwd denied agent_docs) ;;
  mret agent_docs.

(** An unborn entity has no key yet, and the Hive none at all. *)
Definition load_agent (master : Key) (agent_id : string) : HM AppConfig :=
  e ← entry_of agent_id;
  dir ← of_result (resolve_agent_dir (directory e));
  let config := dir // "config.json" in
  there_is ← there config;
  if negb there_is then fail ("Agent " +:+ agent_id +:+ " config not found")
  else
    c ← load_config config;
    (if birth_complete c && negb (Config.is_hive c) then verify_agent master agent_id else mret tt) ;;
    ignore (create_documents_folder agent_id) ;;
    mret c.

Definition register (e : AgentEntry) : HM unit :=
  g ← gets registry;
  g ← of_result (register_agent e g);
  set_registry g ;;
  save_registry.

Definition create_agent (uuid agent_name : string) : HM (string * path) :=
  let dir := identities_dir // uuid in
  io (create_dir_all cwd denied dir) ;;
  io (create_dir_all cwd denied (dir // "docs")) ;;
  g ← gets registry;
  save_config (entity_config data_root uuid agent_name (default_theme g) false) (dir // "config.json") ;;
  register (mkAgent uuid agent_name false (registry_directory_for uuid)) ;;
  ignore (create_documents_folder uuid) ;;
  mret (uuid, dir).

Definition sign_agent_key (master : Key) (agent_pubkey : string) : string := sign master agent_pubkey.

Definition sign_agent_after_birth (master : Key) (agent_id : string) : HM unit :=
  dir ← agent_dir agent_id;
  let pubkey_path := dir // "external_pubkey.bin" in
  k ← there pubkey_path;
  if negb k then
    fail ("Agent " +:+ agent_id +:+ " has no public key — birth may not have completed keypair generation")
  else
    bytes ← read_text pubkey_path;
    agent_pubkey ← of_result (checked_key bytes);
    io (write_bytes_atomic cwd denied (dir // "signature.sig") (sign_agent_key master agent_pubkey)).

(** [sign_constitutional_documents] of the keyring. *)
Definition constitutional_docs : list string := ["soul.md"; "ethics.md"; "instincts.md"].
Definition signable (doc_name content : string) : string := doc_name +:+ "|Constitutional|" +:+ content.

Definition sign_one (key : Key) (docs : path) (doc_name : string) : HM unit :=
  let doc_path := docs // doc_name in
  e ← there doc_path;
  if negb e then fail ("IO error: Constitutional document not found: " +:+ display doc_path)
  else
    content ← read_text doc_path;
    io (write_bytes_atomic cwd denied (docs // (doc_name +:+ ".sig"))
          (signature_json (sign key (signable doc_name content)))).

Definition sign_constitutional_documents (key : Key) (docs : path) : HM unit :=
  for_each constitutional_docs (sign_one key docs).

(** Encrypted files ([encrypted_storage]). *)
Definition write_encrypted (p : path) (data : string) : HM unit :=
  match parent p with Some up => io (create_dir_all cwd denied up) | None => mret tt end ;;
  sealed ← of_result (seal_file data);
  io (write_bytes_atomic cwd denied p sealed).
Definition read_encrypted (p : path) : HM string :=
  data ← read_text p; of_result (unseal_file data).

(** The pair of keys that is drawn when there is none is that of [drawn]. *)
Definition birth_key (drawn : Key) (dir : path) : HM string :=
  let private_path := dir // "birth_signing_key.vault" in
  let public_path := dir // "external_pubkey.bin" in
  e ← there private_path;
  if (e : bool) then read_encrypted private_path
  else
    k ← there public_path;
    if (k : bool) then
      fail "This Entity's recovery signing key is required to change its constitution."
    else
      io (create_dir_all cwd denied dir) ;;
      io (write_bytes_atomic cwd denied public_path (verifying_key drawn)) ;;
      or_clean (write_encrypted private_path (private_base64 drawn)) (io (remove_file cwd denied public_path)) ;;
      mret (private_base64 drawn).

Definition sign_birth_documents (master drawn : Key) (agent_id : string) : HM path :=
  dir ← agent_dir agent_id;
  let public_path := dir // "external_pubkey.bin" in
  private_key ← birth_key drawn dir;
  key ← of_result (parse_private_key private_key);
  k ← there public_path;
  (if (k : bool) then
     actual ← read_text public_path;
     if decide (actual = verifying_key key) then mret tt
     else fail "Entity signing key does not match its registered public key."
   else io (write_bytes_atomic cwd denied public_path (verifying_key key))) ;;
  sign_constitutional_documents key (dir // "docs") ;;
  sign_agent_after_birth master agent_id ;;
  mret public_path.

Definition sign_payload (master : Key) (payload : string) : string * string :=
  (to_hex (sign master payload), to_hex (verifying_key master)).

Definition verify_payload (master : Key) (payload signature_hex public_key_hex : string) : result unit string :=
  let? public_key := decode_hex public_key_hex in
  if decide (public_key = verifying_key master) then
    let? signature := decode_hex signature_hex in
    if (String.length signature =? 64)%nat then
      if verify (verifying_key master) payload signature then Ok tt
      else Err "Artifact signature verification failed."
    else Err "signature error: Cannot parse signature"
  else Err "Artifact was not issued by this Hive.".

Definition update_agent_name (agent_id new_name : string) : HM unit :=
  g ← gets registry;
  match find_agent agent_id g with
  | None => fail (not_registered agent_id)
  | Some e =>
      if is_hive e then fail "Abigail Hive is immortal and its identity is locked."
      else
        let fix rename_first l :=
          match l with
          | [] => []
          | a :: l => if decide (id a = agent_id) then mkAgent (id a) new_name (is_hive a) (directory a) :: l
                      else a :: rename_first l
          end in
        set_registry (with_agents rename_first g) ;;
        save_registry
  end.

(** *** Recovery *)

Definition audit_failed (e : IoError) : string := "Failed to open crypto audit log: " +:+ io_error_str e.

Definition append_crypto_audit (now action detail : string) : HM unit :=
  on_disk audit_failed (append cwd denied (data_root // "crypto_audit.log")
    (now +:+ " " +:+ action +:+ " " +:+ detail +:+ nl)).

Definition bundle_json (now agent_id : string) (agent_name : option string) (private_key : string) : Value := Obj
  [("format", Str "abigail-recovery-bundle-v1"); ("agent_id", Str agent_id); ("agent_name", json_opt agent_name);
   ("created_at", Str now); ("private_key_base64", Str private_key)].

Definition save_recovery_key (now agent_id private_key : string) : HM string :=
  docs ← create_documents_folder agent_id;
  let file := docs // "RECOVERY_BUNDLE.abigail-recovery" in
  g ← gets registry;
  let content := to_string_pretty (bundle_json now agent_id (name <$> find_agent agent_id g) private_key) in
  wrapping (λ e, "Failed to write encrypted recovery bundle '" +:+ display file +:+ "': " +:+ e)
    (write_encrypted file content) ;;
  append_crypto_audit now "recovery_bundle_saved" ("agent_id=" +:+ agent_id +:+ " path=" +:+ display file) ;;
  mret (display file).

Definition plaintext_key (now agent_id private_key : string) : string :=
  "ABIGAIL RECOVERY KEY" +:+ nl +:+ "====================" +:+ nl +:+ nl +:+
  "This is your Ed25519 Private Signing Key. Keep it secure!" +:+ nl +:+
  "It is used to verify and re-sign your agent's constitutional documents." +:+ nl +:+ nl +:+
  "AGENT ID: " +:+ agent_id +:+ nl +:+ "PRIVATE KEY (Base64): " +:+ private_key +:+ nl +:+ nl +:+
  "Date Saved: " +:+ now +:+ nl.

Definition save_recovery_key_plaintext (now agent_id private_key : string) : HM string :=
  docs ← create_documents_folder agent_id;
  let file := docs // "RECOVERY_KEY.txt" in
  on_disk (λ e, "Failed to write recovery key file: " +:+ io_error_str e)
    (write_bytes_atomic cwd denied file (plaintext_key now agent_id private_key)) ;;
  append_crypto_audit now "recovery_key_plaintext_saved" ("agent_id=" +:+ agent_id +:+ " path=" +:+ display file) ;;
  mret (display file).

(** *** Copies *)

(** [copy_dir_recursive]: no deeper than there are places. *)
Fixpoint copy_dir_from (fuel : nat) (src dst : path) : M Tree IoError unit :=
  match fuel with
  | O => fail TooManyLinks
  | S fuel =>
      create_dir_all cwd denied dst ;;
      entries ← tree_looks (λ t, read_dir cwd denied t src);
      for_each entries (λ e,
        match e.2 with
        | Directory => copy_dir_from fuel (src // e.1) (dst // e.1)
        | _ => copy cwd denied (src // e.1) (dst // e.1)
        end)
  end.
Definition copy_dir_recursive (src dst : path) : M Tree IoError unit := λ t,
  copy_dir_from (S (size t)) src dst t.

(** The paths of a configuration that has moved, and the public key where [keyed]. *)
Definition moved_config (dir : path) (keyed : bool) (c : AppConfig) : AppConfig :=
  with_directories dir (dir // "models") (dir // "docs") shared_memory_db_path
    (if keyed then Some (dir // "external_pubkey.bin") else external_pubkey_path c) c.

(** The public key in the directory, if it is one, is signed by the Hive. *)
Definition resign (master : Key) (dir : path) : HM unit :=
  let pubkey_path := dir // "external_pubkey.bin" in
  e ← there pubkey_path;
  if negb e then mret tt
  else
    bytes ← read_text pubkey_path;
    match checked_key bytes with
    | Ok agent_pubkey => io (write_bytes_atomic cwd denied (dir // "signature.sig") (sign_agent_key master agent_pubkey))
    | Err _ => mret tt
    end.

Definition legacy_files : list string := [
  "config.json"; "keys.bin"; "keys.vault"; "external_pubkey.bin"; "secrets.bin"; "secrets.vault"; "skills.bin";
  "skills.vault"; "vault.sentinel"; "abigail_seed.db"; "abigail_seed.db-wal"; "abigail_seed.db-shm";
  "abigail_memory.db"; "abigail_memory.db-wal"; "abigail_memory.db-shm"; "jobs.db"; "jobs.db-wal"; "jobs.db-shm"].

Definition legacy_copy_failed (file : string) (e : IoError) : string :=
  "Failed to copy legacy file " +:+ file +:+ ": " +:+ io_error_str e.

Definition migrate_legacy_identity (master : Key) (uuid : string) : HM (option string) :=
  let legacy_config := data_root // "config.json" in
  e ← there legacy_config;
  if negb e then mret None
  else
    c ← load_config legacy_config;
    if negb (birth_complete c) then mret None
    else
      let agent_name := default "Legacy Agent" (agent_name c) in
      let dir := identities_dir // uuid in
      io (create_dir_all cwd denied dir) ;;
      for_each legacy_files (λ file,
        e ← there (data_root // file);
        if (e : bool) then on_disk (legacy_copy_failed file) (copy cwd denied (data_root // file) (dir // file))
        else mret tt) ;;
      d ← there (data_root // "docs");
      d' ← there (dir // "docs");
      (if d && negb d' then
         on_disk (λ e, "Failed to copy legacy docs: " +:+ io_error_str e)
           (copy_dir_recursive (data_root // "docs") (dir // "docs"))
       else mret tt) ;;
      e ← there (dir // "config.json");
      (if (e : bool) then
         c ← load_config (dir // "config.json");
         k ← there (data_root // "external_pubkey.bin");
         k' ← there (dir // "external_pubkey.bin");
         save_config (moved_config dir (k && k') c) (dir // "config.json")
       else mret tt) ;;
      resign master dir ;;
      register (mkAgent uuid agent_name false (registry_directory_for uuid)) ;;
      mret (Some uuid).

(** *** Removal and backups *)

(** The entry leaves the registry, which is saved; [what] may not be done to the Hive. *)
Definition unregister (what agent_id : string) : HM (string * path) :=
  e ← entry_of agent_id;
  if is_hive e then fail ("Abigail Hive is immortal and cannot be " +:+ what +:+ ".")
  else
    dir ← of_result (resolve_agent_dir (directory e));
    g ← gets registry;
    set_registry (remove_agent agent_id g) ;;
    save_registry ;;
    mret (name e, dir).

Definition delete_agent (agent_id : string) : HM unit :=
  found ← unregister "deleted" agent_id;
  e ← there found.2;
  if (e : bool) then
    on_disk (λ e, "Failed to delete agent directory: " +:+ io_error_str e) (remove_dir_all cwd denied found.2)
  else mret tt.

Definition safe_backup_char (c : string) : string :=
  if is_alphanumeric c || bool_decide (c = "-") || bool_decide (c = "_") then c else "_".
Definition safe_backup_name (agent_name : string) : string :=
  RustStr.join "" (map safe_backup_char (chars agent_name)).

Definition dir_missing (dir : path) : string := "Agent directory not found: " +:+ display dir.

Definition make_backups_dir : HM unit :=
  on_disk (λ e, "Failed to create backups directory: " +:+ io_error_str e) (create_dir_all cwd denied backups_dir).

(** Best effort. *)
Definition write_metadata (now agent_id agent_name kind : string) (source backup : path) : HM unit :=
  ignore (io (write cwd denied (backup // "backup_metadata.json")
    (to_string_pretty (ser_metadata (mkMetadata agent_id agent_name kind now (display source)))))).

Definition archive_agent (stamp now agent_id : string) : HM string :=
  found ← unregister "archived" agent_id;
  let '(agent_name, dir) := found in
  e ← there dir;
  if negb e then fail (dir_missing dir)
  else
    make_backups_dir ;;
    let backup := backups_dir // (stamp +:+ "_" +:+ safe_backup_name agent_name) in
    on_disk (λ e, "Failed to archive agent directory: " +:+ io_error_str e) (rename cwd denied dir backup) ;;
    write_metadata now agent_id agent_name "archive" dir backup ;;
    mret (display backup).

Definition backup_agent (stamp now agent_id : string) : HM string :=
  e ← entry_of agent_id;
  dir ← of_result (resolve_agent_dir (directory e));
  there_is ← there dir;
  if negb there_is then fail (dir_missing dir)
  else
    make_backups_dir ;;
    let backup := backups_dir // (stamp +:+ "_" +:+ safe_backup_name (name e) +:+ "_backup") in
    on_disk (λ e, "Failed to copy agent directory: " +:+ io_error_str e) (copy_dir_recursive dir backup) ;;
    write_metadata now agent_id (name e) "manual_backup" dir backup ;;
    mret (display backup).

(** What the metadata of a backup says, or else its name ([None]: a panic). *)
Definition backup_labels (dir_name : string) (backup : path) (t : Tree) : option (string * string * string) :=
  match read cwd denied t (backup // "backup_metadata.json") with
  | Err _ => parse_backup_dir_name dir_name
  | Ok json =>
      match (if utf8_valid json then from_str json else Err "") with
      | Err _ => parse_backup_dir_name dir_name
      | Ok v =>
          match de_metadata v with
          | Some m => Some (meta_agent_name m, meta_backup_type m, meta_created_at m)
          | None => parse_backup_dir_name dir_name
          end
      end
  end.

Definition PANIC : string := "panic: byte index is not a char boundary".

Definition backup_info (dir_name : string) : HM (option BackupInfo) :=
  let backup := backups_dir // dir_name in
  d ← gets (λ h, is_dir cwd denied (disk h) backup);
  if negb d then mret None
  else
    labels ← gets (λ h, backup_labels dir_name backup (disk h));
    match labels with
    | None => fail PANIC
    | Some (agent_name, kind, created_at) =>
        born ← birth_of backup;
        seed ← there (backup // "abigail_seed.db");
        memory ← there (backup // "abigail_memory.db");
        signed ← there (backup // "docs" // "soul.md.sig");
        mret (Some (mkBackupInfo dir_name (display backup) agent_name kind created_at born.1 born.2
                      (seed || memory) signed))
    end.

Definition newest_backup_first (a b : BackupInfo) : bool := String.leb (backup_created_at b) (backup_created_at a).

Definition list_backups : HM (list BackupInfo) :=
  e ← there backups_dir;
  if negb e then mret []
  else
    entries ← on_disk (λ e, "Failed to read backups: " +:+ io_error_str e) (tree_looks (λ t, read_dir cwd denied t backups_dir));
    infos ← collect (λ e, backup_info e.1) entries;
    mret (sort_by newest_backup_first (omap (λ i, i) infos)).

(** [backups_dir.join(backup_dir_name)]: the name is a path. *)
Definition backup_path (backup_dir_name : string) : path := path_join backups_dir (components backup_dir_name).

Definition restored_name (backup : path) : HM string :=
  let config := backup // "config.json" in
  e ← there config;
  if negb e then mret "Restored Entity"
  else λ h, match load_config config h with
            | (h, Ok c) => (h, Ok (default "Restored Entity" (agent_name c)))
            | (h, Err _) => (h, Ok "Restored Entity")
            end.

Definition move_or_copy (src dst : path) : HM unit := λ h,
  match io (rename cwd denied src dst) h with
  | (h, Ok _) => (h, Ok tt)
  | (h, Err _) =>
      (on_disk (λ e, "Failed to copy backup to identities: " +:+ io_error_str e) (copy_dir_recursive src dst) ;;
       on_disk (λ e, "Backup copied but failed to remove original: " +:+ io_error_str e) (remove_dir_all cwd denied src)) h
  end.

Definition restore_backup (master : Key) (uuid backup_dir_name : string) : HM string :=
  let backup := backup_path backup_dir_name in
  e ← there backup;
  if negb e then fail ("Backup not found: " +:+ backup_dir_name)
  else
    agent_name ← restored_name backup;
    let dir := identities_dir // uuid in
    move_or_copy backup dir ;;
    e ← there (dir // "config.json");
    (if (e : bool) then
       ignore (c ← load_config (dir // "config.json");
               k ← there (dir // "external_pubkey.bin");
               save_config (moved_config dir k c) (dir // "config.json"))
     else mret tt) ;;
    resign master dir ;;
    ignore (io (remove_file cwd denied (dir // "backup_metadata.json"))) ;;
    register (mkAgent uuid agent_name false (registry_directory_for uuid)) ;;
    ignore (create_documents_folder uuid) ;;
    mret uuid.

Definition delete_backup (backup_dir_name : string) : HM unit :=
  let backup := backup_path backup_dir_name in
  e ← there backup;
  if negb e then fail ("Backup not found: " +:+ backup_dir_name)
  else on_disk (λ e, "Failed to delete backup: " +:+ io_error_str e) (remove_dir_all cwd denied backup).
End manager.
