(* ===== verification/IdentitySpec.v ===== *)
(** * The identity manager: correctness
    The Hive entity cannot be removed; who is loaded has been vouched for; signing and
    verification agree; what a deletion leaves alone; where the manager goes wrong. *)

From S2P Require Import Prelude RustStr Cognitive Router Paths FileTree SkillPolicy Json Config ConfigSpec Identity.
From Stdlib Require Import ZArith Lia Ascii.
From stdpp Require Import base list strings gmap pretty.

Open Scope rust_scope.

(** ** The registry *)

(** The entries of the Hive; each entity in its own directory; one entry for each. *)
Definition hives (g : GlobalConfig) : list AgentEntry := filter (λ e, is_hive e = true) (agents g).
Definition at_home (g : GlobalConfig) : Prop :=
  Forall (λ e, directory e = registry_directory_for (id e)) (agents g).
Definition distinct (g : GlobalConfig) : Prop := NoDup (map id (agents g)).

(** What every operation keeps of the registry. *)
Record guarded (h h' : Hive) : Prop := {
  kept_hives : distinct (registry h) → hives (registry h') = hives (registry h);
  kept_distinct : distinct (registry h) → distinct (registry h');
  kept_home : at_home (registry h) → at_home (registry h');
  kept_theme : default_theme (registry h') = default_theme (registry h);
}.

#[export] Instance guarded_preorder : PreOrder guarded.
Proof.
  split; [split; auto|]. intros h1 h2 h3 [H1 H2 H3 H4] [H1' H2' H3' H4']. split; [|auto..|congruence].
  intros Hd. rewrite H1', H1; auto.
Qed.

Lemma same_registry_guarded h h' : registry h' = registry h → guarded h h'.
Proof. intros Heq. split; by rewrite Heq. Qed.

Lemma register_agent_ok e g g' :
  register_agent e g = Ok g' → is_hive e = false → directory e = registry_directory_for (id e) →
  hives g' = hives g ∧ (distinct g → distinct g') ∧ (at_home g → at_home g') ∧ default_theme g' = default_theme g.
Proof.
  unfold register_agent. destruct (existsb _ _) eqn:He; [done|]. intros [= <-] Hh Hd.
  split_and!; [..|done].
  - unfold hives. simpl. rewrite filter_app, filter_cons_False, app_nil_r by congruence. done.
  - unfold distinct. simpl. intros Hn. rewrite map_app. simpl. apply NoDup_app. split_and!; [done| |apply NoDup_singleton].
    intros i Hi ->%list_elem_of_singleton. apply list_elem_of_fmap in Hi as (a & Ha & Hin).
    apply not_true_iff_false in He. apply He, existsb_exists. exists a.
    split; [by apply list_elem_of_In|by apply bool_decide_true].
  - unfold at_home. simpl. intros Ha. apply Forall_app. split; [done|by constructor].
Qed.

Lemma find_agent_some i g e : find_agent i g = Some e → e ∈ agents g ∧ id e = i.
Proof.
  intros Hf. apply List.find_some in Hf as [Hin Hd]. split; [by apply list_elem_of_In|].
  exact (proj1 (bool_decide_eq_true _) Hd).
Qed.

Lemma remove_agent_ok i g e :
  distinct g → find_agent i g = Some e → is_hive e = false →
  hives (remove_agent i g) = hives g ∧ distinct (remove_agent i g) ∧ (at_home g → at_home (remove_agent i g)).
Proof.
  intros Hdist Hf Hh. apply find_agent_some in Hf as [Hin <-]. split_and!.
  - unfold hives. simpl. unfold distinct in Hdist. induction (agents g) as [|a l IH]; [done|].
    simpl in Hdist. apply NoDup_cons in Hdist as [Hn Hdist]. rewrite filter_cons.
    destruct (decide (id a ≠ id e)) as [Hne|Heq].
    + rewrite !filter_cons. case_decide; rewrite IH; try done; set_solver.
    + apply dec_stable in Heq.
      assert (a = e) as ->.
      { apply elem_of_cons in Hin as [->|Hin]; [done|]. exfalso. apply Hn. rewrite Heq.
        apply list_elem_of_fmap. by exists e. }
      rewrite (filter_cons_False _ e) by congruence. f_equal.
      clear -Hn. induction l as [|b l IH]; [done|]. simpl in Hn. apply not_elem_of_cons in Hn as [Hb Hn].
      rewrite filter_cons_True by congruence. by rewrite IH.
  - unfold distinct in *. simpl. by apply NoDup_map_filter.
  - unfold at_home. simpl. intros Ha. apply Forall_forall. intros b [_ Hb]%list_elem_of_filter.
    by eapply Forall_forall in Ha.
Qed.

Section manager.
Context `{JsonText} (to_string_pretty : Value → string).
Context (cwd : real) (denied : Call → path → bool).
Context (config_fault_str : ConfigFault → string) (path_error_str : PathError → string).
Context {Key : Type} (verifying_key : Key → string) (sign : Key → string → string).
Context (verify : string → string → string → bool) (check_key : string → result unit string).
Context (private_base64 : Key → string) (parse_private_key : string → result Key string).
Context (seal_file unseal_file : string → result string string).
Context (print_key : Key → string) (parse_master : string → result Key string).
Context (signature_json : string → string).
Context (is_alphanumeric : string → bool).
Context (documents_dir : option path) (app_dir : path) (home : option path).
Context (data_root : path).

(** Operations that leave the registry alone. *)
Lemma on_disk_same {A} (wrap : IoError → string) (m : M Tree IoError A) (h h' : Hive) (r : result A string) :
  on_disk wrap m h = (h', r) → registry h' = registry h.
Proof. unfold on_disk. destruct (m (disk h)) as [t o]. by intros [= <- _]. Qed.
Lemma on_disk_guarded {A} (wrap : IoError → string) (m : M Tree IoError A) : respects guarded (on_disk wrap m).
Proof. intros h h' r Hr. by eapply same_registry_guarded, on_disk_same. Qed.
Lemma config_op_guarded {A} (m : M Tree ConfigFault A) : respects guarded (config_op config_fault_str m).
Proof.
  intros h h' r. unfold config_op. destruct (m (disk h)) as [t o]. intros [= <- _]. by apply same_registry_guarded.
Qed.
Lemma save_registry_guarded : respects guarded (save_registry to_string_pretty cwd denied path_error_str data_root).
Proof.
  intros h h' r. unfold save_registry. destruct (write_global _ _ _ _ _ _ _) as [t o]. intros [= <- _].
  by apply same_registry_guarded.
Qed.
Lemma gets_guarded {A} (f : Hive → A) : respects guarded (gets f).
Proof. by intros h h' r [= <- _]. Qed.
Lemma of_result_guarded {A} (r : result A string) : respects guarded (of_result r).
Proof. by intros h h' o [= <- _]. Qed.
Lemma entry_of_guarded i : respects guarded (entry_of i).
Proof. by intros h h' o [= <- _]. Qed.
Lemma ignore_guarded {A} (m : M Hive string A) : respects guarded m → respects guarded (ignore m).
Proof. intros Hm h h' r [= <- _]. destruct (m h) eqn:Hr. by eapply Hm. Qed.
Lemma wrapping_guarded {A} f (m : M Hive string A) : respects guarded m → respects guarded (wrapping f m).
Proof. intros Hm h h' r. unfold wrapping. destruct (m h) eqn:Hr. intros [= <- _]. by eapply Hm. Qed.
Lemma or_clean_guarded m clean : respects guarded m → respects guarded clean → respects guarded (or_clean m clean).
Proof.
  intros Hm Hc h h' r. unfold or_clean. destruct (m h) as [h1 [u|e]] eqn:Hr; intros [= <- _]; [by eapply Hm|].
  etrans; [by eapply Hm|]. destruct (clean h1) eqn:Hr'. by eapply Hc.
Qed.
Lemma collect_guarded {A B} (f : A → M Hive string B) l : (∀ a, respects guarded (f a)) → respects guarded (collect f l).
Proof.
  intros Hf. induction l as [|a l IH]; simpl; [apply respects_ret, _|].
  repeat (apply respects_bind; [apply _|auto|intros ?]). apply respects_ret, _.
Qed.

Ltac keeps_registry := idtac;
  lazymatch goal with
  | |- respects _ (ignore _) => apply ignore_guarded; solve_respects keeps_registry
  | |- respects _ (wrapping _ _) => apply wrapping_guarded; solve_respects keeps_registry
  | |- respects _ (or_clean _ _) => apply or_clean_guarded; solve_respects keeps_registry
  | |- respects _ (collect _ _) => apply collect_guarded; intros ?; solve_respects keeps_registry
  | |- respects _ (on_disk _ _) => apply on_disk_guarded
  | |- respects _ (io _) => apply on_disk_guarded
  | |- respects _ (looks _) => apply on_disk_guarded
  | |- respects _ (read_text _ _ _) => apply on_disk_guarded
  | |- respects _ (make_backups_dir _ _ _) => apply on_disk_guarded
  | |- respects _ (load_config _ _ _ _ _) => apply config_op_guarded
  | |- respects _ (save_config _ _ _ _ _ _) => apply config_op_guarded
  | |- respects _ (save_registry _ _ _ _ _) => apply save_registry_guarded
  | |- respects _ (gets _) => apply gets_guarded
  | |- respects _ (there _ _ _) => apply gets_guarded
  | |- respects _ (of_result _) => apply of_result_guarded
  | |- respects _ (entry_of _) => apply entry_of_guarded
  | |- _ => eauto with identity
  end.
Ltac guards := solve_respects keeps_registry.
Create HintDb identity.

Lemma birth_of_guarded dir : respects guarded (birth_of to_string_pretty cwd denied config_fault_str dir).
Proof.
  unfold birth_of. guards. intros h h' r Hr. destruct (load_config _ _ _ _ _ h) as [h1 [c|e]] eqn:Hl;
    injection Hr as <- _; by eapply config_op_guarded.
Qed.
#[local] Hint Resolve birth_of_guarded : identity.

Lemma register_guarded e :
  is_hive e = false → directory e = registry_directory_for (id e) →
  respects guarded (register to_string_pretty cwd denied path_error_str data_root e).
Proof.
  intros Hh Hd h h' r Hr. unfold register in Hr.
  apply M_bind_inv in Hr as [(h1 & g & [= <- <-] & Hr)|(x & [=] & _)].
  apply M_bind_inv in Hr as [(h1 & g & Hg & Hr)|(x & [= <- _] & _)]; [|done]. injection Hg as <- Hg.
  apply M_bind_inv in Hr as [(h1 & u & [= <- <-] & Hr)|(x & [=] & _)].
  apply save_registry_guarded in Hr. destruct (register_agent_ok _ _ _ Hg Hh Hd) as (H1 & H2 & H3 & H4).
  etrans; [|exact Hr]. split; auto.
Qed.
#[local] Hint Resolve register_guarded : identity.

Lemma unregister_guarded what i :
  respects guarded (unregister to_string_pretty cwd denied path_error_str data_root what i).
Proof.
  intros h h' r Hr. unfold unregister in Hr.
  apply M_bind_inv in Hr as [(h1 & e & He & Hr)|(x & [= <- _] & _)]; [|done].
  injection He as <- He. destruct (find_agent i (registry h)) as [e'|] eqn:Hf; [|done]. injection He as ->.
  destruct (is_hive e) eqn:Hh; [by injection Hr as <- _|].
  apply M_bind_inv in Hr as [(h1 & d & Hd & Hr)|(x & [= <- _] & _)]; [|done]. injection Hd as <- Hd.
  apply M_bind_inv in Hr as [(h1 & g & [= <- <-] & Hr)|(x & [=] & _)].
  apply M_bind_inv in Hr as [(h1 & u & [= <- <-] & Hr)|(x & [=] & _)].
  assert (guarded h (mkHive (disk h) (remove_agent i (registry h)))) as Hg.
  { split; simpl; [..|done].
    - intros Hdist. by destruct (remove_agent_ok i (registry h) e Hdist Hf Hh) as (? & _ & _).
    - intros Hdist. by destruct (remove_agent_ok i (registry h) e Hdist Hf Hh) as (_ & ? & _).
    - unfold at_home. simpl. intros Ha. apply Forall_forall. intros b [_ Hb]%list_elem_of_filter.
      by eapply Forall_forall in Ha. }
  apply M_bind_inv in Hr as [(h1 & u & Hs & Hr)|(x & Hs & _)]; apply save_registry_guarded in Hs.
  - injection Hr as <- _. by etrans.
  - by etrans.
Qed.
#[local] Hint Resolve unregister_guarded : identity.

Lemma create_documents_folder_guarded i :
  respects guarded (create_documents_folder cwd denied is_alphanumeric documents_dir app_dir home data_root i).
Proof. unfold create_documents_folder. guards. Qed.
Lemma verify_agent_guarded master i :
  respects guarded (verify_agent cwd denied path_error_str verifying_key verify check_key data_root master i).
Proof. unfold verify_agent. guards. Qed.
#[local] Hint Resolve create_documents_folder_guarded verify_agent_guarded : identity.

Lemma resign_guarded master dir : respects guarded (resign cwd denied sign check_key master dir).
Proof. unfold resign. guards. Qed.
Lemma agent_dir_guarded i : respects guarded (agent_dir path_error_str data_root i).
Proof. unfold agent_dir. guards. Qed.
Lemma sign_agent_guarded master i :
  respects guarded (sign_agent_after_birth cwd denied path_error_str sign check_key data_root master i).
Proof. unfold sign_agent_after_birth. guards. apply agent_dir_guarded. Qed.
Lemma append_audit_guarded now action detail :
  respects guarded (append_crypto_audit cwd denied data_root now action detail).
Proof. apply on_disk_guarded. Qed.
Lemma write_encrypted_guarded p data : respects guarded (write_encrypted cwd denied seal_file p data).
Proof. unfold write_encrypted. guards. Qed.
Lemma read_encrypted_guarded p : respects guarded (read_encrypted cwd denied unseal_file p).
Proof. unfold read_encrypted. guards. Qed.
#[local] Hint Resolve resign_guarded agent_dir_guarded sign_agent_guarded append_audit_guarded write_encrypted_guarded
  read_encrypted_guarded : identity.

Lemma sign_birth_guarded master drawn i :
  respects guarded (sign_birth_documents cwd denied path_error_str verifying_key sign check_key private_base64
    parse_private_key seal_file unseal_file signature_json data_root master drawn i).
Proof. unfold sign_birth_documents, birth_key, sign_constitutional_documents, sign_one. guards. Qed.

Lemma move_or_copy_guarded src dst : respects guarded (move_or_copy cwd denied src dst).
Proof.
  intros h h' r. unfold move_or_copy. destruct (io _ h) as [h1 [u|e]] eqn:Hr; apply on_disk_guarded in Hr.
  - by intros [= <- _].
  - intros Hr'. etrans; [exact Hr|].
    match type of Hr' with ?m h1 = _ => assert (respects guarded m) as Hm by guards end. by eapply Hm.
Qed.
Lemma restored_name_guarded p : respects guarded (restored_name to_string_pretty cwd denied config_fault_str p).
Proof.
  unfold restored_name. guards. intros h h' r Hr. destruct (load_config _ _ _ _ _ h) as [h1 [c|e]] eqn:Hl;
    injection Hr as <- _; by eapply config_op_guarded.
Qed.
#[local] Hint Resolve move_or_copy_guarded restored_name_guarded : identity.

(** The operations of the manager. *)
Inductive operation : M Hive string unit → Prop :=
| op_list : operation (list_agents to_string_pretty cwd denied config_fault_str path_error_str data_root ;; mret tt)
| op_load master i : operation (load_agent to_string_pretty cwd denied config_fault_str path_error_str verifying_key
    verify check_key is_alphanumeric documents_dir app_dir home data_root master i ;; mret tt)
| op_create uuid n : operation (create_agent to_string_pretty cwd denied config_fault_str path_error_str
    is_alphanumeric documents_dir app_dir home data_root uuid n ;; mret tt)
| op_sign master i : operation (sign_agent_after_birth cwd denied path_error_str sign check_key data_root master i)
| op_birth master drawn i : operation (sign_birth_documents cwd denied path_error_str verifying_key sign check_key
    private_base64 parse_private_key seal_file unseal_file signature_json data_root master drawn i ;; mret tt)
| op_rename i n : operation (update_agent_name to_string_pretty cwd denied path_error_str data_root i n)
| op_recovery now i k : operation (save_recovery_key to_string_pretty cwd denied seal_file is_alphanumeric
    documents_dir app_dir home data_root now i k ;; mret tt)
| op_plaintext now i k : operation (save_recovery_key_plaintext cwd denied is_alphanumeric
    documents_dir app_dir home data_root now i k ;; mret tt)
| op_migrate master uuid : operation (migrate_legacy_identity to_string_pretty cwd denied config_fault_str
    path_error_str sign check_key data_root master uuid ;; mret tt)
| op_delete i : operation (delete_agent to_string_pretty cwd denied path_error_str data_root i)
| op_archive stamp now i : operation (archive_agent to_string_pretty cwd denied path_error_str is_alphanumeric
    data_root stamp now i ;; mret tt)
| op_backup stamp now i : operation (backup_agent to_string_pretty cwd denied path_error_str is_alphanumeric
    data_root stamp now i ;; mret tt)
| op_backups : operation (list_backups to_string_pretty cwd denied config_fault_str data_root ;; mret tt)
| op_restore master uuid n : operation (restore_backup to_string_pretty cwd denied config_fault_str path_error_str
    sign check_key is_alphanumeric documents_dir app_dir home data_root master uuid n ;; mret tt)
| op_delete_backup n : operation (delete_backup cwd denied data_root n).

Lemma update_agent_name_guarded i n :
  respects guarded (update_agent_name to_string_pretty cwd denied path_error_str data_root i n).
Proof.
  intros h h' r Hr. unfold update_agent_name in Hr.
  apply M_bind_inv in Hr as [(h1 & g & [= <- <-] & Hr)|(x & [=] & _)].
  destruct (find_agent i (registry h)) as [e|] eqn:Hf; [|by injection Hr as <- _].
  destruct (is_hive e) eqn:Hh; [by injection Hr as <- _|].
  apply M_bind_inv in Hr as [(h1 & u & [= <- <-] & Hr)|(x & [=] & _)].
  apply save_registry_guarded in Hr. etrans; [|exact Hr].
  set (rename_first := fix rename_first (l : list AgentEntry) : list AgentEntry :=
    match l with
    | [] => []
    | a :: l => if decide (id a = i) then mkAgent (id a) n (is_hive a) (directory a) :: l else a :: rename_first l
    end).
  assert (∀ l, map id (rename_first l) = map id l ∧
    (Forall (λ e, directory e = registry_directory_for (id e)) l → Forall (λ e, directory e = registry_directory_for (id e)) (rename_first l)) ∧
    (List.find (λ a, bool_decide (id a = i)) l = Some e →
     filter (λ e, is_hive e = true) (rename_first l) = filter (λ e, is_hive e = true) l)) as Hren.
  { induction l as [|a l (IH1 & IH2 & IH3)]; [done|]. simpl. destruct (decide (id a = i)) as [Hi|Hi].
    - rewrite (bool_decide_true (id a = i)) by done. split; [done|]. split.
      + intros [Ha Hl]%Forall_cons. by constructor.
      + intros [= ->]. rewrite !filter_cons_False by (simpl; congruence). done.
    - rewrite (bool_decide_false (id a = i)) by done. split; [simpl; by rewrite IH1|]. split.
      + intros [Ha Hl]%Forall_cons. constructor; auto.
      + intros Hl. rewrite !filter_cons. case_decide; by rewrite IH3. }
  destruct (Hren (agents (registry h))) as (H1 & H2 & H3). split; simpl; [..|done].
  - intros _. unfold hives. simpl. by apply H3.
  - unfold distinct. simpl. by rewrite H1.
  - exact H2.
Qed.
#[local] Hint Resolve sign_birth_guarded update_agent_name_guarded : identity.

Lemma operation_guarded m : operation m → respects guarded m.
Proof.
  intros []; unfold list_agents, info_for, load_agent, create_agent, save_recovery_key, save_recovery_key_plaintext,
    migrate_legacy_identity, delete_agent, archive_agent, backup_agent, list_backups, backup_info, restore_backup,
    delete_backup, write_metadata; guards.
Qed.

(** ** The Hive entity *)

Definition run_all (ms : list (M Hive string unit)) (h : Hive) : Hive := foldl (λ h m, (m h).1) h ms.

Lemma run_all_guarded ms h : Forall operation ms → guarded h (run_all ms h).
Proof.
  intros Hall. revert h. induction Hall as [|m ms Hm _ IH]; intros h; [done|]. simpl.
  etrans; [|apply IH]. destruct (m h) eqn:Hr. by eapply operation_guarded.
Qed.

Notation try_load_from_vault := (try_load_from_vault to_string_pretty cwd denied config_fault_str path_error_str
  seal_file unseal_file print_key parse_master data_root).

Lemma ensured_hive hive_id h h' :
  ensure_hive_entity to_string_pretty cwd denied config_fault_str path_error_str data_root hive_id h = (h', Ok tt) →
  hives (registry h') ≠ [].
Proof.
  intros Hr. unfold ensure_hive_entity in Hr.
  apply M_bind_inv in Hr as [(h1 & g & [= <- <-] & Hr)|(x & [=] & _)].
  destruct (existsb is_hive (agents (registry h))) eqn:He.
  - injection Hr as <-. apply existsb_exists in He as (e & Hin & Hh). intros Hn.
    assert (e ∈ hives (registry h)) as Hx by (apply list_elem_of_filter; split; [done|by apply list_elem_of_In]).
    rewrite Hn in Hx. by apply elem_of_nil in Hx.
  - apply M_bind_inv in Hr as [(h1 & u & H1 & Hr)|(x & _ & [=])]. clear H1.
    apply M_bind_inv in Hr as [(h2 & u2 & H1 & Hr)|(x & _ & [=])]. clear H1.
    apply M_bind_inv in Hr as [(h3 & g & H1 & Hr)|(x & _ & [=])]. injection H1 as <- Hg.
    apply M_bind_inv in Hr as [(h4 & u4 & [= <- <-] & Hr)|(x & [=] & _)].
    unfold save_registry in Hr. destruct (write_global _ _ _ _ _ _ _) as [t o]. injection Hr as <- _. simpl.
    unfold register_agent in Hg. destruct (existsb _ _) eqn:Hex in Hg; [discriminate|]. simplify_eq. unfold hives. simpl.
    rewrite filter_app. intros [_ Hn]%app_eq_nil. by rewrite filter_cons_True in Hn.
Qed.

(** C20: once the manager has started there is an entry of the Hive in the registry, and
    no sequence of operations, whatever they are given and however they fail, removes it,
    renames it, moves it, or adds another; entries stay distinct, and each new entry has
    the directory of its own identifier. *)
Theorem hive_entity_is_immortal drawn hive_id h0 h key ms :
  try_load_from_vault drawn hive_id h0 = (h, Ok key) → distinct (registry h) → Forall operation ms →
  let h' := run_all ms h in
  hives (registry h') ≠ [] ∧ hives (registry h') = hives (registry h) ∧ distinct (registry h') ∧
  (at_home (registry h) → at_home (registry h')).
Proof.
  intros Hload Hd Hms. cbv zeta. destruct (run_all_guarded ms h Hms) as [Hh Hdist Hhome _].
  rewrite Hh by done. split; [|auto]. unfold Identity.try_load_from_vault in Hload.
  do 5 (apply M_bind_inv in Hload as [(? & ? & _ & Hload)|(? & _ & [=])]).
  apply M_bind_inv in Hload as [(? & ? & _ & Hload)|(? & _ & [=])].
  apply M_bind_inv in Hload as [(h' & [] & Hens & Hload)|(? & _ & [=])].
  injection Hload as <- _. by eapply ensured_hive.
Qed.

(** ** Who is loaded *)

Lemma agent_dir_shape d p :
  resolve_agent_dir path_error_str data_root d = Ok p →
  ∃ x, p = path_join data_root [Normal "identities"; Normal x].
Proof.
  unfold resolve_agent_dir, normalize_agent_directory.
  destruct (ensure_relative_no_traversal (normalize_path d)); [|done]. simpl.
  destruct (normalize_path d) as [|[| | |x] [|[| | |y] [|z rest]]]; try done. case_decide; [subst|done]. simpl.
  unfold resolve_within_root. destruct (ensure_relative_no_traversal _); [|done]. simpl.
  destruct (ensure_path_within_root _ _); [|done]. intros [= <-]. by exists y.
Qed.

Lemma verify_agent_inv master i h h' :
  verify_agent cwd denied path_error_str verifying_key verify check_key data_root master i h = (h', Ok tt) →
  h' = h ∧ ∃ e dir key sig, find_agent i (registry h) = Some e ∧ resolve_agent_dir path_error_str data_root (directory e) = Ok dir ∧
    read cwd denied (disk h) (dir // "external_pubkey.bin") = Ok key ∧
    read cwd denied (disk h) (dir // "signature.sig") = Ok sig ∧
    String.length key = 32 ∧ check_key key = Ok tt ∧ verify (verifying_key master) key sig = true.
Proof.
  intros Hr. unfold verify_agent in Hr.
  apply M_bind_inv in Hr as [(h1 & e & He & Hr)|(x & _ & [=])]. injection He as <- He.
  destruct (find_agent i (registry h)) as [e'|] eqn:Hf; [|done]. injection He as ->.
  apply M_bind_inv in Hr as [(h1 & dir & Hdir & Hr)|(x & _ & [=])]. injection Hdir as <- Hdir.
  apply M_bind_inv in Hr as [(h1 & k & [= <- <-] & Hr)|(x & [=] & _)].
  destruct (path_exists _ _ _ _); [|done].
  apply M_bind_inv in Hr as [(h1 & bytes & Hb & Hr)|(x & _ & [=])].
  unfold read_text, looks, io, on_disk, tree_looks in Hb. injection Hb as <- Hb.
  destruct (read cwd denied (disk h) (dir // "external_pubkey.bin")) as [bytes'|] eqn:Hread; [|done]. injection Hb as ->.
  apply M_bind_inv in Hr as [(h1 & key & Hk & Hr)|(x & _ & [=])]. injection Hk as <- Hk. simpl in Hr.
  unfold checked_key in Hk. destruct (Nat.eqb_spec (String.length bytes) 32) as [Hlen|]; [|done].
  destruct (check_key bytes) as [[]|] eqn:Hck; [|done]. injection Hk as <-.
  apply M_bind_inv in Hr as [(h1 & k & [= <- <-] & Hr)|(x & [=] & _)].
  destruct (path_exists _ _ _ _); [|done].
  apply M_bind_inv in Hr as [(h1 & sig & Hs & Hr)|(x & _ & [=])].
  unfold read_text, looks, io, on_disk, tree_looks in Hs. injection Hs as <- Hs. simpl in Hs.
  destruct (read cwd denied (disk h) (dir // "signature.sig")) as [sig'|] eqn:Hsig; [|done]. injection Hs as ->.
  destruct (verify _ _ _) eqn:Hv; [|done]. injection Hr as <-. split; [by destruct h|].
  exists e, dir, bytes, sig. done.
Qed.

(** C21: an entity that is loaded as born, and not as the Hive, has in its directory below
    the data root a public key and a signature of that key that verifies under the master
    key of this Hive. *)
Theorem loaded_agent_is_vouched_for master i h h' c :
  load_agent to_string_pretty cwd denied config_fault_str path_error_str verifying_key verify check_key
    is_alphanumeric documents_dir app_dir home data_root master i h = (h', Ok c) →
  birth_complete c = true → Config.is_hive c = false →
  ∃ e dir x t key sig, find_agent i (registry h) = Some e ∧
    resolve_agent_dir path_error_str data_root (directory e) = Ok dir ∧
    dir = path_join data_root [Normal "identities"; Normal x] ∧
    load to_string_pretty cwd denied (dir // "config.json") (disk h) = (t, Ok c) ∧
    read cwd denied t (dir // "external_pubkey.bin") = Ok key ∧ String.length key = 32 ∧
    read cwd denied t (dir // "signature.sig") = Ok sig ∧ verify (verifying_key master) key sig = true.
Proof.
  intros Hr Hb Hh. unfold load_agent in Hr.
  apply M_bind_inv in Hr as [(h1 & e & He & Hr)|(x & _ & [=])]. injection He as <- He.
  destruct (find_agent i (registry h)) as [e'|] eqn:Hf; [|done]. injection He as ->.
  apply M_bind_inv in Hr as [(h1 & dir & Hdir & Hr)|(x & _ & [=])]. injection Hdir as <- Hdir.
  apply M_bind_inv in Hr as [(h1 & k & [= <- <-] & Hr)|(x & [=] & _)].
  destruct (path_exists _ _ _ _); [|done].
  apply M_bind_inv in Hr as [(h1 & c' & Hc & Hr)|(x & _ & [=])].
  unfold load_config, config_op in Hc. destruct (load _ _ _ _ _) as [t [c0|]] eqn:Hload; [|done].
  injection Hc as <- <-.
  apply M_bind_inv in Hr as [(h2 & u & Hv & Hr)|(x & _ & [=])].
  assert (c0 = c) as ->.
  { apply M_bind_inv in Hr as [(h3 & u3 & _ & Hr)|(x & _ & [=])]. by injection Hr as _ <-. }
  rewrite Hb, Hh in Hv. destruct u. apply verify_agent_inv in Hv as (_ & e2 & dir2 & key & sig & Hf2 & Hd2 & H1 & H2 & H3 & _ & H5).
  simpl in Hf2, H1, H2. rewrite Hf in Hf2. injection Hf2 as <-. rewrite Hdir in Hd2. injection Hd2 as <-.
  destruct (agent_dir_shape _ _ Hdir) as [x Hx]. exists e, dir, x, t, key, sig. done.
Qed.

(** ** Signing and verifying *)

Lemma read_looked t p content : read cwd denied t p = Ok content → denied FileTree.Lookup p = false → path_exists cwd denied t p = true.
Proof.
  unfold read, path_exists, lookup_path. intros Hr ->. destruct (denied ReadData p); [done|].
  by destruct (resolve _ _ _ _).
Qed.

Lemma read_lookup t p content :
  read cwd denied t p = Ok content → denied FileTree.Lookup p = false →
  ∃ r, lookup_path cwd denied t p = Ok r ∧ node_at t r = Some (File content).
Proof.
  unfold read, lookup_path. intros Hr ->. destruct (denied ReadData p); [done|].
  destruct (resolve _ _ _ _) as [r|]; [|done]. exists r. simpl in Hr. split; [done|].
  destruct (node_at t r) as [[| |]|]; by simplify_eq.
Qed.

Lemma lookup_read t p r content :
  lookup_path cwd denied t p = Ok r → node_at t r = Some (File content) → denied ReadData p = false →
  read cwd denied t p = Ok content.
Proof.
  unfold read, lookup_path. intros Hl Hn ->. destruct (denied FileTree.Lookup p); [done|]. rewrite Hl. simpl. by rewrite Hn.
Qed.

(** After an entity's key has been signed it verifies: what the signing wrote is what
    the verification reads, the key it signed is the key that is read, and the registry is
    as it was; on a disk without symbolic links that denies neither. *)
Theorem signed_agent_verifies master i h h' :
  (∀ k m, verify (verifying_key k) m (sign k m) = true) →
  well_formed (disk h) → node_at (disk h) cwd = Some Directory → no_links (disk h) →
  (∀ p, denied FileTree.Lookup p = false ∧ denied ReadData p = false) →
  sign_agent_after_birth cwd denied path_error_str sign check_key data_root master i h = (h', Ok tt) →
  verify_agent cwd denied path_error_str verifying_key verify check_key data_root master i h' = (h', Ok tt) ∧
  registry h' = registry h.
Proof.
  intros Hsig Hwf Hcwd Hnl Hden Hr. unfold sign_agent_after_birth in Hr.
  apply M_bind_inv in Hr as [(h1 & dir & Hdir & Hr)|(x & _ & [=])]. unfold agent_dir in Hdir.
  apply M_bind_inv in Hdir as [(h2 & e & He & Hdir)|(x & _ & [=])]. injection He as <- He. injection Hdir as <- Hdir.
  apply M_bind_inv in Hr as [(h1 & k & [= <- <-] & Hr)|(x & [=] & _)].
  destruct (path_exists _ _ _ _); [|done]. simpl in Hr.
  apply M_bind_inv in Hr as [(h1 & bytes & Hb & Hr)|(x & _ & [=])].
  unfold read_text, looks, io, on_disk, tree_looks in Hb. injection Hb as <- Hb.
  destruct (read cwd denied (disk h) (dir // "external_pubkey.bin")) as [bytes'|] eqn:Hread; [|done]. injection Hb as ->.
  apply M_bind_inv in Hr as [(h1 & key & Hk & Hr)|(x & _ & [=])]. injection Hk as <- Hk.
  unfold io, on_disk in Hr. destruct h as [t g]. simpl in *.
  destruct (write_bytes_atomic _ _ _ _ _) as [t' [[]|]] eqn:Hw; [|done]. injection Hr as <-. split; [|done].
  destruct (read_lookup _ _ _ Hread (proj1 (Hden _))) as (r & Hl & Hn).
  destruct (lookup_other cwd denied _ _ _ _ (dir // "external_pubkey.bin") Hw Hwf Hcwd Hnl) with (r := r) as [Hl' Hn'].
  { intros n. rewrite !last_join. by intros [= <-]. }
  { exists "external_pubkey.bin". apply last_join. }
  { done. }
  rewrite Hn in Hn'. pose proof (lookup_read _ _ _ _ Hl' Hn' (proj2 (Hden _))) as Hread'.
  apply read_written in Hw; [|by intros q n target Hq; apply Hnl in Hq|apply Hden].
  unfold verify_agent. rewrite M_bind_eq. unfold entry_of. simpl. rewrite He.
  rewrite M_bind_eq. unfold of_result. rewrite Hdir. rewrite M_bind_eq. unfold there, gets. simpl.
  rewrite (read_looked _ _ _ Hread' (proj1 (Hden _))). simpl.
  rewrite M_bind_eq. unfold read_text, looks, io, on_disk, tree_looks. simpl. rewrite Hread'. simpl.
  rewrite M_bind_eq, Hk. rewrite M_bind_eq. simpl. rewrite (read_looked _ _ _ Hw (proj1 (Hden _))). simpl.
  rewrite M_bind_eq. simpl. rewrite Hw. simpl. unfold sign_agent_key. by rewrite Hsig.
Qed.

End manager.

(** *** Hexadecimal *)

Lemma hex_byte_digits b : hex_byte (hex_digit (N_of_ascii b / 16)) (hex_digit (N_of_ascii b mod 16)) = Some b.
Proof. destruct b as [[] [] [] [] [] [] [] []]; vm_compute; reflexivity. Qed.
Lemma hex_digit_ascii b :
  ((N_of_ascii (hex_digit (N_of_ascii b / 16)) <? 128) && (N_of_ascii (hex_digit (N_of_ascii b mod 16)) <? 128))%N = true.
Proof. destruct b as [[] [] [] [] [] [] [] []]; vm_compute; reflexivity. Qed.

Lemma to_hex_shape s : is_ascii (to_hex s) = true ∧ String.length (to_hex s) = 2 * String.length s.
Proof.
  induction s as [|b s [IH1 IH2]]; [done|]. cbn [to_hex is_ascii String.length]. pose proof (hex_digit_ascii b) as Hb.
  apply andb_prop in Hb as [-> ->]. rewrite IH1, IH2. split; [done|lia].
Qed.

(** Bytes are written in hexadecimal and read back. *)
Lemma decode_to_hex s : decode_hex (to_hex s) = Ok s.
Proof.
  unfold decode_hex. destruct (to_hex_shape s) as [-> ->]. rewrite Nat.even_mul. simpl.
  induction s as [|b s IH]; [done|]. cbn [to_hex decode_pairs]. by rewrite hex_byte_digits, IH.
Qed.

(** What the Hive signs it accepts, and it accepts nothing but a payload with its own
    key and a signature of 64 bytes that verifies under it, both in hexadecimal. *)
Theorem payload_accepted_iff {Key} (verifying_key : Key → string) sign verify master payload sig key :
  (∀ k m, verify (verifying_key k) m (sign k m) = true ∧ String.length (sign k m) = 64) →
  verify_payload verifying_key verify master payload (sign_payload verifying_key sign master payload).1
    (sign_payload verifying_key sign master payload).2 = Ok tt ∧
  (verify_payload verifying_key verify master payload sig key = Ok tt ↔
   decode_hex key = Ok (verifying_key master) ∧
   ∃ s, decode_hex sig = Ok s ∧ String.length s = 64 ∧ verify (verifying_key master) payload s = true).
Proof.
  intros Hsig.
  assert (∀ sig key, verify_payload verifying_key verify master payload sig key = Ok tt ↔
   decode_hex key = Ok (verifying_key master) ∧
   ∃ s, decode_hex sig = Ok s ∧ String.length s = 64 ∧ verify (verifying_key master) payload s = true) as Hiff.
  { clear sig key. intros sig key. unfold verify_payload. destruct (decode_hex key) as [k|]; simpl; [|naive_solver].
    case_decide; [subst|naive_solver]. destruct (decode_hex sig) as [s|]; simpl; [|naive_solver].
    destruct (Nat.eqb_spec (String.length s) 64); [|naive_solver].
    destruct (verify _ payload s) eqn:Hv; [|split; [done|intros (_ & s' & [= <-] & _ & Hv'); congruence]]. split; [|done]. intros _. split; [done|]. by exists s. }
  split; [|apply Hiff]. apply Hiff. unfold sign_payload. simpl. rewrite !decode_to_hex. split; [done|].
  exists (sign master payload). destruct (Hsig master payload). done.
Qed.

(** *** The names of backups *)

Fixpoint digits (s : string) : bool := match s with EmptyString => true | String c s => is_ascii_digit c && digits s end.

Lemma digit_plain c : is_ascii_digit c = true → is_continuation c = false ∧ c ≠ "_"%char.
Proof. destruct c as [[] [] [] [] [] [] [] []]; vm_compute; done. Qed.

Lemma split_once_digits s rest : digits s = true → split_once (s +:+ "_" +:+ rest) "_" = Some (s, rest).
Proof.
  induction s as [|c s IH].
  { intros _. simpl. by destruct rest. }
  cbn [digits]. intros [Hc Hs]%andb_prop. destruct (digit_plain c Hc) as [_ Hu].
  rewrite str_app_cons. simpl. rewrite (decide_False (P := "_"%char = c)) by congruence. by rewrite (IH Hs).
Qed.

(** The stamp of a backup as a time. *)
Definition stamp_time (date time : string) : string :=
  str_take 4 date +:+ "-" +:+ str_take 2 (str_drop 4 date) +:+ "-" +:+ str_drop 6 date +:+ "T" +:+
  str_take 2 time +:+ ":" +:+ str_take 2 (str_drop 2 time) +:+ ":" +:+ str_drop 4 time +:+ "Z".

Lemma created_of_digits date time :
  digits date = true → digits time = true → String.length date = 8 → String.length time = 6 →
  created_of date time = Some (stamp_time date time).
Proof.
  intros Hd Ht Hld Hlt. unfold created_of. rewrite Hld, Hlt. simpl.
  do 8 (destruct date as [|? date]; [done|]). destruct date; [|done].
  do 6 (destruct time as [|? time]; [done|]). destruct time; [|done].
  simpl in Hd, Ht. rewrite !andb_true_r in *. repeat rewrite andb_true_iff in *.
  destruct_and!. unfold slice, slice_to. simpl.
  repeat match goal with H : is_ascii_digit ?c = true |- _ => rewrite ?(proj1 (digit_plain c H)); clear H; simpl end.
  done.
Qed.

Lemma trim_end_once fuel s :
  ends_with s "_backup" = false → trim_end_string (S fuel) "_backup" (s +:+ "_backup") = s.
Proof.
  intros Hs. cbn [trim_end_string]. rewrite (proj2 (strip_suffix_Some (s +:+ "_backup") "_backup" s)) by done.
  destruct fuel; [done|]. simpl. unfold RustStr.strip_suffix. by rewrite Hs.
Qed.

(** The name of a backup tells what it was made from: for a stamp of eight and six
    digits and an entity whose name does not itself end in [_backup], an archive and a
    manual backup are read back as such, with the name and the time. *)
Theorem backup_names_are_read date time n :
  digits date = true → digits time = true → String.length date = 8 → String.length time = 6 →
  ends_with n "_backup" = false →
  parse_backup_dir_name ((date +:+ "_" +:+ time) +:+ "_" +:+ n) = Some (n, "archive", stamp_time date time) ∧
  parse_backup_dir_name ((date +:+ "_" +:+ time) +:+ "_" +:+ n +:+ "_backup") =
    Some (n, "manual_backup", stamp_time date time).
Proof.
  intros Hd Ht Hld Hlt Hn. unfold parse_backup_dir_name, three_parts.
  rewrite <- !str_app_assoc, !split_once_digits by done. rewrite created_of_digits by done. simpl.
  rewrite Hn. split; [done|]. rewrite (proj2 (ends_with_iff _ _)) by (by exists n).
  do 2 f_equal. f_equal. replace (String.length (n +:+ "_backup")) with (S (String.length n + 6)); [by apply trim_end_once|].
  rewrite str_length_app. simpl. lia.
Qed.

(** ** Runs of the manager *)

Module IdentityDemo.

(** Every text is read as [v]. *)
Definition reads_as (v : Value) : JsonText := {| from_str _ := Ok v; to_string _ := "" |}.

Definition permit (c : Call) (p : path) : bool := false.
Definition data_root : path := [RootDir; Normal "d"].
Definition config_text (hive : bool) : Value := Obj
  [("schema_version", ser_int 27); ("data_dir", Str "/d"); ("models_dir", Str "/m"); ("docs_dir", Str "/o");
   ("db_path", Str "/b"); ("birth_complete", Bool true); ("is_hive", Bool hive)].

Definition key : string := "0123456789abcdef0123456789abcdef".
Definition entry (i : string) : AgentEntry := mkAgent i "X" false [Normal "identities"; Normal i].
Definition started : GlobalConfig :=
  mkGlobal (data_root // "master.key") [hive_entry "h"; entry "x"] None "modern".

(** The entity [x] with a key and, where [signed], its signature, which repeats the key. *)
Definition disk_of (signed : bool) : Tree :=
  (if signed then <[["d"; "identities"; "x"; "signature.sig"] := File key]> else λ t, t)
  (list_to_map [(["d"], Directory); (["d"; "identities"], Directory); (["d"; "identities"; "x"], Directory);
    (["d"; "identities"; "x"; "config.json"], File "{}"); (["d"; "identities"; "x"; "external_pubkey.bin"], File key)]).

Section runs.
Context (v : Value).
#[local] Instance text : JsonText := reads_as v.

Definition start (i : string) : M Hive string unit :=
  try_load_from_vault (λ _, "") [] permit (λ _, "config") (λ _, "path") Ok Ok (λ _ : unit, "k") (λ _, Ok tt) data_root tt i.
Definition load_x : M Hive string AppConfig :=
  load_agent (λ _, "") [] permit (λ _, "config") (λ _, "path") (λ _ : unit, key) (λ _ m s, bool_decide (m = s)) (λ _, Ok tt)
    (λ _, true) None [] None data_root tt "x".
Definition delete_named (n : string) : M Hive string unit := delete_backup [] permit data_root n.
Definition delete_x : M Hive string unit := delete_agent (λ _, "") [] permit (λ _, "path") data_root "x".
Definition archive_x : M Hive string string :=
  archive_agent (λ _, "") [] permit (λ _, "path") (λ _, true) data_root "20260101_000000" "" "x".
End runs.

Definition is_started : Hive := (start Null "h" (mkHive ∅ started)).1.

Lemma hive_entity_is_immortal_witness :
  let h' := run_all [delete_x] is_started in hives (registry h') = [hive_entry "h"] ∧ at_home (registry h').
Proof.
  assert (start Null "h" (mkHive ∅ started) = (is_started, Ok tt)) as Hs by (vm_compute; reflexivity).
  destruct (hive_entity_is_immortal (H := reads_as Null) (λ _, "") [] permit (λ _, "config") (λ _, "path")
    (λ _ : unit, "") (λ _ _, "") (λ _ _ _, true) (λ _, Ok tt) (λ _, "") (λ _, Ok tt) Ok Ok (λ _ : unit, "k") (λ _, Ok tt)
    (λ _, "") (λ _, true) None [] None data_root tt "h" (mkHive ∅ started) is_started tt [delete_x] Hs)
    as (_ & H2 & _ & H4).
  - vm_compute. apply NoDup_singleton.
  - constructor; [apply op_delete|constructor].
  - split; [rewrite H2; reflexivity|]. apply H4. vm_compute. repeat constructor.
Defined.

Definition with_x (signed : bool) : Hive := mkHive (disk_of signed) started.

(** The configuration of [x] as it is loaded. *)
Definition loaded_x (hive : bool) : option AppConfig :=
  match (load_x (config_text hive) (with_x true)).2 with Ok c => Some c | Err _ => None end.

Lemma loaded_agent_is_vouched_for_witness :
  ∃ c, loaded_x false = Some c ∧ birth_complete c = true ∧
  ∃ t pub sig, read [] permit t (data_root // "identities" // "x" // "external_pubkey.bin") = Ok pub ∧
    read [] permit t (data_root // "identities" // "x" // "signature.sig") = Ok sig ∧ pub = sig.
Proof.
  destruct (load_x (config_text false) (with_x true)) as [h' [c|e]] eqn:Hrun; [|exfalso; vm_compute in Hrun; discriminate].
  assert (birth_complete c = true ∧ Config.is_hive c = false) as [Hb Hh] by (vm_compute in Hrun; by simplify_eq).
  exists c. unfold loaded_x. rewrite Hrun. split; [done|]. split; [done|].
  destruct (loaded_agent_is_vouched_for (H := reads_as (config_text false)) (λ _, "") [] permit (λ _, "config") (λ _, "path")
    (λ _ : unit, key) (λ _ m s, bool_decide (m = s)) (λ _, Ok tt) (λ _, true) None [] None data_root tt "x" (with_x true) h' c
    Hrun Hb Hh) as (e & dir & x & t & pub & sig & Hf & Hdir & _ & _ & Hp & _ & Hs & Hv).
  vm_compute in Hf. injection Hf as <-. vm_compute in Hdir. injection Hdir as <-.
  exists t, pub, sig. split; [exact Hp|]. split; [exact Hs|]. exact (proj1 (bool_decide_eq_true _) Hv).
Defined.

Lemma signed_agent_verifies_witness :
  ∃ h', sign_agent_after_birth [] permit (λ _, "path") (λ (_ : unit) m, m) (λ _, Ok tt) data_root tt "x" (with_x false) = (h', Ok tt) ∧
    verify_agent [] permit (λ _, "path") (λ _ : unit, key) (λ _ m s, bool_decide (m = s)) (λ _, Ok tt) data_root tt "x" h' = (h', Ok tt).
Proof.
  eexists. split; [vm_compute; reflexivity|].
  eapply (signed_agent_verifies [] permit (λ _, "path") (λ _ : unit, key) (λ _ m, m) (λ _ m s, bool_decide (m = s)) (λ _, Ok tt)
    data_root tt "x" (with_x false)); [| | | | |vm_compute; reflexivity].
  - intros _ m. by apply bool_decide_true.
  - apply well_formed_b_ok. vm_compute. reflexivity.
  - reflexivity.
  - intros r target. apply no_links_b_ok. vm_compute. reflexivity.
  - done.
Defined.

Lemma payload_accepted_iff_witness :
  let sig := "0123456789abcdef0123456789abcdef0123456789abcdef0123456789abcdef" in
  verify_payload (λ _ : unit, key) (λ _ _ _, true) tt "certificate" (to_hex sig) (to_hex key) = Ok tt.
Proof.
  apply (payload_accepted_iff (λ _ : unit, key) (λ _ _, "0123456789abcdef0123456789abcdef0123456789abcdef0123456789abcdef") (λ _ _ _, true) tt "certificate" "" "").
  intros [] m. done.
Defined.

Lemma backup_names_are_read_witness :
  parse_backup_dir_name "20260102_030405_Orion_backup" = Some ("Orion", "manual_backup", "2026-01-02T03:04:05Z").
Proof. apply (backup_names_are_read "20260102" "030405" "Orion"); reflexivity. Defined.

(** An archive of an entity whose name ends in [_backup] is listed as a manual backup
    under a shorter name. *)
Theorem archive_read_as_backup :
  parse_backup_dir_name "20260102_030405_my_backup" = Some ("my", "manual_backup", "2026-01-02T03:04:05Z").
Proof. done. Qed.

(** A directory of the backups whose name has a character of two bytes across a slice
    makes the listing panic. *)
Theorem backup_name_panics : parse_backup_dir_name ("202é102_030405_Orion") = None.
Proof. done. Qed.

(** The configuration in the entity's own directory says whether it is the Hive: then
    nothing is verified, though the registry says that it is not. *)
Theorem hive_flag_skips_verification :
  (∃ e, find_agent "x" started = Some e ∧ is_hive e = false) ∧
  (load_x (config_text false) (with_x false)).2 =
    Err ("Agent x has no Hive signature at /d/identities/x/signature.sig") ∧
  is_ok (load_x (config_text true) (with_x false)).2 = true.
Proof. split; [by eexists|]. by vm_compute. Qed.

(** The name of a backup to delete is a path: it leads to a registered entity. *)
Theorem delete_backup_escapes :
  let t := <[["d"; "backups"] := Directory]> (disk_of true) in
  let h' := (delete_named "../identities/x" (mkHive t started)).1 in
  is_ok (delete_named "../identities/x" (mkHive t started)).2 = true ∧
  disk h' !! ["d"; "identities"; "x"] = None ∧ find_agent "x" (registry h') = Some (entry "x").
Proof. by vm_compute. Qed.

(** An archive whose move fails has already forgotten the entity. *)
Theorem failed_archive_forgets :
  let t := <[["d"; "backups"; "20260101_000000_X"; "docs"] := Directory]>
           (<[["d"; "backups"; "20260101_000000_X"] := Directory]> (<[["d"; "backups"] := Directory]> (disk_of true))) in
  let h' := (archive_x (mkHive t started)).1 in
  is_ok (archive_x (mkHive t started)).2 = false ∧ find_agent "x" (registry h') = None ∧
  disk h' !! ["d"; "identities"; "x"] = Some Directory.
Proof. by vm_compute. Qed.
End IdentityDemo.
