(* ===== verification/HostSkills.v ===== *)
(** * The skills over the network, a database and the desktop
    ([skills/skill-http], [skill-database], [skill-clipboard], [skill-notification])

    The HTTP client, the database engine, the clipboard and the notification
    service are parameters. *)

From S2P Require Import Prelude RustStr Paths FileTree UrlSecurity Json SkillPolicy SkillExecutor Chat SkillKit FilesystemSkill.
From Stdlib Require Import ZArith Lia Ascii.
From stdpp Require Import base list strings gmap pretty.

Open Scope rust_scope.

Module Http.

Definition MAX_RESPONSE_BYTES : nat := 1048576.
Definition BLOCKED_HOSTS : list string := ["metadata.google.internal"; "metadata.google.com"; "169.254.169.254"].

Record HttpRequest : Type := mkRequest {
  request_method : string;
  request_url : string;
  request_headers : list (string * string);
  request_body : option string;
}.

(** The body as decoded; [body_length] counts the bytes that were received. *)
Record HttpResponse : Type := mkResponse {
  status : Z;
  status_text : string;
  response_headers : list (string * string);
  response_body : string;
}.

Section http.
Context (parse : string → result Url string) (ipv6_to_string : list Z → string).
Context (from_utf8_lossy : string → string) (send : HttpRequest → result HttpResponse string).
Context (allow_local_network : bool).

Definition is_private_ip (addr : Host) : bool :=
  match addr with
  | Ipv4 a b c d =>
      if (a =? 127)%Z then true
      else if (a =? 10)%Z then true
      else if (a =? 172)%Z && in_range 16 31 b then true
      else if (a =? 192)%Z && (b =? 168)%Z then true
      else if (a =? 169)%Z && (b =? 254)%Z then true
      else if (a =? 0)%Z then true
      else false
  | Ipv6 segments =>
      bool_decide (segments = [0; 0; 0; 0; 0; 0; 0; 1])%Z || bool_decide (segments = [0; 0; 0; 0; 0; 0; 0; 0])%Z
      || (Z.land (segment0 segments) 0xfe00 =? 0xfc00)%Z || (Z.land (segment0 segments) 0xffc0 =? 0xfe80)%Z
  | Domain _ => false
  end.

Definition blocked_ip (ip : string) : string := "Private/internal IP '" +:+ ip +:+ "' is blocked (SSRF protection)".

Definition validate_url (url_str : string) : result Url string :=
  let? url := map_err (λ e, "Invalid URL: " +:+ e) (parse url_str) in
  if negb (bool_decide (scheme url = "http")) && negb (bool_decide (scheme url = "https"))
  then Err ("Only http/https allowed, got: " +:+ scheme url)
  else
    let? h := ok_or (host_str url) "URL must have a host" in
    if existsb (λ blocked, bool_decide (to_lowercase h = blocked)) BLOCKED_HOSTS
    then Err ("Host '" +:+ h +:+ "' is blocked (SSRF protection)")
    else if allow_local_network then Ok url
    else match host url with
    | Some (Ipv4 a b c d) =>
        if is_private_ip (Ipv4 a b c d) then Err (blocked_ip (ipv4_to_string a b c d)) else Ok url
    | Some (Ipv6 segments) =>
        if is_private_ip (Ipv6 segments) then Err (blocked_ip (ipv6_to_string segments)) else Ok url
    | Some (Domain d) =>
        let d_lower := to_lowercase d in
        if bool_decide (d_lower = "localhost") || bool_decide (d_lower = "0.0.0.0")
           || ends_with d_lower ".local" || ends_with d_lower ".internal"
        then Err ("Local/internal domain '" +:+ d +:+ "' is blocked (SSRF protection)")
        else Ok url
    | None => Err "URL must have a host"
    end.

(** [&body[..2000]] panics inside a character. *)
Definition formatted_body (r : HttpResponse) (body : string) : option string :=
  if (200 <=? status r)%Z && (status r <? 300)%Z then
    if (2000 <? String.length body)%nat then
      match slice_to 2000 body with
      | Some head =>
          Some (pretty (status r) +:+ " (" +:+ status_text r +:+ ")" +:+ nl +:+ head +:+ "..." +:+ nl +:+
                "[truncated at 2000 chars, full body in 'body' field]")
      | None => None
      end
    else Some body
  else Some ("HTTP " +:+ pretty (status r) +:+ " " +:+ status_text r +:+ nl +:+ body).

Definition execute_request (request : HttpRequest) : M (list HttpRequest) Fault ToolOutput := λ sent,
  (sent ++ [request],
   match send request with
   | Err e => Err (Failed (ToolFailed ("Request failed: " +:+ e)))
   | Ok r =>
       let truncated := (MAX_RESPONSE_BYTES <? String.length (response_body r))%nat in
       let body := from_utf8_lossy
         (if truncated then str_take MAX_RESPONSE_BYTES (response_body r) else response_body r) in
       match formatted_body r body with
       | None => Err Panicked
       | Some formatted =>
           Ok (tool_success (Obj
             [("formatted", Str formatted); ("status", Num (PosInt (status r)));
              ("status_text", Str (status_text r)); ("body", Str body); ("body_truncated", Bool truncated);
              ("content_type", Str (default "" (list_to_map (M:=gmap string string) (response_headers r) !! "content-type")));
              ("headers", Obj (map (λ h, (h.1, Str h.2)) (response_headers r)))]))
       end
   end).

Definition validated (url_str : string) (k : Url → M (list HttpRequest) Fault ToolOutput)
  : M (list HttpRequest) Fault ToolOutput :=
  match validate_url url_str with
  | Err e => fail (Failed (ToolFailed e))
  | Ok url => k url
  end.

Definition http_get (url_str : string) (headers : option (list (string * string))) : M (list HttpRequest) Fault ToolOutput :=
  validated url_str (λ url, execute_request (mkRequest "GET" (url_text url) (default [] headers) None)).

Definition http_post (url_str : string) (body content_type : option string) (headers : option (list (string * string)))
  : M (list HttpRequest) Fault ToolOutput :=
  validated url_str (λ url, execute_request
    (mkRequest "POST" (url_text url)
       (default [] headers ++ match content_type with Some ct => [("Content-Type", ct)] | None => [] end) body)).

(** [get::<HashMap<String, String>>]. *)
Definition get_headers (params : ToolParams) (key : string) : option (list (string * string)) :=
  match params !! key with
  | Some (Obj l) => mapM (λ e, match as_str e.2 with Some s => Some (e.1, s) | None => None end) l
  | _ => None
  end.

Definition execute_tool (tool_name : string) (params : ToolParams) : M (list HttpRequest) Fault ToolOutput :=
  if decide (tool_name = "http_get") then
    match get_text params "url" with
    | None => fail (Failed (missing "url"))
    | Some url => http_get url (get_headers params "headers")
    end
  else if decide (tool_name = "http_post") then
    match get_text params "url" with
    | None => fail (Failed (missing "url"))
    | Some url => http_post url (get_text params "body") (get_text params "content_type") (get_headers params "headers")
    end
  else fail (Failed (unknown_tool tool_name)).
End http.

Definition skill_tools : list Tool := [
  mkTool (mkToolDescriptor "http_get"
      "Make an HTTP GET request to a URL. Returns status, headers, and body."
      [Network NetFull] true false)
    (Obj [
      ("type", Str "object");
      ("properties", Obj [
        ("url", Obj [("type", Str "string"); ("description", Str "The URL to request")]);
        ("headers", Obj [
          ("type", Str "object");
          ("description", Str "Optional HTTP headers as key-value pairs");
          ("additionalProperties", Obj [("type", Str "string")])])]);
      ("required", Arr [Str "url"])])
    (Obj [
      ("type", Str "object");
      ("properties", Obj [
        ("status", Obj [("type", Str "integer")]);
        ("body", Obj [("type", Str "string")]);
        ("headers", Obj [("type", Str "object")])])])
    (mkCostEstimate 3000 true None);
  mkTool (mkToolDescriptor "http_post"
      "Make an HTTP POST request. Supports JSON and form data."
      [Network NetFull] false true)
    (Obj [
      ("type", Str "object");
      ("properties", Obj [
        ("url", Obj [("type", Str "string"); ("description", Str "The URL to POST to")]);
        ("body", Obj [("type", Str "string"); ("description", Str "Request body (JSON string, form data, etc.)")]);
        ("content_type", Obj [("type", Str "string"); ("description", Str "Content-Type header (default: application/json)")]);
        ("headers", Obj [
          ("type", Str "object");
          ("description", Str "Optional HTTP headers");
          ("additionalProperties", Obj [("type", Str "string")])])]);
      ("required", Arr [Str "url"])])
    (Obj [
      ("type", Str "object");
      ("properties", Obj [
        ("status", Obj [("type", Str "integer")]);
        ("body", Obj [("type", Str "string")]);
        ("headers", Obj [("type", Str "object")])])])
    (mkCostEstimate 3000 true None)].
End Http.

Module Database.

Definition MAX_ROWS : nat := 1000.

(** [to_ascii_uppercase]. *)
Definition upper_char (c : ascii) : ascii :=
  if is_ascii_lower c then ascii_of_N (N_of_ascii c - 32)%N else c.
Fixpoint to_uppercase (s : string) : string :=
  match s with EmptyString => "" | String c s => String (upper_char c) (to_uppercase s) end.

Section database.
Context (cwd : real) (denied : Call → path → bool) (allowed_roots : list path) (is_uuid : string → bool).
(** The database engine over its state: opening, [query_vec] and [execute]. *)
Context {D : Type} (open_db : path → option string → M D string unit).
Context (query_vec : path → string → list (string * string) → M D string (list Value)).
Context (execute : path → string → list (string * string) → M D string unit).
(** What opening a database makes of the tree. *)
Context (opened : Tree → string → Tree).
Notation is_within_allowed_roots := (is_within_allowed_roots cwd denied allowed_roots).
Notation canonicalize := (canonicalize cwd denied).
Notation path_exists := (path_exists cwd denied).

(** The guard of the filesystem skill without its test for an empty path. *)
Definition validate_path (t : Tree) (path_str : string) : result path SkillError :=
  let p := components path_str in
  let normalized := replace path_str backslash "/" in
  if contains normalized "../" || contains normalized "/.." then
    Err (PermissionDenied "Path traversal (../) is not allowed")
  else if path_exists t p then
    let? canonical := map_err (cannot_resolve "Cannot resolve path") (canonicalize t p) in
    if is_within_allowed_roots t canonical then Ok canonical else Err (outside path_str)
  else
    match parent p with
    | Some up =>
        if path_exists t up then
          let? canonical := map_err (cannot_resolve "Cannot resolve parent path") (canonicalize t up) in
          if is_within_allowed_roots t canonical
          then Ok (path_join canonical (match file_name p with Some n => [Normal n] | None => [] end))
          else Err (outside path_str)
        else Err (outside path_str)
    | None => Err (outside path_str)
    end.

(** The entity whose directory holds the database. *)
Definition scope_of (p : path) : option string :=
  name ← parent p ≫= file_name; if is_uuid name then Some name else None.

Definition failing {A} (what : string) (m : M D string A) : M D SkillError A := λ s,
  let '(s, r) := m s in (s, map_err (λ e, ToolFailed (what +:+ ": " +:+ e)) r).

Definition open_store (t : Tree) (db_path : string) : M D SkillError path :=
  match validate_path t db_path with
  | Err e => fail e
  | Ok p => failing "Cannot open database" (open_db p (scope_of p)) ;; mret p
  end.

(** Each [?n] in turn becomes [$p(n-1)], wherever it stands. *)
Fixpoint rewrite_from (index : nat) (query : string) (params : list string) : string * list (string * string) :=
  match params with
  | [] => (query, [])
  | value :: rest =>
      let name := "p" +:+ pretty index in
      let '(query, bindings) :=
        rewrite_from (S index) (replace query ("?" +:+ pretty (S index)) ("$" +:+ name)) rest in
      (query, (name, value) :: bindings)
  end.
Definition rewrite_query (statement : string) (params : list string) : string * list (string * string) :=
  rewrite_from 0 statement params.

Definition read_oriented (query : string) : bool :=
  let upper := to_uppercase (trim_start query) in
  starts_with upper "SELECT" || starts_with upper "RETURN" || starts_with upper "INFO" || starts_with upper "DEFINE".

Definition columns_of (rows : list Value) : list string :=
  default [] (head (omap (λ v, match v with Obj members => Some (map fst members) | _ => None end) rows)).

Definition db_query (t : Tree) (db_path query : string) (params : list string) : M D SkillError ToolOutput :=
  if negb (read_oriented query)
  then fail (PermissionDenied "db_query only allows read-oriented SurrealQL statements")
  else
    store ← open_store t db_path;
    let '(query, bindings) := rewrite_query query params in
    rows ← failing "Query execution failed" (query_vec store query bindings);
    let row_count := Nat.min (length rows) MAX_ROWS in
    mret (tool_success (Obj
      [("formatted", Str (if (row_count =? 0)%nat then "Query returned no results."
          else "Query returned " +:+ pretty row_count +:+ " row" +:+ (if (row_count =? 1)%nat then "" else "s") +:+ "."));
       ("columns", Arr (map Str (columns_of rows))); ("rows", Arr (take MAX_ROWS rows));
       ("row_count", number row_count); ("truncated", Bool (MAX_ROWS <? length rows)%nat)])).

Definition drops (statement : string) : bool :=
  let upper := to_uppercase statement in contains upper "DROP TABLE" || contains upper "DROP DATABASE".

(** The path in the answer is validated again, when the database has been opened. *)
Definition shown_path (t : Tree) (db_path : string) : M D SkillError string :=
  match validate_path (opened t db_path) db_path with Err e => fail e | Ok p => mret (display p) end.

Definition db_execute (t : Tree) (db_path statement : string) (params : list string) : M D SkillError ToolOutput :=
  if drops statement
  then fail (PermissionDenied "DROP TABLE and DROP DATABASE statements are not allowed")
  else
    store ← open_store t db_path;
    let '(statement, bindings) := rewrite_query statement params in
    failing "Statement execution failed" (execute store statement bindings) ;;
    shown ← shown_path t db_path;
    mret (tool_success (Obj
      [("formatted", Str "Statement executed successfully."); ("rows_affected", Null); ("db_path", Str shown)])).

Definition db_schema (t : Tree) (db_path : string) : M D SkillError ToolOutput :=
  store ← open_store t db_path;
  rows ← failing "Schema inspection failed" (query_vec store "INFO FOR DB" []);
  let details := default Null (head rows) in
  let tables := match get "tables" details with
                | Some (Obj members) => map (λ e, Obj [("name", Str e.1); ("definition", e.2)]) members
                | _ => []
                end in
  shown ← shown_path t db_path;
  mret (tool_success (Obj
    [("formatted", Str ("Database has " +:+ pretty (length tables) +:+ " table definition(s)."));
     ("db_path", Str shown); ("table_count", number (length tables)); ("tables", Arr tables); ("details", details)])).

Definition execute_tool (t : Tree) (tool_name : string) (params : ToolParams) : M D SkillError ToolOutput :=
  let text := get_text params in
  if decide (tool_name = "db_query") then
    match text "db_path", text "query" with
    | None, _ => fail (missing "db_path")
    | _, None => fail (missing "query")
    | Some db_path, Some query => db_query t db_path query (default [] (get_strings params "params"))
    end
  else if decide (tool_name = "db_execute") then
    match text "db_path", text "statement" with
    | None, _ => fail (missing "db_path")
    | _, None => fail (missing "statement")
    | Some db_path, Some statement => db_execute t db_path statement (default [] (get_strings params "params"))
    end
  else if decide (tool_name = "db_schema") then
    match text "db_path" with None => fail (missing "db_path") | Some db_path => db_schema t db_path end
  else fail (unknown_tool tool_name).
End database.

Definition skill_tools : list Tool := [
  mkTool (mkToolDescriptor "db_query"
      "Execute a read-oriented SurrealQL query against a local embedded database."
      [FileSystem (Read ["~"])] true false)
    (Obj [
      ("type", Str "object");
      ("properties", Obj [
        ("db_path", Obj [("type", Str "string"); ("description", Str "Path to the embedded database store")]);
        ("query", Obj [("type", Str "string"); ("description", Str "SurrealQL SELECT/INFO/RETURN query to execute")]);
        ("params", Obj [
          ("type", Str "array");
          ("items", Obj [("type", Str "string")]);
          ("description", Str "Optional positional parameters (?1, ?2, ...)")])]);
      ("required", Arr [Str "db_path"; Str "query"])])
    (Obj [
      ("type", Str "object");
      ("properties", Obj [
        ("formatted", Obj [("type", Str "string")]);
        ("columns", Obj [("type", Str "array")]);
        ("rows", Obj [("type", Str "array")]);
        ("row_count", Obj [("type", Str "integer")]);
        ("truncated", Obj [("type", Str "boolean")])])])
    (mkCostEstimate 50 false None);
  mkTool (mkToolDescriptor "db_execute"
      "Execute a mutating SurrealQL statement against a local embedded database. DROP TABLE and DROP DATABASE are blocked."
      [FileSystem (Read ["~"]); FileSystem (Write ["~"])] false true)
    (Obj [
      ("type", Str "object");
      ("properties", Obj [
        ("db_path", Obj [("type", Str "string"); ("description", Str "Path to the embedded database store")]);
        ("statement", Obj [("type", Str "string"); ("description", Str "SurrealQL statement to execute")]);
        ("params", Obj [
          ("type", Str "array");
          ("items", Obj [("type", Str "string")]);
          ("description", Str "Optional positional parameters (?1, ?2, ...)")])]);
      ("required", Arr [Str "db_path"; Str "statement"])])
    (Obj [
      ("type", Str "object");
      ("properties", Obj [
        ("formatted", Obj [("type", Str "string")]);
        ("rows_affected", Obj [("type", Arr [Str "integer"; Str "null"])]);
        ("db_path", Obj [("type", Str "string")])])])
    (mkCostEstimate 50 false None);
  mkTool (mkToolDescriptor "db_schema"
      "Inspect SurrealDB database metadata and table definitions."
      [FileSystem (Read ["~"])] true false)
    (Obj [
      ("type", Str "object");
      ("properties", Obj [
        ("db_path", Obj [("type", Str "string"); ("description", Str "Path to the embedded database store")])]);
      ("required", Arr [Str "db_path"])])
    (Obj [
      ("type", Str "object");
      ("properties", Obj [
        ("formatted", Obj [("type", Str "string")]);
        ("db_path", Obj [("type", Str "string")]);
        ("table_count", Obj [("type", Str "integer")]);
        ("tables", Obj [("type", Str "array")])])])
    (mkCostEstimate 50 false None)].
End Database.

Module Clipboard.

Section clipboard.
(** [Clipboard::new], [get_text] and [set_text]; the state is what the clipboard
    holds ([None]: no text). *)
Context (access : result unit string) (get_error : string) (set_error : option string).

Definition read_clipboard : M (option string) SkillError ToolOutput := λ held,
  (held,
   match access with
   | Err e => Err (ToolFailed ("Failed to access clipboard: " +:+ e))
   | Ok _ =>
       match held with
       | Some text => Ok (tool_success (Obj [("text", Str text)]))
       | None => Ok (tool_error ("Failed to read clipboard text: " +:+ get_error +:+
                       ". The clipboard may be empty or contain non-text data."))
       end
   end).

Definition write_clipboard (text : string) : M (option string) SkillError ToolOutput := λ held,
  match access, set_error with
  | Err e, _ => (held, Err (ToolFailed ("Failed to access clipboard: " +:+ e)))
  | Ok _, Some e => (held, Ok (tool_error ("Failed to write to clipboard: " +:+ e)))
  | Ok _, None => (Some text, Ok (tool_success (Obj [("written", Bool true); ("length", number (String.length text))])))
  end.

Definition execute_tool (tool_name : string) (params : ToolParams) : M (option string) SkillError ToolOutput :=
  if decide (tool_name = "clipboard_read") then read_clipboard
  else if decide (tool_name = "clipboard_write") then
    match get_text params "text" with None => fail (missing "text") | Some text => write_clipboard text end
  else fail (unknown_tool tool_name).
End clipboard.

Definition skill_tools : list Tool := [
  mkTool (mkToolDescriptor "clipboard_read"
      "Read the current text content from the system clipboard."
      [Clipboard] true false)
    (Obj [("type", Str "object"); ("properties", Obj []); ("required", Arr [])])
    (Obj [("type", Str "object"); ("properties", Obj [("text", Obj [("type", Str "string")])])])
    (mkCostEstimate 50 false None);
  mkTool (mkToolDescriptor "clipboard_write"
      "Write text content to the system clipboard."
      [Clipboard] false true)
    (Obj [
      ("type", Str "object");
      ("properties", Obj [("text", Obj [("type", Str "string"); ("description", Str "The text to write to the clipboard")])]);
      ("required", Arr [Str "text"])])
    (Obj [
      ("type", Str "object");
      ("properties", Obj [("written", Obj [("type", Str "boolean")]); ("length", Obj [("type", Str "integer")])])])
    (mkCostEstimate 50 false None)].
End Clipboard.

Module Notification.

Record Shown : Type := mkShown { shown_title : string; shown_body : string; shown_ms : Z }.

(** A spawned task that sleeps until [due]. *)
Record Task : Type := mkTask { task_id : string; task_title : string; task_body : string; due : Z }.

(** The tasks that run, the identifiers in the map of the skill, what was shown. *)
Record Desktop : Type := mkDesktop {
  tasks : list Task;
  scheduled : list string;
  shown : list Shown;
}.

(** [timeout_secs.saturating_mul(1000)], then [as u32]. *)
Definition u64_max : Z := 2 ^ 64 - 1.
Definition milliseconds (timeout_secs : Z) : Z := Z.min (timeout_secs * 1000) u64_max `mod` 2 ^ 32.

Section notification.
(** What the notification service answers. *)
Context (show : Shown → option string).

Definition display_note (n : Shown) (d : Desktop) : Desktop :=
  match show n with Some _ => d | None => mkDesktop (tasks d) (scheduled d) (shown d ++ [n]) end.

Definition send_notification (title body : string) (timeout_secs : Z) : M Desktop SkillError ToolOutput := λ d,
  let n := mkShown title body (milliseconds timeout_secs) in
  (display_note n d,
   Ok (match show n with
       | None => tool_success (Obj
           [("formatted", Str ("Notification sent: " +:+ title)); ("title", Str title); ("body", Str body);
            ("timeout_secs", Num (PosInt timeout_secs))])
       | Some e => tool_error ("Failed to send notification: " +:+ e)
       end)).

(** The identifier is a new UUID. *)
Definition schedule_notification (now : Z) (schedule_id title body : string) (delay_secs : Z)
  : M Desktop SkillError ToolOutput := λ d,
  (mkDesktop (tasks d ++ [mkTask schedule_id title body (now + delay_secs)]) (schedule_id :: scheduled d) (shown d),
   Ok (tool_success (Obj
     [("formatted", Str ("Notification scheduled (id=" +:+ schedule_id +:+ ") to fire in " +:+ pretty delay_secs +:+ " seconds"));
      ("schedule_id", Str schedule_id); ("delay_secs", Num (PosInt delay_secs))]))).

(** The task after its sleep. *)
Definition fire (t : Task) (d : Desktop) : Desktop :=
  let d := display_note (mkShown (task_title t) (task_body t) 5000) d in
  mkDesktop (filter (λ t', task_id t' ≠ task_id t) (tasks d)) (filter (λ i, i ≠ task_id t) (scheduled d)) (shown d).

Definition cancel_scheduled (schedule_id : string) : M Desktop SkillError ToolOutput := λ d,
  if bool_decide (schedule_id ∈ scheduled d) then
    (mkDesktop (filter (λ t, task_id t ≠ schedule_id) (tasks d)) (filter (λ i, i ≠ schedule_id) (scheduled d)) (shown d),
     Ok (tool_success (Obj
       [("formatted", Str ("Cancelled scheduled notification: " +:+ schedule_id));
        ("schedule_id", Str schedule_id); ("cancelled", Bool true)])))
  else (d, Ok (tool_error ("No scheduled notification found with id: " +:+ schedule_id))).

Definition shutdown (d : Desktop) : Desktop :=
  mkDesktop (filter (λ t, task_id t ∉ scheduled d) (tasks d)) [] (shown d).

Definition execute_tool (now : Z) (new_id tool_name : string) (params : ToolParams) : M Desktop SkillError ToolOutput :=
  let text := get_text params in
  if decide (tool_name = "send_notification") then
    match text "title", text "body" with
    | None, _ => fail (missing "title")
    | _, None => fail (missing "body")
    | Some title, Some body => send_notification title body (default 5%Z (get_u64 params "timeout_secs"))
    end
  else if decide (tool_name = "schedule_notification") then
    match text "title", text "body", get_u64 params "delay_secs" with
    | None, _, _ => fail (missing "title")
    | _, None, _ => fail (missing "body")
    | _, _, None => fail (missing "delay_secs")
    | Some title, Some body, Some delay_secs => schedule_notification now new_id title body delay_secs
    end
  else if decide (tool_name = "cancel_scheduled") then
    match text "schedule_id" with
    | None => fail (missing "schedule_id")
    | Some schedule_id => cancel_scheduled schedule_id
    end
  else fail (unknown_tool tool_name).
End notification.

Definition skill_tools : list Tool := [
  mkTool (mkToolDescriptor "send_notification"
      "Send an immediate desktop notification to the user."
      [Notifications] true false)
    (Obj [
      ("type", Str "object");
      ("properties", Obj [
        ("title", Obj [("type", Str "string"); ("description", Str "The notification title")]);
        ("body", Obj [("type", Str "string"); ("description", Str "The notification body text")]);
        ("timeout_secs", Obj [
          ("type", Str "integer");
          ("description", Str "How long to display the notification in seconds (default 5)")])]);
      ("required", Arr [Str "title"; Str "body"])])
    (Obj [
      ("type", Str "object");
      ("properties", Obj [
        ("formatted", Obj [("type", Str "string")]);
        ("title", Obj [("type", Str "string")]);
        ("body", Obj [("type", Str "string")]);
        ("timeout_secs", Obj [("type", Str "integer")])])])
    (mkCostEstimate 100 false None);
  mkTool (mkToolDescriptor "schedule_notification"
      "Schedule a desktop notification to be sent after a delay."
      [Notifications] true false)
    (Obj [
      ("type", Str "object");
      ("properties", Obj [
        ("title", Obj [("type", Str "string"); ("description", Str "The notification title")]);
        ("body", Obj [("type", Str "string"); ("description", Str "The notification body text")]);
        ("delay_secs", Obj [("type", Str "integer"); ("description", Str "Seconds to wait before sending the notification")])]);
      ("required", Arr [Str "title"; Str "body"; Str "delay_secs"])])
    (Obj [
      ("type", Str "object");
      ("properties", Obj [
        ("formatted", Obj [("type", Str "string")]);
        ("schedule_id", Obj [("type", Str "string")]);
        ("delay_secs", Obj [("type", Str "integer")])])])
    (mkCostEstimate 50 false None);
  mkTool (mkToolDescriptor "cancel_scheduled"
      "Cancel a previously scheduled notification by its schedule ID."
      [Notifications] true false)
    (Obj [
      ("type", Str "object");
      ("properties", Obj [
        ("schedule_id", Obj [("type", Str "string"); ("description", Str "The ID returned by schedule_notification")])]);
      ("required", Arr [Str "schedule_id"])])
    (Obj [
      ("type", Str "object");
      ("properties", Obj [
        ("formatted", Obj [("type", Str "string")]);
        ("schedule_id", Obj [("type", Str "string")]);
        ("cancelled", Obj [("type", Str "boolean")])])])
    (mkCostEstimate 10 false None)].
End Notification.
