(* ===== verification/FilesystemSpec.v ===== *)
(** * The filesystem skill: correctness
    What is read and what is written lies below the allowed roots; which tools
    change anything; where the guard can be passed. *)

From S2P Require Import Prelude RustStr Paths FileTree Json SkillPolicy SkillExecutor Chat SkillKit FilesystemSkill.
From Stdlib Require Import ZArith Lia Ascii.
From stdpp Require Import base list strings gmap relations pretty.

Open Scope rust_scope.

(** ** Paths without parents *)

Fixpoint str_map (f : ascii → ascii) (s : string) : string :=
  match s with EmptyString => "" | String c s => String (f c) (str_map f s) end.

Definition to_slash (c : ascii) : ascii := if decide (c = "092"%char) then "/"%char else c.

Lemma replace_backslash s : replace s backslash "/" = str_map to_slash s.
Proof.
  unfold replace, backslash. induction s as [|c s IH]; [done|].
  assert (∀ x, starts_with x "" = true) as Hnil by (by intros []).
  change (str_map to_slash (String c s)) with (String (to_slash c) (str_map to_slash s)).
  unfold to_slash at 1. simpl. rewrite Hnil. destruct (decide (c = "092"%char)) as [->|Hn].
  - rewrite bool_decide_true by done. simpl. by rewrite IH.
  - rewrite bool_decide_false by congruence. simpl. by rewrite IH.
Qed.

Lemma starts_with_map f s p : starts_with s p = true → starts_with (str_map f s) (str_map f p) = true.
Proof.
  revert s. induction p as [|c p IH]; intros [|c' s]; simpl; try done.
  intros [Hc%bool_decide_eq_true Hs]%andb_prop. subst. rewrite bool_decide_true by done. by apply IH.
Qed.

Lemma contains_map f s p : contains s p = true → contains (str_map f s) (str_map f p) = true.
Proof.
  induction s as [|c s IH]; intros Hc; simpl in *.
  - destruct p; done.
  - apply orb_prop in Hc as [Hs|Hs]; apply orb_true_iff.
    + left. by apply (starts_with_map f (String c s)).
    + right. by apply IH.
Qed.

(** *** Segments *)

Lemma segments_nonempty seg s : Paths.segments_from seg s ≠ [].
Proof. revert seg. induction s as [|c s IH]; intros seg; simpl; [done|]. by case_decide. Qed.

Lemma join_cons sep x l : l ≠ [] → RustStr.join sep (x :: l) = x +:+ sep +:+ RustStr.join sep l.
Proof. by destruct l. Qed.

Lemma join_app sep l l' :
  l ≠ [] → l' ≠ [] → RustStr.join sep (l ++ l') = RustStr.join sep l +:+ sep +:+ RustStr.join sep l'.
Proof.
  intros Hl Hl'. induction l as [|x l IH]; [done|]. destruct l as [|y l].
  - simpl. by apply join_cons.
  - rewrite <- app_comm_cons, !join_cons by done. rewrite IH by done. by rewrite <- !str_app_assoc.
Qed.

Lemma segments_join seg s : RustStr.join "/" (Paths.segments_from seg s) = seg +:+ s.
Proof.
  revert seg. induction s as [|c s IH]; intros seg; simpl; [by rewrite str_app_nil_r|].
  destruct (decide (c = "/"%char)) as [->|Hn].
  - rewrite join_cons by apply segments_nonempty. by rewrite IH.
  - by rewrite IH, <- str_app_assoc.
Qed.

(** Only the first component can be the root or the current directory. *)
Lemma components_shape s :
  ∃ h l, components s = h ++ omap component_of l ∧ (h = [] ∨ h = [RootDir] ∨ h = [CurDir]) ∧
    ∀ x, x ∈ l → x ∈ Paths.segments s.
Proof.
  unfold components. cbv zeta.
  destruct (Paths.segments s) as [|seg l] eqn:Hs; [by apply segments_nonempty in Hs|].
  assert (∀ P : Prop, P → P) as Hid by auto.
  destruct s as [|[[] [] [] [] [] [] [] []] s];
    first [exists [RootDir], (seg :: l); split; [done|]; split; [by right; left|done]
          |case_decide; [exists [CurDir], l; split; [done|]; split; [by right; right|by right]
                        |exists [], (seg :: l); split; [done|]; split; [by left|done]]].
Qed.

Lemma elem_of_names x (l : list string) :
  x ∈ omap component_of l → x = ParentDir ∧ ".." ∈ l ∨ ∃ n, x = Normal n.
Proof.
  intros (y & Hy & Hc)%list_elem_of_omap. unfold component_of in Hc.
  repeat case_decide; simplify_eq; eauto.
Qed.

Lemma parent_segment s : ParentDir ∈ components s → ".." ∈ Paths.segments s.
Proof.
  destruct (components_shape s) as (h & l & -> & Hh & Hl).
  intros [Hin|Hin]%elem_of_app; [destruct Hh as [->|[->| ->]]; set_solver|].
  apply elem_of_names in Hin as [[_ Hin]|[? [=]]]. by apply Hl.
Qed.

Lemma components_tail s c rest :
  components s = c :: rest → Forall (λ x, x = ParentDir ∨ ∃ n, x = Normal n) rest.
Proof.
  destruct (components_shape s) as (h & l & -> & Hh & _). intros He. apply Forall_forall.
  intros x Hx. assert (x ∈ omap component_of l) as Hin.
  { destruct Hh as [->|[->| ->]]; simpl in He; [rewrite He; by right|by injection He as _ ->..]. }
  apply elem_of_names in Hin as [[? _]|?]; auto.
Qed.

(** A path the guard lets through has no parent component, or is one. *)
Lemma reject_no_parent s :
  reject_malicious_path s = Ok tt → components s ≠ [] ∧ (ParentDir ∈ components s → s = "..").
Proof.
  unfold reject_malicious_path. rewrite replace_backslash.
  destruct (contains _ "../" || _) eqn:Hc; [done|]. apply orb_false_iff in Hc as [Hc1 Hc2].
  intros Hok. split; [by intros Hn; rewrite Hn in Hok|].
  intros Hp%parent_segment. apply list_elem_of_split in Hp as (l & l' & Hs).
  assert (s = RustStr.join "/" (l ++ ".." :: l')) as Hj.
  { rewrite <- Hs. unfold Paths.segments. by rewrite segments_join. }
  destruct l as [|x l], l' as [|x' l']; [done|exfalso..].
  - apply (not_true_iff_false _) in Hc1. apply Hc1. apply (contains_map to_slash s "../").
    rewrite Hj. simpl app. rewrite join_cons by done. apply contains_iff.
    by exists "", (RustStr.join "/" (x' :: l')).
  - apply (not_true_iff_false _) in Hc2. apply Hc2. apply (contains_map to_slash s "/..").
    rewrite Hj, join_app by done. apply contains_iff. by exists (RustStr.join "/" (x :: l)), "".
  - apply (not_true_iff_false _) in Hc2. apply Hc2. apply (contains_map to_slash s "/..").
    rewrite Hj, join_app by done. rewrite (join_cons "/" "..") by done. apply contains_iff.
    by exists (RustStr.join "/" (x :: l)), ("/" +:+ RustStr.join "/" (x' :: l')).
Qed.


(** ** The guards *)

Lemma map_normal_inj (l l' : real) : map Normal l = map Normal l' → l = l'.
Proof.
  revert l'. induction l as [|x l IH]; intros [|y l']; try done. simpl. intros [= -> Hl]. by rewrite (IH _ Hl).
Qed.

Lemma prefix_absolute (r r' : real) : absolute r `prefix_of` absolute r' ↔ r `prefix_of` r'.
Proof.
  unfold absolute. split.
  - intros [k Hk]. injection Hk as Hk. apply map_eq_app in Hk as (l1 & l2 & -> & Hl1 & _).
    apply map_normal_inj in Hl1 as ->. by eexists.
  - intros [k ->]. exists (map Normal k). by rewrite map_app.
Qed.

Section skill.
Context (cwd : real) (denied : Call → path → bool) (allowed_roots : list path).
Notation validate_path := (validate_path cwd denied allowed_roots).
Notation validate_write_path := (validate_write_path cwd denied allowed_roots).
Notation canonical_root := (canonical_root cwd denied).
Notation is_within_allowed_roots := (is_within_allowed_roots cwd denied allowed_roots).
Notation lookup_path := (lookup_path cwd denied).

(** A real path is below an allowed root. *)
Definition within (t : Tree) (r : real) : Prop :=
  ∃ root, root ∈ allowed_roots ∧ canonical_root t root `prefix_of` absolute r.

Lemma within_iff t r : is_within_allowed_roots t (absolute r) = true ↔ within t r.
Proof.
  unfold FilesystemSkill.is_within_allowed_roots, within. rewrite existsb_exists. unfold path_starts_with.
  split; intros (root & Hin & Hp); exists root; rewrite list_elem_of_In in *; (split; [done|]).
  - exact (proj1 (bool_decide_eq_true _) Hp).
  - exact (proj2 (bool_decide_eq_true _) Hp).
Qed.

Lemma within_below t r r' : within t r → r `prefix_of` r' → within t r'.
Proof. intros (root & Hin & Hp) Hr. exists root. split; [done|]. etrans; [exact Hp|by apply prefix_absolute]. Qed.

Lemma exists_lookup t p : path_exists cwd denied t p = true ↔ ∃ r, lookup_path t p = Ok r.
Proof. unfold path_exists. destruct (lookup_path t p); simpl; naive_solver. Qed.

Lemma lookup_real t p r :
  well_formed t → node_at t cwd = Some Directory → lookup_path t p = Ok r →
  node_at t r = Some Directory ∨ ∃ c, node_at t r = Some (File c).
Proof.
  intros Hw Hc. unfold FileTree.lookup_path, resolve. destruct (denied _ _); [done|].
  destruct p as [|x p]; [done|]. intros Hwalk. apply walk_ends in Hwalk; [|done|done].
  destruct Hwalk as [?|[?|[[=] _]]]; auto.
Qed.

(** An existing path that passes is the real path, below a root. *)
Lemma validate_existing t s p :
  path_exists cwd denied t (components s) = true → validate_path t s = Ok p →
  ∃ r, lookup_path t (components s) = Ok r ∧ p = absolute r ∧ within t r.
Proof.
  intros He. unfold FilesystemSkill.validate_path. destruct (reject_malicious_path s); [|done]. simpl.
  rewrite He. unfold canonicalize. apply exists_lookup in He as [r Hr]. rewrite Hr. simpl.
  destruct (is_within_allowed_roots t (absolute r)) eqn:Hi; [|done]. intros [= <-].
  exists r. split; [done|]. split; [done|]. by apply within_iff.
Qed.

(** What a path that passes for writing is: a real place below a root, and names. *)
Definition writable (t : Tree) (p : path) : Prop :=
  ∃ base names, p = absolute (base ++ names) ∧ within t base ∧
    (node_at t base = Some Directory ∨ ∃ c, node_at t base = Some (File c)).

Lemma all_normal (l : path) : Forall (λ x, ∃ n, x = Normal n) l → ∃ names, l = map Normal names.
Proof.
  induction 1 as [|x l [n ->] _ [names ->]]; [by exists []|]. by exists (n :: names).
Qed.

Lemma filter_names (names : real) : filter (λ c, c ≠ CurDir) (map Normal names) = map Normal names.
Proof.
  induction names as [|n names IH]; [done|]. simpl. by rewrite filter_cons_True, IH.
Qed.

Lemma ancestor_writable t s fuel cursor p :
  well_formed t → node_at t cwd = Some Directory → reject_malicious_path s = Ok tt →
  cursor `prefix_of` components s →
  nearest_ancestor cwd denied allowed_roots fuel t s cursor = Ok p → writable t p.
Proof.
  intros Hw Hcwd Hrej. revert cursor. induction fuel as [|fuel IH]; intros cursor Hpre; [done|]. simpl.
  destruct (parent cursor) as [up|] eqn:Hup; [|done].
  assert (up `prefix_of` components s ∧ length up < length (components s)) as [Hpu Hlen].
  { unfold parent in Hup. destruct (last cursor) as [c|] eqn:Hl; [|done].
    assert (up = removelast cursor) as -> by (destruct c; by simplify_eq).
    apply last_Some in Hl as [l ->]. rewrite removelast_last. destruct Hpre as [k Hk]. rewrite Hk.
    rewrite !length_app. simpl. split; [|lia]. rewrite <- app_assoc. by apply prefix_app_r. }
  destruct (path_exists cwd denied t up) eqn:He; [|by apply IH].
  unfold canonicalize. apply exists_lookup in He as [r Hr]. rewrite Hr. simpl.
  destruct (is_within_allowed_roots t (absolute r)) eqn:Hi; [|done]. intros [= <-].
  apply within_iff in Hi. pose proof (lookup_real _ _ _ Hw Hcwd Hr) as Hnode.
  assert (up ≠ []) as Hne.
  { intros ->. unfold FileTree.lookup_path in Hr. by destruct (denied _ _). }
  destruct (reject_no_parent s Hrej) as [_ Hpar].
  assert (∃ names, drop (length up) (components s) = map Normal names) as [names Hd].
  { apply all_normal. destruct up as [|u up]; [done|]. destruct (components s) as [|c rest] eqn:Hs; [done|].
    simpl. apply Forall_drop. pose proof (components_tail _ _ _ Hs) as Ht.
    apply Forall_forall. intros x Hx. eapply Forall_forall in Ht; [|exact Hx].
    destruct Ht as [->|?]; [|done]. rewrite Hpar in Hs by (by right). injection Hs as _ <-.
    by apply elem_of_nil in Hx. }
  exists r, names. rewrite Hd. split; [|done]. unfold path_join.
  assert (is_absolute (map Normal names) = false) as -> by (by destruct names).
  rewrite filter_names. unfold absolute. by rewrite map_app.
Qed.

Lemma validate_write_writable t s p :
  well_formed t → node_at t cwd = Some Directory → validate_write_path t s = Ok p →
  writable t p.
Proof.
  intros Hw Hcwd. unfold FilesystemSkill.validate_write_path.
  destruct (reject_malicious_path s) as [[]|] eqn:Hrej; [|done]. simpl.
  destruct (path_exists cwd denied t (components s)) eqn:He.
  - intros Hv. apply validate_existing in Hv as (r & Hr & -> & Hi); [|done].
    exists r, []. rewrite app_nil_r. split; [done|]. split; [done|]. by eapply lookup_real.
  - by apply ancestor_writable.
Qed.

(** ** What the calls change *)

(** No symbolic link below [base]. *)
Definition link_free (t : Tree) (base : real) : Prop :=
  ∀ r target, base `prefix_of` r → t !! r ≠ Some (Link target).

(** From a real place without links below, names lead down. *)
Lemma walk_below links create t base names r :
  well_formed t → link_free t base →
  node_at t base = Some Directory ∨ (∃ c, node_at t base = Some (File c)) →
  walk links create t [] (absolute (base ++ names)) = Ok r → r = base ++ names.
Proof.
  intros Hw Hf Hb.
  assert (∀ n2 n1, names = n1 ++ n2 → walk links create t (base ++ n1) (map Normal n2) = Ok r →
    r = base ++ names) as Hdown.
  { induction n2 as [|n n2 IH]; intros n1 Heq.
    - rewrite app_nil_r in Heq. subst. destruct links; by intros [= <-].
    - assert (names = (n1 ++ [n]) ++ n2) as Heq' by (by rewrite <- app_assoc).
      specialize (IH _ Heq'). rewrite app_assoc in IH.
      destruct links; simpl; (destruct (t !! ((base ++ n1) ++ [n])) as [[|c|target]|] eqn:Hn;
        [exact IH| | |]).
      2, 5: exfalso; by eapply (Hf ((base ++ n1) ++ [n])); [rewrite <- app_assoc; by apply prefix_app_r|exact Hn].
      all: destruct n2; simpl; try done; try (destruct create; [|done]).
      all: intros [= <-]; rewrite Heq; by rewrite app_assoc. }
  assert (∀ b2 b1, base = b1 ++ b2 →
    walk links create t b1 (map Normal (b2 ++ names)) = Ok r → r = base ++ names) as Hgo.
  { induction b2 as [|n b2 IH]; intros b1 Heq.
    - rewrite app_nil_r in Heq. subst b1. rewrite <- (app_nil_r base) at 1. by apply (Hdown names []).
    - assert (base = (b1 ++ [n]) ++ b2) as Heq' by (by rewrite <- app_assoc).
      specialize (IH _ Heq').
      assert (t !! (b1 ++ [n]) = Some Directory ∨
        b2 = [] ∧ ∃ c, t !! (b1 ++ [n]) = Some (File c)) as Hn.
      { rewrite <- (node_snoc t). destruct b2 as [|m b2].
        - rewrite app_nil_r in Heq'. rewrite <- Heq'. destruct Hb; [by left|by right].
        - left. apply (above_directory t _ (m :: b2)); [done|done|]. rewrite <- Heq'.
          destruct Hb as [->|[c ->]]; by eexists. }
      destruct Hn as [Hn|[-> [c Hn]]]; [destruct links; simpl; by rewrite Hn|].
      simpl in *. rewrite app_nil_r in Heq'.
      destruct links; simpl; rewrite Hn; (destruct names as [|m names]; simpl;
        [intros [= <-]; by rewrite app_nil_r, Heq'|done]). }
  intros Hwalk. destruct links; apply (Hgo base []); done.
Qed.

(** Directories were made below [base], nothing else. *)
Definition dirs_added (base : real) (t t' : Tree) : Prop :=
  well_formed t' ∧
  ∀ r, t' !! r = t !! r ∨
    base `prefix_of` r ∧ r ≠ base ∧ t !! r = None ∧ t' !! r = Some Directory.

Lemma dirs_added_refl base t : well_formed t → dirs_added base t t.
Proof. intros Hw. split; [done|]. by left. Qed.

Lemma dirs_added_trans base t1 t2 t3 : dirs_added base t1 t2 → dirs_added base t2 t3 → dirs_added base t1 t3.
Proof.
  intros [_ H12] [Hw H23]. split; [done|]. intros r.
  destruct (H12 r) as [He|(? & ? & ? & Hd)], (H23 r) as [He'|(? & ? & Hn & ?)].
  - left. congruence.
  - right. split_and!; try done. congruence.
  - right. split_and!; try done. congruence.
  - congruence.
Qed.

Lemma dirs_added_node base t t' : dirs_added base t t' → is_Some (node_at t base) → node_at t' base = node_at t base.
Proof.
  intros [_ Ha] Hs. destruct base as [|n base]; [done|]. simpl.
  destruct (Ha (n :: base)) as [He|(_ & Hne & _)]; [exact He|by destruct Hne].
Qed.

Lemma dirs_added_free base t t' : dirs_added base t t' → link_free t base → link_free t' base.
Proof.
  intros [_ Ha] Hf r target Hp Hl. destruct (Ha r) as [He|(_ & _ & _ & He)]; [|congruence].
  apply (Hf r target Hp). congruence.
Qed.

Definition comparable (x base : real) : Prop := x `prefix_of` base ∨ base `prefix_of` x.

Lemma walk_absolute links create t r : walk links create t cwd (absolute r) = walk links create t [] (absolute r).
Proof. by destruct links. Qed.

Lemma parent_absolute y n : parent (absolute (y ++ [n])) = Some (absolute y).
Proof.
  unfold parent, absolute. rewrite map_app. change (map Normal [n]) with [Normal n].
  rewrite app_comm_cons, last_snoc, removelast_last. done.
Qed.

Lemma comparable_snoc y n base : comparable (y ++ [n]) base → comparable y base.
Proof.
  intros [Hp|Hp]; [left; etrans; [|exact Hp]; by apply prefix_app_r|].
  destruct Hp as [k Hk]. destruct k as [|m k _] using rev_ind.
  - left. rewrite app_nil_r in Hk. subst. by apply prefix_app_r.
  - rewrite app_assoc in Hk. apply app_inj_tail in Hk as [-> _]. right. by apply prefix_app_r.
Qed.

Lemma mkdir_below base x t t' o :
  well_formed t → link_free t base →
  node_at t base = Some Directory ∨ (∃ c, node_at t base = Some (File c)) →
  comparable x base → mkdir cwd denied (absolute x) t = (t', o) → dirs_added base t t'.
Proof.
  intros Hw Hf Hb Hx. unfold mkdir. destruct (denied _ _); [intros [= <- _]; by apply dirs_added_refl|].
  destruct x as [|n y _] using rev_ind.
  { cbv [absolute map last]. destruct (resolve _ _ t _); intros [= <- _]; by apply dirs_added_refl. }
  assert (absolute (y ++ [n]) = absolute y ++ [Normal n]) as -> by (unfold absolute; by rewrite map_app).
  rewrite last_snoc, removelast_last, walk_absolute.
  destruct (walk _ _ _ _ _) as [r|e] eqn:Hwalk; [|intros [= <- _]; by apply dirs_added_refl].
  assert (r = y) as ->.
  { destruct (comparable_snoc _ _ _ Hx) as [[k ->]|[k ->]].
    - rewrite walk_real in Hwalk; [by injection Hwalk|done|]. destruct k as [|m k].
      + by rewrite app_nil_r in Hb.
      + left. apply (above_directory t _ (m :: k)); [done|done|]. destruct Hb as [->|[c ->]]; by eexists.
    - by eapply walk_below. }
  destruct (node_at t y) as [[| |]|] eqn:Hy; try (intros [= <- _]; by apply dirs_added_refl).
  destruct (t !! (y ++ [n])) as [v|] eqn:Hn; intros [= <- _]; [by apply dirs_added_refl|].
  split; [apply insert_well_formed; [done|done|by rewrite Hn]|]. intros r.
  destruct (decide (r = y ++ [n])) as [->|Hne]; [|left; by rewrite lookup_insert_ne].
  right. rewrite lookup_insert_eq. assert (node_at t (y ++ [n]) = None) as Hnone by (by rewrite node_snoc).
  split_and!; try done.
  - destruct Hx as [[k Hk]|?]; [|done]. exfalso.
    assert (node_at t (y ++ [n]) ≠ None) as Hsome; [|done]. destruct k as [|m k].
    + rewrite app_nil_r in Hk. rewrite <- Hk. destruct Hb as [->|[c ->]]; done.
    + rewrite (above_directory t _ (m :: k)); [done|done|done|]. rewrite <- Hk.
      destruct Hb as [->|[c ->]]; by eexists.
  - intros He. rewrite He in Hnone. destruct Hb as [Hb|[c Hb]]; congruence.
Qed.

Lemma create_dirs_below fuel base x t t' o :
  well_formed t → link_free t base →
  node_at t base = Some Directory ∨ (∃ c, node_at t base = Some (File c)) →
  comparable x base → create_dir_all_from cwd denied fuel (absolute x) t = (t', o) → dirs_added base t t'.
Proof.
  revert x t t' o. induction fuel as [|fuel IH]; intros x t t' o Hw Hf Hb Hx Hc;
    cbn [create_dir_all_from absolute] in Hc; change (RootDir :: map Normal x) with (absolute x) in Hc;
    destruct (mkdir cwd denied (absolute x) t) as [t1 o1] eqn:Hm;
    pose proof (mkdir_below _ _ _ _ _ Hw Hf Hb Hx Hm) as Ha.
  - destruct o1 as [u|[]]; try (injection Hc as <- _; done);
      (destruct (is_dir cwd denied t1 (absolute x)); by injection Hc as <- _).
  - destruct o1 as [u|e]; [by injection Hc as <- _|].
    assert (∀ b : bool, (if b then (t1, Ok ()) else (t1, Err e)) = (t', o) → dirs_added base t t') as Hend.
    { intros b He. destruct b; by injection He as <- _. }
    destruct e; try (by apply Hend in Hc).
    destruct x as [|n y _] using rev_ind; [by injection Hc as <- _|].
    rewrite parent_absolute in Hc.
    destruct (create_dir_all_from cwd denied fuel (absolute y) t1) as [t2 o2] eqn:Hr.
    assert (is_Some (node_at t base)) as Hsome by (destruct Hb as [->|[c ->]]; by eexists).
    assert (dirs_added base t1 t2) as Ha2.
    { eapply IH; [apply Ha|by eapply dirs_added_free|..|exact Hr].
      - by rewrite (dirs_added_node _ _ _ Ha).
      - by eapply comparable_snoc. }
    pose proof (dirs_added_trans _ _ _ _ Ha Ha2) as Ha12.
    destruct o2 as [u|e]; [|by injection Hc as <- _].
    destruct (mkdir cwd denied (absolute (y ++ [n])) t2) as [t3 o3] eqn:Hm3.
    assert (dirs_added base t t3) as Ha3.
    { eapply dirs_added_trans; [exact Ha12|]. eapply mkdir_below; [apply Ha12|by eapply dirs_added_free|..|exact Hm3].
      - by rewrite (dirs_added_node _ _ _ Ha12).
      - done. }
    destruct o3 as [u3|e3]; [by injection Hc as <- _|].
    destruct (is_dir cwd denied t3 _); by injection Hc as <- _.
Qed.
End skill.

Section changes.
Context `{JsonText} (cwd : real) (denied : Call → path → bool) (allowed_roots : list path).
Context (current_dir : result path IoError) (temp_dir : path).
Context (glob : Tree → string → result (list path) string).
Notation execute_tool := (execute_tool cwd denied allowed_roots current_dir temp_dir glob).
Notation lookup_path := (lookup_path cwd denied).
Notation within := (within cwd denied allowed_roots).

(** Only what lies below [base] differs, and every directory is kept. *)
Definition changed_below (base : real) (t t' : Tree) : Prop :=
  well_formed t' ∧ ∀ r, t' !! r = t !! r ∨ base `prefix_of` r ∧ t !! r ≠ Some Directory.

Lemma dirs_changed base t t' : dirs_added base t t' → changed_below base t t'.
Proof.
  intros [Hw Ha]. split; [done|]. intros r. destruct (Ha r) as [?|(? & _ & Hn & _)]; [by left|].
  right. split; [done|]. by rewrite Hn.
Qed.

Lemma dirs_then_changed base t1 t2 t3 : dirs_added base t1 t2 → changed_below base t2 t3 → changed_below base t1 t3.
Proof.
  intros [_ H12] [Hw H23]. split; [done|]. intros r.
  destruct (H12 r) as [He|(? & ? & Hn & Hd)], (H23 r) as [He'|(? & Hn')].
  - left. congruence.
  - right. split; [done|]. congruence.
  - right. split; [done|]. by rewrite Hn.
  - congruence.
Qed.

Lemma write_below base names content t t' o :
  well_formed t → link_free t base →
  node_at t base = Some Directory ∨ (∃ c, node_at t base = Some (File c)) →
  write cwd denied (absolute (base ++ names)) content t = (t', o) → changed_below base t t'.
Proof.
  intros Hw Hf Hb. unfold write.
  assert (changed_below base t t) as Hsame by (by apply dirs_changed, dirs_added_refl).
  destruct (denied _ _); [by intros [= <- _]|]. unfold resolve, absolute.
  change (RootDir :: map Normal (base ++ names)) with (absolute (base ++ names)). rewrite walk_absolute.
  destruct (walk _ _ _ _ _) as [r|e] eqn:Hwalk; [|by intros [= <- _]].
  pose proof (walk_below _ _ _ _ _ _ Hw Hf Hb Hwalk) as Hr.
  pose proof (walk_ends _ _ _ Hw _ [] _ eq_refl Hwalk) as Hends.
  destruct Hends as [Hd|[[c Hc]|(_ & r0 & n & Hr0 & Hr0d & Hnone)]].
  - rewrite Hd. by intros [= <- _].
  - rewrite Hc. intros [= <- _]. destruct r as [|n y _] using rev_ind; [done|]. rewrite node_snoc in Hc.
    split; [apply insert_well_formed; [done|apply (Hw y n); by rewrite Hc|by rewrite Hc]|]. intros r'.
    destruct (decide (r' = y ++ [n])) as [->|?]; [|left; by rewrite lookup_insert_ne].
    right. rewrite Hc. split; [|done]. rewrite Hr. by apply prefix_app_r.
  - rewrite Hr0, node_snoc, <- Hr0, Hnone. intros [= <- _].
    split; [rewrite Hr0; apply insert_well_formed; [done|done|by rewrite <- Hr0, Hnone]|]. intros r'.
    destruct (decide (r' = r)) as [->|?]; [|left; by rewrite lookup_insert_ne].
    right. rewrite Hnone. split; [|done]. rewrite Hr. by apply prefix_app_r.
Qed.

Lemma rev_case {A} (l : list A) : l = [] ∨ ∃ y n, l = y ++ [n].
Proof. destruct l as [|n y _] using rev_ind; eauto. Qed.

Lemma write_file_below s content t t' o :
  well_formed t → node_at t cwd = Some Directory → (∀ r target, within t r → t !! r ≠ Some (Link target)) →
  write_file cwd denied allowed_roots s content t = (t', o) → ∃ base, changed_below base t t' ∧ (t' = t ∨ within t base).
Proof.
  intros Hw Hcwd Hlinks. unfold write_file.
  destruct (validate_write_path _ _ _ _ _) as [p|e] eqn:Hv.
  2: { intros [= <- _]. exists []. split; [by apply dirs_changed, dirs_added_refl|by left]. }
  apply validate_write_writable in Hv as (base & names & -> & Hin & Hb); [|done|done].
  assert (link_free t base) as Hf by (intros r target Hp; apply Hlinks; by eapply within_below).
  intros Hrun. exists base. split; [|by right].
  assert (∀ t1 o1, match parent (absolute (base ++ names)) with
      | Some up => io "Cannot create directories" (create_dir_all cwd denied up)
      | None => mret tt end t = (t1, o1) → dirs_added base t t1) as Hdirs.
  { intros t1 o1. destruct (rev_case (base ++ names)) as [->|(y & n & Heq)]; [|rewrite Heq];
     [intros [= <- _]; by apply dirs_added_refl|].
    rewrite parent_absolute. unfold io at 1.
    destruct (create_dir_all cwd denied (absolute y) t) as [t2 o2] eqn:Hc. intros [= <- _].
    eapply create_dirs_below; [done|done|done| |exact Hc].
    apply (comparable_snoc _ n). rewrite <- Heq. right. by apply prefix_app_r. }
  apply M_bind_inv in Hrun as [(t1 & u & H1 & H2)|(e & H1 & ->)]; [|by apply dirs_changed; eapply Hdirs].
  apply Hdirs in H1 as Ha.
  assert (node_at t1 base = Some Directory ∨ ∃ c, node_at t1 base = Some (File c)) as Hb1.
  { rewrite (dirs_added_node _ _ _ Ha); [done|]. destruct Hb as [->|[c ->]]; by eexists. }
  eapply dirs_then_changed; [exact Ha|]. destruct Ha as [Hw1 Ha1].
  apply M_bind_inv in H2 as [(t2 & u2 & H2 & H3)|(e & H2 & ->)]; [injection H3 as <- _|]; unfold io in H2;
    destruct (write cwd denied (absolute (base ++ names)) content t1) as [t3 o3] eqn:Hwr; injection H2 as <- _;
    (eapply write_below; [exact Hw1|by eapply dirs_added_free|exact Hb1|exact Hwr]).
Qed.

Lemma mkdir_tool_below s t t' o :
  well_formed t → node_at t cwd = Some Directory → (∀ r target, within t r → t !! r ≠ Some (Link target)) →
  mkdir_tool cwd denied allowed_roots s t = (t', o) → ∃ base, changed_below base t t' ∧ (t' = t ∨ within t base).
Proof.
  intros Hw Hcwd Hlinks. unfold mkdir_tool.
  assert (changed_below [] t t) as Hsame by (by apply dirs_changed, dirs_added_refl).
  destruct (validate_write_path _ _ _ _ _) as [p|e] eqn:Hv; [|intros [= <- _]; exists []; eauto].
  apply validate_write_writable in Hv as (base & names & -> & Hin & Hb); [|done|done].
  destruct (is_file _ _ _ _); [intros [= <- _]; exists []; eauto|].
  assert (link_free t base) as Hf by (intros r target Hp; apply Hlinks; by eapply within_below).
  intros Hrun. exists base. split; [|by right]. apply dirs_changed.
  destruct (create_dir_all cwd denied (absolute (base ++ names)) t) as [t1 o1] eqn:Hc.
  assert (t' = t1) as ->.
  { rewrite M_bind_eq in Hrun. unfold io in Hrun. rewrite Hc in Hrun. destruct o1; by injection Hrun as <- _. }
  eapply create_dirs_below; [done|done|done| |exact Hc]. right. by apply prefix_app_r.
Qed.

(** C24: without symbolic links below the allowed roots, a tool call keeps every
    directory and keeps the tree well formed; each place it changes is below an
    allowed root; and only tools that need a confirmation change anything. *)
Theorem changes_stay_in_roots tool_name params t t' o :
  well_formed t → node_at t cwd = Some Directory → (∀ r target, within t r → t !! r ≠ Some (Link target)) →
  execute_tool tool_name params t = (t', o) →
  well_formed t' ∧
  (∀ r, t' !! r ≠ t !! r → within t r ∧ t !! r ≠ Some Directory) ∧
  (t' ≠ t → ∀ d, d ∈ tools → name d = tool_name → requires_confirmation d = true ∧ autonomous d = false).
Proof.
  intros Hw Hcwd Hlinks Hrun.
  assert (t' = t ∨ ∃ base, changed_below base t t' ∧ (t' = t ∨ within t base) ∧
    (tool_name = "write_file" ∨ tool_name = "mkdir")) as Hcases.
  { unfold FilesystemSkill.execute_tool, with_text, reads_only in Hrun. unfold fail in Hrun.
    repeat case_decide; repeat case_match; simplify_eq; try by left.
    - apply write_file_below in Hrun as (base & ? & ?); [|done..]. right. exists base. auto.
    - apply mkdir_tool_below in Hrun as (base & ? & ?); [|done..]. right. exists base. auto. }
  destruct Hcases as [->|(base & [Hw' Hch] & Hin & Hname)]; [done|].
  split; [done|]. split.
  - intros r Hr. destruct (Hch r) as [He|[Hp Hn]]; [by destruct Hr|]. split; [|done].
    destruct Hin as [->|Hin]; [by destruct Hr|by eapply within_below].
  - intros _ d Hd Hdn. rewrite <- Hdn in Hname. clear -Hd Hname.
    apply list_elem_of_In in Hd. simpl in Hd. destruct_or! Hd; subst d; try done; by destruct Hname.
Qed.

(** What [read_file] answers for an existing path is the whole content of a
    regular file whose real place is below an allowed root, at most a mebibyte of
    valid UTF-8: links that lead out of the roots are refused. *)
Theorem reads_stay_in_roots params s t t' out :
  well_formed t → node_at t cwd = Some Directory → get_text params "path" = Some s →
  path_exists cwd denied t (components s) = true →
  execute_tool "read_file" params t = (t', Ok out) → success out = true →
  t' = t ∧ ∃ r c, lookup_path t (components s) = Ok r ∧ within t r ∧ node_at t r = Some (File c) ∧
    (Z.of_nat (String.length c) ≤ READ_LIMIT)%Z ∧ utf8_valid c = true ∧
    out = tool_success (Obj [("formatted", Str c); ("path", Str (display (absolute r)));
                             ("size_bytes", number (String.length c))]).
Proof.
  intros Hw Hcwd Hs He Hrun Hok.
  change (execute_tool "read_file" params t) with
    (with_text params "path" (λ p, reads_only (read_file cwd denied allowed_roots p)) t) in Hrun.
  unfold with_text, reads_only in Hrun. rewrite Hs in Hrun. injection Hrun as <- Hrun. split; [done|].
  unfold read_file in Hrun. destruct (validate_path _ _ _ _ _) as [p|] eqn:Hv; [|done].
  apply validate_existing in Hv as (r & Hr & -> & Hin); [|done].
  pose proof (lookup_real _ _ _ _ _ Hw Hcwd Hr) as Hnode.
  simpl in Hrun. destruct (is_file _ _ _ _) eqn:Hf; [|injection Hrun as <-; done].
  assert (lookup_path t (absolute r) = Ok r) as Hlr.
  { unfold is_file, node_of in Hf. destruct (FileTree.lookup_path cwd denied t (absolute r)) as [r'|] eqn:Hl; [|done].
    unfold FileTree.lookup_path in Hl. destruct (denied _ _); [done|]. unfold resolve, absolute in Hl.
    change (RootDir :: map Normal r) with (absolute r) in Hl.
    by rewrite walk_absolute, walk_real in Hl by done. }
  assert (∃ c, node_at t r = Some (File c)) as [c Hc].
  { unfold is_file, node_of in Hf. rewrite Hlr in Hf. destruct Hnode as [Hd|?]; [by rewrite Hd in Hf|done]. }
  assert (metadata_len cwd denied t (absolute r) = Ok (String.length c)) as Hlen.
  { unfold metadata_len. rewrite Hlr. simpl. by rewrite Hc. }
  rewrite Hlen in Hrun. simpl in Hrun.
  destruct (READ_LIMIT <? Z.of_nat (String.length c))%Z eqn:Hlim; [injection Hrun as <-; done|].
  assert (read cwd denied t (absolute r) = Ok c ∨ read cwd denied t (absolute r) = Err Denied) as Hread.
  { unfold read. destruct (denied _ _); [by right|]. left. unfold resolve, absolute.
    change (RootDir :: map Normal r) with (absolute r). rewrite walk_absolute, walk_real by done.
    simpl. by rewrite Hc. }
  destruct Hread as [Hread|Hread]; rewrite Hread in Hrun; [|done]. simpl in Hrun.
  destruct (utf8_valid c) eqn:Hu; [|done]. injection Hrun as <-.
  exists r, c. split_and!; try done. by apply Z.ltb_ge.
Qed.

(** The filter on the matches of a search compares names: what is reached through a
    parent of a root passes. *)
Theorem search_filter_is_lexical t root rest :
  root ∈ allowed_roots →
  is_within_allowed_roots cwd denied allowed_roots t
    (canonical_root cwd denied t root ++ ParentDir :: rest) = true.
Proof.
  intros Hin. unfold is_within_allowed_roots. apply existsb_exists. exists root.
  rewrite <- list_elem_of_In. split; [done|]. unfold path_starts_with.
  apply (proj2 (bool_decide_eq_true _)). by apply prefix_app_r.
Qed.
End changes.

(** ** Witnesses *)

Module Demo.

#[export] Instance json : JsonText := {| from_str _ := Err ""; to_string _ := "" |}.

Definition permit (_ : Call) (_ : path) : bool := false.
Definition roots : list path := [components "/home/a"].
Definition tree : Tree :=
  {[ ["home"] := Directory; ["home"; "a"] := Directory; ["home"; "a"; "notes"] := File "hi";
     ["etc"] := Directory; ["etc"; "passwd"] := File "root" ]}.
Definition no_match (_ : Tree) (_ : string) : result (list path) string := Ok [].
Definition run := execute_tool ["home"] permit roots (Ok [RootDir]) (components "/tmp") no_match.
Definition params (l : list (string * string)) : ToolParams := list_to_map (map (λ e, (e.1, Str e.2)) l).

(** A link in the root whose target is missing: the file is made where the link
    leads. *)
Definition dangling : Tree := <[["home"; "a"; "link"] := Link (components "/etc/cron")]> tree.

Theorem dangling_link_escapes :
  is_ok (run "write_file" (params [("path", "/home/a/link"); ("content", "x")]) dangling).2 = true ∧
  (run "write_file" (params [("path", "/home/a/link"); ("content", "x")]) dangling).1 !! ["etc"; "cron"] = Some (File "x") ∧
  dangling !! ["etc"; "cron"] = None.
Proof. vm_compute. done. Qed.

Definition escaping : path := components "/home/a/../../etc/passwd".

Theorem search_lists_outside :
  (execute_tool ["home"] permit roots (Ok [RootDir]) (components "/tmp") (λ _ _, Ok [escaping])
    "search_files" (params [("pattern", "../../etc/*"); ("root", "/home/a")]) tree).2 =
    Ok (tool_success (Obj
      [("formatted", Str "/home/a/../../etc/passwd"); ("pattern", Str "../../etc/*"); ("root", Str "/home/a");
       ("count", number 1); ("files", Arr [Str "/home/a/../../etc/passwd"])])) ∧
  lookup_path ["home"] permit tree escaping = Ok ["etc"; "passwd"].
Proof. vm_compute. done. Qed.

Definition write_params : ToolParams := params [("path", "a/sub/new"); ("content", "hello")].

Lemma changes_stay_in_roots_witness :
  (run "write_file" write_params tree).1 !! ["home"; "a"; "sub"; "new"] = Some (File "hello") ∧
  well_formed (run "write_file" write_params tree).1.
Proof.
  split; [vm_compute; reflexivity|].
  apply (changes_stay_in_roots ["home"] permit roots (Ok [RootDir]) (components "/tmp") no_match
    "write_file" write_params tree _ (run "write_file" write_params tree).2).
  - apply well_formed_b_ok. vm_compute. reflexivity.
  - reflexivity.
  - intros r target _. apply no_links_b_ok. vm_compute. reflexivity.
  - apply surjective_pairing.
Defined.

Definition read_out : ToolOutput :=
  tool_success (Obj [("formatted", Str "hi"); ("path", Str "/home/a/notes"); ("size_bytes", number 2)]).

Lemma reads_stay_in_roots_witness :
  run "read_file" (params [("path", "a/notes")]) tree = (tree, Ok read_out) ∧
  ∃ r c, lookup_path ["home"] permit tree (components "a/notes") = Ok r ∧ node_at tree r = Some (File c).
Proof.
  assert (run "read_file" (params [("path", "a/notes")]) tree = (tree, Ok read_out)) as Hrun by (vm_compute; reflexivity).
  split; [exact Hrun|].
  destruct (reads_stay_in_roots ["home"] permit roots (Ok [RootDir]) (components "/tmp") no_match
    (params [("path", "a/notes")]) "a/notes" tree tree read_out) as (_ & r & c & Hr & _ & Hc & _).
  - apply well_formed_b_ok. vm_compute. reflexivity.
  - reflexivity.
  - vm_compute. reflexivity.
  - vm_compute. reflexivity.
  - exact Hrun.
  - reflexivity.
  - exists r, c. split; [exact Hr|exact Hc].
Defined.
End Demo.
