(* ===== verification/SkillsSpec.v ===== *)
(** * The bundled skills: correctness
    What may be started, sent or changed, and what the answers hold. *)

From S2P Require Import Prelude RustStr RecordStore Paths FileTree UrlSecurity Json SkillPolicy SkillExecutor Chat SkillKit FilesystemSkill ShellSkill RecordSkills HostSkills.
From Stdlib Require Import ZArith Lia Ascii.
From stdpp Require Import base list sorting strings gmap pretty.

Open Scope rust_scope.

(** ** Processes *)

Lemma report_log what failed timed_out r log : (report what failed timed_out r log).1 = log.
Proof. unfold report. destruct r; try done. by destruct (process_output _ _ _ _). Qed.

Lemma find_none_all {A} (f : A → bool) l : List.find f l = None → ∀ x, x ∈ l → f x = false.
Proof. intros Hf x Hx. apply (List.find_none _ _ Hf). by apply list_elem_of_In. Qed.

(** A call of the shell skill starts nothing, or one shell with exactly the given
    command, in a directory that exists; and then the command, in lower case, holds no
    pattern of the blocklist and, unless elevation is allowed, no elevated command at its
    start or after a space. *)
Theorem shell_starts_checked_commands run_process is_dir skill tool_name params log :
  let log' := (Shell.execute_tool run_process is_dir skill tool_name params log).1 in
  log' = log ∨
  ∃ command dir, tool_name = "run_command" ∧ get_text params "command" = Some command ∧
    dir = get_text params "working_directory" ∧ log' = log ++ [mkInvocation "sh" ["-c"; command] dir] ∧
    (∀ d, dir = Some d → is_dir d = true) ∧
    (∀ p, p ∈ Shell.BLOCKED_PATTERNS → contains (to_lowercase command) p = false) ∧
    (Shell.allow_elevated skill = false → ∀ p, p ∈ Shell.ELEVATED_COMMANDS →
      starts_with (to_lowercase command) p = false ∧ contains (to_lowercase command) (" " +:+ p) = false).
Proof.
  cbv zeta. unfold Shell.execute_tool. case_decide as Hn; [by left|]. subst tool_name.
  destruct (get_text params "command") as [command|] eqn:Hc; [|by left].
  unfold Shell.run_command, Shell.check_safety.
  destruct (List.find _ Shell.BLOCKED_PATTERNS) eqn:Hb; [by left|].
  pose proof (find_none_all _ _ Hb) as Hblocked.
  set (lower := to_lowercase command) in *.
  assert (∀ e : bool, e = Shell.allow_elevated skill →
    (e = false → List.find (λ p, starts_with lower p || contains lower (" " +:+ p)) Shell.ELEVATED_COMMANDS = None) →
    e = false → ∀ p, p ∈ Shell.ELEVATED_COMMANDS →
      starts_with lower p = false ∧ contains lower (" " +:+ p) = false) as Helev.
  { intros e _ Hf Hef p Hp. apply orb_false_iff. by apply (find_none_all _ _ (Hf Hef)). }
  destruct (Shell.allow_elevated skill) eqn:Ha.
  2: destruct (List.find _ Shell.ELEVATED_COMMANDS) eqn:He; [by left|].
  all: destruct (get_text params "working_directory") as [dir|] eqn:Hd;
    [destruct (is_dir dir) eqn:Hdir; [|by left]|].
  all: right; exists command, (get_text params "working_directory"); rewrite M_bind_eq; unfold start; rewrite report_log;
    split_and!; try done; try (by rewrite Hd); try (by rewrite Hd; intros ? [= <-]); try (by apply Helev).
Qed.

Lemma run_git_log run_process args repo log :
  (Git.run_git run_process args repo log).1 =
    log ++ [mkInvocation "git" (match repo with Some p => "-C" :: p :: args | None => args end) None].
Proof. unfold Git.run_git. rewrite M_bind_eq. unfold start. by rewrite report_log. Qed.

(** A call of the git skill starts at most one process: [git], never a shell, in
    the given repository, with one of five subcommands; what the caller supplies (the
    number of commits, the message) is part of one argument. *)
Theorem git_arguments_are_fixed run_process tool_name params log :
  let log' := (Git.execute_tool run_process tool_name params log).1 in
  log' = log ∨
  ∃ args, log' = log ++ [mkInvocation "git"
      (match get_text params "repo_path" with Some p => "-C" :: p :: args | None => args end) None] ∧
    (args = ["status"; "--porcelain=v1"] ∨ args = ["branch"; "-a"] ∨ args = ["diff"] ∨ args = ["diff"; "--cached"] ∨
     args = ["log"; "--oneline"; "-" +:+ pretty (default 10%Z (get_u64 params "count"))] ∨
     ∃ message, get_text params "message" = Some message ∧ args = ["commit"; "-m"; message] ∧
       ∃ d, d ∈ map descriptor Git.skill_tools ∧ name d = tool_name ∧ requires_confirmation d = true).
Proof.
  cbv zeta. unfold Git.execute_tool. repeat case_decide; subst; try (by left).
  - right. eexists. split; [apply run_git_log|]. auto.
  - right. eexists. split; [apply run_git_log|]. naive_solver.
  - right. eexists. split; [apply run_git_log|]. destruct (default false _); naive_solver.
  - right. eexists. split; [apply run_git_log|]. naive_solver.
  - destruct (get_text params "message") as [message|] eqn:Hm; [|by left].
    right. eexists. split; [apply run_git_log|]. do 5 right. exists message. split; [done|]. split; [done|].
    eexists. split; [do 4 apply list_elem_of_further; by left|done].
Qed.

(** The command is put in lower case before it is compared: two patterns of the list
    have a capital letter. *)
Lemma lower_has_no_upper s c : is_ascii_upper c = true → contains (to_lowercase s) (String c "") = false.
Proof.
  intros Hc. induction s as [|d s IH]; [done|]. simpl. rewrite IH.
  destruct (decide (c = lower_char d)) as [->|Hn].
  - exfalso. unfold lower_char in Hc. revert Hc. clear. destruct d as [[] [] [] [] [] [] [] []]; vm_compute; congruence.
  - rewrite bool_decide_false by congruence. done.
Qed.

Lemma contains_part s p q : contains s p = true → contains p q = true → contains s q = true.
Proof.
  rewrite !contains_iff. intros (a & b & ->) (c & d & ->). exists (a +:+ c), (d +:+ b).
  by rewrite <- !str_app_assoc.
Qed.

Theorem capital_patterns_block_nothing command :
  contains (to_lowercase command) "chmod -R 777 /" = false ∧ contains (to_lowercase command) "chown -R" = false.
Proof.
  split; (destruct (contains _ _) eqn:Hc; [|done]); exfalso;
    (assert (contains (to_lowercase command) "R" = true) as Hr by (eapply contains_part; [exact Hc|done]));
    by rewrite lower_has_no_upper in Hr.
Qed.

Theorem chmod_of_the_root_is_run :
  Shell.check_safety Shell.new "chmod -R 777 /" = Ok tt ∧ "chmod -R 777 /" ∈ Shell.BLOCKED_PATTERNS.
Proof. split; [vm_compute; reflexivity|]. apply list_elem_of_In. unfold Shell.BLOCKED_PATTERNS. simpl. tauto. Qed.

(** *** The streams *)

Theorem cut_stream_spec s :
  match cut_stream s with
  | Some (t, false) => t = s ∧ (String.length s ≤ MAX_OUTPUT_BYTES)%nat
  | Some (t, true) =>
      (MAX_OUTPUT_BYTES < String.length s)%nat ∧
      t = str_take MAX_OUTPUT_BYTES s +:+ nl +:+ "... [output truncated]"
  | None => (MAX_OUTPUT_BYTES < String.length s)%nat ∧
      ∃ c rest, str_drop MAX_OUTPUT_BYTES s = String c rest ∧ is_continuation c = true
  end.
Proof.
  unfold cut_stream. destruct (Nat.ltb_spec MAX_OUTPUT_BYTES (String.length s)) as [Hl|Hl]; [|done].
  unfold slice_to. destruct (str_drop MAX_OUTPUT_BYTES s) as [|c rest] eqn:Hd.
  - rewrite bool_decide_false by lia. split; [done|]. exfalso.
    pose proof (str_take_drop MAX_OUTPUT_BYTES s) as Hs. rewrite Hd, str_app_nil_r in Hs.
    apply (f_equal String.length) in Hs. rewrite str_length_take in Hs. lia.
  - destruct (is_continuation c) eqn:Hc; [|done]. split; [done|]. by exists c, rest.
Qed.

(** ** The network *)

Lemma private_ip_agrees addr : Http.is_private_ip addr = UrlSecurity.is_private_ip addr.
Proof.
  destruct addr as [d|a b c d|segments]; [done| |done].
  unfold Http.is_private_ip, UrlSecurity.is_private_ip, is_private_v4. by destruct (a =? 0)%Z.
Qed.

#[local] Arguments Http.is_private_ip : simpl never.
#[local] Arguments UrlSecurity.is_private_ip : simpl never.

(** The guard of the HTTP skill lets through exactly the URLs that the guard of the
    capability layer lets through under its default policy, with the private addresses
    blocked unless the local network is allowed. *)
Theorem http_guard_agrees parse ipv6_to_string allow_local_network url_str url :
  Http.validate_url parse ipv6_to_string allow_local_network url_str = Ok url ↔
  UrlSecurity.validate_url parse ipv6_to_string url_str
    (mkUrlPolicy ["http"; "https"] DEFAULT_BLOCKED_HOSTS [] (negb allow_local_network)) = Ok url.
Proof.
  unfold Http.validate_url, UrlSecurity.validate_url. cbn [allowed_schemes blocked_hosts allowed_domains block_private_ips].
  destruct (parse url_str) as [u|e]; [|done]. simpl.
  assert (negb (bool_decide ("http" = scheme u) || (bool_decide ("https" = scheme u) || false)) =
    negb (bool_decide (scheme u = "http")) && negb (bool_decide (scheme u = "https"))) as ->.
  { rewrite orb_false_r, <- negb_orb. repeat case_bool_decide; by subst. }
  destruct (_ && _); [done|]. destruct (host_str u) as [h|]; [|done]. simpl.
  destruct (_ || _); [done|].
  destruct allow_local_network; [done|]. simpl. unfold check_private, is_local_domain.
  destruct (host u) as [[d|a b c d|segments]|]; [| | |done].
  - by destruct (_ || _).
  - rewrite private_ip_agrees. by destruct (UrlSecurity.is_private_ip _).
  - rewrite private_ip_agrees. by destruct (UrlSecurity.is_private_ip _).
Qed.

Lemma execute_request_sent from_utf8_lossy send r sent :
  (Http.execute_request from_utf8_lossy send r sent).1 = sent ++ [r].
Proof. done. Qed.

(** The HTTP skill hands its client nothing, or one request, to a URL that passed the
    guard; the redirects the client then follows are not checked. *)
Theorem http_requests_are_validated parse ipv6_to_string from_utf8_lossy send allow_local_network tool_name params sent :
  let sent' := (Http.execute_tool parse ipv6_to_string from_utf8_lossy send allow_local_network tool_name params sent).1 in
  sent' = sent ∨
  ∃ text url r, get_text params "url" = Some text ∧ sent' = sent ++ [r] ∧
    Http.validate_url parse ipv6_to_string allow_local_network text = Ok url ∧ Http.request_url r = url_text url ∧
    (Http.request_method r = "GET" ∧ tool_name = "http_get" ∨ Http.request_method r = "POST" ∧ tool_name = "http_post").
Proof.
  cbv zeta. unfold Http.execute_tool. repeat case_decide; subst; try (by left);
    (destruct (get_text params "url") as [text|]; [|by left]);
    unfold Http.http_get, Http.http_post, Http.validated;
    (destruct (Http.validate_url _ _ _ text) as [url|] eqn:Hv; [|by left]);
    rewrite execute_request_sent; right; exists text, url; eexists;
    split; [done| |done|]; (split; [reflexivity|]); split; auto.
Qed.

(** ** The database *)

(** Parameters are numbered from one and replaced in turn, as text: the tenth is taken
    for the first followed by a zero. *)
Theorem tenth_parameter_is_corrupted :
  (Database.rewrite_query "RETURN ?10" ["a"; "b"; "c"; "d"; "e"; "f"; "g"; "h"; "i"; "j"]).1 = "RETURN $p00".
Proof. vm_compute. reflexivity. Qed.

(** The test looks at the first word only, and [DEFINE] is let through. *)
Theorem read_oriented_statements_write :
  Database.read_oriented "SELECT 1; DELETE person" = true ∧ Database.read_oriented "DEFINE TABLE person" = true ∧
  Database.drops "REMOVE TABLE person" = false.
Proof. vm_compute. done. Qed.

(** ** Notifications *)

(** Each task has its own identifier, and the map of the skill holds just these. *)
Definition desktop_ok (d : Notification.Desktop) : Prop :=
  NoDup (map Notification.task_id (Notification.tasks d)) ∧
  ∀ i, i ∈ Notification.scheduled d ↔ i ∈ map Notification.task_id (Notification.tasks d).

Inductive desktop_step (show : Notification.Shown → option string) : Notification.Desktop → Notification.Desktop → Prop :=
| desktop_fires d t : t ∈ Notification.tasks d → desktop_step show d (Notification.fire show t d)
| desktop_call d now new_id tool_name params :
    new_id ∉ map Notification.task_id (Notification.tasks d) →
    desktop_step show d (Notification.execute_tool show now new_id tool_name params d).1
| desktop_shutdown d : desktop_step show d (Notification.shutdown d).

Lemma elem_of_ids i ts : i ∈ map Notification.task_id ts ↔ ∃ t, t ∈ ts ∧ Notification.task_id t = i.
Proof. rewrite list_elem_of_fmap. naive_solver. Qed.

Lemma filter_ids (P : string → Prop) `{∀ i, Decision (P i)} ts :
  map Notification.task_id (filter (λ t, P (Notification.task_id t)) ts) = filter P (map Notification.task_id ts).
Proof.
  induction ts as [|t ts IH]; [done|]. simpl. rewrite !filter_cons. simpl.
  case_decide; simpl; by rewrite IH.
Qed.

Lemma drop_tasks_ok (P : string → Prop) `{∀ i, Decision (P i)} d shown :
  desktop_ok d →
  desktop_ok (Notification.mkDesktop (filter (λ t, P (Notification.task_id t)) (Notification.tasks d))
    (filter P (Notification.scheduled d)) shown).
Proof.
  intros [Hn Hs]. split; simpl; rewrite filter_ids.
  - by apply NoDup_filter.
  - intros i. rewrite !list_elem_of_filter. by rewrite Hs.
Qed.

Lemma display_ok show n d : desktop_ok d → desktop_ok (Notification.display_note show n d).
Proof. intros Hd. unfold Notification.display_note. by destruct (show n). Qed.

Lemma shutdown_clears d : desktop_ok d → Notification.shutdown d = Notification.mkDesktop [] [] (Notification.shown d).
Proof.
  intros [_ Hs]. unfold Notification.shutdown. f_equal.
  assert (∀ ts, (∀ t, t ∈ ts → Notification.task_id t ∈ Notification.scheduled d) →
    filter (λ t, Notification.task_id t ∉ Notification.scheduled d) ts = []) as Hall.
  { intros ts. induction ts as [|t ts IH]; [done|]. intros Hin. rewrite filter_cons_False.
    - apply IH. intros t' Ht'. apply Hin. by right.
    - intros Hnot. apply Hnot, Hin. by left. }
  apply Hall. intros t Ht. apply Hs, elem_of_ids. by exists t.
Qed.

Lemma desktop_step_ok show d d' : desktop_step show d d' → desktop_ok d → desktop_ok d'.
Proof.
  intros [d1 t Ht|d1 now new_id tool_name params Hnew|d1] Hok.
  - unfold Notification.fire. cbv zeta.
    exact (drop_tasks_ok (λ i, i ≠ Notification.task_id t) _ _ (display_ok show _ _ Hok)).
  - unfold Notification.execute_tool. cbv zeta.
    repeat case_decide; repeat (match goal with |- context [match ?x with _ => _ end] => destruct x eqn:? end); try done.
    + by apply display_ok.
    + destruct Hok as [Hn Hs]. split; simpl; rewrite map_app; simpl.
      * apply NoDup_app. split_and!; [done| |apply NoDup_singleton].
        intros i Hi Hin. apply list_elem_of_singleton in Hin. by subst.
      * intros i. rewrite elem_of_cons, elem_of_app, list_elem_of_singleton, Hs. tauto.
    + unfold Notification.cancel_scheduled. case_bool_decide; [|done].
      exact (drop_tasks_ok (λ i, i ≠ s) _ _ Hok).
  - rewrite (shutdown_clears d1 Hok). split; [apply NoDup_nil_2|done].
Qed.

(** After a cancellation no task of that identifier is left to fire. *)
Theorem cancelled_never_fires i d d' :
  desktop_ok d → i ∈ Notification.scheduled d → (Notification.cancel_scheduled i d).1 = d' →
  desktop_ok d' ∧ (∀ t, t ∈ Notification.tasks d' → Notification.task_id t ≠ i) ∧
  (∀ t, t ∈ Notification.tasks d → Notification.task_id t ≠ i → t ∈ Notification.tasks d') ∧
  Notification.tasks (Notification.shutdown d') = [].
Proof.
  intros Hok Hi. unfold Notification.cancel_scheduled. rewrite bool_decide_true by done. intros <-.
  assert (desktop_ok (Notification.mkDesktop (filter (λ t, Notification.task_id t ≠ i) (Notification.tasks d))
    (filter (λ j, j ≠ i) (Notification.scheduled d)) (Notification.shown d))) as Hok'
    by exact (drop_tasks_ok (λ j, j ≠ i) _ _ Hok).
  split_and!; try done.
  - intros t. cbn [Notification.tasks fst]. rewrite list_elem_of_filter. by intros [? _].
  - intros t Ht Hne. cbn [Notification.tasks fst]. by apply list_elem_of_filter.
  - rewrite shutdown_clears; [done|exact Hok'].
Qed.

(** ** The tables *)

Section opened.
Context {T : Type} (make_dir open_db : T → result unit string).

Lemma open_store_same what s s' o : open_store make_dir open_db what s = (s', o) → s' = s.
Proof. unfold open_store. by intros [= <- _]. Qed.

Lemma failing_inv {A} what (m : M T string A) s s' o :
  failing what m s = (s', o) → ∃ r, m s = (s', r) ∧ o = map_err (tool_failed what) r.
Proof. unfold failing. destruct (m s) as [s1 r]. intros [= <- <-]. by exists r. Qed.

Lemma observing_inv {A} what (q : T → result A string) s s' o :
  observing what q s = (s', o) → s' = s ∧ o = map_err (tool_failed what) (q s).
Proof. unfold observing. intros Hf. apply failing_inv in Hf as (r & [= <- <-] & ->). done. Qed.
End opened.

Lemma sorted_filter {A} (R : A → A → Prop) (P : A → Prop) `{∀ x, Decision (P x)} l :
  StronglySorted R l → StronglySorted R (filter P l).
Proof.
  induction 1 as [|x l Hs IH Hx]; [constructor|]. rewrite filter_cons. case_decide; [|done].
  constructor; [done|]. apply Forall_forall. intros y [_ Hy]%list_elem_of_filter.
  by eapply Forall_forall in Hx.
Qed.

Module CalendarSpec.
Import Calendar.

Section spec.
Context {T : Type} `{RecordStoreLaws T CalendarEventDoc, !RecordQuery T CalendarEventDoc, !RecordQueryLaws T CalendarEventDoc}.
Context (make_dir open_db : T → result unit string).
Notation execute_tool := (execute_tool make_dir open_db).
Notation list_all := (list_all make_dir open_db).

(** The event an addition asks for. *)
Definition asked_for (new_id now : string) (params : ToolParams) (e : CalendarEventDoc) : Prop :=
  let text := get_text params in
  id e = new_id ∧ text "title" = Some (title e) ∧ text "start_time" = Some (start_time e) ∧
  description e = text "description" ∧ end_time e = text "end_time" ∧ location e = text "location" ∧
  created_at e = now.

(** [new] is the value given, or else [old]. *)
Definition given_or_kept {A} (given : option A) (old new : A) : Prop :=
  (∀ a, given = Some a → new = a) ∧ (given = None → new = old).

(** The event after an update: each field is the one given, or the one it had. *)
Definition updated (params : ToolParams) (e e' : CalendarEventDoc) : Prop :=
  let text := get_text params in
  id e' = id e ∧ created_at e' = created_at e ∧
  given_or_kept (text "title") (title e) (title e') ∧
  given_or_kept (text "start_time") (start_time e) (start_time e') ∧
  given_or_kept (Some <$> text "description") (description e) (description e') ∧
  given_or_kept (Some <$> text "end_time") (end_time e) (end_time e') ∧
  given_or_kept (Some <$> text "location") (location e) (location e').

Lemma patched_updated params e :
  let text := get_text params in
  updated params e (patched (text "title") (text "description") (text "start_time") (text "end_time") (text "location") e).
Proof.
  unfold updated, given_or_kept, patched. simpl.
  split_and!; try done; intros; simplify_option_eq; try done;
    repeat match goal with H : get_text params _ = _ |- _ => rewrite H end; simplify_option_eq; done.
Qed.

(** What a call that succeeds does to the table, as a map from identifiers to events. *)
Definition acts (new_id now tool_name : string) (params : ToolParams) (m m' : gmap string CalendarEventDoc) : Prop :=
  if decide (tool_name = "calendar_add_event") then
    m !! new_id = None ∧ ∃ e, asked_for new_id now params e ∧ m' = <[new_id := e]> m
  else if decide (tool_name = "calendar_delete_event") then
    ∃ i, get_text params "id" = Some i ∧ is_Some (m !! i) ∧ m' = delete i m
  else if decide (tool_name = "calendar_update_event") then
    ∃ i e e', get_text params "id" = Some i ∧ m !! i = Some e ∧ updated params e e' ∧ m' = <[i := e']> m
  else m' = m.

(** A call that succeeds. *)
Definition done_ok (o : result ToolOutput SkillError) : bool :=
  match o with Ok out => success out | Err _ => false end.

Lemma list_all_inv s s' o :
  list_all s = (s', o) → s' = s ∧ ∀ l, o = Ok l → l ≡ₚ (map_to_list (contents s)).*2 ∧ StronglySorted (λ x y, by_start x y) l.
Proof.
  intros Hrun. apply M_bind_inv in Hrun as [(s1 & a & H1 & H2)|(e & H1 & ->)].
  - apply open_store_same in H1 as ->. apply observing_inv in H2 as [-> ->]. split; [done|]. intros l Hl.
    destruct (store_query _ _ _ s) as [l'|] eqn:Hq; [|done]. injection Hl as ->.
    apply store_query_spec in Hq as (rest & Hp & Hs & _ & Hr).
    + simpl in Hr. subst rest. rewrite app_nil_r in Hp. split; [|done]. rewrite Hp.
      clear. induction (map_to_list (contents s)).*2 as [|x l IH]; [done|]. by rewrite filter_cons_True, IH.
    + intros x y. unfold by_start. rewrite !Is_true_true. apply string_leb_total.
    + intros x y z. unfold by_start. rewrite !Is_true_true. apply string_leb_trans.
  - by apply open_store_same in H1 as ->.
Qed.

Lemma get_event_inv i s s' o :
  get_event make_dir open_db i s = (s', o) → s' = s ∧ ∀ found, o = Ok found → found = contents s !! i.
Proof.
  intros Hrun. apply M_bind_inv in Hrun as [(s1 & a & H1 & H2)|(e & H1 & ->)].
  - apply open_store_same in H1 as ->. apply observing_inv in H2 as [-> ->]. split; [done|]. intros found Hf.
    destruct (store_select i s) as [r|] eqn:Hq; [|done]. injection Hf as ->. by apply store_select_spec in Hq.
  - by apply open_store_same in H1 as ->.
Qed.

(** C25: a call of the calendar acts on the table as a finite map: an addition inserts an
    event with the fields it is given, under an identifier that was not in use; an update
    replaces the fields it is given of an event there is and keeps its other fields; a
    deletion removes one event there is; and nothing else, nor a call that fails, changes
    the table. *)
Theorem calendar_refines_map new_id now tool_name params s s' o :
  execute_tool new_id now tool_name params s = (s', o) →
  if done_ok o then acts new_id now tool_name params (contents s) (contents s') else contents s' = contents s.
Proof.
  unfold Calendar.execute_tool, acts. cbv zeta.
  destruct (decide (tool_name = "calendar_add_event")) as [->|Hn1].
  { destruct (get_text params "title") as [ti|] eqn:Hti; [|by intros [= <- <-]].
    destruct (get_text params "start_time") as [st|] eqn:Hst; [|by intros [= <- <-]].
    intros Hrun. apply M_bind_inv in Hrun as [(s1 & u & H1 & H2)|(e & H1 & ->)];
      [|by apply open_store_same in H1 as ->].
    apply open_store_same in H1 as ->.
    apply M_bind_inv in H2 as [(s2 & v & H2 & H3)|(e & H2 & ->)]; apply failing_inv in H2 as (r & H2 & Hr);
      apply store_create_spec in H2; destruct r; try done; [|simpl; by rewrite H2].
    injection H3 as <- <-. simpl. destruct H2 as [Hfresh ->]. split; [done|].
    eexists. split; [|done]. unfold asked_for. cbn. by split_and!. }
  destruct (decide (tool_name = "calendar_list_events")) as [->|Hn2].
  { rewrite !decide_False by done. intros Hrun.
    apply M_bind_inv in Hrun as [(s1 & l & H1 & H2)|(e & H1 & ->)]; apply list_all_inv in H1 as [-> _].
    - injection H2 as <- <-. done.
    - done. }
  destruct (decide (tool_name = "calendar_delete_event")) as [->|Hn3].
  { destruct (get_text params "id") as [i|]; [|by intros [= <- <-]]. intros Hrun.
    apply M_bind_inv in Hrun as [(s1 & found & H1 & H2)|(e & H1 & ->)]; apply get_event_inv in H1 as [-> Hf]; [|done].
    specialize (Hf found eq_refl). destruct found as [ev|]; [|by injection H2 as <- <-].
    apply M_bind_inv in H2 as [(s1 & u & H1 & H2)|(e & H1 & ->)]; apply open_store_same in H1 as ->; [|done].
    apply M_bind_inv in H2 as [(s2 & v & H2 & H3)|(e & H2 & ->)]; apply failing_inv in H2 as (r & H2 & Hr);
      apply store_delete_spec in H2; destruct r; try done; [|simpl; by rewrite H2].
    injection H3 as <- <-. simpl. exists i. by rewrite <- Hf. }
  destruct (decide (tool_name = "calendar_update_event")) as [->|Hn4]; [|by intros [= <- <-]].
  destruct (get_text params "id") as [i|]; [|by intros [= <- <-]]. intros Hrun.
  apply M_bind_inv in Hrun as [(s1 & found & H1 & H2)|(e & H1 & ->)]; apply get_event_inv in H1 as [-> Hf]; [|done].
  specialize (Hf found eq_refl). destruct found as [ev|]; [|by injection H2 as <- <-].
  apply M_bind_inv in H2 as [(s1 & u & H1 & H2)|(e & H1 & ->)]; apply open_store_same in H1 as ->; [|done].
  apply M_bind_inv in H2 as [(s2 & v & H2 & H3)|(e & H2 & ->)]; apply failing_inv in H2 as (r & H2 & Hr);
    apply store_upsert_spec in H2; destruct r; try done; [|simpl; by rewrite H2].
  injection H3 as <- <-. simpl. rewrite H2. eexists i, ev, _. rewrite <- Hf.
  split_and!; [done..|apply patched_updated|done].
Qed.

(** The events a listing shows are those of the table whose start lies between the
    bounds, in the order of their starts, texts compared as texts. *)
Theorem listing_shows_the_range from to s s' out :
  list_events make_dir open_db from to s = (s', Ok out) →
  s' = s ∧ ∃ events, events ≡ₚ filter (in_range from to) (map_to_list (contents s)).*2 ∧
    StronglySorted (λ x y, by_start x y) events ∧
    data out ≫= get "events" = Some (Arr (map to_value events)) ∧
    data out ≫= get "count" = Some (number (length events)).
Proof.
  intros Hrun. apply M_bind_inv in Hrun as [(s1 & l & H1 & H2)|(e & H1 & [=])].
  apply list_all_inv in H1 as [-> Hl]. specialize (Hl l eq_refl) as [Hp Hs].
  injection H2 as <- <-. split; [done|]. exists (filter (in_range from to) l).
  split; [by rewrite Hp|]. split; [by apply sorted_filter|]. split; [done|]. simpl. by rewrite length_map.
Qed.
End spec.
End CalendarSpec.

Lemma split_join_from sep word x l :
  Forall (λ t, contains t (String sep "") = false) (x :: l) →
  split_on_from sep word (RustStr.join (String sep "") (x :: l)) = (word +:+ x) :: l.
Proof.
  assert (∀ x word rest, contains x (String sep "") = false →
    split_on_from sep word (x +:+ rest) = split_on_from sep (word +:+ x) rest) as Hword.
  { clear. induction x as [|c x IH]; intros word rest Hx; [by rewrite str_app_nil_r|].
    simpl in Hx. apply orb_false_iff in Hx as [Hc Hx]. simpl.
    destruct (decide (c = sep)) as [->|Hd].
    - rewrite bool_decide_true in Hc by done. by destruct x.
    - rewrite IH by done. by rewrite <- str_app_assoc. }
  revert word x. induction l as [|y l IH]; intros word x Hall; apply Forall_cons in Hall as [Hx Hall].
  - simpl. rewrite <- (str_app_nil_r x) at 1. by rewrite Hword.
  - change (RustStr.join (String sep "") (x :: y :: l)) with (x +:+ String sep (RustStr.join (String sep "") (y :: l))).
    rewrite Hword by done. cbn [split_on_from]. rewrite decide_True by done. by rewrite IH.
Qed.

Lemma split_join sep x l :
  Forall (λ t, contains t (String sep "") = false) (x :: l) →
  split_on sep (RustStr.join (String sep "") (x :: l)) = x :: l.
Proof. intros Hall. unfold split_on. by rewrite split_join_from. Qed.

Module KnowledgeSpec.
Import Knowledge.

(** A tag that was stored is found again, when no tag has a comma and it has no space
    around it. *)
Theorem stored_tag_is_found new_id title content category now tags tag :
  Forall (λ t, contains t "," = false) tags → tag ∈ tags → trim tag = tag →
  has_tag (Some tag) (mkEntryDoc new_id title content (Some (RustStr.join "," tags)) category now now) = true.
Proof.
  intros Hall Hin Ht. destruct tags as [|x l]; [by apply elem_of_nil in Hin|]. unfold has_tag. cbn [tags].
  pose proof (split_join "," x l Hall) as ->. apply existsb_exists. exists tag. split; [by apply list_elem_of_In|].
  by apply bool_decide_true.
Qed.

(** The tags are joined by commas: one with a comma in it is two tags, and not found. *)
Theorem comma_tag_is_lost :
  let e := mkEntryDoc "1" "t" "c" (Some (RustStr.join "," ["red, white"])) None "n" "n" in
  has_tag (Some "red, white") e = false ∧ distinct_tags [e] = ["red"; "white"].
Proof. vm_compute. done. Qed.

(** The tags listed are those found by a search, each once, in order. *)
Theorem listed_tags_are_searchable all tag :
  tag ∈ distinct_tags all ↔ tag ≠ "" ∧ ∃ e, e ∈ all ∧ tags e ≠ None ∧ has_tag (Some tag) e = true.
Proof.
  unfold distinct_tags. cbv zeta. rewrite (sort_by_perm String.leb), elem_of_remove_dups, list_elem_of_In, in_concat. split.
  - intros (l & (e & <- & He)%in_map_iff & Hin%list_elem_of_In). destruct (tags e) as [csv|] eqn:Hcsv; [|by apply elem_of_nil in Hin].
    apply list_elem_of_filter in Hin as [Hne Hin]. apply list_elem_of_fmap in Hin as (item & -> & Hitem).
    split; [done|]. exists e. split; [by apply list_elem_of_In|]. split; [by rewrite Hcsv|].
    unfold has_tag. rewrite Hcsv. apply existsb_exists. exists item. split; [by apply list_elem_of_In|]. by apply bool_decide_true.
  - intros (Hne & e & He & Hs & Ht). destruct (tags e) as [csv|] eqn:Hcsv; [|done].
    unfold has_tag in Ht. rewrite Hcsv in Ht. apply existsb_exists in Ht as (item & Hitem & Hd).
    pose proof (proj1 (bool_decide_eq_true _) Hd) as <-.
    eexists. split; [apply in_map_iff; exists e; split; [reflexivity|by apply list_elem_of_In]|].
    rewrite Hcsv. apply list_elem_of_In, list_elem_of_filter. split; [done|].
    apply list_elem_of_fmap. exists item. split; [done|by apply list_elem_of_In].
Qed.
End KnowledgeSpec.

(** ** Witnesses *)

Lemma shell_starts_checked_commands_witness :
  (Shell.execute_tool (λ _, Exited "hi" "" (Some 0%Z)) (λ _, true) Shell.new "run_command" {["command" := Str "echo hi"]} []).1 =
    [mkInvocation "sh" ["-c"; "echo hi"] None] ∧
  contains "echo hi" "rm -rf /" = false.
Proof.
  split; [vm_compute; reflexivity|].
  destruct (shell_starts_checked_commands (λ _, Exited "hi" "" (Some 0%Z)) (λ _, true) Shell.new "run_command"
    {["command" := Str "echo hi"]} []) as [Hn|(c & d & _ & Hc & _ & _ & _ & Hb & _)].
  - vm_compute in Hn. discriminate.
  - vm_compute in Hc. injection Hc as <-. apply (Hb "rm -rf /"). by left.
Defined.

Module Table.
Import Calendar.
Definition never (_ : gmap string CalendarEventDoc) : result unit string := Ok tt.
Definition meeting : CalendarEventDoc := mkEvent "e1" "Review" None "2025-01-01T10:00" None None "2024-12-01".
Definition table : gmap string CalendarEventDoc := {["e1" := meeting]}.
Definition moved : ToolParams := {["id" := Str "e1"; "start_time" := Str "2025-01-02T10:00"]}.
Definition answer : ToolOutput :=
  tool_success (Obj [("formatted", Str "Event 'e1' updated."); ("id", Str "e1"); ("updated", Bool true)]).

Lemma calendar_refines_map_witness :
  ∃ e', contents (T:=gmap string CalendarEventDoc) (R:=CalendarEventDoc)
      (execute_tool never never "new" "now" "calendar_update_event" moved table).1 = <["e1" := e']> table ∧
    title e' = "Review" ∧ start_time e' = "2025-01-02T10:00" ∧ description e' = None.
Proof.
  assert (execute_tool never never "new" "now" "calendar_update_event" moved table =
    ((execute_tool never never "new" "now" "calendar_update_event" moved table).1, Ok answer)) as Hrun
    by (vm_compute; reflexivity).
  destruct (CalendarSpec.calendar_refines_map never never "new" "now" "calendar_update_event" moved table _ (Ok answer) Hrun)
    as (i & e & e' & Hi & He & Hu & Hm).
  assert (Some "e1" = Some i) as [= <-] by (rewrite <- Hi; vm_compute; reflexivity).
  assert (Some meeting = Some e) as [= <-] by (rewrite <- He; vm_compute; reflexivity).
  destruct Hu as (_ & _ & [_ Ht] & [Hs _] & [_ Hd] & _).
  exists e'. split; [exact Hm|]. split; [apply Ht; vm_compute; reflexivity|].
  split; [apply Hs; vm_compute; reflexivity|apply Hd; vm_compute; reflexivity].
Defined.
End Table.
