(* ===== verification/Verifier.v ===== *)
(** * Verification of the constitutional documents
    [Verifier] ([crates/abigail-core/src/verifier.rs]), the documents and the text
    that is signed ([document.rs]) and the vault that holds the public key
    ([vault/external.rs]).  Base64, ed25519 and JSON are parameters; a directory
    is a function from file names to what reading them gives: [None] for a
    missing file, an error, or the bytes. *)

From S2P Require Import Prelude RustStr SecureFs.
From Stdlib Require Import ZArith Lia Ascii.
From stdpp Require Import base list strings gmap pretty.

Open Scope rust_scope.

Inductive DocumentTier : Type := Constitutional | MentorEditable.

(** [format!("{:?}", tier)] *)
Definition tier_debug (t : DocumentTier) : string :=
  match t with Constitutional => "Constitutional" | MentorEditable => "MentorEditable" end.

Record CoreDocument : Type := mkDocument {
  name : string;
  tier : DocumentTier;
  content : string;
  signature : string;
  signed_at : string;
}.

Definition signable_bytes (doc : CoreDocument) : string :=
  name doc +:+ "|" +:+ tier_debug (tier doc) +:+ "|" +:+ content doc.

Record SigMeta : Type := mkSigMeta {
  meta_signature : string;
  meta_tier : DocumentTier;
  meta_signed_at : string;
}.

Notation Dir := (string → option (result string string)).

Section verifier.
Context {PubKey Sig : Type}.
Context (b64_decode : string → result string string).
Context (key_from_bytes : string → result PubKey string).
Context (sig_from_slice : string → result Sig string).
Context (verify : PubKey → string → Sig → bool).
Context (parse_meta : string → result SigMeta string).

(** ** The vault *)

Definition ED25519_SPKI_PREFIX : string :=
  foldr String EmptyString (map ascii_of_N
    [0x30; 0x2a; 0x30; 0x05; 0x06; 0x03; 0x2b; 0x65; 0x70; 0x03; 0x21; 0x00]%N).

Definition invalid_key (e : string) : CoreError := Vault ("Invalid Ed25519 public key: " +:+ e).

Definition parse_pem_public_key (pem : string) : result PubKey CoreError :=
  let b64 :=
    RustStr.join "" (filter (λ l, negb (starts_with l "-----") && negb (str_is_empty l)) (lines pem)) in
  let? der := map_err (λ e, Vault ("Invalid PEM base64: " +:+ e)) (b64_decode b64) in
  if bool_decide (String.length der = 44) && starts_with der ED25519_SPKI_PREFIX
  then map_err invalid_key (key_from_bytes (str_drop 12 der))
  else if decide (String.length der = 32) then map_err invalid_key (key_from_bytes der)
  else Err (Vault ("Unsupported PEM key format (DER length: " +:+ pretty (String.length der) +:+
         "). Expected Ed25519 SPKI (44 bytes) or raw (32 bytes).")).

Definition read_public_key (read : Dir) (path : string) : result PubKey CoreError :=
  match read path with
  | None => Err (Vault ("External public key not found: " +:+ path))
  | Some (Err e) =>
      Err (Vault ("Failed to read external public key at " +:+ path +:+ ": " +:+ e))
  | Some (Ok data) =>
      if decide (String.length data = 32) then map_err invalid_key (key_from_bytes data)
      else if utf8_valid data && contains data "-----BEGIN" then parse_pem_public_key data
      else
        let unrecognized :=
          Err (Vault ("Unrecognized public key format at " +:+ path +:+
                 ". Expected 32-byte raw, base64, or PEM.")) in
        match b64_decode data with
        | Ok decoded =>
            if decide (String.length decoded = 32)
            then map_err invalid_key (key_from_bytes decoded)
            else unrecognized
        | Err _ => unrecognized
        end
  end.

(** ** The verifier *)

Record Verifier : Type := mkVerifier {
  pubkey : PubKey;
  documents : gmap string CoreDocument;
}.

Definition verify_document (v : Verifier) (doc : CoreDocument) : result unit CoreError :=
  let? signature_bytes :=
    map_err (λ e, Crypto ("Invalid signature encoding: " +:+ e)) (b64_decode (signature doc)) in
  let? sig :=
    map_err (λ e, Crypto ("Invalid signature: " +:+ e)) (sig_from_slice signature_bytes) in
  if verify (pubkey v) (signable_bytes doc) sig then Ok tt
  else Err (SignatureInvalid (name doc)).

Definition required_docs : list string := ["soul.md"; "ethics.md"; "instincts.md"].

(** One document of the loop: what is built from the two files. *)
Definition load_document (dir : Dir) (doc_name : string) : result CoreDocument CoreError :=
  match dir doc_name, dir (doc_name +:+ ".sig") with
  | None, _ => Err (DocumentNotFound doc_name)
  | Some _, None => Err (DocumentNotFound (doc_name +:+ ".sig"))
  | Some doc_file, Some sig_file =>
      let? text := map_err Io doc_file in
      let? sig_json := map_err Io sig_file in
      let? meta :=
        map_err (λ e, ConfigError ("Invalid .sig JSON: " +:+ e)) (parse_meta sig_json) in
      Ok (mkDocument doc_name (meta_tier meta) text (meta_signature meta) (meta_signed_at meta))
  end.

Definition verify_soul (dir : Dir) : M Verifier CoreError unit :=
  for_each required_docs (λ doc_name,
    doc ← lift_result (load_document dir doc_name);
    v ← get_state;
    lift_result (verify_document v doc) ;;
    modify (λ v, mkVerifier (pubkey v) (<[doc_name := doc]> (documents v)))).

Definition soul_content (v : Verifier) : option string := content <$> documents v !! "soul.md".
Definition ethics_content (v : Verifier) : option string := content <$> documents v !! "ethics.md".

(** [AppConfig::effective_external_pubkey_path] *)
Definition effective_external_pubkey_path (read : Dir) (configured : option string)
    (data_dir : string) : option string :=
  match configured with
  | Some p => Some p
  | None =>
      let auto_path := data_dir +:+ "/external_pubkey.bin" in
      match read auto_path with Some _ => Some auto_path | None => None end
  end.

Definition verify_constitutional_integrity (read : Dir) (configured : option string)
    (data_dir : string) (docs : Dir) : result unit CoreError :=
  let? path :=
    ok_or (effective_external_pubkey_path read configured data_dir)
      (Vault "No external public key is configured for constitutional verification") in
  let? key := read_public_key read path in
  (verify_soul docs (mkVerifier key ∅)).2.
End verifier.
