(* ===== verification/Birth.v ===== *)
(** * First run: the birth of an entity

    [BirthOrchestrator] ([crates/abigail-birth/src/stages.rs]), its conversation
    file ([persistence.rs]), the signing of the constitutional documents and the
    key pair ([crates/abigail-core/src/keyring.rs]).  The cryptography is a parameter; each call
    that can fail outside the program (disk, database) takes its error from
    [Faults]. *)

From S2P Require Import Prelude RustStr.
From Stdlib Require Import ZArith Lia Ascii.
From stdpp Require Import base list sets strings gmap pretty.

Inductive BirthStage : Type :=
| Darkness | Ignition | Connectivity | Crystallization | Emergence.

#[export] Instance BirthStage_eq_dec : EqDecision BirthStage.
Proof. solve_decision. Defined.

Definition display_message (s : BirthStage) : string :=
  match s with
  | Darkness => "Awakening in the dark..."
  | Ignition => "Igniting the local mind..."
  | Connectivity => "Reaching outward..."
  | Crystallization => "Crystallizing identity..."
  | Emergence => "I breathe. I am."
  end.

Definition stage_name (s : BirthStage) : string :=
  match s with
  | Darkness => "Darkness"
  | Ignition => "Ignition"
  | Connectivity => "Connectivity"
  | Crystallization => "Crystallization"
  | Emergence => "Emergence"
  end.

Definition next_stage (s : BirthStage) : option BirthStage :=
  match s with
  | Darkness => Some Ignition
  | Ignition => Some Connectivity
  | Connectivity => Some Crystallization
  | Crystallization => Some Emergence
  | Emergence => None
  end.

Inductive BirthError : Type :=
| AlreadyBorn
| StoreError (msg : string)
| ConfigError (msg : string)
| StageGuard (stage : string)
| NoSigningKey
| IoError (msg : string).

(** What the outside does during one call: the error of each operation, if any (a
    failed write leaves the old file; a document that exists can be read), and
    the instant at which each document is signed. *)
Record Faults : Type := mkFaults {
  f_keypair : option string;
  f_config_save : option string;
  f_docs_dir : option string;
  f_write : string → option string;
  f_store : option string;
  f_insert : option string;
  signed_at : string → string;
}.

Definition no_faults : Faults := mkFaults None None None (λ _, None) None None (λ _, "").

Section birth.
Context {Key Depth : Type}.
(** The 32 bytes of the public key; base64 of the key's own bytes and the inverse
    with the length check; the base64 ed25519 signature of a text; the JSON of
    [SignatureMetadata]. *)
Context (public_bytes : Key → string).
Context (key_base64 : Key → string) (parse_key : string → result Key string).
Context (sign : Key → string → string) (metadata_json : string → string → string → string).

Record BirthConfig : Type := mkConfig {
  external_pubkey_path : option string;
  birth_stage : option string;
  birth_complete : bool;
}.

(** The orchestrator and what it writes to: the configuration file, the public
    key file ([external_pubkey.bin]), the documents directory, the birth record and the conversation
    file. *)
Record BirthOrchestrator : Type := mkBirth {
  config : BirthConfig;
  stage : BirthStage;
  signing_key : option Key;
  private_key_base64 : option string;
  conversation_history : list (string * string);
  crystallization_engine : option Depth;
  saved_config : option BirthConfig;
  pubkey_file : option string;
  docs : gmap string string;
  birth_record : option string;
  conversation_file : option (string * list (string * string));
}.

Notation B := (M BirthOrchestrator BirthError).

Definition with_config (f : BirthConfig → BirthConfig) : B unit :=
  modify (λ b, mkBirth (f (config b)) (stage b) (signing_key b) (private_key_base64 b)
    (conversation_history b) (crystallization_engine b) (saved_config b) (pubkey_file b)
    (docs b) (birth_record b) (conversation_file b)).
Definition set_stage (s : BirthStage) : B unit :=
  modify (λ b, mkBirth (config b) s (signing_key b) (private_key_base64 b)
    (conversation_history b) (crystallization_engine b) (saved_config b) (pubkey_file b)
    (docs b) (birth_record b) (conversation_file b)).
Definition set_keys (k : option Key) (b64 : option string) : B unit :=
  modify (λ b, mkBirth (config b) (stage b) k b64
    (conversation_history b) (crystallization_engine b) (saved_config b) (pubkey_file b)
    (docs b) (birth_record b) (conversation_file b)).
Definition set_conversation (l : list (string * string)) : B unit :=
  modify (λ b, mkBirth (config b) (stage b) (signing_key b) (private_key_base64 b)
    l (crystallization_engine b) (saved_config b) (pubkey_file b)
    (docs b) (birth_record b) (conversation_file b)).
Definition set_engine (e : option Depth) : B unit :=
  modify (λ b, mkBirth (config b) (stage b) (signing_key b) (private_key_base64 b)
    (conversation_history b) e (saved_config b) (pubkey_file b)
    (docs b) (birth_record b) (conversation_file b)).
Definition set_pubkey_file (x : option string) : B unit :=
  modify (λ b, mkBirth (config b) (stage b) (signing_key b) (private_key_base64 b)
    (conversation_history b) (crystallization_engine b) (saved_config b) x
    (docs b) (birth_record b) (conversation_file b)).
Definition put_doc (name content : string) : B unit :=
  modify (λ b, mkBirth (config b) (stage b) (signing_key b) (private_key_base64 b)
    (conversation_history b) (crystallization_engine b) (saved_config b) (pubkey_file b)
    (<[name := content]> (docs b)) (birth_record b) (conversation_file b)).
Definition set_birth_record (r : option string) : B unit :=
  modify (λ b, mkBirth (config b) (stage b) (signing_key b) (private_key_base64 b)
    (conversation_history b) (crystallization_engine b) (saved_config b) (pubkey_file b)
    (docs b) r (conversation_file b)).
Definition set_conversation_file (f : option (string * list (string * string))) : B unit :=
  modify (λ b, mkBirth (config b) (stage b) (signing_key b) (private_key_base64 b)
    (conversation_history b) (crystallization_engine b) (saved_config b) (pubkey_file b)
    (docs b) (birth_record b) f).

(** An outside call: its error, if any, is the caller's. *)
Definition outside (f : option string) (wrap : string → BirthError) : B unit :=
  match f with Some e => fail (wrap e) | None => mret tt end.

Definition save_config (fl : Faults) : B unit :=
  outside (f_config_save fl) IoError ;;
  modify (λ b, mkBirth (config b) (stage b) (signing_key b) (private_key_base64 b)
    (conversation_history b) (crystallization_engine b) (Some (config b)) (pubkey_file b)
    (docs b) (birth_record b) (conversation_file b)).

Definition guard_stage (ok : BirthStage → bool) : B unit :=
  b ← get_state; ensure (ok (stage b)) (StageGuard (stage_name (stage b))).

Definition is_stage (s : BirthStage) (s' : BirthStage) : bool := bool_decide (s' = s).

(** [has_birth] reads the database; [record_birth] checks again and creates, each of
    which may fail. *)
Definition has_birth (fl : Faults) : B bool :=
  outside (f_store fl) StoreError ;;
  b ← get_state; mret (bool_decide (is_Some (birth_record b))).

Definition record_birth (fl : Faults) (content : string) : B unit :=
  born ← has_birth fl;
  ensure (negb born) (StoreError "birth already recorded") ;;
  outside (f_insert fl) StoreError ;;
  set_birth_record (Some content).

(** The constructor; [file] is the outcome of reading the conversation file. *)
Definition bootstrap (fl : Faults) (cfg : BirthConfig) (saved : option BirthConfig) (pubkey : option string)
    (docs0 : gmap string string) (record : option string)
    (file : option (string * list (string * string))) : result BirthOrchestrator BirthError :=
  match f_store fl with
  | Some e => Err (StoreError e)
  | None =>
      if bool_decide (is_Some record) then Err AlreadyBorn
      else Ok (mkBirth cfg Darkness None None
                 (match file with Some (_, messages) => messages | None => [] end)
                 None saved pubkey docs0 record file)
  end.

(** [k] is the key drawn by the generator.  [data_dir] is the path of the data
    directory. *)
Definition generate_identity (fl : Faults) (k : Key) (data_dir : string) : B unit :=
  guard_stage (is_stage Darkness) ;;
  b ← get_state;
  if bool_decide (is_Some (pubkey_file b)) && bool_decide (is_Some (signing_key b)) then mret tt
  else
    outside (f_keypair fl) IoError ;;
    set_pubkey_file (Some (public_bytes k)) ;;
    key ← lift_result (map_err ConfigError (parse_key (key_base64 k)));
    set_keys (Some key) (Some (key_base64 k)) ;;
    with_config (λ c, mkConfig (Some (data_dir +:+ "/external_pubkey.bin")) (birth_stage c)
                        (birth_complete c)) ;;
    save_config fl ;;
    outside (f_docs_dir fl) IoError.

Definition get_private_key_base64 (b : BirthOrchestrator) : option string := private_key_base64 b.

Definition persist_stage (fl : Faults) : B unit :=
  b ← get_state;
  with_config (λ c, mkConfig (external_pubkey_path c) (Some (stage_name (stage b)))
                      (birth_complete c)) ;;
  save_config fl.

Definition advance_past_darkness (fl : Faults) : B unit :=
  guard_stage (is_stage Darkness) ;; set_stage Ignition ;; persist_stage fl.
Definition advance_to_connectivity (fl : Faults) : B unit :=
  guard_stage (is_stage Ignition) ;; set_stage Connectivity ;; persist_stage fl.
Definition advance_to_crystallization (fl : Faults) : B unit :=
  guard_stage (is_stage Connectivity) ;; set_stage Crystallization ;; persist_stage fl.

(** The write of the conversation file may fail silently. *)
Definition add_message (fl : Faults) (role content : string) : B unit :=
  b ← get_state;
  let history := conversation_history b ++ [(role, content)] in
  set_conversation history ;;
  match f_write fl "birth_conversation.json" with
  | Some _ => mret tt
  | None => set_conversation_file (Some (stage_name (stage b), history))
  end.

Definition clear_conversation : B unit := set_conversation [].

Definition write_doc (fl : Faults) (name content : string) : B unit :=
  outside (f_write fl name) IoError ;; put_doc name content.

Definition crystallize_soul (fl : Faults) (soul growth : string) : B unit :=
  guard_stage (λ s, is_stage Connectivity s || is_stage Crystallization s) ;;
  outside (f_docs_dir fl) IoError ;;
  write_doc fl "soul.md" soul ;;
  write_doc fl "growth.md" growth ;;
  set_stage Emergence ;;
  persist_stage fl.

Definition constitutional_docs : list string := ["soul.md"; "ethics.md"; "instincts.md"].

(** Keyring: the text that is signed names the document and its tier. *)
Definition sign_document (k : Key) (doc_name content now : string) : string :=
  metadata_json (sign k (doc_name +:+ "|Constitutional|" +:+ content)) "Constitutional" now.

Definition sign_constitutional_documents (fl : Faults) (k : Key) : B unit :=
  for_each constitutional_docs (λ name,
    b ← get_state;
    content ← lift_result (ok_or (docs b !! name)
                (IoError ("Constitutional document not found: " +:+ name)));
    write_doc fl (name +:+ ".sig") (sign_document k name content (signed_at fl name))).

Definition birth_content (now : string) : string :=
  "I was born. First run completed at " +:+ now +:+ ".".

Definition finish_config : B unit :=
  with_config (λ c, mkConfig (external_pubkey_path c) None true).

(** [self.signing_key.take()] *)
Definition take_key : B (option Key) :=
  b ← get_state;
  set_keys None (private_key_base64 b) ;;
  mret (signing_key b).

Definition forget_private_key : B unit :=
  b ← get_state; set_keys (signing_key b) None.

Definition clear_conversation_file (fl : Faults) : B unit :=
  match f_write fl "birth_conversation.json" with
  | Some _ => mret tt
  | None => set_conversation_file None
  end.

Definition complete_emergence (fl : Faults) (now : string) : B unit :=
  guard_stage (is_stage Emergence) ;;
  taken ← take_key;
  key ← lift_result (ok_or taken NoSigningKey);
  sign_constitutional_documents fl key ;;
  forget_private_key ;;
  born ← has_birth fl;
  ensure (negb born) AlreadyBorn ;;
  record_birth fl (birth_content now) ;;
  clear_conversation_file fl ;;
  finish_config ;;
  save_config fl.

Definition skip_to_emergence : B unit :=
  b ← get_state; if is_stage Emergence (stage b) then mret tt else set_stage Emergence.

(** The signing on the legacy path: its error is ignored. *)
Definition try_sign (fl : Faults) (k : Key) : B unit := λ b,
  match docs b !! "soul.md" with
  | Some _ => ((sign_constitutional_documents fl k b).1, Ok tt)
  | None => (b, Ok tt)
  end.

Definition complete_birth (fl : Faults) (now : string) : B unit :=
  born ← has_birth fl;
  ensure (negb born) AlreadyBorn ;;
  taken ← take_key;
  (match taken with Some k => try_sign fl k | None => mret tt end) ;;
  forget_private_key ;;
  record_birth fl (birth_content now) ;;
  clear_conversation_file fl ;;
  finish_config ;;
  save_config fl.

Definition start_crystallization (d : Depth) : B unit :=
  guard_stage (is_stage Crystallization) ;; set_engine (Some d).
End birth.
Arguments BirthOrchestrator Key Depth : clear implicits.
