(* ===== verification/BirthSpec.v ===== *)
(** * Birth: correctness

    Over any sequence of calls, with any outside errors, the stage only moves
    forward, a birth is recorded at most once and never changes, and the
    configuration says "born" only if one is recorded.  A completed emergence
    has signed every constitutional document and dropped the key.  The last
    theorem is about the states that can no longer be completed. *)

From S2P Require Import Prelude RustStr Birth.
From Stdlib Require Import ZArith Lia Ascii.
From stdpp Require Import base list sets strings gmap relations pretty.

Definition stage_rank (s : BirthStage) : nat :=
  match s with
  | Darkness => 0 | Ignition => 1 | Connectivity => 2 | Crystallization => 3 | Emergence => 4
  end.

Lemma stage_rank_next s s' : next_stage s = Some s' → stage_rank s' = S (stage_rank s).
Proof. destruct s; simpl; intros; by simplify_eq. Qed.

Section primitives.
Context {Key Depth : Type}.

Notation Birth := (BirthOrchestrator Key Depth).
Notation B := (M Birth BirthError).
Implicit Types b : Birth.

(** The configuration, in memory and on disk, says "born" only of a recorded
    birth. *)
Definition born_wf b : Prop :=
  (birth_complete (config b) = true → is_Some (birth_record b)) ∧
  (∀ c, saved_config b = Some c → birth_complete c = true → is_Some (birth_record b)).

(** An emergence whose key is gone. *)
Definition keyless b : Prop := stage b = Emergence ∧ signing_key b = None.

Definition grows b b' : Prop :=
  stage_rank (stage b) ≤ stage_rank (stage b') ∧
  (∀ r, birth_record b = Some r → birth_record b' = Some r) ∧
  (born_wf b → born_wf b') ∧ (keyless b → keyless b').

#[export] Instance grows_po : PreOrder grows.
Proof.
  split.
  - intros b. unfold grows. split_and!; auto.
  - intros b1 b2 b3 (? & ? & ? & ?) (? & ? & ? & ?). split; [lia|]. auto.
Qed.

(** ** Primitive steps *)

Ltac primitive :=
  intros b b' o Hm; unfold with_config, set_conversation, set_engine, set_pubkey_file, put_doc,
    set_conversation_file, modify in Hm; simplify_eq/=;
  unfold grows, born_wf, keyless; simpl; intuition eauto.

Lemma grows_config (f : BirthConfig → BirthConfig) :
  (∀ c, birth_complete (f c) = birth_complete c) → respects grows (with_config (Key:=Key) (Depth:=Depth) f).
Proof.
  intros Hf b b' o Hm. unfold with_config, modify in Hm. simplify_eq.
  unfold grows, born_wf, keyless. simpl. rewrite Hf. intuition eauto.
Qed.
Lemma grows_conversation l : respects grows (set_conversation (Key:=Key) (Depth:=Depth) l).
Proof. primitive. Qed.
Lemma grows_engine e : respects grows (set_engine (Key:=Key) (Depth:=Depth) e).
Proof. primitive. Qed.
Lemma grows_pubkey x : respects grows (set_pubkey_file (Key:=Key) (Depth:=Depth) x).
Proof. primitive. Qed.
Lemma grows_doc n c : respects grows (put_doc (Key:=Key) (Depth:=Depth) n c).
Proof. primitive. Qed.
Lemma grows_file f : respects grows (set_conversation_file (Key:=Key) (Depth:=Depth) f).
Proof. primitive. Qed.
Lemma grows_drop_key shown : respects grows (set_keys (Key:=Key) (Depth:=Depth) None shown).
Proof.
  intros b b' o Hm. unfold set_keys, modify in Hm. simplify_eq.
  unfold grows, born_wf, keyless. simpl. intuition eauto.
Qed.
Lemma grows_outside f w : respects grows (outside (Key:=Key) (Depth:=Depth) f w).
Proof. destruct f; [apply respects_fail|apply respects_ret]; apply _. Qed.
Lemma grows_ensure x e : respects grows (ensure (S:=Birth) x (e : BirthError)).
Proof. unfold ensure. destruct x; [apply respects_ret|apply respects_fail]; apply _. Qed.
Lemma grows_get : respects grows (get_state (S:=Birth) (E:=BirthError)).
Proof. apply respects_get, _. Qed.
Lemma grows_ret {A} (x : A) : respects grows (mret (M:=B) x).
Proof. apply respects_ret, _. Qed.
Lemma grows_lift {A} (x : result A BirthError) : respects grows (lift_result x).
Proof. apply respects_lift, _. Qed.
Lemma grows_bind {A C} (m : B A) (k : A → B C) :
  respects grows m → (∀ a, respects grows (k a)) → respects grows (m ≫= k).
Proof. apply respects_bind, _. Qed.

Lemma grows_save fl : respects grows (save_config (Key:=Key) (Depth:=Depth) fl).
Proof.
  unfold save_config. apply grows_bind; [apply grows_outside|]. intros _ b b' o Hm.
  unfold modify in Hm. simplify_eq. unfold grows, born_wf, keyless. simpl.
  intuition eauto. simplify_eq. auto.
Qed.

(** A call behind a stage guard. *)
Lemma guard_stage_inv {A} ok (k : unit → B A) b b' o :
  (guard_stage ok ≫= k) b = (b', o) →
  (ok (stage b) = true ∧ k tt b = (b', o)) ∨
  (ok (stage b) = false ∧ b' = b ∧ o = Err (StageGuard (stage_name (stage b)))).
Proof.
  unfold guard_stage, ensure, mbind, M_bind, get_state.
  destruct (ok (stage b)); unfold mret, M_ret, fail; intros; simplify_eq; auto.
Qed.

Lemma grows_guard {A} ok (k : B A) :
  (∀ b b' o, ok (stage b) = true → k b = (b', o) → grows b b') →
  respects grows (guard_stage ok ;; k).
Proof.
  intros Hk b b' o [[Hok Hm]|(_ & -> & _)]%guard_stage_inv; [by eapply Hk|reflexivity].
Qed.

(** Entering a later stage. *)
Lemma enter_stage {A} s (k : B A) b b' o :
  stage_rank (stage b) ≤ stage_rank s → (stage b = Emergence → s = Emergence) →
  respects grows k → (set_stage s ;; k) b = (b', o) → grows b b'.
Proof.
  intros Hr He Hk Hm. erewrite M_bind_ok in Hm by reflexivity.
  apply Hk in Hm. etrans; [|exact Hm].
  unfold grows, born_wf, keyless. simpl. intuition eauto.
Qed.

Lemma grows_persist fl : respects grows (persist_stage (Key:=Key) (Depth:=Depth) fl).
Proof.
  unfold persist_stage. apply grows_bind; [apply grows_get|]. intros b0.
  apply grows_bind; [by apply grows_config|]. intros _. apply grows_save.
Qed.

Lemma grows_write fl n c : respects grows (write_doc (Key:=Key) (Depth:=Depth) fl n c).
Proof. apply grows_bind; [apply grows_outside|]. intros _. apply grows_doc. Qed.

Lemma has_birth_inv fl b b' o :
  has_birth fl b = (b', o) →
  b' = b ∧ match o with Ok x => x = bool_decide (is_Some (birth_record b)) | Err _ => True end.
Proof.
  unfold has_birth, outside, mbind, M_bind, get_state, mret, M_ret, fail.
  destruct (f_store fl); intros; by simplify_eq.
Qed.

Lemma grows_has_birth fl : respects grows (has_birth (Key:=Key) (Depth:=Depth) fl).
Proof. intros b b' o [-> _]%has_birth_inv. reflexivity. Qed.

(** Recording: the record is set once. *)
Lemma record_birth_inv fl c b b' o :
  record_birth fl c b = (b', o) →
  match o with
  | Ok _ => birth_record b = None ∧ birth_record b' = Some c ∧ grows b b' ∧
      config b' = config b ∧ stage b' = stage b ∧ signing_key b' = signing_key b ∧
      private_key_base64 b' = private_key_base64 b ∧ docs b' = docs b
  | Err _ => b' = b
  end.
Proof.
  unfold record_birth. intros Hm. step_inv Hm.
  2: { apply has_birth_inv in Hm0 as [-> _]. by subst. }
  apply has_birth_inv in Hm0 as [-> ->]. unfold ensure in Hk.
  case_bool_decide as Hs; simpl in Hk.
  - unfold fail, mbind, M_bind in Hk. by simplify_eq.
  - unfold outside, mret, M_ret, mbind, M_bind, fail, set_birth_record, modify in Hk.
    destruct (f_insert fl); simplify_eq/=; [done|].
    assert (birth_record b = None) as Hn by (destruct (birth_record b); naive_solver).
    repeat (split; [done|]). split; [|done].
    unfold grows, born_wf, keyless. simpl. rewrite Hn.
    split; [done|]. split; [done|]. split; [intros _; split; eauto|auto].
Qed.

(** The end shared by both completions, once the birth is recorded. *)
Lemma finish_inv fl b b' (o : result unit BirthError) :
  is_Some (birth_record b) →
  (clear_conversation_file fl ;; finish_config ;; save_config fl) b = (b', o) →
  grows b b' ∧
  (o = Ok tt → birth_complete (config b') = true ∧ birth_stage (config b') = None ∧
     saved_config b' = Some (config b') ∧ birth_record b' = birth_record b ∧
     signing_key b' = signing_key b ∧ private_key_base64 b' = private_key_base64 b ∧
     docs b' = docs b).
Proof.
  intros Hs Hm.
  unfold clear_conversation_file, finish_config, save_config, set_conversation_file, with_config,
    outside, modify, mbind, M_bind, mret, M_ret, fail in Hm.
  destruct (f_write fl "birth_conversation.json"), (f_config_save fl); simplify_eq/=;
    (split; [unfold grows, born_wf, keyless; simpl; intuition eauto; by simplify_eq|done]).
Qed.

Lemma take_key_inv b b' o :
  take_key b = (b', o) →
  o = Ok (signing_key b) ∧ grows b b' ∧ signing_key b' = None ∧ stage b' = stage b ∧
  birth_record b' = birth_record b ∧ docs b' = docs b ∧ config b' = config b.
Proof.
  unfold take_key, set_keys, modify, mbind, M_bind, get_state, mret, M_ret. intros. simplify_eq/=.
  repeat (split; [done|]). split; [|done]. unfold grows, born_wf, keyless. simpl. intuition eauto.
Qed.

Lemma grows_forget : respects grows (forget_private_key (Key:=Key) (Depth:=Depth)).
Proof.
  intros b b' o Hm. unfold forget_private_key, set_keys, modify, mbind, M_bind, get_state in Hm.
  simplify_eq. unfold grows, born_wf, keyless. simpl. intuition eauto.
Qed.

End primitives.

(** ** The calls *)

Section calls.
Context {Key Depth : Type}.
Context (public_bytes : Key → string).
Context (key_base64 : Key → string) (parse_key : string → result Key string).
Context (sign : Key → string → string) (metadata_json : string → string → string → string).
Notation sign_document := (sign_document sign metadata_json).

Notation Birth := (BirthOrchestrator Key Depth).
Notation B := (M Birth BirthError).
Implicit Types b : Birth.

Lemma grows_sign fl k :
  respects grows (sign_constitutional_documents (Depth:=Depth) sign metadata_json fl k).
Proof.
  apply respects_for_each; [apply _|]. intros n.
  apply grows_bind; [apply grows_get|]. intros b0.
  apply grows_bind; [apply grows_lift|]. intros c. apply grows_write.
Qed.

Notation generate_identity := (generate_identity (Depth:=Depth) public_bytes key_base64 parse_key).
Notation complete_emergence := (complete_emergence (Depth:=Depth) sign metadata_json).
Notation complete_birth := (complete_birth (Depth:=Depth) sign metadata_json).

(** A call of a method that writes, with any arguments, outcome and faults. *)
Inductive birth_step b b' : Prop :=
| s_generate fl k dir o : generate_identity fl k dir b = (b', o) → birth_step b b'
| s_past_darkness fl o : advance_past_darkness fl b = (b', o) → birth_step b b'
| s_connectivity fl o : advance_to_connectivity fl b = (b', o) → birth_step b b'
| s_crystallization fl o : advance_to_crystallization fl b = (b', o) → birth_step b b'
| s_message fl role content o : add_message fl role content b = (b', o) → birth_step b b'
| s_clear o : clear_conversation b = (b', o) → birth_step b b'
| s_soul fl soul growth o : crystallize_soul fl soul growth b = (b', o) → birth_step b b'
| s_emerge fl now o : complete_emergence fl now b = (b', o) → birth_step b b'
| s_skip o : skip_to_emergence b = (b', o) → birth_step b b'
| s_legacy fl now o : complete_birth fl now b = (b', o) → birth_step b b'
| s_start d o : start_crystallization d b = (b', o) → birth_step b b'.

(** Taking a new key outside of Emergence. *)
Lemma set_new_key k shown (m : B unit) b b' o :
  stage b ≠ Emergence → respects grows m →
  (set_keys k shown ;; m) b = (b', o) → grows b b'.
Proof.
  intros Hs Hk Hm. erewrite M_bind_ok in Hm by reflexivity. apply Hk in Hm.
  etrans; [|exact Hm]. unfold grows, born_wf, keyless. simpl. intuition eauto.
Qed.

Lemma outside_inv {A} f w (k : unit → B A) b b' o :
  (outside f w ≫= k) b = (b', o) →
  (f = None ∧ k tt b = (b', o)) ∨ (∃ e, f = Some e ∧ b' = b ∧ o = Err (w e)).
Proof.
  unfold outside, mbind, M_bind, mret, M_ret, fail. destruct f; intros; simplify_eq; eauto.
Qed.

Lemma generate_grows fl k dir b b' o : generate_identity fl k dir b = (b', o) → grows b b'.
Proof.
  intros [[Hd%bool_decide_eq_true Hm]|(_ & -> & _)]%guard_stage_inv; [|reflexivity].
  erewrite M_bind_ok in Hm by reflexivity.
  destruct (bool_decide (is_Some (pubkey_file b)) && _); [unfold mret, M_ret in Hm; by simplify_eq|].
  apply outside_inv in Hm as [[_ Hm]|(e & _ & -> & _)]; [|reflexivity].
  step_inv Hm; [|by apply grows_pubkey in Hm0].
  assert (stage s ≠ Emergence) as Hs
    by (unfold set_pubkey_file, modify in Hm0; simplify_eq/=; congruence).
  apply grows_pubkey in Hm0. etrans; [exact Hm0|].
  step_inv Hk; [|by apply grows_lift in Hm].
  unfold lift_result in Hm. simplify_eq. eapply set_new_key; [done| |exact Hk0].
  apply grows_bind; [by apply grows_config|]. intros ?.
  apply grows_bind; [apply grows_save|]. intros ?. apply grows_outside.
Qed.

Lemma advance_grows ok s fl b b' o :
  (∀ s', ok s' = true → stage_rank s' ≤ stage_rank s ∧ s' ≠ Emergence) →
  (guard_stage ok ;; set_stage s ;; persist_stage fl) b = (b', o) → grows b b'.
Proof.
  intros Hok Hm. eapply grows_guard; [|exact Hm]. clear b b' o Hm.
  intros b b' o Hs Hm. destruct (Hok _ Hs). eapply enter_stage; [done|done|apply grows_persist|done].
Qed.

Lemma soul_grows fl soul growth b b' o : crystallize_soul fl soul growth b = (b', o) → grows b b'.
Proof.
  intros [[_ Hm]|(_ & -> & _)]%guard_stage_inv; [|reflexivity].
  eapply grows_bind; [apply grows_outside| |exact Hm]. intros ?.
  apply grows_bind; [apply grows_write|]. intros ?.
  apply grows_bind; [apply grows_write|]. intros u b1 b2 o2 Hm2.
  eapply enter_stage; [|done|apply grows_persist|done]. destruct (stage b1); simpl; lia.
Qed.

Lemma legacy_grows fl now b b' o : complete_birth fl now b = (b', o) → grows b b'.
Proof.
  intros Hm. eapply grows_bind; [apply grows_has_birth| |exact Hm]. intros born.
  apply grows_bind; [apply grows_ensure|]. intros ?.
  apply grows_bind. { intros b1 b2 o2 (_ & ? & _)%take_key_inv. done. }
  intros taken. apply grows_bind.
  { destruct taken as [k|]; [|apply grows_ret]. intros b1 b2 o2 Ht. unfold try_sign in Ht.
    destruct (docs b1 !! "soul.md"); simplify_eq; [|reflexivity].
    destruct (sign_constitutional_documents sign metadata_json fl k b1) as [b3 o3] eqn:Hs.
    by apply grows_sign in Hs. }
  intros ?. apply grows_bind; [apply grows_forget|]. intros u b1 b2 o2 Hr.
  step_inv Hr.
  - apply record_birth_inv in Hm0 as (_ & Hrec & Hg & _). etrans; [exact Hg|].
    apply finish_inv in Hk as [? _]; [done|]. by rewrite Hrec.
  - apply record_birth_inv in Hm0. by subst.
Qed.

Lemma grows_emerge fl now b b' o : complete_emergence fl now b = (b', o) → grows b b'.
Proof.
  intros [[_ Hm]|(_ & -> & _)]%guard_stage_inv; [|reflexivity].
  eapply grows_bind; [| |exact Hm]. { intros b1 b2 o2 (_ & ? & _)%take_key_inv. done. }
  intros taken. apply grows_bind; [apply grows_lift|]. intros key.
  apply grows_bind; [apply grows_sign|]. intros ?.
  apply grows_bind; [apply grows_forget|]. intros ?.
  apply grows_bind; [apply grows_has_birth|]. intros born.
  apply grows_bind; [apply grows_ensure|]. intros u b1 b2 o2 Hr.
  step_inv Hr.
  - apply record_birth_inv in Hm0 as (_ & Hrec & Hg & _). etrans; [exact Hg|].
    apply finish_inv in Hk as [? _]; [done|]. by rewrite Hrec.
  - apply record_birth_inv in Hm0. by subst.
Qed.

Lemma birth_step_grows b b' : birth_step b b' → grows b b'.
Proof.
  intros [fl k dir o Hm|fl o Hm|fl o Hm|fl o Hm|fl role content o Hm|o Hm|fl soul growth o Hm
    |fl now o Hm|o Hm|fl now o Hm|d o Hm].
  - by eapply generate_grows.
  - eapply advance_grows; [|exact Hm]. intros s' ->%bool_decide_eq_true. simpl. lia || auto.
  - eapply advance_grows; [|exact Hm]. intros s' ->%bool_decide_eq_true. simpl. auto.
  - eapply advance_grows; [|exact Hm]. intros s' ->%bool_decide_eq_true. simpl. auto.
  - assert (respects grows (add_message (Key:=Key) (Depth:=Depth) fl role content)) as Hr; [|by eapply Hr].
    apply grows_bind; [apply grows_get|]. intros b0.
    apply grows_bind; [apply grows_conversation|]. intros ?.
    destruct (f_write fl _); [apply grows_ret|apply grows_file].
  - by eapply grows_conversation.
  - by eapply soul_grows.
  - by eapply grows_emerge.
  - unfold skip_to_emergence in Hm. erewrite M_bind_ok in Hm by reflexivity.
    destruct (is_stage Emergence (stage b)) eqn:He; [unfold mret, M_ret in Hm; by simplify_eq|].
    apply (enter_stage Emergence (mret tt) b b' o).
    + destruct (stage b); simpl; lia.
    + done.
    + apply grows_ret.
    + by unfold set_stage, modify, mbind, M_bind, mret, M_ret in *.
  - by eapply legacy_grows.
  - eapply grows_guard; [|exact Hm]. intros b1 b2 o2 _ Hs. by eapply grows_engine.
Qed.

Lemma birth_steps_grow b b' : rtc birth_step b b' → grows b b'.
Proof. induction 1 as [|b b1 b' Hs _ IH]; [done|]. etrans; [by apply birth_step_grows|done]. Qed.

(** C28: birth happens at most once and never runs backwards: over any sequence of
    calls, with any faults, the stage only moves forward, a recorded birth is
    never changed or lost, and the configuration (in memory or on disk) says
    "born" only of a recorded birth. *)
Theorem birth_is_monotone b b' :
  born_wf b → rtc birth_step b b' →
  stage_rank (stage b) ≤ stage_rank (stage b') ∧
  (∀ r, birth_record b = Some r → birth_record b' = Some r) ∧ born_wf b'.
Proof. intros Hb (? & ? & Hw & _)%birth_steps_grow. auto. Qed.

(** An emergence that has lost its key is never completed: once the stage is
    Emergence without a signing key (reached by skipping before an identity
    was generated, or by one failed attempt at signing), every later call of
    [complete_emergence], after whatever other calls, fails with
    [NoSigningKey]. *)
Theorem keyless_emergence_never_completes b b' fl now :
  keyless b → rtc birth_step b b' → (complete_emergence fl now b').2 = Err NoSigningKey.
Proof.
  intros Hb (_ & _ & _ & Hk)%birth_steps_grow. destruct (Hk Hb) as [Hs Hn].
  unfold Birth.complete_emergence, guard_stage, is_stage, ensure, take_key, set_keys, modify,
    mbind, M_bind, get_state, lift_result.
  rewrite Hs, bool_decide_eq_true_2 by done. unfold mret, M_ret. by rewrite Hn.
Qed.

Definition sign_one fl k name : B unit :=
  b ← get_state;
  content ← lift_result (ok_or (docs b !! name)
              (IoError ("Constitutional document not found: " +:+ name)));
  write_doc fl (name +:+ ".sig") (sign_document k name content (signed_at fl name)).

Lemma sign_one_inv fl k name b b' o :
  sign_one fl k name b = (b', o) →
  stage b' = stage b ∧ signing_key b' = signing_key b ∧ birth_record b' = birth_record b ∧
  match o with
  | Ok _ => ∃ content, docs b !! name = Some content ∧
      docs b' = <[name +:+ ".sig" := sign_document k name content (signed_at fl name)]> (docs b)
  | Err _ => b' = b
  end.
Proof.
  unfold sign_one, write_doc, outside, put_doc, modify, mbind, M_bind, get_state, lift_result, fail,
    mret, M_ret. intros Hm.
  destruct (docs b !! name) as [c|]; simpl in Hm; [|by simplify_eq].
  destruct (f_write fl (name +:+ ".sig")); simplify_eq/=; eauto 10.
Qed.

Lemma sign_inv fl k b b' o :
  sign_constitutional_documents (Depth:=Depth) sign metadata_json fl k b = (b', o) →
  stage b' = stage b ∧ signing_key b' = signing_key b ∧ birth_record b' = birth_record b ∧
  (o = Ok tt → ∀ name, name ∈ constitutional_docs → ∃ content, docs b !! name = Some content ∧
     docs b' !! name = Some content ∧
     docs b' !! (name +:+ ".sig") = Some (sign_document k name content (signed_at fl name))).
Proof.
  unfold sign_constitutional_documents, constitutional_docs. intros Hm. cbn [for_each] in Hm.
  fold (sign_one fl k "soul.md") in Hm. fold (sign_one fl k "ethics.md") in Hm.
  fold (sign_one fl k "instincts.md") in Hm.
  step_inv Hm; [|apply sign_one_inv in Hm0 as (? & ? & ? & _); subst; done].
  apply sign_one_inv in Hm0 as (Hs1 & Hk1 & Hr1 & (c1 & Hc1 & Hd1)).
  step_inv Hk; [|apply sign_one_inv in Hm as (? & ? & ? & _); subst;
    split_and!; [congruence..|done]].
  apply sign_one_inv in Hm as (Hs2 & Hk2 & Hr2 & (c2 & Hc2 & Hd2)).
  step_inv Hk0; [|apply sign_one_inv in Hm as (? & ? & ? & _); subst;
    split_and!; [congruence..|done]].
  apply sign_one_inv in Hm as (Hs3 & Hk3 & Hr3 & (c3 & Hc3 & Hd3)).
  unfold mret, M_ret in Hk. injection Hk as <- <-.
  split_and!; [congruence..|]. intros _ name Hin.
  rewrite Hd1 in Hc2. rewrite lookup_insert_ne in Hc2 by discriminate.
  rewrite Hd2, Hd1 in Hc3. rewrite !lookup_insert_ne in Hc3 by discriminate.
  rewrite Hd3, Hd2, Hd1.
  apply elem_of_cons in Hin as [->|Hin]; [|apply elem_of_cons in Hin as [->|Hin%list_elem_of_singleton]].
  - exists c1. rewrite !lookup_insert_ne by discriminate. by rewrite lookup_insert_eq.
  - exists c2. rewrite !lookup_insert_ne by discriminate. by rewrite lookup_insert_eq.
  - subst name. exists c3. rewrite !(lookup_insert_ne _ _ "instincts.md") by discriminate.
    by rewrite lookup_insert_eq.
Qed.

Lemma complete_emergence_inv fl now b b' :
  complete_emergence fl now b = (b', Ok tt) →
  stage b = Emergence ∧ birth_record b = None ∧
  (∃ k, signing_key b = Some k ∧
     ∀ name, name ∈ constitutional_docs → ∃ content, docs b !! name = Some content ∧
       docs b' !! name = Some content ∧
       docs b' !! (name +:+ ".sig") = Some (sign_document k name content (signed_at fl name))) ∧
  signing_key b' = None ∧ private_key_base64 b' = None ∧
  birth_record b' = Some (birth_content now) ∧
  birth_complete (config b') = true ∧ birth_stage (config b') = None ∧
  saved_config b' = Some (config b').
Proof.
  intros [[Hst%bool_decide_eq_true Hm]|(_ & _ & Hbad)]%guard_stage_inv; [|done].
  step_inv Hm; [|done]. apply take_key_inv in Hm0 as (Ho & _ & Hk1 & Hs1 & Hr1 & Hd1 & _).
  injection Ho as Ho. step_inv Hk; [|done].
  unfold lift_result in Hm. destruct (signing_key b) as [k|] eqn:Hkey; [|by subst a].
  subst a. simpl in Hm. injection Hm as <- <-.
  step_inv Hk0; [|done]. apply sign_inv in Hm as (Hs2 & Hk2 & Hr2 & Hsig).
  destruct a. specialize (Hsig eq_refl).
  step_inv Hk; [|done]. unfold forget_private_key, set_keys, modify, mbind, M_bind, get_state in Hm.
  simplify_eq/=. step_inv Hk0; [|done]. apply has_birth_inv in Hm as [-> ->].
  simpl in Hk. unfold ensure in Hk. case_bool_decide as Hb; simpl in Hk.
  { unfold fail, mbind, M_bind in Hk. done. }
  erewrite M_bind_ok in Hk by reflexivity.
  step_inv Hk; [|done]. apply record_birth_inv in Hm as (Hn & Hrec & _ & _ & _ & Hk3 & Hp3 & Hd3).
  cbn in Hn, Hk3, Hp3, Hd3. apply finish_inv in Hk0 as [_ Hfin]; [|by rewrite Hrec].
  destruct (Hfin eq_refl) as (Hc & Hbs & Hsave & Hrec' & Hk4 & Hp4 & Hd4).
  split; [done|]. split; [congruence|]. split.
  { exists k. split; [done|]. intros name Hin. destruct (Hsig name Hin) as (c & Hc1 & Hc2 & Hc3).
    exists c. split; [by rewrite <- Hd1|]. by rewrite Hd4, Hd3. }
  split_and!; congruence.
Qed.
(** A completed emergence did all of it: it started in Emergence with a held
    key and no recorded birth; every constitutional document exists, is unchanged and now
    carries its signature under that key; the key and its printed form are
    gone; the birth is recorded, and the saved configuration says so and has
    no stage left. *)
Theorem complete_emergence_spec fl now b b' :
  complete_emergence fl now b = (b', Ok tt) →
  stage b = Emergence ∧ birth_record b = None ∧
  (∃ k, signing_key b = Some k ∧
     ∀ name, name ∈ constitutional_docs → ∃ content, docs b !! name = Some content ∧
       docs b' !! name = Some content ∧
       docs b' !! (name +:+ ".sig") = Some (sign_document k name content (signed_at fl name))) ∧
  signing_key b' = None ∧ private_key_base64 b' = None ∧
  birth_record b' = Some (birth_content now) ∧
  birth_complete (config b') = true ∧ birth_stage (config b') = None ∧
  saved_config b' = Some (config b').
Proof. exact (complete_emergence_inv fl now b b'). Qed.
End calls.

(** ** Witnesses *)

Module First.

Definition public (k : string) : string := "pub:" +:+ k.
Definition parse (s : string) : result string string := Ok s.
Definition sign (k text : string) : string := k +:+ ":" +:+ text.
Definition json (sig tier now : string) : string := sig +:+ "@" +:+ now.
Definition clocked : Faults := mkFaults None None None (λ _, None) None None (λ _, "noon").
Definition documents : gmap string string :=
  <["soul.md" := "soul"]> (<["ethics.md" := "ethics"]> (<["instincts.md" := "instincts"]> ∅)).

Definition start : BirthOrchestrator string nat :=
  mkBirth (mkConfig None None false) Darkness None None [] None None None documents None None.

(** The identity, the skip and the emergence. *)
Definition identified : BirthOrchestrator string nat :=
  (generate_identity public id parse no_faults "key" "dir" start).1.
Definition ready : BirthOrchestrator string nat := (skip_to_emergence identified).1.
Definition born : BirthOrchestrator string nat :=
  (complete_emergence sign json clocked "now" ready).1.
Definition keyless_start : BirthOrchestrator string nat := (skip_to_emergence start).1.

Lemma born_wf_start : born_wf start.
Proof. split; [done|]. intros c Hc. done. Qed.

End First.

Lemma birth_is_monotone_witness :
  birth_record First.born = Some (birth_content "now") ∧ born_wf First.born.
Proof.
  assert (rtc (birth_step First.public id First.parse First.sign First.json) First.start First.born) as Hs.
  { apply (rtc_l _ _ First.identified).
    { apply (s_generate _ _ _ _ _ _ _ no_faults "key" "dir" (Ok tt)). vm_compute. reflexivity. }
    apply (rtc_l _ _ First.ready).
    { apply (s_skip _ _ _ _ _ _ _ (Ok tt)). vm_compute. reflexivity. }
    apply rtc_once. apply (s_emerge _ _ _ _ _ _ _ First.clocked "now" (Ok tt)). vm_compute. reflexivity. }
  split; [vm_compute; reflexivity|].
  by apply (birth_is_monotone First.public id First.parse First.sign First.json First.start First.born First.born_wf_start).
Defined.

Lemma keyless_emergence_never_completes_witness :
  (complete_emergence First.sign First.json First.clocked "now" First.keyless_start).2 = Err NoSigningKey.
Proof.
  apply (keyless_emergence_never_completes First.public id First.parse First.sign First.json First.keyless_start);
    [split; reflexivity|reflexivity].
Defined.

Lemma complete_emergence_spec_witness :
  docs (complete_emergence First.sign First.json First.clocked "now" First.ready).1 !! "soul.md.sig" =
    Some "key:soul.md|Constitutional|soul@noon".
Proof.
  destruct (complete_emergence_spec First.sign First.json First.clocked "now" First.ready
    (complete_emergence First.sign First.json First.clocked "now" First.ready).1)
    as (_ & _ & (k & Hk & Hd) & _); [vm_compute; reflexivity|].
  destruct (Hd "soul.md") as (c & Hc & _ & Hs); [by left|].
  vm_compute in Hk. injection Hk as <-. vm_compute in Hc. injection Hc as <-.
  etrans; [exact Hs|]. reflexivity.
Defined.
