(* ===== verification/VerifierSpec.v ===== *)
(** * Verification of the constitutional documents: correctness
    What an accepted verification means, what a change of an accepted document
    would take, and, across the components, that what the birth signs is what
    the verification accepts. *)

From S2P Require Import Prelude RustStr SecureFs Birth BirthSpec Verifier.
From Stdlib Require Import ZArith Lia Ascii.
From stdpp Require Import base list sets strings gmap relations pretty.

Open Scope rust_scope.

(** ** The verifier *)

Section verifier.
Context {PubKey Sig : Type}.
Context (b64_decode : string → result string string).
Context (key_from_bytes : string → result PubKey string).
Context (sig_from_slice : string → result Sig string).
Context (verify : PubKey → string → Sig → bool).
Context (parse_meta : string → result SigMeta string).

Notation verify_document := (verify_document b64_decode sig_from_slice verify).
Notation verify_soul := (verify_soul b64_decode sig_from_slice verify parse_meta).
Notation load_document := (load_document parse_meta).

(** A text that verifies under an encoded signature. *)
Definition signs (pk : PubKey) (encoded text : string) : Prop :=
  ∃ bytes sig, b64_decode encoded = Ok bytes ∧ sig_from_slice bytes = Ok sig ∧
    verify pk text sig = true.

(** The two files of a document, as the verification reads them. *)
Definition on_disk (dir : Dir) (n text : string) (meta : SigMeta) : Prop :=
  dir n = Some (Ok text) ∧
  ∃ json, dir (n +:+ ".sig") = Some (Ok json) ∧ parse_meta json = Ok meta.

Definition authentic (pk : PubKey) (dir : Dir) (n : string) : Prop :=
  ∃ text meta, on_disk dir n text meta ∧
    signs pk (meta_signature meta) (n +:+ "|" +:+ tier_debug (meta_tier meta) +:+ "|" +:+ text).

Lemma verify_document_iff v doc :
  verify_document v doc = Ok tt ↔ signs (pubkey v) (signature doc) (signable_bytes doc).
Proof.
  unfold Verifier.verify_document, signs. split.
  - destruct (b64_decode _) as [bytes|] eqn:Hb; simpl; [|done].
    destruct (sig_from_slice bytes) as [sg|] eqn:Hs; simpl; [|done].
    destruct (verify _ _ sg) eqn:Hv; [|done]. eauto.
  - intros (bytes & sg & -> & Hs & Hv). simpl. rewrite Hs. simpl. by rewrite Hv.
Qed.

Lemma load_document_iff dir n doc :
  load_document dir n = Ok doc ↔
  ∃ text meta, on_disk dir n text meta ∧
    doc = mkDocument n (meta_tier meta) text (meta_signature meta) (meta_signed_at meta).
Proof.
  unfold Verifier.load_document, on_disk. split.
  - destruct (dir n) as [[text|]|]; simpl; [|by destruct (dir (n +:+ ".sig"))|done].
    destruct (dir (n +:+ ".sig")) as [[json|]|]; simpl; [|done..].
    destruct (parse_meta json) as [meta|] eqn:Hp; simpl; [|done].
    intros [= <-]. exists text, meta. eauto 10.
  - intros (text & meta & (-> & json & -> & Hp) & ->). simpl. by rewrite Hp.
Qed.

Definition soul_step (dir : Dir) (n : string) : M (Verifier (PubKey:=PubKey)) CoreError unit :=
  doc ← lift_result (load_document dir n);
  v ← get_state;
  lift_result (verify_document v doc) ;;
  modify (λ v, mkVerifier (pubkey v) (<[n := doc]> (documents v))).

Lemma soul_step_iff dir n v v' :
  soul_step dir n v = (v', Ok tt) ↔
  ∃ doc, load_document dir n = Ok doc ∧ verify_document v doc = Ok tt ∧
    v' = mkVerifier (pubkey v) (<[n := doc]> (documents v)).
Proof.
  unfold soul_step, mbind, M_bind, lift_result, get_state, modify. split.
  - destruct (load_document dir n) as [doc|]; [|done].
    destruct (verify_document v doc) as [[]|] eqn:Hv; [|done]. intros [= <-]. eauto.
  - intros (doc & -> & -> & ->). done.
Qed.

Lemma for_each_ok {S E A} (body : A → M S E unit) l s s' :
  for_each l body s = (s', Ok tt) ↔
  match l with
  | [] => s' = s
  | x :: l' => ∃ s1, body x s = (s1, Ok tt) ∧ for_each l' body s1 = (s', Ok tt)
  end.
Proof.
  destruct l as [|x l]; simpl; [unfold mret, M_ret; naive_solver|].
  unfold mbind, M_bind. destruct (body x s) as [s1 [[]|e]]; naive_solver.
Qed.

Lemma verify_soul_iff dir v v' :
  verify_soul dir v = (v', Ok tt) ↔
  ∃ d1 d2 d3, load_document dir "soul.md" = Ok d1 ∧ load_document dir "ethics.md" = Ok d2 ∧
    load_document dir "instincts.md" = Ok d3 ∧
    verify_document v d1 = Ok tt ∧ verify_document v d2 = Ok tt ∧ verify_document v d3 = Ok tt ∧
    v' = mkVerifier (pubkey v)
           (<["instincts.md" := d3]> (<["ethics.md" := d2]> (<["soul.md" := d1]> (documents v)))).
Proof.
  assert (verify_soul dir = for_each required_docs (soul_step dir)) as -> by done.
  unfold required_docs.
  rewrite for_each_ok. setoid_rewrite for_each_ok. setoid_rewrite for_each_ok.
  setoid_rewrite for_each_ok. setoid_rewrite soul_step_iff. split.
  - intros (v1 & (d1 & ? & ? & ->) & v2 & (d2 & ? & ? & ->) & v3 & (d3 & ? & ? & ->) & ->).
    exists d1, d2, d3. done.
  - intros (d1 & d2 & d3 & ? & ? & ? & ? & ? & ? & ->). eauto 20.
Qed.

Lemma authentic_iff pk dir n :
  authentic pk dir n ↔
  ∃ doc, load_document dir n = Ok doc ∧ signs pk (signature doc) (signable_bytes doc).
Proof.
  unfold authentic. setoid_rewrite load_document_iff. split.
  - intros (text & meta & Hd & Hs). eexists. split; [by exists text, meta|]. done.
  - intros (doc & (text & meta & Hd & ->) & Hs). exists text, meta. done.
Qed.

Lemma verify_soul_authentic dir v :
  (∃ v', verify_soul dir v = (v', Ok tt)) ↔ ∀ n, n ∈ required_docs → authentic (pubkey v) dir n.
Proof.
  setoid_rewrite verify_soul_iff. setoid_rewrite verify_document_iff. split.
  - intros (v' & d1 & d2 & d3 & H1 & H2 & H3 & S1 & S2 & S3 & _) n Hn. apply authentic_iff.
    unfold required_docs in Hn. set_unfold. destruct Hn as [->|[->|[->|[]]]]; eauto.
  - intros Ha. assert (∀ n, n ∈ required_docs → ∃ doc, load_document dir n = Ok doc ∧
      signs (pubkey v) (signature doc) (signable_bytes doc)) as Hd
      by (intros n Hn; by apply authentic_iff, Ha).
    destruct (Hd "soul.md") as (d1 & ? & ?); [by left|].
    destruct (Hd "ethics.md") as (d2 & ? & ?); [by right; left|].
    destruct (Hd "instincts.md") as (d3 & ? & ?); [by right; right; left|]. eauto 15.
Qed.

(** The verification succeeds exactly when each of the three documents exists,
    with a signature file whose signature verifies under the external key over
    the document's name, tier and text; and what is kept is the text that was
    read. *)
Theorem verify_soul_spec dir v :
  ((∃ v', verify_soul dir v = (v', Ok tt)) ↔
     ∀ n, n ∈ required_docs → authentic (pubkey v) dir n) ∧
  (∀ v', verify_soul dir v = (v', Ok tt) → pubkey v' = pubkey v ∧
     (∃ text, dir "soul.md" = Some (Ok text) ∧ soul_content v' = Some text) ∧
     (∃ text, dir "ethics.md" = Some (Ok text) ∧ ethics_content v' = Some text)).
Proof.
  split; [apply verify_soul_authentic|]. intros v'.
  intros (d1 & d2 & d3 & H1 & H2 & _ & _ & _ & _ & ->)%verify_soul_iff.
  apply load_document_iff in H1 as (t1 & m1 & (H1 & _) & ->), H2 as (t2 & m2 & (H2 & _) & ->).
  unfold soul_content, ethics_content. simpl. split; [done|]. split.
  - exists t1. split; [done|]. rewrite !(lookup_insert_ne _ _ "soul.md") by discriminate.
    by rewrite lookup_insert_eq.
  - exists t2. split; [done|]. rewrite (lookup_insert_ne _ _ "ethics.md") by discriminate.
    by rewrite lookup_insert_eq.
Qed.

(** C19: a change of a verified document is noticed: if the verification accepts two
    states of the directory with the same signature file, the document's text
    is the same in both, or one signature verifies over two different texts. *)
Theorem tampered_document_needs_forgery dir dir' v v1 v2 n text text' :
  verify_soul dir v = (v1, Ok tt) → verify_soul dir' v = (v2, Ok tt) → n ∈ required_docs →
  dir n = Some (Ok text) → dir' n = Some (Ok text') → dir (n +:+ ".sig") = dir' (n +:+ ".sig") →
  text = text' ∨
  ∃ encoded t t', t ≠ t' ∧ signs (pubkey v) encoded t ∧ signs (pubkey v) encoded t'.
Proof.
  intros H1 H2 Hn Ht Ht' Hsig.
  destruct (proj1 (verify_soul_authentic dir v) (ex_intro _ _ H1) n Hn)
    as (x & meta & (Hx & j & Hj & Hp) & Hs).
  destruct (proj1 (verify_soul_authentic dir' v) (ex_intro _ _ H2) n Hn)
    as (x' & meta' & (Hx' & j' & Hj' & Hp') & Hs').
  assert (meta' = meta) as -> by congruence.
  assert (x = text) as -> by congruence. assert (x' = text') as -> by congruence.
  destruct (decide (text = text')) as [->|Hne]; [by left|right].
  exists (meta_signature meta). do 2 eexists. split; [|split; [exact Hs|exact Hs']].
  intros He. by do 4 apply str_app_inj_l in He.
Qed.
End verifier.

(** ** What a birth keeps of its keys *)

Section keys.
Context {Key Depth : Type}.
Notation Birth := (BirthOrchestrator Key Depth).
Notation B := (M Birth BirthError).
Implicit Types b : Birth.

(** Everything but the generation of an identity: the public key file and its
    configured path stay, the signing key stays or is dropped. *)
Definition keeps b b' : Prop :=
  pubkey_file b' = pubkey_file b ∧
  external_pubkey_path (config b') = external_pubkey_path (config b) ∧
  (signing_key b' = signing_key b ∨ signing_key b' = None).

#[export] Instance keeps_po : PreOrder keeps.
Proof.
  split.
  - intros b. unfold keeps. auto.
  - intros b1 b2 b3 (Hp & He & Hk) (Hp' & He' & Hk'). unfold keeps.
    rewrite Hp', He'. split_and!; [done..|]. destruct Hk', Hk; intuition congruence.
Qed.

Ltac keep :=
  let b := fresh in let Hm := fresh in
  intros b ? ? Hm;
  unfold with_config, set_stage, set_conversation, set_engine, put_doc, set_birth_record,
    set_conversation_file, modify in Hm; simplify_eq/=; unfold keeps; simpl; auto.

Ltac keeps :=
  unfold guard_stage, persist_stage, save_config, write_doc, record_birth, has_birth,
    clear_conversation_file, finish_config, outside, ensure;
  solve_respects keep.

(** [set_keys] as the calls other than the generation use it. *)
Lemma keeps_take_key : respects keeps (take_key (Key:=Key) (Depth:=Depth)).
Proof.
  intros b b' o Hm. unfold take_key, set_keys, modify, mbind, M_bind, get_state, mret, M_ret in Hm.
  simplify_eq/=. unfold keeps. simpl. auto.
Qed.

Lemma keeps_forget : respects keeps (forget_private_key (Key:=Key) (Depth:=Depth)).
Proof.
  intros b b' o Hm. unfold forget_private_key, set_keys, modify, mbind, M_bind, get_state in Hm.
  simplify_eq/=. unfold keeps. simpl. auto.
Qed.

Context (sign : Key → string → string) (metadata_json : string → string → string → string).

Lemma keeps_sign fl k :
  respects keeps (sign_constitutional_documents (Depth:=Depth) sign metadata_json fl k).
Proof. unfold sign_constitutional_documents. keeps. Qed.

Lemma keeps_emergence fl now :
  respects keeps (complete_emergence (Depth:=Depth) sign metadata_json fl now).
Proof.
  unfold complete_emergence.
  solve_respects ltac:(first [apply keeps_take_key | apply keeps_sign | apply keeps_forget | keeps]).
Qed.

Lemma keeps_legacy fl now :
  respects keeps (complete_birth (Depth:=Depth) sign metadata_json fl now).
Proof.
  unfold complete_birth.
  solve_respects ltac:(first [apply keeps_take_key | apply keeps_forget
    | intros b b' o Hm; unfold try_sign in Hm; destruct (docs b !! "soul.md");
      [destruct (sign_constitutional_documents sign metadata_json fl k b) eqn:Hs; simplify_eq/=;
       by apply keeps_sign in Hs | simplify_eq; reflexivity]
    | keeps]).
Qed.

Context (public_bytes : Key → string).
Context (key_base64 : Key → string) (parse_key : string → result Key string).
Notation birth_step := (birth_step (Depth:=Depth) public_bytes key_base64 parse_key sign metadata_json).
Notation generate_identity := (generate_identity (Depth:=Depth) public_bytes key_base64 parse_key).

(** The signing key held belongs to the public key on disk, at the configured
    path. *)
Definition key_on_disk b : Prop :=
  ∀ k, signing_key b = Some k →
    pubkey_file b = Some (public_bytes k) ∧ is_Some (external_pubkey_path (config b)).

Lemma keeps_key_on_disk b b' : keeps b b' → key_on_disk b → key_on_disk b'.
Proof. intros (Hp & He & [Hk|Hk]) Hd k; rewrite Hk, Hp, He; [apply Hd|done]. Qed.

Lemma step_keeps b b' :
  birth_step b b' → keeps b b' ∨ ∃ fl k dir o, generate_identity fl k dir b = (b', o).
Proof.
  intros [fl k dir o Hm|fl o Hm|fl o Hm|fl o Hm|fl role content o Hm|o Hm|fl soul growth o Hm
    |fl now o Hm|o Hm|fl now o Hm|d o Hm]; [eauto 10|left..].
  7: by eapply keeps_emergence.
  8: by eapply keeps_legacy.
  all: revert Hm; match goal with |- ?m _ = _ → _ => enough (respects keeps m) as Hr by (by apply Hr) end;
    unfold advance_past_darkness, advance_to_connectivity, advance_to_crystallization, add_message,
      clear_conversation, crystallize_soul, skip_to_emergence, start_crystallization; keeps.
Qed.

Context (parse_key_base64 : ∀ k, parse_key (key_base64 k) = Ok k).

Lemma generate_key_on_disk fl k dir b b' o :
  generate_identity fl k dir b = (b', o) → key_on_disk b → key_on_disk b'.
Proof.
  intros [[_ Hm]|(_ & -> & _)]%guard_stage_inv Hd; [|done].
  erewrite M_bind_ok in Hm by reflexivity.
  destruct (bool_decide _ && _) eqn:Hkeep; [unfold mret, M_ret in Hm; by simplify_eq|].
  assert (signing_key b = None) as Hnone.
  { destruct (signing_key b) as [k0|] eqn:Hk; [|done]. destruct (Hd _ Hk) as [Hp _].
    by rewrite Hp in Hkeep. }
  apply outside_inv in Hm as [[_ Hm]|(e & _ & -> & _)]; [|done].
  erewrite M_bind_ok in Hm by reflexivity.
  rewrite parse_key_base64 in Hm. do 3 erewrite M_bind_ok in Hm by reflexivity.
  eapply keeps_key_on_disk; [|].
  - assert (respects keeps (save_config fl ;; outside (Key:=Key) (Depth:=Depth) (f_docs_dir fl) IoError))
      as Hr by keeps. by eapply Hr.
  - intros k0. simpl. intros [= <-]. eauto.
Qed.

Lemma steps_key_on_disk b b' : key_on_disk b → rtc birth_step b b' → key_on_disk b'.
Proof.
  intros Hb. induction 1 as [b|b b1 b' Hs _ IH]; [done|]. apply IH.
  apply step_keeps in Hs as [Hs|(fl & k & dir & o & Hs)];
    [by eapply keeps_key_on_disk|by eapply generate_key_on_disk].
Qed.

(** ** From the emergence to the verification *)

Context {PubKey Sig : Type}.
Context (b64_decode : string → result string string).
Context (key_from_bytes : string → result PubKey string).
Context (sig_from_slice : string → result Sig string).
Context (verify : PubKey → string → Sig → bool).
Context (parse_meta : string → result SigMeta string).
Context (public : Key → PubKey).
(** A public key is 32 bytes that decode to it; what a key signs verifies under
    its public key; the signature file is read back. *)
Context (public_bytes_length : ∀ k, String.length (public_bytes k) = 32).
Context (key_from_public_bytes : ∀ k, key_from_bytes (public_bytes k) = Ok (public k)).
Context (sign_verifies : ∀ k text, signs b64_decode sig_from_slice verify (public k) (sign k text) text).
Context (parse_metadata : ∀ sig now, ∃ at_,
  parse_meta (metadata_json sig "Constitutional" now) = Ok (mkSigMeta sig Constitutional at_)).

(** The documents directory of a birth, as the verifier reads it. *)
Definition docs_dir b : Dir := λ n, Ok <$> docs b !! n.

(** C30: what the birth signs is what the boot verifies: from a start without a key,
    after any calls with any faults, a completed emergence leaves documents that
    pass the constitutional verification under the public key file it wrote. *)
Theorem emergence_verifies b0 b b' fl now :
  signing_key b0 = None → rtc birth_step b0 b →
  complete_emergence sign metadata_json fl now b = (b', Ok tt) →
  ∃ path, external_pubkey_path (config b') = Some path ∧
    ∀ read data_dir, read path = Ok <$> pubkey_file b' →
      verify_constitutional_integrity b64_decode key_from_bytes sig_from_slice verify parse_meta
        read (external_pubkey_path (config b')) data_dir (docs_dir b') = Ok tt.
Proof.
  intros H0 Hs Hm. assert (key_on_disk b) as Hd.
  { eapply steps_key_on_disk; [|done]. intros k. by rewrite H0. }
  pose proof (keeps_emergence _ _ _ _ _ Hm) as (Hp & He & _).
  apply complete_emergence_inv in Hm as (_ & _ & (k & Hk & Hsig) & _).
  destruct (Hd k Hk) as [Hpub [path Hpath]]. rewrite He, Hpath. exists path. split; [done|].
  intros read dir Hr. unfold verify_constitutional_integrity, read_public_key. simpl.
  rewrite Hr, Hp, Hpub. simpl. rewrite decide_True by done. rewrite key_from_public_bytes. simpl.
  enough (∃ v', verify_soul b64_decode sig_from_slice verify parse_meta (docs_dir b')
            (mkVerifier (public k) ∅) = (v', Ok tt)) as [v' Hv] by by rewrite Hv.
  apply verify_soul_authentic. intros n Hn. destruct (Hsig n Hn) as (c & _ & Hc & Hs').
  destruct (parse_metadata (sign k (n +:+ "|Constitutional|" +:+ c)) (Birth.signed_at fl n)) as [at_ Hat].
  exists c. eexists. split.
  - unfold on_disk, docs_dir. rewrite Hc, Hs'. split; [done|]. eexists. split; [done|exact Hat].
  - simpl. apply sign_verifies.
Qed.

(** The legacy path writes no document but signatures. *)
Definition same_ethics b b' : Prop := docs b' !! "ethics.md" = docs b !! "ethics.md".

#[local] Instance same_ethics_po : PreOrder same_ethics.
Proof. split; unfold same_ethics; [done|]. intros b1 b2 b3. congruence. Qed.

Lemma sig_not_ethics name : name +:+ ".sig" ≠ "ethics.md".
Proof.
  intros He. assert (ends_with (name +:+ ".sig") ".sig" = true) as H by (apply ends_with_iff; eauto).
  rewrite He in H. done.
Qed.

Ltac same_prim :=
  let b := fresh in let Hm := fresh in
  intros b ? ? Hm;
  unfold with_config, take_key, set_keys, get_state, mbind, M_bind, mret, M_ret, put_doc,
    set_birth_record, set_conversation_file, modify in Hm;
  simplify_eq/=; unfold same_ethics; simpl;
  try (rewrite lookup_insert_ne by apply sig_not_ethics); reflexivity.

Lemma legacy_same_ethics fl now :
  respects same_ethics (complete_birth (Depth:=Depth) sign metadata_json fl now).
Proof.
  assert (∀ k, respects same_ethics (sign_constitutional_documents (Depth:=Depth) sign metadata_json fl k))
    as Hsign by (intros k; unfold sign_constitutional_documents, write_doc, outside;
                 solve_respects same_prim).
  unfold complete_birth, record_birth, has_birth, forget_private_key, clear_conversation_file,
    finish_config, save_config, outside, ensure.
  solve_respects ltac:(first [same_prim
    | intros b b' o Hm; unfold try_sign in Hm; destruct (docs b !! "soul.md");
      [destruct (sign_constitutional_documents sign metadata_json fl k b) eqn:Hs; simplify_eq/=;
       by apply Hsign in Hs | simplify_eq; reflexivity]]).
Qed.

Lemma legacy_records fl now b b' :
  complete_birth (Depth:=Depth) sign metadata_json fl now b = (b', Ok tt) → is_Some (birth_record b').
Proof.
  intros Hm. unfold complete_birth in Hm.
  step_inv Hm; [|done]. step_inv Hk; [|done]. step_inv Hk0; [|done]. step_inv Hk; [|done].
  step_inv Hk0; [|done]. step_inv Hk; [|done].
  apply record_birth_inv in Hm4 as (_ & Hrec & _).
  apply finish_inv in Hk0 as [_ Hfin]; [|by rewrite Hrec].
  destruct (Hfin eq_refl) as (_ & _ & _ & -> & _). by rewrite Hrec.
Qed.

(** The legacy completion ignores a failed signing: with a document missing it
    still records the birth, and the verification of what it leaves fails. *)
Theorem legacy_birth_unverifiable b b' fl now read data_dir configured :
  complete_birth sign metadata_json fl now b = (b', Ok tt) → docs b !! "ethics.md" = None →
  is_Some (birth_record b') ∧
  ∃ e, verify_constitutional_integrity b64_decode key_from_bytes sig_from_slice verify parse_meta
         read configured data_dir (docs_dir b') = Err e.
Proof.
  intros Hm Hn. split; [by eapply legacy_records|].
  apply legacy_same_ethics in Hm as He. unfold same_ethics in He. rewrite Hn in He.
  destruct (verify_constitutional_integrity _ _ _ _ _ _ _ _ _) as [[]|e] eqn:Hv; [|by eexists].
  unfold verify_constitutional_integrity in Hv.
  destruct (ok_or _ _) as [path|]; simpl in Hv; [|done].
  destruct (read_public_key _ _ _ path) as [key|]; simpl in Hv; [|done].
  destruct (verify_soul _ _ _ _ _ _) as [v' o] eqn:Hs. simpl in Hv. subst o.
  destruct (proj1 (verify_soul_authentic _ _ _ _ (docs_dir b') (mkVerifier key ∅)) (ex_intro _ _ Hs)
    "ethics.md") as (t & meta & (Ht & _) & _); [by right; left|].
  unfold docs_dir in Ht. by rewrite He in Ht.
Qed.
End keys.

(** ** Witnesses *)

Module Boot.

(** Two keys; a signature is the public key followed by the text, and the toy
    JSON is the signature. *)
Definition public (k : bool) : string :=
  if k then "key-A-0123456789-0123456789-0123" else "key-B-0123456789-0123456789-0123".
Definition parse (s : string) : result bool string := Ok (bool_decide (s = public true)).
Definition sign (k : bool) (text : string) : string := public k +:+ text.
Definition json (sig tier now : string) : string := sig.
Definition verify (pk text sig : string) : bool := bool_decide (sig = pk +:+ text).
Definition meta (s : string) : result SigMeta string := Ok (mkSigMeta s Constitutional "").

Definition start : BirthOrchestrator bool nat :=
  mkBirth (mkConfig None None false) Darkness None None [] None None None First.documents None None.
Definition identified : BirthOrchestrator bool nat :=
  (generate_identity public public parse no_faults true "data" start).1.
Definition ready : BirthOrchestrator bool nat := (skip_to_emergence identified).1.
Definition born : BirthOrchestrator bool nat :=
  (complete_emergence sign json no_faults "now" ready).1.
Definition unfinished : BirthOrchestrator bool nat :=
  mkBirth (mkConfig None None false) Darkness (Some true) None [] None None (Some (public true))
    (<["soul.md" := "soul"]> ∅) None None.

End Boot.

Lemma emergence_verifies_witness :
  verify_constitutional_integrity Ok Ok Ok Boot.verify Boot.meta
    (λ _, Ok <$> pubkey_file Boot.born) (external_pubkey_path (config Boot.born)) "data"
    (docs_dir Boot.born) = Ok tt.
Proof.
  assert (rtc (birth_step Boot.public Boot.public Boot.parse Boot.sign Boot.json)
            Boot.start Boot.ready) as Hs.
  { apply (rtc_l _ _ Boot.identified).
    { apply (s_generate _ _ _ _ _ _ _ no_faults true "data" (Ok tt)). vm_compute. reflexivity. }
    apply rtc_once. apply (s_skip _ _ _ _ _ _ _ (Ok tt)). vm_compute. reflexivity. }
  destruct (emergence_verifies Boot.sign Boot.json Boot.public Boot.public Boot.parse
    ltac:(by intros []) Ok Ok Ok Boot.verify Boot.meta Boot.public ltac:(by intros [])
    ltac:(by intros []) ltac:(intros k t; eexists _, _; do 2 (split; [reflexivity|]);
      by apply bool_decide_eq_true) ltac:(by eexists)
    Boot.start Boot.ready Boot.born no_faults "now") as (path & Hp & Hv);
    [reflexivity|exact Hs|vm_compute; reflexivity|].
  by apply Hv.
Defined.

Lemma legacy_birth_unverifiable_witness :
  is_Some (birth_record (complete_birth Boot.sign Boot.json no_faults "now" Boot.unfinished).1).
Proof.
  apply (legacy_birth_unverifiable Boot.sign Boot.json Ok Ok Ok Boot.verify Boot.meta
    Boot.unfinished _ no_faults "now" (λ _, None) "data" None); vm_compute; reflexivity.
Defined.

(** A verification that accepts everything, and a changed document. *)
Definition changed : Dir :=
  λ n, if decide (n = "soul.md") then Some (Ok "another soul") else docs_dir Boot.born n.

Lemma tampered_document_needs_forgery_witness :
  "soul" = "another soul" ∨ ∃ encoded t t', t ≠ t' ∧
    signs Ok Ok (λ _ _ _ : string, true) (Boot.public true) encoded t ∧
    signs Ok Ok (λ _ _ _ : string, true) (Boot.public true) encoded t'.
Proof.
  pose (v := mkVerifier (Boot.public true) ∅).
  apply (tampered_document_needs_forgery Ok Ok (λ _ _ _, true) Boot.meta (docs_dir Boot.born)
    changed v (verify_soul Ok Ok (λ _ _ _, true) Boot.meta (docs_dir Boot.born) v).1
    (verify_soul Ok Ok (λ _ _ _, true) Boot.meta changed v).1 "soul.md");
    [vm_compute; reflexivity|vm_compute; reflexivity|by left|vm_compute; reflexivity..].
Defined.
