(* ===== verification/WebSpec.v ===== *)
(** * Outgoing HTTP: correctness
    The private ranges are the named CIDR blocks, the validation accepts exactly
    what the policy describes, and over any calls of the client only validated
    URLs are requested, redirects aside, the sessions stay bounded and downloads land in the
    download directory.  The last part shows what the checks let through. *)

From S2P Require Import Prelude RustStr Paths UrlSecurity HttpClient.
From Stdlib Require Import ZArith Lia Ascii.
From stdpp Require Import base list sets strings gmap relations pretty.

Open Scope rust_scope.

(** ** CIDR blocks *)

(** An address as a number, and membership in a block of [width]-bit
    addresses with the given prefix length. *)
Definition v4_number (a b c d : Z) : Z := (a * 2 ^ 24 + b * 2 ^ 16 + c * 2 ^ 8 + d)%Z.
Definition v6_number (segments : list Z) : Z := foldl (λ n s, n * 2 ^ 16 + s)%Z 0%Z segments.

Definition in_cidr (width addr : Z) (block : Z * Z) : bool :=
  (Z.shiftr addr (width - block.2) =? Z.shiftr block.1 (width - block.2))%Z.

Definition octet (x : Z) : Prop := (0 ≤ x < 256)%Z.
Definition segment (x : Z) : Prop := (0 ≤ x < 2 ^ 16)%Z.

Definition v4_blocks : list (Z * Z) := [
  (v4_number 127 0 0 0, 8); (v4_number 10 0 0 0, 8); (v4_number 172 16 0 0, 12);
  (v4_number 192 168 0 0, 16); (v4_number 169 254 0 0, 16); (v4_number 0 0 0 0, 8)]%Z.

(** [::1], [::], [fc00::/7] and [fe80::/10]. *)
Definition v6_blocks : list (Z * Z) := [
  (1, 128); (0, 128); (0xfc00 * 2 ^ 112, 7); (0xfe80 * 2 ^ 112, 10)]%Z.

Lemma v4_shift a b c d n m : octet b → octet c → octet d →
  (n = 24 ∧ m = a ∨ n = 20 ∧ m = a * 16 + b / 16 ∨ n = 16 ∧ m = a * 256 + b)%Z →
  Z.shiftr (v4_number a b c d) n = m.
Proof.
  unfold octet, v4_number. intros Hb Hc Hd Hn.
  assert (0 ≤ b / 16 < 16 ∧ b mod 16 = b - 16 * (b / 16) ∧ 0 ≤ b mod 16 < 16)%Z
    by (Z.to_euclidean_division_equations; lia).
  rewrite Z.shiftr_div_pow2 by lia. symmetry.
  destruct Hn as [[-> ->]|[[-> ->]|[-> ->]]].
  - apply (Z.div_unique _ _ _ (b * 2 ^ 16 + c * 2 ^ 8 + d)); lia.
  - apply (Z.div_unique _ _ _ ((b mod 16) * 2 ^ 16 + c * 2 ^ 8 + d)); lia.
  - apply (Z.div_unique _ _ _ (c * 2 ^ 8 + d)); lia.
Qed.

Lemma eqb_pair_block a b k x y : octet b →
  (k = 256 * x + y)%Z → octet y → (a * 256 + b =? k)%Z = (a =? x)%Z && (b =? y)%Z.
Proof.
  unfold octet. intros Hb -> Hy. apply eq_true_iff_eq. rewrite andb_true_iff, !Z.eqb_eq. lia.
Qed.

Lemma eqb_172_block a b : octet b → (a * 16 + b / 16 =? 2753)%Z = (a =? 172)%Z && in_range 16 31 b.
Proof.
  unfold octet, in_range. intros Hb. apply eq_true_iff_eq.
  rewrite !andb_true_iff, !Z.eqb_eq, !Z.leb_le. Z.to_euclidean_division_equations. lia.
Qed.

Lemma v4_blocks_iff a b c d :
  octet a → octet b → octet c → octet d →
  is_private_v4 a b c d = existsb (in_cidr 32 (v4_number a b c d)) v4_blocks.
Proof.
  intros Ha Hb Hc Hd. unfold is_private_v4, v4_blocks, in_cidr. cbn [existsb fst snd].
  rewrite (v4_shift a b c d (32 - 8) a), (v4_shift a b c d (32 - 12) (a * 16 + b / 16)),
    (v4_shift a b c d (32 - 16) (a * 256 + b)) by (done || lia).
  change (Z.shiftr (v4_number 172 16 0 0) (32 - 12)) with 2753%Z.
  change (Z.shiftr (v4_number 192 168 0 0) (32 - 16)) with 49320%Z.
  change (Z.shiftr (v4_number 169 254 0 0) (32 - 16)) with 43518%Z.
  change (Z.shiftr (v4_number 127 0 0 0) (32 - 8)) with 127%Z.
  change (Z.shiftr (v4_number 10 0 0 0) (32 - 8)) with 10%Z.
  change (Z.shiftr (v4_number 0 0 0 0) (32 - 8)) with 0%Z.
  rewrite eqb_172_block, (eqb_pair_block a b 49320 192 168), (eqb_pair_block a b 43518 169 254)
    by (done || unfold octet; lia).
  by destruct (a =? 127)%Z, (a =? 10)%Z, ((a =? 172)%Z && _), ((a =? 192)%Z && _),
    ((a =? 169)%Z && _), (a =? 0)%Z.
Qed.

(** A mask of the high bits compares the high bits. *)
Lemma land_shift x m k : (0 ≤ k)%Z → Z.land x (m * 2 ^ k) = (Z.land (Z.shiftr x k) m * 2 ^ k)%Z.
Proof.
  intros Hk. apply Z.bits_inj'. intros n Hn.
  rewrite Z.land_spec, !Z.mul_pow2_bits, Z.land_spec by done.
  destruct (decide (n < k)%Z); [rewrite !(Z.testbit_neg_r _ (n - k)) by lia; by destruct (Z.testbit x n)|].
  rewrite Z.shiftr_spec by lia. by replace (n - k + k)%Z with n by lia.
Qed.

Lemma mask_eqb s k w v : segment s → (0 ≤ k)%Z → (k + w = 16)%Z → (0 ≤ w)%Z →
  (Z.land s (Z.ones w * 2 ^ k) =? v * 2 ^ k)%Z = (Z.shiftr s k =? v)%Z.
Proof.
  intros Hs Hk Hw Hw0. rewrite land_shift, Z.land_ones by lia.
  assert (0 ≤ Z.shiftr s k < 2 ^ w)%Z as Hr.
  { unfold segment in Hs. rewrite Z.shiftr_div_pow2 by lia.
    split; [apply Z.div_pos; lia|]. apply Z.div_lt_upper_bound; [lia|].
    rewrite <- Z.pow_add_r by lia. replace (k + w)%Z with 16%Z by lia. lia. }
  rewrite Z.mod_small by lia. apply eq_true_iff_eq. rewrite !Z.eqb_eq.
  pose proof (Z.pow_pos_nonneg 2 k). nia.
Qed.

Lemma masks_shift s : segment s →
  (Z.land s 0xfe00 =? 0xfc00)%Z = (Z.shiftr s 9 =? 0x7e)%Z ∧
  (Z.land s 0xffc0 =? 0xfe80)%Z = (Z.shiftr s 6 =? 0x3fa)%Z.
Proof.
  intros Hs. split.
  - by apply (mask_eqb s 9 7 0x7e).
  - by apply (mask_eqb s 6 10 0x3fa).
Qed.

(** The number of an address, most significant segment first. *)
Lemma v6_number_bound l : Forall segment l → (0 ≤ v6_number l < 2 ^ (16 * Z.of_nat (length l)))%Z.
Proof.
  unfold v6_number. induction l as [|x l IH] using rev_ind; intros Hl; [done|].
  apply Forall_app in Hl as [Hl Hx]. rewrite Forall_singleton in Hx.
  rewrite foldl_app, length_app. cbn [foldl length].
  specialize (IH Hl). unfold segment in Hx.
  replace (16 * Z.of_nat (length l + 1))%Z with (16 * Z.of_nat (length l) + 16)%Z by lia.
  rewrite Z.pow_add_r by lia. change (2 ^ (16))%Z with 65536%Z in *. lia.
Qed.

Lemma v6_number_cons s l : v6_number (s :: l) = (s * 2 ^ (16 * Z.of_nat (length l)) + v6_number l)%Z.
Proof.
  unfold v6_number. simpl foldl. induction l as [|x l IH] using rev_ind; [simpl; lia|].
  rewrite !foldl_app, length_app. cbn [foldl length]. rewrite IH.
  replace (16 * Z.of_nat (length l + 1))%Z with (16 * Z.of_nat (length l) + 16)%Z by lia.
  rewrite Z.pow_add_r by lia. change (2 ^ (16))%Z with 65536%Z in *. lia.
Qed.

Lemma v6_number_inj l l' :
  Forall segment l → Forall segment l' → length l = length l' → v6_number l = v6_number l' → l = l'.
Proof.
  revert l'. induction l as [|x l IH]; intros [|y l'] Hl Hl' Hlen He; [done..|].
  apply Forall_cons in Hl as [Hx Hl], Hl' as [Hy Hl']. injection Hlen as Hlen.
  rewrite !v6_number_cons, <- Hlen in He.
  pose proof (v6_number_bound l Hl). pose proof (v6_number_bound l' Hl') as Hb. rewrite <- Hlen in Hb.
  assert (x = y) as -> by nia. f_equal. apply IH; [done..|]. lia.
Qed.

Lemma v6_shift s l k : length l = 7 → Forall segment l → (0 ≤ k)%Z →
  Z.shiftr (v6_number (s :: l)) (112 + k) = Z.shiftr s k.
Proof.
  intros Hlen Hl Hk. rewrite v6_number_cons, Hlen. pose proof (v6_number_bound l Hl) as Hb.
  rewrite Hlen in Hb. rewrite <- Z.shiftr_shiftr by lia. f_equal.
  rewrite Z.shiftr_div_pow2 by lia. symmetry. apply (Z.div_unique _ _ _ (v6_number l)); lia.
Qed.

Lemma v6_blocks_iff l :
  length l = 8 → Forall segment l →
  is_private_v6 l = existsb (in_cidr 128 (v6_number l)) v6_blocks.
Proof.
  intros Hlen Hl. unfold is_private_v6, v6_blocks, in_cidr. cbn [existsb fst snd].
  destruct l as [|s l]; [done|]. injection Hlen as Hlen.
  apply Forall_cons in Hl as Hl2. destruct Hl2 as [Hs Hl2].
  change (segment0 (s :: l)) with s.
  destruct (masks_shift s Hs) as [-> ->].
  replace (128 - 7)%Z with (112 + 9)%Z by lia. replace (128 - 10)%Z with (112 + 6)%Z by lia.
  rewrite !(v6_shift s l) by (done || lia). replace (128 - 128)%Z with 0%Z by lia.
  rewrite !Z.shiftr_0_r.
  assert (∀ l', length l' = 8 → Forall segment l' →
    bool_decide (s :: l = l') = (v6_number (s :: l) =? v6_number l')%Z) as Heq.
  { intros l' Hn Hf. apply eq_true_iff_eq. rewrite bool_decide_eq_true, Z.eqb_eq.
    split; [by intros ->|]. apply v6_number_inj; [done|done|]. simpl. lia. }
  rewrite !Heq by (reflexivity || (repeat constructor; unfold segment; lia)).
  rewrite orb_false_r, !orb_assoc. done.
Qed.

(** The private ranges are the named blocks: for every IPv4 address the chain of
    octet tests, and for every IPv6 address the segment masks, agree with
    membership in the CIDR blocks 127/8, 10/8, 172.16/12, 192.168/16, 169.254/16
    and 0/8, and ::1, ::, fc00::/7 and fe80::/10. *)
Theorem private_ranges_are_blocks :
  (∀ a b c d, octet a → octet b → octet c → octet d →
     is_private_ip (Ipv4 a b c d) = existsb (in_cidr 32 (v4_number a b c d)) v4_blocks) ∧
  (∀ l, length l = 8 → Forall segment l →
     is_private_ip (Ipv6 l) = existsb (in_cidr 128 (v6_number l)) v6_blocks).
Proof. split; [exact v4_blocks_iff|exact v6_blocks_iff]. Qed.

(** ** The validation *)

Section validate.
Context (parse : string → result Url string) (ipv6_to_string : list Z → string).
Notation validate_url := (validate_url parse ipv6_to_string).

(** What the policy asks of a host. *)
Definition host_permitted (policy : UrlSecurityPolicy) (h : string) : Prop :=
  (∀ b, b ∈ blocked_hosts policy → to_lowercase h ≠ to_lowercase b) ∧
  (allowed_domains policy = [] ∨
   ∃ d, d ∈ allowed_domains policy ∧ domain_allowed (to_lowercase h) d = true).

Definition internal (k : Host) : bool :=
  match k with
  | Domain d => is_local_domain (to_lowercase d)
  | _ => is_private_ip k
  end.

Definition not_internal (k : Host) : Prop := internal k = false.

Lemma gate_ok (b : bool) (e : string) : (if b then Err e else Ok tt) = Ok tt ↔ b = false.
Proof. by destruct b. Qed.

Lemma check_private_iff u :
  check_private ipv6_to_string u = Ok tt ↔ ∃ k, host u = Some k ∧ not_internal k.
Proof.
  unfold check_private, not_internal. destruct (host u) as [k|].
  - trans (internal k = false); [destruct k; apply gate_ok|].
    split; [eauto|]. by intros (k' & [= <-] & H).
  - split; [done|]. by intros (k & ? & _).
Qed.

Lemma validate_accepts s policy u :
  validate_url s policy = Ok u ↔
  parse s = Ok u ∧ scheme u ∈ allowed_schemes policy ∧
  (∃ h, host_str u = Some h ∧ host_permitted policy h) ∧
  (block_private_ips policy = true → ∃ k, host u = Some k ∧ not_internal k).
Proof.
  unfold UrlSecurity.validate_url, host_permitted.
  destruct (parse s) as [u'|e]; simpl; [|naive_solver].
  assert (existsb (λ s0, bool_decide (s0 = scheme u')) (allowed_schemes policy) = true ↔
    scheme u' ∈ allowed_schemes policy) as Hs.
  { rewrite existsb_elem. setoid_rewrite bool_decide_eq_true. naive_solver. }
  destruct (existsb (λ s0, bool_decide (s0 = scheme u')) (allowed_schemes policy)); simpl;
    [|split; [done|intros ([= ->] & H & _); by apply Hs in H]].
  destruct (host_str u') as [h|] eqn:Hh; simpl;
    [|split; [done|intros ([= ->] & _ & (h & H & _) & _); congruence]].
  assert (existsb (λ b, bool_decide (to_lowercase h = to_lowercase b)) (blocked_hosts policy) = true ↔
    ∃ b, b ∈ blocked_hosts policy ∧ to_lowercase h = to_lowercase b) as Hb.
  { rewrite existsb_elem. setoid_rewrite bool_decide_eq_true. naive_solver. }
  destruct (existsb _ (blocked_hosts policy)); simpl.
  { split; [done|]. intros ([= ->] & _ & (h' & H & Hp & _) & _). simplify_eq.
    destruct (proj1 Hb eq_refl) as (b & Hin & He). by destruct (Hp b). }
  assert (∀ b, b ∈ blocked_hosts policy → to_lowercase h ≠ to_lowercase b) as Hnb
    by (intros b Hin He; assert (false = true) by (apply Hb; eauto); done).
  assert (bool_decide (allowed_domains policy = [])
    || existsb (domain_allowed (to_lowercase h)) (allowed_domains policy) = true ↔
    (allowed_domains policy = [] ∨
     ∃ d, d ∈ allowed_domains policy ∧ domain_allowed (to_lowercase h) d = true)) as Hd.
  { by rewrite orb_true_iff, bool_decide_eq_true, existsb_elem. }
  rewrite <- negb_orb.
  destruct (bool_decide _ || existsb _ (allowed_domains policy)); simpl.
  2: { split; [done|]. intros ([= ->] & _ & (h' & H & _ & Ha) & _). simplify_eq.
       by apply Hd in Ha. }
  destruct (block_private_ips policy); simpl.
  - destruct (check_private _ u') as [[]|e] eqn:Hc; simpl.
    + apply check_private_iff in Hc. naive_solver.
    + split; [done|]. intros ([= ->] & _ & _ & Hk). specialize (Hk eq_refl).
      apply check_private_iff in Hk. congruence.
  - naive_solver.
Qed.

(** The host is the domain or one of its subdomains, case aside. *)
Definition in_domain (h d : string) : Prop :=
  to_lowercase h = to_lowercase d ∨ ∃ sub, to_lowercase h = sub +:+ "." +:+ to_lowercase d.

Lemma domain_allowed_iff h d : domain_allowed (to_lowercase h) d = true ↔ in_domain h d.
Proof. unfold domain_allowed, in_domain. by rewrite orb_true_iff, bool_decide_eq_true, ends_with_iff. Qed.

(** The names of the machine and of the local network. *)
Definition local_name (d : string) : Prop :=
  to_lowercase d = "localhost" ∨ to_lowercase d = "0.0.0.0" ∨
  (∃ t, to_lowercase d = t +:+ ".local") ∨ ∃ t, to_lowercase d = t +:+ ".internal".

Lemma is_local_domain_iff d : is_local_domain (to_lowercase d) = true ↔ local_name d.
Proof.
  unfold is_local_domain, local_name.
  rewrite !orb_true_iff, !bool_decide_eq_true, !ends_with_iff. tauto.
Qed.

Definition public_host (k : Host) : Prop :=
  match k with Domain d => ¬ local_name d | _ => is_private_ip k = false end.

Lemma not_internal_iff k : not_internal k ↔ public_host k.
Proof.
  unfold not_internal. destruct k; simpl; [|done..].
  by rewrite <- is_local_domain_iff, not_true_iff_false.
Qed.

(** The validation accepts exactly the URLs that parse, have an allowed scheme
    and a host that is not blocked and is one of the allowed domains or a
    subdomain of one, if any are given, and, with private addresses blocked,
    whose host is neither a private address nor a local name. *)
Theorem validate_url_iff s policy u :
  validate_url s policy = Ok u ↔
  parse s = Ok u ∧ scheme u ∈ allowed_schemes policy ∧
  (∃ h, host_str u = Some h ∧
     (∀ b, b ∈ blocked_hosts policy → to_lowercase h ≠ to_lowercase b) ∧
     (allowed_domains policy = [] ∨ ∃ d, d ∈ allowed_domains policy ∧ in_domain h d)) ∧
  (block_private_ips policy = true → ∃ k, host u = Some k ∧ public_host k).
Proof.
  rewrite validate_accepts. unfold host_permitted.
  setoid_rewrite domain_allowed_iff. by setoid_rewrite not_internal_iff.
Qed.

(** The segments of [::ffff:a.b.c.d]. *)
Definition mapped (a b c d : Z) : list Z := [0; 0; 0; 0; 0; 0xffff; a * 256 + b; c * 256 + d]%Z.

(** The IPv4-mapped form of any address passes the default policy: a URL whose
    host is [::ffff:127.0.0.1], or the mapped form of any other private IPv4
    address, is accepted although the address itself is refused. *)
Theorem mapped_ipv4_not_blocked s u h a b c d :
  parse s = Ok u → scheme u = "http" → host_str u = Some h → starts_with h "[" = true →
  host u = Some (Ipv6 (mapped a b c d)) →
  validate_url s default_url_policy = Ok u.
Proof.
  intros Hp Hs Hh Hb Hk. apply validate_accepts. split; [done|]. split; [rewrite Hs; by left|].
  split.
  - exists h. split; [done|]. split; [|by left]. intros x Hx He.
    destruct h as [|ch h]; [done|]. simpl in Hb. apply andb_true_iff in Hb as [Hb _].
    apply bool_decide_eq_true in Hb. subst ch.
    unfold default_url_policy, DEFAULT_BLOCKED_HOSTS in Hx. set_unfold.
    destruct Hx as [->|[->|[->|[]]]]; done.
  - intros _. eexists. split; [done|].
    unfold not_internal, internal, is_private_ip, is_private_v6, mapped, segment0.
    rewrite !bool_decide_eq_false_2 by discriminate. reflexivity.
Qed.

Lemma dot_at_end d t : d +:+ "." = t → ends_with t "." = true.
Proof. intros <-. apply ends_with_iff. eauto. Qed.

(** A trailing dot defeats the name checks: for every name, [localhost] and
    [metadata.google.internal] included, the fully qualified form with a dot at
    its end passes the default policy. *)
Theorem trailing_dot_not_blocked s u d :
  parse s = Ok u → scheme u = "http" → host_str u = Some (d +:+ ".") →
  host u = Some (Domain (d +:+ ".")) →
  validate_url s default_url_policy = Ok u.
Proof.
  intros Hp Hs Hh Hk.
  assert (∀ t, to_lowercase (d +:+ ".") = t → ends_with t "." = true) as Hdot
    by (intros t; rewrite to_lowercase_app; apply dot_at_end).
  assert (∀ p x, ends_with (p +:+ x) "." = true → x ≠ "" → ends_with x "." = true) as Hsuf.
  { intros p x. induction p as [|c p IH]; [done|]. rewrite str_app_cons. simpl.
    intros [Hc%bool_decide_eq_true|H]%orb_true_iff Hx; [|auto].
    destruct p, x; try done. }
  apply validate_accepts. split; [done|]. split; [rewrite Hs; by left|]. split.
  - eexists. split; [done|]. split; [|by left]. intros x Hx He%Hdot.
    unfold default_url_policy, DEFAULT_BLOCKED_HOSTS in Hx. set_unfold.
    destruct Hx as [->|[->|[->|[]]]]; done.
  - intros _. eexists. split; [done|]. unfold not_internal, internal, is_local_domain.
    rewrite !orb_false_iff, !bool_decide_eq_false. split_and!.
    + by intros He%Hdot.
    + by intros He%Hdot.
    + apply not_true_is_false. intros [t Ht]%ends_with_iff. apply Hdot in Ht.
      by apply Hsuf in Ht.
    + apply not_true_is_false. intros [t Ht]%ends_with_iff. apply Hdot in Ht.
      by apply Hsuf in Ht.
Qed.
End validate.

(** ** The client *)

Section client.
Context (parse : string → result Url string) (ipv6_to_string : list Z → string).
Context (unicode_alphanumeric : string → bool) (to_uppercase : string → string).
Context (from_utf8_lossy : string → string).
Context (next_request : Request → Response → option Request) (too_many : Request → string).

Notation validate_url := (validate_url parse ipv6_to_string).
Notation sanitize := (sanitize unicode_alphanumeric).
Notation download_filename := (download_filename unicode_alphanumeric).
Notation execute_request := (execute_request from_utf8_lossy).
Notation execute_tool :=
  (execute_tool parse ipv6_to_string unicode_alphanumeric to_uppercase from_utf8_lossy next_request too_many).
Implicit Types cl : HttpClient.

(** A character is one ASCII byte, or has none. *)
Definition whole_char (ch : string) : Prop :=
  (∃ c, ch = String c "") ∨ "/"%char ∉ str_chars ch.

Lemma take_continuation_slashless s : "/"%char ∉ str_chars (take_continuation s).1.
Proof.
  induction s as [|c s IH]; simpl; [apply not_elem_of_nil|].
  destruct (is_continuation c) eqn:Hc; [|apply not_elem_of_nil].
  destruct (take_continuation s) as [a b]. simpl in *. apply not_elem_of_cons. split; [|done].
  by intros <-.
Qed.

Lemma chars_whole s ch : ch ∈ chars s → whole_char ch.
Proof.
  unfold chars. generalize (String.length s) as fuel. intros fuel. revert s.
  induction fuel as [|fuel IH]; intros [|c s]; simpl; try (by intros ?%not_elem_of_nil).
  destruct (N_of_ascii c <? 128)%N eqn:Hc.
  - intros [->|H]%elem_of_cons; [left; eauto|by eapply IH].
  - pose proof (take_continuation_slashless s) as Ht.
    destruct (take_continuation s) as [a b]. intros [->|H]%elem_of_cons; [|by eapply IH].
    right. simpl. apply not_elem_of_cons. split; [|done]. by intros <-.
Qed.

Lemma sanitize_char_slashless ch : whole_char ch → "/"%char ∉ str_chars (sanitize_char unicode_alphanumeric ch).
Proof.
  unfold sanitize_char. intros Hw.
  assert ("/"%char ∉ str_chars "_") as Hu by (intros H; vm_compute in H; set_solver).
  destruct (_ || _) eqn:Ho; [|done]. destruct Hw as [[c ->]|?]; [|done].
  simpl. intros [<-|[]%not_elem_of_nil]%elem_of_cons. done.
Qed.

Lemma sanitize_slashless name : "/"%char ∉ str_chars (sanitize name).
Proof.
  intros (s & Hs & Hx)%str_chars_join_nil. apply list_elem_of_map in Hs as (ch & -> & Hch).
  by eapply sanitize_char_slashless; [eapply chars_whole|].
Qed.

(** The path segments of a URL are between its slashes. *)
Context (segment_slashless : ∀ s u seg,
  parse s = Ok u → last_segment u = Some seg → "/"%char ∉ str_chars seg).

Lemma download_filename_ok s u requested :
  parse s = Ok u →
  "/"%char ∉ str_chars (download_filename requested u) ∧ download_filename requested u ≠ "".
Proof.
  intros Hp. unfold HttpClient.download_filename.
  assert ("/"%char ∉ str_chars "download") as Hd by (intros H; vm_compute in H; set_solver).
  destruct requested as [name|].
  - pose proof (sanitize_slashless name). destruct (sanitize name) as [|ch t]; done.
  - destruct (last_segment u) as [seg|] eqn:Hs; [|done].
    pose proof (segment_slashless _ _ _ Hp Hs). destruct seg; done.
Qed.

(** What one call adds. *)
Definition requested cl (l : list Request) : Prop :=
  ∃ r hops, l = r :: hops ∧ (∃ s u, validate_url s (security_policy cl) = Ok u ∧ url r = url_text u) ∧
    length hops ≤ MAX_REDIRECTS ∧ redirected next_request (r :: hops).

Lemma send_requested exchange cl r s u hops o :
  validate_url s (security_policy cl) = Ok u → url r = url_text u →
  send next_request too_many exchange r = (hops, o) → requested cl hops.
Proof.
  intros Hv Hu Hs. unfold send in Hs.
  apply (send_following_log _ _ _ (λ l, l)) in Hs as (l & -> & Hl & Hr); [|done]. exists r, l.
  split; [done|]. split; [eauto|done].
Qed.

Definition file_in cl (w : path * string) : Prop :=
  ∃ f, "/"%char ∉ str_chars f ∧ f ≠ "" ∧ w.1 = path_join (download_dir cl) (components f).

Definition extends cl cl' : Prop :=
  security_policy cl' = security_policy cl ∧ download_dir cl' = download_dir cl ∧
  size (sessions cl') ≤ max MAX_SESSIONS (size (sessions cl)) ∧
  (∃ rs, sent cl' = sent cl ++ rs ∧ Forall (requested cl) rs) ∧
  (∃ ws, written cl' = written cl ++ ws ∧ Forall (file_in cl) ws).

Lemma extends_refl cl : extends cl cl.
Proof.
  unfold extends. split_and!; [done..|lia| |]; exists []; rewrite app_nil_r; eauto.
Qed.

Lemma request_extends snd args cl :
  extends cl (handle_http_request parse ipv6_to_string to_uppercase from_utf8_lossy next_request too_many snd args cl).1.
Proof.
  unfold handle_http_request.
  destruct (to_uppercase <$> _); [|apply extends_refl].
  destruct (arg args "url"); [|apply extends_refl].
  destruct (full_url _ _ _) as [full|]; [|apply extends_refl].
  destruct (validate_url full _) as [u|] eqn:Hv; [|apply extends_refl].
  destruct (negb _); [apply extends_refl|]. destruct (send _ _ _ _) as [hops outcome] eqn:Hs.
  eapply send_requested in Hs; [|exact Hv|done]. simpl. unfold extends, log_call. simpl.
  split_and!; [done..|lia| |exists []; rewrite app_nil_r; eauto].
  eexists. split; [done|]. by apply Forall_singleton.
Qed.

Lemma create_extends build args cl :
  extends cl (handle_session_create parse ipv6_to_string build args cl).1.
Proof.
  unfold handle_session_create. destruct (arg args "name") as [name|]; [|apply extends_refl].
  destruct (match arg args "base_url" with Some _ => _ | None => _ end); [apply extends_refl|].
  destruct (bool_decide _ && bool_decide _) eqn:Hfull; [apply extends_refl|].
  destruct build; [apply extends_refl|]. simpl. unfold extends. simpl.
  split_and!; [done..| |exists []; rewrite app_nil_r; eauto|exists []; rewrite app_nil_r; eauto].
  apply andb_false_iff in Hfull as [H%bool_decide_eq_false|H%bool_decide_eq_false].
  - rewrite map_size_insert. destruct (sessions cl !! name); simpl; lia.
  - rewrite map_size_insert_Some by (by destruct (sessions cl !! name)). lia.
Qed.

Lemma close_extends args cl : extends cl (handle_session_close args cl).1.
Proof.
  unfold handle_session_close. destruct (arg args "name") as [name|]; [|apply extends_refl].
  destruct (sessions cl !! name) eqn:Hn; [|apply extends_refl]. simpl. unfold extends. simpl.
  split_and!; [done..| |exists []; rewrite app_nil_r; eauto|exists []; rewrite app_nil_r; eauto].
  rewrite map_size_delete_Some by eauto. lia.
Qed.

Lemma download_extends snd mkdir disk args cl :
  extends cl (handle_download parse ipv6_to_string unicode_alphanumeric next_request too_many snd mkdir disk args cl).1.
Proof.
  unfold handle_download. destruct (arg args "url") as [url_str|]; [|apply extends_refl].
  destruct (validate_url url_str _) as [u|] eqn:Hv; [|apply extends_refl].
  apply validate_accepts in Hv as Hp. destruct Hp as [Hp _].
  destruct (download_filename_ok _ _ (arg args "filename") Hp) as [Hsl Hne].
  destruct mkdir; [apply extends_refl|].
  destruct (send _ _ _ _) as [hops outcome] eqn:Hs. eapply send_requested in Hs; [|exact Hv|done].
  assert (Forall (requested cl) [hops]) as Hr by (by apply Forall_singleton).
  assert (extends cl (log_call hops cl)) as Hlog.
  { unfold extends, log_call. simpl.
    split_and!; [done..|lia|eauto|exists []; rewrite app_nil_r; eauto]. }
  destruct outcome as [response|]; [|exact Hlog].
  destruct (negb _); [exact Hlog|]. destruct (bytes response) as [data|]; [|exact Hlog].
  destruct disk; [exact Hlog|]. simpl. unfold extends. simpl.
  split_and!; [done..|lia|eauto|].
  eexists. split; [done|]. apply Forall_singleton. eexists. eauto.
Qed.

Lemma call_extends env tool args cl : extends cl (execute_tool env tool args cl).1.
Proof.
  unfold HttpClient.execute_tool. repeat case_decide; subst.
  - apply request_extends.
  - apply create_extends.
  - apply close_extends.
  - apply download_extends.
  - apply extends_refl.
Qed.

(** A call of a tool, with any arguments and any outside. *)
Definition http_step cl cl' : Prop := ∃ env tool args, cl' = (execute_tool env tool args cl).1.

Lemma requested_policy cl cl' r :
  security_policy cl' = security_policy cl → requested cl' r → requested cl r.
Proof. unfold requested. by intros ->. Qed.

Lemma steps_extend cl cl' : rtc http_step cl cl' → extends cl cl'.
Proof.
  induction 1 as [cl|cl cl1 cl' (env & tool & args & ->) _ IH]; [apply extends_refl|].
  destruct (call_extends env tool args cl) as (Hp & Hd & Hs & (rs & Hrs & Hrf) & (ws & Hws & Hwf)).
  destruct IH as (Hp' & Hd' & Hs' & (rs' & Hrs' & Hrf') & (ws' & Hws' & Hwf')).
  unfold extends. split_and!; [congruence..|lia| |].
  - exists (rs ++ rs'). rewrite Hrs', Hrs, app_assoc. split; [done|]. apply Forall_app. split; [done|].
    eapply Forall_impl; [done|]. intros r. by apply requested_policy.
  - exists (ws ++ ws'). rewrite Hws', Hws, app_assoc. split; [done|]. apply Forall_app. split; [done|].
    eapply Forall_impl; [done|]. intros w. unfold file_in. by rewrite Hd.
Qed.

(** C26: over any calls of the tools, whatever their arguments, the servers' answers
    and the disk do, every call that sends anything first requests a URL the policy of
    the client accepts; all it requests beyond that are the redirects it is given, at
    most ten, each by the answer to the request before it.  (The targets of redirects
    are not validated.)  There are never more than [MAX_SESSIONS] sessions. *)
Theorem requests_are_validated cl cl' :
  sent cl = [] → size (sessions cl) ≤ MAX_SESSIONS → rtc http_step cl cl' →
  size (sessions cl') ≤ MAX_SESSIONS ∧
  ∀ l, l ∈ sent cl' →
    ∃ r hops, l = r :: hops ∧
      (∃ s u, validate_url s (security_policy cl) = Ok u ∧ url r = url_text u) ∧
      length hops ≤ 10 ∧ redirected next_request (r :: hops).
Proof.
  intros Hs Hn (_ & _ & Hsize & (rs & Hrs & Hf) & _)%steps_extend. split; [lia|].
  rewrite Hrs, Hs. by apply Forall_forall.
Qed.

(** Every downloaded file is written right under the download directory: its
    name is one path component, whatever the caller or the URL names (the names
    [.] and [..], which denote directories, are the only other outcome). *)
Theorem downloads_stay_in_directory cl cl' p data :
  written cl = [] → rtc http_step cl cl' → (p, data) ∈ written cl' →
  (∃ f, p = download_dir cl ++ [Normal f]) ∨
  p = path_join (download_dir cl) [CurDir] ∨ p = path_join (download_dir cl) [ParentDir].
Proof.
  intros Hw (_ & _ & _ & _ & (ws & Hws & Hf))%steps_extend Hin.
  rewrite Hws, Hw in Hin. rewrite Forall_forall in Hf.
  destruct (Hf _ Hin) as (f & Hsl & Hne & He). simpl in He.
  destruct (decide (f = ".")) as [->|H1]; [right; left; exact He|].
  destruct (decide (f = "..")) as [->|H2]; [right; right; exact He|].
  left. exists f. rewrite He, components_slashless by done.
  unfold path_join. simpl. by destruct (download_dir cl).
Qed.

(** The preview of a response panics exactly on a successful response whose body
    is longer than 2000 bytes with byte 2000 inside a multi-byte character. *)
Theorem body_preview_panics r data :
  bytes r = Ok data →
  let body := from_utf8_lossy
    (if (MAX_RESPONSE_BYTES <? N.of_nat (String.length data))%N
     then str_take (N.to_nat MAX_RESPONSE_BYTES) data else data) in
  execute_request (Ok r) = Panicked ↔
  in_range 200 299 (status r) = true ∧ 2000 < String.length body ∧
  ∃ ch rest, str_drop 2000 body = String ch rest ∧ is_continuation ch = true.
Proof using from_utf8_lossy.
  intros Hb body. unfold HttpClient.execute_request. rewrite Hb. fold body.
  clearbody body. generalize (MAX_RESPONSE_BYTES <? N.of_nat (String.length data))%N as truncated.
  intros truncated. destruct (in_range _ _ _); [|split; [done|by intros [? _]]].
  generalize 2000 as limit. intros limit. case_bool_decide as Hl; [|split; [done|by intros (_ & ? & _)]].
  rewrite <- (slice_to_panics _ _ Hl). destruct (slice_to limit body); [split; [done|by intros (_ & _ & ?)]|by split].
Qed.
End client.

(** ** Witnesses *)

Module Web.

(** A parser that knows one URL. *)
Definition site : Url :=
  mkUrl "http://example.com/a.txt" "http" (Some "example.com") (Some (Domain "example.com")) (Some "a.txt").
Definition parse (s : string) : result Url string := Ok site.
Definition mapped_url : Url :=
  mkUrl "http://[::ffff:7f00:1]/" "http" (Some "[::ffff:7f00:1]") (Some (Ipv6 (mapped 127 0 0 1))) None.
Definition dotted_url : Url :=
  mkUrl "http://localhost./" "http" (Some "localhost.") (Some (Domain "localhost.")) None.
Definition client : HttpClient :=
  mkClient ∅ default_url_policy [RootDir; Normal "downloads"] [] [].
Definition args : Args :=
  mkArgs (λ k, if decide (k = "url") then Some "http://example.com/a.txt"
               else if decide (k = "method") then Some "GET"
               else if decide (k = "filename") then Some "../b c" else None) [].
Definition answer : Response := mkResponse 200 (Some "OK") ∅ (Ok "data").
Definition moved (to : string) : Response := mkResponse 302 (Some "Found") ({["location" := to]}) (Ok "").
(** The rule for redirects, as far as it is needed: a GET of the new location. *)
Definition next (r : Request) (a : Response) : option Request :=
  if decide (status a = 302%Z) then (λ to, mkRequest (method r) to [] None) <$> response_headers a !! "location"
  else None.
Definition too_many (r : Request) : string := "too many redirects".
(** The site redirects the first request to an address on the machine itself. *)
Definition env : HttpEnv :=
  mkHttpEnv (λ log _, Ok (match log with [] => moved "http://127.0.0.1/admin" | _ => answer end)) None None None.
Definition call (tool : string) (c : HttpClient) : HttpClient * Answer :=
  execute_tool parse (λ _, "") (λ _, false) id id next too_many env tool args c.
Definition after : HttpClient := (call "http_download" client).1.

Lemma segment_slashless s u seg :
  parse s = Ok u → last_segment u = Some seg → "/"%char ∉ str_chars seg.
Proof. intros [= <-] [= <-]. decide_closed. Qed.

Lemma one_call : rtc (http_step parse (λ _, "") (λ _, false) id id next too_many) client after.
Proof. apply rtc_once. by exists env, "http_download", args. Qed.

(** A body of 2001 bytes whose byte 2000 is the second of a two-byte character. *)
Definition long_body : string :=
  Nat.iter 1999 (String "a") (String "195" (String "169" "")).

End Web.

Lemma mapped_ipv4_not_blocked_witness :
  validate_url (λ _, Ok Web.mapped_url) (λ _, "") "http://[::ffff:127.0.0.1]/" default_url_policy
    = Ok Web.mapped_url ∧ is_private_ip (Ipv4 127 0 0 1) = true.
Proof.
  split; [|reflexivity].
  apply (mapped_ipv4_not_blocked (λ _, Ok Web.mapped_url) (λ _, "") _ _ "[::ffff:7f00:1]" 127 0 0 1);
    reflexivity.
Defined.

Lemma trailing_dot_not_blocked_witness :
  validate_url (λ _, Ok Web.dotted_url) (λ _, "") "http://localhost./" default_url_policy
    = Ok Web.dotted_url.
Proof.
  apply (trailing_dot_not_blocked (λ _, Ok Web.dotted_url) (λ _, "") _ _ "localhost"); reflexivity.
Defined.

Lemma requests_are_validated_witness :
  map (map url) (sent Web.after) = [["http://example.com/a.txt"; "http://127.0.0.1/admin"]] ∧
  size (sessions Web.after) ≤ 20.
Proof.
  split; [vm_compute; reflexivity|].
  apply (requests_are_validated Web.parse (λ _, "") (λ _, false) id id Web.next Web.too_many Web.segment_slashless
    Web.client Web.after); [reflexivity|apply Nat.leb_le; reflexivity|exact Web.one_call].
Defined.

Lemma downloads_stay_in_directory_witness :
  written Web.after = [([RootDir; Normal "downloads"; Normal ".._b_c"], "data")] ∧
  ∃ f, [RootDir; Normal "downloads"; Normal ".._b_c"] = [RootDir; Normal "downloads"] ++ [Normal f].
Proof.
  split; [vm_compute; reflexivity|].
  destruct (downloads_stay_in_directory Web.parse (λ _, "") (λ _, false) id id Web.next Web.too_many Web.segment_slashless
    Web.client Web.after [RootDir; Normal "downloads"; Normal ".._b_c"] "data")
    as [H|[H|H]]; [reflexivity|exact Web.one_call|by left|exact H|discriminate H|discriminate H].
Defined.

Lemma body_preview_panics_witness :
  execute_request id (Ok (mkResponse 200 None ∅ (Ok Web.long_body))) = Panicked.
Proof.
  apply (body_preview_panics id (mkResponse 200 None ∅ (Ok Web.long_body)) Web.long_body);
    [reflexivity|]. split; [reflexivity|]. split; [apply Nat.ltb_lt; vm_compute; reflexivity|].
  exists "169"%char, "". split; vm_compute; reflexivity.
Defined.

(** A redirect is followed without a check: a site the policy accepts leads the download
    to an address of the machine itself, which the policy refuses. *)
Theorem redirects_are_not_validated :
  map (map url) (sent Web.after) = [["http://example.com/a.txt"; "http://127.0.0.1/admin"]] ∧
  written Web.after = [([RootDir; Normal "downloads"; Normal ".._b_c"], "data")] ∧
  is_private_ip (Ipv4 127 0 0 1) = true.
Proof. vm_compute. done. Qed.
