(* ===== verification/Forge.v ===== *)
(** * The Soul Forge: the DevOps worker ([crates/soul-forge/src/lib.rs], [worker.rs])

    Requests to author a skill: gated by patterns and by the mentor's approval, then
    written below the skills root under a sandbox, and announced in [registry.toml].  The
    worker answers each message of its topic.  Then what a request changes below the
    skills root and under which conditions, what a success leaves there, and where the
    registry and the names go wrong. *)

From S2P Require Import Prelude RustStr Paths SkillPolicy Cognitive Json Chat SkillKit FileTree Config FilesystemSpec.
From Stdlib Require Import ZArith Lia Ascii.
From stdpp Require Import base list strings gmap pretty.

Open Scope rust_scope.

Definition FORGE_REQUEST_TOPIC : string := "topic.skill.forge.request".
Definition FORGE_RESPONSE_TOPIC : string := "topic.skill.forge.response".
Definition FORGE_WORKER_GROUP : string := "skill-worker.forge".

Record ForgeRequestEnvelope : Type := mkForgeRequest {
  correlation_id : option string;
  session_id : option string;
  entity_id : option string;
  skill_id : string;
  code : string;
  markdown : string;
  code_filename : option string;
  markdown_filename : option string;
  keywords : list string;
  topics : list string;
  mentor_approved : bool;
}.

Record ForgeResponseEnvelope : Type := mkForgeResponse {
  resp_correlation_id : string;
  resp_session_id : option string;
  resp_entity_id : option string;
  resp_skill_id : option string;
  status : string;
  message : string;
  resp_code_path : option string;
  resp_markdown_path : option string;
  resp_instruction_path : option string;
  resp_registry_path : option string;
  superego_rule : option string;
  resp_hot_reload_triggered : bool;
  created_at_utc : string;
}.

Record ForgeWriteResult : Type := mkForgeWrite {
  code_path : string;
  markdown_path : string;
  instruction_path : string;
  registry_path : string;
  sandbox_audit_entries : nat;
  registry_entry_added : bool;
  hot_reload_triggered : bool;
}.

Inductive ForgePipelineError : Type := Blocked (rule reason : string) | Failed (msg : string).

(** ** Names *)

Definition underscore : ascii := "_"%char.
Definition is_underscore (c : ascii) : bool := bool_decide (c = underscore).

Fixpoint trim_start_matches (p : ascii → bool) (s : string) : string :=
  match s with EmptyString => EmptyString | String c s' => if p c then trim_start_matches p s' else s end.
Definition trim_matches (p : ascii → bool) (s : string) : string := trim_end_matches p (trim_start_matches p s).

(** Each character outside the class becomes an underscore. *)
Definition slug_char (c : string) : string :=
  if ascii_alnum_char c || is_char "_" c || is_char "-" c then to_lowercase c else "_".
Definition sanitize_skill_slug (raw : string) : string :=
  let out := trim_matches is_underscore (RustStr.join "" (map slug_char (chars raw))) in
  if str_is_empty out then "skill" else out.

Definition file_char (c : string) : string :=
  if ascii_alnum_char c || is_char "." c || is_char "_" c || is_char "-" c then c else "_".
Definition sanitize_filename (raw : option string) (fallback : string) : string :=
  let candidate := default fallback raw in
  let base := default fallback (file_name (components candidate)) in
  let out := RustStr.join "" (map file_char (chars base)) in
  let out := if str_is_empty out then fallback else out in
  if negb (contains out ".")
  then match rfind_char "." fallback with Some dot => out +:+ str_drop dot fallback | None => out end
  else out.

(** ** The gate *)

Definition superego_scan (code markdown : string) : option (string * string) :=
  let payload := to_lowercase (code +:+ nl +:+ markdown) in
  let any := existsb (contains payload) in
  if any ["rm -rf"; "drop table"; "delete all"]
  then Some ("destructive-pattern", "Forge payload contains destructive execution patterns")
  else if any ["invoke-expression"; "curl | sh"; "wget | sh"]
  then Some ("remote-code-exec-pattern", "Forge payload contains unsafe remote execution pattern")
  else if any ["soul.md"; "ethics.md"; "instincts.md"] && any ["overwrite"; "delete"; "truncate"]
  then Some ("constitutional-doc-target", "Forge payload targets constitutional documents, which is disallowed")
  else None.

(** ** The registry *)

Definition escape_toml (s : string) : string :=
  replace (replace s "\" "\\") quote ("\" +:+ quote).

Definition format_toml_array (values : list string) : string :=
  "[" +:+ RustStr.join ", " (map (λ v, quote +:+ escape_toml v +:+ quote) values) +:+ "]".

(** [Vec::dedup] *)
Fixpoint dedup (l : list string) : list string :=
  match l with
  | x :: l' => match dedup l' with
               | y :: _ as d => if decide (x = y) then d else x :: d
               | [] => [x]
               end
  | [] => []
  end.

Definition lowered (s : string) : option string :=
  let t := to_lowercase (trim s) in if str_is_empty t then None else Some t.

Fixpoint split_where (p : ascii → bool) (word s : string) : list string :=
  match s with
  | EmptyString => [word]
  | String c s => if p c then word :: split_where p "" s else split_where p (word +:+ String c "") s
  end.
Definition is_separator (c : ascii) : bool := bool_decide (c ∈ [".";"_";"-"]%char).

Definition sorted (l : list string) : list string := dedup (sort_by String.leb l).

Definition normalize_keywords (raw : list string) (id : string) : list string :=
  sorted (match raw with
          | [] => omap lowered (split_where is_separator "" id) ++ ["forge"]
          | _ => omap lowered raw
          end).
Definition normalize_topics (raw : list string) : list string :=
  sorted (match raw with [] => ["forge"; "autonomous-skill-authoring"] | _ => omap lowered raw end).

Definition registry_header : string :=
  "# Skill Instruction Registry — Single Source of Truth" +:+ nl +:+ "# Generated by DevOps Forge worker." +:+ nl.

Definition id_marker (id : string) : string := "id = " +:+ quote +:+ escape_toml id +:+ quote.

Definition trim_end (s : string) : string := trim_end_matches is_whitespace s.

(** The registry with an entry for the skill. *)
Definition with_entry (existing id instruction_file : string) (r : ForgeRequestEnvelope) : string :=
  let next := trim_end existing in
  let next := if str_is_empty next then next else next +:+ nl +:+ nl in
  let topics := normalize_topics (topics r) in
  next +:+ "[[skill]]" +:+ nl +:+ id_marker id +:+ nl +:+
  "instruction_file = " +:+ quote +:+ escape_toml instruction_file +:+ quote +:+ nl +:+
  "keywords = " +:+ format_toml_array (normalize_keywords (keywords r) id) +:+ nl +:+
  (if bool_decide (topics = []) then "" else "topics = " +:+ format_toml_array topics +:+ nl) +:+
  "enabled = true" +:+ nl +:+ nl.

(** ** The pipeline *)

(** The files, and the sandbox of the request. *)
Record Work : Type := mkWork { files : Tree; sandbox : SkillSandbox }.

Section forge.
Context (cwd : real) (denied : Call → path → bool).

Notation FM := (M Work ForgePipelineError).

(** The file system as the sandbox sees it. *)
Definition tree_fs (t : Tree) : Sandbox.FileSystem :=
  Sandbox.mkFileSystem (path_exists cwd denied t)
    (λ p, match canonicalize cwd denied t p with Ok q => Some q | Err _ => None end) (Some (absolute cwd)).

Definition forge_io {A} (m : M Tree IoError A) : FM A := λ w,
  let '(t, r) := m (files w) in (mkWork t (sandbox w), map_err (λ e, Failed (io_error_str e)) r).

Definition read_to_string (p : path) : M Tree IoError string := λ t,
  (t, let? c := read cwd denied t p in
      if utf8_valid c then Ok c else Err (Refused "stream did not contain valid UTF-8")).

Definition joined (p : path) (s : string) : path := path_join p (components s).

Definition slashes (p : path) : string := replace (display p) "\" "/".

Definition build_forge_sandbox (dynamic_dir instructions_dir registry : path) : SkillSandbox :=
  new_sandbox "builtin.devops_forge"
    [FileSystem (Read [slashes registry]);
     FileSystem (Write [slashes dynamic_dir; slashes instructions_dir; slashes registry])] default_limits.

Definition check (what : string) (action : string → AuditAction) (p : path) : FM unit := λ w,
  let '(s, allowed) := check_permission (tree_fs (files w)) (action (display p)) (sandbox w) in
  (mkWork (files w) s, if allowed then Ok tt else Err (Failed ("sandbox denied " +:+ what +:+ ": " +:+ display p))).
Definition sandbox_check_read : path → FM unit := check "read" FileRead.
Definition sandbox_check_write : path → FM unit := check "write" FileWrite.

Definition is_there (p : path) : FM bool := λ w, (w, Ok (path_exists cwd denied (files w) p)).

Definition upsert_registry_entry (registry : path) (id instruction_file : string) (r : ForgeRequestEnvelope) : FM bool :=
  e ← is_there registry;
  existing ← (if (e : bool) then forge_io (read_to_string registry) else mret registry_header);
  if contains existing (id_marker id) then
    forge_io (write cwd denied registry existing) ;; mret false
  else
    forge_io (write cwd denied registry (with_entry existing id instruction_file r)) ;; mret true.

(** What is checked before anything is written. *)
Definition gate (r : ForgeRequestEnvelope) : result unit ForgePipelineError :=
  if str_is_empty (trim (skill_id r)) then Err (Failed "forge request missing skill_id")
  else if str_is_empty (trim (code r)) then Err (Failed "forge request missing code payload")
  else if str_is_empty (trim (markdown r)) then Err (Failed "forge request missing markdown payload")
  else match superego_scan (code r) (markdown r) with
  | Some (rule, reason) => Err (Blocked rule reason)
  | None =>
      if mentor_approved r then Ok tt
      else Err (Blocked "require_mentor_approval" "Forge request requires explicit mentor approval")
  end.

Definition slug_of (r : ForgeRequestEnvelope) : string := sanitize_skill_slug (trim (skill_id r)).
Definition dynamic_dir_of (r : ForgeRequestEnvelope) (skills_root : path) : path :=
  joined (joined skills_root "dynamic") (slug_of r).
Definition code_path_of r skills_root : path :=
  joined (dynamic_dir_of r skills_root) (sanitize_filename (code_filename r) "lib.rs").
Definition markdown_path_of r skills_root : path :=
  joined (dynamic_dir_of r skills_root) (sanitize_filename (markdown_filename r) "how_to_use.md").
Definition instruction_file_of (r : ForgeRequestEnvelope) : string := "dynamic_" +:+ slug_of r +:+ ".md".
Definition instruction_path_of r skills_root : path :=
  joined (joined skills_root "instructions") (instruction_file_of r).
Definition registry_path_of (skills_root : path) : path := joined skills_root "registry.toml".

Definition checked_write (p : path) (content : string) : FM unit :=
  sandbox_check_write p ;; forge_io (write cwd denied p content).
Definition checked_mkdir (p : path) : FM unit :=
  sandbox_check_write p ;; forge_io (create_dir_all cwd denied p).

(** After the gate: directories, files, registry. *)
Definition write_skill (r : ForgeRequestEnvelope) (skills_root : path) : FM ForgeWriteResult :=
  let registry := registry_path_of skills_root in
  forge_io (create_dir_all cwd denied skills_root) ;;
  checked_mkdir (dynamic_dir_of r skills_root) ;;
  checked_mkdir (joined skills_root "instructions") ;;
  checked_write (code_path_of r skills_root) (code r) ;;
  checked_write (markdown_path_of r skills_root) (markdown r) ;;
  checked_write (instruction_path_of r skills_root) (markdown r) ;;
  e ← is_there registry;
  (if (e : bool) then sandbox_check_read registry else mret tt) ;;
  sandbox_check_write registry ;;
  added ← upsert_registry_entry registry (trim (skill_id r)) (instruction_file_of r) r;
  w ← get_state;
  mret (mkForgeWrite (display (code_path_of r skills_root)) (display (markdown_path_of r skills_root))
          (display (instruction_path_of r skills_root)) (display registry) (length (audit_log (sandbox w))) added true).

Definition process_forge_request (r : ForgeRequestEnvelope) (skills_root : path)
  : M Tree ForgePipelineError ForgeWriteResult := λ t,
  match gate r with
  | Err e => (t, Err e)
  | Ok _ =>
      let s := build_forge_sandbox (dynamic_dir_of r skills_root) (joined skills_root "instructions")
                 (registry_path_of skills_root) in
      let '(w, o) := write_skill r skills_root (mkWork t s) in (files w, o)
  end.

(** ** The worker *)

Definition de_request (v : Value) : option ForgeRequestEnvelope :=
  c ← defaulted "correlation_id" (de_option de_str) None v;
  s ← defaulted "session_id" (de_option de_str) None v;
  e ← defaulted "entity_id" (de_option de_str) None v;
  i ← required "skill_id" de_str v;
  co ← required "code" de_str v;
  m ← required "markdown" de_str v;
  cf ← defaulted "code_filename" (de_option de_str) None v;
  mf ← defaulted "markdown_filename" (de_option de_str) None v;
  k ← defaulted "keywords" (de_list de_str) [] v;
  t ← defaulted "topics" (de_list de_str) [] v;
  a ← defaulted "mentor_approved" de_bool false v;
  Some (mkForgeRequest c s e i co m cf mf k t a).

Definition plain_response (corr : string) (r : option ForgeRequestEnvelope) (status message : string)
    (rule : option string) (now : string) : ForgeResponseEnvelope :=
  mkForgeResponse corr (r ≫= session_id) (r ≫= entity_id) (skill_id <$> r) status message None None None None rule false now.

Definition respond (corr : string) (r : ForgeRequestEnvelope) (o : result ForgeWriteResult ForgePipelineError) (now : string)
  : ForgeResponseEnvelope :=
  match o with
  | Ok w => mkForgeResponse corr (session_id r) (entity_id r) (Some (skill_id r)) "success"
      ("Skill " +:+ skill_id r +:+ " forged and hot-reloaded") (Some (code_path w)) (Some (markdown_path w))
      (Some (instruction_path w)) (Some (registry_path w)) None (hot_reload_triggered w) now
  | Err (Blocked rule reason) => plain_response corr (Some r) "blocked" reason (Some rule) now
  | Err (Failed msg) => plain_response corr (Some r) "error" msg None now
  end.

(** One line for each decision; failures to write it are only logged. *)
Definition log_line (r : ForgeResponseEnvelope) (now : string) : string :=
  now +:+ " | source=forge_worker | correlation_id=" +:+ resp_correlation_id r +:+ " | skill_id=" +:+
  default "unknown" (resp_skill_id r) +:+ " | decision=" +:+ status r +:+ " | rule=" +:+
  default "none" (superego_rule r) +:+ " | message=" +:+ replace (message r) nl " " +:+ nl.

Definition append_forge_superego_decision_log (hive_documents : path) (r : ForgeResponseEnvelope) (now : string) (t : Tree) : Tree :=
  match create_dir_all cwd denied hive_documents t with
  | (t, Ok _) => (append cwd denied (joined hive_documents "superego_decisions.log") (log_line r now) t).1
  | (t, Err _) => t
  end.

Definition response_headers (r : ForgeResponseEnvelope) : gmap string string :=
  let h := <["worker_group" := FORGE_WORKER_GROUP]> (<["correlation_id" := resp_correlation_id r]>
             (<["status" := status r]> ∅)) in
  let h := match resp_skill_id r with Some i => <["skill_id" := i]> h | None => h end in
  match superego_rule r with Some rule => <["superego_rule" := rule]> h | None => h end.

(** The handler of a message: [parsed] is its payload as an envelope, or why it is not
    one.  It answers with the files and what it publishes. *)
Definition handle (skills_root hive_documents : path) (uuid now log_now : string) (headers : gmap string string)
    (parsed : result ForgeRequestEnvelope string) (t : Tree) : Tree * ForgeResponseEnvelope :=
  let corr := default uuid (headers !! "correlation_id") in
  let '(t, response) :=
    match parsed with
    | Ok r =>
        let corr := default corr (correlation_id r) in
        let r := mkForgeRequest (Some corr) (session_id r) (entity_id r) (skill_id r) (code r) (markdown r)
                   (code_filename r) (markdown_filename r) (keywords r) (topics r) (mentor_approved r) in
        let '(t, o) := process_forge_request r skills_root t in (t, respond corr r o now)
    | Err e => (t, plain_response corr None "error" ("Invalid forge envelope: " +:+ e) None now)
    end in
  (append_forge_superego_decision_log hive_documents response log_now t, response).
End forge.

(** ** Names *)

(** A name of one component. *)
Definition plain (s : string) : Prop := "/"%char ∉ str_chars s ∧ s ≠ "" ∧ s ≠ "." ∧ s ≠ "..".

Lemma plain_components s : plain s → components s = [Normal s].
Proof. intros (?&?&?&?). by apply components_slashless. Qed.

Lemma joined_plain r s : plain s → joined (absolute r) s = absolute (r ++ [s]).
Proof.
  intros Hs. unfold joined. rewrite plain_components by done. unfold path_join, absolute. simpl.
  by rewrite map_app.
Qed.

(** The characters of a string make it. *)
Lemma take_continuation_eq s : (take_continuation s).1 +:+ (take_continuation s).2 = s.
Proof.
  induction s as [|c s IH]; simpl; [done|]. destruct (is_continuation c); [|done].
  destruct (take_continuation s) as [a b]. cbn [fst snd] in *. by rewrite str_app_cons, IH.
Qed.

Lemma join_chars s : RustStr.join "" (chars s) = s.
Proof.
  unfold chars. assert (String.length s <= String.length s) as Hl by done. revert Hl.
  generalize (String.length s) at 2 3 as fuel. intros fuel. revert s.
  induction fuel as [|fuel IH]; intros [|c s] Hl; try done; [simpl in Hl; lia|]. simpl in Hl. cbn [chars_fuel].
  destruct (_ <? _)%N.
  - rewrite join_nil_cons, IH by lia. done.
  - pose proof (take_continuation_eq s) as He. destruct (take_continuation s) as [a b]. cbn [fst snd] in He.
    rewrite join_nil_cons, IH, str_app_cons, He; [done|].
    apply (f_equal String.length) in He. rewrite str_length_app in He. lia.
Qed.

Lemma trim_end_sub p s x : x ∈ str_chars (trim_end_matches p s) → x ∈ str_chars s.
Proof.
  induction s as [|c s IH]; [done|]. simpl. destruct (trim_end_matches p s) as [|d t] eqn:Ht.
  - destruct (p c); [by intros ?%not_elem_of_nil|]. intros [->|[]%not_elem_of_nil]%elem_of_cons. by left.
  - intros [->|Hx]%elem_of_cons; [by left|]. right. by apply IH.
Qed.

Lemma trim_start_sub p s x : x ∈ str_chars (trim_start_matches p s) → x ∈ str_chars s.
Proof. induction s as [|c s IH]; [done|]. simpl. destruct (p c); [|done]. intros Hx. right. by apply IH. Qed.

Lemma str_drop_sub n s x : x ∈ str_chars (str_drop n s) → x ∈ str_chars s.
Proof. revert s. induction n as [|n IH]; intros [|c s]; simpl; try done. intros Hx. right. by apply IH. Qed.

Lemma ascii_classes c : is_ascii_alnum c = true → c ≠ "/"%char ∧ c ≠ "."%char.
Proof. intros H. split; intros ->; by vm_compute in H. Qed.

Lemma lower_classes c : is_ascii_alnum c = true → is_ascii_alnum (lower_char c) = true.
Proof. destruct c as [[] [] [] [] [] [] [] []]; by vm_compute. Qed.

(** The bytes of a slug. *)
Definition slug_byte (c : ascii) : Prop := is_ascii_alnum c = true ∨ c = "_"%char ∨ c = "-"%char.

Lemma slug_char_byte ch x : x ∈ str_chars (slug_char ch) → slug_byte x.
Proof.
  unfold slug_char, is_char. destruct (ascii_alnum_char ch) eqn:Ha.
  - destruct ch as [|c [|? ?]]; try done. simpl in *. intros [->|[]%not_elem_of_nil]%elem_of_cons.
    left. by apply lower_classes.
  - cbn [orb]. repeat case_bool_decide; subst; simpl;
      intros [->|[]%not_elem_of_nil]%elem_of_cons; unfold slug_byte; auto.
Qed.

Lemma slug_bytes raw x : x ∈ str_chars (sanitize_skill_slug raw) → slug_byte x.
Proof.
  unfold sanitize_skill_slug. destruct (str_is_empty _).
  - intros Hx. vm_compute in Hx. left. set_unfold. naive_solver.
  - intros Hx%trim_end_sub%trim_start_sub. apply str_chars_join_nil in Hx as (s & Hs & Hx).
    apply list_elem_of_map in Hs as (ch & -> & _). by apply slug_char_byte in Hx.
Qed.

Lemma slug_byte_classes x : slug_byte x → x ≠ "/"%char ∧ x ≠ "."%char.
Proof. intros [H|[->| ->]]; [by apply ascii_classes|done..]. Qed.

Lemma slug_plain raw : plain (sanitize_skill_slug raw).
Proof.
  pose proof (slug_bytes raw) as Hb. split; [intros [Hn _]%Hb%slug_byte_classes; done|].
  split; [|split; intros He; rewrite He in Hb; destruct (slug_byte_classes "."%char) as [_ Hn];
            try done; apply Hb; by left].
  unfold sanitize_skill_slug. by destruct (trim_matches _ _) eqn:He.
Qed.

Lemma file_char_single ch : ∃ x, file_char ch = String x "" ∧ x ≠ "/"%char ∧ (x = "."%char → ch = ".").
Proof.
  unfold file_char, is_char. destruct (ascii_alnum_char ch) eqn:Ha.
  - destruct ch as [|c [|? ?]]; try done. simpl in *. exists c. apply ascii_classes in Ha as [? ?]. done.
  - cbn [orb]. repeat case_bool_decide; subst; simpl;
      lazymatch goal with |- ∃ _, String ?c _ = _ ∧ _ => by exists c end.
Qed.

Lemma file_chars_slashless l : "/"%char ∉ str_chars (RustStr.join "" (map file_char l)).
Proof.
  intros (s & Hs & Hx)%str_chars_join_nil. apply list_elem_of_map in Hs as (ch & -> & _).
  destruct (file_char_single ch) as (x & Hc & Hx' & _). rewrite Hc in Hx. simpl in Hx.
  apply elem_of_cons in Hx as [<-|[]%not_elem_of_nil]. done.
Qed.

Lemma file_chars_dots l s :
  s = "." ∨ s = ".." → RustStr.join "" (map file_char l) = s → RustStr.join "" l = s.
Proof.
  assert (∀ l, RustStr.join "" (map file_char l) = "" → l = []) as Hnil.
  { intros [|ch l']; [done|]. cbn [map]. rewrite join_nil_cons.
    destruct (file_char_single ch) as (x & -> & _). done. }
  assert (∀ l s, RustStr.join "" (map file_char l) = String "." s →
    ∃ l', l = "." :: l' ∧ RustStr.join "" (map file_char l') = s) as Hcons.
  { intros [|ch l'] s'; [done|]. cbn [map]. rewrite join_nil_cons.
    destruct (file_char_single ch) as (x & -> & _ & Hd). rewrite str_app_cons, str_app_nil_l.
    intros [= -> Hs]. rewrite (Hd eq_refl). eauto. }
  intros [-> | ->] He.
  - apply Hcons in He as (l' & -> & ->%Hnil). done.
  - apply Hcons in He as (l' & -> & He). apply Hcons in He as (l'' & -> & ->%Hnil). done.
Qed.

Lemma file_name_dots s n : file_name (components s) = Some n → n ≠ "." ∧ n ≠ "..".
Proof.
  unfold file_name. destruct (last (components s)) as [[| | |m]|] eqn:Hl; try done. intros [= ->].
  apply last_Some_elem_of in Hl. destruct (components_shape s) as (h & l & He & Hh & _). rewrite He in Hl.
  apply elem_of_app in Hl as [Hl|Hl].
  - destruct Hh as [->|[->| ->]]; set_solver.
  - apply list_elem_of_omap in Hl as (seg & _ & Hc). unfold component_of in Hc.
    repeat case_decide; simplify_eq; done.
Qed.

Lemma filename_plain raw fallback : plain fallback → plain (sanitize_filename raw fallback).
Proof.
  intros Hf. unfold sanitize_filename. set (base := default fallback _).
  assert (base ≠ "." ∧ base ≠ "..") as [Hb1 Hb2].
  { unfold base. destruct (file_name _) as [n|] eqn:Hn; [by apply file_name_dots in Hn|]. by destruct Hf as (_&_&?&?). }
  set (out := RustStr.join "" (map file_char (chars base))).
  assert (plain (if str_is_empty out then fallback else out)) as Hp.
  { destruct (str_is_empty out) eqn:He; [done|]. split; [apply file_chars_slashless|].
    split; [by intros Ho; rewrite Ho in He|].
    split; intros Ho; apply file_chars_dots in Ho; rewrite ?join_chars in Ho; auto. }
  set (out' := if str_is_empty out then _ else _) in *. destruct (contains out' ".") eqn:Hc; [done|]. cbn [negb].
  destruct (rfind_char "." fallback) as [dot|]; [|done]. destruct Hp as (Hp & He & _).
  destruct out' as [|c o]; [done|].
  assert (c ≠ "."%char) as Hcd by (intros ->; by destruct o).
  split; [|rewrite str_app_cons; split; [done|split; intros [= ? _]; done]].
  rewrite str_chars_app. intros [?|Hx%str_drop_sub]%elem_of_app; [done|]. by destruct Hf.
Qed.

(** ** The file system below absolute paths *)

Section files.
Context (cwd : real) (denied : Call → path → bool).

(** Without links a path of names is its own place. *)
Lemma walk_names links create t cur l r :
  no_links t → walk links create t cur (map Normal l) = Ok r → r = cur ++ l.
Proof.
  intros Hnl. revert cur. induction l as [|n l IH]; intros cur Hw.
  { rewrite app_nil_r. destruct links; by injection Hw. }
  assert (r = (cur ++ [n]) ++ l) as ->; [|by rewrite <- app_assoc].
  destruct links; simpl in Hw; (destruct (t !! (cur ++ [n])) as [[|c|target]|] eqn:Hn;
    [by apply IH| |by apply Hnl in Hn|]); (destruct l; simpl in Hw; [|done]);
    rewrite app_nil_r; try (destruct create; [|done]); by injection Hw.
Qed.

Lemma walk_place links create t l r : no_links t → walk links create t cwd (absolute l) = Ok r → r = l.
Proof.
  intros Hnl. rewrite walk_absolute.
  assert (walk links create t [] (absolute l) = walk links create t [] (map Normal l)) as -> by (by destruct links).
  by intros Hw%walk_names.
Qed.

Lemma write_place x c t t' o :
  no_links t → write cwd denied (absolute x) c t = (t', o) →
  t' = t ∧ o ≠ Ok tt ∨ t' = <[x := File c]> t ∧ o = Ok tt.
Proof.
  intros Hnl. unfold write. destruct (denied _ _); [intros [= <- <-]; by left|].
  cbn [resolve absolute]. fold (absolute x). destruct (walk _ _ _ _ _) as [r|e] eqn:Hw; [|intros [= <- <-]; by left].
  apply walk_place in Hw as ->; [|done].
  destruct (node_at t x) as [[| |]|]; intros [= <- <-]; auto.
Qed.

Lemma read_place x t c : no_links t → read cwd denied t (absolute x) = Ok c → t !! x = Some (File c).
Proof.
  intros Hnl. unfold read. destruct (denied _ _); [done|]. cbn [resolve absolute]. fold (absolute x).
  destruct (walk _ _ _ _ _) as [r|] eqn:Hw; [|done]. apply walk_place in Hw as ->; [|done]. simpl.
  destruct x as [|n x]; [done|]. cbn [node_at]. destruct (t !! (n :: x)) as [[|c'|]|]; try done. by intros [= ->].
Qed.

(** Directories on the way to [y] were made. *)
Definition made (y : real) (t t' : Tree) : Prop :=
  no_links t → no_links t' ∧ ∀ x, t' !! x = t !! x ∨ (t !! x = None ∧ t' !! x = Some Directory ∧ x `prefix_of` y).

#[local] Instance made_preorder y : PreOrder (made y).
Proof.
  split; [intros t Hnl; by split; [|left]|].
  intros t1 t2 t3 H12 H23 Hnl. destruct (H12 Hnl) as [Hnl2 Hx]. destruct (H23 Hnl2) as [Hnl3 Hy].
  split; [done|]. intros x. destruct (Hx x) as [He|(He & He' & Hp)], (Hy x) as [Hf|(Hf & Hf' & Hq)];
    [left|right|right|]; try congruence; (split; [congruence|split; [congruence|done]]).
Qed.

Lemma made_mono y z t t' : y `prefix_of` z → made y t t' → made z t t'.
Proof.
  intros Hp Hm Hnl. destruct (Hm Hnl) as [Hnl' Hx]. split; [done|]. intros x.
  destruct (Hx x) as [?|(?&?&?)]; [by left|right]. split; [done|split; [done|by etrans]].
Qed.

Lemma mkdir_made y : respects (made y) (mkdir cwd denied (absolute y)).
Proof.
  intros t t' o Hm Hnl. split; [exact (grown_no_links _ _ (mkdir_grown _ _ _ _ _ _ Hm) Hnl)|]. revert Hm.
  unfold mkdir. destruct (denied _ _); [intros [= <- _]; by left|].
  destruct y as [|n z _] using rev_ind.
  { cbv [absolute map last]. destruct (resolve _ _ t _); intros [= <- _]; by left. }
  assert (absolute (z ++ [n]) = absolute z ++ [Normal n]) as -> by (unfold absolute; by rewrite map_app).
  rewrite last_snoc, removelast_last. destruct (walk _ _ _ _ _) as [r|] eqn:Hw; [|intros [= <- _]; by left].
  apply walk_place in Hw as ->; [|done].
  destruct (node_at t z) as [[| |]|]; try (intros [= <- _]; by left).
  destruct (t !! (z ++ [n])) eqn:Hn; intros [= <- _] x; [by left|].
  destruct (decide (x = z ++ [n])) as [->|Hne]; [|left; by rewrite lookup_insert_ne].
  right. by rewrite lookup_insert_eq.
Qed.

Lemma create_dir_all_made y : respects (made y) (create_dir_all cwd denied (absolute y)).
Proof.
  unfold create_dir_all. generalize (length (absolute y)) at 1. intros fuel. revert y.
  induction fuel as [|fuel IH]; intros y t t' o Hc; cbn [create_dir_all_from absolute] in Hc; fold (absolute y) in Hc;
    destruct (mkdir cwd denied (absolute y) t) as [t1 o1] eqn:Hm; apply mkdir_made in Hm;
    (destruct o1 as [u|e]; [by injection Hc as <- _|]).
  { destruct e; try (by injection Hc as <- _); destruct (is_dir _ _ _ _); by injection Hc as <- _. }
  destruct e; try (destruct (is_dir _ _ _ _); by injection Hc as <- _).
  destruct y as [|n z _] using rev_ind; [by injection Hc as <- _|]. rewrite parent_absolute in Hc.
  destruct (create_dir_all_from cwd denied fuel (absolute z) t1) as [t2 o2] eqn:Hr.
  apply IH, (made_mono _ (z ++ [n])) in Hr; [|by apply prefix_app_r].
  destruct o2 as [u|e]; [|injection Hc as <- _; by etrans].
  destruct (mkdir cwd denied (absolute (z ++ [n])) t2) as [t3 o3] eqn:Hm3. apply mkdir_made in Hm3.
  assert (made (z ++ [n]) t t3) as Hg3 by (etrans; [exact Hm|by etrans]).
  destruct o3 as [u3|e3]; [by injection Hc as <- _|]. destruct (is_dir _ _ _ _); by injection Hc as <- _.
Qed.

(** ** What a request changes *)

(** Where a request writes below [root], and the directories it makes. *)
Definition forged_files (root : real) (r : ForgeRequestEnvelope) : list real :=
  [root ++ ["dynamic"; slug_of r; sanitize_filename (code_filename r) "lib.rs"];
   root ++ ["dynamic"; slug_of r; sanitize_filename (markdown_filename r) "how_to_use.md"];
   root ++ ["instructions"; instruction_file_of r];
   root ++ ["registry.toml"]].
Definition forged_dirs (root : real) (r : ForgeRequestEnvelope) : list real :=
  [root ++ ["dynamic"; slug_of r]; root ++ ["instructions"]].

(** The conditions of a request. *)
Definition approved (r : ForgeRequestEnvelope) : Prop :=
  mentor_approved r = true ∧ superego_scan (code r) (markdown r) = None ∧
  trim (skill_id r) ≠ "" ∧ trim (code r) ≠ "" ∧ trim (markdown r) ≠ "".

Definition forged (root : real) (r : ForgeRequestEnvelope) (t t' : Tree) : Prop :=
  no_links t → no_links t' ∧ ∀ x,
    t' !! x = t !! x
    ∨ t !! x = None ∧ t' !! x = Some Directory ∧ (∃ y, y ∈ forged_dirs root r ∧ x `prefix_of` y)
    ∨ x ∈ forged_files root r ∧ ∃ c, t' !! x = Some (File c).

#[local] Instance forged_preorder root r : PreOrder (forged root r).
Proof.
  split; [intros t Hnl; by split; [|left]|].
  intros t1 t2 t3 H12 H23 Hnl. destruct (H12 Hnl) as [Hnl2 Hx]. destruct (H23 Hnl2) as [Hnl3 Hy].
  split; [done|]. intros x.
  destruct (Hy x) as [Hf|[(Hf & Hf' & Hq)|(Hf & Hc)]]; [| |by right; right].
  - rewrite Hf. apply Hx.
  - destruct (Hx x) as [He|[(_ & He & _)|(_ & c & He)]]; try congruence.
    right. left. rewrite <- He. done.
Qed.

Lemma approved_gate r : gate r = Ok tt ↔ approved r.
Proof.
  unfold gate, approved. destruct (trim (skill_id r)); [naive_solver|]. destruct (trim (code r)); [naive_solver|].
  destruct (trim (markdown r)); [naive_solver|]. destruct (superego_scan _ _) as [[? ?]|]; [naive_solver|].
  destruct (mentor_approved r); naive_solver.
Qed.

Lemma instruction_plain r : plain (instruction_file_of r).
Proof.
  unfold instruction_file_of. split; [|done]. rewrite !str_chars_app, !not_elem_of_app. split_and!.
  - intros H. vm_compute in H. set_solver.
  - apply slug_plain.
  - intros H. vm_compute in H. set_solver.
Qed.

Ltac plain_literal := split; [intros Hx; vm_compute in Hx; set_solver|done].

Section request.
Context (root : real) (r : ForgeRequestEnvelope).

Lemma dynamic_dir_place : dynamic_dir_of r (absolute root) = absolute (root ++ ["dynamic"; slug_of r]).
Proof.
  unfold dynamic_dir_of. rewrite joined_plain by plain_literal. rewrite joined_plain by apply slug_plain.
  by rewrite <- app_assoc.
Qed.
Lemma code_place :
  code_path_of r (absolute root) = absolute (root ++ ["dynamic"; slug_of r; sanitize_filename (code_filename r) "lib.rs"]).
Proof.
  unfold code_path_of. rewrite dynamic_dir_place, joined_plain by (apply filename_plain; plain_literal).
  by rewrite <- app_assoc.
Qed.
Lemma markdown_place :
  markdown_path_of r (absolute root)
  = absolute (root ++ ["dynamic"; slug_of r; sanitize_filename (markdown_filename r) "how_to_use.md"]).
Proof.
  unfold markdown_path_of. rewrite dynamic_dir_place, joined_plain by (apply filename_plain; plain_literal).
  by rewrite <- app_assoc.
Qed.
Lemma instructions_place : joined (absolute root) "instructions" = absolute (root ++ ["instructions"]).
Proof. apply joined_plain. plain_literal. Qed.
Lemma instruction_place :
  instruction_path_of r (absolute root) = absolute (root ++ ["instructions"; instruction_file_of r]).
Proof.
  unfold instruction_path_of. rewrite instructions_place, joined_plain by apply instruction_plain. by rewrite <- app_assoc.
Qed.
Lemma registry_place : registry_path_of (absolute root) = absolute (root ++ ["registry.toml"]).
Proof. apply joined_plain. plain_literal. Qed.

Definition forgedW (w w' : Work) : Prop := forged root r (files w) (files w').
#[local] Instance forgedW_preorder : PreOrder forgedW.
Proof. split; [intros w; unfold forgedW; reflexivity|intros w1 w2 w3; unfold forgedW; intros; by etrans]. Qed.

Lemma forged_io {A} (m : M Tree IoError A) : respects (forged root r) m → respects forgedW (forge_io m).
Proof.
  intros Hm w w' o. unfold forge_io. destruct (m (files w)) as [t x] eqn:He. intros [= <- _]. by eapply Hm.
Qed.

Lemma forged_write x c : x ∈ forged_files root r → respects (forged root r) (write cwd denied (absolute x) c).
Proof.
  intros Hx t t' o Hw Hnl. destruct (write_place _ _ _ _ _ Hnl Hw) as [[-> _]|[-> _]]; [by split; [|left]|].
  split.
  - intros y target. destruct (decide (y = x)) as [->|Hne]; [by rewrite lookup_insert_eq|].
    rewrite lookup_insert_ne by done. apply Hnl.
  - intros y. destruct (decide (y = x)) as [->|Hne]; [|left; by rewrite lookup_insert_ne].
    right. right. split; [done|]. exists c. by rewrite lookup_insert_eq.
Qed.

Lemma forged_mkdir x y :
  y ∈ forged_dirs root r → x `prefix_of` y → respects (forged root r) (create_dir_all cwd denied (absolute x)).
Proof.
  intros Hy Hx t t' o Hm Hnl. apply create_dir_all_made in Hm. destruct (Hm Hnl) as [Hnl' Hp].
  split; [done|]. intros z. destruct (Hp z) as [?|(?&?&?)]; [by left|]. right. left.
  split; [done|split; [done|]]. exists y. split; [done|by etrans].
Qed.

Lemma forged_check what action p : respects forgedW (check cwd denied what action p).
Proof.
  intros w w' o. unfold check. destruct (check_permission _ _ _). intros [= <- _]. by unfold forgedW.
Qed.
Lemma forged_there p : respects forgedW (is_there cwd denied p).
Proof. by intros w w' o [= <- _]. Qed.
Lemma forged_read p : respects (forged root r) (read_to_string cwd denied p).
Proof. by intros t t' o [= <- _]. Qed.

Ltac forged_prim :=
  idtac; first [apply forged_check | apply forged_there | apply forged_io; apply forged_read
    | apply forged_io; apply forged_write; set_solver
    | apply forged_io; apply (forged_mkdir _ (root ++ ["instructions"])); [set_solver|by apply prefix_app_r]
    | apply forged_io; lazymatch goal with |- respects _ (create_dir_all _ _ (absolute ?x)) => apply (forged_mkdir x x) end;
      [set_solver|done]].

Lemma write_skill_forged : respects forgedW (write_skill cwd denied r (absolute root)).
Proof.
  unfold write_skill, checked_mkdir, checked_write, upsert_registry_entry, sandbox_check_read, sandbox_check_write.
  cbv zeta. rewrite code_place, markdown_place, instruction_place, registry_place, dynamic_dir_place, instructions_place.
  solve_respects forged_prim.
Qed.

(** ** What a success leaves *)

Lemma insert_file_no_links x c t : no_links t → no_links (<[x := File c]> t).
Proof.
  intros Hnl y target. destruct (decide (y = x)) as [->|Hne]; [by rewrite lookup_insert_eq|].
  rewrite lookup_insert_ne by done. apply Hnl.
Qed.

Lemma forge_io_ok {A} (m : M Tree IoError A) w w' a :
  forge_io m w = (w', Ok a) → m (files w) = (files w', Ok a).
Proof. unfold forge_io. destruct (m (files w)) as [t []]; simpl; by intros [= <- ->]. Qed.

Lemma write_ok x c w w' u :
  no_links (files w) → forge_io (write cwd denied (absolute x) c) w = (w', Ok u) →
  files w' = <[x := File c]> (files w) ∧ no_links (files w').
Proof.
  intros Hnl Hw%forge_io_ok. destruct (write_place _ _ _ _ _ Hnl Hw) as [[_ ?]|[-> _]]; [by destruct u|].
  split; [done|by apply insert_file_no_links].
Qed.

Lemma check_files what action p w w' o : check cwd denied what action p w = (w', o) → files w' = files w.
Proof. unfold check. destruct (check_permission _ _ _). by intros [= <- _]. Qed.

Lemma checked_write_ok x c w w' u :
  no_links (files w) → checked_write cwd denied (absolute x) c w = (w', Ok u) →
  files w' = <[x := File c]> (files w) ∧ no_links (files w').
Proof.
  intros Hnl Hw. apply M_bind_inv in Hw as [(w1 & [] & H1 & H2)|(e & _ & [=])].
  apply check_files in H1. rewrite <- H1 in *. by apply write_ok in H2.
Qed.

Lemma dirs_ok y w w' u :
  no_links (files w) → checked_mkdir cwd denied (absolute y) w = (w', Ok u) → no_links (files w').
Proof.
  intros Hnl Hw. apply M_bind_inv in Hw as [(w1 & [] & H1 & H2)|(e & _ & [=])].
  apply check_files in H1. rewrite <- H1 in *. apply forge_io_ok, create_dir_all_made in H2. by apply H2.
Qed.

Lemma with_entry_has existing id instruction_file :
  contains (with_entry existing id instruction_file r) (id_marker id) = true.
Proof.
  apply contains_iff. unfold with_entry. cbv zeta.
  set (next := if str_is_empty _ then _ else _). eexists (next +:+ "[[skill]]" +:+ nl), _.
  rewrite <- !str_app_assoc. reflexivity.
Qed.

Lemma upsert_ok x id f w w' b :
  no_links (files w) → upsert_registry_entry cwd denied (absolute x) id f r w = (w', Ok b) →
  ∃ c, files w' = <[x := File c]> (files w) ∧ contains c (id_marker id) = true.
Proof.
  unfold upsert_registry_entry. intros Hnl Hu.
  apply M_bind_inv in Hu as [(w1 & e & H1 & Hu)|(e & _ & [=])]. injection H1 as <- _.
  apply M_bind_inv in Hu as [(w2 & existing & H2 & Hu)|(err & _ & [=])].
  assert (files w2 = files w) as Hf.
  { destruct e; [|by injection H2 as <- _]. apply forge_io_ok in H2. by injection H2 as <- _. }
  rewrite <- Hf in Hnl |- *. destruct (contains existing (id_marker id)) eqn:Hc;
    apply M_bind_inv in Hu as [(w3 & u & Hw & Hu)|(err & _ & [=])]; injection Hu as <- _;
    apply write_ok in Hw as [-> _]; [|done| |done]; eexists; (split; [done|]); [done|apply with_entry_has].
Qed.

(** What is below the skills root after a success. *)
Record skill_written (t : Tree) : Prop := {
  markdown_there : t !! (root ++ ["dynamic"; slug_of r; sanitize_filename (markdown_filename r) "how_to_use.md"])
    = Some (File (markdown r));
  code_there : sanitize_filename (code_filename r) "lib.rs" ≠ sanitize_filename (markdown_filename r) "how_to_use.md" →
    t !! (root ++ ["dynamic"; slug_of r; sanitize_filename (code_filename r) "lib.rs"]) = Some (File (code r));
  instruction_there : t !! (root ++ ["instructions"; instruction_file_of r]) = Some (File (markdown r));
  registered : ∃ c, t !! (root ++ ["registry.toml"]) = Some (File c) ∧
    contains c (id_marker (trim (skill_id r))) = true;
}.

Ltac step_in Hr w H :=
  let u := fresh "u" in apply M_bind_inv in Hr as [(w & u & H & Hr)|(? & _ & [=])].

Lemma write_skill_ok w w' res :
  no_links (files w) → write_skill cwd denied r (absolute root) w = (w', Ok res) → skill_written (files w').
Proof.
  intros Hnl. unfold write_skill. cbv zeta.
  rewrite code_place, markdown_place, instruction_place, registry_place, dynamic_dir_place, instructions_place.
  intros Hr. step_in Hr w1 H1. apply forge_io_ok, create_dir_all_made in H1. destruct (H1 Hnl) as [Hnl1 _].
  step_in Hr w2 H2. apply dirs_ok in H2; [|done]. step_in Hr w3 H3. apply dirs_ok in H3; [|done].
  step_in Hr w4 H4. apply checked_write_ok in H4 as [E4 N4]; [|done].
  step_in Hr w5 H5. apply checked_write_ok in H5 as [E5 N5]; [|done].
  step_in Hr w6 H6. apply checked_write_ok in H6 as [E6 N6]; [|done].
  apply M_bind_inv in Hr as [(w7 & e & H7 & Hr)|(? & _ & [=])]. injection H7 as <- _.
  step_in Hr w8 H8. assert (files w8 = files w6) as E8.
  { destruct e; [by apply check_files in H8|by injection H8 as <- _]. }
  step_in Hr w9 H9. apply check_files in H9. rewrite <- E8, <- H9 in N6.
  apply M_bind_inv in Hr as [(w10 & added & H10 & Hr)|(? & _ & [=])]. apply upsert_ok in H10 as (c & E & Hc); [|done].
  apply M_bind_inv in Hr as [(w11 & ? & H11 & Hr)|(? & _ & [=])]. injection H11 as <- _. injection Hr as <- _.
  rewrite E, H9, E8, E6, E5, E4.
  assert (∀ a b l l', a ≠ b → root ++ a :: l ≠ root ++ b :: l') as Hne by (intros * Hab [= ?]%app_inv_head; done).
  split; [| intros Hcm | | exists c; split; [by rewrite lookup_insert_eq|done]];
    repeat first [rewrite lookup_insert_eq; done | rewrite lookup_insert_ne by (apply Hne; done)
      | rewrite lookup_insert_ne by (intros [= ?]%app_inv_head; congruence)].
Qed.
End request.

(** C16: a request to author a skill changes the files only when the mentor approved it, the
    scan of its code and text found nothing and neither its id, code nor text is blank.
    Then only its four files are written, at fixed places below the skills root whatever the
    names in the request are, and the directories that hold them are made.  The root is an
    absolute path and the tree holds no symbolic link: nothing here looks for links, so one
    below [skills/dynamic] would move the writes elsewhere.  Any call may fail. *)
Theorem forge_changes_are_approved root r t t' o :
  no_links t → process_forge_request cwd denied r (absolute root) t = (t', o) →
  (t' = t ∨ approved r) ∧ ∀ x,
    t' !! x = t !! x
    ∨ t !! x = None ∧ t' !! x = Some Directory ∧ (∃ y, y ∈ forged_dirs root r ∧ x `prefix_of` y)
    ∨ x ∈ forged_files root r ∧ ∃ c, t' !! x = Some (File c).
Proof.
  intros Hnl. unfold process_forge_request. destruct (gate r) as [[]|e] eqn:Hg; [|intros [= <- _]; by split; left].
  apply approved_gate in Hg. set (s := build_forge_sandbox _ _ _).
  destruct (write_skill _ _ _ _ (mkWork t s)) as [w x] eqn:Hw. intros [= <- _].
  apply write_skill_forged in Hw. destruct (Hw Hnl) as [_ Hx]. split; [by right|exact Hx].
Qed.

(** When a request to author a skill succeeds, it was approved, and its text, its
    instruction file and an entry for its id in the registry are there; its code is there
    when its file name differs from that of the text. *)
Theorem forged_skill_is_there root r t t' res :
  no_links t → process_forge_request cwd denied r (absolute root) t = (t', Ok res) →
  approved r ∧ skill_written root r t'.
Proof.
  intros Hnl. unfold process_forge_request. destruct (gate r) as [[]|e] eqn:Hg; [|done].
  apply approved_gate in Hg. set (s := build_forge_sandbox _ _ _).
  destruct (write_skill _ _ _ _ (mkWork t s)) as [w x] eqn:Hw. intros [= <- ->].
  split; [done|]. exact (write_skill_ok root r _ _ _ (Hnl : no_links (files (mkWork t s))) Hw).
Qed.
End files.

(** ** Worked requests *)

Module ForgeWorker.

Definition root : real := ["skills"].
Definition nothing_denied (c : Call) (p : path) : bool := false.
Definition request id code cf mf : ForgeRequestEnvelope :=
  mkForgeRequest None None None id code "How to use it." cf mf [] [] true.
Definition run (r : ForgeRequestEnvelope) : M Tree ForgePipelineError ForgeWriteResult :=
  process_forge_request [] nothing_denied r (absolute root).
Definition text_at (x : real) (t : Tree) : option string :=
  match t !! (root ++ x) with Some (File c) => Some c | _ => None end.

Definition ping : ForgeRequestEnvelope := request "devops.Ping" "fn main() {}" (Some "../../src/ping") None.

Lemma empty_no_links : no_links ∅.
Proof. intros r target. by rewrite lookup_empty. Qed.

Lemma forge_changes_are_approved_witness :
  let t' := (run ping ∅).1 in
  (t' = ∅ ∨ approved ping) ∧ ∀ x,
    t' !! x = (∅ : Tree) !! x
    ∨ (∅ : Tree) !! x = None ∧ t' !! x = Some Directory ∧ (∃ y, y ∈ forged_dirs root ping ∧ x `prefix_of` y)
    ∨ x ∈ forged_files root ping ∧ ∃ c, t' !! x = Some (File c).
Proof.
  intros t'. apply (forge_changes_are_approved [] nothing_denied root ping ∅ t' (run ping ∅).2 empty_no_links).
  unfold t', run. by destruct (process_forge_request _ _ _ _ _).
Defined.

Lemma forged_skill_is_there_witness :
  approved ping ∧ skill_written root ping (run ping ∅).1 ∧
  text_at ["dynamic"; "devops_ping"; "ping.rs"] (run ping ∅).1 = Some "fn main() {}".
Proof.
  assert (∃ res, run ping ∅ = ((run ping ∅).1, Ok res)) as [res Hr] by (eexists; vm_compute; reflexivity).
  destruct (forged_skill_is_there [] nothing_denied root ping ∅ _ res empty_no_links Hr) as [Ha Hs].
  split; [exact Ha|]. split; [exact Hs|]. vm_compute. reflexivity.
Defined.

(** The names of the code and of its text may be the same: the text replaces the code,
    whose path is reported. *)
Theorem text_replaces_the_code :
  let r := request "devops.ping" "fn main() {}" (Some "ping.md") (Some "ping.md") in
  (∃ w, (run r ∅).2 = Ok w ∧ code_path w = "/skills/dynamic/devops_ping/ping.md") ∧
  text_at ["dynamic"; "devops_ping"; "ping.md"] (run r ∅).1 = Some "How to use it.".
Proof. split; [eexists; split; vm_compute; reflexivity|vm_compute; reflexivity]. Qed.

(** Two ids with the same slug share their files, and the registry has an entry for each. *)
Theorem slugs_collide :
  let r := request "devops.ping" "fn first() {}" None None in
  let r' := request "devops_ping" "fn second() {}" None None in
  let t := (run r' (run r ∅).1).1 in
  text_at ["dynamic"; "devops_ping"; "lib.rs"] t = Some "fn second() {}" ∧
  ∃ reg, text_at ["registry.toml"] t = Some reg ∧
    contains reg (id_marker "devops.ping") = true ∧ contains reg (id_marker "devops_ping") = true.
Proof. vm_compute. split; [done|]. eexists. done. Qed.

(** A line break in an id is written into the registry as it is: the string of the entry
    has no end on its line. *)
Theorem line_break_ends_the_entry :
  let r := request ("devops" +:+ nl +:+ "ping") "fn main() {}" None None in
  is_ok (run r ∅).2 = true ∧
  ∃ reg, text_at ["registry.toml"] (run r ∅).1 = Some reg ∧ "id = " +:+ quote +:+ "devops" ∈ RustStr.lines reg.
Proof. split; [vm_compute; reflexivity|]. eexists. split; [vm_compute; reflexivity|]. decide_closed. Qed.
End ForgeWorker.
