(* ===== verification/Providers.v ===== *)
(** * Clients of language models ([crates/abigail-capabilities/src/cognitive])

    First the loop that they read a streamed answer with: chunks of bytes are decoded one
    by one and appended to a buffer, whose complete lines (or blocks of lines) are taken
    out of it.  Then OpenAI ([openai.rs]), the services with its interface
    ([openai_compatible.rs]), a local server ([local_http.rs]), Anthropic ([anthropic.rs])
    and the stub used without one ([candle.rs]): what is sent for a request and what is
    made of the answer, whole or streamed.  The HTTP client is a parameter.  A typed
    parse is a parse to a JSON value that is then read; that serde refuses a field given
    twice and reads a struct from an array as well is left out. *)

From S2P Require Import Prelude RustStr SecureFs Cognitive Json UrlSecurity Config.
From Stdlib Require Import ZArith Lia Ascii.
From stdpp Require Import base list strings gmap pretty.

Open Scope rust_scope.

(** ** Decoding *)

(** U+FFFD. *)
Definition replacement : string := String "239"%char (String "191"%char (String "189"%char "")).

(** The first character of the bytes, and how many bytes it takes; ill-formed bytes are
    replaced up to where they stop being the start of a character. *)
Definition lossy_step (s : string) : string * nat :=
  match s with
  | EmptyString => ("", 0)
  | String a s1 =>
      let x := N_of_ascii a in
      if (x <? 128)%N then (String a "", 1)
      else if (194 <=? x)%N && (x <=? 223)%N then
        match s1 with
        | String b _ => if is_continuation b then (String a (String b ""), 2) else (replacement, 1)
        | EmptyString => (replacement, 1)
        end
      else if (224 <=? x)%N && (x <=? 239)%N then
        match s1 with
        | String b s2 =>
            if utf8_second a b then
              match s2 with
              | String c _ => if is_continuation c then (String a (String b (String c "")), 3) else (replacement, 2)
              | EmptyString => (replacement, 2)
              end
            else (replacement, 1)
        | EmptyString => (replacement, 1)
        end
      else if (240 <=? x)%N && (x <=? 244)%N then
        match s1 with
        | String b s2 =>
            if utf8_second a b then
              match s2 with
              | String c s3 =>
                  if is_continuation c then
                    match s3 with
                    | String d _ =>
                        if is_continuation d then (String a (String b (String c (String d ""))), 4)
                        else (replacement, 3)
                    | EmptyString => (replacement, 3)
                    end
                  else (replacement, 2)
              | EmptyString => (replacement, 2)
              end
            else (replacement, 1)
        | EmptyString => (replacement, 1)
        end
      else (replacement, 1)
  end.

(** [String::from_utf8_lossy]; [skip] bytes are still part of what was decoded. *)
Fixpoint lossy_from (skip : nat) (s : string) : string :=
  match s with
  | EmptyString => ""
  | String c s' =>
      match skip with
      | S k => lossy_from k s'
      | O => let '(out, n) := lossy_step s in out +:+ lossy_from (n - 1) s'
      end
  end.
Definition from_utf8_lossy (s : string) : string := lossy_from 0 s.

(** ** The loop *)

(** After a line: go on, leave the rest of the buffer for the next chunk, or leave the
    whole loop, with an error or without. *)
Inductive Flow : Type := Go | NextChunk | Leave | Fail (msg : string).

Section loop.
Context {A : Type} (on_line : string → A → A * Flow).

(** [while let Some(pos) = buffer.find('\n')]: [line] is what was passed over of the
    buffer, whose complete lines are handled in order. *)
Fixpoint feed (line s : string) (a : A) : A * string * Flow :=
  match s with
  | EmptyString => (a, line, Go)
  | String c s' =>
      if decide (c = newline) then
        match on_line line a with
        | (a, Go) => feed "" s' a
        | (a, flow) => (a, s', flow)
        end
      else feed (line +:+ String c "") s' a
  end.

(** [while let Some(chunk) = byte_stream.next().await]: the outcome and why it ended. *)
Fixpoint read_chunks (chunks : list (result string string)) (buffer : string) (a : A) : A * result unit string :=
  match chunks with
  | [] => (a, Ok tt)
  | Err e :: _ => (a, Err e)
  | Ok bytes :: rest =>
      match feed "" (buffer +:+ from_utf8_lossy bytes) a with
      | (a, _, Leave) => (a, Ok tt)
      | (a, _, Fail e) => (a, Err e)
      | (a, buffer, _) => read_chunks rest buffer a
      end
  end.
End loop.

(** The loop over blocks that end in an empty line: the lines of a block are handled up
    to one that leaves it. *)
Section blocks.
Context {A : Type} (on_line : string → A → A * Flow).

Fixpoint on_block (lines : list string) (a : A) : A :=
  match lines with
  | [] => a
  | l :: rest => match on_line l a with (a, Go) => on_block rest a | (a, _) => a end
  end.

Fixpoint feed_blocks (fuel : nat) (s : string) (a : A) : A * string :=
  match fuel, RustStr.split_once s (nl +:+ nl) with
  | S fuel, Some (block, rest) => feed_blocks fuel rest (on_block (RustStr.lines block) a)
  | _, _ => (a, s)
  end.

Fixpoint read_block_chunks (chunks : list (result string string)) (buffer : string) (a : A) : A * result unit string :=
  match chunks with
  | [] => (a, Ok tt)
  | Err e :: _ => (a, Err e)
  | Ok bytes :: rest =>
      let buffer := buffer +:+ from_utf8_lossy bytes in
      let '(a, buffer) := feed_blocks (String.length buffer) buffer a in read_block_chunks rest buffer a
  end.
End blocks.

(** ** Requests and answers *)

Record HttpRequest : Type := mkHttp {
  method : string;
  url : string;
  headers : list (string * string);
  body : Value;
}.

(** An answer read as a whole ([body_text], which may fail) or in chunks. *)
Record HttpReply : Type := mkReply {
  status : Z;
  status_text : string;
  body_text : result string string;
  chunks : list (result string string);
}.

Definition is_success (r : HttpReply) : bool := (200 <=? status r)%Z && (status r <? 300)%Z.
Definition text_or_default (r : HttpReply) : string := match body_text r with Ok t => t | Err _ => "" end.

(** [#[serde(skip_serializing_if = "Option::is_none")]] *)
Definition opt_member (key : string) (v : option Value) : list (string * Value) :=
  match v with Some v => [(key, v)] | None => [] end.

(** ** The interface of OpenAI *)

Definition chat_call (tc : ToolCall) : Value :=
  Obj [("id", Str (call_id tc)); ("type", Str "function");
       ("function", Obj [("name", Str (sanitize_tool_name (call_name tc))); ("arguments", Str (arguments tc))])].
Definition chat_message (m : Message) : Value :=
  Obj ([("role", Str (role m)); ("content", Str (content m))] ++
       opt_member "tool_call_id" (Str <$> tool_call_id m) ++
       opt_member "tool_calls" ((λ l, Arr (map chat_call l)) <$> tool_calls m)).
Definition build_messages (l : list Message) : list Value := map chat_message l.

Definition chat_tool (td : ToolDefinition Value) : Value :=
  Obj [("type", Str "function");
       ("function", Obj [("name", Str (sanitize_tool_name (def_name td))); ("description", Str (def_description td));
                         ("parameters", def_parameters td)])].
Definition build_tools (l : list (ToolDefinition Value)) : list Value := map chat_tool l.

Definition chat_request (model : string) (max_tokens : option Z) (stream : bool) (r : CompletionRequest Value) : Value :=
  Obj ([("model", Str (default model (model_override r))); ("messages", Arr (build_messages (messages r)))] ++
       opt_member "max_tokens" ((λ n, Num (PosInt n)) <$> max_tokens) ++
       opt_member "tools" ((λ l, Arr (build_tools l)) <$> tools r) ++
       (if stream then [("stream", Bool true)] else [])).

Definition name_map_of (r : CompletionRequest Value) : gmap string string :=
  match tools r with Some t => build_tool_name_map t | None => ∅ end.
Definition original_name (names : gmap string string) (name : string) : string := default name (names !! name).
Definition some_calls (l : list ToolCall) : option (list ToolCall) := match l with [] => None | _ => Some l end.

Definition de_call (v : Value) : option ToolCall :=
  i ← required "id" de_str v;
  _ ← required "type" de_str v;
  f ← get "function" v;
  n ← required "name" de_str f;
  a ← required "arguments" de_str f;
  Some (mkToolCall i n a).
Definition de_reply (v : Value) : option (option string * option (list ToolCall)) :=
  c ← defaulted "content" (de_option de_str) None v;
  t ← defaulted "tool_calls" (de_option (de_list de_call)) None v;
  Some (c, t).
Definition de_chat_response (v : Value) : option (list (option string * option (list ToolCall))) :=
  required "choices" (de_list (required "message" de_reply)) v.

(** The first choice, its calls under the names of the request. *)
Definition reply_of (names : gmap string string) (choices : list (option string * option (list ToolCall)))
  : CompletionResponse :=
  match choices with
  | (c, t) :: _ =>
      mkResponse (default "" c)
        (t ≫= λ l, some_calls (map (λ tc, mkToolCall (call_id tc) (original_name names (call_name tc)) (arguments tc)) l))
  | [] => mkResponse "" None
  end.

(** What a streamed chunk adds. *)
Record CallDelta : Type := mkDelta {
  delta_index : Z;
  delta_id : option string;
  delta_name : option string;
  delta_arguments : option string;
}.
Definition de_function_delta (v : Value) : option (option string * option string) :=
  n ← defaulted "name" (de_option de_str) None v;
  a ← defaulted "arguments" (de_option de_str) None v;
  Some (n, a).
Definition de_call_delta (v : Value) : option CallDelta :=
  i ← defaulted "index" (de_int 64) 0%Z v;
  id ← defaulted "id" (de_option de_str) None v;
  f ← defaulted "function" (de_option de_function_delta) None v;
  Some (mkDelta i id (f ≫= fst) (f ≫= snd)).
Definition de_delta (v : Value) : option (option string * option (list CallDelta)) :=
  c ← defaulted "content" (de_option de_str) None v;
  t ← defaulted "tool_calls" (de_option (de_list de_call_delta)) None v;
  Some (c, t).
Definition de_stream_chunk (v : Value) : option (list (option string * option (list CallDelta))) :=
  required "choices" (de_list (required "delta" de_delta)) v.

(** What was read of a stream, and what its receiver took. *)
Notation Call3 := (string * string * string)%type.
Record Acc : Type := mkAcc {
  full_content : string;
  tool_call_map : gmap Z Call3;
  sent : list StreamEvent;
}.

Definition add_delta (m : gmap Z Call3) (d : CallDelta) : gmap Z Call3 :=
  let '(id, name, args) := default ("", "", "") (m !! delta_index d) in
  <[delta_index d := (default id (delta_id d), default name (delta_name d), args +:+ default "" (delta_arguments d))]> m.

Section clients.
Context {H : JsonText}.

(** How many events the receiver of a stream takes before it is gone, if it goes. *)
Context (room : option nat).

Definition taken (n : nat) : bool := match room with Some k => (n <? k)%nat | None => true end.

(** [tx.send(event).await]: the events the receiver has, and whether it is there. *)
Definition send_event (ev : StreamEvent) (l : list StreamEvent) : list StreamEvent * bool :=
  if taken (length l) then (l ++ [ev], true) else (l, false).

(** One choice of a chunk: its text, then the parts of its calls.  With [strict], the
    stream ends when its receiver is gone. *)
Definition on_choice (strict : bool) (choice : option string * option (list CallDelta)) (a : Acc) : Acc * Flow :=
  let calls a := match choice.2 with
                 | Some l => mkAcc (full_content a) (foldl add_delta (tool_call_map a) l) (sent a)
                 | None => a
                 end in
  match choice.1 with
  | Some text =>
      let '(l, there) := send_event (Token text) (sent a) in
      let a := mkAcc (full_content a +:+ text) (tool_call_map a) l in
      if strict && negb there then (a, Leave) else (calls a, Go)
  | None => (calls a, Go)
  end.

(** [serde_json::from_str::<T>] *)
Definition parsed {A} (de : Value → option A) (text : string) : option A :=
  match from_str text with Ok v => de v | Err _ => None end.

Definition on_data (strict : bool) (line : string) (a : Acc) : Acc * Flow :=
  match RustStr.strip_prefix line "data: " with
  | Some data =>
      if decide (data = "[DONE]") then (a, NextChunk)
      else match parsed de_stream_chunk data with
      | Some (choice :: _) => on_choice strict choice a
      | _ => (a, Go)
      end
  | None => (a, Go)
  end.

(** A line of OpenAI's stream. *)
Definition on_line (line : string) (a : Acc) : Acc * Flow :=
  let line := trim line in if str_is_empty line then (a, Go) else on_data true line a.

(** The calls in the order in which the map gives its values. *)
Context (into_values : gmap Z Call3 → list Call3).

Definition streamed_calls (names : gmap string string) (m : gmap Z Call3) : option (list ToolCall) :=
  some_calls (map (λ c : Call3, let '(id, name, args) := c in mkToolCall id (original_name names name) args)
                (into_values m)).

Definition finished (names : gmap string string) (a : Acc) : list StreamEvent * result CompletionResponse string :=
  let response := mkResponse (full_content a) (streamed_calls names (tool_call_map a)) in
  ((send_event (Done response) (sent a)).1, Ok response).

Definition empty_acc : Acc := mkAcc "" ∅ [].

Definition read_stream (names : gmap string string) (l : list (result string string))
  : list StreamEvent * result CompletionResponse string :=
  match read_chunks on_line l "" empty_acc with
  | (a, Ok _) => finished names a
  | (a, Err e) => (sent a, Err e)
  end.
Definition read_local_stream (names : gmap string string) (l : list (result string string))
  : list StreamEvent * result CompletionResponse string :=
  match read_block_chunks (on_data false) l "" empty_acc with
  | (a, Ok _) => finished names a
  | (a, Err e) => (sent a, Err e)
  end.

(** ** What a client sends *)

Context {W : Type} (send : HttpRequest → W → W * result HttpReply string).

Definition json_body {A} (de : Value → option A) (r : HttpReply) : result A string :=
  let? t := body_text r in ok_or (parsed de t) "error decoding response body".

(** [complete] and [stream] over a request to be sent, what an answer without success
    means, and how an answer is read. *)
Definition whole (req : HttpRequest) (refused : HttpReply → string) (read : HttpReply → result CompletionResponse string)
    (wrap : string → string) (w : W) : W * result CompletionResponse string :=
  match send req w with
  | (w, Err e) => (w, Err (wrap e))
  | (w, Ok r) => (w, if is_success r then read r else Err (refused r))
  end.
Definition streamed (req : HttpRequest) (refused : HttpReply → string)
    (read : list (result string string) → list StreamEvent * result CompletionResponse string)
    (wrap : string → string) (w : W) : W * list StreamEvent * result CompletionResponse string :=
  match send req w with
  | (w, Err e) => (w, [], Err (wrap e))
  | (w, Ok r) =>
      if is_success r then let '(events, o) := read (chunks r) in (w, events, o) else (w, [], Err (refused r))
  end.

Definition read_whole (wrap : string → string) (r : CompletionRequest Value) (reply : HttpReply)
  : result CompletionResponse string :=
  let? choices := map_err wrap (json_body de_chat_response reply) in Ok (reply_of (name_map_of r) choices).

Definition same (e : string) : string := e.
Definition api_refused (label : string) (r : HttpReply) : string :=
  label +:+ " API error (" +:+ status_text r +:+ "): " +:+ text_or_default r.

(** *** OpenAI *)

Record OpenAiProvider : Type := mkOpenAi { openai_key : string; openai_model : string }.

Definition openai_post (p : OpenAiProvider) (stream : bool) (r : CompletionRequest Value) : HttpRequest :=
  mkHttp "POST" "https://api.openai.com/v1/chat/completions"
    [("Authorization", "Bearer " +:+ openai_key p); ("Content-Type", "application/json")]
    (chat_request (openai_model p) None stream r).

Definition openai (p : OpenAiProvider) : LlmProvider Value W :=
  mkProvider (λ r, whole (openai_post p false r) (api_refused "OpenAI") (read_whole same r) same)
             (λ r, streamed (openai_post p true r) (api_refused "OpenAI") (read_stream (name_map_of r)) same).

(** *** Services with its interface *)

Inductive CompatibleProvider : Type := Perplexity | Xai | Google | Custom.

Definition compatible_label (p : CompatibleProvider) : string :=
  match p with Perplexity => "perplexity" | Xai => "xai" | Google => "google" | Custom => "custom" end.
Definition base_url (p : CompatibleProvider) : string :=
  match p with
  | Perplexity => "https://api.perplexity.ai"
  | Xai => "https://api.x.ai/v1"
  | Google => "https://generativelanguage.googleapis.com/v1beta/openai"
  | Custom => ""
  end.
Definition default_model (p : CompatibleProvider) : string :=
  match p with
  | Perplexity => "sonar-pro"
  | Xai => "grok-4-1-fast-reasoning"
  | Google => "gemini-2.5-flash"
  | Custom => "default"
  end.
Definition compatible_from_name (name : string) : option CompatibleProvider :=
  let n := to_lowercase name in
  if bool_decide (n ∈ ["perplexity"; "pplx"; "sonar"]) then Some Perplexity
  else if bool_decide (n ∈ ["xai"; "grok"; "x"]) then Some Xai
  else if bool_decide (n ∈ ["google"; "gemini"]) then Some Google
  else None.

Record OpenAiCompatibleProvider : Type := mkCompatible {
  compatible_url : string;
  compatible_key : string;
  compatible_model : string;
  provider_type : CompatibleProvider;
}.

Definition is_slash (c : ascii) : bool := bool_decide (c = "/"%char).

Definition completions_url (p : OpenAiCompatibleProvider) : string :=
  trim_end_matches is_slash (compatible_url p) +:+ "/chat/completions".
Definition compatible_post (p : OpenAiCompatibleProvider) (stream : bool) (r : CompletionRequest Value) : HttpRequest :=
  mkHttp "POST" (completions_url p)
    ([("Authorization", "Bearer " +:+ compatible_key p); ("Content-Type", "application/json")] ++
     match provider_type p with Google => [("x-goog-api-key", compatible_key p)] | _ => [] end)
    (chat_request (compatible_model p) (Some 4096%Z) stream r).

Definition compatible (p : OpenAiCompatibleProvider) : LlmProvider Value W :=
  let refused := api_refused (compatible_label (provider_type p)) in
  mkProvider (λ r, whole (compatible_post p false r) refused (read_whole same r) same)
             (λ r, streamed (compatible_post p true r) refused (read_stream (name_map_of r)) same).

(** *** A local server *)

Section local.
Context (parse : string → result Url string) (cannot_be_a_base : Url → bool).

(** [crates/abigail-core/src/local_llm_url.rs] *)
Definition LOCAL_HOSTS : list string := ["localhost"; "127.0.0.1"; "::1"].

Definition is_loopback (h : option Host) : bool :=
  match h with
  | Some (Domain d) => existsb (λ a, bool_decide (to_lowercase d = to_lowercase a)) LOCAL_HOSTS
  | Some (Ipv4 a _ _ _) => (a =? 127)%Z
  | Some (Ipv6 s) => bool_decide (s = [0; 0; 0; 0; 0; 0; 0; 1])%Z
  | None => false
  end.

Definition validate_local_llm_url (url_str : string) : result string CoreError :=
  let s := trim url_str in
  if str_is_empty s then Err (ConfigError "Local LLM URL cannot be empty")
  else
    let? u := map_err (λ e, ConfigError ("Invalid local LLM URL: " +:+ e)) (parse s) in
    if cannot_be_a_base u then Err (ConfigError "Invalid local LLM URL: opaque or invalid base")
    else if negb (bool_decide (scheme u = "http")) && negb (bool_decide (scheme u = "https"))
    then Err (ConfigError ("Local LLM URL must use http or https, got: " +:+ scheme u))
    else
      let? h := ok_or (host_str u) (ConfigError "Local LLM URL must have a host") in
      if negb (is_loopback (host u))
      then Err (ConfigError ("Local LLM URL host not allowed (SSRF protection). Use localhost, 127.0.0.1, or [::1]. Got: " +:+ h))
      else Ok (trim_end_matches is_slash (url_text u)).

Record LocalHttpProvider : Type := mkLocal { local_url : string; local_model : string }.

Definition extract_local_llm_error (body : string) (status_code : Z) : string :=
  let raw := "LLM request failed: HTTP " +:+ pretty status_code +:+ " - " +:+ body in
  match from_str body with
  | Ok v =>
      match get "error" v ≫= (λ e, get "message" e ≫= as_str) with
      | Some msg =>
          let lower := to_lowercase msg in
          if contains lower "no models loaded" || contains lower "model not found"
          then "Local LLM has no model loaded. Please load a model in LM Studio or run `lms load <model>`, then try again."
          else "Local LLM error: " +:+ msg
      | None => raw
      end
  | Err _ => raw
  end.

Definition local_refused (r : HttpReply) : string := extract_local_llm_error (text_or_default r) (status r).
Definition local_post (p : LocalHttpProvider) (stream : bool) (r : CompletionRequest Value) : HttpRequest :=
  mkHttp "POST" (trim_end_matches is_slash (local_url p) +:+ "/v1/chat/completions") []
    (chat_request (local_model p) None stream r).
Definition request_failed (e : string) : string := "LLM request failed: " +:+ e.

Definition local (p : LocalHttpProvider) : LlmProvider Value W :=
  mkProvider
    (λ r w, match validate_local_llm_url (local_url p) with
            | Err e => (w, Err (core_error_str e))
            | Ok _ => whole (local_post p false r) local_refused
                        (read_whole (λ e, "LLM response parse failed: " +:+ e) r) request_failed w
            end)
    (λ r w, match validate_local_llm_url (local_url p) with
            | Err e => (w, [], Err (core_error_str e))
            | Ok _ => streamed (local_post p true r) local_refused (read_local_stream (name_map_of r)) request_failed w
            end).

(** [GET /v1/models]: the first model. *)
Definition de_models (v : Value) : option (list string) := required "data" (de_list (required "id" de_str)) v.
Definition detect_model (base : string) (w : W) : W * result string string :=
  match send (mkHttp "GET" (trim_end_matches is_slash base +:+ "/v1/models") [] Null) w with
  | (w, Err e) => (w, Err e)
  | (w, Ok r) =>
      (w, if negb (is_success r) then Err ("Models endpoint returned " +:+ status_text r)
          else let? l := json_body de_models r in ok_or (head l) "No models available")
  end.

Definition with_url (base : string) : LocalHttpProvider := mkLocal base "local-model".
Definition with_url_auto_model (base : string) (w : W) : W * LocalHttpProvider :=
  match detect_model base w with
  | (w, Ok model) => (w, mkLocal base model)
  | (w, Err _) => (w, mkLocal base "local-model")
  end.
Definition connect (base : string) (w : W) : W * result LocalHttpProvider string :=
  match validate_local_llm_url base with
  | Err e => (w, Err (core_error_str e))
  | Ok _ => match detect_model base w with
            | (w, Ok model) => (w, Ok (mkLocal base model))
            | (w, Err e) => (w, Err e)
            end
  end.

Definition ping : CompletionRequest Value := simple_request [new_message "user" "ping"].
Definition heartbeat (p : LocalHttpProvider) (w : W) : W * result unit string :=
  match validate_local_llm_url (local_url p) with
  | Err e => (w, Err (core_error_str e))
  | Ok _ =>
      match send (mkHttp "POST" (trim_end_matches is_slash (local_url p) +:+ "/v1/chat/completions") []
                    (chat_request (local_model p) (Some 10%Z) false ping)) w with
      | (w, Err e) => (w, Err ("LLM heartbeat failed: connection error: " +:+ e))
      | (w, Ok r) =>
          (w, if negb (is_success r)
              then Err ("LLM heartbeat failed: HTTP " +:+ status_text r +:+ " - " +:+ text_or_default r)
              else let? _ := map_err (λ e, "LLM heartbeat failed: invalid response: " +:+ e) (json_body de_chat_response r) in
                   Ok tt)
      end
  end.
End local.

(** *** No model *)

Definition split_nth1 (s sep : string) : string :=
  match RustStr.split_once s sep with
  | Some (_, rest) => match RustStr.split_once rest sep with Some (part, _) => part | None => rest end
  | None => ""
  end.

Definition candle_complete (r : CompletionRequest Value) (w : W) : W * result CompletionResponse string :=
  let full := RustStr.join "" (map content (messages r)) in
  (w, if contains full "Classify this user request" then
        let user_request := to_lowercase (split_nth1 full "User request:") in
        Ok (mkResponse (if existsb (contains user_request) ["essay"; "quantum"; "poem"; "analyze"; "explain in detail"]
                        then "COMPLEX" else "ROUTINE") None)
      else Err "No language model is connected. Add a cloud model or connect a running local model in Abigail Hive.").
Definition candle : LlmProvider Value W := mkProvider candle_complete (default_stream candle_complete).
End clients.
