(* ===== verification/Anthropic.v ===== *)
(** * The Anthropic client ([crates/abigail-capabilities/src/cognitive/anthropic.rs])

    The conversion of a conversation to the messages of that interface, the request and
    the answer, whole or streamed. *)

From S2P Require Import Prelude RustStr Cognitive Json Config Providers.
From Stdlib Require Import ZArith Lia Ascii.
From stdpp Require Import base list strings gmap.

Open Scope rust_scope.

Definition API_URL : string := "https://api.anthropic.com/v1/messages".
Definition API_VERSION : string := "2023-06-01".
Definition DEFAULT_MODEL : string := "claude-sonnet-4-6".
Definition MAX_TOKENS : Z := 4096.

Record AnthropicProvider : Type := mkAnthropic { anthropic_key : string; anthropic_model : string }.

(** ** Messages *)

Inductive ContentBlock : Type :=
| TextBlock (text : string)
| ToolUse (id name : string) (input : Value)
| ToolResult (tool_use_id content : string).

Inductive AnthropicContent : Type := Text (t : string) | Blocks (l : list ContentBlock).

Record AnthropicMessage : Type := mkAMessage { a_role : string; a_content : AnthropicContent }.

Definition ser_block (b : ContentBlock) : Value :=
  Obj match b with
      | TextBlock t => [("type", Str "text"); ("text", Str t)]
      | ToolUse i n v => [("type", Str "tool_use"); ("id", Str i); ("name", Str n); ("input", v)]
      | ToolResult i c => [("type", Str "tool_result"); ("tool_use_id", Str i); ("content", Str c)]
      end.
Definition ser_message (m : AnthropicMessage) : Value :=
  Obj [("role", Str (a_role m));
       ("content", match a_content m with Text t => Str t | Blocks l => Arr (map ser_block l) end)].

(** The copy through JSON is the blocks themselves. *)
Definition to_blocks (c : AnthropicContent) : list ContentBlock :=
  match c with Text t => [TextBlock t] | Blocks l => l end.

(** Onto the last message when it has the same role. *)
Definition merge_one (result : list AnthropicMessage) (msg : AnthropicMessage) : list AnthropicMessage :=
  match last result with
  | Some m =>
      if decide (a_role m = a_role msg)
      then removelast result ++ [mkAMessage (a_role m) (Blocks (to_blocks (a_content m) ++ to_blocks (a_content msg)))]
      else result ++ [msg]
  | None => [msg]
  end.
Definition merge_consecutive_roles (msgs : list AnthropicMessage) : list AnthropicMessage :=
  foldl merge_one [] msgs.

Section anthropic.
Context {H : JsonText}.

Definition tool_use (tc : ToolCall) : ContentBlock :=
  ToolUse (call_id tc) (sanitize_tool_name (call_name tc)) (match from_str (arguments tc) with Ok v => v | Err _ => Null end).

Definition push_tool_result (b : ContentBlock) (l : list AnthropicMessage) : list AnthropicMessage :=
  match last l with
  | Some (mkAMessage r (Blocks blocks)) =>
      if decide (r = "user") then removelast l ++ [mkAMessage r (Blocks (blocks ++ [b]))]
      else l ++ [mkAMessage "user" (Blocks [b])]
  | _ => l ++ [mkAMessage "user" (Blocks [b])]
  end.

Definition convert_one (acc : option string * list AnthropicMessage) (m : Message)
  : option string * list AnthropicMessage :=
  let '(system, l) := acc in
  if decide (role m = "system") then
    (Some (match system with Some existing => existing +:+ nl +:+ nl +:+ content m | None => content m end), l)
  else if decide (role m = "assistant") then
    (system, l ++ [mkAMessage "assistant"
       (match tool_calls m with
        | Some calls => Blocks ((if str_is_empty (content m) then [] else [TextBlock (content m)]) ++ map tool_use calls)
        | None => Text (content m)
        end)])
  else if decide (role m = "tool") then
    (system, push_tool_result (ToolResult (default "" (tool_call_id m)) (content m)) l)
  else (system, l ++ [mkAMessage "user" (Text (content m))]).

Definition convert_messages (l : list Message) : option string * list AnthropicMessage :=
  let '(system, msgs) := foldl convert_one (None, []) l in (system, merge_consecutive_roles msgs).

Definition anthropic_tool (td : ToolDefinition Value) : Value :=
  Obj [("name", Str (sanitize_tool_name (def_name td))); ("description", Str (def_description td));
       ("input_schema", def_parameters td)].
Definition convert_tools (l : list (ToolDefinition Value)) : list Value * gmap string string :=
  (map anthropic_tool l, build_tool_name_map l).

Definition anthropic_request (p : AnthropicProvider) (stream : bool) (r : CompletionRequest Value) : Value :=
  let '(system, msgs) := convert_messages (messages r) in
  Obj ([("model", Str (default (anthropic_model p) (model_override r))); ("max_tokens", Num (PosInt MAX_TOKENS))] ++
       opt_member "system" (Str <$> system) ++ [("messages", Arr (map ser_message msgs))] ++
       opt_member "tools" ((λ t, Arr (convert_tools t).1) <$> tools r) ++
       (if stream then [("stream", Bool true)] else [])).

Definition anthropic_post (p : AnthropicProvider) (stream : bool) (r : CompletionRequest Value) : HttpRequest :=
  mkHttp "POST" API_URL
    [("x-api-key", anthropic_key p); ("anthropic-version", API_VERSION); ("content-type", "application/json")]
    (anthropic_request p stream r).

(** ** Answers *)

Definition de_error_detail (v : Value) : option (string * string) :=
  m ← required "message" de_str v; t ← required "type" de_str v; Some (t, m).

Definition anthropic_refused (r : HttpReply) : string :=
  "Anthropic API error (" +:+ status_text r +:+ "): " +:+
  match parsed (required "error" de_error_detail) (text_or_default r) with
  | Some (t, m) => t +:+ " - " +:+ m
  | None => text_or_default r
  end.

Inductive ResponseBlock : Type := ResponseText (text : string) | ResponseTool (id name : string) (input : Value).

Definition de_response_block (v : Value) : option ResponseBlock :=
  t ← required "type" de_str v;
  if decide (t = "text") then ResponseText <$> required "text" de_str v
  else if decide (t = "tool_use") then
    i ← required "id" de_str v; n ← required "name" de_str v; input ← get "input" v; Some (ResponseTool i n input)
  else None.
Definition de_anthropic_response (v : Value) : option (list ResponseBlock) :=
  c ← required "content" (de_list de_response_block) v;
  _ ← defaulted "stop_reason" (de_option de_str) None v;
  Some c.

Definition text_of (b : ResponseBlock) : option string := match b with ResponseText t => Some t | _ => None end.
Definition call_of (names : gmap string string) (b : ResponseBlock) : option ToolCall :=
  match b with
  | ResponseTool i n input => Some (mkToolCall i (original_name names n) (to_string input))
  | _ => None
  end.
Definition read_blocks (names : gmap string string) (l : list ResponseBlock) : CompletionResponse :=
  mkResponse (RustStr.join "" (omap text_of l)) (some_calls (omap (call_of names) l)).

(** ** The stream *)

Inductive SseEvent : Type :=
| ToolStart (index : Z) (id name : string)
| TextDelta (text : string)
| InputDelta (index : Z) (partial_json : string)
| BlockStop (index : Z)
| StreamError (error_type msg : string)
| OtherEvent.

Definition de_sse (v : Value) : option SseEvent :=
  t ← required "type" de_str v;
  if decide (t ∈ ["message_start"; "message_delta"; "message_stop"; "ping"]) then Some OtherEvent
  else if decide (t = "content_block_start") then
    i ← required "index" (de_int 64) v;
    b ← get "content_block" v;
    bt ← required "type" de_str b;
    if decide (bt = "text") then _ ← required "text" de_str b; Some OtherEvent
    else if decide (bt = "tool_use") then
      id ← required "id" de_str b; n ← required "name" de_str b; Some (ToolStart i id n)
    else None
  else if decide (t = "content_block_delta") then
    i ← required "index" (de_int 64) v;
    d ← get "delta" v;
    dt ← required "type" de_str d;
    if decide (dt = "text_delta") then TextDelta <$> required "text" de_str d
    else if decide (dt = "input_json_delta") then InputDelta i <$> required "partial_json" de_str d
    else None
  else if decide (t = "content_block_stop") then BlockStop <$> required "index" (de_int 64) v
  else if decide (t = "error") then
    e ← required "error" de_error_detail v; Some (StreamError e.1 e.2)
  else None.

Record Progress : Type := mkProgress {
  full_text : string;
  done_calls : list ToolCall;
  tool_ids : gmap Z (string * string);
  tool_args : gmap Z string;
  events : list StreamEvent;
}.

Context (room : option nat).

Definition on_event (names : gmap string string) (e : SseEvent) (p : Progress) : Progress * Flow :=
  match e with
  | ToolStart i id n =>
      (mkProgress (full_text p) (done_calls p) (<[i := (id, original_name names n)]> (tool_ids p))
         (<[i := ""]> (tool_args p)) (events p), Go)
  | TextDelta t =>
      (mkProgress (full_text p +:+ t) (done_calls p) (tool_ids p) (tool_args p)
         (send_event room (Token t) (events p)).1, Go)
  | InputDelta i j =>
      (mkProgress (full_text p) (done_calls p) (tool_ids p)
         (match tool_args p !! i with Some a => <[i := a +:+ j]> (tool_args p) | None => tool_args p end) (events p), Go)
  | BlockStop i =>
      match tool_ids p !! i with
      | Some (id, n) =>
          (mkProgress (full_text p) (done_calls p ++ [mkToolCall id n (default "" (tool_args p !! i))])
             (delete i (tool_ids p)) (delete i (tool_args p)) (events p), Go)
      | None => (p, Go)
      end
  | StreamError t m => (p, Fail ("Anthropic stream error: " +:+ t +:+ " - " +:+ m))
  | OtherEvent => (p, Go)
  end.

Definition on_sse_line (names : gmap string string) (line : string) (p : Progress) : Progress * Flow :=
  match RustStr.strip_prefix (trim line) "data: " with
  | Some data =>
      if decide (data = "[DONE]") then (p, NextChunk)
      else match parsed de_sse data with Some e => on_event names e p | None => (p, Go) end
  | None => (p, Go)
  end.

Definition no_progress : Progress := mkProgress "" [] ∅ ∅ [].

Definition read_anthropic_stream (names : gmap string string) (l : list (result string string))
  : list StreamEvent * result CompletionResponse string :=
  match read_chunks (on_sse_line names) l "" no_progress with
  | (p, Ok _) =>
      let response := mkResponse (full_text p) (some_calls (done_calls p)) in
      ((send_event room (Done response) (events p)).1, Ok response)
  | (p, Err e) => (events p, Err e)
  end.

Context {W : Type} (send : HttpRequest → W → W * result HttpReply string).

Definition read_anthropic (r : CompletionRequest Value) (reply : HttpReply) : result CompletionResponse string :=
  let? l := json_body de_anthropic_response reply in Ok (read_blocks (name_map_of r) l).

Definition anthropic (p : AnthropicProvider) : LlmProvider Value W :=
  mkProvider (λ r, whole send (anthropic_post p false r) anthropic_refused (read_anthropic r) same)
             (λ r, streamed send (anthropic_post p true r) anthropic_refused (read_anthropic_stream (name_map_of r)) same).
End anthropic.
