(* ===== verification/ProvidersSpec.v ===== *)
(** * Clients of language models: correctness
    A stream is read the same whatever chunks it arrives in; its tokens make the reply;
    a conversation sent to Anthropic keeps its content and alternates its roles; a local
    provider is asked only at a loopback address.  Then what goes wrong. *)

From S2P Require Import Prelude RustStr SecureFs UrlSecurity Cognitive Json Config Providers Anthropic.
From Stdlib Require Import ZArith Lia Ascii.
From stdpp Require Import base list strings gmap.

Open Scope rust_scope.

(** ** Decoding *)

Lemma lossy_app s n t : lossy_from (String.length s + n) (s +:+ t) = lossy_from n t.
Proof. induction s as [|c s IH]; [done|]. rewrite str_app_cons. exact IH. Qed.

(** Well-formed bytes are left as they are. *)
Lemma lossy_valid s : utf8_valid s = true → from_utf8_lossy s = s.
Proof.
  unfold from_utf8_lossy. remember (String.length s) as n eqn:Hn. revert s Hn.
  induction (lt_wf n) as [n _ IH]. intros [|a s1] -> Hv; [done|].
  assert (∀ p t, p ≠ "" → String a s1 = p +:+ t → utf8_valid t = true →
    lossy_step (String a s1) = (p, String.length p) → lossy_from 0 (String a s1) = String a s1) as Hstep.
  { intros p t Hp He Ht Hs. cbn [lossy_from]. rewrite Hs. destruct p as [|c p]; [done|].
    rewrite str_app_cons in He. injection He as -> ->. cbn [String.length]. rewrite str_app_cons. simpl.
    replace (String.length p - 0) with (String.length p + 0) by lia. rewrite lossy_app. f_equal. f_equal.
    eapply IH; [|done|done]. simpl. rewrite str_length_app. lia. }
  cbn [utf8_valid] in Hv. unfold lossy_step in Hstep.
  destruct (N_of_ascii a <? 128)%N; [by apply (Hstep (String a "") s1)|].
  destruct s1 as [|b s2]; [done|].
  destruct ((194 <=? N_of_ascii a)%N && (N_of_ascii a <=? 223)%N).
  { apply andb_true_iff in Hv as [Hb Hv]. rewrite Hb in Hstep. by apply (Hstep (String a (String b "")) s2). }
  destruct s2 as [|c s3]; [done|].
  destruct ((224 <=? N_of_ascii a)%N && (N_of_ascii a <=? 239)%N).
  { apply andb_true_iff in Hv as [[Hb Hc]%andb_true_iff Hv]. rewrite Hb, Hc in Hstep.
    by apply (Hstep (String a (String b (String c ""))) s3). }
  destruct s3 as [|d s4]; [done|].
  rewrite !andb_true_iff in Hv. destruct Hv as [[[[[Hx Hy] Hb] Hc] Hd] Hv].
  rewrite Hx, Hy, Hb, Hc, Hd in Hstep. by apply (Hstep (String a (String b (String c (String d "")))) s4).
Qed.

(** ** The loop over lines *)

(** The complete lines of a text. *)
Fixpoint split_lines (line s : string) : list string * string :=
  match s with
  | EmptyString => ([], line)
  | String c s' =>
      if decide (c = newline) then let '(l, r) := split_lines "" s' in (line :: l, r)
      else split_lines (line +:+ String c "") s'
  end.
Definition complete_lines (s : string) : list string := (split_lines "" s).1.

Lemma split_lines_app line s t :
  split_lines line (s +:+ t)
  = ((split_lines line s).1 ++ (split_lines (split_lines line s).2 t).1, (split_lines (split_lines line s).2 t).2).
Proof.
  revert line. induction s as [|c s IH]; intros line; [rewrite str_app_nil_l; simpl; by destruct (split_lines line t)|].
  rewrite str_app_cons. simpl. case_decide; [|apply IH]. rewrite IH.
  destruct (split_lines "" s) as [l r]. simpl. done.
Qed.

Lemma split_lines_line line s :
  newline ∉ str_chars line → newline ∉ str_chars (split_lines line s).2.
Proof.
  revert line. induction s as [|c s IH]; intros line Hl; [done|]. simpl. case_decide.
  - specialize (IH "" ltac:(apply not_elem_of_nil)). by destruct (split_lines "" s).
  - apply IH. rewrite str_chars_app, not_elem_of_app. split; [done|]. simpl.
    rewrite list_elem_of_singleton. congruence.
Qed.

Lemma split_lines_no_newline line s : newline ∉ str_chars s → split_lines line s = ([], line +:+ s).
Proof.
  revert line. induction s as [|c s IH]; intros line Hs; simpl in *; [by rewrite str_app_nil_r|].
  apply not_elem_of_cons in Hs as [Hc Hs]. rewrite decide_False by done. by rewrite IH, <- str_app_assoc by done.
Qed.

(** What is left of a text has no complete line, and goes on in the next one. *)
Lemma split_lines_rest s t : split_lines "" ((split_lines "" s).2 +:+ t) = split_lines (split_lines "" s).2 t.
Proof.
  rewrite split_lines_app. rewrite (split_lines_no_newline "" (split_lines "" s).2).
  - rewrite str_app_nil_l. simpl. by destruct (split_lines _ t).
  - apply split_lines_line, not_elem_of_nil.
Qed.

Section loop.
Context {A : Type} (on_line : string → A → A * Flow).

(** The lines in order, whatever the chunks. *)
Fixpoint run_lines (l : list string) (a : A) : A * result unit string :=
  match l with
  | [] => (a, Ok tt)
  | x :: l =>
      match on_line x a with
      | (a, Leave) => (a, Ok tt)
      | (a, Fail e) => (a, Err e)
      | (a, _) => run_lines l a
      end
  end.

Definition idle (l : string) : Prop := ∀ a, on_line l a = (a, Go) ∨ on_line l a = (a, NextChunk).

(** After a line that leaves the rest of its chunk, nothing happens any more. *)
Definition ends_quietly (lines : list string) : Prop :=
  ∀ pre l post a, lines = pre ++ l :: post → (on_line l a).2 = NextChunk → Forall idle post.

Lemma ends_quietly_suffix l1 l2 : ends_quietly (l1 ++ l2) → ends_quietly l2.
Proof. intros Hq pre l post a ->. apply (Hq (l1 ++ pre)). by rewrite app_assoc. Qed.

Lemma run_idle l a : Forall idle l → run_lines l a = (a, Ok tt).
Proof. induction 1 as [|x l Hx _ IH]; [done|]. simpl. by destruct (Hx a) as [-> | ->]. Qed.

(** The buffer is read up to a point between two lines. *)
Lemma feed_lines line s a a' rest flow :
  newline ∉ str_chars line → feed on_line line s a = (a', rest, flow) →
  ∃ l, split_lines line s = (l ++ complete_lines rest, (split_lines "" rest).2) ∧
    (flow = Go → complete_lines rest = []) ∧
    (flow = NextChunk → ∃ pre x a0, l = pre ++ [x] ∧ (on_line x a0).2 = NextChunk) ∧
    ∀ k, run_lines (l ++ k) a = match flow with
                               | Go | NextChunk => run_lines k a'
                               | Leave => (a', Ok tt)
                               | Fail e => (a', Err e)
                               end.
Proof.
  unfold complete_lines. revert line a. induction s as [|c s IH]; intros line a Hl; simpl.
  { intros [= <- <- <-]. exists []. rewrite split_lines_no_newline by done. rewrite str_app_nil_l. done. }
  case_decide as Hc.
  - destruct (on_line line a) as [a1 f1] eqn:Ho.
    assert (f1 ≠ Go → (a1, s, f1) = (a', rest, flow) →
      ∃ l, (let '(l, r) := split_lines "" s in (line :: l, r)) = (l ++ (split_lines "" rest).1, (split_lines "" rest).2) ∧
        (flow = Go → (split_lines "" rest).1 = []) ∧
        (flow = NextChunk → ∃ pre x a0, l = pre ++ [x] ∧ (on_line x a0).2 = NextChunk) ∧
        ∀ k, run_lines (l ++ k) a = match flow with
                                   | Go | NextChunk => run_lines k a'
                                   | Leave => (a', Ok tt)
                                   | Fail e => (a', Err e)
                                   end) as Hstop.
    { intros Hf [= <- <- <-]. exists [line]. split; [by destruct (split_lines "" s)|]. split; [done|].
      split; [intros ->; exists [], line, a; by rewrite Ho|]. intros k. simpl. rewrite Ho. by destruct f1. }
    destruct f1; try (intros Hr; by apply Hstop). clear Hstop. intros Hr.
    apply IH in Hr as (l & Hs & Hgo & Hnext & Hrun); [|apply not_elem_of_nil].
    exists (line :: l). split; [by destruct (split_lines "" s); injection Hs as -> ->|]. split; [done|].
    split; [|intros k; simpl; rewrite Ho; apply Hrun].
    intros Hf. destruct (Hnext Hf) as (pre & x & a0 & -> & Hx). by exists (line :: pre), x, a0.
  - apply IH. rewrite str_chars_app, not_elem_of_app. split; [done|]. simpl. rewrite list_elem_of_singleton. congruence.
Qed.

Lemma complete_lines_app s t :
  complete_lines (s +:+ t) = complete_lines s ++ complete_lines ((split_lines "" s).2 +:+ t).
Proof. unfold complete_lines. by rewrite split_lines_app, <- split_lines_rest. Qed.

(** The loop is the lines in order, if none but idle ones come after the end of the stream. *)
Lemma read_chunks_lines l buffer a :
  Forall (λ c, utf8_valid c = true) l → Forall idle (complete_lines buffer) →
  ends_quietly (complete_lines (buffer +:+ RustStr.join "" l)) →
  read_chunks on_line (map Ok l) buffer a = run_lines (complete_lines (buffer +:+ RustStr.join "" l)) a.
Proof.
  intros Hv. revert buffer a. induction Hv as [|c l Hc _ IH]; intros buffer a Hb Hq; simpl map.
  { simpl in *. rewrite str_app_nil_r. by rewrite run_idle by done. }
  rewrite join_nil_cons in *. cbn [read_chunks]. rewrite lossy_valid by done.
  rewrite str_app_assoc in Hq |- *. set (x := buffer +:+ c) in *. set (t := RustStr.join "" l) in *.
  destruct (feed on_line "" x a) as [[a' rest] flow] eqn:Hf.
  apply feed_lines in Hf as (pre & Hs & Hgo & Hnext & Hrun); [|apply not_elem_of_nil].
  assert (complete_lines (x +:+ t) = pre ++ complete_lines (rest +:+ t)) as He.
  { rewrite (complete_lines_app x), (complete_lines_app rest), app_assoc. unfold complete_lines at 1. rewrite Hs. done. }
  rewrite He, Hrun. rewrite He in Hq. apply ends_quietly_suffix in Hq as Hq'.
  assert (flow = NextChunk → Forall idle (complete_lines rest)) as Hidle.
  { intros Hf. destruct (Hnext Hf) as (pre' & y & a0 & -> & Hy). rewrite complete_lines_app in Hq.
    specialize (Hq pre' y (complete_lines rest ++ complete_lines ((split_lines "" rest).2 +:+ t)) a0).
    rewrite <- app_assoc in Hq. specialize (Hq eq_refl Hy). by apply Forall_app in Hq as [? _]. }
  destruct flow; [|auto|done..]. apply IH; [by rewrite Hgo|done].
Qed.
End loop.

(** ** The loop over blocks *)

Section blocks.
Context {A : Type} (on_line : string → A → A * Flow).

Lemma feed_blocks_fuel n m s a :
  String.length s ≤ n → String.length s ≤ m → feed_blocks on_line n s a = feed_blocks on_line m s a.
Proof.
  revert m s a. induction n as [|n IH]; intros [|m] s a Hn Hm; cbn [feed_blocks]; try done.
  - destruct s; [done|simpl in Hn; lia].
  - destruct s; [done|simpl in Hm; lia].
  - destruct (RustStr.split_once s (nl +:+ nl)) as [[b r]|] eqn:Hs; [|done].
    apply split_once_Some in Hs. subst s. rewrite !str_length_app in Hn, Hm. simpl in Hn, Hm. apply IH; lia.
Qed.

Definition blocks_of (s : string) (a : A) : A * string := feed_blocks on_line (String.length s) s a.

Lemma feed_blocks_app n m s t a :
  String.length s ≤ n → String.length (s +:+ t) ≤ m →
  feed_blocks on_line m (s +:+ t) a
  = let '(a, r) := feed_blocks on_line n s a in feed_blocks on_line (String.length (r +:+ t)) (r +:+ t) a.
Proof.
  revert m s a. induction n as [|n IH]; intros m s a Hn Hm; cbn [feed_blocks].
  - destruct s; [|simpl in Hn; lia]. by apply feed_blocks_fuel.
  - destruct (RustStr.split_once s (nl +:+ nl)) as [[b r]|] eqn:Hs; [|by apply feed_blocks_fuel].
    pose proof (split_once_app _ t _ _ _ Hs) as Hst. apply split_once_Some in Hs.
    assert (String.length s = String.length b + (2 + String.length r)) as Hl by (subst s; by rewrite !str_length_app).
    rewrite str_length_app in Hm. destruct m as [|m]; [lia|]. cbn [feed_blocks]. rewrite Hst.
    apply IH; [lia|]. rewrite str_length_app. lia.
Qed.

Lemma feed_blocks_rest n s a :
  String.length s ≤ n → RustStr.split_once (feed_blocks on_line n s a).2 (nl +:+ nl) = None.
Proof.
  revert s a. induction n as [|n IH]; intros s a Hn; cbn [feed_blocks].
  - destruct s; [done|simpl in Hn; lia].
  - destruct (RustStr.split_once s (nl +:+ nl)) as [[b r]|] eqn:Hs; [|done].
    apply split_once_Some in Hs. subst s. rewrite !str_length_app in Hn. simpl in Hn. apply IH. lia.
Qed.

(** The blocks of all chunks are those of their bytes together. *)
Lemma read_blocks_together l buffer a :
  Forall (λ c, utf8_valid c = true) l → RustStr.split_once buffer (nl +:+ nl) = None →
  read_block_chunks on_line (map Ok l) buffer a
  = ((feed_blocks on_line (String.length (buffer +:+ RustStr.join "" l)) (buffer +:+ RustStr.join "" l) a).1, Ok tt).
Proof.
  intros Hv. revert buffer a. induction Hv as [|c l Hc _ IH]; intros buffer a Hb.
  { simpl. rewrite str_app_nil_r. destruct (String.length buffer); [done|]. cbn [feed_blocks]. by rewrite Hb. }
  cbn [map read_block_chunks]. rewrite lossy_valid by done. rewrite join_nil_cons, str_app_assoc.
  rewrite (feed_blocks_app (String.length (buffer +:+ c)) _ _ (RustStr.join "" l)) by done.
  pose proof (feed_blocks_rest (String.length (buffer +:+ c)) (buffer +:+ c) a ltac:(done)) as Hr.
  destruct (feed_blocks on_line _ (buffer +:+ c) a) as [a' r]. by apply IH.
Qed.
End blocks.

(** ** Streams *)

Section streams.
Context {H : JsonText} (room : option nat) (into_values : gmap Z Call3 → list Call3).

(** A line without data. *)
Definition quiet (l : string) : Prop := RustStr.strip_prefix (trim l) "data: " = None.

(** Only lines without data come after the end of the stream. *)
Definition done_is_last (text : string) : Prop :=
  ∀ pre l post, complete_lines text = pre ++ l :: post → trim l = "data: [DONE]" → Forall quiet post.

Lemma quiet_idle l : quiet l → idle (on_line room) l.
Proof. intros Hq a. left. unfold on_line, on_data. rewrite Hq. by destruct (str_is_empty (trim l)). Qed.

Lemma quiet_idle_sse names l : quiet l → idle (on_sse_line room names) l.
Proof. intros Hq a. left. unfold on_sse_line. by rewrite Hq. Qed.

Lemma data_done line data : RustStr.strip_prefix line "data: " = Some data → data = "[DONE]" → line = "data: [DONE]".
Proof. intros Hp ->. by apply strip_prefix_Some in Hp. Qed.

Lemma next_is_done l a : (on_line room l a).2 = NextChunk → trim l = "data: [DONE]".
Proof.
  unfold on_line, on_data. destruct (str_is_empty (trim l)); [done|].
  destruct (RustStr.strip_prefix (trim l) "data: ") as [data|] eqn:Hp; [|done].
  case_decide; [by intros _; apply (data_done _ _ Hp)|].
  destruct (parsed _ _) as [[|choice ?]|]; [done| |done]. unfold on_choice.
  destruct choice.1; [|done]. destruct (send_event _ _ _) as [? there]. by destruct there.
Qed.

Lemma next_is_done_sse names l p : (on_sse_line room names l p).2 = NextChunk → trim l = "data: [DONE]".
Proof.
  unfold on_sse_line. destruct (RustStr.strip_prefix (trim l) "data: ") as [data|] eqn:Hp; [|done].
  case_decide; [by intros _; apply (data_done _ _ Hp)|].
  destruct (parsed _ _) as [e|]; [|done]. destruct e; simpl; try done. by destruct (tool_ids p !! index) as [[]|].
Qed.

Lemma done_ends_quietly {A} (f : string → A → A * Flow) text :
  (∀ l, quiet l → idle f l) → (∀ l a, (f l a).2 = NextChunk → trim l = "data: [DONE]") →
  done_is_last text → ends_quietly f (complete_lines text).
Proof. intros Hq Hd Ht pre l post a He Hn. eapply Forall_impl; [by eapply Ht, Hd|]. exact Hq. Qed.

(** A stream whose bytes are those of whole characters is read by its lines. *)
Lemma stream_by_lines {A} (f : string → A → A * Flow) a l :
  (∀ l, quiet l → idle f l) → (∀ l a, (f l a).2 = NextChunk → trim l = "data: [DONE]") →
  Forall (λ c, utf8_valid c = true) l → done_is_last (RustStr.join "" l) →
  read_chunks f (map Ok l) "" a = run_lines f (complete_lines (RustStr.join "" l)) a.
Proof.
  intros Hq Hd Hl Ht. apply (read_chunks_lines f l "" a Hl); [constructor|]. rewrite str_app_nil_l.
  by apply done_ends_quietly.
Qed.

(** C34: in which chunks the bytes of a streamed answer arrive makes no difference to any
    client, if no chunk ends inside a character and no data comes after the end mark of
    the stream: the events and the reply are the same. *)
Theorem chunks_do_not_matter names l k :
  Forall (λ c, utf8_valid c = true) l → Forall (λ c, utf8_valid c = true) k →
  RustStr.join "" l = RustStr.join "" k → done_is_last (RustStr.join "" l) →
  read_stream room into_values names (map Ok l) = read_stream room into_values names (map Ok k) ∧
  read_local_stream room into_values names (map Ok l) = read_local_stream room into_values names (map Ok k) ∧
  read_anthropic_stream room names (map Ok l) = read_anthropic_stream room names (map Ok k).
Proof.
  intros Hl Hk He Hd. assert (done_is_last (RustStr.join "" k)) as Hd' by (by rewrite <- He). unfold read_stream, read_local_stream, read_anthropic_stream. split_and!.
  - rewrite !stream_by_lines by eauto using quiet_idle, next_is_done. by rewrite He.
  - by rewrite !read_blocks_together, !str_app_nil_l, He by done.
  - rewrite !stream_by_lines by eauto using quiet_idle_sse, next_is_done_sse. by rewrite He.
Qed.
End streams.

(** *** The tokens of a reply *)

(** The events are the tokens of a text; on success the reply ends them and has that text. *)
Definition streams_reply (events : list StreamEvent) (o : result CompletionResponse string) : Prop :=
  ∃ tokens, match o with
            | Ok r => events = map Token tokens ++ [Done r] ∧ RustStr.join "" tokens = reply r
            | Err _ => events = map Token tokens
            end.

Section invariant.
Context {A : Type} (on_line : string → A → A * Flow) (P : A → Prop).
Context (step : ∀ l a, P a → P (on_line l a).1).

Lemma feed_keeps line s a : P a → P (feed on_line line s a).1.1.
Proof.
  revert line a. induction s as [|c s IH]; intros line a Ha; simpl; [done|]. case_decide; [|by apply IH].
  pose proof (step line a Ha) as Hs. destruct (on_line line a) as [a' []]; try done. by apply IH.
Qed.

Lemma read_chunks_keeps l buffer a : P a → P (read_chunks on_line l buffer a).1.
Proof.
  revert buffer a. induction l as [|[bytes|e] l IH]; intros buffer a Ha; simpl; try done.
  pose proof (feed_keeps "" (buffer +:+ from_utf8_lossy bytes) a Ha) as Hf.
  destruct (feed _ _ _ _) as [[a' rest] []]; try done; by apply IH.
Qed.

Lemma blocks_keep n s a : P a → P (feed_blocks on_line n s a).1.
Proof.
  assert (∀ l a, P a → P (on_block on_line l a)) as Hblock.
  { induction l as [|x l IH]; intros a' Ha; simpl; [done|]. pose proof (step x a' Ha) as Hs.
    destruct (on_line x a') as [? []]; try done. by apply IH. }
  revert s a. induction n as [|n IH]; intros s a Ha; cbn [feed_blocks]; [done|].
  destruct (RustStr.split_once _ _) as [[b r]|]; [|done]. by apply IH, Hblock.
Qed.

Lemma read_block_chunks_keeps l buffer a : P a → P (read_block_chunks on_line l buffer a).1.
Proof.
  revert buffer a. induction l as [|[bytes|e] l IH]; intros buffer a Ha; cbn [read_block_chunks]; try done.
  pose proof (blocks_keep (String.length (buffer +:+ from_utf8_lossy bytes)) (buffer +:+ from_utf8_lossy bytes) a Ha) as Hf.
  destruct (feed_blocks _ _ _ _) as [a' rest]. by apply IH.
Qed.
End invariant.

Definition spelled (text : string) (events : list StreamEvent) : Prop :=
  ∃ tokens, events = map Token tokens ∧ RustStr.join "" tokens = text.

Lemma spelled_more text events t : spelled text events → spelled (text +:+ t) (events ++ [Token t]).
Proof.
  intros (tokens & -> & <-). exists (tokens ++ [t]). split; [by rewrite map_app|].
  induction tokens as [|s l IH]; [by rewrite str_app_nil_l|].
  rewrite <- app_comm_cons, !join_nil_cons, IH. by rewrite str_app_assoc.
Qed.

Section tokens.
Context {H : JsonText} (into_values : gmap Z Call3 → list Call3).

Lemma on_data_spelled strict l a :
  spelled (full_content a) (sent a) →
  spelled (full_content (on_data None strict l a).1) (sent (on_data None strict l a).1).
Proof.
  intros Ha. unfold on_data. destruct (RustStr.strip_prefix l "data: ") as [data|]; [|done]. case_decide; [done|].
  destruct (parsed _ _) as [[|[[text|] calls] ?]|]; [done| | |done]; unfold on_choice; simpl.
  - rewrite andb_false_r. destruct calls; by apply spelled_more.
  - by destruct calls.
Qed.

Lemma on_event_spelled names e p :
  spelled (full_text p) (events p) →
  spelled (full_text (on_event None names e p).1) (events (on_event None names e p).1).
Proof. intros Hp. destruct e; simpl; try done; [by apply spelled_more|]. by destruct (tool_ids p !! index) as [[]|]. Qed.

Lemma read_stream_spelled names l :
  let '(events, o) := read_stream None into_values names l in streams_reply events o.
Proof.
  unfold read_stream.
  pose proof (read_chunks_keeps (on_line None) (λ a, spelled (full_content a) (sent a))) as Hk.
  specialize (Hk ltac:(intros x a Ha; unfold on_line; destruct (str_is_empty (trim x)); [done|by apply on_data_spelled])
                l "" empty_acc ltac:(by exists [])).
  destruct (read_chunks _ _ _ _) as [a [u|e]]; destruct Hk as (tokens & Hs & Ht); exists tokens; simpl in *; by rewrite Hs.
Qed.

Lemma read_local_stream_spelled names l :
  let '(events, o) := read_local_stream None into_values names l in streams_reply events o.
Proof.
  unfold read_local_stream.
  pose proof (read_block_chunks_keeps (on_data None false) (λ a, spelled (full_content a) (sent a))) as Hk.
  specialize (Hk ltac:(intros x a Ha; by apply on_data_spelled) l "" empty_acc ltac:(by exists [])).
  destruct (read_block_chunks _ _ _ _) as [a [u|e]]; destruct Hk as (tokens & Hs & Ht); exists tokens; simpl in *; by rewrite Hs.
Qed.

Lemma read_anthropic_stream_spelled names l :
  let '(events, o) := read_anthropic_stream None names l in streams_reply events o.
Proof.
  unfold read_anthropic_stream.
  pose proof (read_chunks_keeps (on_sse_line None names) (λ p, spelled (full_text p) (events p))) as Hk.
  specialize (Hk ltac:(intros x a Ha; unfold on_sse_line; destruct (RustStr.strip_prefix (trim x) "data: ") as [data|]; [|done];
                        case_decide; [done|]; destruct (parsed _ _) as [e|]; [by apply on_event_spelled|done])
                l "" no_progress ltac:(by exists [])).
  destruct (read_chunks _ _ _ _) as [a [u|e]]; destruct Hk as (tokens & Hs & Ht); exists tokens; simpl in *; by rewrite Hs.
Qed.

Context {W : Type} (send : HttpRequest → W → W * result HttpReply string).
Context (parse : string → result Url string) (cannot_be_a_base : Url → bool).

Lemma streamed_spelled req refused read wrap w w' events o :
  (∀ l, let '(events, o) := read l in streams_reply events o) →
  streamed send req refused read wrap w = (w', events, o) → streams_reply events o.
Proof.
  intros Hr. unfold streamed. destruct (send req w) as [w1 [r|e]].
  - destruct (is_success r); [|by intros [= _ <- <-]; exists []].
    specialize (Hr (chunks r)). destruct (read (chunks r)) as [ev x]. by intros [= _ <- <-].
  - intros [= _ <- <-]. by exists [].
Qed.

(** C33: as long as its receiver is there, what each of the five clients streams (OpenAI,
    the compatible services, the local server, Anthropic and the stub; not the command
    line tools, whose client is not modelled) is what it answers: the tokens are, together, the text of the reply, which comes last; a stream that fails
    has sent tokens only. *)
Theorem tokens_make_the_reply po pc pl pa :
  Forall (λ client : LlmProvider Value W, ∀ r w w' events o,
      Cognitive.stream client r w = (w', events, o) → streams_reply events o)
    [openai None into_values send po; compatible None into_values send pc;
     local None into_values send parse cannot_be_a_base pl; anthropic None send pa; candle].
Proof.
  repeat (apply Forall_cons; split); [..|by apply Forall_nil]; intros r w w' events o; simpl.
  - apply streamed_spelled. intros l. apply read_stream_spelled.
  - apply streamed_spelled. intros l. apply read_stream_spelled.
  - destruct (validate_local_llm_url _ _ _); [|by intros [= _ <- <-]; exists []].
    apply streamed_spelled. intros l. apply read_local_stream_spelled.
  - apply streamed_spelled. intros l. apply read_anthropic_stream_spelled.
  - unfold default_stream. destruct (candle_complete r w) as [w1 [x|e]]; intros [= _ <- <-].
    + exists [reply x]. done.
    + by exists [].
Qed.
End tokens.

(** ** Conversations for Anthropic *)

Section conversion.
Context {H : JsonText}.

(** The blocks of a message, each with the role it is sent under. *)
Definition said (m : AnthropicMessage) : list (string * ContentBlock) := map (pair (a_role m)) (to_blocks (a_content m)).
Definition all_said (l : list AnthropicMessage) : list (string * ContentBlock) := concat (map said l).

Definition parts_of (m : Message) : list (string * ContentBlock) :=
  if decide (role m = "system") then []
  else if decide (role m = "assistant") then
    map (pair "assistant")
      match tool_calls m with
      | Some calls => (if str_is_empty (content m) then [] else [TextBlock (content m)]) ++ map tool_use calls
      | None => [TextBlock (content m)]
      end
  else if decide (role m = "tool") then [("user", ToolResult (default "" (tool_call_id m)) (content m))]
  else [("user", TextBlock (content m))].

(** The block of a call: its identifier, the name under which the tool of that name is
    offered, and its arguments as a JSON value; null when they are not JSON. *)
Definition call_block (tc : ToolCall) (b : ContentBlock) : Prop :=
  ∃ name v, b = ToolUse (call_id tc) name v ∧
    (∀ td, def_name td = call_name tc → get "name" (anthropic_tool td) = Some (Str name)) ∧
    (∀ u, from_str (arguments tc) = Ok u → v = u) ∧
    (∀ e, from_str (arguments tc) = Err e → v = Null).

(** What a message has to say: a system message nothing here; the assistant its text, if
    there is any or nothing else, and its calls in order; a tool its result, as the user;
    any other role its text, as the user. *)
Definition says (m : Message) (l : list (string * ContentBlock)) : Prop :=
  (role m = "system" ∧ l = []) ∨
  (role m = "assistant" ∧ tool_calls m = None ∧ l = [("assistant", TextBlock (content m))]) ∨
  (role m = "assistant" ∧ ∃ calls text blocks, tool_calls m = Some calls ∧
     l = map (pair "assistant") (text ++ blocks) ∧ Forall2 call_block calls blocks ∧
     (content m = "" → text = []) ∧ (content m ≠ "" → text = [TextBlock (content m)])) ∨
  (role m = "tool" ∧ ∃ id, (tool_call_id m = Some id ∨ tool_call_id m = None ∧ id = "") ∧
     l = [("user", ToolResult id (content m))]) ∨
  (role m ∉ ["system"; "assistant"; "tool"] ∧ l = [("user", TextBlock (content m))]).

Lemma tool_use_block tc : call_block tc (tool_use tc).
Proof.
  eexists _, _. split; [reflexivity|]. split; [by intros td <-|].
  destruct (from_str (arguments tc)); naive_solver.
Qed.

Lemma parts_said m : says m (parts_of m).
Proof.
  unfold says, parts_of. repeat case_decide; [auto| | |].
  - right. destruct (tool_calls m) as [calls|] eqn:Hc; [right; left|by left].
    split; [done|]. exists calls, (if str_is_empty (content m) then [] else [TextBlock (content m)]), (map tool_use calls).
    split_and!; [done|done| | |].
    + clear Hc. induction calls as [|tc calls IH]; simpl; constructor; [apply tool_use_block|done].
    + by intros ->.
    + by destruct (content m).
  - do 3 right. left. split; [done|]. exists (default "" (tool_call_id m)). split; [|done].
    destruct (tool_call_id m); [by left|by right].
  - do 4 right. split; [|done]. rewrite !not_elem_of_cons. split_and!; [done..|apply not_elem_of_nil].
Qed.

Definition system_of (l : list Message) : option string :=
  match filter (λ m, role m = "system") l with
  | [] => None
  | l => Some (RustStr.join (nl +:+ nl) (map content l))
  end.

Fixpoint alternating (l : list AnthropicMessage) : Prop :=
  match l with
  | a :: (b :: _) as r => a_role a ≠ a_role b ∧ alternating r
  | _ => True
  end.

Definition speaks (m : AnthropicMessage) : Prop := a_role m = "user" ∨ a_role m = "assistant".

Lemma all_said_app l k : all_said (l ++ k) = all_said l ++ all_said k.
Proof. unfold all_said. by rewrite map_app, concat_app. Qed.

Lemma all_said_one m : all_said [m] = said m.
Proof. unfold all_said. simpl. by rewrite app_nil_r. Qed.

Lemma alternating_snoc l a b : alternating (l ++ [a]) → a_role a ≠ a_role b → alternating ((l ++ [a]) ++ [b]).
Proof.
  intros Hl Hab. induction l as [|x l IH]; [done|]. destruct l as [|y l]; simpl in *; [naive_solver|].
  destruct Hl as [? Hl]. split; [done|]. by apply IH.
Qed.

Lemma alternating_same_role l a b : a_role a = a_role b → alternating (l ++ [a]) → alternating (l ++ [b]).
Proof.
  intros He. induction l as [|x l IH]; [done|]. destruct l as [|y l]; simpl in *; [by rewrite He|].
  intros [? Hl]. split; [done|]. by apply IH.
Qed.

Lemma push_said b l : all_said (push_tool_result b l) = all_said l ++ [("user", b)].
Proof.
  unfold push_tool_result. destruct l as [|m l _] using rev_ind; [done|]. rewrite last_snoc, removelast_last.
  destruct m as [r [t|blocks]]; [by rewrite !all_said_app|]. case_decide; [|by rewrite !all_said_app].
  subst r. rewrite !all_said_app, !all_said_one. unfold said. simpl. by rewrite map_app, app_assoc.
Qed.

Lemma push_speaks b l : Forall speaks l → Forall speaks (push_tool_result b l).
Proof.
  assert (∀ l, Forall speaks l → Forall speaks (l ++ [mkAMessage "user" (Blocks [b])])) as Hnew.
  { intros k Hk. apply Forall_app. split; [done|]. by repeat constructor. }
  unfold push_tool_result. destruct l as [|m l _] using rev_ind; [by intros; apply (Hnew [])|]. rewrite last_snoc, removelast_last.
  destruct m as [r [t|blocks]]; [auto|]. case_decide; [|auto]. rewrite !Forall_app, !Forall_singleton. naive_solver.
Qed.

Lemma join_snoc sep l s : l ≠ [] → RustStr.join sep (l ++ [s]) = RustStr.join sep l +:+ sep +:+ s.
Proof.
  intros Hl. induction l as [|x l IH]; [done|]. destruct l as [|y l]; [done|].
  change (x +:+ sep +:+ RustStr.join sep ((y :: l) ++ [s]) = (x +:+ sep +:+ RustStr.join sep (y :: l)) +:+ sep +:+ s).
  rewrite IH by done. by rewrite !str_app_assoc.
Qed.

Lemma convert_said l :
  let '(system, msgs) := foldl convert_one (None, []) l in
  all_said msgs = concat (map parts_of l) ∧ Forall speaks msgs ∧ system = system_of l.
Proof.
  induction l as [|m l IH] using rev_ind; [by repeat split|]. rewrite foldl_app. cbn [foldl].
  destruct (foldl convert_one (None, []) l) as [system msgs]. destruct IH as (Hs & Hf & Hy).
  rewrite map_app, concat_app. simpl. rewrite app_nil_r. unfold parts_of at 2, system_of, convert_one.
  rewrite filter_app. case_decide as Hsys.
  { rewrite filter_cons_True, filter_nil, app_nil_r by done. split; [done|]. split; [done|]. rewrite Hy. unfold system_of.
    destruct (filter _ l) as [|x k] eqn:Hk; [done|].
    change ((x :: k) ++ [m]) with (x :: k ++ [m]). cbv iota beta.
    change (map content (x :: k ++ [m])) with (content x :: map content (k ++ [m])). rewrite map_app.
    change (content x :: map content k ++ map content [m]) with (map content (x :: k) ++ [content m]).
    rewrite join_snoc by done. by rewrite <- str_app_assoc. }
  rewrite filter_cons_False, filter_nil, app_nil_r by done. fold (system_of l).
  repeat case_decide; try done.
  - rewrite all_said_app, Hs, all_said_one. split; [|split; [|done]].
    + unfold said. simpl. by destruct (tool_calls m).
    + apply Forall_app. split; [done|]. constructor; [by right|done].
  - rewrite push_said, Hs. split; [done|]. split; [by apply push_speaks|done].
  - rewrite all_said_app, Hs. split; [done|]. split; [|done]. apply Forall_app. split; [done|].
    constructor; [by left|done].
Qed.

Lemma merge_one_keeps l m :
  alternating l ∧ Forall speaks l → speaks m →
  (alternating (merge_one l m) ∧ Forall speaks (merge_one l m)) ∧ all_said (merge_one l m) = all_said l ++ said m.
Proof.
  intros [Ha Hf] Hm. unfold merge_one. destruct l as [|x l _] using rev_ind.
  { simpl. rewrite all_said_one. split; [|done]. split; [done|]. by apply Forall_singleton. }
  rewrite last_snoc, removelast_last. apply Forall_app in Hf as [Hf Hx]. rewrite Forall_singleton in Hx. case_decide as Hr.
  - rewrite !all_said_app, !all_said_one. split.
    + split; [by eapply alternating_same_role; [|exact Ha]|]. apply Forall_app. split; [done|]. by apply Forall_singleton.
    + unfold said. simpl. rewrite <- Hr, map_app. by rewrite app_assoc.
  - rewrite (all_said_app _ [m]), all_said_one. split; [|done]. split; [by apply alternating_snoc|].
    rewrite !Forall_app, !Forall_singleton. done.
Qed.

Lemma merge_keeps l :
  Forall speaks l →
  (alternating (merge_consecutive_roles l) ∧ Forall speaks (merge_consecutive_roles l)) ∧
  all_said (merge_consecutive_roles l) = all_said l.
Proof.
  intros Hl. unfold merge_consecutive_roles. induction l as [|m l IH] using rev_ind; [done|].
  apply Forall_app in Hl as [Hl Hm]. rewrite Forall_singleton in Hm. rewrite foldl_app. cbn [foldl].
  destruct (IH Hl) as [Hk He]. destruct (merge_one_keeps _ _ Hk Hm) as [Hk' He']. split; [done|].
  by rewrite He', He, all_said_app, all_said_one.
Qed.

(** C35: what Anthropic is sent for a conversation says what the conversation says and
    nothing else: the text of the system messages apart, every other message's text,
    calls and results in order and under its role, in messages of the user and of the
    assistant by turns.  The arguments of a call are sent as the JSON value they are the
    text of; those that are not JSON are lost (null is sent), as is an empty text beside
    calls. *)
Theorem conversation_is_kept l system msgs :
  convert_messages l = (system, msgs) →
  system = system_of l ∧
  (∃ parts, all_said msgs = concat parts ∧ Forall2 says l parts) ∧
  alternating msgs ∧ Forall speaks msgs.
Proof.
  unfold convert_messages. pose proof (convert_said l) as Hc. destruct (foldl _ _ _) as [system' msgs'].
  destruct Hc as (Hs & Hf & Hy). intros [= <- <-]. destruct (merge_keeps _ Hf) as [[? ?] He].
  split_and!; [done| |done..]. exists (map parts_of l). rewrite He. split; [done|].
  clear. induction l as [|m l IH]; simpl; constructor; [apply parts_said|done].
Qed.
End conversion.

(** ** The local client *)

Section locality.
Context {H : JsonText} {W : Type} (send : HttpRequest → W → W * result HttpReply string).
Context (parse : string → result Url string) (cannot_be_a_base : Url → bool).

(** A web address on this machine. *)
Definition on_this_machine (text : string) : Prop :=
  ∃ u, parse (trim text) = Ok u ∧ (scheme u = "http" ∨ scheme u = "https") ∧
    match host u with
    | Some (Domain d) => to_lowercase d = "localhost" ∨ to_lowercase d = "127.0.0.1" ∨ to_lowercase d = "::1"
    | Some (Ipv4 a _ _ _) => a = 127%Z
    | Some (Ipv6 s) => s = [0; 0; 0; 0; 0; 0; 0; 1]%Z
    | None => False
    end.

Lemma loopback_host h : is_loopback h = true →
  match h with
  | Some (Domain d) => to_lowercase d = "localhost" ∨ to_lowercase d = "127.0.0.1" ∨ to_lowercase d = "::1"
  | Some (Ipv4 a _ _ _) => a = 127%Z
  | Some (Ipv6 s) => s = [0; 0; 0; 0; 0; 0; 0; 1]%Z
  | None => False
  end.
Proof.
  destruct h as [[d|a b c d|s]|]; simpl; [| |by intros ?%bool_decide_eq_true|done].
  - intros Hd. rewrite !orb_true_iff, !bool_decide_eq_true in Hd. destruct Hd as [?|[?|[?|?]]]; auto; done.
  - by intros ?%Z.eqb_eq.
Qed.

Lemma validated_here text s : validate_local_llm_url parse cannot_be_a_base text = Ok s → on_this_machine text.
Proof.
  unfold validate_local_llm_url. destruct (str_is_empty _); [done|].
  destruct (parse (trim text)) as [u|] eqn:Hp; simpl; [|done]. destruct (cannot_be_a_base u); [done|].
  destruct (negb _ && _) eqn:Hs; [done|]. destruct (host_str u); simpl; [|done].
  destruct (is_loopback (host u)) eqn:Hl; [|done]. intros _. exists u. split; [done|]. split; [|by apply loopback_host].
  apply andb_false_iff in Hs as [Hs|Hs]; apply negb_false_iff, bool_decide_eq_true in Hs; auto.
Qed.

(** The local client makes no request for a completion, a stream or a heartbeat, nor to
    connect, unless its address is a web address on this machine. *)
Theorem local_requests_stay_here room into_values p r w :
  w ≠ (Cognitive.complete (local room into_values send parse cannot_be_a_base p) r w).1 ∨
  w ≠ (Cognitive.stream (local room into_values send parse cannot_be_a_base p) r w).1.1 ∨
  w ≠ (heartbeat send parse cannot_be_a_base p w).1 ∨
  w ≠ (connect send parse cannot_be_a_base (local_url p) w).1 →
  on_this_machine (local_url p).
Proof.
  simpl. unfold heartbeat, connect.
  destruct (validate_local_llm_url parse cannot_be_a_base (local_url p)) as [s|e] eqn:Hv; [|simpl; naive_solver].
  intros _. by eapply validated_here.
Qed.

(** The model of a local provider is looked for at any address at all. *)
Theorem model_is_asked_anywhere base w :
  (with_url_auto_model send base w).1
  = (send (mkHttp "GET" (trim_end_matches is_slash base +:+ "/v1/models") [] Null) w).1.
Proof.
  unfold with_url_auto_model, detect_model. destruct (send _ w) as [w1 [r|e]]; [|done].
  destruct (if negb (is_success r) then _ else _); done.
Qed.
End locality.

(** ** Worked streams *)

Module StreamDemo.

(** Data that is the text of a token. *)
Definition token_chunk (s : string) : Value :=
  Obj [("choices", Arr [Obj [("delta", Obj [("content", Str s)])]])].
Definition calls_chunk (l : list Value) : Value :=
  Obj [("choices", Arr [Obj [("delta", Obj [("tool_calls", Arr l)])]])].
Definition call_value (index : option Z) (id name args : string) : Value :=
  Obj (opt_member "index" ((λ n, Num (PosInt n)) <$> index) ++
       [("id", Str id); ("function", Obj [("name", Str name); ("arguments", Str args)])]).

Definition two_calls (indexed : bool) : Value :=
  calls_chunk [call_value (if indexed then Some 0%Z else None) "a" "first" "{}";
               call_value (if indexed then Some 1%Z else None) "b" "second" "[]"].

Definition sse (t : string) (members : list (string * Value)) : Value := Obj (("type", Str t) :: members).

#[local] Instance demo_json : JsonText := {|
  from_str s :=
    if decide (s = "calls") then Ok (two_calls true)
    else if decide (s = "unnumbered") then Ok (two_calls false)
    else if decide (s = "start") then
      Ok (sse "content_block_start" [("index", Num (PosInt 0));
                                     ("content_block", sse "tool_use" [("id", Str "a"); ("name", Str "list")])])
    else if decide (s = "stop") then Ok (sse "content_block_stop" [("index", Num (PosInt 0))])
    else if decide (s = "") then Err "EOF while parsing a value"
    else Ok (token_chunk s);
  to_string _ := "";
|}.

Definition one_order (m : gmap Z Call3) : list Call3 := rev (map_to_list m).*2.
Definition other_order (m : gmap Z Call3) : list Call3 := (map_to_list m).*2.

Definition line (data : string) : string := "data: " +:+ data +:+ nl.
Definition answer (values : gmap Z Call3 → list Call3) (l : list string) : option CompletionResponse :=
  match (read_stream None values ∅ (map Ok l)).2 with Ok r => Some r | Err _ => None end.

Lemma chunks_do_not_matter_witness :
  let l := ["da"; "ta: Hel"; "lo" +:+ nl; line "[DONE]"] in
  let k := [line "Hello" +:+ "data: [DO"; "NE]" +:+ nl] in
  read_stream None one_order ∅ (map Ok l) = read_stream None one_order ∅ (map Ok k) ∧
  read_local_stream None one_order ∅ (map Ok l) = read_local_stream None one_order ∅ (map Ok k) ∧
  read_anthropic_stream None ∅ (map Ok l) = read_anthropic_stream None ∅ (map Ok k).
Proof.
  intros l k. apply (chunks_do_not_matter None one_order ∅ l k).
  - repeat constructor.
  - repeat constructor.
  - vm_compute. reflexivity.
  - intros pre x post He Hx. change (["data: Hello"; "data: [DONE]"] = pre ++ x :: post) in He.
    destruct pre as [|a pre]; [injection He as <- <-; vm_compute in Hx; discriminate|].
    destruct pre as [|b pre]; [injection He as _ _ <-; constructor|]. by destruct pre.
Defined.

Lemma conversation_is_kept_witness :
  let l := [new_message "system" "Be brief."; new_message "user" "Hi"; new_message "user" "there";
            mkMessage "assistant" "" None (Some [mkToolCall "a" "clock::now" "{}"]); tool_result "a" "noon"] in
  let '(system, msgs) := convert_messages l in
  system = Some "Be brief." ∧ (∃ parts, all_said msgs = concat parts ∧ Forall2 says l parts) ∧
  alternating msgs ∧ Forall speaks msgs.
Proof.
  intros l. destruct (convert_messages l) as [system msgs] eqn:Hc. exact (conversation_is_kept l system msgs Hc).
Defined.

Definition here (s : string) : result Url string :=
  Ok (mkUrl s "http" (Some "localhost") (Some (Domain "localhost")) None).

Lemma local_requests_stay_here_witness : on_this_machine here "http://localhost:1234".
Proof.
  apply (local_requests_stay_here (λ _ n, (S n, Err "refused")) here (λ _, false) None one_order
           (mkLocal "http://localhost:1234" "m") ping 0).
  left. vm_compute. discriminate.
Defined.

(** A character that two chunks share is replaced. *)
Theorem shared_character_is_lost :
  let e := String "195"%char "" in let acute := String "169"%char "" in
  answer one_order ["data: caf" +:+ e +:+ acute +:+ nl] = Some (mkResponse ("caf" +:+ e +:+ acute) None) ∧
  answer one_order ["data: caf" +:+ e; acute +:+ nl] = Some (mkResponse ("caf" +:+ replacement +:+ replacement) None).
Proof. vm_compute. done. Qed.

(** A last line that is not ended is not read. *)
Theorem unended_line_is_lost :
  answer one_order [line "Hello"; "data:  world"] = Some (mkResponse "Hello" None).
Proof. vm_compute. done. Qed.

(** The calls come in the order of a hash map, not in theirs. *)
Theorem calls_come_in_any_order :
  (∀ m, one_order m ≡ₚ (map_to_list m).*2) ∧ (∀ m, other_order m ≡ₚ (map_to_list m).*2) ∧
  answer one_order [line "calls"] = Some (mkResponse "" (Some [mkToolCall "a" "first" "{}"; mkToolCall "b" "second" "[]"])) ∧
  answer other_order [line "calls"] = Some (mkResponse "" (Some [mkToolCall "b" "second" "[]"; mkToolCall "a" "first" "{}"])).
Proof.
  split; [intros m; unfold one_order; by rewrite <- Permutation_rev|]. split; [done|]. split; vm_compute; done.
Qed.

(** Calls that a service does not number become one. *)
Theorem unnumbered_calls_merge :
  answer one_order [line "unnumbered"] = Some (mkResponse "" (Some [mkToolCall "b" "second" "{}[]"])).
Proof. vm_compute. done. Qed.

(** A local server that ends its lines with a carriage return and a line feed is not heard. *)
Theorem crlf_server_is_not_heard :
  let crlf := String "013"%char nl in
  let l := ["data: Hello" +:+ crlf +:+ crlf; "data: [DONE]" +:+ crlf +:+ crlf] in
  (read_local_stream None one_order ∅ (map Ok l)).2 = Ok (mkResponse "" None) ∧
  answer one_order l = Some (mkResponse "Hello" None).
Proof. vm_compute. done. Qed.

(** A tool that Anthropic calls without input has no arguments in a streamed reply, and is
    sent back with the input [null]. *)
Theorem call_without_input_becomes_null :
  (read_anthropic_stream None ∅ [Ok (line "start" +:+ line "stop")]).2
  = Ok (mkResponse "" (Some [mkToolCall "a" "list" ""])) ∧
  convert_messages [mkMessage "assistant" "" None (Some [mkToolCall "a" "list" ""])]
  = (None, [mkAMessage "assistant" (Blocks [ToolUse "a" "list" Null])]).
Proof. vm_compute. done. Qed.

(** A conversation that starts with the assistant is sent as it is. *)
Theorem assistant_may_come_first :
  convert_messages [new_message "assistant" "Welcome back."; new_message "user" "Hi"]
  = (None, [mkAMessage "assistant" (Text "Welcome back."); mkAMessage "user" (Text "Hi")]).
Proof. vm_compute. done. Qed.
End StreamDemo.
