(* ===== verification/ProviderChoice.v ===== *)
(** * The choice of a provider ([crates/abigail-hive])

    Which provider backs the Ego of an entity and with which credential ([hive.rs]), the
    strongest one there is ([best_model.rs]), its construction ([provider_registry.rs]),
    the detection of command line tools ([cognitive/cli_provider.rs]), and the registry
    of the models of each provider ([model_registry.rs]).  Then: a key is only used with
    the provider it is stored for, the strongest provider is chosen among those there are,
    the registry keeps what it is given, and where the order of the sources is not the
    documented one. *)

From S2P Require Import Prelude RustStr Paths SkillPolicy SecureFs Vault Cognitive Router Json Config Providers Anthropic.
From Stdlib Require Import ZArith Lia Ascii.
From stdpp Require Import base list strings gmap.

Open Scope rust_scope.

(** ** Command line tools *)

Inductive CliVariant : Type := ClaudeCode | GeminiCli | OpenAiCodex | XaiGrokCli.

#[export] Instance CliVariant_eq_dec : EqDecision CliVariant.
Proof. solve_decision. Defined.

Definition ALL_CLI_VARIANTS : list CliVariant := [ClaudeCode; GeminiCli; OpenAiCodex; XaiGrokCli].

Definition binary_name (v : CliVariant) : string :=
  match v with ClaudeCode => "claude" | GeminiCli => "gemini" | OpenAiCodex => "codex" | XaiGrokCli => "grok" end.
Definition variant_label (v : CliVariant) : string :=
  match v with
  | ClaudeCode => "claude-cli" | GeminiCli => "gemini-cli" | OpenAiCodex => "codex-cli" | XaiGrokCli => "grok-cli"
  end.
Definition official_version_marker (v : CliVariant) : string :=
  match v with ClaudeCode => "claude" | GeminiCli => "gemini" | OpenAiCodex => "codex-cli" | XaiGrokCli => "grok" end.
Definition auth_strategy (v : CliVariant) : option (list string) :=
  match v with
  | ClaudeCode | GeminiCli => Some ["auth"; "status"]
  | OpenAiCodex => Some ["login"; "status"]
  | XaiGrokCli => None
  end.
Definition auth_hint_of (v : CliVariant) : string :=
  match v with
  | ClaudeCode => "Run `claude auth login` to authenticate"
  | GeminiCli => "Run `gemini auth login` to authenticate"
  | OpenAiCodex => "Sign in with `codex login`, then check the connection in Hive"
  | XaiGrokCli => "Check your existing connection in Hive. If needed, sign in with `grok login`"
  end.

Record CliDetectionResult : Type := mkDetection {
  provider_name : string;
  binary : string;
  on_path : bool;
  is_official : bool;
  is_authenticated : bool;
  version : option string;
  auth_hint : option string;
}.

(** What a command that was run for its output gives: its success and the two texts. *)
Record Output : Type := mkOutput { success : bool; stdout : string; stderr : string }.

Section detection.
(** Where a tool is, and what a command of it gives, if it ends in time. *)
Context (resolve_cli_binary : CliVariant → option string) (metadata_output : string → list string → option Output).

Definition check_version_official (bin marker : string) : bool * option string :=
  match metadata_output bin ["--version"] with
  | Some o =>
      if success o then
        let ver := trim (stdout o) in
        (contains (to_lowercase (ver +:+ " " +:+ trim (stderr o))) (to_lowercase marker),
         if str_is_empty ver then None else Some ver)
      else (false, None)
  | None => (false, None)
  end.

Definition check_auth (bin : string) (strategy : option (list string)) : bool :=
  match strategy with
  | Some args => match metadata_output bin args with Some o => success o | None => false end
  | None => false
  end.

Definition detect (v : CliVariant) : CliDetectionResult :=
  match resolve_cli_binary v with
  | None => mkDetection (variant_label v) (binary_name v) false false false None None
  | Some bin =>
      let '(official, ver) := check_version_official bin (official_version_marker v) in
      let official :=
        if bool_decide (v = XaiGrokCli) && official then
          match metadata_output bin ["--help"] with
          | Some o => success o && contains (to_lowercase (stdout o)) "grok build"
          | None => false
          end
        else official in
      let auth := check_auth bin (auth_strategy v) in
      mkDetection (variant_label v) (binary_name v) true official auth ver (if auth then None else Some (auth_hint_of v))
  end.

Definition detect_all_cli_providers : list CliDetectionResult := map detect ALL_CLI_VARIANTS.
End detection.

(** ** Credentials *)

Inductive ProviderAuth : Type := ApiKey (key : string) | System.

Record ProviderSelection : Type := mkSelection { provider : string; auth : ProviderAuth }.

Definition api_key (s : ProviderSelection) : option string :=
  match auth s with ApiKey k => Some k | System => None end.

Record HiveConfig : Type := mkHiveConfig {
  hive_local_url : option string;
  hive_ego : option ProviderSelection;
  hive_ego_model : option string;
  hive_routing_mode : RoutingMode;
  hive_cli_mode : CliPermissionMode;
}.

Definition CLI_PROVIDERS : list string := ["claude-cli"; "gemini-cli"; "codex-cli"; "grok-cli"].
Definition is_cli_provider (name : string) : bool := bool_decide (name ∈ CLI_PROVIDERS).

Definition stored_key (name : string) (v : SecretsVault) : option string :=
  k ← get_secret name v; if str_is_empty (trim k) then None else Some (trim k).
Definition with_key (name : string) (v : SecretsVault) : option ProviderSelection :=
  (λ k, mkSelection name (ApiKey k)) <$> stored_key name v.

(** The first of a list of alternatives. *)
Fixpoint first_some {A} (l : list (option A)) : option A :=
  match l with [] => None | Some a :: _ => Some a | None :: l => first_some l end.

Definition scanned_providers : list string :=
  ["openai"; "google"; "xai"; "perplexity"; "anthropic"; "claude-cli"; "gemini-cli"; "codex-cli"; "grok-cli"].

Definition from_preference (c : AppConfig) (v : SecretsVault) : option ProviderSelection :=
  pref ← active_provider_preference c;
  if is_cli_provider pref then Some (default (mkSelection pref System) (with_key pref v)) else with_key pref v.
Definition from_trinity (c : AppConfig) : option ProviderSelection :=
  t ← trinity c; p ← Config.ego_provider t; k ← ego_api_key t;
  if str_is_empty k then None else Some (mkSelection p (ApiKey k)).
Definition from_openai_key (c : AppConfig) : option ProviderSelection :=
  k ← openai_api_key c; if str_is_empty k then None else Some (mkSelection "openai" (ApiKey k)).

Definition determine_ego_provider (c : AppConfig) (v : SecretsVault) : option ProviderSelection :=
  first_some ([from_preference c v] ++ map (λ n, with_key n v) scanned_providers ++ [from_trinity c; from_openai_key c]).

(** The two vaults; a lock that another thread has poisoned gives its error. *)
Record Hive : Type := mkHive { entity_vault : result SecretsVault string; hive_vault : result SecretsVault string }.

Definition resolve_config (h : Hive) (c : AppConfig) : result HiveConfig string :=
  if decide (active_provider_preference c = Some "local") then
    Ok (mkHiveConfig (local_llm_base_url c) None None (routing_mode c) (cli_permission_mode c))
  else
    let? v := entity_vault h in
    let? ego := match determine_ego_provider c v with
                | Some s => Ok (Some s)
                | None => let? hv := hive_vault h in Ok (determine_ego_provider c hv)
                end in
    Ok (mkHiveConfig (local_llm_base_url c) ego (Config.ego_model c) (routing_mode c) (cli_permission_mode c)).

(** A named profile for a sub-agent; [env] is the environment. *)
Definition env_var_of (name : string) : option string :=
  if decide (name = "openai") then Some "OPENAI_API_KEY"
  else if decide (name = "anthropic") then Some "ANTHROPIC_API_KEY"
  else if decide (name = "perplexity") then Some "PERPLEXITY_API_KEY"
  else if decide (name = "google") then Some "GEMINI_API_KEY"
  else if decide (name = "xai") then Some "XAI_API_KEY"
  else None.

Definition in_vault (name : string) (v : result SecretsVault string) : option ProviderSelection :=
  match v with Ok v => with_key name v | Err _ => None end.

Definition resolve_provider_profile (env : string → option string) (h : Hive) (name : string) : option ProviderSelection :=
  let name := to_lowercase (trim name) in
  if str_is_empty name then None
  else first_some
    [in_vault name (entity_vault h); in_vault name (hive_vault h);
     (var ← env_var_of name; k ← env var;
      if str_is_empty (trim k) then None else Some (mkSelection name (ApiKey (trim k))));
     if is_cli_provider name then Some (mkSelection name System) else None].

(** ** The strongest model *)

Inductive CapabilityTier : Type := Local | Mid | High | Frontier.

Definition tier_rank (t : CapabilityTier) : nat := match t with Local => 0 | Mid => 1 | High => 2 | Frontier => 3 end.
Definition tier_str (t : CapabilityTier) : string :=
  match t with Local => "local" | Mid => "mid" | High => "high" | Frontier => "frontier" end.

Record BestModel : Type := mkBest {
  best_provider : string;
  best_model : option string;
  tier : CapabilityTier;
  reason : string;
}.

Definition api_provider_profile (p : string) : option (CapabilityTier * string) :=
  if decide (p = "anthropic") then Some (Frontier, "claude-sonnet-4-6")
  else if decide (p = "openai") then Some (High, "gpt-4.1")
  else if decide (p = "google") then Some (High, "gemini-2.0-flash")
  else if decide (p = "xai") then Some (High, "grok-2")
  else if decide (p = "perplexity") then Some (Mid, "sonar")
  else None.
Definition cli_provider_tier (p : string) : option CapabilityTier :=
  if decide (p = "claude-cli") then Some Frontier
  else if decide (p ∈ ["codex-cli"; "gemini-cli"; "grok-cli"]) then Some High
  else None.
Definition KNOWN_API_PROVIDERS : list string := ["anthropic"; "openai"; "google"; "xai"; "perplexity"].

Definition is_none {A} (o : option A) : bool := match o with None => true | Some _ => false end.

Definition consider (best : option BestModel) (candidate : BestModel) : option BestModel :=
  match best with
  | None => Some candidate
  | Some current =>
      if (tier_rank (tier current) <? tier_rank (tier candidate))%nat
         || (tier_rank (tier candidate) =? tier_rank (tier current))%nat && is_none (best_model candidate)
            && negb (is_none (best_model current))
      then Some candidate else best
  end.

Definition cli_candidate (d : CliDetectionResult) : option BestModel :=
  if on_path d && is_authenticated d then
    (λ t, mkBest (provider_name d) None t (provider_name d +:+ " is installed and signed in"))
      <$> cli_provider_tier (provider_name d)
  else None.
Definition api_candidate (v : SecretsVault) (p : string) : option BestModel :=
  match stored_key p v with
  | Some _ => (λ x : CapabilityTier * string, mkBest p (Some x.2) x.1 (p +:+ " API key is configured")) <$> api_provider_profile p
  | None => None
  end.

Definition candidates (detected : list CliDetectionResult) (h : Hive) : list BestModel :=
  omap cli_candidate detected ++
  match hive_vault h with Ok v => omap (api_candidate v) KNOWN_API_PROVIDERS | Err _ => [] end.
Definition resolve_best_model (detected : list CliDetectionResult) (h : Hive) : option BestModel :=
  foldl consider None (candidates detected h).

(** ** Construction *)

Inductive Built : Type :=
| BuiltOpenAi (p : OpenAiProvider)
| BuiltAnthropic (p : AnthropicProvider)
| BuiltCompatible (p : OpenAiCompatibleProvider)
| BuiltCli (v : CliVariant) (key : string) (mode : CliPermissionMode)
| BuiltLocal (p : LocalHttpProvider)
| BuiltCandle.

Section build.
(** Whether an HTTP client can be made, and the environment. *)
Context (client : result unit string) (env : string → option string).

Definition openai_with_model (key : option string) (model : string) : result OpenAiProvider string :=
  let key := match key with Some k => Some k | None => env "OPENAI_API_KEY" end in
  match trim <$> key with
  | Some k => if str_is_empty k then Err "OpenAI API key is empty or missing"
              else let? _ := client in Ok (mkOpenAi k model)
  | None => Err "OpenAI API key is empty or missing"
  end.
Definition anthropic_with_model (key model : string) : result AnthropicProvider string :=
  let? _ := map_err (λ e, "Failed to build HTTP client: " +:+ e) client in Ok (mkAnthropic key model).
Definition compatible_with_config (p : CompatibleProvider) (url key model : string) : result OpenAiCompatibleProvider string :=
  let key := trim key in
  if str_is_empty key then Err "API key is empty"
  else let? _ := map_err (λ e, "Failed to create HTTP client: " +:+ e) client in Ok (mkCompatible url key model p).
Definition cli_with_permission_mode (v : CliVariant) (key : string) (mode : CliPermissionMode) : result Built string :=
  if str_is_empty (trim key) then Err ("API key for " +:+ variant_label v +:+ " CLI provider must not be empty")
  else Ok (BuiltCli v key mode).

Record EgoProviderResult : Type := mkEgoResult { ego_built : option Built; ego_kind : option Kind.ProviderKind }.
Definition no_ego : EgoProviderResult := mkEgoResult None None.

(** [.ok()]: the provider and its kind, or neither. *)
Definition built_as {A} (k : Kind.ProviderKind) (wrap : A → Built) (r : result A string) : EgoProviderResult :=
  match r with Ok a => mkEgoResult (Some (wrap a)) (Some k) | Err _ => no_ego end.

Definition compatible_ego (k : Kind.ProviderKind) (p : CompatibleProvider) (key : string) (model : option string)
  : EgoProviderResult :=
  built_as k BuiltCompatible (compatible_with_config p (base_url p) key (default (default_model p) model)).
Definition cli_ego (k : Kind.ProviderKind) (v : CliVariant) (key : string) (mode : CliPermissionMode) : EgoProviderResult :=
  built_as k (λ b, b) (cli_with_permission_mode v key mode).

Definition build_ego_named (name key : string) (model : option string) (mode : CliPermissionMode) : EgoProviderResult :=
  if decide (name = "openai") then
    built_as Kind.OpenAi BuiltOpenAi (openai_with_model (Some key) (default "gpt-4.1" model))
  else if decide (name = "anthropic") then
    built_as Kind.Anthropic BuiltAnthropic (anthropic_with_model key (default "claude-sonnet-4-6" model))
  else if decide (name = "perplexity") then compatible_ego Kind.Perplexity Perplexity key model
  else if decide (name = "xai") then compatible_ego Kind.Xai Xai key model
  else if decide (name = "google") then compatible_ego Kind.Google Google key model
  else if decide (name = "claude-cli") then cli_ego Kind.ClaudeCli ClaudeCode key mode
  else if decide (name = "gemini-cli") then cli_ego Kind.GeminiCli GeminiCli key mode
  else if decide (name = "codex-cli") then cli_ego Kind.CodexCli OpenAiCodex key mode
  else if decide (name = "grok-cli") then cli_ego Kind.GrokCli XaiGrokCli key mode
  else no_ego.

Definition build_ego_with_cli_mode (selection : option ProviderSelection) (model : option string) (mode : CliPermissionMode)
  : EgoProviderResult :=
  match selection with
  | None => no_ego
  | Some s =>
      match (k ← api_key s; if str_is_empty (trim k) then None else Some k) with
      | Some k => build_ego_named (provider s) k model mode
      | None => if is_cli_provider (provider s) then build_ego_named (provider s) "system" model mode else no_ego
      end
  end.

Definition build_ego (name : option string) (key model : option string) : EgoProviderResult :=
  build_ego_with_cli_mode
    ((λ p, mkSelection p (match (k ← key; if str_is_empty (trim k) then None else Some k) with
                          | Some k => ApiKey k
                          | None => System
                          end)) <$> name) model AllowListOnly.

(** [local] is the outcome of making a client for the address of a local server. *)
Record IdProviderResult : Type := mkIdResult { id_built : Built; id_local : option LocalHttpProvider }.
Definition given_url (url : option string) : option string :=
  u ← url; if str_is_empty (trim u) then None else Some u.
Definition id_of (p : LocalHttpProvider) : IdProviderResult :=
  match client with Ok _ => mkIdResult (BuiltLocal p) (Some p) | Err _ => mkIdResult BuiltCandle None end.

Definition build_id (url : option string) : IdProviderResult :=
  match given_url url with Some u => id_of (with_url u) | None => mkIdResult BuiltCandle None end.
Definition build_id_auto_detect {H : JsonText} {W} (send : HttpRequest → W → W * result HttpReply string)
    (url : option string) (w : W) : W * IdProviderResult :=
  match given_url url with
  | Some u => let '(w, p) := with_url_auto_model send u w in (w, id_of p)
  | None => (w, mkIdResult BuiltCandle None)
  end.

Definition superego_fallback (key : string) : Built :=
  match openai_with_model (Some key) "gpt-4.1" with Ok p => BuiltOpenAi p | Err _ => BuiltCandle end.
Definition build_superego (name key : string) : Built :=
  if decide (name = "anthropic") then
    match anthropic_with_model key DEFAULT_MODEL with Ok p => BuiltAnthropic p | Err _ => superego_fallback key end
  else superego_fallback key.

Record HiveProviders : Type := mkHiveProviders {
  built_id : Built;
  built_local_http : option LocalHttpProvider;
  built_ego : option Built;
  built_ego_kind : option Kind.ProviderKind;
  built_routing_mode : RoutingMode;
}.

Definition build_providers {H : JsonText} {W} (send : HttpRequest → W → W * result HttpReply string) (c : HiveConfig) (w : W)
  : W * HiveProviders :=
  let ego := build_ego_with_cli_mode (hive_ego c) (hive_ego_model c) (hive_cli_mode c) in
  let '(w, i) := build_id_auto_detect send (hive_local_url c) w in
  (w, mkHiveProviders (id_built i) (id_local i) (ego_built ego) (ego_kind ego) (hive_routing_mode c)).

Definition build_providers_from_config {H : JsonText} {W} (send : HttpRequest → W → W * result HttpReply string)
    (h : Hive) (c : AppConfig) (w : W) : W * result HiveProviders string :=
  match resolve_config h c with
  | Err e => (w, Err e)
  | Ok hc => let '(w, b) := build_providers send hc w in (w, Ok b)
  end.
End build.

(** [Display] of [ProviderKind]. *)
Definition kind_name (k : Kind.ProviderKind) : string :=
  match k with
  | Kind.OpenAi => "openai" | Kind.Anthropic => "anthropic" | Kind.Perplexity => "perplexity" | Kind.Xai => "xai"
  | Kind.Google => "google" | Kind.ClaudeCli => "claude-cli" | Kind.GeminiCli => "gemini-cli"
  | Kind.CodexCli => "codex-cli" | Kind.GrokCli => "grok-cli"
  end.

(** ** The models of each provider *)

Module Models.

Definition DEFAULT_TTL_SECS : Z := 86400.

Record ProviderModelCache : Type := mkCache {
  cached_provider : string;
  models : list Validation.ModelInfo;
  fetched : string;
}.

Record ModelRegistry : Type := mkRegistry { cache : gmap string ProviderModelCache; ttl_secs : Z }.

Definition new : ModelRegistry := mkRegistry ∅ DEFAULT_TTL_SECS.
Definition with_ttl (ttl : Z) : ModelRegistry := mkRegistry ∅ ttl.
Definition with_cache (f : gmap string ProviderModelCache → gmap string ProviderModelCache) (r : ModelRegistry)
  : ModelRegistry := mkRegistry (f (cache r)) (ttl_secs r).

Definition info_of (e : ProviderCatalogEntry) : Validation.ModelInfo :=
  Validation.mkModelInfo (catalog_model_id e) (if str_is_empty (display_name e) then None else Some (display_name e)) None.

Definition grouped (l : list ProviderCatalogEntry) : gmap string (list Validation.ModelInfo) :=
  foldl (λ m e, <[catalog_provider e := default [] (m !! catalog_provider e) ++ [info_of e]]> m) ∅ l.
Definition timestamps (l : list ProviderCatalogEntry) : gmap string string :=
  foldl (λ m e, match last_fetched e, m !! catalog_provider e with
                | Some ts, None => <[catalog_provider e := ts]> m
                | _, _ => m
                end) ∅ l.

Definition load_from_catalog (now : string) (l : list ProviderCatalogEntry) : ModelRegistry → ModelRegistry :=
  with_cache (λ c, map_imap (λ p ms, Some (mkCache p ms (default now (timestamps l !! p)))) (grouped l) ∪ c).

(** [into_values] is the order of the map. *)
Definition entry_of (c : ProviderModelCache) (m : Validation.ModelInfo) : ProviderCatalogEntry :=
  mkCatalogEntry (cached_provider c) (Validation.model_id m) (default (Validation.model_id m) (Validation.display_name m))
    None (Some (fetched c)).
Definition to_catalog (into_values : gmap string ProviderModelCache → list ProviderModelCache) (r : ModelRegistry)
  : list ProviderCatalogEntry :=
  concat (map (λ c, map (entry_of c) (models c)) (into_values (cache r))).

(** [age]: the seconds since a time, if its text is one. *)
Definition is_expired (age : string → option Z) (ttl : Z) (c : ProviderModelCache) : bool :=
  match age (fetched c) with Some s => (ttl <? s)%Z | None => true end.

Definition refresh_provider (fetch : string → string → result Validation.Listing string) (now provider key : string)
  : M ModelRegistry string ProviderModelCache := λ r,
  match Validation.discover_models fetch provider key with
  | Ok ms => let c := mkCache provider ms now in (with_cache <[provider := c]> r, Ok c)
  | Err e => (r, Err e)
  end.
Definition get_or_refresh (fetch : string → string → result Validation.Listing string) (age : string → option Z)
    (now provider key : string) (r : ModelRegistry) : ModelRegistry * option ProviderModelCache :=
  let needed := match cache r !! provider with Some c => is_expired age (ttl_secs r) c | None => true end in
  let r := if needed then (refresh_provider fetch now provider key r).1 else r in (r, cache r !! provider).

Definition get_cached (provider : string) (r : ModelRegistry) : option ProviderModelCache := cache r !! provider.
Definition has_model (provider id : string) (r : ModelRegistry) : bool :=
  match cache r !! provider with
  | Some c => existsb (λ m, bool_decide (Validation.model_id m = id)) (models c)
  | None => false
  end.
Definition total_models (r : ModelRegistry) : nat := sum_list (map (λ e, length (models e.2)) (map_to_list (cache r))).
Definition clear : ModelRegistry → ModelRegistry := with_cache (λ _, ∅).
End Models.

(** ** Credentials *)

(** Where the key of a provider may come from. *)
Definition own_key (h : Hive) (c : AppConfig) (name key : string) : Prop :=
  (∃ v, (entity_vault h = Ok v ∨ hive_vault h = Ok v) ∧ stored_key name v = Some key) ∨
  (∃ t, trinity c = Some t ∧ Config.ego_provider t = Some name ∧ ego_api_key t = Some key) ∨
  name = "openai" ∧ openai_api_key c = Some key.

(** A selection uses a key of its provider, or is the tool that was asked for. *)
Definition rightful (h : Hive) (c : AppConfig) (s : ProviderSelection) : Prop :=
  match auth s with
  | ApiKey k => own_key h c (provider s) k
  | System => active_provider_preference c = Some (provider s) ∧ is_cli_provider (provider s) = true
  end.

Lemma first_some_elem {A} (l : list (option A)) a : first_some l = Some a → Some a ∈ l.
Proof. induction l as [|[b|] l IH]; simpl; [done|intros [= ->]; by left|]. intros Ha. right. by apply IH. Qed.

Lemma with_key_Some n v s :
  with_key n v = Some s ↔ ∃ k, stored_key n v = Some k ∧ s = mkSelection n (ApiKey k).
Proof.
  unfold with_key. rewrite fmap_Some. done.
Qed.

Lemma selected_rightful h c v s :
  entity_vault h = Ok v ∨ hive_vault h = Ok v → determine_ego_provider c v = Some s → rightful h c s.
Proof.
  intros Hv Hs. assert (∀ n s, with_key n v = Some s → rightful h c s) as Hkey.
  { intros n x (k & Hk & ->)%with_key_Some. left. eauto. }
  apply first_some_elem in Hs. rewrite !elem_of_app in Hs.
  destruct Hs as [Hs|[Hs|Hs]].
  - apply list_elem_of_singleton in Hs. symmetry in Hs. unfold from_preference in Hs.
    apply bind_Some in Hs as (pref & Hp & Hs). destruct (is_cli_provider pref) eqn:Hcli; [|by eapply Hkey].
    injection Hs as <-. destruct (with_key pref v) as [x|] eqn:Hw; [by eapply Hkey|]. done.
  - apply list_elem_of_map in Hs as (n & Hn & _). symmetry in Hn. by eapply Hkey.
  - apply elem_of_cons in Hs as [Hs|Hs%list_elem_of_singleton]; symmetry in Hs.
    + unfold from_trinity in Hs. apply bind_Some in Hs as (t & Ht & Hs). apply bind_Some in Hs as (p & Hp & Hs).
      apply bind_Some in Hs as (k & Hk & Hs). destruct (str_is_empty k); [done|]. injection Hs as <-.
      right. left. eauto.
    + unfold from_openai_key in Hs. apply bind_Some in Hs as (k & Hk & Hs). destruct (str_is_empty k); [done|].
      injection Hs as <-. right. right. done.
Qed.

Lemma resolved_rightful h c hc s :
  resolve_config h c = Ok hc → hive_ego hc = Some s → active_provider_preference c ≠ Some "local" ∧ rightful h c s.
Proof.
  unfold resolve_config. case_decide as Hl; [by intros [= <-]|].
  destruct (entity_vault h) as [v|] eqn:Hv; simpl; [|done].
  destruct (determine_ego_provider c v) as [x|] eqn:Hd.
  - intros [= <-] [= <-]. split; [done|]. eapply selected_rightful; [|exact Hd]. by left.
  - destruct (hive_vault h) as [hv|] eqn:Hh; simpl; [|done]. intros [= <-] Hx. split; [done|].
    eapply selected_rightful; [|exact Hx]. by right.
Qed.

(** The key in a client. *)
Definition key_of (b : Built) : option string :=
  match b with
  | BuiltOpenAi p => Some (openai_key p)
  | BuiltAnthropic p => Some (anthropic_key p)
  | BuiltCompatible p => Some (compatible_key p)
  | BuiltCli _ k _ => Some k
  | BuiltLocal _ | BuiltCandle => None
  end.

(** Where the service of each name is, and the tool of each name. *)
Definition endpoint : list (string * string) :=
  [("openai", "https://api.openai.com/v1/chat/completions");
   ("anthropic", "https://api.anthropic.com/v1/messages");
   ("perplexity", "https://api.perplexity.ai/chat/completions");
   ("xai", "https://api.x.ai/v1/chat/completions");
   ("google", "https://generativelanguage.googleapis.com/v1beta/openai/chat/completions")].
Definition tool_named : list (string * CliVariant) :=
  [("claude-cli", ClaudeCode); ("gemini-cli", GeminiCli); ("codex-cli", OpenAiCodex); ("grok-cli", XaiGrokCli)].

(** The URL a client sends a request to. *)
Definition url_of {H : JsonText} (p : Built) (stream : bool) (r : CompletionRequest Value) : option string :=
  match p with
  | BuiltOpenAi q => Some (Providers.url (openai_post q stream r))
  | BuiltAnthropic q => Some (Providers.url (anthropic_post q stream r))
  | BuiltCompatible q => Some (Providers.url (compatible_post q stream r))
  | _ => None
  end.

Section built.
Context (client : result unit string) (env : string → option string).
Context {H : JsonText}.

(** The client of a name: all its requests go to the service of that name, or it runs
    the tool of that name. *)
Definition client_of (name : string) (p : Built) : Prop :=
  (∃ url, (name, url) ∈ endpoint ∧ ∀ stream r, url_of p stream r = Some url) ∨
  ∃ v k mode, (name, v) ∈ tool_named ∧ p = BuiltCli v k mode.

Definition built_with (name key : string) (e : EgoProviderResult) : Prop :=
  e = no_ego ∨ ∃ b k, e = mkEgoResult (Some b) (Some k) ∧ kind_name k = name ∧ client_of name b ∧
    (key_of b = Some key ∨ key_of b = Some (trim key)).

Lemma openai_key_is k m p : openai_with_model client env (Some k) m = Ok p → openai_key p = trim k.
Proof. unfold openai_with_model. simpl. destruct (str_is_empty _); [done|]. destruct client; simpl; [|done]. by intros [= <-]. Qed.
Lemma anthropic_key_is k m p : anthropic_with_model client k m = Ok p → anthropic_key p = k.
Proof. unfold anthropic_with_model. destruct client; simpl; [|done]. by intros [= <-]. Qed.
Lemma compatible_key_is c u k m p : compatible_with_config client c u k m = Ok p → compatible_key p = trim k.
Proof. unfold compatible_with_config. destruct (str_is_empty _); [done|]. destruct client; simpl; [|done]. by intros [= <-]. Qed.

Lemma openai_client k m p : openai_with_model client env k m = Ok p → client_of "openai" (BuiltOpenAi p).
Proof. intros _. left. eexists. split; [by left|done]. Qed.
Lemma anthropic_client k m p : anthropic_with_model client k m = Ok p → client_of "anthropic" (BuiltAnthropic p).
Proof. intros _. left. eexists. split; [right; by left|done]. Qed.
Lemma compatible_client c k m p :
  c ≠ Custom → compatible_with_config client c (base_url c) k m = Ok p →
  client_of (compatible_label c) (BuiltCompatible p).
Proof.
  intros Hc. unfold compatible_with_config. destruct (str_is_empty _); [done|]. destruct client; simpl; [|done].
  intros [= <-]. left.
  destruct c; [exists "https://api.perplexity.ai/chat/completions"|exists "https://api.x.ai/v1/chat/completions"
    |exists "https://generativelanguage.googleapis.com/v1beta/openai/chat/completions"|done];
    (split; [decide_closed|by intros stream r]).
Qed.
Lemma cli_client name v k mode b :
  (name, v) ∈ tool_named → cli_with_permission_mode v k mode = Ok b → client_of name b.
Proof.
  intros Hv. unfold cli_with_permission_mode. destruct (str_is_empty _); [done|]. intros [= <-]. right. eauto.
Qed.

Lemma built_as_with {A} k (wrap : A → Built) (r : result A string) name key :
  kind_name k = name → (∀ a, r = Ok a → client_of name (wrap a)) → (∀ a, r = Ok a → key_of (wrap a) = Some key ∨ key_of (wrap a) = Some (trim key)) →
  built_with name key (built_as k wrap r).
Proof.
  intros Hk Hc Hr. destruct r as [a|e]; [|by left]. right. exists (wrap a), k.
  split_and!; [done|done|by apply Hc|by apply Hr].
Qed.

Lemma build_named name key model mode : built_with name key (build_ego_named client env name key model mode).
Proof.
  unfold build_ego_named, compatible_ego, cli_ego. repeat case_decide; subst; try (by left); apply built_as_with; try done;
    intros a Ha; simpl.
  1: by eapply openai_client.
  1: right; by rewrite (openai_key_is _ _ _ Ha).
  1: by eapply anthropic_client.
  1: left; by rewrite (anthropic_key_is _ _ _ Ha).
  1: by apply (compatible_client Perplexity) in Ha.
  2: by apply (compatible_client Xai) in Ha.
  3: by apply (compatible_client Google) in Ha.
  1-3: right; by rewrite (compatible_key_is _ _ _ _ _ Ha).
  1, 3, 5, 7: eapply cli_client; [|exact Ha]; decide_closed.
  all: unfold cli_with_permission_mode in Ha; destruct (str_is_empty _); [done|]; injection Ha as <-; by left.
Qed.

Lemma build_selected s model mode :
  built_with (provider s) (match api_key s with Some k => if str_is_empty (trim k) then "system" else k | None => "system" end)
    (build_ego_with_cli_mode client env (Some s) model mode).
Proof.
  unfold build_ego_with_cli_mode. destruct (api_key s) as [k|]; simpl; [destruct (str_is_empty (trim k))|];
    try (destruct (is_cli_provider (provider s)); [|by left]); apply build_named.
Qed.

Lemma build_without_key s model mode b :
  ego_built (build_ego_with_cli_mode client env (Some s) model mode) = Some b →
  (∀ k, api_key s = Some k → str_is_empty (trim k) = true) → is_cli_provider (provider s) = true.
Proof.
  unfold build_ego_with_cli_mode. intros Hb Hk. destruct (api_key s) as [k|]; simpl in Hb;
    [rewrite (Hk k eq_refl) in Hb|]; by destruct (is_cli_provider (provider s)).
Qed.

Lemma build_kind s model mode :
  let e := build_ego_with_cli_mode client env s model mode in is_Some (ego_built e) ↔ is_Some (ego_kind e).
Proof.
  destruct s as [s|]; [|by split; intros [? [=]]].
  destruct (build_selected s model mode) as [-> |(b & k & -> & _)]; simpl; [split; intros [? [=]]|].
  split; by eexists.
Qed.

Context {W : Type} (send : HttpRequest → W → W * result HttpReply string).

(** C14: the Ego of an entity is never given the key of another provider: whatever is
    configured, the client that is built is the one of the provider selected (all the
    requests it makes are to that provider's service, or it runs that provider's tool)
    and is labelled so, with a key stored for that provider, or is the command line tool the
    entity asked for by name, with the credentials of the tool (as is a tool whose stored
    key is blank).  An entity that asks for
    its local model gets none. *)
Theorem ego_key_is_its_own h c w w' b p :
  build_providers_from_config client env send h c w = (w', Ok b) → built_ego b = Some p →
  active_provider_preference c ≠ Some "local" ∧
  ∃ s k, rightful h c s ∧ built_ego_kind b = Some k ∧ kind_name k = provider s ∧
    client_of (provider s) p ∧
    match auth s with
    | ApiKey key => key_of p = Some key ∨ key_of p = Some (trim key) ∨
                    key_of p = Some "system" ∧ str_is_empty (trim key) = true ∧ is_cli_provider (provider s) = true
    | System => key_of p = Some "system"
    end.
Proof.
  unfold build_providers_from_config. destruct (resolve_config h c) as [hc|] eqn:Hr; [|done].
  unfold build_providers. destruct (build_id_auto_detect _ _ _ w) as [w1 i]. intros [= _ <-]. simpl. intros Hb.
  destruct (hive_ego hc) as [s|] eqn:Hs; [|done].
  destruct (resolved_rightful _ _ _ _ Hr Hs) as [Hl Hown]. split; [done|].
  destruct (build_selected s (hive_ego_model hc) (hive_cli_mode hc)) as [He|(b' & k & He & Hk & Hcl & Hkey)].
  - rewrite He in Hb. done.
  - pose proof (build_without_key s (hive_ego_model hc) (hive_cli_mode hc) p Hb) as Hcli.
    rewrite He in Hb |- *. injection Hb as <-. exists s, k. split_and!; [done..|]. unfold api_key in Hkey, Hcli.
    destruct (auth s) as [key|].
    + destruct (str_is_empty (trim key)) eqn:Hbl; [|destruct Hkey; auto].
      right. right. split; [|split; [done|apply Hcli; by intros x [= <-]]]. destruct Hkey as [?|Hkey]; [done|]. by vm_compute in Hkey |- *.
    + destruct Hkey as [?|Hkey]; [done|]. by vm_compute in Hkey |- *.
Qed.
End built.

(** ** The strongest provider *)

Definition stronger (a b : BestModel) : Prop :=
  tier_rank (tier b) < tier_rank (tier a) ∨
  tier_rank (tier b) = tier_rank (tier a) ∧ (best_model b = None → best_model a = None).

Lemma consider_keeps best b l :
  (∀ c, c ∈ l → stronger best c) → best ∈ l →
  ∃ best', consider (Some best) b = Some best' ∧ best' ∈ l ++ [b] ∧ ∀ c, c ∈ l ++ [b] → stronger best' c.
Proof.
  intros Hl Hb. unfold consider. destruct (_ || _) eqn:Hc.
  - exists b. split; [done|]. split; [apply elem_of_app; right; by left|].
    apply orb_true_iff in Hc as [Hc%Nat.ltb_lt|[[He%Nat.eqb_eq Hn]%andb_true_iff Hs]%andb_true_iff];
      intros c [Hx|Hx%list_elem_of_singleton]%elem_of_app; subst; try (right; by split).
    + left. destruct (Hl c Hx) as [?|[? _]]; lia.
    + destruct (best_model b) eqn:Hm; [done|]. destruct (Hl c Hx) as [?|[? _]]; [left; lia|right]. split; [lia|done].
  - exists best. split; [done|]. split; [apply elem_of_app; by left|].
    apply orb_false_iff in Hc as [Hc%Nat.ltb_ge He].
    intros c [Hx|Hx%list_elem_of_singleton]%elem_of_app; [by apply Hl|]. subst.
    destruct (decide (tier_rank (tier b) = tier_rank (tier best))) as [Heq|]; [right|left; lia].
    split; [done|]. intros Hn. rewrite Heq, Nat.eqb_refl, Hn in He. simpl in He.
    destruct (best_model best); [done|]. done.
Qed.

(** The provider a home is pinned to is one it has and as strong as any it has; among
    the strongest it is one without an API key, if there is one.  There is none only when
    the home has no provider. *)
Theorem best_model_is_strongest detected h :
  match resolve_best_model detected h with
  | Some b => b ∈ candidates detected h ∧ ∀ c, c ∈ candidates detected h → stronger b c
  | None => candidates detected h = []
  end.
Proof.
  unfold resolve_best_model. induction (candidates detected h) as [|b l IH] using rev_ind; [done|].
  rewrite foldl_app. cbn [foldl]. destruct (foldl consider None l) as [best|].
  - destruct IH as [Hb Hl]. destruct (consider_keeps best b l Hl Hb) as (best' & -> & ?). done.
  - subst l. simpl. split; [by left|]. intros c ->%list_elem_of_singleton. right. by split.
Qed.

(** ** The registry of models *)

Section catalog.
Import Models.

(** An entry as it comes back. *)
Definition reread (now : string) (l : list ProviderCatalogEntry) (e : ProviderCatalogEntry) : ProviderCatalogEntry :=
  mkCatalogEntry (catalog_provider e) (catalog_model_id e)
    (if str_is_empty (display_name e) then catalog_model_id e else display_name e) None
    (Some (default now (timestamps l !! catalog_provider e))).

Definition listed (ts : string → string) (m : gmap string (list Validation.ModelInfo)) : list ProviderCatalogEntry :=
  concat (map (λ e : string * list Validation.ModelInfo, map (entry_of (mkCache e.1 e.2 (ts e.1))) e.2) (map_to_list m)).

Lemma listed_entry p ms ms' t : entry_of (mkCache p ms t) = entry_of (mkCache p ms' t).
Proof. done. Qed.

Lemma concat_map_perm {A B} (f : A → list B) l k : l ≡ₚ k → concat (map f l) ≡ₚ concat (map f k).
Proof. induction 1; simpl; [done|by f_equiv| |by etrans]. rewrite !app_assoc. f_equiv. apply Permutation_app_comm. Qed.

Lemma listed_insert ts m p x :
  listed ts (<[p := default [] (m !! p) ++ [x]]> m) ≡ₚ listed ts m ++ [entry_of (mkCache p [] (ts p)) x].
Proof.
  unfold listed. set (f := λ e : string * list Validation.ModelInfo, map (entry_of (mkCache e.1 e.2 (ts e.1))) e.2).
  destruct (m !! p) as [ms|] eqn:Hp; simpl.
  - rewrite <- insert_delete_eq. rewrite (concat_map_perm f _ _ (map_to_list_insert _ _ _ (lookup_delete_eq _ _))).
    rewrite <- (concat_map_perm f _ _ (map_to_list_delete _ _ _ Hp)). cbn [map concat].
    change (f (p, ms ++ [x])) with (map (entry_of (mkCache p [] (ts p))) (ms ++ [x])).
    change (f (p, ms)) with (map (entry_of (mkCache p [] (ts p))) ms).
    rewrite map_app, <- !app_assoc. f_equiv. apply Permutation_app_comm.
  - rewrite (concat_map_perm f _ _ (map_to_list_insert _ _ _ Hp)). cbn [map concat]. apply Permutation_app_comm.
Qed.

Lemma imap_to_list {A B} (g : string → A → B) (m : gmap string A) :
  map_to_list (map_imap (λ k a, Some (g k a)) m) ≡ₚ map (λ e, (e.1, g e.1 e.2)) (map_to_list m).
Proof.
  apply NoDup_Permutation.
  - apply NoDup_map_to_list.
  - apply (NoDup_fmap_1 fst). rewrite <- list_fmap_compose. apply NoDup_fst_map_to_list.
  - intros [k b]. rewrite elem_of_map_to_list, map_lookup_imap, bind_Some, list_elem_of_map. split.
    + intros (a & Ha & [= <-]). exists (k, a). split; [done|]. by apply elem_of_map_to_list.
    + intros ([k' a] & [= -> ->] & Ha). exists a. split; [by apply elem_of_map_to_list|done].
Qed.

Lemma listed_grouped ts l :
  listed ts (grouped l)
  ≡ₚ map (λ e, entry_of (mkCache (catalog_provider e) [] (ts (catalog_provider e))) (info_of e)) l.
Proof.
  unfold grouped. induction l as [|e l IH] using rev_ind; [done|]. rewrite foldl_app, map_app. cbn [foldl].
  by rewrite listed_insert, IH.
Qed.

(** The catalog that an empty registry was filled with comes back from it: every entry,
    with its provider and model, in some order; a missing name becomes the model's id, and
    the time is the first one given for the provider. *)
Theorem catalog_comes_back now into_values l :
  (∀ m, into_values m ≡ₚ (map_to_list m).*2) →
  to_catalog into_values (load_from_catalog now l new) ≡ₚ map (reread now l) l.
Proof.
  intros Hi. unfold to_catalog, load_from_catalog, with_cache, new. simpl. rewrite map_union_empty.
  rewrite (concat_map_perm _ _ _ (Hi _)). set (ts := λ p, default now (timestamps l !! p)).
  transitivity (listed ts (grouped l)).
  - etrans; [apply concat_map_perm, fmap_Permutation, (imap_to_list (λ p ms, mkCache p ms (ts p)))|].
    apply reflexive_eq. unfold listed. f_equal. change (@fmap list _) with (@map). by rewrite !map_map.
  - rewrite listed_grouped. apply reflexive_eq, map_ext. intros e. unfold entry_of, info_of, reread. simpl.
    by destruct (str_is_empty (display_name e)).
Qed.
End catalog.

(** ** Worked homes *)

Module Home.

Definition vault (l : list (string * string)) : result SecretsVault string :=
  Ok (mkSecrets [] "secrets" (list_to_map l)).

Definition config (pref : option string) (t : option TrinityConfig) (key model : option string) : AppConfig := mkAppConfig
  CONFIG_SCHEMA_VERSION [] [] [] [] key None false None None None EgoPrimary t None None false [] default_trust_policy
  [] [] None [] pref model [] true None false 0%Z None None false true false true false [] ∅ 3%Z None AllowListOnly
  InProcess default_hive_daemon_url default_entity_daemon_url None None DesktopOperator.

Definition ego_of (h : Hive) (c : AppConfig) : option ProviderSelection :=
  match resolve_config h c with Ok hc => hive_ego hc | Err _ => None end.
Definition api (name key : string) : ProviderSelection := mkSelection name (ApiKey key).

#[local] Instance no_json : JsonText := {| from_str _ := Err ""; to_string _ := "" |}.
Definition no_net (r : HttpRequest) (n : nat) : nat * result HttpReply string := (S n, Err "refused").
Definition build h c := build_providers_from_config (Ok tt) (λ _, None) no_net h c 0.

Definition home : Hive := mkHive (vault [("xai", " x-key ")]) (vault [("anthropic", "a-key")]).

Lemma ego_key_is_its_own_witness :
  active_provider_preference (config None None None None) ≠ Some "local" ∧
  ∃ s k, rightful home (config None None None None) s ∧ Some Kind.Xai = Some k ∧ kind_name k = provider s ∧
    client_of (provider s) (BuiltCompatible (mkCompatible (base_url Xai) "x-key" (default_model Xai) Xai)) ∧
    match auth s with
    | ApiKey key => Some "x-key" = Some key ∨ Some "x-key" = Some (trim key) ∨
                    Some "x-key" = Some "system" ∧ str_is_empty (trim key) = true ∧ is_cli_provider (provider s) = true
    | System => Some "x-key" = Some "system"
    end.
Proof.
  apply (ego_key_is_its_own (Ok tt) (λ _, None) no_net home (config None None None None) 0 0
    (mkHiveProviders BuiltCandle None (Some (BuiltCompatible (mkCompatible (base_url Xai) "x-key" (default_model Xai) Xai)))
       (Some Kind.Xai) EgoPrimary)
    (BuiltCompatible (mkCompatible (base_url Xai) "x-key" (default_model Xai) Xai))); vm_compute; reflexivity.
Defined.

Lemma catalog_comes_back_witness :
  let l := [mkCatalogEntry "openai" "gpt-4.1" "" None (Some "t1"); mkCatalogEntry "xai" "grok-4" "Grok 4" None None;
            mkCatalogEntry "openai" "gpt-5" "GPT 5" None (Some "t2")] in
  Models.to_catalog (λ m, (map_to_list m).*2) (Models.load_from_catalog "now" l Models.new) ≡ₚ map (reread "now" l) l.
Proof. intros l. apply (catalog_comes_back "now" (λ m, (map_to_list m).*2) l). reflexivity. Defined.

(** A key of the legacy configuration goes before the vault of the home. *)
Theorem legacy_key_before_home_vault :
  ego_of (mkHive (vault []) (vault [("anthropic", "a-key")]))
    (config None (Some (mkTrinity None (Some "google") (Some "old-key"))) None None)
  = Some (api "google" "old-key").
Proof. vm_compute. done. Qed.

(** The preferred provider, whose key is in the vault of the home, is left for any other
    whose key is in that of the entity. *)
Theorem preference_loses_to_entity_vault :
  ego_of (mkHive (vault [("openai", "o-key")]) (vault [("anthropic", "a-key")])) (config (Some "anthropic") None None None)
  = Some (api "openai" "o-key").
Proof. vm_compute. done. Qed.

(** A blank legacy key is selected, so that the home's own is not looked for, and nothing
    is built with it. *)
Theorem blank_key_hides_the_others :
  let h := mkHive (vault []) (vault [("anthropic", "a-key")]) in
  let c := config None (Some (mkTrinity None (Some "google") (Some " "))) None None in
  ego_of h c = Some (api "google" " ") ∧
  match (build h c).2 with Ok b => built_ego b = None | Err _ => False end.
Proof. vm_compute. done. Qed.

(** The configured model is used with whichever provider is selected. *)
Theorem model_follows_another_provider :
  let c := config (Some "openai") None None (Some "gpt-4.1") in
  match (build (mkHive (vault []) (vault [("anthropic", "a-key")])) c).2 with
  | Ok b => built_ego b = Some (BuiltAnthropic (mkAnthropic "a-key" "gpt-4.1"))
  | Err _ => False
  end.
Proof. vm_compute. done. Qed.

(** The models of the ranking are not those a provider is built with. *)
Theorem ranked_models_differ :
  snd <$> api_provider_profile "google" ≠ Some (default_model Google) ∧
  snd <$> api_provider_profile "xai" ≠ Some (default_model Xai) ∧
  snd <$> api_provider_profile "perplexity" ≠ Some (default_model Perplexity).
Proof. split_and!; vm_compute; done. Qed.

(** A tool that is not the official one is as good as any. *)
Theorem unofficial_tool_is_chosen :
  best_provider <$> resolve_best_model [mkDetection "claude-cli" "claude" true false true (Some "0.1") None] home
  = Some "claude-cli".
Proof. vm_compute. done. Qed.
End Home.
