(* ===== verification/Crystallization.v ===== *)
(** * Soul crystallization ([crates/abigail-soul-crystallization])

    The profile of the mentor ([models.rs]), the ethical weights made of it
    ([ethics_calibrator.rs]) and the engine that drives the conversation
    ([engine.rs]).  Numbers are [SpecFloat]'s binary64.  A hash map is a [gmap]; the
    order in which its values are added up is a parameter, as is the reading of a
    decimal number.  Then what every use of the engine keeps, how it ends, what of an
    answer counts, and where the scores leave their range. *)

From S2P Require Import Prelude RustStr Cognitive Json Config.
From Stdlib Require Import ZArith Lia SpecFloat.
From stdpp Require Import base list strings gmap.

Open Scope rust_scope.

(** ** [f64] *)

Definition f64 : Type := spec_float.
Definition f64_add : f64 → f64 → f64 := SFadd 53 1024.
Definition f64_sub : f64 → f64 → f64 := SFsub 53 1024.
Definition f64_mul : f64 → f64 → f64 := SFmul 53 1024.
Definition f64_div : f64 → f64 → f64 := SFdiv 53 1024.
Definition f64_gt (a b : f64) : bool := SFltb b a.
Definition f64_ge (a b : f64) : bool := SFleb b a.

(** [f64::min] and [f64::max]: the other operand when one is NaN. *)
Definition f64_min (a b : f64) : f64 :=
  match a, b with
  | S754_nan, _ => b
  | _, S754_nan => a
  | _, _ => if SFltb b a then b else a
  end.
Definition f64_max (a b : f64) : f64 :=
  match a, b with
  | S754_nan, _ => b
  | _, S754_nan => a
  | _, _ => if SFltb a b then b else a
  end.

Definition f64_of_Z (n : Z) : f64 := binary_normalize 53 1024 n 0 false.
Definition f64_lit (n d : Z) : f64 := f64_div (f64_of_Z n) (f64_of_Z d).

(** [Iterator::sum], which starts from negative zero. *)
Definition f64_sum (l : list f64) : f64 := foldl f64_add (S754_zero true) l.

Definition zero : f64 := S754_zero false.
Definition one : f64 := Eval vm_compute in f64_of_Z 1.
Definition half : f64 := Eval vm_compute in f64_lit 1 2.

(** ** The profile ([models.rs]) *)

Inductive DepthLevel : Type := QuickStart | ConversationDepth | DeepDive.
Inductive CrystallizationPhase : Type := Spark | Conversation | Mirror | Forge | SoulGeneration | Complete.
Inductive AttachmentStyle : Type := Secure | Anxious | Avoidant | Disorganized.
Inductive ThinkingMode : Type := Analytical | Intuitive | Integrated.

#[export] Instance depth_eq_dec : EqDecision DepthLevel.
Proof. solve_decision. Defined.
#[export] Instance phase_eq_dec : EqDecision CrystallizationPhase.
Proof. solve_decision. Defined.
#[export] Instance attachment_eq_dec : EqDecision AttachmentStyle.
Proof. solve_decision. Defined.

Definition label (d : DepthLevel) : string :=
  match d with QuickStart => "Quick Start" | ConversationDepth => "Conversation" | DeepDive => "Deep Dive" end.
Definition estimated_time (d : DepthLevel) : string :=
  match d with QuickStart => "~30 seconds" | ConversationDepth => "3-5 minutes" | DeepDive => "10-15 minutes" end.

Record OceanScores : Type := mkOcean {
  openness : f64;
  conscientiousness : f64;
  extraversion : f64;
  agreeableness : f64;
  neuroticism : f64;
}.

Record MoralFoundations : Type := mkMoral {
  care : f64;
  fairness : f64;
  loyalty : f64;
  authority : f64;
  sanctity : f64;
  liberty : f64;
}.

Record CognitiveStyle : Type := mkStyle {
  thinking_mode : ThinkingMode;
  precision_vs_speed : f64;
  breadth_vs_depth : f64;
}.

Record CommunicationPreference : Type := mkPreference { pref_dimension : string; pref_value : string }.

Record TriangleEthicWeights : Type := mkEthic {
  deontological : f64;
  areteological : f64;
  teleological : f64;
}.

Record Signal : Type := mkSignal {
  instrument : string;
  dimension : string;
  value : f64;
  confidence : f64;
  reasoning : string;
}.

Record ConversationTurn : Type := mkTurn {
  turn_role : string;
  turn_content : string;
  signals : list Signal;
}.

Record MentorProfile : Type := mkProfile {
  ocean : OceanScores;
  ocean_confidence : gmap string f64;
  moral_foundations : MoralFoundations;
  moral_foundations_confidence : gmap string f64;
  attachment_style : AttachmentStyle;
  attachment_confidence : f64;
  cognitive_style : CognitiveStyle;
  communication_preferences : list CommunicationPreference;
  ethics_weights : TriangleEthicWeights;
  mirror_text : option string;
  name_choice : option string;
  raw_signals : list Signal;
  profile_depth : DepthLevel;
  profile_turn_count : nat;
  timestamp : option string;
}.

Definition neutral_ocean : OceanScores := mkOcean half half half half half.
Definition neutral_moral : MoralFoundations := mkMoral half half half half half half.
Definition neutral_style : CognitiveStyle := mkStyle Integrated half half.

Definition default_ethic : TriangleEthicWeights :=
  let third := f64_lit 1 3 in mkEthic third third third.

Definition weight_sum (w : TriangleEthicWeights) : f64 :=
  f64_add (f64_add (deontological w) (areteological w)) (teleological w).

Definition normalize (w : TriangleEthicWeights) : TriangleEthicWeights :=
  let sum := weight_sum w in
  if f64_gt sum zero
  then mkEthic (f64_div (deontological w) sum) (f64_div (areteological w) sum) (f64_div (teleological w) sum)
  else default_ethic.

Definition new_profile (depth : DepthLevel) : MentorProfile :=
  mkProfile neutral_ocean ∅ neutral_moral ∅ Secure zero neutral_style [] default_ethic None None [] depth 0 None.

(** Updates of one field. *)

Definition with_ocean (o : OceanScores) (c : gmap string f64) (p : MentorProfile) : MentorProfile :=
  mkProfile o c (moral_foundations p) (moral_foundations_confidence p) (attachment_style p)
    (attachment_confidence p) (cognitive_style p) (communication_preferences p) (ethics_weights p)
    (mirror_text p) (name_choice p) (raw_signals p) (profile_depth p) (profile_turn_count p) (timestamp p).
Definition with_moral (m : MoralFoundations) (c : gmap string f64) (p : MentorProfile) : MentorProfile :=
  mkProfile (ocean p) (ocean_confidence p) m c (attachment_style p)
    (attachment_confidence p) (cognitive_style p) (communication_preferences p) (ethics_weights p)
    (mirror_text p) (name_choice p) (raw_signals p) (profile_depth p) (profile_turn_count p) (timestamp p).
Definition with_attachment (s : AttachmentStyle) (c : f64) (p : MentorProfile) : MentorProfile :=
  mkProfile (ocean p) (ocean_confidence p) (moral_foundations p) (moral_foundations_confidence p) s
    c (cognitive_style p) (communication_preferences p) (ethics_weights p)
    (mirror_text p) (name_choice p) (raw_signals p) (profile_depth p) (profile_turn_count p) (timestamp p).
Definition with_style (s : CognitiveStyle) (p : MentorProfile) : MentorProfile :=
  mkProfile (ocean p) (ocean_confidence p) (moral_foundations p) (moral_foundations_confidence p)
    (attachment_style p) (attachment_confidence p) s (communication_preferences p) (ethics_weights p)
    (mirror_text p) (name_choice p) (raw_signals p) (profile_depth p) (profile_turn_count p) (timestamp p).
Definition with_ethics (w : TriangleEthicWeights) (p : MentorProfile) : MentorProfile :=
  mkProfile (ocean p) (ocean_confidence p) (moral_foundations p) (moral_foundations_confidence p)
    (attachment_style p) (attachment_confidence p) (cognitive_style p) (communication_preferences p) w
    (mirror_text p) (name_choice p) (raw_signals p) (profile_depth p) (profile_turn_count p) (timestamp p).
Definition with_mirror (t : option string) (p : MentorProfile) : MentorProfile :=
  mkProfile (ocean p) (ocean_confidence p) (moral_foundations p) (moral_foundations_confidence p)
    (attachment_style p) (attachment_confidence p) (cognitive_style p) (communication_preferences p)
    (ethics_weights p) t (name_choice p) (raw_signals p) (profile_depth p) (profile_turn_count p) (timestamp p).
Definition with_raw (l : list Signal) (p : MentorProfile) : MentorProfile :=
  mkProfile (ocean p) (ocean_confidence p) (moral_foundations p) (moral_foundations_confidence p)
    (attachment_style p) (attachment_confidence p) (cognitive_style p) (communication_preferences p)
    (ethics_weights p) (mirror_text p) (name_choice p) l (profile_depth p) (profile_turn_count p) (timestamp p).
Definition with_turns (n : nat) (p : MentorProfile) : MentorProfile :=
  mkProfile (ocean p) (ocean_confidence p) (moral_foundations p) (moral_foundations_confidence p)
    (attachment_style p) (attachment_confidence p) (cognitive_style p) (communication_preferences p)
    (ethics_weights p) (mirror_text p) (name_choice p) (raw_signals p) (profile_depth p) n (timestamp p).
Definition with_timestamp (t : option string) (p : MentorProfile) : MentorProfile :=
  mkProfile (ocean p) (ocean_confidence p) (moral_foundations p) (moral_foundations_confidence p)
    (attachment_style p) (attachment_confidence p) (cognitive_style p) (communication_preferences p)
    (ethics_weights p) (mirror_text p) (name_choice p) (raw_signals p) (profile_depth p)
    (profile_turn_count p) t.

(** *** Signals *)

(** The running average of a score, weighted by the confidences. *)
Definition blend (current signal_confidence total_weight old new : f64) : f64 :=
  f64_div (f64_add (f64_mul old current) (f64_mul new signal_confidence)) total_weight.

Definition set_ocean (dim : string) (f : f64 → f64) (o : OceanScores) : OceanScores :=
  let '(mkOcean op co ex ag ne) := o in
  if decide (dim = "openness") then mkOcean (f op) co ex ag ne
  else if decide (dim = "conscientiousness") then mkOcean op (f co) ex ag ne
  else if decide (dim = "extraversion") then mkOcean op co (f ex) ag ne
  else if decide (dim = "agreeableness") then mkOcean op co ex (f ag) ne
  else if decide (dim = "neuroticism") then mkOcean op co ex ag (f ne)
  else o.

Definition set_moral (dim : string) (f : f64 → f64) (m : MoralFoundations) : MoralFoundations :=
  let '(mkMoral ca fa lo au sa li) := m in
  if decide (dim = "care") then mkMoral (f ca) fa lo au sa li
  else if decide (dim = "fairness") then mkMoral ca (f fa) lo au sa li
  else if decide (dim = "loyalty") then mkMoral ca fa (f lo) au sa li
  else if decide (dim = "authority") then mkMoral ca fa lo (f au) sa li
  else if decide (dim = "sanctity") then mkMoral ca fa lo au (f sa) li
  else if decide (dim = "liberty") then mkMoral ca fa lo au sa (f li)
  else m.

Definition apply_ocean_signal (s : Signal) (p : MentorProfile) : MentorProfile :=
  let current := default zero (ocean_confidence p !! dimension s) in
  let total := f64_add current (confidence s) in
  if f64_gt total zero then
    with_ocean (set_ocean (dimension s) (λ old, blend current (confidence s) total old (value s)) (ocean p))
      (<[dimension s := f64_min total one]> (ocean_confidence p)) p
  else p.

Definition apply_moral_signal (s : Signal) (p : MentorProfile) : MentorProfile :=
  let current := default zero (moral_foundations_confidence p !! dimension s) in
  let total := f64_add current (confidence s) in
  if f64_gt total zero then
    with_moral (set_moral (dimension s) (λ old, blend current (confidence s) total old (value s)) (moral_foundations p))
      (<[dimension s := f64_min total one]> (moral_foundations_confidence p)) p
  else p.

Definition attachment_of (dim : string) : option AttachmentStyle :=
  if decide (dim = "secure") then Some Secure
  else if decide (dim = "anxious") then Some Anxious
  else if decide (dim = "avoidant") then Some Avoidant
  else if decide (dim = "disorganized") then Some Disorganized
  else None.

Definition apply_attachment_signal (s : Signal) (p : MentorProfile) : MentorProfile :=
  if f64_gt (confidence s) (attachment_confidence p) then
    match attachment_of (dimension s) with
    | Some style => with_attachment style (confidence s) p
    | None => p
    end
  else p.

Definition apply_cognitive_signal (s : Signal) (p : MentorProfile) : MentorProfile :=
  let '(mkStyle mode precision breadth) := cognitive_style p in
  if decide (dimension s = "thinking_mode") then
    let mode := if SFltb (value s) (f64_lit 33 100) then Analytical
                else if f64_gt (value s) (f64_lit 66 100) then Intuitive else Integrated in
    with_style (mkStyle mode precision breadth) p
  else if decide (dimension s = "precision_vs_speed") then with_style (mkStyle mode (value s) breadth) p
  else if decide (dimension s = "breadth_vs_depth") then with_style (mkStyle mode precision (value s)) p
  else p.

Definition apply_signal (s : Signal) (p : MentorProfile) : MentorProfile :=
  let p := with_raw (raw_signals p ++ [s]) p in
  if decide (instrument s = "big_five") then apply_ocean_signal s p
  else if decide (instrument s = "moral_foundations") then apply_moral_signal s p
  else if decide (instrument s = "attachment") then apply_attachment_signal s p
  else if decide (instrument s = "cognitive") then apply_cognitive_signal s p
  else p.

Section averages.
(** The values of a hash map, in its order. *)
Context (values : gmap string f64 → list f64).

Definition average (m : gmap string f64) : f64 :=
  if decide (size m = 0) then zero else f64_div (f64_sum (values m)) (f64_of_Z (Z.of_nat (size m))).

Definition avg_ocean_confidence (p : MentorProfile) : f64 := average (ocean_confidence p).
Definition avg_moral_confidence (p : MentorProfile) : f64 := average (moral_foundations_confidence p).

Definition completeness (p : MentorProfile) : f64 :=
  f64_add (f64_add (f64_mul (avg_ocean_confidence p) (f64_lit 4 10)) (f64_mul (avg_moral_confidence p) (f64_lit 3 10)))
    (f64_mul (attachment_confidence p) (f64_lit 3 10)).
End averages.

(** ** Ethical weights ([ethics_calibrator.rs]) *)

Definition modulated (base score : f64) : f64 := f64_add base (f64_mul (f64_sub score half) (f64_lit 1 10)).
Definition mean2 (a b : f64) : f64 := f64_div (f64_add a b) (f64_of_Z 2).

Definition calibrate_triangle_ethic (p : MentorProfile) : TriangleEthicWeights :=
  let mf := moral_foundations p in
  let o := ocean p in
  let de := modulated (mean2 (authority mf) (sanctity mf)) (conscientiousness o) in
  let ar := modulated (mean2 (care mf) (fairness mf)) (agreeableness o) in
  let te := modulated (mean2 (liberty mf) (loyalty mf)) (openness o) in
  let scale := f64_lit 3 100 in
  let '(de, ar, te) := match attachment_style p with
    | Secure => (de, f64_add ar scale, te)
    | Anxious => (f64_add de scale, ar, te)
    | Avoidant => (de, ar, f64_add te scale)
    | Disorganized => (de, ar, te)
    end in
  let least := f64_lit 1 100 in
  normalize (mkEthic (f64_max de least) (f64_max ar least) (f64_max te least)).

(** ** The engine ([engine.rs]) *)

Record ProcessResult : Type := mkProcessed {
  display_text : string;
  phase_complete : bool;
  phase_after : CrystallizationPhase;
  signals_extracted : list Signal;
}.

Record CrystallizationStatus : Type := mkStatus {
  status_phase : CrystallizationPhase;
  status_depth : DepthLevel;
  status_turn_count : nat;
  profile_completeness : f64;
}.

Record CrystallizationEngine : Type := mkEngine {
  profile : MentorProfile;
  depth : DepthLevel;
  current_phase : CrystallizationPhase;
  conversation_history : list ConversationTurn;
  turn_count : nat;
  used_question_ids : gset string;
}.

Definition initial_phase (d : DepthLevel) : CrystallizationPhase :=
  match d with QuickStart => SoulGeneration | ConversationDepth | DeepDive => Conversation end.

Definition new_engine (d : DepthLevel) : CrystallizationEngine :=
  mkEngine (new_profile d) d (initial_phase d) [] 0 ∅.

Definition with_profile (f : MentorProfile → MentorProfile) (e : CrystallizationEngine) : CrystallizationEngine :=
  mkEngine (f (profile e)) (depth e) (current_phase e) (conversation_history e) (turn_count e) (used_question_ids e).

Definition add_user_message (content : string) (e : CrystallizationEngine) : CrystallizationEngine :=
  mkEngine (with_turns (S (turn_count e)) (profile e)) (depth e) (current_phase e)
    (conversation_history e ++ [mkTurn "user" content []]) (S (turn_count e)) (used_question_ids e).

Definition mark_question_used (id : string) (e : CrystallizationEngine) : CrystallizationEngine :=
  mkEngine (profile e) (depth e) (current_phase e) (conversation_history e) (turn_count e)
    ({[id]} ∪ used_question_ids e).
Definition is_question_used (id : string) (e : CrystallizationEngine) : bool :=
  bool_decide (id ∈ used_question_ids e).

Definition set_mirror_text (text : string) : CrystallizationEngine → CrystallizationEngine :=
  with_profile (with_mirror (Some text)).
Definition set_timestamp (t : string) : CrystallizationEngine → CrystallizationEngine :=
  with_profile (with_timestamp (Some t)).
Definition calibrate_ethics : CrystallizationEngine → CrystallizationEngine :=
  with_profile (λ p, with_ethics (calibrate_triangle_ethic p) p).

Definition next_phase (ph : CrystallizationPhase) (d : DepthLevel) : option CrystallizationPhase :=
  match ph with
  | Spark => Some Conversation
  | Conversation => Some Mirror
  | Mirror => match d with DeepDive => Some Forge | _ => Some SoulGeneration end
  | Forge => Some SoulGeneration
  | SoulGeneration => Some Complete
  | Complete => None
  end.

Definition advance_phase (e : CrystallizationEngine) : CrystallizationEngine * option CrystallizationPhase :=
  match next_phase (current_phase e) (depth e) with
  | Some next =>
      (mkEngine (profile e) (depth e) next (conversation_history e) (turn_count e) (used_question_ids e), Some next)
  | None => (e, None)
  end.

Section engine.
Context `{J : JsonText}.
(** The reading of a decimal number, and the order of a hash map. *)
Context (parse_f64 : string → f64) (values : gmap string f64 → list f64).

Definition de_f64 (v : Value) : option f64 :=
  match v with
  | Num (PosInt n) | Num (NegInt n) => Some (f64_of_Z n)
  | Num (Float t) => Some (parse_f64 t)
  | _ => None
  end.

Definition de_signal (v : Value) : option Signal :=
  i ← required "instrument" de_str v;
  d ← required "dimension" de_str v;
  x ← required "value" de_f64 v;
  c ← required "confidence" de_f64 v;
  r ← required "reasoning" de_str v;
  Some (mkSignal i d x c r).

(** An object with the signals, a signal, or an array of them. *)
Definition parse_record_signal_args (arguments : string) : option (list Signal) :=
  match from_str arguments with
  | Err _ => None
  | Ok v =>
      match required "signals" (de_list de_signal) v with
      | Some l => Some l
      | None => match de_signal v with Some s => Some [s] | None => de_list de_signal v end
      end
  end.

Definition signals_of_call (tc : ToolCall) : list Signal :=
  if decide (call_name tc = "record_signal")
  then match parse_record_signal_args (arguments tc) with Some l => l | None => [] end
  else [].

(** The signals are applied as they are read; a call that cannot be read is skipped. *)
Fixpoint apply_calls (calls : list ToolCall) (p : MentorProfile) (extracted : list Signal)
  : MentorProfile * list Signal :=
  match calls with
  | [] => (p, extracted)
  | tc :: calls =>
      let l := signals_of_call tc in
      apply_calls calls (foldl (λ p s, apply_signal s p) p l) (extracted ++ l)
  end.

Definition should_advance_phase (e : CrystallizationEngine) : bool :=
  match current_phase e with
  | Spark => false
  | Conversation =>
      let p := profile e in
      let ocean_ok := f64_ge (avg_ocean_confidence values p) (f64_lit 4 10) in
      let moral_ok := f64_ge (avg_moral_confidence values p) (f64_lit 3 10) in
      let attachment_ok := f64_ge (attachment_confidence p) half in
      let hard_cap := (10 <=? turn_count e)%nat in
      (ocean_ok && moral_ok && attachment_ok) || hard_cap
  | Mirror => bool_decide (is_Some (mirror_text (profile e)))
  | Forge => false
  | SoulGeneration => true
  | Complete => false
  end.

Definition process_response (response : CompletionResponse) (e : CrystallizationEngine)
  : CrystallizationEngine * ProcessResult :=
  let '(p, extracted) := apply_calls (default [] (reply_tool_calls response)) (profile e) [] in
  let e := mkEngine p (depth e) (current_phase e)
    (conversation_history e ++ [mkTurn "assistant" (reply response) extracted]) (turn_count e) (used_question_ids e) in
  (e, mkProcessed (reply response) (should_advance_phase e) (current_phase e) extracted).

Definition status (e : CrystallizationEngine) : CrystallizationStatus :=
  mkStatus (current_phase e) (depth e) (turn_count e) (completeness values (profile e)).

(** ** Uses of the engine

    What its methods let a caller do. *)

Inductive use : Type :=
| User (content : string)
| Response (r : CompletionResponse)
| Advance
| Calibrate
| Question (id : string)
| MirrorText (text : string)
| Timestamp (t : string).

Definition perform (u : use) (e : CrystallizationEngine) : CrystallizationEngine :=
  match u with
  | User c => add_user_message c e
  | Response r => (process_response r e).1
  | Advance => (advance_phase e).1
  | Calibrate => calibrate_ethics e
  | Question id => mark_question_used id e
  | MirrorText t => set_mirror_text t e
  | Timestamp t => set_timestamp t e
  end.

Definition run (us : list use) (e : CrystallizationEngine) : CrystallizationEngine :=
  foldl (λ e u, perform u e) e us.

(** ** What every use keeps *)

Definition is_user (t : ConversationTurn) : bool := bool_decide (turn_role t = "user").

(** A number above zero and at most one. *)
Definition in_unit (x : f64) : Prop := SFltb zero x = true ∧ SFleb x one = true.

Definition confidences (p : MentorProfile) : list (gmap string f64) :=
  [ocean_confidence p; moral_foundations_confidence p].

Record well_kept (d : DepthLevel) (e : CrystallizationEngine) : Prop := {
  wk_depth : depth e = d ∧ profile_depth (profile e) = d;
  wk_turns : turn_count e = length (List.filter is_user (conversation_history e)) ∧
             profile_turn_count (profile e) = turn_count e;
  wk_signals : raw_signals (profile e) = concat (map signals (conversation_history e));
  wk_confidences : ∀ m k x, m ∈ confidences (profile e) → m !! k = Some x → in_unit x;
  wk_attachment : attachment_confidence (profile e) = zero ∨ SFltb zero (attachment_confidence (profile e)) = true;
  wk_forge : current_phase e = Forge → d = DeepDive;
  wk_spark : current_phase e ≠ Spark ∧ (d = QuickStart → current_phase e = SoulGeneration ∨ current_phase e = Complete);
}.

(** The order of positive numbers is total. *)
Lemma above_or_not m e m' e' :
  SFltb (S754_finite false m' e') (S754_finite false m e) = true ∨
  SFleb (S754_finite false m e) (S754_finite false m' e') = true.
Proof.
  unfold SFltb, SFleb. simpl. rewrite (Z.compare_antisym e e'). destruct (e ?= e')%Z; simpl; auto.
  change (Pos.compare_cont Eq ?a ?b) with (a ?= b)%positive. rewrite (Pos.compare_antisym m m').
  destruct (m ?= m')%positive; simpl; auto.
Qed.

Lemma f64_min_positive m e x :
  let b := S754_finite false m e in f64_gt x zero = true →
  SFltb zero (f64_min x b) = true ∧ (SFleb (f64_min x b) b = true ∨ f64_min x b = b).
Proof.
  intros b Hx. unfold f64_gt, f64_min, b in *. destruct x as [|[]| |[] m' e']; try done; [by auto|].
  destruct (above_or_not m' e' m e) as [->| Hle]; [by auto|]. 
  destruct (SFltb (S754_finite false m e) (S754_finite false m' e')); auto.
Qed.

Lemma f64_min_one x : f64_gt x zero = true → in_unit (f64_min x one).
Proof.
  intros Hx. destruct (f64_min_positive 4503599627370496 (-52) x Hx) as [H1 [H2|H2]]; [by split|].
  unfold in_unit, one. rewrite H2. split; by vm_compute.
Qed.

Lemma above_positive x y : x = zero ∨ SFltb zero x = true → f64_gt y x = true → SFltb zero y = true.
Proof. intros [->|Hx] Hy; [done|]. destruct x as [[]|[]| |[] m e], y as [[]|[]| |[] m' e']; done. Qed.

(** What a signal cannot touch. *)
Record same_frame (p q : MentorProfile) : Prop := {
  sf_depth : profile_depth q = profile_depth p;
  sf_turns : profile_turn_count q = profile_turn_count p;
  sf_mirror : mirror_text q = mirror_text p;
  sf_ethics : ethics_weights q = ethics_weights p;
  sf_name : name_choice q = name_choice p ∧ timestamp q = timestamp p ∧
            communication_preferences q = communication_preferences p;
}.

Definition sound (p : MentorProfile) : Prop :=
  (∀ m k x, m ∈ confidences p → m !! k = Some x → in_unit x) ∧
  (attachment_confidence p = zero ∨ SFltb zero (attachment_confidence p) = true).

Lemma insert_in_unit (m : gmap string f64) k x :
  (∀ k x, m !! k = Some x → in_unit x) → in_unit x → ∀ j y, <[k := x]> m !! j = Some y → in_unit y.
Proof. intros Hm Hx j y. rewrite lookup_insert_Some. intros [[_ <-]|[_ Hj]]; [done|by eapply Hm]. Qed.

Lemma apply_signal_kept s p :
  sound p → sound (apply_signal s p) ∧ same_frame p (apply_signal s p) ∧
  raw_signals (apply_signal s p) = raw_signals p ++ [s].
Proof.
  intros [Hc Ha]. unfold apply_signal. set (q := with_raw _ p).
  assert (sound q) as Hq by done. assert (same_frame p q) as Hf by done.
  assert (raw_signals q = raw_signals p ++ [s]) as Hr by done. clearbody q. clear Hc Ha. destruct Hq as [Hc Ha].
  assert (∀ k x, ocean_confidence q !! k = Some x → in_unit x) as Ho by (intros k x; apply Hc; set_solver).
  assert (∀ k x, moral_foundations_confidence q !! k = Some x → in_unit x) as Hm by (intros k x; apply Hc; set_solver).
  repeat case_decide; [| | | |by split_and!].
  - unfold apply_ocean_signal. destruct (f64_gt _ zero) eqn:Hg; [|by split_and!].
    split_and!; [split; [|done]|by destruct Hf|done]. intros m k x [->|[->|Hn%elem_of_nil]%elem_of_cons]%elem_of_cons; [| |done].
    + apply insert_in_unit; [done|by apply f64_min_one].
    + apply Hm.
  - unfold apply_moral_signal. destruct (f64_gt _ zero) eqn:Hg; [|by split_and!].
    split_and!; [split; [|done]|by destruct Hf|done]. intros m k x [->|[->|Hn%elem_of_nil]%elem_of_cons]%elem_of_cons; [| |done].
    + apply Ho.
    + apply insert_in_unit; [done|by apply f64_min_one].
  - unfold apply_attachment_signal. destruct (f64_gt _ _) eqn:Hg; [|by split_and!].
    destruct (attachment_of _); [|by split_and!]. split_and!; [split; [done|]|by destruct Hf|done].
    right. by eapply above_positive.
  - unfold apply_cognitive_signal. destruct (cognitive_style q). repeat case_decide; (split_and!; [done|by destruct Hf|done]).
Qed.

Lemma same_frame_trans p q r : same_frame p q → same_frame q r → same_frame p r.
Proof. intros [? ? ? ? (? & ? & ?)] [? ? ? ? (? & ? & ?)]. constructor; [congruence..|]. split_and!; congruence. Qed.

Lemma apply_signals_kept l p :
  sound p → let q := foldl (λ p s, apply_signal s p) p l in sound q ∧ same_frame p q ∧ raw_signals q = raw_signals p ++ l.
Proof.
  revert p. induction l as [|s l IH]; intros p Hp; [by simpl; rewrite app_nil_r|]. simpl.
  destruct (apply_signal_kept s p Hp) as (Hs & Hf & Hr). destruct (IH _ Hs) as (Hq & Hf2 & Hr2). split_and!; [done| |].
  - by eapply same_frame_trans.
  - rewrite Hr2, Hr. by rewrite <- app_assoc.
Qed.

Lemma apply_calls_kept calls p extracted :
  sound p → ∃ l, let q := apply_calls calls p extracted in
    sound q.1 ∧ same_frame p q.1 ∧ q.2 = extracted ++ l ∧ raw_signals q.1 = raw_signals p ++ l.
Proof.
  revert p extracted. induction calls as [|tc calls IH]; intros p extracted Hp; [exists []; simpl; by rewrite !app_nil_r|]. simpl.
  destruct (apply_signals_kept (signals_of_call tc) p Hp) as (Hs & Hf & Hr).
  destruct (IH _ (extracted ++ signals_of_call tc) Hs) as (l & Hq & Hf2 & He & Hr2).
  exists (signals_of_call tc ++ l). split_and!; [done| | |].
  - by eapply same_frame_trans.
  - by rewrite He, <- app_assoc.
  - by rewrite Hr2, Hr, <- app_assoc.
Qed.

Lemma user_turns_app h t : length (List.filter is_user (h ++ [t])) = (if is_user t then S else id) (length (List.filter is_user h)).
Proof. rewrite List.filter_app, length_app. simpl. destruct (is_user t); simpl; lia. Qed.

Lemma signals_app h t : concat (map signals (h ++ [t])) = concat (map signals h) ++ signals t.
Proof. rewrite map_app, concat_app. simpl. by rewrite app_nil_r. Qed.

Lemma new_well_kept d : well_kept d (new_engine d).
Proof.
  constructor; try done; [|by left|by destruct d|by split; [destruct d|intros ->; left]].
  intros m k x [->|[->|Hn%elem_of_nil]%elem_of_cons]%elem_of_cons; [| |done]; simpl; by rewrite lookup_empty.
Qed.

Lemma perform_well_kept d u e : well_kept d e → well_kept d (perform u e).
Proof.
  intros [[Hd1 Hd2] [Ht1 Ht2] Hs Hc Ha Hf [Hsp Hq]]. destruct u as [c|r| | |id|t|t]; try by constructor.
  - constructor; simpl; try done; [split; [|done]|].
    + by rewrite user_turns_app, Ht1.
    + by rewrite signals_app, app_nil_r.
  - simpl. unfold process_response. destruct (apply_calls_kept (default [] (reply_tool_calls r)) (profile e) [] (conj Hc Ha))
      as (l & [Hc2 Ha2] & [Hf1 Hf2 _ _ _] & Hl & Hraw). destruct (apply_calls _ _ _) as [q ex]. simpl in *. subst ex.
    constructor; simpl; try done; [by rewrite Hf1| |].
    + rewrite user_turns_app. by rewrite Hf2.
    + by rewrite signals_app, Hraw, Hs.
  - simpl. unfold advance_phase. destruct (next_phase (current_phase e) (depth e)) as [n|] eqn:Hn; [|by constructor].
    constructor; simpl; try done.
    + intros ->. destruct (current_phase e), (depth e) eqn:Hde; simplify_eq/=; by subst.
    + split; [by destruct (current_phase e), (depth e); simplify_eq/=|]. intros ->. destruct (Hq eq_refl) as [Hp|Hp];
        rewrite Hp in Hn; by simplify_eq/=; right.
Qed.

Lemma run_app us1 us2 e : run (us1 ++ us2) e = run us2 (run us1 e).
Proof. apply foldl_app. Qed.

Lemma run_snoc us u e : run (us ++ [u]) e = perform u (run us e).
Proof. by rewrite run_app. Qed.

Lemma crystallization_keeps us d : well_kept d (run us (new_engine d)).
Proof.
  induction us as [|u us IH] using rev_ind; [apply new_well_kept|]. rewrite run_snoc. by apply perform_well_kept.
Qed.

(** However the engine is used, its turn count is the number of messages of the
    user in the history, its record of signals is that of the turns of the history in
    their order, every confidence of a score is above zero and at most one, that of the
    attachment is not negative, and the depth chosen stays: only the deepest reaches the
    forge, and the quickest has no conversation. *)
Theorem crystallization_keeps_its_records d us : well_kept d (run us (new_engine d)).
Proof. apply crystallization_keeps. Qed.

(** ** How it ends *)

(** The phases of a depth. *)
Definition phases (d : DepthLevel) : list CrystallizationPhase :=
  match d with
  | QuickStart => [SoulGeneration; Complete]
  | ConversationDepth => [Conversation; Mirror; SoulGeneration; Complete]
  | DeepDive => [Conversation; Mirror; Forge; SoulGeneration; Complete]
  end.

Definition is_advance (u : use) : bool := match u with Advance => true | _ => false end.
Definition is_message (u : use) : bool := match u with User _ => true | _ => false end.
Definition count (f : use → bool) (us : list use) : nat := length (List.filter f us).

Lemma count_snoc f us u : count f (us ++ [u]) = (if f u then S else id) (count f us).
Proof. unfold count. rewrite List.filter_app, length_app. simpl. destruct (f u); simpl; lia. Qed.

Lemma perform_phase u e :
  current_phase (perform u e) = if is_advance u then default (current_phase e) (next_phase (current_phase e) (depth e)) else current_phase e.
Proof.
  destruct u as [c|r| | |id|t|t]; try done; simpl.
  - unfold process_response. by destruct (apply_calls _ _ _).
  - unfold advance_phase. by destruct (next_phase _ _).
Qed.

Lemma perform_turns u e : turn_count (perform u e) = (if is_message u then S else id) (turn_count e).
Proof.
  destruct u as [c|r| | |id|t|t]; try done; simpl.
  - unfold process_response. by destruct (apply_calls _ _ _).
  - unfold advance_phase. by destruct (next_phase _ _).
Qed.

Lemma next_in_phases d n :
  default (default Complete (phases d !! n)) (next_phase (default Complete (phases d !! n)) d) = default Complete (phases d !! S n).
Proof. destruct d; do 6 (destruct n as [|n]; [done|]); done. Qed.

Lemma run_turns us d : turn_count (run us (new_engine d)) = count is_message us.
Proof.
  induction us as [|u us IH] using rev_ind; [done|]. rewrite run_snoc, perform_turns, count_snoc, IH. done.
Qed.

Lemma run_phase us d : current_phase (run us (new_engine d)) = default Complete (phases d !! count is_advance us).
Proof.
  induction us as [|u us IH] using rev_ind; [by destruct d|]. rewrite run_snoc, perform_phase, count_snoc, IH.
  destruct (wk_depth _ _ (crystallization_keeps us d)) as [-> _]. destruct (is_advance u); [apply next_in_phases|done].
Qed.

(** The phase the engine is in is decided by the number of times it was advanced:
    the phases of its depth in their order, none left out, then complete for good, so
    that four advances end any crystallization.  A conversation cannot go on for ever:
    from the tenth message of the user on, every answer is reported to complete it. *)
Theorem crystallization_ends us d r :
  let e := run us (new_engine d) in
  current_phase e = default Complete (phases d !! count is_advance us) ∧
  (4 ≤ count is_advance us → current_phase e = Complete ∧ advance_phase e = (e, None)) ∧
  (current_phase e = Conversation → 10 ≤ count is_message us → phase_complete (process_response r e).2 = true).
Proof.
  intros e. split_and!; [apply run_phase| |].
  - intros Hn. assert (current_phase e = Complete) as He.
    { unfold e. rewrite run_phase. revert Hn. generalize (count is_advance us). intros n Hn.
      do 4 (destruct n as [|n]; [lia|]). destruct d; [done..|]. by destruct n. }
    split; [done|]. unfold advance_phase. by rewrite He.
  - intros He Hn. unfold process_response. destruct (apply_calls _ _ _) as [q ex]. cbn [snd phase_complete].
    unfold should_advance_phase. cbn [current_phase turn_count]. rewrite He. unfold e. rewrite run_turns.
    apply orb_true_iff. right. by apply Nat.leb_le.
Qed.
End engine.

(** ** What is read of an answer *)

Section reading.
Context `{J : JsonText} (parse_f64 : string → f64).

(** A signal counts alike whether it stands alone, in an array, or in an object of
    signals; a text that is neither counts for nothing. *)
Theorem signal_forms_agree v s t1 t2 t3 :
  de_signal parse_f64 v = Some s → get "signals" v = None →
  from_str t1 = Ok v → from_str t2 = Ok (Arr [v]) → from_str t3 = Ok (Obj [("signals", Arr [v])]) →
  Forall (λ t, parse_record_signal_args parse_f64 t = Some [s]) [t1; t2; t3].
Proof.
  intros Hs Hg H1 H2 H3. unfold parse_record_signal_args, required. rewrite !Forall_cons. split_and!; [| | |constructor].
  - rewrite H1, Hg. simpl. by rewrite Hs.
  - rewrite H2. simpl. by rewrite Hs.
  - rewrite H3. simpl. by rewrite Hs.
Qed.

Lemma unreadable_call p tc :
  parse_record_signal_args parse_f64 (arguments tc) = None ∨ call_name tc ≠ "record_signal" →
  apply_calls parse_f64 [tc] p [] = (p, []).
Proof.
  intros H. simpl. unfold signals_of_call. case_decide; [|done]. by destruct H as [-> |H].
Qed.
End reading.

(** ** Where the scores leave their range *)

Module Scores.

Definition by_key (m : gmap string f64) : list f64 := (map_to_list m).*2.
Definition mentor : MentorProfile := new_profile ConversationDepth.
Definition strong : f64 := f64_lit 9 10.
Definition applied (l : list Signal) : MentorProfile := foldl (λ p s, apply_signal s p) mentor l.
Definition observed (i d : string) (v c : f64) : Signal := mkSignal i d v c "".
Definition ready (p : MentorProfile) : bool :=
  should_advance_phase by_key (mkEngine p ConversationDepth Conversation [] 0 ∅).

(** The averages are over the dimensions that were reported: one of each instrument
    ends the conversation before the first message. *)
Example one_dimension_each :
  ready (applied [observed "big_five" "openness" half strong; observed "moral_foundations" "care" half strong;
                  observed "attachment" "secure" half strong]) = true.
Proof. by vm_compute. Qed.

(** Dimensions that there are not count as well. *)
Example unknown_dimensions_count :
  let p := applied [observed "big_five" "humour" half strong; observed "moral_foundations" "courage" half strong;
                    observed "attachment" "secure" half strong] in
  ready p = true ∧ ocean p = neutral_ocean ∧ moral_foundations p = neutral_moral.
Proof. by vm_compute. Qed.

(** Neither values nor confidences are held to their range: a value of 5 is the score,
    and a negative confidence turns a later 0 into a score above one. *)
Example values_are_not_limited :
  let five := f64_of_Z 5 in
  openness (ocean (applied [observed "big_five" "openness" five half])) = five ∧
  f64_gt (openness (ocean (applied [observed "big_five" "openness" half strong;
                                    observed "big_five" "openness" zero (f64_lit (-6) 10)]))) one = true.
Proof. by vm_compute. Qed.

(** A great value makes a score infinite, and a weight no number. *)
Example weight_is_not_a_number :
  let p := applied [observed "big_five" "openness" (f64_of_Z (10 ^ 308)) (f64_of_Z 100)] in
  openness (ocean p) = S754_infinity false ∧ teleological (calibrate_triangle_ethic p) = S754_nan ∧
  f64_ge (weight_sum (calibrate_triangle_ethic p)) zero = false.
Proof. by vm_compute. Qed.

(** The weights of a profile of neutral scores, and of one that values authority. *)
Example weights_made :
  let sum_is_one w := f64_ge (weight_sum w) (f64_lit 999999999 1000000000) && f64_ge (f64_lit 1000000001 1000000000) (weight_sum w) in
  let w := calibrate_triangle_ethic mentor in
  let v := calibrate_triangle_ethic (applied [observed "moral_foundations" "authority" strong one;
                                              observed "moral_foundations" "sanctity" strong one]) in
  sum_is_one w = true ∧ f64_gt (areteological w) (deontological w) = true ∧
  sum_is_one v = true ∧ f64_gt (deontological v) (areteological v) = true.
Proof. by vm_compute. Qed.

(** The tenth message is the last of the conversation. *)
Example ten_messages :
  let e := new_engine DeepDive in
  let ask n := foldl (λ e _, add_user_message "hello" e) e (replicate n tt) in
  should_advance_phase by_key (ask 9) = false ∧ should_advance_phase by_key (ask 10) = true.
Proof. by vm_compute. Qed.
End Scores.
