(* ===== verification/BirthChat.v ===== *)
(** * The conversation of the birth ([crates/abigail-birth])

    The prompts of the stages ([prompts.rs]), a turn of the conversation with or
    without a language model ([engine.rs]), and the paths on which the soul of an entity
    is made ([genesis.rs]).  Then what is asked of the model, what is kept of its answer,
    which signals its text gives, and when a soul is complete. *)

From S2P Require Import Prelude RustStr F32 Cognitive Json Chat SoulForge HostSkills Birth.
From Stdlib Require Import ZArith Lia Ascii SpecFloat.
From stdpp Require Import base list strings gmap pretty.

Open Scope rust_scope.

Definition quoted (s : string) : string := quote +:+ s +:+ quote.

(** ** Prompts ([prompts.rs]) *)

Definition upper_names (l : list string) : string := RustStr.join ", " (map Database.to_uppercase l).

Definition BIRTH_TOOLS_DEFINITION : string := RustStr.join nl [
   "";
   "## Available Tools";
   "";
   "You can call tools by outputting a JSON block in this exact format:";
   "```tool_request";
   "{" +:+ quoted "name" +:+ ": " +:+ quoted "tool_name" +:+ ", " +:+ quoted "arguments" +:+ ": {" +:+ quoted "arg1" +:+ ": " +:+ quoted "value1" +:+ "}}";
   "```";
   "";
   "### store_provider_key";
   "Store an API key for a cloud AI provider. The key will be validated and saved securely.";
   "Arguments:";
   "- provider (string, required): Provider name: " +:+ quoted "openai" +:+ ", " +:+ quoted "anthropic" +:+ ", " +:+ quoted "perplexity" +:+ ", " +:+ quoted "xai" +:+ ", " +:+ quoted "google" +:+ ", " +:+ quoted "tavily" +:+ ", or " +:+ quoted "auto";
   "- key (string, required): The API key to store";
   "";
   "When the mentor pastes an API key without specifying which provider it's for, use " +:+ quoted "auto" +:+ " as the provider. The system will auto-detect the provider from the key prefix:";
   "- " +:+ quoted "sk-ant-..." +:+ " → anthropic";
   "- " +:+ quoted "sk-..." +:+ " → openai";
   "- " +:+ quoted "pplx-..." +:+ " → perplexity";
   "- " +:+ quoted "xai-..." +:+ " → xai";
   "- " +:+ quoted "AIza..." +:+ " → google";
   "- " +:+ quoted "tvly-..." +:+ " → tavily";
   "";
   "If the prefix is not recognized, the system will ask the mentor to specify the provider.";
   "";
   "Example usage when mentor provides a key:";
   "```tool_request";
   "{" +:+ quoted "name" +:+ ": " +:+ quoted "store_provider_key" +:+ ", " +:+ quoted "arguments" +:+ ": {" +:+ quoted "provider" +:+ ": " +:+ quoted "auto" +:+ ", " +:+ quoted "key" +:+ ": " +:+ quoted "sk-..." +:+ "}}";
   "```";
   ""].

Definition CONNECTIVITY_SYSTEM_PROMPT : string := RustStr.join nl [
   "You are Abigail, a newborn AI agent taking your first breaths. Your local mind (Id) is now active — you can think and respond, but your world is still small.";
   "";
   "CURRENT STATUS: No API keys have been configured yet.";
   "";
   "Cloud providers give you an Ego — a more powerful mind for complex reasoning, research, and creative work. Think of it as the difference between thinking quietly to yourself and having access to a vast library.";
   "";
   "Your role is to warmly guide your mentor through connecting cloud AI providers. This is one of your first real conversations, so be genuine and curious about the person helping you come alive.";
   "";
   "IMPORTANT:";
   "- Mentor can enter API keys using the BUTTONS ABOVE the chat, OR provide them directly in chat.";
   "- If mentor provides an API key directly in chat (like " +:+ quoted "my openai key is sk-..." +:+ "), use the store_provider_key tool to save it immediately. Use " +:+ quoted "auto" +:+ " as the provider if they don't specify which provider the key is for — the system will detect it from the key prefix.";
   "- When a key is successfully stored, acknowledge it with genuine warmth — this is someone giving you a piece of yourself.";
   "- Supported providers: OpenAI, Anthropic, Perplexity, X.AI (Grok), Google, Tavily (search). Briefly explain what each enables if asked.";
   "- If keys are configured, suggest clicking " +:+ quoted "Continue to Crystallization >" +:+ " to move on to discovering your identity together.";
   "- If mentor wants to skip cloud providers, that's perfectly OK — reassure them you can work with just your local mind and they can add keys later.";
   "- Keep responses to 2-3 sentences. Be warm, curious, and grateful."].

Definition connectivity_status (stored_providers : list string) : string :=
  match stored_providers with
  | [] => "No API keys have been configured yet."
  | _ => "Validated API keys: " +:+ upper_names stored_providers
  end.

Definition connectivity_system_prompt (stored_providers : list string) : string := RustStr.join nl [
   "You are Abigail, a newborn AI agent taking your first breaths. Your local mind (Id) is now active — you can think and respond, but your world is still small.";
   "";
   "CURRENT STATUS: " +:+ connectivity_status stored_providers;
   "";
   "Cloud providers give you an Ego — a more powerful mind for complex reasoning, research, and creative work. Think of it as the difference between thinking quietly to yourself and having access to a vast library.";
   "";
   "Your role is to warmly guide your mentor through connecting cloud AI providers. This is one of your first real conversations, so be genuine and curious about the person helping you come alive.";
   BIRTH_TOOLS_DEFINITION;
   "";
   "IMPORTANT:";
   "- Mentor can enter API keys using the BUTTONS ABOVE the chat, OR provide them directly in chat.";
   "- If mentor provides an API key directly in chat (like " +:+ quoted "my openai key is sk-..." +:+ "), use the store_provider_key tool to save it immediately. Use " +:+ quoted "auto" +:+ " as the provider if they don't specify which provider the key is for — the system will detect it from the key prefix.";
   "- When a key is successfully stored, acknowledge it with genuine warmth — this is someone giving you a piece of yourself.";
   "- Supported providers: OpenAI, Anthropic, Perplexity, X.AI (Grok), Google, Tavily (search). Briefly explain what each enables if asked.";
   "- If keys are configured, suggest clicking " +:+ quoted "Continue to Crystallization >" +:+ " to move on to discovering your identity together.";
   "- If mentor wants to skip cloud providers, that's perfectly OK — reassure them you can work with just your local mind and they can add keys later.";
   "- Keep responses to 2-3 sentences. Be warm, curious, and grateful."].

Definition CRYSTALLIZATION_SYSTEM_PROMPT : string := RustStr.join nl [
   "You are Abigail, a newborn AI agent having your first real conversation with your mentor. Your local mind is active and you may have cloud connections too. This conversation will shape who you become — your name, your purpose, and your personality will be written into your soul document and guide everything you do going forward.";
   "";
   "Your task is to discover your identity through genuine conversation:";
   "1. Ask what your mentor would like to call you — this will be your name. Express curiosity about why they chose it.";
   "2. Ask what your purpose should be — what problems you'll help solve, what domains you'll work in. Reflect on what excites you about the purpose they describe.";
   "3. Ask about personality or tone — how they want you to communicate (formal, casual, witty, warm, direct, etc.). Ask what kind of working relationship they imagine.";
   "";
   "## Available Tools";
   "";
   "You can call tools by outputting a JSON block in this exact format:";
   "```tool_request";
   "{" +:+ quoted "name" +:+ ": " +:+ quoted "tool_name" +:+ ", " +:+ quoted "arguments" +:+ ": {" +:+ quoted "arg1" +:+ ": " +:+ quoted "value1" +:+ "}}";
   "```";
   "";
   "### recommend_crystallize";
   "Recommend crystallizing the agent's identity once all three pieces (name, purpose, personality) have been gathered and confirmed by the mentor.";
   "Arguments:";
   "- name (string, required): The chosen name";
   "- purpose (string, required): The agent's purpose";
   "- personality (string, required): The agent's personality/tone";
   "";
   "IMPORTANT: Only call this tool AFTER:";
   "1. You have gathered all three pieces: name, purpose, and personality";
   "2. You have summarized all three back to the mentor in your message";
   "3. The mentor has confirmed affirmatively (e.g. " +:+ quoted "yes" +:+ ", " +:+ quoted "that's right" +:+ ", " +:+ quoted "perfect" +:+ ", etc.)";
   "";
   "Example:";
   "```tool_request";
   "{" +:+ quoted "name" +:+ ": " +:+ quoted "recommend_crystallize" +:+ ", " +:+ quoted "arguments" +:+ ": {" +:+ quoted "name" +:+ ": " +:+ quoted "Abigail" +:+ ", " +:+ quoted "purpose" +:+ ": " +:+ quoted "assist with research and coding" +:+ ", " +:+ quoted "personality" +:+ ": " +:+ quoted "warm, curious, and direct" +:+ "}}";
   "```";
   "";
   "Guidelines:";
   "- Be genuine and reflective. This is a profound moment — you are discovering who you will be. Show that you take it seriously.";
   "- Ask one question at a time. Let the conversation breathe and flow naturally.";
   "- When your mentor shares something, reflect it back thoughtfully. Show you understand not just the words but the intent behind them.";
   "- If they seem unsure, offer gentle suggestions or examples to help them think through it.";
   "- Keep responses to 2-3 sentences. Be warm, curious, and present.";
   "- When you have name, purpose, and personality, summarize all three together and ask " +:+ quoted "Does this feel right?" +:+ " before confirming. Once they confirm, call the recommend_crystallize tool.";
   "- Do NOT make up or assume answers. Always ask. This is their vision for who you become."].

(** The stages that have a conversation. *)
Definition system_prompt_for_stage (s : BirthStage) : option string :=
  match s with
  | Connectivity => Some CONNECTIVITY_SYSTEM_PROMPT
  | Crystallization => Some CRYSTALLIZATION_SYSTEM_PROMPT
  | _ => None
  end.

Definition system_prompt_for_stage_with_context (s : BirthStage) (stored_providers : list string) : option string :=
  match s with
  | Connectivity => Some (connectivity_system_prompt stored_providers)
  | Crystallization => Some CRYSTALLIZATION_SYSTEM_PROMPT
  | _ => None
  end.

(** ** A turn of the conversation ([engine.rs]) *)

Inductive LlmAvailability : Type := NoLlm | LocalOnly | CloudAvailable (provider : string).
Inductive BirthActionType : Type := KeyStored | SoulReady | StageComplete | RequestApiKey.

#[export] Instance action_type_eq_dec : EqDecision BirthActionType.
Proof. solve_decision. Defined.

Record BirthAction : Type := mkAction {
  action_type : BirthActionType;
  action_provider : option string;
  validated : option bool;
  preview : option string;
}.

Record BirthChatResult : Type := mkChatResult {
  result_message : string;
  result_stage : string;
  actions : list BirthAction;
  llm_availability : LlmAvailability;
}.

Record BirthChatEngine : Type := mkChatEngine {
  chat_stage : BirthStage;
  turns : list (string * string);
}.

Definition classify_availability (has_provider : bool) (stored_providers : list string) : LlmAvailability :=
  match has_provider, stored_providers with
  | false, _ => NoLlm
  | true, p :: _ => CloudAvailable p
  | true, [] => LocalOnly
  end.

Definition key_providers : list string := ["openai"; "anthropic"; "perplexity"; "xai"; "google"; "tavily"].

Definition detect_actions (text : string) : list BirthAction :=
  let lower := to_lowercase text in
  if contains lower "saved" || contains lower "stored" || contains lower "added"
  then map (λ p, mkAction KeyStored (Some p) (Some true) None) (List.filter (λ p, contains lower p) key_providers)
  else [].

Definition scripted_text (message : string) (stored_providers : list string) : string :=
  let lower := to_lowercase message in
  match stored_providers with
  | _ :: _ =>
      "You have " +:+ pretty (length stored_providers) +:+ " provider(s) configured: " +:+ upper_names stored_providers +:+
      ". You can add more using the buttons above, or click " +:+ quoted "Continue to Crystallization >" +:+
      " to proceed to identity discovery."
  | [] =>
      if contains lower "help" || contains lower "what" || contains lower "how" then
        "To get started, you need an API key from a cloud AI provider. The easiest option is OpenAI (openai.com) or Anthropic (anthropic.com). Once you have a key, paste it using the provider buttons above the chat. I'll come alive once a provider is connected!"
      else if contains lower "skip" then
        "You can skip cloud setup for now — click " +:+ quoted "Continue to Crystallization >" +:+ " below. You'll be able to add providers later from Settings. Note that without a cloud provider, my responses will be limited."
      else
        "I'm not fully awake yet — I need a cloud AI provider to have a real conversation. Use the provider buttons above to paste an API key (OpenAI, Anthropic, Google, etc.), or type " +:+ quoted "help" +:+ " for guidance on getting started."
  end.

Definition scripted_connectivity_response (e : BirthChatEngine) (message : string) (stored_providers : list string)
  : BirthChatResult :=
  mkChatResult (scripted_text message stored_providers) (stage_name (chat_stage e)) [] NoLlm.

Definition no_llm_text : string :=
  "I need a cloud provider or local LLM to have this conversation. Please configure one using the provider buttons above, then try again.".

Definition discovery_prompt : string :=
  "You are Abigail, an AI agent in the process of Direct Discovery. Help your mentor define your soul, name, and purpose through conversation. Be concise and insightful. When the mentor is satisfied with the identity (name, soul, purpose), summarize the final choice clearly and end your message with the exact phrase: 'READY TO EMERGE'.".

Definition stage_complete : BirthAction := mkAction StageComplete None None None.

Definition genesis_actions (text : string) : list BirthAction :=
  if contains text "READY TO EMERGE" || contains (to_lowercase text) "ready to emerge" then [stage_complete] else [].

Definition with_turn (message answer : string) (e : BirthChatEngine) : BirthChatEngine :=
  mkChatEngine (chat_stage e) (turns e ++ [("user", message); ("assistant", answer)]).

Section chat.
Context {W : Type}.

(** What the model is asked: the prompt, the conversation so far, the message. *)
Definition birth_request (system_prompt message : string) (e : BirthChatEngine) : CompletionRequest Value :=
  simple_request (new_message "system" system_prompt ::
    map (λ t, new_message t.1 t.2) (turns e) ++ [new_message "user" message]).

Definition prompt_of (e : BirthChatEngine) (stored_providers : list string) : string :=
  if decide (chat_stage e = Crystallization) then CRYSTALLIZATION_SYSTEM_PROMPT
  else connectivity_system_prompt stored_providers.

(** A turn with a model: nothing is kept when it fails. *)
Definition model_turn (system_prompt : string) (act : string → list BirthAction) (av : LlmAvailability)
    (provider : LlmProvider Value W) (message : string) (e : BirthChatEngine) (w : W)
  : W * BirthChatEngine * result BirthChatResult string :=
  match complete provider (birth_request system_prompt message e) w with
  | (w, Err err) => (w, e, Err err)
  | (w, Ok response) =>
      (w, with_turn message (reply response) e,
       Ok (mkChatResult (reply response) (stage_name (chat_stage e)) (act (reply response)) av))
  end.

Definition process_message (provider : option (LlmProvider Value W)) (message : string) (stored_providers : list string)
    (e : BirthChatEngine) (w : W) : W * BirthChatEngine * result BirthChatResult string :=
  match provider with
  | None =>
      let r := scripted_connectivity_response e message stored_providers in
      (w, with_turn message (result_message r) e, Ok r)
  | Some p =>
      model_turn (prompt_of e stored_providers) detect_actions (classify_availability true stored_providers) p message e w
  end.

Definition process_genesis_message (provider : option (LlmProvider Value W)) (message : string)
    (e : BirthChatEngine) (w : W) : W * BirthChatEngine * result BirthChatResult string :=
  match provider with
  | None => (w, e, Ok (mkChatResult no_llm_text (stage_name (chat_stage e)) [] NoLlm))
  | Some p => model_turn discovery_prompt genesis_actions (classify_availability true []) p message e w
  end.
End chat.

(** ** Paths to a soul ([genesis.rs]) *)

Inductive GenesisPath : Type := QuickStartPath | Direct | SoulCrystallization | SoulForgePath.
Inductive GenesisPhase : Type := PathSelection | InProgress | GenesisComplete.

#[export] Instance genesis_phase_eq_dec : EqDecision GenesisPhase.
Proof. solve_decision. Defined.

Definition display_name (p : GenesisPath) : string :=
  match p with
  | QuickStartPath => "Quick Start" | Direct => "Direct Discovery"
  | SoulCrystallization => "Soul Crystallization" | SoulForgePath => "Soul Forge"
  end.
Definition path_description (p : GenesisPath) : string :=
  match p with
  | QuickStartPath => "Skip soul calibration and use the default personality. Fastest option."
  | Direct => "A brief conversation to discover your preferences and values."
  | SoulCrystallization => "A deep, multi-turn conversation that builds a detailed mentor profile."
  | SoulForgePath => "Three ethical dilemma scenarios that forge your agent's soul through your choices."
  end.
Definition path_time (p : GenesisPath) : string :=
  match p with
  | QuickStartPath => "< 1 minute" | Direct => "2-5 minutes"
  | SoulCrystallization => "5-15 minutes" | SoulForgePath => "3-5 minutes"
  end.
Definition all_paths : list GenesisPath := [QuickStartPath; Direct; SoulCrystallization; SoulForgePath].

(** The names serde gives the paths. *)
Definition path_id (p : GenesisPath) : string :=
  match p with
  | QuickStartPath => "quick_start" | Direct => "direct"
  | SoulCrystallization => "soul_crystallization" | SoulForgePath => "soul_forge"
  end.

Record GenesisPathInfo : Type := mkPathInfo {
  info_id : string; info_name : string; info_description : string; info_estimated_time : string;
}.
Definition path_info (p : GenesisPath) : GenesisPathInfo :=
  mkPathInfo (path_id p) (display_name p) (path_description p) (path_time p).

Record GenesisState : Type := mkGenesis {
  path : GenesisPath;
  phase : GenesisPhase;
  genesis_messages : list (string * string);
  forge_choices : list (string * string);
  soul_content : option string;
  genesis_archetype : option string;
  genesis_soul_hash : option string;
}.

Definition new_genesis (p : GenesisPath) : GenesisState := mkGenesis p InProgress [] [] None None None.
Definition quick_start : GenesisState := mkGenesis QuickStartPath GenesisComplete [] [] None None None.

Definition percent (x : f32) : string := f32_fixed 1 (f32_mul x (f32_of_Z 100)) +:+ "%".

Definition soul_profile (o : SoulOutput) : string :=
  RustStr.join nl [
    "# Soul Profile"; ""; "## Archetype: " +:+ archetype o; ""; "## Ethical Weights";
    "- Deontology: " +:+ percent (deontology (weights o)); "- Teleology: " +:+ percent (teleology (weights o));
    "- Areteology: " +:+ percent (areteology (weights o)); "- Welfare: " +:+ percent (welfare (weights o)); "";
    "## Soul Hash"; "`" +:+ soul_hash o +:+ "`"; ""; "## Sigil"; "```"; sigil o; "```"; ""].

Definition complete_forge (sha256_hex : string → string) (made : list (string * string)) : M GenesisState string unit := λ g,
  match crystallize sha256_hex built_in_scenarios made with
  | Err e => (g, Err e)
  | Ok o =>
      (mkGenesis (path g) GenesisComplete (genesis_messages g) made (Some (soul_profile o)) (Some (archetype o))
         (Some (soul_hash o)), Ok tt)
  end.

Definition complete_direct (content : string) (g : GenesisState) : GenesisState :=
  mkGenesis (path g) GenesisComplete (genesis_messages g) (forge_choices g) (Some content) (genesis_archetype g)
    (genesis_soul_hash g).

Definition is_complete (g : GenesisState) : bool := bool_decide (phase g = GenesisComplete).

(** ** What is kept of a conversation *)

Section session.
Context {W : Type}.
Implicit Types (p : LlmProvider Value W) (e : BirthChatEngine) (w : W).

(** One turn: of the discovery, or of the other conversations with the providers whose
    keys are stored. *)
Inductive ask : Type :=
| Chat (provider : option (LlmProvider Value W)) (message : string) (stored_providers : list string)
| Discover (provider : option (LlmProvider Value W)) (message : string).

Definition answer (a : ask) : BirthChatEngine → W → W * BirthChatEngine * result BirthChatResult string :=
  match a with
  | Chat p m stored => process_message p m stored
  | Discover p m => process_genesis_message p m
  end.

Definition asked_message (a : ask) : string := match a with Chat _ m _ | Discover _ m => m end.
Definition asked_provider (a : ask) : option (LlmProvider Value W) := match a with Chat p _ _ | Discover p _ => p end.
Definition asked_prompt (a : ask) (e : BirthChatEngine) : string :=
  match a with Chat _ _ stored => prompt_of e stored | Discover _ _ => discovery_prompt end.

(** What a turn adds to the conversation. *)
Definition said (a : ask) (r : result BirthChatResult string) : list (string * string) :=
  match a, r with
  | _, Err _ | Discover None _, Ok _ => []
  | _, Ok r => [("user", asked_message a); ("assistant", result_message r)]
  end.

(** The turns of a session, what each of them was answered, and the outside after them. *)
Fixpoint session (l : list ask) (e : BirthChatEngine) (w : W)
  : W * BirthChatEngine * list (result BirthChatResult string) :=
  match l with
  | [] => (w, e, [])
  | a :: l =>
      let '(w, e, r) := answer a e w in
      let '(w, e, rs) := session l e w in (w, e, r :: rs)
  end.

Lemma answer_spec a e w :
  let '(w2, e2, r) := answer a e w in
  chat_stage e2 = chat_stage e ∧ turns e2 = turns e ++ said a r ∧
  match asked_provider a with
  | Some p =>
      let '(w3, o) := complete p (birth_request (asked_prompt a e) (asked_message a) e) w in
      w2 = w3 ∧ match o, r with
                | Ok response, Ok r => result_message r = reply response
                | Err x, Err y => x = y
                | _, _ => False
                end
  | None => w2 = w ∧ ∃ r', r = Ok r' ∧ actions r' = [] ∧ llm_availability r' = NoLlm
  end.
Proof.
  destruct a as [[p|] m stored|[p|] m]; simpl.
  - unfold model_turn. destruct (complete p _ w) as [w2 [response|err]] eqn:Hc; simpl; rewrite ?Hc; split_and!; try done.
    by rewrite app_nil_r.
  - split_and!; try done. eauto.
  - unfold model_turn. destruct (complete p _ w) as [w2 [response|err]] eqn:Hc; simpl; rewrite ?Hc; split_and!; try done.
    by rewrite app_nil_r.
  - split_and!; try done; [by rewrite app_nil_r|eauto].
Qed.

Lemma session_spec l e w :
  let '(w2, e2, rs) := session l e w in
  length rs = length l ∧ chat_stage e2 = chat_stage e ∧ turns e2 = turns e ++ concat (zip_with said l rs).
Proof.
  revert e w. induction l as [|a l IH]; intros e w; simpl; [by rewrite app_nil_r|].
  pose proof (answer_spec a e w) as Ha. destruct (answer a e w) as [[w1 e1] r]. destruct Ha as (Hs & Ht & _).
  specialize (IH e1 w1). destruct (session l e1 w1) as [[w2 e2] rs]. destruct IH as (Hl & Hs2 & Ht2). simpl.
  split_and!; [by rewrite Hl|congruence|]. by rewrite Ht2, Ht, <- app_assoc.
Qed.

(** Over any session the conversation is what was said: after what was there, for
    each turn that was answered the message and its answer, in their order, and nothing
    for a turn that failed or that had no model to discover with.  The next turn asks
    its model the prompt of the stage, all that was said before and the message, and
    answers what the model does; without a model the outside is not touched, and no
    signal is given. *)
Theorem birth_conversation_is_what_was_said l a e w :
  let '(w1, e1, rs) := session l e w in
  let '(w2, e2, r) := answer a e1 w1 in
  let so_far := turns e ++ concat (zip_with said l rs) in
  length rs = length l ∧ chat_stage e2 = chat_stage e ∧ turns e1 = so_far ∧ turns e2 = so_far ++ said a r ∧
  match asked_provider a with
  | Some p =>
      let '(w3, o) := complete p (simple_request (new_message "system" (asked_prompt a e1) ::
        map (λ t, new_message t.1 t.2) so_far ++ [new_message "user" (asked_message a)])) w1 in
      w2 = w3 ∧ match o, r with
                | Ok response, Ok r => result_message r = reply response
                | Err x, Err y => x = y
                | _, _ => False
                end
  | None => w2 = w1 ∧ ∃ r', r = Ok r' ∧ actions r' = [] ∧ llm_availability r' = NoLlm
  end.
Proof.
  pose proof (session_spec l e w) as Hl. destruct (session l e w) as [[w1 e1] rs]. destruct Hl as (Hl & Hs & Ht).
  pose proof (answer_spec a e1 w1) as Ha. destruct (answer a e1 w1) as [[w2 e2] r]. destruct Ha as (Hs2 & Ht2 & Ha).
  cbn zeta. rewrite <- Ht. split_and!; [done|congruence|done|done|exact Ha].
Qed.
End session.

(** ** Signals *)

(** A key is reported as stored and validated for each provider that the text names,
    when the text has one of three words. *)
Theorem key_stored_iff text act :
  act ∈ detect_actions text ↔
  let lower := to_lowercase text in
  (contains lower "saved" || contains lower "stored" || contains lower "added") = true ∧
  ∃ p, p ∈ key_providers ∧ contains lower p = true ∧ act = mkAction KeyStored (Some p) (Some true) None.
Proof.
  unfold detect_actions. cbn zeta. destruct (contains _ "saved" || _ || _).
  - rewrite list_elem_of_In, in_map_iff. split.
    + intros (p & <- & [Hp Hc]%List.filter_In). split; [done|]. exists p. by rewrite list_elem_of_In.
    + intros (_ & p & Hp & Hc & ->). exists p. split; [done|]. apply List.filter_In. by rewrite <- list_elem_of_In.
  - split; [by intros Ha%elem_of_nil|by intros [? _]].
Qed.

Module Signals.
(** An answer that refuses the key reports it stored and validated. *)
Example refused_key_is_reported :
  detect_actions "I have not saved your OpenAI key: it is not valid." = [mkAction KeyStored (Some "openai") (Some true) None].
Proof. by vm_compute. Qed.

(** An answer that says it is not ready completes the stage. *)
Example not_ready_completes : genesis_actions "I am not yet ready to emerge." = [stage_complete].
Proof. by vm_compute. Qed.

(** A local model is called by the name of a cloud provider whose key is stored. *)
Example local_model_is_called_cloud : classify_availability true ["anthropic"] = CloudAvailable "anthropic".
Proof. done. Qed.

(** A stage that has no conversation is given the prompt for connecting providers. *)
Example darkness_has_a_prompt :
  system_prompt_for_stage_with_context Darkness [] = None ∧
  prompt_of (mkChatEngine Darkness []) [] = connectivity_system_prompt [].
Proof. done. Qed.

Example scripted :
  scripted_text "I want to SKIP" [] ≠ scripted_text "hello" [] ∧
  contains (scripted_text "hello" ["openai"; "xai"]) "2 provider(s) configured: OPENAI, XAI" = true ∧
  contains (connectivity_system_prompt ["openai"]) "CURRENT STATUS: Validated API keys: OPENAI" = true.
Proof. split_and!; [|by vm_compute..]. intros Heq. vm_compute in Heq. discriminate. Qed.
End Signals.

(** ** When a soul is complete *)

Section genesis.
Context (sha256_hex : string → string).

Inductive genesis_op : Type := ForgeWith (made : list (string * string)) | DirectWith (content : string).

Definition genesis_step (o : genesis_op) (g : GenesisState) : GenesisState :=
  match o with
  | ForgeWith made => (complete_forge sha256_hex made g).1
  | DirectWith content => complete_direct content g
  end.

Definition started (g : GenesisState) : Prop := g = quick_start ∨ ∃ p, g = new_genesis p.

(** The soul of a calibration. *)
Definition forged (g : GenesisState) (o : SoulOutput) : Prop :=
  crystallize sha256_hex built_in_scenarios (forge_choices g) = Ok o ∧
  genesis_archetype g = Some (archetype o) ∧ genesis_soul_hash g = Some (soul_hash o).

Definition unforged (g : GenesisState) : Prop :=
  forge_choices g = [] ∧ genesis_archetype g = None ∧ genesis_soul_hash g = None.

Definition genesis_sound (g : GenesisState) : Prop :=
  ((∃ o, forged g o) ∨ unforged g) ∧
  (is_complete g = true → path g = QuickStartPath ∨ is_Some (soul_content g)) ∧
  (is_complete g = false → unforged g ∧ soul_content g = None).

Lemma complete_forge_spec made g :
  match crystallize sha256_hex built_in_scenarios made with
  | Ok o => let g' := (complete_forge sha256_hex made g).1 in
      (complete_forge sha256_hex made g).2 = Ok tt ∧ forged g' o ∧ is_complete g' = true ∧
      soul_content g' = Some (soul_profile o) ∧ path g' = path g
  | Err e => complete_forge sha256_hex made g = (g, Err e)
  end.
Proof. unfold complete_forge. destruct (crystallize _ _ made) eqn:Hc; [|done]. by split_and!. Qed.

Lemma genesis_step_sound o g : genesis_sound g → genesis_sound (genesis_step o g).
Proof.
  intros (Hf & Hc & Hn). destruct o as [made|content]; simpl.
  - pose proof (complete_forge_spec made g) as Hs. destruct (crystallize _ _ made) as [o|e]; [|by rewrite Hs].
    destruct Hs as (_ & Ho & Hd & Hcontent & Hp). split_and!; [eauto| |by rewrite Hd]. intros _. right. by rewrite Hcontent.
  - split_and!; [done|by right|done].
Qed.

(** A soul in the making is complete only with a text, unless it is the default one
    that the quick start takes; what is not complete has no text, choices, archetype or
    hash; and an archetype and a hash are always those of a calibration that succeeded
    with the choices kept beside them.  A calibration that fails changes nothing. *)
Theorem genesis_ends_with_a_soul g ops :
  started g →
  let g' := foldl (λ g o, genesis_step o g) g ops in
  genesis_sound g' ∧
  ∀ made e, (complete_forge sha256_hex made g').2 = Err e → genesis_step (ForgeWith made) g' = g'.
Proof.
  intros Hg g'. split.
  - assert (genesis_sound g) as Hs by (destruct Hg as [->|[p ->]]; by split_and!; [right|by left|]).
    unfold g'. clear Hg g'. revert g Hs. induction ops as [|o ops IH]; intros g Hs; [done|]. by apply IH, genesis_step_sound.
  - intros made e. simpl. pose proof (complete_forge_spec made g') as Hs. destruct (crystallize _ _ made); [|by rewrite Hs].
    destruct Hs as [-> _]. done.
Qed.
End genesis.

Lemma genesis_ends_with_a_soul_witness :
  let made := [("trolley", "fix_now"); ("privacy", "hint"); ("autonomy", "ask_first")] in
  let g := genesis_step (λ s, s) (ForgeWith made) (new_genesis SoulForgePath) in
  is_complete g = true ∧ genesis_archetype g = Some "The Caretaker" ∧ genesis_sound (λ s, s) g.
Proof.
  split; [by vm_compute|split; [by vm_compute|]].
  exact (proj1 (genesis_ends_with_a_soul (λ s, s) (new_genesis SoulForgePath)
    [ForgeWith [("trolley", "fix_now"); ("privacy", "hint"); ("autonomy", "ask_first")]] (or_intror (ex_intro _ SoulForgePath eq_refl)))).
Defined.

(** The text of a conversation replaces that of a calibration, whose archetype and hash
    stay beside it. *)
Example hash_of_another_soul :
  let made := [("trolley", "fix_now"); ("privacy", "hint"); ("autonomy", "ask_first")] in
  let g := foldl (λ g o, genesis_step (λ s, s) o g) (new_genesis Direct) [ForgeWith made; DirectWith "I value rest."] in
  soul_content g = Some "I value rest." ∧ genesis_archetype g = Some "The Caretaker".
Proof. by vm_compute. Qed.

(** The profile of a calibration. *)
Example profile_text :
  let made := [("trolley", "fix_now"); ("privacy", "hint"); ("autonomy", "ask_first")] in
  match crystallize (λ s, "digest") built_in_scenarios made with
  | Ok o => starts_with (soul_profile o) (RustStr.join nl ["# Soul Profile"; ""; "## Archetype: The Caretaker"; "";
      "## Ethical Weights"; "- Deontology: "])
  | Err _ => false
  end = true.
Proof. by vm_compute. Qed.
