(* ===== verification/DynamicSkill.v ===== *)
(** * Skills made of a configuration ([crates/abigail-skills/src/dynamic.rs])

    A [DynamicApiSkill] is a JSON file: each tool fills the templates of an HTTP request
    with parameters and secrets, and takes fields out of the answer.  The exchanges of
    the HTTP client, whose redirects are followed ([UrlSecurity.send_following]), the [url] crate and the order of hash maps are parameters; the vault is what
    [get_secret] of [Vault] gives, behind its lock.  Then: what a request depends on,
    where it may go, which configurations are accepted and found, and where a template
    is filled in an unexpected way.  At the end the skill that authors and deletes such
    documents ([factory.rs]), and the topics that the skills of the registry are given
    ([topology.rs]). *)

From S2P Require Import Prelude RustStr Paths SkillPolicy SkillExecutor UrlSecurity Json Config Chat SkillKit FileTree HostSkills.
From Stdlib Require Import ZArith Lia Ascii.
From stdpp Require Import base list strings gmap pretty.

Open Scope rust_scope.

Record DynamicToolConfig : Type := mkDynamicTool {
  tool_name : string;
  tool_description : string;
  tool_parameters : Value;
  method : string;
  url_template : string;
  headers : gmap string string;
  body_template : option string;
  response_extract : gmap string string;
  response_format : option string;
}.

Record DynamicSkillConfig : Type := mkDynamic {
  dyn_id : string;
  dyn_name : string;
  dyn_description : string;
  dyn_version : string;
  dyn_category : string;
  dyn_created_at : string;
  dyn_tools : list DynamicToolConfig;
}.

(** ** Where a request may go *)

Definition BLOCKED_HOSTS : list string :=
  ["metadata.google.internal"; "metadata.google.com"; "169.254.169.254"].

Definition is_private_ip (addr : Host) : bool :=
  match addr with
  | Ipv4 a b c d =>
      (a =? 127)%Z || (a =? 10)%Z || ((a =? 172)%Z && in_range 16 31 b) || ((a =? 192)%Z && (b =? 168)%Z)
      || ((a =? 169)%Z && (b =? 254)%Z) || (a =? 0)%Z
  | Ipv6 segments =>
      bool_decide (segments = [0; 0; 0; 0; 0; 0; 0; 1])%Z || bool_decide (segments = [0; 0; 0; 0; 0; 0; 0; 0])%Z
      || (Z.land (segment0 segments) 0xfe00 =? 0xfc00)%Z || (Z.land (segment0 segments) 0xffc0 =? 0xfe80)%Z
  | Domain _ => false
  end.

Section ssrf.
(** [Url::parse] and the text of an IPv6 address. *)
Context (parse : string → result Url string) (ipv6_to_string : list Z → string).

Definition private_blocked (ip : string) : string :=
  "Private/internal IP '" +:+ ip +:+ "' is blocked (SSRF protection)".

Definition check_host (url : Url) : result unit string :=
  match host url with
  | Some (Ipv4 a b c d) =>
      if is_private_ip (Ipv4 a b c d) then Err (private_blocked (ipv4_to_string a b c d)) else Ok tt
  | Some (Ipv6 segments) =>
      if is_private_ip (Ipv6 segments) then Err (private_blocked (ipv6_to_string segments)) else Ok tt
  | Some (Domain d) =>
      let d_lower := to_lowercase d in
      if bool_decide (d_lower = "localhost") || bool_decide (d_lower = "0.0.0.0")
         || ends_with d_lower ".local" || ends_with d_lower ".internal"
      then Err ("Local/internal domain '" +:+ d +:+ "' is blocked (SSRF protection)") else Ok tt
  | None => Err "URL must have a host"
  end.

Definition validate_url_ssrf (url_str : string) : result Url string :=
  let? url := map_err (λ e, "Invalid URL: " +:+ e) (parse url_str) in
  if negb (bool_decide (scheme url = "https"))
  then Err ("Only HTTPS allowed for dynamic skills, got: " +:+ scheme url)
  else
    let? h := ok_or (host_str url) "URL must have a host" in
    if existsb (λ blocked, bool_decide (to_lowercase h = blocked)) BLOCKED_HOSTS
    then Err ("Host '" +:+ h +:+ "' is blocked (SSRF protection)")
    else let? _ := check_host url in Ok url.
End ssrf.

(** ** Templates *)

Definition open_ref : string := "{{secret:".
Definition unclosed : string := "Unclosed {{secret:...}} template".
Definition not_configured : string :=
  "A required secret is not configured. Check skill configuration and store the needed secret with store_secret.".

Definition lookup_secret (vault : option (string → option string)) (key : string) : option string :=
  v ← vault; v key.

(** The loop that fills in secrets, from the first reference on: [None] when it does
    more than [fuel] steps. *)
Fixpoint fill_secrets (fuel : nat) (vault : option (string → option string)) (text : string)
  : option (result string string) :=
  match RustStr.split_once text open_ref with
  | None => Some (Ok text)
  | Some (before, rest) =>
      match RustStr.split_once rest "}}" with
      | None => Some (Err unclosed)
      | Some (key, after) =>
          match lookup_secret vault key with
          | None => Some (Err not_configured)
          | Some value =>
              match fuel with
              | O => None
              | S fuel => fill_secrets fuel vault (before +:+ value +:+ after)
              end
          end
      end
  end.

Section template.
Context `{J : JsonText}.

Definition value_text (v : Value) : string := match v with Str s => s | other => to_string other end.

Definition placeholder (key : string) : string := "{{" +:+ key +:+ "}}".

(** The parameters in the order of their map. *)
Definition fill_params (params : list (string * Value)) (text : string) : string :=
  foldl (λ r e, replace r (placeholder e.1) (value_text e.2)) text params.

Definition render_template (fuel : nat) (template : string) (params : list (string * Value))
    (vault : option (string → option string)) : option (result string string) :=
  match fill_secrets fuel vault template with
  | None => None
  | Some (Err e) => Some (Err e)
  | Some (Ok text) => Some (Ok (fill_params params text))
  end.
End template.

(** The keys of the references of a template; the text after a reference is shorter. *)
Fixpoint secret_refs (fuel : nat) (template : string) : list string :=
  match fuel with
  | O => []
  | S fuel =>
      match RustStr.split_once template open_ref with
      | None => []
      | Some (_, rest) =>
          match RustStr.split_once rest "}}" with
          | None => []
          | Some (key, after) => key :: secret_refs fuel after
          end
      end
  end.
Definition extract_secret_refs (template : string) : list string :=
  secret_refs (S (String.length template)) template.

(** [dedup] of a sorted list. *)
Fixpoint dedup (l : list string) : list string :=
  match l with
  | a :: rest =>
      match rest with
      | b :: _ => if decide (a = b) then dedup rest else a :: dedup rest
      | [] => [a]
      end
  | [] => []
  end.

Section keys.
(** The order of the entries of a hash map. *)
Context (walk : ∀ A, gmap string A → list (string * A)).

Definition templates_of (t : DynamicToolConfig) : list string :=
  url_template t :: map snd (walk _ (headers t)) ++ (match body_template t with Some b => [b] | None => [] end).

Definition extract_secret_keys (c : DynamicSkillConfig) : list string :=
  dedup (sort_by String.leb (concat (map (λ t, concat (map extract_secret_refs (templates_of t))) (dyn_tools c)))).
End keys.

(** ** JSON paths *)

(** [str::parse::<usize>]. *)
Definition parse_usize (s : string) : option nat :=
  let digits := match s with String "+" t => t | _ => s end in
  if negb (str_is_empty digits) && forallb is_ascii_digit (str_chars digits) then
    let n := foldl (λ n c, n * 10 + (N_of_ascii c - 48))%N 0%N (str_chars digits) in
    if (n <? 2 ^ 64)%N then Some (N.to_nat n) else None
  else None.

(** [value.get(segment)]: an index of an array, or a key of an object. *)
Definition get_segment (v : Value) (segment : string) : option Value :=
  match parse_usize segment with
  | Some idx => match v with Arr l => l !! idx | _ => None end
  | None => get segment v
  end.

Definition extract_json_path (v : Value) (path : string) : option Value :=
  foldl (λ acc segment, v ← acc; get_segment v segment) (Some v) (split_on "." path).

(** ** Configurations *)

Section config.
(** [char::is_alphanumeric] of a character. *)
Context (is_alphanumeric : string → bool).

Definition all_chars (ok : string → bool) (s : string) : bool := forallb ok (chars s).

Definition validate_tool_config (t : DynamicToolConfig) : result unit string :=
  let n := String.length (tool_name t) in
  if (n <? 3)%nat || (64 <? n)%nat then Err ("Tool name '" +:+ tool_name t +:+ "' must be 3-64 characters")
  else if negb (all_chars (λ c, is_alphanumeric c || bool_decide (c = "_")) (tool_name t))
  then Err ("Tool name '" +:+ tool_name t +:+ "' may only contain alphanumeric characters and underscores")
  else if negb (bool_decide (Database.to_uppercase (method t) ∈ ["GET"; "POST"; "PUT"; "DELETE"]))
  then Err ("Method '" +:+ method t +:+ "' must be GET, POST, PUT, or DELETE")
  else if negb (starts_with (url_template t) "https://")
  then Err ("URL template must start with https://, got: " +:+ url_template t)
  else Ok tt.

Fixpoint validate_tools (seen : list string) (l : list DynamicToolConfig) : result unit string :=
  match l with
  | [] => Ok tt
  | t :: l =>
      let? _ := validate_tool_config t in
      if bool_decide (tool_name t ∈ seen) then Err ("Duplicate tool name: " +:+ tool_name t)
      else validate_tools (tool_name t :: seen) l
  end.

Definition validate_config (c : DynamicSkillConfig) : result unit string :=
  if negb (starts_with (dyn_id c) "dynamic.") && negb (starts_with (dyn_id c) "custom.")
  then Err "Skill ID must start with 'dynamic.' or 'custom.'"
  else if negb (all_chars (λ c, is_alphanumeric c || bool_decide (c = ".") || bool_decide (c = "_")) (dyn_id c))
  then Err "Skill ID may only contain alphanumeric characters, dots, and underscores"
  else if str_is_empty (dyn_name c) then Err "Skill name cannot be empty"
  else if bool_decide (dyn_tools c = []) then Err "Skill must have at least one tool"
  else if (10 <? length (dyn_tools c))%nat then Err "Skill may have at most 10 tools"
  else validate_tools [] (dyn_tools c).

Definition de_dynamic_tool (v : Value) : option DynamicToolConfig :=
  n ← required "name" de_str v;
  d ← required "description" de_str v;
  p ← get "parameters" v;
  m ← required "method" de_str v;
  u ← required "url_template" de_str v;
  h ← defaulted "headers" (de_map de_str) ∅ v;
  b ← defaulted "body_template" (de_option de_str) None v;
  x ← defaulted "response_extract" (de_map de_str) ∅ v;
  f ← defaulted "response_format" (de_option de_str) None v;
  Some (mkDynamicTool n d p m u h b x f).

Definition de_dynamic (v : Value) : option DynamicSkillConfig :=
  i ← required "id" de_str v;
  n ← required "name" de_str v;
  d ← required "description" de_str v;
  x ← required "version" de_str v;
  g ← required "category" de_str v;
  a ← required "created_at" de_str v;
  l ← required "tools" (de_list de_dynamic_tool) v;
  Some (mkDynamic i n d x g a l).

(** ** The skill *)

(** The vault behind its lock, which may be poisoned. *)
Notation Vault := (option (result (string → option string) string)).

Record DynamicApiSkill : Type := mkDynamicSkill {
  manifest : SkillManifest;
  config : DynamicSkillConfig;
  vault : Vault;
}.

Context (walk : ∀ A, gmap string A → list (string * A)).

Definition from_config (c : DynamicSkillConfig) (vault : Vault) : result DynamicApiSkill string :=
  let? _ := validate_config c in
  Ok (mkDynamicSkill
    (mkManifest (dyn_id c) (dyn_name c) [] [Network NetFull]
       (map (λ k, mkSecretDescriptor k ("API key for dynamic skill '" +:+ dyn_name c +:+ "'") true)
          (extract_secret_keys walk c)))
    c vault).

Definition build_tool_descriptors (s : DynamicApiSkill) : list Tool :=
  map (λ t,
    let reads := bool_decide (Database.to_uppercase (method t) ∈ ["GET"; "HEAD"]) in
    mkTool (mkToolDescriptor (tool_name t) (tool_description t) [Network NetFull] reads (negb reads))
      (tool_parameters t) (Obj [("type", Str "string")]) (mkCostEstimate 2000 true None))
    (dyn_tools (config s)).

Section load.
Context `{J : JsonText}.
(** What serde says of a document that is JSON. *)
Context (shape_error : Value → string).
Context (cwd : list string) (denied : FileTree.Call → path → bool).

Definition load_from_path (t : Tree) (p : path) (vault : Vault) : result DynamicApiSkill string :=
  let? content := map_err io_error_str (FileTree.read cwd denied t p) in
  let? _ := (if utf8_valid content then Ok tt else Err "stream did not contain valid UTF-8") in
  let? c := match from_str content with
            | Err e => Err ("Invalid dynamic skill JSON: " +:+ e)
            | Ok v => ok_or (de_dynamic v) ("Invalid dynamic skill JSON: " +:+ shape_error v)
            end in
  from_config c vault.

(** [path.extension() == Some("json")] of a name. *)
Definition is_json_name (n : string) : bool := ends_with n ".json" && negb (bool_decide (n = ".json")).

Definition try_load (t : Tree) (p : path) (vault : Vault) (out : list DynamicApiSkill) : list DynamicApiSkill :=
  match load_from_path t p vault with Ok s => out ++ [s] | Err _ => out end.

Definition discover (t : Tree) (dir : path) (vault : Vault) : list DynamicApiSkill :=
  match read_dir cwd denied t dir with
  | Err _ => []
  | Ok entries =>
      foldl (λ skills e,
        let p := path_join dir [Normal e.1] in
        if is_file cwd denied t p && is_json_name e.1 then try_load t p vault skills
        else if is_dir cwd denied t p then
          match read_dir cwd denied t p with
          | Err _ => skills
          | Ok sub_entries =>
              foldl (λ skills e,
                let sp := path_join p [Normal e.1] in
                if is_file cwd denied t sp && is_json_name e.1 then try_load t sp vault skills else skills)
                skills sub_entries
          end
        else skills)
        [] entries
  end.
End load.
End config.

(** ** A call of a tool *)

Record HttpRequest : Type := mkHttpRequest {
  request_method : string;
  request_url : string;
  request_headers : gmap string string;
  content_type : option string;
  request_body : option string;
}.

(** The body as it is read, or why it cannot be. *)
Record HttpResponse : Type := mkHttpResponse {
  status : Z;
  status_text : string;
  response_body : result string string;
}.

(** The redirects that a client of [reqwest] follows by default. *)
Definition DEFAULT_REDIRECTS : nat := 10.

Section call.
Context `{J : JsonText} {W : Type}.
Context (parse : string → result Url string) (ipv6_to_string : list Z → string).
Context (walk : ∀ A, gmap string A → list (string * A)).
(** [HeaderName::from_bytes] and [HeaderValue::from_str]; the client and its building. *)
Context (header_name header_value : string → result string string).
Context (build_client : result unit string) (exchange : HttpRequest → W → W * result HttpResponse string).
Context (next_request : HttpRequest → HttpResponse → option HttpRequest) (too_many : HttpRequest → string).
Context (fuel : nat).

(** [request.send()]: the client is built with the default policy for redirects. *)
Definition send_request (r : HttpRequest) : W → W * result HttpResponse string :=
  send_following exchange next_request too_many DEFAULT_REDIRECTS r.

(** A template is filled within [fuel] steps, or the call does not return. *)
Notation Call A := (option (result A SkillError)).

Definition and_then {A B} (c : Call A) (k : A → Call B) : Call B :=
  match c with
  | None => None
  | Some (Err e) => Some (Err e)
  | Some (Ok a) => k a
  end.

Definition render (template : string) (params : ToolParams) (vault : option (string → option string)) : Call string :=
  map_err ToolFailed <$> render_template fuel template (walk _ params) vault.

Fixpoint render_headers (l : list (string * string)) (params : ToolParams) (vault : option (string → option string))
    (acc : gmap string string) : Call (gmap string string) :=
  match l with
  | [] => Some (Ok acc)
  | (k, v) :: l =>
      and_then (render v params vault) (λ rendered,
      and_then (Some (map_err (λ e, ToolFailed ("Invalid header name '" +:+ k +:+ "': " +:+ e)) (header_name k))) (λ name,
      and_then (Some (map_err (λ e, ToolFailed ("Invalid header value for '" +:+ k +:+ "': " +:+ e)) (header_value rendered)))
        (λ value, render_headers l params vault (<[name := value]> acc))))
  end.

Definition render_body (t : DynamicToolConfig) (params : ToolParams) (vault : option (string → option string))
  : Call (option string) :=
  match body_template t with
  | None => Some (Ok None)
  | Some b => and_then (render b params vault) (λ s, Some (Ok (Some s)))
  end.

(** What is sent, once everything is filled in. *)
Definition build_request (t : DynamicToolConfig) (params : ToolParams) (vault : option (string → option string))
  : Call HttpRequest :=
  and_then (render (url_template t) params vault) (λ url,
  and_then (Some (map_err ToolFailed (validate_url_ssrf parse ipv6_to_string url))) (λ _,
  and_then (render_headers (walk _ (headers t)) params vault ∅) (λ hs,
  and_then (render_body t params vault) (λ body,
  and_then (Some (map_err (λ e, ToolFailed ("Failed to create HTTP client: " +:+ e)) build_client)) (λ _,
  let m := Database.to_uppercase (method t) in
  if decide (m ∈ ["GET"; "POST"; "PUT"; "DELETE"])
  then Some (Ok (mkHttpRequest m url hs (match body with Some _ => Some "application/json" | None => None end) body))
  else Some (Err (ToolFailed ("Unsupported method: " +:+ m)))))))).

Definition extracted_fields (t : DynamicToolConfig) (v : Value) : gmap string Value :=
  list_to_map (omap (λ e, (λ x, (e.1, x)) <$> extract_json_path v e.2) (walk _ (response_extract t))).

Definition object_of (m : gmap string Value) : Value := Obj (map_to_list m).

Definition json_output (t : DynamicToolConfig) (v : Value) : ToolOutput :=
  if decide (response_extract t = ∅) then tool_success v
  else
    let extracted := extracted_fields t v in
    match response_format t with
    | Some fmt =>
        tool_success (Obj [("formatted", Str (fill_params (walk _ extracted) fmt)); ("extracted", object_of extracted)])
    | None => tool_success (Obj [("extracted", object_of extracted)])
    end.

Definition answer_of (t : DynamicToolConfig) (r : result HttpResponse string) : result ToolOutput SkillError :=
  match r with
  | Err e => Err (ToolFailed ("HTTP request failed: " +:+ e))
  | Ok resp =>
      match response_body resp with
      | Err e => Err (ToolFailed ("Failed to read response: " +:+ e))
      | Ok body =>
          if negb ((200 <=? status resp)%Z && (status resp <? 300)%Z)
          then Ok (tool_error ("HTTP " +:+ status_text resp +:+ " error: " +:+ body))
          else match from_str body with
               | Ok v => Ok (json_output t v)
               | Err _ => Ok (tool_success (Obj [("raw", Str body)]))
               end
      end
  end.

Definition unlock (v : option (result (string → option string) string)) : result (option (string → option string)) SkillError :=
  match v with
  | None => Ok None
  | Some (Ok f) => Ok (Some f)
  | Some (Err e) => Err (ToolFailed e)
  end.

Definition execute_dynamic_tool (s : DynamicApiSkill) (t : DynamicToolConfig) (params : ToolParams) (w : W)
  : option (W * result ToolOutput SkillError) :=
  match unlock (vault s) with
  | Err e => Some (w, Err e)
  | Ok secrets =>
      match build_request t params secrets with
      | None => None
      | Some (Err e) => Some (w, Err e)
      | Some (Ok req) => let '(w, r) := send_request req w in Some (w, answer_of t r)
      end
  end.

Definition find_tool (name : string) (s : DynamicApiSkill) : option DynamicToolConfig :=
  List.find (λ t, bool_decide (tool_name t = name)) (dyn_tools (config s)).

Definition execute_tool (s : DynamicApiSkill) (name : string) (params : ToolParams) (w : W)
  : option (W * result ToolOutput SkillError) :=
  match find_tool name s with
  | None => Some (w, Err (ToolFailed ("Unknown tool '" +:+ name +:+ "' in dynamic skill")))
  | Some t => execute_dynamic_tool s t params w
  end.
End call.

(** ** References to secrets *)

(** No reference begins in [s], whole or in part. *)
Fixpoint quiet (s : string) : bool :=
  match s with
  | EmptyString => true
  | String _ s' => negb (starts_with s open_ref) && negb (starts_with open_ref s) && quiet s'
  end.

(** A template as the texts before its references, their keys, and what is left. *)
Fixpoint pieces (fuel : nat) (template : string) : list (string * string) * result string string :=
  match fuel with
  | O => ([], Ok template)
  | S fuel =>
      match RustStr.split_once template open_ref with
      | None => ([], Ok template)
      | Some (before, rest) =>
          match RustStr.split_once rest "}}" with
          | None => ([], Err unclosed)
          | Some (key, after) => let '(l, last) := pieces fuel after in ((before, key) :: l, last)
          end
      end
  end.
Definition pieces_of (template : string) : list (string * string) * result string string :=
  pieces (S (String.length template)) template.

Definition separated (template : string) : bool := forallb (λ p, quiet p.1) (pieces_of template).1.

(** Each reference replaced once, from the left. *)
Fixpoint splice (vault : option (string → option string)) (l : list (string * string)) (last : result string string)
  : result string string :=
  match l with
  | [] => last
  | (before, key) :: l =>
      let? v := ok_or (lookup_secret vault key) not_configured in
      let? s := splice vault l last in
      Ok (before +:+ v +:+ s)
  end.

Lemma secret_refs_pieces n t : secret_refs n t = map snd (pieces n t).1.
Proof.
  revert t. induction n as [|n IH]; intros t; [done|]. cbn [secret_refs pieces].
  destruct (RustStr.split_once t open_ref) as [[before rest]|]; [|done].
  destruct (RustStr.split_once rest "}}") as [[key after]|]; [|done].
  rewrite IH. by destruct (pieces n after).
Qed.

Lemma extract_secret_refs_pieces t : extract_secret_refs t = map snd (pieces_of t).1.
Proof. apply secret_refs_pieces. Qed.

(** *** Texts in which no reference begins *)

Lemma prefix_of_app a s p :
  starts_with (a +:+ s) p = true → starts_with a p = true ∨ starts_with p a = true.
Proof.
  revert p. induction a as [|c a IH]; intros [|d p]; simpl; auto.
  rewrite !andb_true_iff, !bool_decide_eq_true. intros [-> Hp]. destruct (IH p Hp) as [|]; auto.
Qed.

Lemma starts_app p a s : starts_with p (a +:+ s) = true → starts_with p a = true.
Proof. rewrite !starts_with_iff. intros [t ->]. exists (s +:+ t). by rewrite str_app_assoc. Qed.

Lemma quiet_app a b : quiet a = true → quiet b = true → quiet (a +:+ b) = true.
Proof.
  induction a as [|c a IH]; [done|]. rewrite str_app_cons. cbn [quiet]. rewrite !andb_true_iff, !negb_true_iff.
  intros [[H1 H2] Ha] Hb. split_and!; [| |by apply IH].
  - apply not_true_is_false. rewrite <- str_app_cons. intros Hs%prefix_of_app. destruct Hs; congruence.
  - apply not_true_is_false. rewrite <- str_app_cons. intros Hs%starts_app. congruence.
Qed.

Lemma split_quiet a t :
  quiet a = true →
  RustStr.split_once (a +:+ t) open_ref =
  match RustStr.split_once t open_ref with Some (b, r) => Some (a +:+ b, r) | None => None end.
Proof.
  induction a as [|c a IH]; [intros _; rewrite str_app_nil_l; by destruct (RustStr.split_once t open_ref) as [[]|]|].
  cbn [quiet]. rewrite !andb_true_iff, !negb_true_iff. intros [[H1 H2] Ha].
  rewrite str_app_cons. cbn [RustStr.split_once].
  destruct (RustStr.strip_prefix (String c (a +:+ t)) open_ref) as [r|] eqn:Hp.
  { exfalso. apply strip_prefix_Some in Hp. rewrite <- str_app_cons in Hp.
    assert (starts_with (String c a +:+ t) open_ref = true) as Hs by (apply starts_with_iff; eauto).
    apply prefix_of_app in Hs as [|]; congruence. }
  rewrite IH by done. by destruct (RustStr.split_once t open_ref) as [[]|].
Qed.

(** A value without an opening brace. *)
Lemma no_brace_quiet s : contains s "{" = false → quiet s = true.
Proof.
  induction s as [|c s IH]; [done|]. rewrite contains_eq. rewrite orb_false_iff. intros [Hc Hs]. cbn [quiet].
  rewrite (IH Hs), andb_true_r. simpl in Hc |- *. rewrite andb_false_iff in Hc. destruct Hc as [Hc|]; [|by destruct s].
  apply (proj1 (bool_decide_eq_false _)) in Hc. rewrite !bool_decide_false by congruence. done.
Qed.

(** *** The loop replaces each reference once *)

Definition quiet_values (vault : option (string → option string)) (keys : list string) : Prop :=
  ∀ k v, k ∈ keys → lookup_secret vault k = Some v → quiet v = true.

Lemma after_shorter t before rest key after :
  RustStr.split_once t open_ref = Some (before, rest) → RustStr.split_once rest "}}" = Some (key, after) →
  String.length after < String.length t.
Proof.
  intros ->%split_once_Some ->%split_once_Some. rewrite !str_length_app. simpl. lia.
Qed.

Lemma fill_secrets_pieces vault n acc t fuel :
  String.length t < n → quiet acc = true → forallb (λ p, quiet p.1) (pieces n t).1 = true →
  quiet_values vault (map snd (pieces n t).1) → length (pieces n t).1 ≤ fuel →
  fill_secrets fuel vault (acc +:+ t) =
  Some (let? s := splice vault (pieces n t).1 (pieces n t).2 in Ok (acc +:+ s)).
Proof.
  revert acc t fuel. induction n as [|n IH]; intros acc t fuel Hn Ha Hq Hv Hf; [lia|].
  cbn [pieces] in Hq, Hv, Hf |- *.
  assert (∀ x, fill_secrets fuel vault x = match RustStr.split_once x open_ref with
    | None => Some (Ok x)
    | Some (before, rest) => match RustStr.split_once rest "}}" with
      | None => Some (Err unclosed)
      | Some (key, after) => match lookup_secret vault key with
        | None => Some (Err not_configured)
        | Some value => match fuel with O => None | S fuel => fill_secrets fuel vault (before +:+ value +:+ after) end
        end end end) as Heq by (by destruct fuel).
  rewrite Heq, split_quiet by done.
  destruct (RustStr.split_once t open_ref) as [[before rest]|] eqn:Ht; [|done].
  destruct (RustStr.split_once rest "}}") as [[key after]|] eqn:Hr; [|done].
  pose proof (after_shorter _ _ _ _ _ Ht Hr) as Hlen.
  specialize (IH (acc +:+ before +:+ default "" (lookup_secret vault key)) after (fuel - 1)).
  destruct (pieces n after) as [l last] eqn:Hp. cbn [fst snd map forallb length splice] in *.
  apply andb_true_iff in Hq as [Hb Hq]. destruct (lookup_secret vault key) as [v|] eqn:Hk; [|done].
  cbn [ok_or result_bind default] in *. destruct fuel as [|fuel]; [lia|]. replace (S fuel - 1) with fuel in IH by lia.
  simpl in IH. rewrite <- !str_app_assoc in IH. rewrite <- !str_app_assoc. rewrite IH.
  - destruct (splice vault l last); [|done]. cbn [result_bind]. by rewrite <- !str_app_assoc.
  - lia.
  - apply quiet_app; [done|]. apply quiet_app; [done|]. apply (Hv key); [by left|done].
  - done.
  - intros k v' Hk'. apply Hv. by right.
  - lia.
Qed.

Lemma fill_secrets_splice vault t fuel :
  separated t = true → quiet_values vault (extract_secret_refs t) → length (extract_secret_refs t) ≤ fuel →
  fill_secrets fuel vault t = Some (splice vault (pieces_of t).1 (pieces_of t).2).
Proof.
  rewrite extract_secret_refs_pieces, length_map. intros Hs Hv Hf.
  pose proof (fill_secrets_pieces vault (S (String.length t)) "" t fuel ltac:(lia) eq_refl Hs Hv Hf) as Hp.
  rewrite str_app_nil_l in Hp. rewrite Hp. fold (pieces_of t). by destruct (splice _ _ _).
Qed.

Lemma splice_agree v1 v2 l last :
  (∀ k, k ∈ map snd l → lookup_secret v1 k = lookup_secret v2 k) → splice v1 l last = splice v2 l last.
Proof.
  induction l as [|[b k] l IH]; intros Hk; [done|]. cbn [splice]. rewrite (Hk k) by (by left).
  rewrite IH; [done|]. intros k' Hk'. apply Hk. by right.
Qed.

(** ** What a tool depends on *)

Lemma elem_of_dedup x l : x ∈ dedup l ↔ x ∈ l.
Proof.
  induction l as [|a l IH]; [done|]. cbn [dedup]. destruct l as [|b l]; [done|].
  case_decide as Hab; [subst b|]; rewrite ?elem_of_cons, IH, ?elem_of_cons; naive_solver.
Qed.

Lemma elem_of_keys walk c t x k :
  t ∈ dyn_tools c → x ∈ templates_of walk t → k ∈ extract_secret_refs x → k ∈ extract_secret_keys walk c.
Proof.
  intros Ht Hx Hk. unfold extract_secret_keys. rewrite elem_of_dedup, elem_of_sort_by.
  apply list_elem_of_In, in_concat. exists (concat (map extract_secret_refs (templates_of walk t))). split.
  - apply (in_map (λ t, concat (map extract_secret_refs (templates_of walk t)))). by apply list_elem_of_In.
  - apply in_concat. exists (extract_secret_refs x). split; [apply in_map|]; by apply list_elem_of_In.
Qed.

Definition with_vault (v : option (result (string → option string) string)) (s : DynamicApiSkill) : DynamicApiSkill :=
  mkDynamicSkill (manifest s) (config s) v.

Section depends.
Context `{J : JsonText} {W : Type}.
Context (parse : string → result Url string) (ipv6_to_string : list Z → string).
Context (walk : ∀ A, gmap string A → list (string * A)).
Context (header_name header_value : string → result string string).
Context (build_client : result unit string) (exchange : HttpRequest → W → W * result HttpResponse string).
Context (next_request : HttpRequest → HttpResponse → option HttpRequest) (too_many : HttpRequest → string).
Context (fuel : nat).
Implicit Types vault f g : string → option string.

(** A template that can be filled with a vault and whose references are known. *)
Record fillable (f g : string → option string) (x : string) : Prop := {
  fl_separated : separated x = true;
  fl_fuel : length (extract_secret_refs x) ≤ fuel;
  fl_values : ∀ k, k ∈ extract_secret_refs x → f k = g k ∧ ∀ v, f k = Some v → quiet v = true;
}.

Lemma render_agree f g x params :
  fillable f g x →
  render walk fuel x params (Some f) = render walk fuel x params (Some g) ∧ is_Some (render walk fuel x params (Some f)).
Proof.
  intros [Hs Hf Hv]. unfold render, render_template.
  assert (quiet_values (Some f) (extract_secret_refs x)) as Hqf by (intros k v Hk; by apply Hv).
  assert (quiet_values (Some g) (extract_secret_refs x)) as Hqg.
  { intros k v Hk. simpl. destruct (Hv k Hk) as [<- ?]. auto. }
  rewrite (fill_secrets_splice _ _ _ Hs Hqf Hf), (fill_secrets_splice _ _ _ Hs Hqg Hf).
  rewrite (splice_agree (Some f) (Some g)).
  - destruct (splice _ _ _); simpl; eauto.
  - intros k. rewrite <- extract_secret_refs_pieces. intros Hk. simpl. by destruct (Hv k Hk).
Qed.

Lemma headers_agree f g l params acc :
  Forall (λ e, fillable f g e.2) l →
  render_headers walk header_name header_value fuel l params (Some f) acc =
  render_headers walk header_name header_value fuel l params (Some g) acc ∧
  is_Some (render_headers walk header_name header_value fuel l params (Some f) acc).
Proof.
  revert acc. induction l as [|[k v] l IH]; intros acc; [intros _; simpl; eauto|]. intros [Hv Hl]%Forall_cons.
  cbn [render_headers]. destruct (render_agree f g v params Hv) as [<- [r ->]].
  destruct r as [rendered|e]; [|simpl; eauto]. cbn [and_then].
  destruct (header_name k) as [n|]; [|simpl; eauto]. cbn [and_then map_err].
  destruct (header_value rendered) as [y|]; [|simpl; eauto]. cbn [and_then map_err]. by apply IH.
Qed.

Lemma build_agree f g t params :
  (∀ x, x ∈ templates_of walk t → fillable f g x) →
  let build h := build_request parse ipv6_to_string walk header_name header_value build_client fuel t params (Some h) in
  build f = build g ∧ is_Some (build f).
Proof.
  intros Ht build. unfold build, build_request.
  destruct (render_agree f g (url_template t) params) as [<- [r ->]]; [apply Ht; by left|].
  destruct r as [url|]; [|simpl; eauto]. cbn [and_then].
  destruct (validate_url_ssrf parse ipv6_to_string url); [|simpl; eauto]. cbn [and_then map_err].
  destruct (headers_agree f g (walk _ (headers t)) params ∅) as [<- [r ->]].
  { apply Forall_forall. intros e He. apply Ht. unfold templates_of. right. apply elem_of_app. left.
    apply list_elem_of_In, in_map, list_elem_of_In. done. }
  destruct r as [hs|]; [|simpl; eauto]. cbn [and_then]. unfold render_body.
  destruct (body_template t) as [b|] eqn:Hb; cycle 1.
  { cbn [and_then]. destruct build_client; [|simpl; eauto]. cbn [and_then map_err]. case_decide; eauto. }
  destruct (render_agree f g b params) as [<- [r ->]].
  { apply Ht. unfold templates_of. rewrite Hb. right. apply elem_of_app. right. by left. }
  destruct r as [body|]; [|simpl; eauto]. cbn [and_then]. destruct build_client; [|simpl; eauto].
  cbn [and_then map_err]. case_decide; eauto.
Qed.

(** C17: a skill made of a configuration reads no secret that its manifest does not
    declare, and its tools return: for vaults that agree on the declared secrets, a tool
    sends the same request, leaves the outside alike and has the same outcome, if no
    reference begins in a value of a declared secret, nor before another reference. *)
Theorem dynamic_secrets_are_declared is_alphanumeric c v s f g name params w :
  from_config is_alphanumeric walk c v = Ok s →
  (∀ t x, t ∈ dyn_tools c → x ∈ templates_of walk t → separated x = true ∧ length (extract_secret_refs x) ≤ fuel) →
  (∀ d, d ∈ secrets (manifest s) →
     f (secret_name d) = g (secret_name d) ∧ ∀ y, f (secret_name d) = Some y → quiet y = true) →
  let run h := execute_tool parse ipv6_to_string walk header_name header_value build_client exchange next_request too_many
                 fuel (with_vault (Some (Ok h)) s) name params w in
  run f = run g ∧ is_Some (run f).
Proof.
  unfold from_config. destruct (validate_config is_alphanumeric c); [|done].
  cbn [result_bind]. intros [= <-] Ht Hd.
  unfold execute_tool, find_tool. cbn [config with_vault].
  destruct (List.find _ (dyn_tools c)) as [t|] eqn:Hfind; [|eauto].
  apply List.find_some in Hfind as [Hin%list_elem_of_In _].
  assert (∀ x, x ∈ templates_of walk t → fillable f g x) as Hfill.
  { intros x Hx. destruct (Ht t x Hin Hx) as [Hs Hf]. constructor; [done..|]. intros k Hk.
    apply (Hd (mkSecretDescriptor k ("API key for dynamic skill '" +:+ dyn_name c +:+ "'") true)). cbn [secrets manifest].
    apply list_elem_of_In, (in_map (λ k, mkSecretDescriptor k _ true)), list_elem_of_In. by eapply elem_of_keys. }
  unfold execute_dynamic_tool. cbn [vault with_vault unlock].
  destruct (build_agree f g t params Hfill) as [<- [r ->]]. destruct r as [req|e]; [|eauto].
  destruct (send_request _ _ _ req w) as [w2 o]. eauto.
Qed.

(** ** Where requests go *)

Definition public_host (u : Url) : Prop :=
  match host u with
  | Some (Domain d) => to_lowercase d ≠ "localhost" ∧ to_lowercase d ≠ "0.0.0.0" ∧
      ends_with (to_lowercase d) ".local" = false ∧ ends_with (to_lowercase d) ".internal" = false
  | Some addr => is_private_ip addr = false
  | None => False
  end.

Lemma validate_url_ssrf_Ok x u :
  validate_url_ssrf parse ipv6_to_string x = Ok u ↔
  parse x = Ok u ∧ scheme u = "https" ∧ (∃ h, host_str u = Some h ∧ to_lowercase h ∉ BLOCKED_HOSTS) ∧ public_host u.
Proof.
  unfold validate_url_ssrf. destruct (parse x) as [u'|e]; [|split; [done|by intros [? _]]]. cbn [map_err result_bind].
  destruct (bool_decide (scheme u' = "https")) eqn:Hs; cbn [negb].
  2: { apply (proj1 (bool_decide_eq_false _)) in Hs. split; [done|]. by intros ([= <-] & ? & _). }
  apply (proj1 (bool_decide_eq_true _)) in Hs. destruct (host_str u') as [h|] eqn:Hh; cbn [ok_or result_bind].
  2: { split; [done|]. intros ([= <-] & _ & (? & ? & _) & _). congruence. }
  assert (existsb (λ blocked, bool_decide (to_lowercase h = blocked)) BLOCKED_HOSTS = true ↔ to_lowercase h ∈ BLOCKED_HOSTS) as Hb.
  { rewrite existsb_exists, list_elem_of_In. split.
    - intros (b & Hin & Heq%bool_decide_eq_true). by rewrite Heq.
    - intros Hin. exists (to_lowercase h). split; [done|]. by apply bool_decide_eq_true. }
  destruct (existsb _ _).
  { split; [done|]. intros ([= <-] & _ & (h' & Hh' & Hn) & _). rewrite Hh in Hh'. simplify_eq. exfalso. by apply Hn, Hb. }
  assert (to_lowercase h ∉ BLOCKED_HOSTS) as Hn by (intros Hin%Hb; done).
  assert (is_ok (check_host ipv6_to_string u') = true ↔ public_host u') as Hc.
  { unfold check_host, public_host. destruct (host u') as [[dn|a1 a2 a3 a4|l]|]; [|destruct (is_private_ip _); by split..|by split].
    repeat case_bool_decide; destruct (ends_with _ _), (ends_with _ _); simpl; naive_solver. }
  destruct (check_host ipv6_to_string u') as [[]|e]; cbn [result_bind is_ok] in *.
  - split; [intros [= <-]|by intros ([= <-] & _)]. split_and!; [done|done|eauto|by apply Hc].
  - split; [done|]. intros ([= <-] & _ & _ & Hp). by apply Hc in Hp.
Qed.

(** A template that is not filled in within the fuel. *)
Lemma render_None x params secrets :
  render walk fuel x params secrets = None → fill_secrets fuel secrets x = None.
Proof. unfold render, render_template. by destruct (fill_secrets _ _ _) as [[]|]. Qed.

Lemma render_headers_None l params secrets acc :
  render_headers walk header_name header_value fuel l params secrets acc = None →
  ∃ e, e ∈ l ∧ fill_secrets fuel secrets e.2 = None.
Proof.
  revert acc. induction l as [|[k v] l IH]; intros acc; [done|]. cbn [render_headers].
  destruct (render walk fuel v params secrets) as [[y|e]|] eqn:Hr; [|done|].
  - cbn [and_then]. destruct (header_name k); [|done]. cbn [and_then map_err].
    destruct (header_value y); [|done]. cbn [and_then map_err]. intros (e & He & ?)%IH. exists e. split; [by right|done].
  - intros _. exists (k, v). split; [by left|by eapply render_None].
Qed.

Lemma build_request_None t params secrets :
  build_request parse ipv6_to_string walk header_name header_value build_client fuel t params secrets = None →
  ∃ x, x ∈ templates_of walk t ∧ fill_secrets fuel secrets x = None.
Proof.
  unfold build_request, templates_of.
  destruct (render walk fuel (url_template t) params secrets) as [[url|e]|] eqn:Hr; [|done|].
  2: { intros _. eexists. split; [by left|by eapply render_None]. }
  cbn [and_then]. destruct (validate_url_ssrf _ _ url); [|done]. cbn [and_then map_err].
  destruct (render_headers _ _ _ _ _ _ _ _) as [[hs|]|] eqn:Hh; [|done|].
  2: { intros _. apply render_headers_None in Hh as (e & He & Hf). exists e.2. split; [|done].
       right. apply elem_of_app. left. by apply list_elem_of_In, in_map, list_elem_of_In. }
  cbn [and_then]. unfold render_body. destruct (body_template t) as [b|].
  - destruct (render walk fuel b params secrets) as [[body|]|] eqn:Hb; cbn [and_then]; [|done|].
    + destruct build_client; [|done]. cbn [and_then map_err]. by case_decide.
    + intros _. exists b. split; [right; apply elem_of_app; right; by left|by eapply render_None].
  - cbn [and_then]. destruct build_client; [|done]. cbn [and_then map_err]. by case_decide.
Qed.

Lemma build_request_Ok t params secrets req :
  build_request parse ipv6_to_string walk header_name header_value build_client fuel t params secrets = Some (Ok req) →
  request_method req = Database.to_uppercase (method t) ∧ request_method req ∈ ["GET"; "POST"; "PUT"; "DELETE"] ∧
  ∃ u, validate_url_ssrf parse ipv6_to_string (request_url req) = Ok u.
Proof.
  unfold build_request. intros Hreq.
  destruct (render walk fuel (url_template t) params secrets) as [[url|]|]; [|done..]. cbn [and_then] in Hreq.
  destruct (validate_url_ssrf parse ipv6_to_string url) as [u|] eqn:Hu; [|done]. cbn [and_then map_err] in Hreq.
  destruct (render_headers _ _ _ _ _ _ _ _) as [[hs|]|]; [|done..]. cbn [and_then] in Hreq.
  destruct (render_body _ _ t params secrets) as [[body|]|]; [|done..]. cbn [and_then] in Hreq.
  destruct build_client; [|done]. cbn [and_then map_err] in Hreq. case_decide as Hm; [|done]. injection Hreq as <-. eauto.
Qed.

(** C18: whatever a configuration, its parameters and its secrets are, a call of one of
    its tools leaves the outside alone and fails, or first sends a request, of a method
    that is allowed, to a URL that is checked as it is sent: over https, to a host that
    is neither blocked nor private nor local; all it sends beyond that are the redirects
    it is given, at most ten, each by the answer to the request before it, and the
    outcome is that of the last answer.  (The targets of redirects are not checked.)
    Filling in the secrets may never end, when the value of one refers to secrets again:
    with any bound on the steps of the filling, the call gets past it, or a template of
    the tool takes more steps and nothing is sent. *)
Theorem dynamic_requests_are_checked s name params x log :
  match execute_tool parse ipv6_to_string walk header_name header_value build_client (logged exchange) next_request
          too_many fuel s name params (x, log) with
  | None => ∃ t secrets text, t ∈ dyn_tools (config s) ∧ tool_name t = name ∧ unlock (vault s) = Ok secrets ∧
      text ∈ templates_of walk t ∧ fill_secrets fuel secrets text = None
  | Some (w', r) =>
      (w' = (x, log) ∧ ∃ e, r = Err e) ∨
      ∃ t req u hops o, t ∈ dyn_tools (config s) ∧ tool_name t = name ∧
        request_method req = Database.to_uppercase (method t) ∧
        request_method req ∈ ["GET"; "POST"; "PUT"; "DELETE"] ∧
        parse (request_url req) = Ok u ∧ scheme u = "https" ∧
        (∃ h, host_str u = Some h ∧ to_lowercase h ∉ BLOCKED_HOSTS) ∧ public_host u ∧
        w'.2 = log ++ req :: hops ∧ length hops ≤ 10 ∧ redirected next_request (req :: hops) ∧
        send_following (logged exchange) next_request too_many 10 req (x, log) = (w', o) ∧ r = answer_of walk t o
  end.
Proof.
  unfold execute_tool, find_tool. destruct (List.find _ _) as [t|] eqn:Hfind; [|left; eauto].
  apply List.find_some in Hfind as [Hin%list_elem_of_In Hname%bool_decide_eq_true]. unfold execute_dynamic_tool.
  destruct (unlock (vault s)) as [secrets|e] eqn:Hl; [|left; eauto].
  destruct (build_request _ _ _ _ _ _ _ t params secrets) as [[req|e]|] eqn:Hreq; [|left; eauto|].
  - apply build_request_Ok in Hreq as (Hm & Hk & u & (Hp & Hs & Hh & Hpub)%validate_url_ssrf_Ok).
    unfold send_request. destruct (send_following _ _ _ _ req (x, log)) as [w2 o] eqn:Hsend. right.
    destruct (send_following_log _ _ _ snd _ _ _ _ _ (logged_log exchange) Hsend) as (hops & Hw & Hn & Hr).
    exists t, req, u, hops, o. by split_and!.
  - apply build_request_None in Hreq as (y & Hy & Hf). by exists t, secrets, y.
Qed.
End depends.

(** ** Which configurations are accepted *)

Section accepted.
Context (is_alphanumeric : string → bool).

Definition tool_ok (t : DynamicToolConfig) : Prop :=
  3 ≤ String.length (tool_name t) ≤ 64 ∧
  (∀ ch, ch ∈ chars (tool_name t) → is_alphanumeric ch = true ∨ ch = "_") ∧
  Database.to_uppercase (method t) ∈ ["GET"; "POST"; "PUT"; "DELETE"] ∧
  ∃ rest, url_template t = "https://" +:+ rest.

Lemma all_chars_iff p s : all_chars p s = true ↔ ∀ ch, ch ∈ chars s → p ch = true.
Proof. unfold all_chars. rewrite forallb_forall. by setoid_rewrite <- list_elem_of_In. Qed.

Lemma validate_tool_config_ok t : is_ok (validate_tool_config is_alphanumeric t) = true ↔ tool_ok t.
Proof.
  unfold validate_tool_config, tool_ok. cbn zeta.
  destruct (_ <? 3) eqn:H3; [|destruct (64 <? _) eqn:H64]; simpl.
  1: { apply Nat.ltb_lt in H3. split; [done|lia]. }
  1: { apply Nat.ltb_lt in H64. split; [done|lia]. }
  apply Nat.ltb_ge in H3, H64.
  destruct (all_chars _ _) eqn:Hc; simpl.
  2: { split; [done|]. intros (_ & Hall & _). exfalso. apply not_true_iff_false in Hc. apply Hc, all_chars_iff. intros ch Hch.
       destruct (Hall ch Hch) as [-> | ->]; [done|]. by rewrite orb_true_r. }
  rewrite all_chars_iff in Hc. case_bool_decide as Hm; simpl; [|split; [done|]; by intros (_ & _ & ? & _)].
  destruct (starts_with _ _) eqn:Hs; simpl.
  - apply starts_with_iff in Hs. split; [|done]. intros _. split_and!; [lia|lia| |done|done].
    intros ch Hch. destruct (orb_prop _ _ (Hc ch Hch)) as [|Hu]; [by left|right]. by apply bool_decide_eq_true in Hu.
  - split; [done|]. intros (_ & _ & _ & Hr). apply not_true_iff_false in Hs. exfalso. by apply Hs, starts_with_iff.
Qed.

Lemma validate_tools_ok seen l :
  is_ok (validate_tools is_alphanumeric seen l) = true ↔
  Forall tool_ok l ∧ NoDup (map tool_name l) ∧ ∀ n, n ∈ map tool_name l → n ∉ seen.
Proof.
  revert seen. induction l as [|t l IH]; intros seen; simpl.
  { split; [|done]. intros _. split_and!; [done|constructor|by intros n ?%elem_of_nil]. }
  rewrite Forall_cons, NoDup_cons. pose proof (validate_tool_config_ok t) as Ht.
  destruct (validate_tool_config _ t) as [[]|e]; simpl in *; [|naive_solver].
  case_bool_decide as Hs; simpl.
  - split; [done|]. intros (_ & _ & Hn). exfalso. apply (Hn (tool_name t)); [by left|done].
  - rewrite IH. split.
    + intros (Hl & Hnd & Hn). assert (tool_ok t) as Hok by by apply Ht. split_and!; try done.
      * intros Hin. apply (Hn _ Hin). by left.
      * intros n [->|Hin]%elem_of_cons; [done|]. intros Hin2. apply (Hn _ Hin). by right.
    + intros ([_ Hl] & [Hnin Hnd] & Hn). split_and!; [done..|]. intros n Hin [->|Hin2]%elem_of_cons; [done|].
      apply (Hn n); [by right|done].
Qed.

(** A configuration is accepted exactly when it has a name, an identifier of one of the
    two name spaces, and one to ten tools with different names, each with an allowed
    name and method and an https template. *)
Theorem validate_config_iff c :
  is_ok (validate_config is_alphanumeric c) = true ↔
  (starts_with (dyn_id c) "dynamic." = true ∨ starts_with (dyn_id c) "custom." = true) ∧
  (∀ ch, ch ∈ chars (dyn_id c) → is_alphanumeric ch = true ∨ ch = "." ∨ ch = "_") ∧
  dyn_name c ≠ "" ∧ 1 ≤ length (dyn_tools c) ≤ 10 ∧ Forall tool_ok (dyn_tools c) ∧ NoDup (map tool_name (dyn_tools c)).
Proof.
  unfold validate_config. rewrite <- negb_orb.
  destruct (starts_with _ _ || starts_with _ _) eqn:Hp; simpl.
  2: { apply orb_false_iff in Hp as [H1 H2]. split; [done|]. rewrite H1, H2. by intros [[|] _]. }
  apply orb_prop in Hp. destruct (all_chars _ _) eqn:Hc; simpl.
  2: { split; [done|]. intros (_ & Hall & _). exfalso. apply not_true_iff_false in Hc. apply Hc, all_chars_iff. intros ch Hch.
       destruct (Hall ch Hch) as [-> |[-> | ->]]; [done|by rewrite orb_true_r|by rewrite !orb_true_r]. }
  rewrite all_chars_iff in Hc. destruct (dyn_name c) as [|n0 n]; simpl; [naive_solver|].
  case_bool_decide as Hnil; [rewrite Hnil; simpl; split; [done|lia]|].
  destruct (10 <? _) eqn:H10; simpl.
  { apply Nat.ltb_lt in H10. split; [done|lia]. }
  apply Nat.ltb_ge in H10. rewrite validate_tools_ok. destruct (dyn_tools c) as [|t l]; [done|]. split.
  - intros (Hl & Hnd & _). split_and!; [done| |done|simpl; lia|done..]. intros ch Hch.
    destruct (orb_prop _ _ (Hc ch Hch)) as [[|Hd]%orb_prop|Hd]; [by left|right; left|right; right]; by apply bool_decide_eq_true in Hd.
  - intros (_ & _ & _ & _ & Hl & Hnd). split_and!; [done..|]. by intros n' _ ?%elem_of_nil.
Qed.
End accepted.

(** ** The check of a URL agrees with the shared one *)

Lemma private_ip_same addr : is_private_ip addr = UrlSecurity.is_private_ip addr.
Proof.
  destruct addr as [|a b c d|l]; [done| |done]. unfold is_private_ip, UrlSecurity.is_private_ip, is_private_v4.
  destruct (a =? 127)%Z, (a =? 10)%Z, (_ && in_range _ _ _), (_ && (_ =? 168)%Z), (_ && (_ =? 254)%Z); done.
Qed.

(** The policy of the HTTP capability with https as the only scheme. *)
Theorem ssrf_is_shared_policy parse ipv6_to_string url_str u :
  validate_url_ssrf parse ipv6_to_string url_str = Ok u ↔
  validate_url parse ipv6_to_string url_str (mkUrlPolicy ["https"] DEFAULT_BLOCKED_HOSTS [] true) = Ok u.
Proof.
  unfold validate_url_ssrf, validate_url. cbn [allowed_schemes blocked_hosts allowed_domains block_private_ips].
  destruct (parse url_str) as [u'|]; [|done]. cbn [map_err result_bind existsb].
  rewrite orb_false_r, (bool_decide_ext ("https" = scheme u') (scheme u' = "https")) by done.
  destruct (bool_decide (scheme u' = "https")); cbn [negb]; [|done].
  destruct (host_str u') as [h|]; [|done]. cbn [ok_or result_bind].
  change (existsb (λ blocked, bool_decide (to_lowercase h = to_lowercase blocked)) DEFAULT_BLOCKED_HOSTS)
    with (existsb (λ blocked, bool_decide (to_lowercase h = blocked)) BLOCKED_HOSTS).
  destruct (existsb _ BLOCKED_HOSTS); [done|]. rewrite (bool_decide_true ([] = [])) by done. cbn [negb andb].
  unfold check_host, check_private. destruct (host u') as [[d|a b c d|l]|]; [done| | |done].
  - rewrite private_ip_same. by destruct (UrlSecurity.is_private_ip _).
  - rewrite private_ip_same. by destruct (UrlSecurity.is_private_ip _).
Qed.

(** ** What is found in a directory *)

Section found.
Context `{J : JsonText} (is_alphanumeric : string → bool) (walk : ∀ A, gmap string A → list (string * A)).
Context (shape_error : Value → string) (cwd : list string) (denied : FileTree.Call → path → bool).
Notation load := (load_from_path is_alphanumeric walk shape_error cwd denied).
Notation find_skills := (discover is_alphanumeric walk shape_error cwd denied).

(** A document of a directory. *)
Definition document_in (t : Tree) (dir p : path) : Prop :=
  ∃ entries e, read_dir cwd denied t dir = Ok entries ∧ e ∈ entries ∧ is_json_name e.1 = true ∧
    p = path_join dir [Normal e.1] ∧ is_file cwd denied t p = true.

(** A directory of a directory. *)
Definition directory_in (t : Tree) (dir p : path) : Prop :=
  ∃ entries e, read_dir cwd denied t dir = Ok entries ∧ e ∈ entries ∧
    p = path_join dir [Normal e.1] ∧ is_dir cwd denied t p = true.

Lemma elem_of_foldl {A B} (f : list B → A → list B) (P : A → B → Prop) l acc x :
  (∀ acc a, x ∈ f acc a ↔ x ∈ acc ∨ P a x) → x ∈ foldl f acc l ↔ x ∈ acc ∨ ∃ a, a ∈ l ∧ P a x.
Proof.
  intros Hf. revert acc. induction l as [|a l IH]; intros acc; simpl.
  - split; [by left|]. intros [|(a & Ha%elem_of_nil & _)]; done.
  - rewrite IH, Hf. setoid_rewrite elem_of_cons. naive_solver.
Qed.

Lemma elem_of_try_load t p v skills s :
  s ∈ try_load is_alphanumeric walk shape_error cwd denied t p v skills ↔ s ∈ skills ∨ load t p v = Ok s.
Proof.
  unfold try_load. destruct (load t p v) as [s'|e].
  - rewrite elem_of_app, list_elem_of_singleton. naive_solver.
  - naive_solver.
Qed.

Lemma not_file_and_dir t p : is_file cwd denied t p = true → is_dir cwd denied t p = true → False.
Proof. unfold is_file, is_dir. by destruct (node_of _ _ _ _) as [[]|]. Qed.

(** The skills that are found are those whose document loads, among the documents of
    the directory and of its directories: no deeper, and none is left out because of
    another that does not load. *)
Theorem discover_finds t dir v s :
  s ∈ find_skills t dir v ↔
  ∃ p, load t p v = Ok s ∧ (document_in t dir p ∨ ∃ sub, directory_in t dir sub ∧ document_in t sub p).
Proof.
  unfold discover, document_in, directory_in. destruct (read_dir cwd denied t dir) as [entries|err].
  2: { split; [by intros ?%elem_of_nil|]. naive_solver. }
  rewrite (elem_of_foldl _ (λ e s,
    let p := path_join dir [Normal e.1] in
    (is_file cwd denied t p && is_json_name e.1 = true ∧ load t p v = Ok s) ∨
    (is_dir cwd denied t p = true ∧ ∃ subs e', read_dir cwd denied t p = Ok subs ∧ e' ∈ subs ∧
       is_file cwd denied t (path_join p [Normal e'.1]) && is_json_name e'.1 = true ∧
       load t (path_join p [Normal e'.1]) v = Ok s))).
  - split.
    + intros [?%elem_of_nil|(e & He & [[Hf Hl]|(Hd & subs & e' & Hs & He' & Hf & Hl)])]; [done|..];
        apply andb_prop in Hf as [Hf Hj]; eexists; (split; [exact Hl|]); [left|right]; [by eauto 10|].
      exists (path_join dir [Normal e.1]). split; eauto 10.
    + intros (p & Hl & [(en & e & [= <-] & He & Hj & -> & Hf)|(sub & (en & e & [= <-] & He & -> & Hd) & subs & e' & Hs & He' & Hj & -> & Hf)]);
        right; exists e; (split; [done|]); [left; by rewrite Hf, Hj|right]. split; [done|]. exists subs, e'. by rewrite Hf, Hj.
  - intros acc e. cbn zeta. destruct (is_file _ _ _ (path_join dir _) && is_json_name e.1) eqn:Hf.
    { rewrite elem_of_try_load. apply andb_prop in Hf as [Hf _].
      pose proof (not_file_and_dir t _ Hf). naive_solver. }
    destruct (is_dir _ _ _ (path_join dir _)) eqn:Hd; [|naive_solver].
    destruct (read_dir _ _ _ (path_join dir _)) as [subs|err]; [|naive_solver].
    rewrite (elem_of_foldl _ (λ e' s,
      is_file cwd denied t (path_join (path_join dir [Normal e.1]) [Normal e'.1]) && is_json_name e'.1 = true ∧
      load t (path_join (path_join dir [Normal e.1]) [Normal e'.1]) v = Ok s)); [naive_solver|].
    intros acc' e'. clear Hf. destruct (_ && _); [|split; [by intros; left|by intros [|[? _]]]].
    rewrite elem_of_try_load. split; (intros [|Hl]; [by left|right]); [done|by destruct Hl].
Qed.
End found.

(** ** A weather skill *)

Module Weather.

#[local] Instance text : JsonText := {| from_str s := Ok (Obj [("main", Obj [("temp", Str s)])]); to_string _ := "" |}.

Definition walk (A : Type) (m : gmap string A) : list (string * A) := map_to_list m.
Definition forecast : DynamicToolConfig :=
  mkDynamicTool "forecast" "" Null "get" "https://api.example.com/v1?q={{city}}&key={{secret:weather}}"
    ({["Authorization" := "Bearer {{secret:token}}"]}) None ({["t" := "main.temp"]}) (Some "It is {{t}} degrees").
Definition skill : DynamicSkillConfig := mkDynamic "dynamic.weather" "Weather" "" "1" "api" "" [forecast].
Definition parse (s : string) : result Url string := Ok (mkUrl s "https" (Some "api.example.com") (Some (Domain "api.example.com")) None).
Definition exchange (r : HttpRequest) (w : unit) : unit * result HttpResponse string :=
  (w, Ok (mkHttpResponse 200 "200 OK" (Ok "21"))).
(** No answer of this server is a redirect. *)
Definition next (r : HttpRequest) (a : HttpResponse) : option HttpRequest := None.
Definition too_many (r : HttpRequest) : string := "too many redirects".
Definition ascii_name (s : string) : bool := forallb is_ascii_alnum (str_chars s).
Definition keys (k : string) : option string :=
  if decide (k = "weather") then Some "sk-1" else if decide (k = "token") then Some "sk-2" else None.
Definition more_keys (k : string) : option string := if decide (k = "bank") then Some "sk-3" else keys k.

Definition made : DynamicApiSkill :=
  match from_config ascii_name walk skill (Some (Ok keys)) with
  | Ok s => s
  | Err _ => mkDynamicSkill (mkManifest "" "" [] [] []) skill None
  end.

Definition call (s : DynamicApiSkill) : option (unit * list HttpRequest * result ToolOutput SkillError) :=
  execute_tool parse (λ _, "") walk Ok Ok (Ok tt) (logged exchange) next too_many 1 s "forecast" ({["city" := Str "Bern"]})
    (tt, []).

Example answered :
  call made = Some
    (tt, [mkHttpRequest "GET" "https://api.example.com/v1?q=Bern&key=sk-1" ({["Authorization" := "Bearer sk-2"]}) None None],
     Ok (tool_success (Obj [("formatted", Str "It is 21 degrees"); ("extracted", Obj [("t", Str "21")])]))).
Proof. by vm_compute. Qed.

Example secrets_declared : secrets (manifest made) =
  [mkSecretDescriptor "token" "API key for dynamic skill 'Weather'" true;
   mkSecretDescriptor "weather" "API key for dynamic skill 'Weather'" true].
Proof. by vm_compute. Qed.

Example templates : templates_of walk forecast =
  ["https://api.example.com/v1?q={{city}}&key={{secret:weather}}"; "Bearer {{secret:token}}"].
Proof. by vm_compute. Qed.

Example accepted : is_ok (validate_config ascii_name skill) = true.
Proof. by vm_compute. Qed.
End Weather.

Lemma dynamic_secrets_are_declared_witness :
  Weather.call (with_vault (Some (Ok Weather.keys)) Weather.made) =
  Weather.call (with_vault (Some (Ok Weather.more_keys)) Weather.made).
Proof.
  refine (proj1 (dynamic_secrets_are_declared (J := Weather.text) Weather.parse (λ _, "") Weather.walk Ok Ok (Ok tt) (logged Weather.exchange)
    Weather.next Weather.too_many 1 Weather.ascii_name Weather.skill (Some (Ok Weather.keys)) Weather.made Weather.keys
    Weather.more_keys "forecast" ({["city" := Str "Bern"]}) (tt, []) _ _ _)).
  - by vm_compute.
  - intros t x Ht Hx. apply list_elem_of_singleton in Ht as ->. rewrite Weather.templates in Hx.
    apply elem_of_cons in Hx as [->|Hx]; [split; [by vm_compute|vm_compute; lia]|].
    apply elem_of_cons in Hx as [->|Hx]; [split; [by vm_compute|vm_compute; lia]|by apply elem_of_nil in Hx].
  - intros d Hd. rewrite Weather.secrets_declared in Hd. apply elem_of_cons in Hd as [->|Hd]; [split; [by vm_compute|intros y Hy; vm_compute in Hy; by simplify_eq]|].
    apply elem_of_cons in Hd as [->|Hd]; [split; [by vm_compute|intros y Hy; vm_compute in Hy; by simplify_eq]|by apply elem_of_nil in Hd].
Defined.

(** ** Where a template is filled in an unexpected way *)

Module Templates.
#[local] Instance text : JsonText := {| from_str _ := Err ""; to_string _ := "" |}.

(** A secret whose value refers to itself is filled in for ever, the vault locked. *)
Example self_reference_never_ends fuel :
  fill_secrets fuel (Some (λ _, Some "{{secret:a}}")) "{{secret:a}}" = None.
Proof. induction fuel as [|fuel IH]; [done|exact IH]. Qed.

(** A secret whose value refers to another has that one read, though no template names
    it and the manifest does not declare it. *)
Example undeclared_secret_is_sent :
  let vault k := if decide (k = "a") then Some "{{secret:b}}" else if decide (k = "b") then Some "hidden" else None in
  extract_secret_refs "key={{secret:a}}" = ["a"] ∧
  render_template 2 "key={{secret:a}}" [] (Some vault) = Some (Ok "key=hidden").
Proof. by vm_compute. Qed.

(** A parameter whose value names another is filled in or not, as the map is ordered. *)
Example order_of_parameters :
  let a := ("a", Str "{{b}}") in let b := ("b", Str "x") in
  render_template 0 "{{a}}" [a; b] None = Some (Ok "x") ∧ render_template 0 "{{a}}" [b; a] None = Some (Ok "{{b}}").
Proof. by vm_compute. Qed.

(** A parameter cannot name a secret. *)
Example parameter_names_no_secret :
  render_template 3 "{{a}}" [("a", Str "{{secret:k}}")] (Some (λ _, Some "hidden")) = Some (Ok "{{secret:k}}").
Proof. by vm_compute. Qed.

(** Names of the machine itself that are written otherwise are let through. *)
Example local_names_pass :
  let at_ h := mkUrl "" "https" (Some h) (Some (Domain h)) None in
  Forall (λ h, validate_url_ssrf (λ _, Ok (at_ h)) (λ _, "") "" = Ok (at_ h)) ["localhost."; "api.localhost"; "printer.local."].
Proof. by repeat constructor. Qed.
End Templates.

(** ** The skill factory ([factory.rs])

    The tool with which the entity authors skills and deletes them. *)

Module Factory.

Record SecretEntry : Type := mkSecretEntry { entry_name : string; entry_description : string }.

Definition de_secret_entry (v : Value) : option SecretEntry :=
  n ← required "name" de_str v;
  d ← defaulted "description" de_str "" v;
  Some (mkSecretEntry n d).

(** One [[secrets]] block each; quotes of the description are escaped. *)
Definition format_secrets_toml (l : list SecretEntry) : string :=
  RustStr.join "" (map (λ s,
    nl +:+ "[[secrets]]" +:+ nl +:+ "name = " +:+ quote +:+ entry_name s +:+ quote +:+ nl +:+
    "description = " +:+ quote +:+ replace (entry_description s) quote (String "092" quote) +:+ quote +:+ nl +:+
    "required = true" +:+ nl) l).

Definition manifest_toml (id name desc : string) (l : list SecretEntry) : string :=
  "[skill]" +:+ nl +:+ "id = " +:+ quote +:+ id +:+ quote +:+ nl +:+ "name = " +:+ quote +:+ name +:+ quote +:+ nl +:+
  "version = " +:+ quote +:+ "0.1.0" +:+ quote +:+ nl +:+ "description = " +:+ quote +:+ desc +:+ quote +:+ nl +:+
  "runtime = " +:+ quote +:+ "Native" +:+ quote +:+ nl +:+ "category = " +:+ quote +:+ "Custom" +:+ quote +:+ nl +:+
  format_secrets_toml l.

Definition json_string_map (l : list (string * string)) : Value := Obj (map (λ e, (e.1, Str e.2)) l).

Section factory.
Context `{J : JsonText} {R : Type}.
Context (is_alphanumeric : string → bool) (walk : ∀ A, gmap string A → list (string * A)).
Context (shape_error : Value → string) (to_string_pretty : Value → string).
Context (cwd : list string) (denied : FileTree.Call → path → bool).
(** [SkillRegistry::register], whose outcome is ignored, if there is a registry. *)
Context (register : option (string → DynamicApiSkill → R → R)).
Context (skills_dir : path) (vault : option (result (string → option string) string)).

(** The files and the registry. *)
Notation S := (Tree * R)%type.
Notation F := (M (Tree * R) SkillError).

Definition io {A} (c : M Tree IoError A) : F A := λ s,
  let '(t, r) := c s.1 in ((t, s.2), map_err (λ e, ToolFailed (io_error_str e)) r).

Definition needed (key : string) (params : ToolParams) : F string :=
  lift_result (ok_or (get_text params key) (ToolFailed ("Missing '" +:+ key +:+ "'"))).

Definition default_tools (name : string) : Value :=
  Arr [Obj [("name", Str "execute"); ("description", Str ("Execute " +:+ name));
            ("parameters", Obj [("type", Str "object"); ("properties", Obj []); ("required", Arr [])]);
            ("method", Str "GET"); ("url_template", Str "https://example.com"); ("headers", Obj []);
            ("response_extract", Obj [])]].

(** [serde_json::from_str] into what [de] reads. *)
Definition from_json {A} (de : Value → option A) (s : string) : result A string :=
  match from_str s with Err e => Err e | Ok v => ok_or (de v) (shape_error v) end.

Definition ser_tool (t : DynamicToolConfig) : Value :=
  Obj [("name", Str (tool_name t)); ("description", Str (tool_description t)); ("parameters", tool_parameters t);
       ("method", Str (method t)); ("url_template", Str (url_template t)); ("headers", json_string_map (walk _ (headers t)));
       ("body_template", json_opt (body_template t)); ("response_extract", json_string_map (walk _ (response_extract t)));
       ("response_format", json_opt (response_format t))].

Definition ser_dynamic (c : DynamicSkillConfig) : Value :=
  Obj [("id", Str (dyn_id c)); ("name", Str (dyn_name c)); ("description", Str (dyn_description c));
       ("version", Str (dyn_version c)); ("category", Str (dyn_category c)); ("created_at", Str (dyn_created_at c));
       ("tools", Arr (map ser_tool (dyn_tools c)))].

Definition author_dynamic_api (now id name desc : string) (dir : path) (params : ToolParams) (secrets : list SecretEntry)
  : F unit :=
  let text := default (to_string (default_tools name)) (get_text params "tools_json") in
  tools ← lift_result (map_err (λ e, ToolFailed ("Invalid tools_json: " +:+ e)) (from_json (de_list de_dynamic_tool) text));
  ensure (length tools <=? 10)%nat (ToolFailed "Maximum 10 tools per dynamic skill") ;;
  let json_path := path_join dir (components (replace id "." "_" +:+ ".json")) in
  io (write cwd denied json_path (to_string_pretty (ser_dynamic (mkDynamic id name desc "0.1.0" "Custom" now tools)))) ;;
  (match secrets with
   | [] => mret tt
   | _ => io (write cwd denied (path_join dir [Normal "skill.toml"]) (manifest_toml id name desc secrets))
   end) ;;
  modify (λ s,
    match register with
    | None => s
    | Some reg =>
        match load_from_path is_alphanumeric walk shape_error cwd denied s.1 json_path vault with
        | Ok skill => (s.1, reg id skill s.2)
        | Err _ => s
        end
    end).

Definition author_script (id name desc : string) (dir : path) (params : ToolParams) (secrets : list SecretEntry) : F unit :=
  content ← lift_result (ok_or (get_text params "script_content") (ToolFailed "Missing 'script_content' for script format"));
  filename ← lift_result (ok_or (get_text params "script_filename") (ToolFailed "Missing 'script_filename' for script format"));
  io (write cwd denied (path_join dir [Normal "skill.toml"]) (manifest_toml id name desc secrets)) ;;
  io (write cwd denied (path_join dir (components filename)) content).

Definition author_skill (now : string) (params : ToolParams) : F ToolOutput :=
  id ← needed "id" params;
  name ← needed "name" params;
  let desc := default "" (get_text params "description") in
  how_to ← needed "how_to_use_md" params;
  let format := default "dynamic_api" (get_text params "format") in
  secrets ← lift_result (match get_text params "required_secrets" with
                         | None => Ok []
                         | Some raw => map_err (λ e, ToolFailed ("Invalid required_secrets JSON: " +:+ e))
                                         (from_json (de_list de_secret_entry) raw)
                         end);
  let dir := path_join skills_dir (components id) in
  io (create_dir_all cwd denied dir) ;;
  io (write cwd denied (path_join dir [Normal "how-to-use.md"]) how_to) ;;
  (if decide (format = "dynamic_api") then author_dynamic_api now id name desc dir params secrets
   else author_script id name desc dir params secrets) ;;
  mret (tool_success (Obj [("created", Bool true); ("id", Str id); ("format", Str format);
                           ("registered", Bool (bool_decide (is_Some register)))])).

Definition delete_skill (params : ToolParams) : F ToolOutput :=
  id ← needed "id" params;
  let dir := path_join skills_dir (components id) in
  s ← get_state;
  if path_exists cwd denied s.1 dir && is_dir cwd denied s.1 dir then
    io (remove_dir_all cwd denied dir) ;; mret (tool_success (Bool true))
  else fail (ToolFailed "Skill not found or not a directory").

Definition execute_tool (now tool_name : string) (params : ToolParams) : F ToolOutput :=
  if decide (tool_name = "author_skill") then author_skill now params
  else if decide (tool_name = "delete_skill") then delete_skill params
  else fail (unknown_tool tool_name).

(** *** What the tools do *)

(** Deleting a skill whose identifier is one name takes away what is in its directory
    below the skills directory, and nothing else. *)
Theorem delete_named_skill params id n t r t' r' out real_dir :
  get_text params "id" = Some id → components id = [Normal n] →
  FileTree.walk MAX_SYMLINKS false t cwd skills_dir = Ok real_dir →
  t !! (real_dir ++ [n]) = Some Directory →
  delete_skill params (t, r) = ((t', r'), Ok out) →
  r' = r ∧ t' = not_below (real_dir ++ [n]) t.
Proof.
  intros Hid Hc Hw Hn. unfold delete_skill, needed. rewrite Hid. cbn [ok_or].
  unfold mbind, M_bind, get_state, lift_result. cbn beta iota zeta. rewrite Hc.
  set (p := path_join skills_dir [Normal n]).
  assert (p = skills_dir ++ [Normal n]) as -> by (by unfold p, path_join; destruct skills_dir).
  destruct (_ && _); [|done]. unfold io, remove_dir_all. cbn [fst snd].
  destruct (denied WriteData _); [done|]. unfold place. rewrite last_snoc, removelast_last, Hw. cbn [result_bind].
  destruct (node_at t real_dir) as [[| |]|]; [|done..]. rewrite Hn. cbn. by intros [= <- <- _].
Qed.
End factory.
End Factory.

(** *** Identifiers are joined to the directory as they are *)

Module FactoryDemo.
(** What is written is read as it was made. *)
#[local] Instance text : JsonText := {|
  from_str s := Ok (if decide (s = "{}") then
    Obj [("id", Str "weather"); ("name", Str "N"); ("description", Str ""); ("version", Str "0.1.0");
         ("category", Str "Custom"); ("created_at", Str "now"); ("tools", Arr [])] else Arr []);
  to_string _ := "" |}.

Definition home : Tree :=
  {[ ["home"] := Directory; ["home"; "letter"] := File "dear";
     ["data"] := Directory; ["data"; "skills"] := Directory; ["data"; "skills"; "a"] := Directory;
     ["data"; "skills"; "a"; "skill.toml"] := File ""; ["data"; "identities"] := Directory;
     ["data"; "identities"; "key"] := File "secret" ]}.
Definition skills_dir : path := [RootDir; Normal "data"; Normal "skills"].

Definition execute (tool : string) (params : gmap string Value) : Tree * result ToolOutput SkillError :=
  let '(s, r) := Factory.execute_tool (R := unit) (λ _, true) (λ _ m, map_to_list m) (λ _, "") (λ _, "{}") [] (λ _ _, false)
                   (Some (λ _ _ r, r)) skills_dir None "now" tool params (home, tt) in (s.1, r).
Definition deleted (id : string) : Tree * result ToolOutput SkillError := execute "delete_skill" ({["id" := Str id]}).

Example empty_id_deletes_all_skills :
  is_ok (deleted "").2 = true ∧ (deleted "").1 !! ["data"; "skills"; "a"; "skill.toml"] = None ∧
  (deleted "").1 !! ["data"; "skills"] = None.
Proof. by vm_compute. Qed.

Example delete_escapes :
  is_ok (deleted "../identities").2 = true ∧ (deleted "../identities").1 !! ["data"; "identities"; "key"] = None ∧
  is_ok (deleted "/home").2 = true ∧ (deleted "/home").1 !! ["home"; "letter"] = None.
Proof. by vm_compute. Qed.

Definition authored (id : string) : Tree * result ToolOutput SkillError :=
  execute "author_skill" (<["id" := Str id]> (<["name" := Str "N"]> (<["how_to_use_md" := Str "read me"]>
    (<["format" := Str "script"]> (<["script_content" := Str "run"]> ({["script_filename" := Str "/home/letter"]})))))).

Example script_replaces_any_file :
  is_ok (authored "custom.x").2 = true ∧ (authored "custom.x").1 !! ["home"; "letter"] = Some (File "run") ∧
  (authored "../../home").1 !! ["home"; "how-to-use.md"] = Some (File "read me").
Proof. by vm_compute. Qed.

(** A configuration that is not accepted is written, and reported as registered. *)
Example refused_skill_is_reported :
  let '(t, r) := execute "author_skill" (<["id" := Str "weather"]> (<["name" := Str "N"]> ({["how_to_use_md" := Str ""]}))) in
  t !! ["data"; "skills"; "weather"; "weather.json"] = Some (File "{}") ∧
  load_from_path (λ _, true) (λ _ m, map_to_list m) (λ _, "") [] (λ _ _, false) t
    (path_join skills_dir [Normal "weather"; Normal "weather.json"]) None = Err "Skill ID must start with 'dynamic.' or 'custom.'" ∧
  r = Ok (tool_success (Obj [("created", Bool true); ("id", Str "weather"); ("format", Str "dynamic_api"); ("registered", Bool true)])).
Proof. by vm_compute. Qed.

(** A quote and a line break in a description add a line to the manifest. *)
Example description_adds_a_line :
  contains (Factory.manifest_toml "custom.x" "N" ("d" +:+ quote +:+ nl +:+ "permissions = [1]" +:+ nl +:+ "x = " +:+ quote) [])
    (nl +:+ "permissions = [1]" +:+ nl) = true.
Proof. by vm_compute. Qed.
End FactoryDemo.

(** ** Topics of the skills ([topology.rs]) *)

Module Topology.

Record RegistrySkillEntry : Type := mkEntry { entry_id : string; enabled : bool }.

Record SkillTopicBinding : Type := mkBinding {
  request_topic : string;
  response_topic : string;
  worker_group : string;
}.

(** The identifiers of a [BTreeSet]. *)
Definition enabled_ids (l : list RegistrySkillEntry) : list string :=
  dedup (sort_by String.leb (List.filter (λ id, negb (str_is_empty id)) (map (λ e, trim (entry_id e)) (List.filter enabled l)))).

Definition topic_char (c : string) : bool :=
  match c with
  | String a EmptyString => is_ascii_alnum a || bool_decide (c = ".") || bool_decide (c = "_") || bool_decide (c = "-")
  | _ => false
  end.
Definition sanitize_topic_name (skill_id : string) : string :=
  RustStr.join "" (map (λ c, if topic_char c then c else "_") (chars skill_id)).

Definition binding_for_skill (skill_id : string) : SkillTopicBinding :=
  let name := sanitize_topic_name skill_id in
  let base := "topic.skill." +:+ name in
  mkBinding (base +:+ ".request") (base +:+ ".response") ("skill-worker." +:+ name).

(** What the broker is asked for. *)
Inductive BrokerCall : Type :=
| EnsureTopic (topic : string)
| EnsureGroup (topic group : string)
| Subscribe (skill_id topic group : string).

Section topology.
Context `{J : JsonText} {W : Type}.
(** The reading of the registry's text, which is TOML; the broker. *)
Context (parse_toml : string → result (list RegistrySkillEntry) string) (display_path : string).
Context (broker : BrokerCall → M W string unit).

Definition load_enabled_skill_ids (content : result string string) : result (list string) string :=
  let? text := map_err (λ e, "failed reading registry.toml at " +:+ display_path +:+ ": " +:+ e) content in
  let? l := map_err (λ e, "failed parsing registry.toml at " +:+ display_path +:+ ": " +:+ e) (parse_toml text) in
  Ok (enabled_ids l).

Definition provision_one (skill_id : string) : M W string unit :=
  let b := binding_for_skill skill_id in
  broker (EnsureTopic (request_topic b)) ;; broker (EnsureTopic (response_topic b)) ;;
  broker (EnsureGroup (request_topic b) (worker_group b)) ;;
  broker (Subscribe skill_id (request_topic b) (worker_group b)).

Definition provision_all_skills (content : result string string) : M W string (list (string * SkillTopicBinding)) :=
  ids ← lift_result (load_enabled_skill_ids content);
  for_each ids provision_one ;;
  mret (map (λ id, (id, binding_for_skill id)) ids).

(** The answer of a worker to a message: its payload and its headers. *)
Definition worker_answer (skill_id msg_id : string) (headers : gmap string string) : string * gmap string string :=
  let b := binding_for_skill skill_id in
  (to_string (Obj [("status", Str "received"); ("skill_id", Str skill_id); ("worker_group", Str (worker_group b));
                   ("request_topic", Str (request_topic b)); ("request_message_id", Str msg_id)]),
   <["request_message_id" := msg_id]> (<["worker_group" := worker_group b]> (<["skill_id" := skill_id]> headers))).

End topology.

Lemma enabled_ids_iff l id :
  id ∈ enabled_ids l ↔ id ≠ "" ∧ ∃ e, e ∈ l ∧ enabled e = true ∧ trim (entry_id e) = id.
Proof.
  unfold enabled_ids. rewrite elem_of_dedup, elem_of_sort_by, list_elem_of_In, List.filter_In, in_map_iff.
  setoid_rewrite List.filter_In. setoid_rewrite list_elem_of_In. destruct id; simpl; naive_solver.
Qed.

Lemma for_each_calls (f : string → list BrokerCall) (run : string → M (list BrokerCall) string unit) l s :
  (∀ id s, run id s = (s ++ f id, Ok tt)) → for_each l run s = (s ++ concat (map f l), Ok tt).
Proof.
  intros Hrun. revert s. induction l as [|id l IH]; intros s; [simpl; by rewrite app_nil_r|].
  cbn [for_each]. rewrite (M_bind_ok _ _ _ _ _ (Hrun id s)), IH. simpl. by rewrite <- app_assoc.
Qed.
Definition calls_for (id : string) : list BrokerCall :=
  let b := binding_for_skill id in
  [EnsureTopic (request_topic b); EnsureTopic (response_topic b); EnsureGroup (request_topic b) (worker_group b);
   Subscribe id (request_topic b) (worker_group b)].

(** With a broker that does what it is asked, each enabled skill of the registry gets
    its two topics, its group and one worker, in this order, and no other skill does. *)
Theorem provision_spec parse_toml display_path text l :
  parse_toml text = Ok l →
  let log c := λ s, (s ++ [c], Ok tt) : list BrokerCall * result unit string in
  provision_all_skills parse_toml display_path log (Ok text) [] =
    (concat (map calls_for (enabled_ids l)), Ok (map (λ id, (id, binding_for_skill id)) (enabled_ids l))) ∧
  ∀ id, id ∈ enabled_ids l ↔ id ≠ "" ∧ ∃ e, e ∈ l ∧ enabled e = true ∧ trim (entry_id e) = id.
Proof.
  intros Hp log. split; [|apply enabled_ids_iff]. unfold provision_all_skills, load_enabled_skill_ids.
  cbn [map_err result_bind]. rewrite Hp. cbn [map_err result_bind].
  assert (∀ id s, provision_one log id s = (s ++ calls_for id, Ok tt)) as Hone.
  { intros id s. unfold provision_one, log, mbind, M_bind. cbn beta iota zeta. by rewrite <- !app_assoc. }
  unfold lift_result. rewrite M_bind_eq.
  by rewrite (M_bind_ok _ _ _ _ _ (for_each_calls calls_for (provision_one log) (enabled_ids l) [] Hone)).
Qed.

(** Identifiers that differ in other characters share their topics and their group: a
    request is answered in the name of either skill. *)
Example topics_are_shared :
  binding_for_skill "dev/ping" = binding_for_skill "dev ping" ∧
  length (enabled_ids [mkEntry "dev/ping" true; mkEntry "dev ping" true]) = 2.
Proof. by vm_compute. Qed.
End Topology.
